(* ===== verification/_CoqProject ===== *)
-Q . S2P
Prelude.v
Params.v
Machine.v
Spinlock.v
Sched.v
CString.v
Kalloc.v
Vm.v
PageTable.v
VmSpec.v
Bio.v
BioSpec.v
Block.v
Crash.v
Log.v
LogSpec.v
Tx.v
Recovery.v
Decide.v
Examples.v
Pipe.v
PipeSpec.v
Fs.v
FsSpec.v
DirSpec.v
PathSpec.v
File.v
Proc.v
ProcSpec.v
Console.v
Virtio.v
VirtioSpec.v
Args.v
Sysfile.v
Exec.v
Trap.v
Asm.v
AsmSpec.v
TrapSpec.v
Mkfs.v
FsExamples.v
Grep.v
Gpt.v
Sh.v
ShSpec.v
Umalloc.v
UmallocSpec.v
Tty.v
Fdt.v
FdtSafe.v
FdtTree.v
Platform.v
PlatformSpec.v
Smp.v
SmpSpec.v
Sd.v
SdSpec.v
Lab1.v
Lab1Spec.v
