(* ===== verification/Prelude.v ===== *)
(** * xv6-spec: a verification development

    ** The program

    A small Unix-like kernel for RISC-V (kernel/): spinlocks and a round-robin
    scheduler, a page allocator and Sv39 page tables, a buffer cache, a redo log with
    group commit, a file system with inodes, directories and paths, open files, pipes,
    system calls, exec, traps, and drivers for a UART, an interrupt controller and a
    virtio disk.  With it come the program that builds the root file system image
    (mkfs/mkfs.c), a bare-metal reader of a fixture image with its SHA-256
    (lab1/baremetal), and a port to the VisionFive2 board (platform/visionfive2), a
    second kernel with its own user programs, which learns its memory, harts and devices
    from a device tree through the reader of third_party/libfdt.  In the kernel the
    system call layer calls files, pipes and processes; files call inodes; inodes read
    and log blocks; the log sits on the buffer cache, the cache on the disk driver;
    everything that blocks uses sleep and wakeup of the scheduler.

    ** The model

    The whole kernel state is one record, [kstate] (Machine.v), with one field per
    global of the C files; memory is a finite map of bytes (CString.v).  A kernel
    function is a definition in the monad [K]: it takes a state to an outcome, [Ret] with
    a value, [Panic] with the message of panic, [Swtch] where it gives up the processor
    inside sched, or [Fault] for what C leaves undefined (an index out of range).  A
    function that sleeps has a companion [f_return] for the code it runs when it is
    dispatched again.  Integers are [Z] with their wrap-around written out ([u8] to
    [u64], [i16], [i32]).  Locks: the set of spinlocks the hart holds; sleep locks are
    fields of buffers and inodes.  The addresses of symbols and of assembly entry points
    are the parameters of the class [Linker]; the contents of padding bytes and of the
    machine timer are parameters of the trap path.

    The kernel:
    - Params.v: param.h, memlayout.h, riscv.h, fs.h, buf.h constants.
    - Machine.v: struct proc, buf, inode, file, pipe, superblock, log, the device state.
    - Spinlock.v: spinlock.c.  Sched.v, Proc.v: proc.c.  CString.v: string.c.
    - Kalloc.v: kalloc.c.  Vm.v: vm.c.  Bio.v: bio.c.  Log.v: log.c.  Fs.v: fs.c.
    - File.v: file.c and pipealloc.  Pipe.v: pipe.c.  Args.v: the argument part of
      syscall.c.  Sysfile.v: sysfile.c.  Exec.v: exec.c and sysproc.c.
    - Trap.v: the dispatch of syscall.c, trap.c, main.c.  Console.v: console.c, uart.c,
      printk.c, plic.c, boot.c.  Virtio.v: virtio_disk.c.
    - Asm.v: trampoline.S, kernelvec.S, swtch.S over a semantics of their instructions.

    Beside it, each with a state of its own:
    - Mkfs.v: mkfs.c.  Lab1.v: lab1/baremetal/sha256.c and main.c.
    - Gpt.v: gpt.c of the port.  Tty.v: its console.c.  Platform.v: its platform.c and
      sbi.c, over a firmware parameter.  Sd.v: its sd.c, over a controller given by what
      a load from and a store to each register do.
    - Smp.v: spinlock.c and, of proc.c, the scheduler, sched, yield, sleep, wakeup, kkill
      and the end of kexit of the port, which runs on several harts: a transition system
      whose steps are single accesses to shared memory by one hart, and interrupts.
    - Fdt.v: fdt.c and fdt_ro.c of libfdt, on a blob of bytes; a read outside the blob
      is the outcome [FFault].
    - Grep.v, Sh.v, Umalloc.v: grep.c, sh.c and umalloc.c of the port's user programs.

    ** What the theorems show

    - Crash safety (Crash.v, LogSpec.v, Recovery.v): a crash during a group commit,
      torn sector writes included, leaves all of the old or all of the new blocks after
      recovery; recovery may itself crash any number of times.
    - The buffer cache (BioSpec.v, Block.v): the linked list stays a ring, identities
      stay unique, a block read through the cache is one function of the state.
    - Transactions (Tx.v): the class [TxLayer] states what the file system needs of the
      log and the cache; [log_tx] is the instance that the two implement.
    - Files and directories (FsSpec.v, DirSpec.v, PathSpec.v), proved against
      [TxLayer]: inode and block allocation, readi and writei as reads and writes of the
      file's bytes, directories as maps from names to inode numbers, namei as the
      resolution of a path in the tree of the image.  FsExamples.v runs them on the image
      that mkfs builds.
    - Memory (Kalloc.v, PageTable.v, VmSpec.v): the free list, mappages, and the user
      copies against a byte-at-a-time address space, failures included.
    - Pipes (PipeSpec.v): a pipe is a bounded FIFO queue.
    - Locks and scheduling (Spinlock.v, Sched.v, ProcSpec.v): interrupt nesting, no lost
      wakeup, one running process, and an exit that a waiting parent never misses.
    - The disk driver (VirtioSpec.v): descriptors are neither lost nor shared over any
      history, the interrupt handler on any content of the used ring, what the device
      sees of a request.
    - Traps and assembly (AsmSpec.v, TrapSpec.v): what traps and context switches
      preserve, and a system call from the user's ecall to its return.
    - The board (FdtSafe.v, FdtTree.v, PlatformSpec.v): on any blob with a valid header
      the device-tree reader stays inside it and ends; on the encoding of a tree it
      computes lookups in the tree; the start-up built on it leaves reserved memory
      alone and numbers the harts.
    - Several harts (SmpSpec.v): a typing of threads that every step preserves; from it
      mutual exclusion of spinlocks, that a process runs on one hart at most, and that no
      wakeup is lost, in every interleaving.
    - The card (SdSpec.v): the classes [Conforms] and [Prompt] state what the driver needs
      of the controller and the card; against them jh7110_sd_rw is a block device on the
      partition that jh7110_sd_init finds with gpt_find_xv6fs.  A simulated card is an
      instance of both.
    - The port's other parts: Gpt.v (partition search, CRC-32), Tty.v (the console as a
      queue and a line under edit), Grep.v (the language of patterns), ShSpec.v (the
      shell's grammar, and pipelines as processes over descriptors), UmallocSpec.v (the
      heap over any sequence of calls).
    - SHA-256 (Lab1Spec.v): the code computes the digest FIPS 180-4 defines.
    - Decide.v gives boolean versions of the storage invariants, and Examples.v concrete
      states on which the theorems are applied.

    ** Fuel

    Loops that are not structural take fuel computed from their inputs: the number of
    pages or blocks of the range for copies, reads and writes ([copy_fuel], [rw_fuel],
    [mappages_fuel]), the number of entries for directories ([dir_fuel]), the length of
    the path for dnamex, the bytes left for the receive loop of the UART, 32 digits for
    printint, the bytes of the blob for every walk over a device tree ([fuel_]).  The
    polling loops of the card driver have the bound of the code, ten million rounds, as a
    binary number.  The
    theorems on these loops prove that the fuel is enough: the results are [Ret] (or
    [FOk]), never the [Fault] of an exhausted loop.

    ** Not modelled

    entry.S and start.c (machine-mode setup before main); the devices themselves; time;
    interrupts between two instructions in the sequential models, as that kernel runs on
    one hart with interrupts off in every critical section; memory weaker than
    sequentially consistent in Smp.v, where the locks' acquire and release orderings are
    what the code relies on; the Linux reader of lab1 (system calls and
    stdio); the test programs of user/; of the VisionFive2 port the rest of the kernel,
    which is xv6-riscv on other hardware and repeats much of the kernel modelled here,
    and its other user programs; of libfdt the files that write trees, which no program
    here is linked with; tools and tests. *)

From Stdlib Require Export ZArith Lia.
From stdpp Require Export base numbers strings option gmap sets list.

#[export] Set Default Goal Selector "!".
Open Scope Z_scope.

(** ** C integers

    A w-bit unsigned value is a [Z] in [0, 2^w); every arithmetic result of the
    C code that may leave the range is wrapped by one of these functions. *)
Definition u8 (x : Z) : Z := x mod 2 ^ 8.
Definition u16 (x : Z) : Z := x mod 2 ^ 16.
Definition u32 (x : Z) : Z := x mod 2 ^ 32.
Definition u64 (x : Z) : Z := x mod 2 ^ 64.

(** Two's complement conversion to a signed w-bit value ((int) and (short)). *)
Definition signed (w : Z) (x : Z) : Z :=
  let y := x mod 2 ^ w in if y <? 2 ^ (w - 1) then y else y - 2 ^ w.
Definition i16 (x : Z) : Z := signed 16 x.
Definition i32 (x : Z) : Z := signed 32 x.

Lemma u32_i32 x : u32 (i32 x) = u32 x.
Proof.
  unfold u32, i32, signed. destruct (_ <? _).
  - by rewrite Zmod_mod.
  - rewrite Zminus_mod, Z_mod_same_full, Z.sub_0_r, !Zmod_mod. done.
Qed.

Lemma i32_small x : 0 <= x < 2 ^ 31 -> i32 x = x.
Proof.
  intros H. unfold i32, signed. rewrite Z.mod_small by lia.
  destruct (Z.ltb_spec x (2 ^ (32 - 1))); [done|]. lia.
Qed.

Lemma u32_small x : 0 <= x < 2 ^ 32 -> u32 x = x.
Proof. intros H. unfold u32. by apply Z.mod_small. Qed.
Lemma u64_small x : 0 <= x < 2 ^ 64 -> u64 x = x.
Proof. intros H. unfold u64. by apply Z.mod_small. Qed.

(** The bytes of a string literal, without the terminator. *)
Definition bytes_of_string (s : string) : list Z :=
  (fun a => Z.of_N (Ascii.N_of_ascii a)) <$> String.list_ascii_of_string s.

(** ** Wait channels and locks

    The C code identifies a wait channel and a lock by its address; the model
    names each such object. *)

(** The sleep locks of the kernel: one per buffer, one per cached inode. *)
Inductive slock : Type :=
| SlBuf (i : nat)
| SlInode (i : nat).

(** Wait channels: the addresses the code passes to sleep and wakeup. *)
Inductive chan : Type :=
| ChLog
| ChSleeplock (l : slock)
| ChPipeRead (pi : Z)
| ChPipeWrite (pi : Z)
| ChProc (i : nat)
| ChDiskFree
| ChDiskInfo (i : nat).

(** Spinlocks. *)
Inductive lock : Type :=
| LkKmem
| LkCons
| LkWait
| LkProc (i : nat)
| LkBcache
| LkSleep (l : slock)
| LkLog
| LkIcache
| LkFtable
| LkPipe (pi : Z)
| LkDisk.

#[export] Instance slock_eq_dec : EqDecision slock.
Proof. solve_decision. Defined.
#[export] Instance chan_eq_dec : EqDecision chan.
Proof. solve_decision. Defined.
#[export] Instance lock_eq_dec : EqDecision lock.
Proof. solve_decision. Defined.

#[export] Instance slock_countable : Countable slock.
Proof.
  refine (inj_countable' (fun l => match l with SlBuf i => inl i | SlInode i => inr i end)
            (fun x => match x with inl i => SlBuf i | inr i => SlInode i end) _).
  by intros [].
Defined.

#[export] Instance lock_countable : Countable lock.
Proof.
  refine (inj_countable'
    (fun l => match l with
      | LkKmem => inl (inl 0%nat) | LkCons => inl (inl 1%nat)
      | LkWait => inl (inl 2%nat) | LkBcache => inl (inl 3%nat)
      | LkLog => inl (inl 4%nat) | LkIcache => inl (inl 5%nat)
      | LkFtable => inl (inl 6%nat) | LkDisk => inl (inl 7%nat)
      | LkProc i => inl (inr i)
      | LkSleep l => inr (inl l)
      | LkPipe p => inr (inr p)
      end)
    (fun x => match x with
      | inl (inl n) =>
          match n with
          | 0%nat => LkKmem | 1%nat => LkCons | 2%nat => LkWait | 3%nat => LkBcache
          | 4%nat => LkLog | 5%nat => LkIcache | 6%nat => LkFtable | _ => LkDisk
          end
      | inl (inr i) => LkProc i
      | inr (inl l) => LkSleep l
      | inr (inr p) => LkPipe p
      end) _).
  by intros [].
Defined.

(** ** Outcomes and the kernel monad

    A kernel routine run on one hart either returns a value, panics (the hart
    halts in [panic], in the state reached so far), switches to the scheduler in
    [sched] (the process table says why: asleep on a channel, yielding or a
    zombie), or performs an access the machine faults on (a null dereference or
    an out of bounds array access). *)
Inductive outcome (S A : Type) : Type :=
| Ret (a : A) (s : S)
| Panic (msg : string) (s : S)
| Swtch (s : S)
| Fault (why : string) (s : S).
Arguments Ret {S A} a s.
Arguments Panic {S A} msg s.
Arguments Swtch {S A} s.
Arguments Fault {S A} why s.

Definition M (S A : Type) : Type := S -> outcome S A.

Section Monad.
Context {S : Type}.

Definition ret {A} (a : A) : M S A := fun s => Ret a s.

Definition bind {A B} (m : M S A) (k : A -> M S B) : M S B :=
  fun s => match m s with
           | Ret a s' => k a s'
           | Panic e s' => Panic e s'
           | Swtch s' => Swtch s'
           | Fault e s' => Fault e s'
           end.

Definition panic {A} (msg : string) : M S A := fun s => Panic msg s.
Definition fault {A} (why : string) : M S A := fun s => Fault why s.
Definition gets {A} (f : S -> A) : M S A := fun s => Ret (f s) s.
Definition modify (f : S -> S) : M S unit := fun s => Ret tt (f s).

(** [if (c) m;] with no else branch. *)
Definition when (c : bool) (m : M S unit) : M S unit :=
  if c then m else ret tt.

(** A loop over a list of indices whose body may leave the enclosing
    function early ([Some r]) or go on to the next index ([None]). *)
Fixpoint search {I R} (xs : list I) (body : I -> M S (option R)) : M S (option R) :=
  match xs with
  | [] => ret None
  | x :: xs' =>
      bind (body x) (fun o => match o with
                              | Some r => ret (Some r)
                              | None => search xs' body
                              end)
  end.

(** A loop over a list of indices with no early exit. *)
Fixpoint each {I} (xs : list I) (body : I -> M S unit) : M S unit :=
  match xs with
  | [] => ret tt
  | x :: xs' => bind (body x) (fun _ => each xs' body)
  end.
End Monad.

Declare Scope xv6_scope.
Delimit Scope xv6_scope with xv6.
Notation "'let!' x := m 'in' k" := (bind m (fun x => k))
  (at level 10, x name, m at level 100, k at level 200,
   format "'[v' 'let!'  x  :=  m  'in' '/' k ']'") : xv6_scope.
Notation "'let!' ' p := m 'in' k" := (bind m (fun x => match x with p => k end))
  (at level 10, p pattern, m at level 100, k at level 200,
   format "'[v' 'let!'  ' p  :=  m  'in' '/' k ']'") : xv6_scope.
Notation "'do!' m ; k" := (bind m (fun _ => k))
  (at level 10, m at level 100, k at level 200,
   format "'[v' 'do!'  m ; '/' k ']'") : xv6_scope.
Open Scope xv6_scope.

Section MonadLemmas.
Context {S : Type}.

Lemma bind_Ret {A B} (m : M S A) (k : A -> M S B) s a s' :
  m s = Ret a s' -> bind m k s = k a s'.
Proof. unfold bind. by intros ->. Qed.

Lemma bind_cong {A B} (m m' : M S A) (k : A -> M S B) s s' :
  m s = m' s' -> bind m k s = bind m' k s'.
Proof. unfold bind. by intros ->. Qed.

Lemma bind_Ret_inv {A B} (m : M S A) (k : A -> M S B) s b s' :
  bind m k s = Ret b s' -> exists a s1, m s = Ret a s1 /\ k a s1 = Ret b s'.
Proof. unfold bind. destruct (m s) eqn:E; intros H; try done. eauto. Qed.

Lemma bind_assoc {A B C} (m : M S A) (f : A -> M S B) (g : B -> M S C) s :
  bind (bind m f) g s = bind m (fun a => bind (f a) g) s.
Proof. unfold bind. by destruct (m s). Qed.

Lemma bind_gets {A B} (f : S -> A) (k : A -> M S B) s :
  bind (gets f) k s = k (f s) s.
Proof. done. Qed.

Lemma bind_modify {B} (f : S -> S) (k : unit -> M S B) s :
  bind (modify f) k s = k tt (f s).
Proof. done. Qed.

Lemma bind_ret {A B} (a : A) (k : A -> M S B) s : bind (ret a) k s = k a s.
Proof. done. Qed.

(** Rule of the [search] loop: when every body up to an index passes on
    without changing the state, and the body at that index leaves, the loop
    leaves there. *)
Lemma search_skip {I R} (xs : list I) (body : I -> M S (option R)) s :
  (forall x, x ∈ xs -> body x s = Ret None s) -> search xs body s = Ret None s.
Proof.
  induction xs as [|x xs IH]; intros H; [done|]. cbn [search].
  rewrite (bind_Ret _ _ _ _ _ (H x ltac:(left))). apply IH.
  intros y Hy. apply H. by right.
Qed.

Lemma search_hit {I R} (xs ys : list I) (y : I) (body : I -> M S (option R)) s r s' :
  (forall x, x ∈ xs -> body x s = Ret None s) ->
  body y s = Ret (Some r) s' ->
  search (xs ++ y :: ys) body s = Ret (Some r) s'.
Proof.
  induction xs as [|x xs IH]; intros H Hy; cbn [search app].
  - by rewrite (bind_Ret _ _ _ _ _ Hy).
  - rewrite (bind_Ret _ _ _ _ _ (H x ltac:(left))). apply IH; [|done].
    intros z Hz. apply H. by right.
Qed.
End MonadLemmas.

(** ** Partial-correctness postconditions

    [post m s Q W]: if [m] run from [s] returns, [Q] holds of the value and the
    state; if it switches to the scheduler, [W] holds of the state. *)
Section Post.
Context {S : Type}.

Definition post {A} (m : M S A) (s : S) (Q : A -> S -> Prop) (W : S -> Prop) : Prop :=
  match m s with
  | Ret a s' => Q a s'
  | Swtch s' => W s'
  | Panic _ _ | Fault _ _ => True
  end.

Lemma post_bind {A B} (m : M S A) (k : A -> M S B) s Q W :
  post m s (fun a s' => post (k a) s' Q W) W -> post (bind m k) s Q W.
Proof. unfold post, bind. by destruct (m s). Qed.

Lemma post_mono {A} (m : M S A) s (Q Q' : A -> S -> Prop) (W W' : S -> Prop) :
  post m s Q W -> (forall a s', Q a s' -> Q' a s') -> (forall s', W s' -> W' s') ->
  post m s Q' W'.
Proof. unfold post. destruct (m s); auto. Qed.

Lemma post_ret {A} (a : A) s (Q : A -> S -> Prop) W : Q a s -> post (ret a) s Q W.
Proof. done. Qed.

Lemma post_panic {A} e s (Q : A -> S -> Prop) W : post (panic e) s Q W.
Proof. done. Qed.

Lemma post_Ret {A} (m : M S A) s Q W a s' : post m s Q W -> m s = Ret a s' -> Q a s'.
Proof. unfold post. intros H E. by rewrite E in H. Qed.

Lemma post_Swtch {A} (m : M S A) s Q W s' : post m s Q W -> m s = Swtch s' -> W s'.
Proof. unfold post. intros H E. by rewrite E in H. Qed.

Lemma post_eq {A} (m : M S A) s (Q : A -> S -> Prop) W a s' :
  m s = Ret a s' -> Q a s' -> post m s Q W.
Proof. unfold post. by intros ->. Qed.

Lemma post_modify f s (Q : unit -> S -> Prop) W : Q tt (f s) -> post (modify f) s Q W.
Proof. done. Qed.

Lemma post_each {I} (xs : list I) (body : I -> M S unit) (J : S -> Prop) (W : S -> Prop) s :
  J s -> (forall x s, x ∈ xs -> J s -> post (body x) s (fun _ => J) W) ->
  post (each xs body) s (fun _ => J) W.
Proof.
  revert s. induction xs as [|x xs IH]; intros s HJ Hb; [done|].
  cbn [each]. apply post_bind.
  eapply post_mono; [apply Hb; [left|done]| |done].
  intros ? s' HJ'. apply IH; [done|]. intros y s0 Hy. apply Hb. by right.
Qed.

Lemma post_search {I R} (xs : list I) (body : I -> M S (option R)) (J : S -> Prop)
    (Q : option R -> S -> Prop) (W : S -> Prop) s :
  J s -> (forall s, J s -> Q None s) ->
  (forall x s, x ∈ xs -> J s ->
     post (body x) s (fun o s' => match o with Some r => Q (Some r) s' | None => J s' end) W) ->
  post (search xs body) s Q W.
Proof.
  revert s. induction xs as [|x xs IH]; intros s HJ HN Hb; [by apply post_ret, HN|].
  cbn [search]. apply post_bind.
  eapply post_mono; [apply Hb; [left|done]| |done].
  intros [r|] s' H; [done|]. apply IH; [done|done|]. intros y s0 Hy. apply Hb. by right.
Qed.
End Post.

(** ** Runs that return or panic

    [runs may m s Q]: from [s] the program returns in a state that satisfies [Q], or
    panics, which it does only if [may]; it neither faults nor gives up the processor. *)
Section Runs.
Context {S : Type} (may : Prop).

Definition runs {A} (m : M S A) (s : S) (Q : A -> S -> Prop) : Prop :=
  match m s with Ret a s' => Q a s' | Panic _ _ => may | Swtch _ | Fault _ _ => False end.

Lemma runs_ret {A} (a : A) s (Q : A -> S -> Prop) : Q a s -> runs (ret a) s Q.
Proof. done. Qed.
Lemma runs_panic {A} e s (Q : A -> S -> Prop) : may -> runs (panic e) s Q.
Proof. done. Qed.
Lemma runs_bind {A B} (m : M S A) (k : A -> M S B) s R (Q : B -> S -> Prop) :
  runs m s R -> (forall a s', R a s' -> runs (k a) s' Q) -> runs (bind m k) s Q.
Proof. unfold runs, bind. intros H1 H2. destruct (m s); [by apply H2|done|done|done]. Qed.
Lemma runs_mono {A} (m : M S A) s (R Q : A -> S -> Prop) :
  runs m s R -> (forall a s', R a s' -> Q a s') -> runs m s Q.
Proof. unfold runs. intros H1 H2. destruct (m s); [by apply H2|done|done|done]. Qed.
Lemma runs_Ret {A} (m : M S A) s (Q : A -> S -> Prop) a s' : runs m s Q -> m s = Ret a s' -> Q a s'.
Proof. unfold runs. intros H E. by rewrite E in H. Qed.
Lemma runs_gets {A B} (f : S -> A) (k : A -> M S B) s Q : runs (k (f s)) s Q -> runs (bind (gets f) k) s Q.
Proof. done. Qed.
End Runs.
Lemma runs_may {S A} (may may' : Prop) (m : M S A) s Q : (may -> may') -> runs may m s Q -> runs may' m s Q.
Proof. unfold runs. intros H1 H2. destruct (m s); [done|by apply H1|done|done]. Qed.
Lemma runs_returns {S A} (m : M S A) s Q : runs False m s Q -> exists a s', m s = Ret a s' /\ Q a s'.
Proof. unfold runs. destruct (m s); [eauto|done|done|done]. Qed.

(** Run the monad: push the state through the leading statement. *)
Ltac mstep := first
  [ rewrite bind_gets | rewrite bind_modify | rewrite bind_ret | rewrite bind_assoc ].
Ltac msteps := repeat (mstep; cbn beta).

(** Run the leading statement by an equation for its result. *)
Ltac run_ret H := rewrite (bind_Ret _ _ _ _ _ H).

(** Decide the boolean tests of the goal that are settled by congruence. *)
Ltac bdec := repeat first
  [ rewrite bool_decide_true by (done || congruence)
  | rewrite bool_decide_false by (done || congruence) ]; cbn [andb orb negb].

(** ** Bits *)
Lemma lor_bound n a b : 0 <= n -> 0 <= a < 2 ^ n -> 0 <= b < 2 ^ n -> 0 <= Z.lor a b < 2 ^ n.
Proof.
  intros Hn Ha Hb. rewrite <- (Z.mod_small a (2 ^ n)), <- (Z.mod_small b (2 ^ n)) by done.
  rewrite <- !Z.land_ones, <- Z.land_lor_distr_l, Z.land_ones by done. apply Z.mod_pos_bound. lia.
Qed.

(** The low bits are disjoint from a shifted value. *)
Lemma shiftl_lor n x a : 0 <= n -> 0 <= a < 2 ^ n -> Z.lor (x * 2 ^ n) a = x * 2 ^ n + a.
Proof.
  intros Hn Ha. rewrite <- Z.lxor_lor, Z.add_nocarry_lxor; [done| |].
  all: rewrite <- Z.shiftl_mul_pow2 by done; rewrite <- (Z.mod_small a (2 ^ n)), <- Z.land_ones by done;
    apply Z.bits_inj'; intros k Hk; rewrite !Z.land_spec, Z.bits_0;
    destruct (decide (k < n)); [rewrite Z.shiftl_spec_low by lia; done|
      rewrite (Z.ones_spec_high n k) by lia; by rewrite !andb_false_r].
Qed.

(** ** Byte strings

    A byte is a [Z] in [0, 256).  Fields of C structs stored in raw memory (page
    table entries, on-disk structures) are little-endian byte strings. *)
Definition is_byte (b : Z) : Prop := 0 <= b < 256.

Fixpoint le_bytes (n : nat) (v : Z) : list Z :=
  match n with
  | O => []
  | S n' => v mod 256 :: le_bytes n' (v / 256)
  end.

Fixpoint le_val (l : list Z) : Z :=
  match l with
  | [] => 0
  | b :: l' => b + 256 * le_val l'
  end.

Lemma length_le_bytes n v : length (le_bytes n v) = n.
Proof. revert v. induction n; intros v; cbn; [done|]. by rewrite IHn. Qed.

Lemma le_bytes_byte n v : Forall is_byte (le_bytes n v).
Proof.
  revert v. induction n; intros v; cbn; constructor; [|done].
  apply Z.mod_pos_bound. lia.
Qed.

Lemma le_val_bytes n v : le_val (le_bytes n v) = v mod 256 ^ Z.of_nat n.
Proof.
  revert v. induction n as [|n IH]; intros v; cbn [le_bytes le_val].
  - by rewrite Z.mod_1_r.
  - rewrite IH, Nat2Z.inj_succ, Z.pow_succ_r by lia.
    rewrite (Z.rem_mul_r v 256) by (try apply Z.pow_nonzero; lia). done.
Qed.

Lemma le_val_range l : Forall is_byte l -> 0 <= le_val l < 256 ^ Z.of_nat (length l).
Proof.
  induction 1 as [|b l Hb _ IH]; cbn [le_val length]; [lia|].
  rewrite Nat2Z.inj_succ, Z.pow_succ_r by lia. unfold is_byte in Hb. nia.
Qed.

Lemma le_bytes_val l : Forall is_byte l -> le_bytes (length l) (le_val l) = l.
Proof.
  induction 1 as [|b l Hb _ IH]; cbn [le_val length le_bytes]; [done|].
  unfold is_byte in Hb.
  replace ((b + 256 * le_val l) mod 256) with b.
  2:{ rewrite (Z.mul_comm 256), Z.mod_add by lia. by rewrite Z.mod_small. }
  replace ((b + 256 * le_val l) / 256) with (le_val l); [by rewrite IH|].
  rewrite (Z.mul_comm 256), Z.div_add by lia. rewrite Z.div_small by lia. lia.
Qed.

(** Replace the bytes of [l] from offset [off] on by [bs] ([memmove] into a
    buffer, or a store to a struct field at that offset). *)
Definition splice (off : nat) (bs l : list Z) : list Z :=
  take off l ++ bs ++ drop (off + length bs) l.

Definition get_le (n off : nat) (l : list Z) : Z := le_val (take n (drop off l)).
Definition put_le (n off : nat) (v : Z) (l : list Z) : list Z := splice off (le_bytes n v) l.

Lemma length_splice off bs l :
  (off + length bs <= length l)%nat -> length (splice off bs l) = length l.
Proof. intros H. unfold splice. rewrite !length_app, length_take, length_drop. lia. Qed.

Lemma take_drop_splice_eq off bs l n :
  (off + length bs <= length l)%nat -> n = length bs ->
  take n (drop off (splice off bs l)) = bs.
Proof.
  intros H ->. unfold splice.
  rewrite drop_app_ge; rewrite length_take; [|lia].
  replace (off - off `min` length l)%nat with 0%nat by lia.
  by rewrite drop_0, take_app_length.
Qed.

Lemma lookup_splice_out off bs l i :
  (off + length bs <= length l)%nat -> (i < off \/ off + length bs <= i)%nat ->
  splice off bs l !! i = l !! i.
Proof.
  intros H [Hi|Hi]; unfold splice.
  - rewrite lookup_app_l by (rewrite length_take; lia).
    by rewrite lookup_take_lt.
  - rewrite lookup_app_r by (rewrite length_take; lia).
    rewrite length_take, lookup_app_r by lia.
    rewrite lookup_drop. f_equal. lia.
Qed.

Lemma lookup_splice_in off bs l i :
  (off + length bs <= length l)%nat -> (off <= i < off + length bs)%nat ->
  splice off bs l !! i = bs !! (i - off)%nat.
Proof.
  intros H Hi. unfold splice.
  rewrite lookup_app_r by (rewrite length_take; lia).
  rewrite length_take, lookup_app_l by lia. f_equal. lia.
Qed.

Lemma take_drop_splice_ne off bs l n off' :
  (off + length bs <= length l)%nat ->
  (off' + n <= off \/ off + length bs <= off')%nat ->
  take n (drop off' (splice off bs l)) = take n (drop off' l).
Proof.
  intros H Hd. apply list_eq. intros i.
  destruct (decide (i < n)%nat) as [Hi|Hi].
  - rewrite !lookup_take_lt, !lookup_drop by done.
    apply lookup_splice_out; lia.
  - by rewrite !lookup_take_ge by lia.
Qed.

Lemma get_put_le n off v l :
  (off + n <= length l)%nat -> get_le n off (put_le n off v l) = v mod 256 ^ Z.of_nat n.
Proof.
  intros H. unfold get_le, put_le.
  rewrite take_drop_splice_eq; [apply le_val_bytes| |]; by rewrite length_le_bytes.
Qed.

Lemma get_put_le_ne n off v l n' off' :
  (off + n <= length l)%nat -> (off' + n' <= off \/ off + n <= off')%nat ->
  get_le n' off' (put_le n off v l) = get_le n' off' l.
Proof.
  intros H Hd. unfold get_le, put_le.
  rewrite take_drop_splice_ne; rewrite ?length_le_bytes; [done|lia|lia].
Qed.

Lemma length_put_le n off v l :
  (off + n <= length l)%nat -> length (put_le n off v l) = length l.
Proof. intros H. unfold put_le. apply length_splice. by rewrite length_le_bytes. Qed.

(** Lengths: [lens] rewrites the length of a list built by the operations above, and
    [len] closes goals about such lengths. *)
Create Rewrite HintDb lens.
#[export] Hint Rewrite @length_app @length_cons @length_nil @length_replicate @length_fmap @length_insert
  @length_take @length_drop @length_reverse @length_seq length_le_bytes : lens.
Ltac len := autorewrite with lens in *; lia.

(** Facts on states that [eauto with kernel] finds. *)
Create HintDb kernel.

#[global] Arguments le_bytes : simpl never.
#[global] Arguments le_val : simpl never.
