(* ===== verification/Params.v ===== *)
(** * Kernel parameters

    The constants of kernel/param.h, kernel/memlayout.h, kernel/riscv.h,
    kernel/fs.h and kernel/buf.h, and the address macros of memlayout.h.  Sizes
    of fixed tables are [nat] (they index lists); everything else is [Z]. *)

From S2P Require Import Prelude.

(** ** param.h *)
Definition NPROC : nat := 64.
Definition NOFILE : nat := 16.
Definition NFILE : nat := 100.
Definition NINODE : nat := 50.
Definition ROOTDEV : Z := 1.
Definition MAXARG : nat := 32.
Definition MAXOPBLOCKS : Z := 10.
Definition LOGSIZE : Z := MAXOPBLOCKS * 3.
Definition NBUF : nat := 30.
Definition FSSIZE : Z := 2000.
Definition MAXPATH : Z := 128.

(** ** memlayout.h *)
Definition KERNBASE : Z := 0x80000000.
Definition UART0 : Z := 0x10000000.
Definition PLIC : Z := 0x0c000000.
Definition VIRTIO0 : Z := 0x10001000.
Definition UART0_IRQ : Z := 10.
Definition VIRTIO0_IRQ : Z := 1.
Definition PHYSTOP : Z := 0x80000000 + 128 * 1024 * 1024.

Definition PGSIZE : Z := 4096.
Definition PGSHIFT : Z := 12.
Definition PGROUNDUP (sz : Z) : Z := Z.land (u64 (sz + PGSIZE - 1)) (Z.lnot (PGSIZE - 1)).
Definition PGROUNDDOWN (a : Z) : Z := Z.land a (Z.lnot (PGSIZE - 1)).

Definition PTE_V : Z := Z.shiftl 1 0.
Definition PTE_R : Z := Z.shiftl 1 1.
Definition PTE_W : Z := Z.shiftl 1 2.
Definition PTE_X : Z := Z.shiftl 1 3.
Definition PTE_U : Z := Z.shiftl 1 4.

Definition PTE2PA (pte : Z) : Z := u64 (Z.shiftl (Z.shiftr pte 10) 12).
Definition PA2PTE (pa : Z) : Z := u64 (Z.shiftl (Z.shiftr pa 12) 10).
Definition PTE_FLAGS (pte : Z) : Z := Z.land pte 0x3FF.

Definition PXMASK : Z := 0x1FF.
Definition PXSHIFT (level : Z) : Z := PGSHIFT + 9 * level.
Definition PX (level va : Z) : Z := Z.land (Z.shiftr va (PXSHIFT level)) PXMASK.

Definition MAXVA : Z := Z.shiftl 1 (9 + 9 + 9 + 12).
Definition TRAMPOLINE : Z := MAXVA - PGSIZE.
Definition TRAPFRAME : Z := TRAMPOLINE - PGSIZE.
Definition KSTACK (i : Z) : Z := TRAMPOLINE - (i + 1) * 2 * PGSIZE.

(** ** riscv.h *)
Definition SSTATUS_SPP : Z := Z.shiftl 1 8.
Definition SSTATUS_SPIE : Z := Z.shiftl 1 5.
Definition SSTATUS_SIE : Z := Z.shiftl 1 1.
Definition CLINT : Z := 0x2000000.
Definition CLINT_MTIME : Z := CLINT + 0xBFF8.
Definition MAKE_SATP (pagetable : Z) : Z := Z.lor (Z.shiftr pagetable 12) (Z.shiftl 8 60).

(** ** buf.h and fs.h *)
Definition BSIZE : nat := 1024.
Definition FSMAGIC : Z := 0x10203040.
Definition NDIRECT : nat := 12.
Definition NINDIRECT : nat := 256.   (* BSIZE / sizeof(uint) *)
Definition MAXFILE : Z := Z.of_nat NDIRECT + Z.of_nat NINDIRECT.
Definition T_DIR : Z := 1.
Definition T_FILE : Z := 2.
Definition T_DEVICE : Z := 3.
Definition DIRSIZ : nat := 14.

(** ** Link-time addresses

    Addresses the linker script assigns (kernel.ld) and the entry points whose
    addresses the C code stores. *)
Class Linker : Type := {
  kend : Z;             (* end: first byte after the kernel image *)
  etext : Z;            (* end of kernel text *)
  trampoline : Z;       (* the trampoline page *)
  addr_forkret : Z;
  addr_usertrap : Z;
  addr_kernelvec : Z;
  addr_uservec : Z;
  addr_userret : Z;
}.

(** ** Arithmetic of the address macros *)
Lemma PGROUNDDOWN_mod a : PGROUNDDOWN a = a - a mod PGSIZE.
Proof.
  unfold PGROUNDDOWN, PGSIZE. change (Z.lnot (4096 - 1)) with (- 2 ^ 12).
  change 4096 with (2 ^ 12). rewrite (Z.mod_eq a (2 ^ 12)) by lia.
  replace (a - (a - 2 ^ 12 * (a / 2 ^ 12))) with ((a / 2 ^ 12) * 2 ^ 12) by lia.
  rewrite <- Z.shiftl_mul_pow2, <- Z.shiftr_div_pow2 by lia.
  rewrite <- Z.ldiff_ones_r by lia. by rewrite Z.ldiff_land.
Qed.

Lemma PGROUNDDOWN_spec a : PGROUNDDOWN a mod PGSIZE = 0 /\ PGROUNDDOWN a <= a < PGROUNDDOWN a + PGSIZE.
Proof.
  rewrite PGROUNDDOWN_mod. unfold PGSIZE. pose proof (Z.mod_pos_bound a 4096).
  split; [|lia]. rewrite Zminus_mod_idemp_r, Z.sub_diag. done.
Qed.

Lemma PGROUNDUP_spec a :
  0 <= a < 2 ^ 64 - PGSIZE ->
  PGROUNDUP a mod PGSIZE = 0 /\ a <= PGROUNDUP a < a + PGSIZE.
Proof.
  intros Ha. unfold PGROUNDUP. fold (PGROUNDDOWN (u64 (a + PGSIZE - 1))).
  unfold u64, PGSIZE in *. rewrite (Z.mod_small (a + 4096 - 1)) by lia.
  destruct (PGROUNDDOWN_spec (a + 4096 - 1)) as [H1 H2]. unfold PGSIZE in *. split; [done|lia].
Qed.
