(* ===== verification/Machine.v ===== *)
(** * The kernel state

    The C structs of the kernel as records, one field per member, and the global
    variables of all kernel files as one record [kstate].  A pointer into a fixed
    table is the index of its slot; the null pointer is [None] (or 0 where the
    field holds an address).  The spinlock inside a struct is not a field: the set
    of spinlocks held by the hart is [h_locks].

    Every record has a setter [set_<field>] per field; [kstate] uses primitive
    projections so that rebuilding a state from its own fields is the identity. *)

From S2P Require Import Prelude Params.

(** ** proc.h *)
Inductive procstate : Type := UNUSED | USED | SLEEPING | RUNNABLE | RUNNING | ZOMBIE.

#[export] Instance procstate_eq_dec : EqDecision procstate.
Proof. solve_decision. Defined.

(** struct context: the callee-saved registers swtch exchanges. *)
Record context : Type := mkContext {
  c_ra : Z; c_sp : Z;
  c_s0 : Z; c_s1 : Z; c_s2 : Z; c_s3 : Z; c_s4 : Z; c_s5 : Z;
  c_s6 : Z; c_s7 : Z; c_s8 : Z; c_s9 : Z; c_s10 : Z; c_s11 : Z;
}.

Definition zero_context : context := mkContext 0 0 0 0 0 0 0 0 0 0 0 0 0 0.

(** struct proc: a slot of the process table. *)
Record proc : Type := mkProc {
  p_state : procstate;
  p_pid : Z;
  p_killed : Z;
  p_xstate : Z;
  p_parent : option nat;
  p_name : list Z;
  p_sz : Z;
  p_kstack : Z;
  p_trapframe : Z;
  p_pagetable : Z;
  p_context : context;
  p_chan : option chan;
  p_ofile : list (option nat);
  p_cwd : option nat;
}.
Definition set_p_state (f : procstate -> procstate) (p : proc) : proc :=
  mkProc (f (p_state p)) (p_pid p) (p_killed p) (p_xstate p) (p_parent p) (p_name p) (p_sz p) (p_kstack p) (p_trapframe p) (p_pagetable p) (p_context p) (p_chan p) (p_ofile p) (p_cwd p).
Definition set_p_pid (f : Z -> Z) (p : proc) : proc :=
  mkProc (p_state p) (f (p_pid p)) (p_killed p) (p_xstate p) (p_parent p) (p_name p) (p_sz p) (p_kstack p) (p_trapframe p) (p_pagetable p) (p_context p) (p_chan p) (p_ofile p) (p_cwd p).
Definition set_p_killed (f : Z -> Z) (p : proc) : proc :=
  mkProc (p_state p) (p_pid p) (f (p_killed p)) (p_xstate p) (p_parent p) (p_name p) (p_sz p) (p_kstack p) (p_trapframe p) (p_pagetable p) (p_context p) (p_chan p) (p_ofile p) (p_cwd p).
Definition set_p_xstate (f : Z -> Z) (p : proc) : proc :=
  mkProc (p_state p) (p_pid p) (p_killed p) (f (p_xstate p)) (p_parent p) (p_name p) (p_sz p) (p_kstack p) (p_trapframe p) (p_pagetable p) (p_context p) (p_chan p) (p_ofile p) (p_cwd p).
Definition set_p_parent (f : (option nat) -> (option nat)) (p : proc) : proc :=
  mkProc (p_state p) (p_pid p) (p_killed p) (p_xstate p) (f (p_parent p)) (p_name p) (p_sz p) (p_kstack p) (p_trapframe p) (p_pagetable p) (p_context p) (p_chan p) (p_ofile p) (p_cwd p).
Definition set_p_name (f : (list Z) -> (list Z)) (p : proc) : proc :=
  mkProc (p_state p) (p_pid p) (p_killed p) (p_xstate p) (p_parent p) (f (p_name p)) (p_sz p) (p_kstack p) (p_trapframe p) (p_pagetable p) (p_context p) (p_chan p) (p_ofile p) (p_cwd p).
Definition set_p_sz (f : Z -> Z) (p : proc) : proc :=
  mkProc (p_state p) (p_pid p) (p_killed p) (p_xstate p) (p_parent p) (p_name p) (f (p_sz p)) (p_kstack p) (p_trapframe p) (p_pagetable p) (p_context p) (p_chan p) (p_ofile p) (p_cwd p).
Definition set_p_kstack (f : Z -> Z) (p : proc) : proc :=
  mkProc (p_state p) (p_pid p) (p_killed p) (p_xstate p) (p_parent p) (p_name p) (p_sz p) (f (p_kstack p)) (p_trapframe p) (p_pagetable p) (p_context p) (p_chan p) (p_ofile p) (p_cwd p).
Definition set_p_trapframe (f : Z -> Z) (p : proc) : proc :=
  mkProc (p_state p) (p_pid p) (p_killed p) (p_xstate p) (p_parent p) (p_name p) (p_sz p) (p_kstack p) (f (p_trapframe p)) (p_pagetable p) (p_context p) (p_chan p) (p_ofile p) (p_cwd p).
Definition set_p_pagetable (f : Z -> Z) (p : proc) : proc :=
  mkProc (p_state p) (p_pid p) (p_killed p) (p_xstate p) (p_parent p) (p_name p) (p_sz p) (p_kstack p) (p_trapframe p) (f (p_pagetable p)) (p_context p) (p_chan p) (p_ofile p) (p_cwd p).
Definition set_p_context (f : context -> context) (p : proc) : proc :=
  mkProc (p_state p) (p_pid p) (p_killed p) (p_xstate p) (p_parent p) (p_name p) (p_sz p) (p_kstack p) (p_trapframe p) (p_pagetable p) (f (p_context p)) (p_chan p) (p_ofile p) (p_cwd p).
Definition set_p_chan (f : (option chan) -> (option chan)) (p : proc) : proc :=
  mkProc (p_state p) (p_pid p) (p_killed p) (p_xstate p) (p_parent p) (p_name p) (p_sz p) (p_kstack p) (p_trapframe p) (p_pagetable p) (p_context p) (f (p_chan p)) (p_ofile p) (p_cwd p).
Definition set_p_ofile (f : (list (option nat)) -> (list (option nat))) (p : proc) : proc :=
  mkProc (p_state p) (p_pid p) (p_killed p) (p_xstate p) (p_parent p) (p_name p) (p_sz p) (p_kstack p) (p_trapframe p) (p_pagetable p) (p_context p) (p_chan p) (f (p_ofile p)) (p_cwd p).
Definition set_p_cwd (f : (option nat) -> (option nat)) (p : proc) : proc :=
  mkProc (p_state p) (p_pid p) (p_killed p) (p_xstate p) (p_parent p) (p_name p) (p_sz p) (p_kstack p) (p_trapframe p) (p_pagetable p) (p_context p) (p_chan p) (p_ofile p) (f (p_cwd p)).

(** ** buf.h *)

(** struct sleeplock: is it held, and by which pid. *)
Record sleeplock : Type := mkSleeplock { sl_locked : bool; sl_pid : Z }.

(** struct buf: a buffer-cache entry; [b_prev] and [b_next] are its LRU links. *)
Record buf : Type := mkBuf {
  b_valid : bool;
  b_disk : Z;
  b_dev : Z;
  b_blockno : Z;
  b_lock : sleeplock;
  b_refcnt : Z;
  b_pinned : Z;
  b_prev : nat;
  b_next : nat;
  b_data : list Z;
}.
Definition set_b_valid (f : bool -> bool) (b : buf) : buf :=
  mkBuf (f (b_valid b)) (b_disk b) (b_dev b) (b_blockno b) (b_lock b) (b_refcnt b) (b_pinned b) (b_prev b) (b_next b) (b_data b).
Definition set_b_disk (f : Z -> Z) (b : buf) : buf :=
  mkBuf (b_valid b) (f (b_disk b)) (b_dev b) (b_blockno b) (b_lock b) (b_refcnt b) (b_pinned b) (b_prev b) (b_next b) (b_data b).
Definition set_b_dev (f : Z -> Z) (b : buf) : buf :=
  mkBuf (b_valid b) (b_disk b) (f (b_dev b)) (b_blockno b) (b_lock b) (b_refcnt b) (b_pinned b) (b_prev b) (b_next b) (b_data b).
Definition set_b_blockno (f : Z -> Z) (b : buf) : buf :=
  mkBuf (b_valid b) (b_disk b) (b_dev b) (f (b_blockno b)) (b_lock b) (b_refcnt b) (b_pinned b) (b_prev b) (b_next b) (b_data b).
Definition set_b_lock (f : sleeplock -> sleeplock) (b : buf) : buf :=
  mkBuf (b_valid b) (b_disk b) (b_dev b) (b_blockno b) (f (b_lock b)) (b_refcnt b) (b_pinned b) (b_prev b) (b_next b) (b_data b).
Definition set_b_refcnt (f : Z -> Z) (b : buf) : buf :=
  mkBuf (b_valid b) (b_disk b) (b_dev b) (b_blockno b) (b_lock b) (f (b_refcnt b)) (b_pinned b) (b_prev b) (b_next b) (b_data b).
Definition set_b_pinned (f : Z -> Z) (b : buf) : buf :=
  mkBuf (b_valid b) (b_disk b) (b_dev b) (b_blockno b) (b_lock b) (b_refcnt b) (f (b_pinned b)) (b_prev b) (b_next b) (b_data b).
Definition set_b_prev (f : nat -> nat) (b : buf) : buf :=
  mkBuf (b_valid b) (b_disk b) (b_dev b) (b_blockno b) (b_lock b) (b_refcnt b) (b_pinned b) (f (b_prev b)) (b_next b) (b_data b).
Definition set_b_next (f : nat -> nat) (b : buf) : buf :=
  mkBuf (b_valid b) (b_disk b) (b_dev b) (b_blockno b) (b_lock b) (b_refcnt b) (b_pinned b) (b_prev b) (f (b_next b)) (b_data b).
Definition set_b_data (f : (list Z) -> (list Z)) (b : buf) : buf :=
  mkBuf (b_valid b) (b_disk b) (b_dev b) (b_blockno b) (b_lock b) (b_refcnt b) (b_pinned b) (b_prev b) (b_next b) (f (b_data b)).

(** ** log.c

    struct log, with the in-memory header struct logheader as [l_n], [l_block]. *)
Record logst : Type := mkLog {
  l_start : Z;
  l_size : Z;
  l_outstanding : Z;
  l_committing : bool;
  l_dev : Z;
  l_n : Z;
  l_block : list Z;
}.
Definition set_l_start (f : Z -> Z) (l : logst) : logst :=
  mkLog (f (l_start l)) (l_size l) (l_outstanding l) (l_committing l) (l_dev l) (l_n l) (l_block l).
Definition set_l_size (f : Z -> Z) (l : logst) : logst :=
  mkLog (l_start l) (f (l_size l)) (l_outstanding l) (l_committing l) (l_dev l) (l_n l) (l_block l).
Definition set_l_outstanding (f : Z -> Z) (l : logst) : logst :=
  mkLog (l_start l) (l_size l) (f (l_outstanding l)) (l_committing l) (l_dev l) (l_n l) (l_block l).
Definition set_l_committing (f : bool -> bool) (l : logst) : logst :=
  mkLog (l_start l) (l_size l) (l_outstanding l) (f (l_committing l)) (l_dev l) (l_n l) (l_block l).
Definition set_l_dev (f : Z -> Z) (l : logst) : logst :=
  mkLog (l_start l) (l_size l) (l_outstanding l) (l_committing l) (f (l_dev l)) (l_n l) (l_block l).
Definition set_l_n (f : Z -> Z) (l : logst) : logst :=
  mkLog (l_start l) (l_size l) (l_outstanding l) (l_committing l) (l_dev l) (f (l_n l)) (l_block l).
Definition set_l_block (f : (list Z) -> (list Z)) (l : logst) : logst :=
  mkLog (l_start l) (l_size l) (l_outstanding l) (l_committing l) (l_dev l) (l_n l) (f (l_block l)).

(** struct superblock (fs.h; log.c declares the same layout). *)
Record superblock : Type := mkSb {
  sb_magic : Z;
  sb_size : Z;
  sb_nblocks : Z;
  sb_ninodes : Z;
  sb_nlog : Z;
  sb_logstart : Z;
  sb_inodestart : Z;
  sb_bmapstart : Z;
}.

Definition zero_sb : superblock := mkSb 0 0 0 0 0 0 0 0.

(** ** fs.h

    struct inode: an inode-cache entry. *)
Record inode : Type := mkInode {
  i_dev : Z;
  i_inum : Z;
  i_ref : Z;
  i_lock : sleeplock;
  i_valid : bool;
  i_type : Z;
  i_major : Z;
  i_minor : Z;
  i_nlink : Z;
  i_size : Z;
  i_addrs : list Z;
}.
Definition set_i_dev (f : Z -> Z) (ip : inode) : inode :=
  mkInode (f (i_dev ip)) (i_inum ip) (i_ref ip) (i_lock ip) (i_valid ip) (i_type ip) (i_major ip) (i_minor ip) (i_nlink ip) (i_size ip) (i_addrs ip).
Definition set_i_inum (f : Z -> Z) (ip : inode) : inode :=
  mkInode (i_dev ip) (f (i_inum ip)) (i_ref ip) (i_lock ip) (i_valid ip) (i_type ip) (i_major ip) (i_minor ip) (i_nlink ip) (i_size ip) (i_addrs ip).
Definition set_i_ref (f : Z -> Z) (ip : inode) : inode :=
  mkInode (i_dev ip) (i_inum ip) (f (i_ref ip)) (i_lock ip) (i_valid ip) (i_type ip) (i_major ip) (i_minor ip) (i_nlink ip) (i_size ip) (i_addrs ip).
Definition set_i_lock (f : sleeplock -> sleeplock) (ip : inode) : inode :=
  mkInode (i_dev ip) (i_inum ip) (i_ref ip) (f (i_lock ip)) (i_valid ip) (i_type ip) (i_major ip) (i_minor ip) (i_nlink ip) (i_size ip) (i_addrs ip).
Definition set_i_valid (f : bool -> bool) (ip : inode) : inode :=
  mkInode (i_dev ip) (i_inum ip) (i_ref ip) (i_lock ip) (f (i_valid ip)) (i_type ip) (i_major ip) (i_minor ip) (i_nlink ip) (i_size ip) (i_addrs ip).
Definition set_i_type (f : Z -> Z) (ip : inode) : inode :=
  mkInode (i_dev ip) (i_inum ip) (i_ref ip) (i_lock ip) (i_valid ip) (f (i_type ip)) (i_major ip) (i_minor ip) (i_nlink ip) (i_size ip) (i_addrs ip).
Definition set_i_major (f : Z -> Z) (ip : inode) : inode :=
  mkInode (i_dev ip) (i_inum ip) (i_ref ip) (i_lock ip) (i_valid ip) (i_type ip) (f (i_major ip)) (i_minor ip) (i_nlink ip) (i_size ip) (i_addrs ip).
Definition set_i_minor (f : Z -> Z) (ip : inode) : inode :=
  mkInode (i_dev ip) (i_inum ip) (i_ref ip) (i_lock ip) (i_valid ip) (i_type ip) (i_major ip) (f (i_minor ip)) (i_nlink ip) (i_size ip) (i_addrs ip).
Definition set_i_nlink (f : Z -> Z) (ip : inode) : inode :=
  mkInode (i_dev ip) (i_inum ip) (i_ref ip) (i_lock ip) (i_valid ip) (i_type ip) (i_major ip) (i_minor ip) (f (i_nlink ip)) (i_size ip) (i_addrs ip).
Definition set_i_size (f : Z -> Z) (ip : inode) : inode :=
  mkInode (i_dev ip) (i_inum ip) (i_ref ip) (i_lock ip) (i_valid ip) (i_type ip) (i_major ip) (i_minor ip) (i_nlink ip) (f (i_size ip)) (i_addrs ip).
Definition set_i_addrs (f : (list Z) -> (list Z)) (ip : inode) : inode :=
  mkInode (i_dev ip) (i_inum ip) (i_ref ip) (i_lock ip) (i_valid ip) (i_type ip) (i_major ip) (i_minor ip) (i_nlink ip) (i_size ip) (f (i_addrs ip)).

(** ** file.h *)
Definition FD_NONE : Z := 0.
Definition FD_INODE : Z := 1.
Definition FD_PIPE : Z := 2.

(** struct file. *)
Record file : Type := mkFile {
  f_type : Z;
  f_ref : Z;
  f_readable : bool;
  f_writable : bool;
  f_ip : option nat;
  f_pipe : Z;
  f_off : Z;
}.
Definition set_f_type (f : Z -> Z) (fl : file) : file :=
  mkFile (f (f_type fl)) (f_ref fl) (f_readable fl) (f_writable fl) (f_ip fl) (f_pipe fl) (f_off fl).
Definition set_f_ref (f : Z -> Z) (fl : file) : file :=
  mkFile (f_type fl) (f (f_ref fl)) (f_readable fl) (f_writable fl) (f_ip fl) (f_pipe fl) (f_off fl).
Definition set_f_readable (f : bool -> bool) (fl : file) : file :=
  mkFile (f_type fl) (f_ref fl) (f (f_readable fl)) (f_writable fl) (f_ip fl) (f_pipe fl) (f_off fl).
Definition set_f_writable (f : bool -> bool) (fl : file) : file :=
  mkFile (f_type fl) (f_ref fl) (f_readable fl) (f (f_writable fl)) (f_ip fl) (f_pipe fl) (f_off fl).
Definition set_f_ip (f : (option nat) -> (option nat)) (fl : file) : file :=
  mkFile (f_type fl) (f_ref fl) (f_readable fl) (f_writable fl) (f (f_ip fl)) (f_pipe fl) (f_off fl).
Definition set_f_pipe (f : Z -> Z) (fl : file) : file :=
  mkFile (f_type fl) (f_ref fl) (f_readable fl) (f_writable fl) (f_ip fl) (f (f_pipe fl)) (f_off fl).
Definition set_f_off (f : Z -> Z) (fl : file) : file :=
  mkFile (f_type fl) (f_ref fl) (f_readable fl) (f_writable fl) (f_ip fl) (f_pipe fl) (f (f_off fl)).

(** ** pipe.c

    struct pipe, stored in a page of physical memory. *)
Record pipe : Type := mkPipe {
  pi_data : list Z;
  pi_nread : Z;
  pi_nwrite : Z;
  pi_readopen : bool;
  pi_writeopen : bool;
}.
Definition set_pi_data (f : (list Z) -> (list Z)) (pi : pipe) : pipe :=
  mkPipe (f (pi_data pi)) (pi_nread pi) (pi_nwrite pi) (pi_readopen pi) (pi_writeopen pi).
Definition set_pi_nread (f : Z -> Z) (pi : pipe) : pipe :=
  mkPipe (pi_data pi) (f (pi_nread pi)) (pi_nwrite pi) (pi_readopen pi) (pi_writeopen pi).
Definition set_pi_nwrite (f : Z -> Z) (pi : pipe) : pipe :=
  mkPipe (pi_data pi) (pi_nread pi) (f (pi_nwrite pi)) (pi_readopen pi) (pi_writeopen pi).
Definition set_pi_readopen (f : bool -> bool) (pi : pipe) : pipe :=
  mkPipe (pi_data pi) (pi_nread pi) (pi_nwrite pi) (f (pi_readopen pi)) (pi_writeopen pi).
Definition set_pi_writeopen (f : bool -> bool) (pi : pipe) : pipe :=
  mkPipe (pi_data pi) (pi_nread pi) (pi_nwrite pi) (pi_readopen pi) (f (pi_writeopen pi)).

(** ** The hart: interrupt state and the spinlocks it holds (spinlock.c)

    [h_noff] and [h_saved_sie] are the static variables of spinlock.c. *)
Record hart : Type := mkHart {
  h_sstatus : Z;
  h_noff : Z;
  h_saved_sie : Z;
  h_locks : gset lock;
}.
Definition set_h_sstatus (f : Z -> Z) (h : hart) : hart :=
  mkHart (f (h_sstatus h)) (h_noff h) (h_saved_sie h) (h_locks h).
Definition set_h_noff (f : Z -> Z) (h : hart) : hart :=
  mkHart (h_sstatus h) (f (h_noff h)) (h_saved_sie h) (h_locks h).
Definition set_h_saved_sie (f : Z -> Z) (h : hart) : hart :=
  mkHart (h_sstatus h) (h_noff h) (f (h_saved_sie h)) (h_locks h).
Definition set_h_locks (f : (gset lock) -> (gset lock)) (h : hart) : hart :=
  mkHart (h_sstatus h) (h_noff h) (h_saved_sie h) (f (h_locks h)).

(** ** The block device

    [d_image] is the disk contents by logical block; [d_writes] is the sequence of
    block writes the device has completed since boot, oldest first (a crash can
    only leave the disk between two of them, or inside one). *)
Record vdisk : Type := mkDisk {
  d_image : gmap Z (list Z);
  d_writes : list (Z * list Z);
}.
Definition set_d_image (f : (gmap Z (list Z)) -> (gmap Z (list Z))) (d : vdisk) : vdisk :=
  mkDisk (f (d_image d)) (d_writes d).
Definition set_d_writes (f : (list (Z * list Z)) -> (list (Z * list Z))) (d : vdisk) : vdisk :=
  mkDisk (d_image d) (f (d_writes d)).

(** ** Supervisor control registers used by the trap path *)
Record csrs : Type := mkCsrs {
  csr_stvec : Z;
  csr_sepc : Z;
  csr_scause : Z;
  csr_stval : Z;
  csr_sscratch : Z;
  csr_satp : Z;
  csr_tp : Z;
}.
Definition set_csr_stvec (f : Z -> Z) (c : csrs) : csrs :=
  mkCsrs (f (csr_stvec c)) (csr_sepc c) (csr_scause c) (csr_stval c) (csr_sscratch c) (csr_satp c) (csr_tp c).
Definition set_csr_sepc (f : Z -> Z) (c : csrs) : csrs :=
  mkCsrs (csr_stvec c) (f (csr_sepc c)) (csr_scause c) (csr_stval c) (csr_sscratch c) (csr_satp c) (csr_tp c).
Definition set_csr_scause (f : Z -> Z) (c : csrs) : csrs :=
  mkCsrs (csr_stvec c) (csr_sepc c) (f (csr_scause c)) (csr_stval c) (csr_sscratch c) (csr_satp c) (csr_tp c).
Definition set_csr_stval (f : Z -> Z) (c : csrs) : csrs :=
  mkCsrs (csr_stvec c) (csr_sepc c) (csr_scause c) (f (csr_stval c)) (csr_sscratch c) (csr_satp c) (csr_tp c).
Definition set_csr_sscratch (f : Z -> Z) (c : csrs) : csrs :=
  mkCsrs (csr_stvec c) (csr_sepc c) (csr_scause c) (csr_stval c) (f (csr_sscratch c)) (csr_satp c) (csr_tp c).
Definition set_csr_satp (f : Z -> Z) (c : csrs) : csrs :=
  mkCsrs (csr_stvec c) (csr_sepc c) (csr_scause c) (csr_stval c) (csr_sscratch c) (f (csr_satp c)) (csr_tp c).
Definition set_csr_tp (f : Z -> Z) (c : csrs) : csrs :=
  mkCsrs (csr_stvec c) (csr_sepc c) (csr_scause c) (csr_stval c) (csr_sscratch c) (csr_satp c) (f (csr_tp c)).

(** ** Devices

    [dv_mhartid] is what reading the mhartid register yields ([None]: the read traps,
    as it does outside machine mode); [dv_regs] the memory-mapped registers by address;
    [dv_pending] the interrupts the PLIC will hand out, in order, and [dv_claimed]
    those handed out and not yet completed; [dv_rx] the UART's receive FIFO. *)
Record devices : Type := mkDev {
  dv_mhartid : option Z;
  dv_regs : gmap Z Z;
  dv_pending : list Z;
  dv_claimed : list Z;
  dv_rx : list Z;
}.
Definition set_dv_mhartid (f : (option Z) -> (option Z)) (v : devices) : devices :=
  mkDev (f (dv_mhartid v)) (dv_regs v) (dv_pending v) (dv_claimed v) (dv_rx v).
Definition set_dv_regs (f : (gmap Z Z) -> (gmap Z Z)) (v : devices) : devices :=
  mkDev (dv_mhartid v) (f (dv_regs v)) (dv_pending v) (dv_claimed v) (dv_rx v).
Definition set_dv_pending (f : (list Z) -> (list Z)) (v : devices) : devices :=
  mkDev (dv_mhartid v) (dv_regs v) (f (dv_pending v)) (dv_claimed v) (dv_rx v).
Definition set_dv_claimed (f : (list Z) -> (list Z)) (v : devices) : devices :=
  mkDev (dv_mhartid v) (dv_regs v) (dv_pending v) (f (dv_claimed v)) (dv_rx v).
Definition set_dv_rx (f : (list Z) -> (list Z)) (v : devices) : devices :=
  mkDev (dv_mhartid v) (dv_regs v) (dv_pending v) (dv_claimed v) (f (dv_rx v)).

(** ** virtio_disk.c

    A descriptor's address is the request header, a buffer's data, or the status
    byte of an info entry. *)
Record outhdr : Type := mkOuthdr { oh_type : Z; oh_sector : Z }.
Inductive vptr : Type := VNull | VHdr (h : outhdr) | VData (b : nat) | VStatus (i : nat).
Record vring_desc : Type := mkVDesc { vd_addr : vptr; vd_len : Z; vd_flags : Z; vd_next : Z }.
Record vinfo : Type := mkVInfo { vi_data : option nat; vi_status : Z }.

(** struct disk; [vq_words] are the 16-bit words of its second and third page, the
    available ring followed by the used ring. *)
Record vqueue : Type := mkVq {
  vq_desc : list vring_desc;
  vq_words : list Z;
  vq_free : list bool;
  vq_info : list vinfo;
  vq_used_idx : Z;
}.
Definition set_vq_desc (f : (list vring_desc) -> (list vring_desc)) (q : vqueue) : vqueue :=
  mkVq (f (vq_desc q)) (vq_words q) (vq_free q) (vq_info q) (vq_used_idx q).
Definition set_vq_words (f : (list Z) -> (list Z)) (q : vqueue) : vqueue :=
  mkVq (vq_desc q) (f (vq_words q)) (vq_free q) (vq_info q) (vq_used_idx q).
Definition set_vq_free (f : (list bool) -> (list bool)) (q : vqueue) : vqueue :=
  mkVq (vq_desc q) (vq_words q) (f (vq_free q)) (vq_info q) (vq_used_idx q).
Definition set_vq_info (f : (list vinfo) -> (list vinfo)) (q : vqueue) : vqueue :=
  mkVq (vq_desc q) (vq_words q) (vq_free q) (f (vq_info q)) (vq_used_idx q).
Definition set_vq_used_idx (f : Z -> Z) (q : vqueue) : vqueue :=
  mkVq (vq_desc q) (vq_words q) (vq_free q) (vq_info q) (f (vq_used_idx q)).

(** ** The whole kernel

    [k_bcache] holds bcache.buf[0..NBUF-1] followed by bcache.head, so index
    [NBUF] is the sentinel.  [k_logsb] and [k_sb] are the two static superblocks,
    of log.c and of fs.c.  [k_pipes] are the pipes by the address of their page. *)
Set Primitive Projections.
Record kstate : Type := mkK {
  k_hart : hart;
  k_mem : gmap Z Z;
  k_freelist : Z;
  k_kpt : Z;
  k_procs : list proc;
  k_cur : option nat;
  k_nextpid : Z;
  k_disk : vdisk;
  k_bcache : list buf;
  k_logsb : superblock;
  k_log : logst;
  k_sb : superblock;
  k_icache : list inode;
  k_ftable : list file;
  k_pipes : gmap Z pipe;
  k_csr : csrs;
  k_console : list Z;
  k_dev : devices;
  k_vq : vqueue;
}.
Unset Primitive Projections.

Definition set_k_hart (f : hart -> hart) (s : kstate) : kstate :=
  mkK (f (k_hart s)) (k_mem s) (k_freelist s) (k_kpt s) (k_procs s) (k_cur s) (k_nextpid s) (k_disk s) (k_bcache s) (k_logsb s) (k_log s) (k_sb s) (k_icache s) (k_ftable s) (k_pipes s) (k_csr s) (k_console s) (k_dev s) (k_vq s).
Definition set_k_mem (f : (gmap Z Z) -> (gmap Z Z)) (s : kstate) : kstate :=
  mkK (k_hart s) (f (k_mem s)) (k_freelist s) (k_kpt s) (k_procs s) (k_cur s) (k_nextpid s) (k_disk s) (k_bcache s) (k_logsb s) (k_log s) (k_sb s) (k_icache s) (k_ftable s) (k_pipes s) (k_csr s) (k_console s) (k_dev s) (k_vq s).
Definition set_k_freelist (f : Z -> Z) (s : kstate) : kstate :=
  mkK (k_hart s) (k_mem s) (f (k_freelist s)) (k_kpt s) (k_procs s) (k_cur s) (k_nextpid s) (k_disk s) (k_bcache s) (k_logsb s) (k_log s) (k_sb s) (k_icache s) (k_ftable s) (k_pipes s) (k_csr s) (k_console s) (k_dev s) (k_vq s).
Definition set_k_kpt (f : Z -> Z) (s : kstate) : kstate :=
  mkK (k_hart s) (k_mem s) (k_freelist s) (f (k_kpt s)) (k_procs s) (k_cur s) (k_nextpid s) (k_disk s) (k_bcache s) (k_logsb s) (k_log s) (k_sb s) (k_icache s) (k_ftable s) (k_pipes s) (k_csr s) (k_console s) (k_dev s) (k_vq s).
Definition set_k_procs (f : (list proc) -> (list proc)) (s : kstate) : kstate :=
  mkK (k_hart s) (k_mem s) (k_freelist s) (k_kpt s) (f (k_procs s)) (k_cur s) (k_nextpid s) (k_disk s) (k_bcache s) (k_logsb s) (k_log s) (k_sb s) (k_icache s) (k_ftable s) (k_pipes s) (k_csr s) (k_console s) (k_dev s) (k_vq s).
Definition set_k_cur (f : (option nat) -> (option nat)) (s : kstate) : kstate :=
  mkK (k_hart s) (k_mem s) (k_freelist s) (k_kpt s) (k_procs s) (f (k_cur s)) (k_nextpid s) (k_disk s) (k_bcache s) (k_logsb s) (k_log s) (k_sb s) (k_icache s) (k_ftable s) (k_pipes s) (k_csr s) (k_console s) (k_dev s) (k_vq s).
Definition set_k_nextpid (f : Z -> Z) (s : kstate) : kstate :=
  mkK (k_hart s) (k_mem s) (k_freelist s) (k_kpt s) (k_procs s) (k_cur s) (f (k_nextpid s)) (k_disk s) (k_bcache s) (k_logsb s) (k_log s) (k_sb s) (k_icache s) (k_ftable s) (k_pipes s) (k_csr s) (k_console s) (k_dev s) (k_vq s).
Definition set_k_disk (f : vdisk -> vdisk) (s : kstate) : kstate :=
  mkK (k_hart s) (k_mem s) (k_freelist s) (k_kpt s) (k_procs s) (k_cur s) (k_nextpid s) (f (k_disk s)) (k_bcache s) (k_logsb s) (k_log s) (k_sb s) (k_icache s) (k_ftable s) (k_pipes s) (k_csr s) (k_console s) (k_dev s) (k_vq s).
Definition set_k_bcache (f : (list buf) -> (list buf)) (s : kstate) : kstate :=
  mkK (k_hart s) (k_mem s) (k_freelist s) (k_kpt s) (k_procs s) (k_cur s) (k_nextpid s) (k_disk s) (f (k_bcache s)) (k_logsb s) (k_log s) (k_sb s) (k_icache s) (k_ftable s) (k_pipes s) (k_csr s) (k_console s) (k_dev s) (k_vq s).
Definition set_k_logsb (f : superblock -> superblock) (s : kstate) : kstate :=
  mkK (k_hart s) (k_mem s) (k_freelist s) (k_kpt s) (k_procs s) (k_cur s) (k_nextpid s) (k_disk s) (k_bcache s) (f (k_logsb s)) (k_log s) (k_sb s) (k_icache s) (k_ftable s) (k_pipes s) (k_csr s) (k_console s) (k_dev s) (k_vq s).
Definition set_k_log (f : logst -> logst) (s : kstate) : kstate :=
  mkK (k_hart s) (k_mem s) (k_freelist s) (k_kpt s) (k_procs s) (k_cur s) (k_nextpid s) (k_disk s) (k_bcache s) (k_logsb s) (f (k_log s)) (k_sb s) (k_icache s) (k_ftable s) (k_pipes s) (k_csr s) (k_console s) (k_dev s) (k_vq s).
Definition set_k_sb (f : superblock -> superblock) (s : kstate) : kstate :=
  mkK (k_hart s) (k_mem s) (k_freelist s) (k_kpt s) (k_procs s) (k_cur s) (k_nextpid s) (k_disk s) (k_bcache s) (k_logsb s) (k_log s) (f (k_sb s)) (k_icache s) (k_ftable s) (k_pipes s) (k_csr s) (k_console s) (k_dev s) (k_vq s).
Definition set_k_icache (f : (list inode) -> (list inode)) (s : kstate) : kstate :=
  mkK (k_hart s) (k_mem s) (k_freelist s) (k_kpt s) (k_procs s) (k_cur s) (k_nextpid s) (k_disk s) (k_bcache s) (k_logsb s) (k_log s) (k_sb s) (f (k_icache s)) (k_ftable s) (k_pipes s) (k_csr s) (k_console s) (k_dev s) (k_vq s).
Definition set_k_ftable (f : (list file) -> (list file)) (s : kstate) : kstate :=
  mkK (k_hart s) (k_mem s) (k_freelist s) (k_kpt s) (k_procs s) (k_cur s) (k_nextpid s) (k_disk s) (k_bcache s) (k_logsb s) (k_log s) (k_sb s) (k_icache s) (f (k_ftable s)) (k_pipes s) (k_csr s) (k_console s) (k_dev s) (k_vq s).
Definition set_k_pipes (f : (gmap Z pipe) -> (gmap Z pipe)) (s : kstate) : kstate :=
  mkK (k_hart s) (k_mem s) (k_freelist s) (k_kpt s) (k_procs s) (k_cur s) (k_nextpid s) (k_disk s) (k_bcache s) (k_logsb s) (k_log s) (k_sb s) (k_icache s) (k_ftable s) (f (k_pipes s)) (k_csr s) (k_console s) (k_dev s) (k_vq s).
Definition set_k_csr (f : csrs -> csrs) (s : kstate) : kstate :=
  mkK (k_hart s) (k_mem s) (k_freelist s) (k_kpt s) (k_procs s) (k_cur s) (k_nextpid s) (k_disk s) (k_bcache s) (k_logsb s) (k_log s) (k_sb s) (k_icache s) (k_ftable s) (k_pipes s) (f (k_csr s)) (k_console s) (k_dev s) (k_vq s).
Definition set_k_console (f : (list Z) -> (list Z)) (s : kstate) : kstate :=
  mkK (k_hart s) (k_mem s) (k_freelist s) (k_kpt s) (k_procs s) (k_cur s) (k_nextpid s) (k_disk s) (k_bcache s) (k_logsb s) (k_log s) (k_sb s) (k_icache s) (k_ftable s) (k_pipes s) (k_csr s) (f (k_console s)) (k_dev s) (k_vq s).
Definition set_k_dev (f : devices -> devices) (s : kstate) : kstate :=
  mkK (k_hart s) (k_mem s) (k_freelist s) (k_kpt s) (k_procs s) (k_cur s) (k_nextpid s) (k_disk s) (k_bcache s) (k_logsb s) (k_log s) (k_sb s) (k_icache s) (k_ftable s) (k_pipes s) (k_csr s) (k_console s) (f (k_dev s)) (k_vq s).
Definition set_k_vq (f : vqueue -> vqueue) (s : kstate) : kstate :=
  mkK (k_hart s) (k_mem s) (k_freelist s) (k_kpt s) (k_procs s) (k_cur s) (k_nextpid s) (k_disk s) (k_bcache s) (k_logsb s) (k_log s) (k_sb s) (k_icache s) (k_ftable s) (k_pipes s) (k_csr s) (k_console s) (k_dev s) (f (k_vq s)).

(** The state the loader leaves: every table zeroed, one hart, interrupts off. *)
Definition boot_hart : hart := mkHart 0 0 0 ∅.
Definition zero_proc : proc :=
  mkProc UNUSED 0 0 0 None (replicate 16 0) 0 0 0 0 zero_context None (replicate NOFILE None) None.
Definition zero_buf : buf :=
  mkBuf false 0 0 0 (mkSleeplock false 0) 0 0 0 0 (replicate BSIZE 0).
Definition zero_inode : inode :=
  mkInode 0 0 0 (mkSleeplock false 0) false 0 0 0 0 0 (replicate (S NDIRECT) 0).
Definition zero_file : file := mkFile 0 0 false false None 0 0.
Definition boot_state : kstate :=
  mkK boot_hart ∅ 0 0 (replicate NPROC zero_proc) None 1 (mkDisk ∅ []) (replicate (S NBUF) zero_buf)
    zero_sb (mkLog 0 0 0 false 0 0 (replicate (Z.to_nat LOGSIZE) 0)) zero_sb
    (replicate NINODE zero_inode) (replicate NFILE zero_file) ∅ (mkCsrs 0 0 0 0 0 0 0) []
    (mkDev None ∅ [] [] []) (mkVq (replicate 8 (mkVDesc VNull 0 0 0)) (replicate 4096 0)
      (replicate 8 false) (replicate 8 (mkVInfo None 0)) 0).

(** The state in which a run ended, or [s] when it did not return. *)
Definition final {A} (o : outcome kstate A) (s : kstate) : kstate :=
  match o with Ret _ s' => s' | _ => s end.

(** The value a run returned, if it did. *)
Definition result {A} (o : outcome kstate A) : option A :=
  match o with Ret a _ => Some a | _ => None end.

(** Two states are equal when all their fields are; each field of a state built by
    setters computes on its own. *)
Lemma kstate_ext (s1 s2 : kstate) :
  k_hart s1 = k_hart s2 ->
  k_mem s1 = k_mem s2 ->
  k_freelist s1 = k_freelist s2 ->
  k_kpt s1 = k_kpt s2 ->
  k_procs s1 = k_procs s2 ->
  k_cur s1 = k_cur s2 ->
  k_nextpid s1 = k_nextpid s2 ->
  k_disk s1 = k_disk s2 ->
  k_bcache s1 = k_bcache s2 ->
  k_logsb s1 = k_logsb s2 ->
  k_log s1 = k_log s2 ->
  k_sb s1 = k_sb s2 ->
  k_icache s1 = k_icache s2 ->
  k_ftable s1 = k_ftable s2 ->
  k_pipes s1 = k_pipes s2 ->
  k_csr s1 = k_csr s2 ->
  k_console s1 = k_console s2 ->
  k_dev s1 = k_dev s2 ->
  k_vq s1 = k_vq s2 ->
  s1 = s2.
Proof. destruct s1, s2; cbn; intros; by subst. Qed.

Tactic Notation "kcbn" := cbn
  [k_hart k_mem k_freelist k_kpt k_procs k_cur k_nextpid k_disk k_bcache k_logsb k_log k_sb
  k_icache k_ftable k_pipes k_csr k_console k_dev k_vq set_k_hart set_k_mem set_k_freelist set_k_kpt
  set_k_procs set_k_cur set_k_nextpid set_k_disk set_k_bcache set_k_logsb set_k_log
  set_k_sb set_k_icache set_k_ftable set_k_pipes set_k_csr set_k_console set_k_dev set_k_vq].
Tactic Notation "kcbn" "in" hyp(H) := cbn
  [k_hart k_mem k_freelist k_kpt k_procs k_cur k_nextpid k_disk k_bcache k_logsb k_log k_sb
  k_icache k_ftable k_pipes k_csr k_console k_dev k_vq set_k_hart set_k_mem set_k_freelist set_k_kpt
  set_k_procs set_k_cur set_k_nextpid set_k_disk set_k_bcache set_k_logsb set_k_log
  set_k_sb set_k_icache set_k_ftable set_k_pipes set_k_csr set_k_console set_k_dev set_k_vq] in H.
Ltac keq :=
  try (match goal with |- Ret ?a ?s = Ret ?a _ => apply (f_equal (Ret a)) end);
  apply kstate_ext; kcbn; try reflexivity.
