(* ===== verification/Spinlock.v ===== *)
(** * Spinlocks (kernel/spinlock.c)

    The kernel runs on a single boot hart: taking a spinlock turns supervisor
    interrupts off, so between [acquire] and the matching [release] no other code
    runs and a critical section is atomic.  The lock words are the set [h_locks]
    of the hart. *)

From S2P Require Import Prelude Params Machine.

Abbreviation K := (M kstate).

(** ** Code *)

Definition initlock (lk : lock) : K unit :=
  modify (set_k_hart (set_h_locks (fun L => L ∖ {[lk]}))).

Definition push_off_hart (h : hart) : hart :=
  let x := h_sstatus h in
  mkHart (Z.land x (Z.lnot SSTATUS_SIE))
         (h_noff h + 1)
         (if h_noff h =? 0 then Z.land x SSTATUS_SIE else h_saved_sie h)
         (h_locks h).

Definition pop_off_hart (h : hart) : hart :=
  let n := h_noff h - 1 in
  if n =? 0 then
    let x := h_sstatus h in
    mkHart (if h_saved_sie h =? 0 then Z.land x (Z.lnot SSTATUS_SIE)
            else Z.lor x SSTATUS_SIE)
           n (h_saved_sie h) (h_locks h)
  else mkHart (h_sstatus h) n (h_saved_sie h) (h_locks h).

Definition push_off : K unit := modify (set_k_hart push_off_hart).
Definition pop_off : K unit := modify (set_k_hart pop_off_hart).

Definition holding (lk : lock) : K bool :=
  gets (fun s => bool_decide (lk ∈ h_locks (k_hart s))).

(** The test-and-set loop of the C code runs on the only hart with the lock known
    to be free, so it takes the lock at its first iteration. *)
Definition acquire (lk : lock) : K unit :=
  do! push_off;
  let! held := holding lk in
  if held then panic "acquire"
  else modify (set_k_hart (set_h_locks (fun L => {[lk]} ∪ L))).

Definition release (lk : lock) : K unit :=
  let! held := holding lk in
  if negb held then panic "release"
  else
    do! modify (set_k_hart (set_h_locks (fun L => L ∖ {[lk]})));
    pop_off.

(** intr_on, intr_off and intr_get of riscv.h. *)
Definition intr_on : K unit :=
  modify (set_k_hart (set_h_sstatus (fun x => Z.lor x SSTATUS_SIE))).
Definition intr_off : K unit :=
  modify (set_k_hart (set_h_sstatus (fun x => Z.land x (Z.lnot SSTATUS_SIE)))).
Definition intr_get : K bool :=
  gets (fun s => negb (Z.land (h_sstatus (k_hart s)) SSTATUS_SIE =? 0)).

(** ** The hart invariant

    Outside critical sections the saved interrupt bit is dead; inside, supervisor
    interrupts are off. *)
Definition hart_ok (h : hart) : Prop :=
  0 <= h_noff h /\
  (h_saved_sie h = 0 \/ h_saved_sie h = SSTATUS_SIE) /\
  (h_noff h = 0 -> h_saved_sie h = Z.land (h_sstatus h) SSTATUS_SIE) /\
  (0 < h_noff h -> Z.land (h_sstatus h) SSTATUS_SIE = 0).

Definition hart_acquire (lk : lock) (h : hart) : hart :=
  set_h_locks (fun L => {[lk]} ∪ L) (push_off_hart h).
Definition hart_release (lk : lock) (h : hart) : hart :=
  pop_off_hart (set_h_locks (fun L => L ∖ {[lk]}) h).

(** ** Lemmas *)
Lemma land_lnot_zero x m : Z.land x m = 0 -> Z.land x (Z.lnot m) = x.
Proof.
  intros H. rewrite <- Z.ldiff_land. apply Z.bits_inj'. intros n Hn.
  rewrite Z.ldiff_spec. pose proof (f_equal (fun z => Z.testbit z n) H) as Hb.
  cbn in Hb. rewrite Z.land_spec, Z.bits_0 in Hb.
  destruct (Z.testbit x n), (Z.testbit m n); cbn in *; congruence.
Qed.

Lemma lor_land_split x m : Z.lor (Z.land x (Z.lnot m)) (Z.land x m) = x.
Proof.
  apply Z.bits_inj'. intros n Hn.
  rewrite Z.lor_spec, !Z.land_spec, Z.lnot_spec by done.
  by destruct (Z.testbit x n), (Z.testbit m n).
Qed.

Lemma land_SIE_cases x :
  Z.land x SSTATUS_SIE = 0 \/ Z.land x SSTATUS_SIE = SSTATUS_SIE.
Proof.
  assert (H : Z.land x SSTATUS_SIE = if Z.testbit x 1 then SSTATUS_SIE else 0).
  { apply Z.bits_inj'. intros n Hn. rewrite Z.land_spec. unfold SSTATUS_SIE.
    rewrite Z.shiftl_1_l. change (2 ^ 1) with (2 ^ 1).
    destruct (decide (n = 1)) as [->|Hne].
    - rewrite Z.pow2_bits_true by lia. destruct (Z.testbit x 1); cbn; done.
    - rewrite Z.pow2_bits_false by lia. rewrite andb_false_r.
      destruct (Z.testbit x 1); [by rewrite Z.pow2_bits_false by lia|by rewrite Z.bits_0]. }
  rewrite H. destruct (Z.testbit x 1); auto.
Qed.

Lemma land_lnot_SIE x : Z.land (Z.land x (Z.lnot SSTATUS_SIE)) SSTATUS_SIE = 0.
Proof.
  rewrite <- Z.land_assoc, (Z.land_comm (Z.lnot _)), Z.land_lnot_diag. apply Z.land_0_r.
Qed.

Lemma hart_ok_push h : hart_ok h -> hart_ok (push_off_hart h).
Proof.
  intros (H0 & Hs & H1 & H2). unfold hart_ok, push_off_hart. cbn [h_noff h_saved_sie h_sstatus].
  split_and!; [lia| |lia|].
  - destruct (h_noff h =? 0); [apply land_SIE_cases|done].
  - intros _. apply land_lnot_SIE.
Qed.

Lemma hart_ok_acquire lk h : hart_ok h -> hart_ok (hart_acquire lk h).
Proof. intros H. apply (hart_ok_push h) in H. exact H. Qed.

Lemma pop_push h : hart_ok h -> pop_off_hart (push_off_hart h) = h.
Proof.
  intros (H0 & _ & H1 & H2). destruct h as [x n sv L]. unfold push_off_hart, pop_off_hart.
  cbn in *. replace (n + 1 - 1) with n by lia.
  destruct (Z.eqb_spec n 0) as [->|Hn].
  - rewrite H1 by done.
    destruct (land_SIE_cases x) as [Hx|Hx].
    + rewrite Hx at 1. cbn. rewrite <- Z.land_assoc, Z.land_diag. by rewrite land_lnot_zero.
    + rewrite Hx at 1. replace (SSTATUS_SIE =? 0) with false by done. f_equal.
      rewrite <- (lor_land_split x SSTATUS_SIE) at 2. by rewrite Hx.
  - f_equal. apply land_lnot_zero, H2. lia.
Qed.

Lemma hart_ok_release lk h : hart_ok h -> 0 < h_noff h -> hart_ok (hart_release lk h).
Proof.
  intros (H0 & Hs & H1 & H2) Hn. unfold hart_release, pop_off_hart, hart_ok.
  cbn [h_noff h_saved_sie h_sstatus set_h_locks].
  destruct (Z.eqb_spec (h_noff h - 1) 0) as [E|E]; cbn [h_noff h_saved_sie h_sstatus].
  2:{ split_and!; [lia|done|lia|]. intros _. by apply H2. }
  split_and!; [lia|done| |lia]. intros _. destruct Hs as [->| ->].
  - cbn [Z.eqb]. by rewrite land_lnot_SIE.
  - replace (SSTATUS_SIE =? 0) with false by done.
    rewrite Z.land_lor_distr_l, H2 by done. by rewrite Z.land_diag.
Qed.

Lemma hart_release_acquire lk h :
  hart_ok h -> lk ∉ h_locks h -> hart_release lk (hart_acquire lk h) = h.
Proof.
  intros Hok Hl. unfold hart_release, hart_acquire.
  rewrite <- (pop_push h Hok) at 2. f_equal.
  unfold push_off_hart, set_h_locks. cbn. f_equal. set_solver.
Qed.

Lemma holding_spec lk s : holding lk s = Ret (bool_decide (lk ∈ h_locks (k_hart s))) s.
Proof. done. Qed.

Lemma acquire_ok lk s :
  lk ∉ h_locks (k_hart s) -> acquire lk s = Ret tt (set_k_hart (hart_acquire lk) s).
Proof.
  intros H. unfold acquire, push_off. rewrite bind_modify. unfold bind, holding, gets.
  rewrite bool_decide_false; [done|]. exact H.
Qed.

Lemma acquire_held lk s :
  lk ∈ h_locks (k_hart s) ->
  acquire lk s = Panic "acquire" (set_k_hart push_off_hart s).
Proof.
  intros H. unfold acquire, push_off. rewrite bind_modify. unfold bind, holding, gets.
  rewrite bool_decide_true; [done|]. exact H.
Qed.

Lemma release_ok lk s :
  lk ∈ h_locks (k_hart s) -> release lk s = Ret tt (set_k_hart (hart_release lk) s).
Proof.
  intros H. unfold release. unfold bind, holding, gets. rewrite bool_decide_true by exact H.
  done.
Qed.

(** Leaving the critical section entered from state [s]. *)
Lemma release_after lk s s1 :
  hart_ok (k_hart s) -> lk ∉ h_locks (k_hart s) ->
  k_hart s1 = hart_acquire lk (k_hart s) ->
  release lk s1 = Ret tt (set_k_hart (fun _ => k_hart s) s1).
Proof.
  intros Hok Hl H1. rewrite release_ok.
  - f_equal. unfold set_k_hart. f_equal. rewrite H1. by apply hart_release_acquire.
  - rewrite H1. cbn. set_solver.
Qed.

(** Lock operations change the hart only and never switch. *)
Lemma acquire_post lk s (Q : unit -> kstate -> Prop) W :
  (forall h, Q tt (set_k_hart (fun _ => h) s)) -> post (acquire lk) s Q W.
Proof.
  intros H. unfold post. destruct (decide (lk ∈ h_locks (k_hart s))).
  - by rewrite acquire_held.
  - rewrite acquire_ok by done. exact (H (hart_acquire lk (k_hart s))).
Qed.

Lemma release_post lk s (Q : unit -> kstate -> Prop) W :
  (forall h, Q tt (set_k_hart (fun _ => h) s)) -> post (release lk) s Q W.
Proof.
  intros H. unfold post. destruct (decide (lk ∈ h_locks (k_hart s))).
  - rewrite release_ok by done. exact (H (hart_release lk (k_hart s))).
  - unfold release, bind, holding, gets. by rewrite bool_decide_false.
Qed.

(** ** Sequences of lock operations *)
Inductive lock_op : Type := OpAcquire (lk : lock) | OpRelease (lk : lock).

Definition run_lock_op (o : lock_op) : K unit :=
  match o with OpAcquire lk => acquire lk | OpRelease lk => release lk end.

(** The hart [h] reached from [h0], which held no lock: the nesting depth counts the
    locks held; while it is positive interrupts are off and the caller's interrupt
    bit is saved; when it is back to zero [sstatus] is the caller's. *)
Definition lock_inv (h0 h : hart) : Prop :=
  h_noff h = Z.of_nat (size (h_locks h)) /\
  (0 < h_noff h ->
     h_saved_sie h = Z.land (h_sstatus h0) SSTATUS_SIE /\
     h_sstatus h = Z.land (h_sstatus h0) (Z.lnot SSTATUS_SIE)) /\
  (h_noff h = 0 -> h_sstatus h = h_sstatus h0).

Lemma lock_inv_acquire h0 h lk :
  lk ∉ h_locks h -> lock_inv h0 h -> lock_inv h0 (hart_acquire lk h).
Proof.
  intros Hl (Hn & Hp & Hz). unfold hart_acquire, push_off_hart, lock_inv. cbn.
  rewrite size_union by set_solver. rewrite size_singleton.
  split_and!; [lia| |lia]. intros _.
  destruct (Z.eqb_spec (h_noff h) 0) as [E|E].
  - by rewrite Hz.
  - destruct Hp as [-> ->]; [lia|]. split; [done|]. by rewrite <- Z.land_assoc, Z.land_diag.
Qed.

Lemma lock_inv_release h0 h lk :
  lk ∈ h_locks h -> lock_inv h0 h -> lock_inv h0 (hart_release lk h).
Proof.
  intros Hl (Hn & Hp & Hz).
  assert (Hsz : size (h_locks h) = S (size (h_locks h ∖ {[lk]}))).
  { rewrite (union_difference_singleton_L lk (h_locks h)) at 1 by done.
    rewrite size_union by set_solver. by rewrite size_singleton. }
  destruct Hp as [Hsv Hss]; [lia|].
  unfold hart_release, pop_off_hart, lock_inv. cbn. rewrite Hsv, Hss.
  destruct (Z.eqb_spec (h_noff h - 1) 0) as [E|E]; cbn; [|split_and!; [lia|done|lia]].
  split_and!; [lia|lia|]. intros _.
  destruct (land_SIE_cases (h_sstatus h0)) as [Hx|Hx]; rewrite Hx.
  - cbn. rewrite <- Z.land_assoc, Z.land_diag. by apply land_lnot_zero.
  - replace (SSTATUS_SIE =? 0) with false by done.
    rewrite <- (lor_land_split (h_sstatus h0) SSTATUS_SIE) at 2. by rewrite Hx.
Qed.

Lemma run_lock_op_inv o s s' h0 :
  run_lock_op o s = Ret tt s' -> lock_inv h0 (k_hart s) -> lock_inv h0 (k_hart s').
Proof.
  destruct o as [lk|lk]; cbn [run_lock_op]; intros Hr Hi;
    destruct (decide (lk ∈ h_locks (k_hart s))) as [Hl|Hl].
  - by rewrite acquire_held in Hr.
  - rewrite acquire_ok in Hr by done. simplify_eq. by apply lock_inv_acquire.
  - rewrite release_ok in Hr by done. simplify_eq. by apply lock_inv_release.
  - unfold release, bind, holding, gets in Hr. by rewrite bool_decide_false in Hr.
Qed.

Lemma run_lock_ops_inv ops s s' h0 :
  each ops run_lock_op s = Ret tt s' -> lock_inv h0 (k_hart s) -> lock_inv h0 (k_hart s').
Proof.
  revert s. induction ops as [|o ops IH]; intros s Hr Hi; cbn [each] in Hr.
  - unfold ret in Hr. by simplify_eq.
  - apply bind_Ret_inv in Hr as ([] & s1 & H1 & H2).
    eapply IH; [exact H2|]. by eapply run_lock_op_inv.
Qed.

(** Interrupt discipline of spinlocks: run any sequence of acquire and release
    calls (in any order, nested or not) from a hart that holds no lock.  If none of
    them panics, then in the state reached the nesting depth is the number of locks
    held, supervisor interrupts are off as long as some lock is held, and once no
    lock is held [sstatus] is exactly the caller's. *)
Theorem spinlock_interrupts ops s s' :
  h_noff (k_hart s) = 0 -> h_locks (k_hart s) = ∅ ->
  each ops run_lock_op s = Ret tt s' ->
  h_noff (k_hart s') = Z.of_nat (size (h_locks (k_hart s'))) /\
  (h_locks (k_hart s') ≠ ∅ -> Z.land (h_sstatus (k_hart s')) SSTATUS_SIE = 0) /\
  (h_locks (k_hart s') = ∅ -> h_sstatus (k_hart s') = h_sstatus (k_hart s)).
Proof.
  intros Hn Hl Hr.
  assert (Hi : lock_inv (k_hart s) (k_hart s')).
  { eapply run_lock_ops_inv; [exact Hr|]. split_and!; [by rewrite Hl|lia|done]. }
  destruct Hi as (Ha & Hb & Hc). split_and!; [done| |].
  - intros Hne. destruct Hb as [_ ->].
    + assert (size (h_locks (k_hart s')) ≠ 0%nat) by (rewrite size_empty_iff; by unfold_leibniz). lia.
    + apply land_lnot_SIE.
  - intros He. apply Hc. rewrite Ha, He. by rewrite size_empty.
Qed.

Lemma boot_hart_ok : hart_ok boot_hart.
Proof. split_and!; cbn; auto; lia. Qed.

Definition nested_ops : list lock_op := [OpAcquire LkLog; OpAcquire LkBcache; OpRelease LkBcache].
Definition nested_state : kstate := final (each nested_ops run_lock_op boot_state) boot_state.

Lemma spinlock_interrupts_witness :
  h_noff (k_hart nested_state) = 1 /\
  h_noff (k_hart nested_state) = Z.of_nat (size (h_locks (k_hart nested_state))) /\
  (h_locks (k_hart nested_state) ≠ ∅ -> Z.land (h_sstatus (k_hart nested_state)) SSTATUS_SIE = 0) /\
  (h_locks (k_hart nested_state) = ∅ -> h_sstatus (k_hart nested_state) = h_sstatus (k_hart boot_state)).
Proof.
  split; [vm_compute; reflexivity|].
  apply (spinlock_interrupts nested_ops boot_state nested_state).
  - reflexivity.
  - reflexivity.
  - vm_compute. reflexivity.
Defined.
