(* ===== verification/Sched.v ===== *)
(** * Sleep, wakeup and the scheduler (kernel/proc.c)

    The primitives every other component blocks and synchronises with: [myproc],
    [wakeup], [sleep], [sched], [yield], [kill] and one round of [scheduler].  A
    routine that reaches swtch inside [sched] ends in the outcome [Swtch]; what it
    does when it is dispatched again is the definition named [..._return]. *)

From S2P Require Import Prelude Params Machine Spinlock.

(** ** Access to the process table *)
Definition get_proc (i : nat) : K proc :=
  fun s => match k_procs s !! i with
           | Some p => Ret p s
           | None => Fault "proc index" s
           end.

Definition upd_proc (i : nat) (f : proc -> proc) : K unit :=
  modify (set_k_procs (alter f i)).

(** myproc(): the process running on the hart, null (None) in the scheduler. *)
Definition myproc : K (option nat) := gets k_cur.

(** A use of [myproc()->field]: faults when there is no current process. *)
Definition curproc : K nat :=
  fun s => match k_cur s with
           | Some i => Ret i s
           | None => Fault "null current process" s
           end.

(** [pr->pagetable] of a process pointer that may be null. *)
Definition pagetable_of (pr : option nat) : K Z :=
  match pr with
  | None => fault "null current process"
  | Some i => let! p := get_proc i in ret (p_pagetable p)
  end.

Lemma pagetable_of_ok me pr s : k_procs s !! me = Some pr -> pagetable_of (Some me) s = Ret (p_pagetable pr) s.
Proof. intros Hp. unfold pagetable_of, bind, get_proc. by rewrite Hp. Qed.

Lemma bind_myproc {A} (k : option nat -> K A) s me : k_cur s = Some me -> bind myproc k s = k (Some me) s.
Proof. intros E. unfold myproc, bind, gets. by rewrite <- E. Qed.

Definition is_state (st : procstate) (p : proc) : bool := bool_decide (p_state p = st).

(** ** Code *)

Definition wakeup_one (ch : chan) (i : nat) : K unit :=
  let! me := myproc in
  if bool_decide (me = Some i) then ret tt
  else
    do! acquire (LkProc i);
    let! p := get_proc i in
    do! when (is_state SLEEPING p && bool_decide (p_chan p = Some ch))
          (upd_proc i (set_p_state (fun _ => RUNNABLE)));
    release (LkProc i).

Definition wakeup (ch : chan) : K unit := each (seq 0 NPROC) (wakeup_one ch).

Definition sched {A} : K A :=
  let! p := curproc in
  let! held := holding (LkProc p) in
  if negb held then panic "sched: process lock not held"
  else
    let! on := intr_get in
    if on then panic "sched: interruptible"
    else
      let! pr := get_proc p in
      if is_state RUNNING pr then panic "sched: still RUNNING"
      else fun s => Swtch s.

(** yield, up to the switch and after it. *)
Definition yield : K unit :=
  let! p := curproc in
  do! acquire (LkProc p);
  do! upd_proc p (set_p_state (fun _ => RUNNABLE));
  sched.
Definition yield_return (p : nat) : K unit := release (LkProc p).

(** sleep, up to the switch and after it. *)
Definition sleep {A} (ch : chan) (lk : lock) : K A :=
  let! p := curproc in
  do! acquire (LkProc p);
  do! release lk;
  do! upd_proc p (set_p_chan (fun _ => Some ch));
  do! upd_proc p (set_p_state (fun _ => SLEEPING));
  sched.
Definition sleep_return (p : nat) (lk : lock) : K unit :=
  do! upd_proc p (set_p_chan (fun _ => None));
  do! release (LkProc p);
  acquire lk.

Definition kill_one (pid : Z) (i : nat) : K (option Z) :=
  do! acquire (LkProc i);
  let! p := get_proc i in
  if (p_pid p =? pid) && negb (is_state UNUSED p) then
    do! upd_proc i (set_p_killed (fun _ => 1));
    do! when (is_state SLEEPING p) (upd_proc i (set_p_state (fun _ => RUNNABLE)));
    do! release (LkProc i);
    ret (Some 0)
  else
    do! release (LkProc i);
    ret None.

Definition kill (pid : Z) : K Z :=
  let! r := search (seq 0 NPROC) (kill_one pid) in
  ret (default (-1) r).

(** One visit of the scheduler loop to slot [i]: [true] when it switches to the
    process, whose lock stays held across the switch. *)
Definition scheduler_visit (i : nat) : K bool :=
  do! acquire (LkProc i);
  let! p := get_proc i in
  if is_state RUNNABLE p then
    do! upd_proc i (set_p_state (fun _ => RUNNING));
    do! modify (set_k_cur (fun _ => Some i));
    ret true
  else
    do! release (LkProc i);
    ret false.

(** The scheduler after process [i] switched back to it. *)
Definition scheduler_back (i : nat) : K unit :=
  do! modify (set_k_cur (fun _ => None));
  release (LkProc i).

(** ** Wakeup as a pure update of the table *)
Definition wake (ch : chan) (p : proc) : proc :=
  if is_state SLEEPING p && bool_decide (p_chan p = Some ch)
  then set_p_state (fun _ => RUNNABLE) p else p.

Definition wake_table (me : option nat) (ch : chan) (ps : list proc) : list proc :=
  imap (fun i p => if bool_decide (me = Some i) then p else wake ch p) ps.

(** No process lock but possibly the current process's own is held. *)
Definition procs_free (s : kstate) : Prop :=
  forall i, LkProc i ∈ h_locks (k_hart s) -> k_cur s = Some i.

Lemma alter_alter_id {A} (f : A -> A) i (l : list A) x :
  l !! i = Some x -> f x = x -> alter f i l = l.
Proof.
  intros Hl Hf. apply list_eq. intros j.
  destruct (decide (i = j)) as [->|Hne].
  - by rewrite list_lookup_alter_eq, Hl; cbn; rewrite Hf.
  - by rewrite list_lookup_alter_ne.
Qed.

Lemma alter_twice {A} (f g : A -> A) i (l : list A) :
  alter g i (alter f i l) = alter (fun x => g (f x)) i l.
Proof.
  apply list_eq. intros j. destruct (decide (i = j)) as [->|Hne].
  - rewrite !list_lookup_alter_eq. by destruct (l !! j).
  - by rewrite !list_lookup_alter_ne.
Qed.

Lemma wakeup_one_spec ch i s :
  hart_ok (k_hart s) -> procs_free s -> (i < length (k_procs s))%nat ->
  wakeup_one ch i s =
    Ret tt (set_k_procs (alter (fun p => if bool_decide (k_cur s = Some i) then p
                                         else wake ch p) i) s).
Proof.
  intros Hok Hfree Hi. unfold wakeup_one, myproc. rewrite bind_gets.
  destruct (lookup_lt_is_Some_2 _ _ Hi) as [p Hp].
  case_bool_decide as Hme.
  - unfold ret. f_equal. unfold set_k_procs. by rewrite (alter_alter_id _ _ _ p).
  - assert (Hl : LkProc i ∉ h_locks (k_hart s)) by (intros H; by apply Hme, Hfree).
    rewrite (bind_Ret _ _ _ _ _ (acquire_ok _ _ Hl)).
    unfold bind at 1. unfold get_proc at 1. cbn [k_procs set_k_hart]. rewrite Hp.
    unfold wake.
    destruct (is_state SLEEPING p && bool_decide (p_chan p = Some ch)) eqn:Hc.
    + unfold bind, when, upd_proc, modify.
      rewrite (release_after _ s) by done. unfold ret. f_equal.
      unfold set_k_procs, set_k_hart. cbn. f_equal.
      apply list_eq. intros j. destruct (decide (i = j)) as [->|Hne].
      * rewrite !list_lookup_alter_eq, Hp. cbn. by rewrite Hc.
      * by rewrite !list_lookup_alter_ne.
    + unfold bind, when, ret.
      rewrite (release_after _ s) by done. f_equal.
      unfold set_k_procs, set_k_hart. cbn. f_equal.
      symmetry. apply (alter_alter_id _ _ _ p); [done|]. by rewrite Hc.
Qed.

Lemma wakeup_range ch k n s :
  hart_ok (k_hart s) -> procs_free s -> (k + n <= length (k_procs s))%nat ->
  each (seq k n) (wakeup_one ch) s =
    Ret tt (set_k_procs
      (imap (fun i p => if bool_decide (k <= i < k + n)%nat
                        then (if bool_decide (k_cur s = Some i) then p else wake ch p)
                        else p)) s).
Proof.
  revert k s. induction n as [|n IH]; intros k s Hok Hfree Hlen; cbn [seq each].
  - unfold ret. f_equal. unfold set_k_procs. change s with (mkK (k_hart s) (k_mem s)
      (k_freelist s) (k_kpt s) (k_procs s) (k_cur s) (k_nextpid s) (k_disk s)
      (k_bcache s) (k_logsb s) (k_log s) (k_sb s) (k_icache s) (k_ftable s) (k_pipes s)
      (k_csr s) (k_console s) (k_dev s) (k_vq s)) at 1. f_equal.
    apply list_eq. intros j. rewrite list_lookup_imap.
    destruct (k_procs s !! j); cbn; [|done]. by rewrite bool_decide_false by lia.
  - rewrite (bind_Ret _ _ _ _ _ (wakeup_one_spec ch k s Hok Hfree ltac:(lia))).
    rewrite IH; [|exact Hok|exact Hfree|cbn; rewrite length_alter; lia].
    f_equal. unfold set_k_procs. cbn. f_equal.
    apply list_eq. intros j. rewrite !list_lookup_imap.
    destruct (decide (k = j)) as [->|Hne].
    + rewrite list_lookup_alter_eq. destruct (k_procs s !! j); cbn; [|done].
      by rewrite (bool_decide_false (S j <= j < _)%nat), (bool_decide_true (j <= j < _)%nat) by lia.
    + rewrite list_lookup_alter_ne by done. destruct (k_procs s !! j); cbn; [|done].
      f_equal. destruct (decide (S k <= j < S k + n)%nat).
      * by rewrite !(bool_decide_true (_ <= j < _)%nat) by lia.
      * by rewrite !(bool_decide_false (_ <= j < _)%nat) by lia.
Qed.

(** What one component may assume of [wakeup]: it wakes exactly the sleepers on the
    channel, never the caller, and changes nothing else. *)
Lemma wakeup_spec ch s :
  hart_ok (k_hart s) -> procs_free s -> length (k_procs s) = NPROC ->
  wakeup ch s = Ret tt (set_k_procs (wake_table (k_cur s) ch) s).
Proof.
  intros Hok Hfree Hlen. unfold wakeup. rewrite wakeup_range by (try done; lia).
  f_equal. unfold set_k_procs. f_equal. unfold wake_table.
  apply list_eq. intros j. rewrite !list_lookup_imap.
  destruct (k_procs s !! j) eqn:Hj; cbn; [|done]. apply lookup_lt_Some in Hj.
  by rewrite (bool_decide_true (0 <= j < _)%nat) by lia.
Qed.

Lemma length_wake_table me ch ps : length (wake_table me ch ps) = length ps.
Proof. apply length_imap. Qed.

Lemma lookup_wake_table me ch ps i :
  wake_table me ch ps !! i =
    (fun p => if bool_decide (me = Some i) then p else wake ch p) <$> ps !! i.
Proof. apply list_lookup_imap. Qed.

Lemma wake_hit ch p : p_state p = SLEEPING -> p_chan p = Some ch -> wake ch p = set_p_state (fun _ => RUNNABLE) p.
Proof. intros H1 H2. unfold wake, is_state. by rewrite !bool_decide_true. Qed.
Lemma wake_miss ch p : ~ (p_state p = SLEEPING /\ p_chan p = Some ch) -> wake ch p = p.
Proof.
  intros H. unfold wake, is_state. destruct (decide (p_state p = SLEEPING)); [|by rewrite bool_decide_false].
  rewrite (bool_decide_false (p_chan p = Some ch)) by naive_solver. by rewrite andb_false_r.
Qed.

(** What a caller of wakeup owes the scheduler. *)
Definition kok (s : kstate) : Prop := hart_ok (k_hart s) /\ procs_free s /\ length (k_procs s) = NPROC.

Lemma kok_wake ch s : kok s -> wakeup ch s = Ret tt (set_k_procs (wake_table (k_cur s) ch) s) /\ kok (set_k_procs (wake_table (k_cur s) ch) s).
Proof. intros (H1 & H2 & H3). split; [by apply wakeup_spec|]. split_and!; [done|done|]. cbn. by rewrite length_wake_table. Qed.

(** ** The lock handoff of sleep *)

(** The result of running [sleep ch lk] up to the switch. *)
Lemma sleep_run {A} ch lk p pr s :
  k_cur s = Some p -> k_procs s !! p = Some pr ->
  hart_ok (k_hart s) -> lk ∈ h_locks (k_hart s) -> LkProc p ∉ h_locks (k_hart s) ->
  size (h_locks (k_hart s)) = 1%nat -> h_noff (k_hart s) = 1 ->
  exists h, sleep (A := A) ch lk s =
    Swtch (set_k_procs (alter (fun q => set_p_state (fun _ => SLEEPING)
                                          (set_p_chan (fun _ => Some ch) q)) p)
             (set_k_hart (fun _ => h) s)) /\
    hart_ok h /\ h_locks h = {[LkProc p]} /\ h_noff h = 1.
Proof.
  intros Hcur Hp Hok Hlk Hpl Hsz Hn.
  exists (hart_release lk (hart_acquire (LkProc p) (k_hart s))).
  assert (HL : h_locks (k_hart s) = {[lk]}).
  { apply size_1_elem_of in Hsz as [x Hx]. apply leibniz_equiv in Hx. rewrite Hx in Hlk |- *.
    apply elem_of_singleton in Hlk. by subst. }
  assert (Hne : lk ≠ LkProc p) by (by intros ->).
  assert (Hoff : Z.land (Z.land (h_sstatus (k_hart s)) (Z.lnot SSTATUS_SIE)) SSTATUS_SIE = 0)
    by apply land_lnot_SIE.
  assert (Hh : hart_release lk (hart_acquire (LkProc p) (k_hart s)) =
    mkHart (Z.land (h_sstatus (k_hart s)) (Z.lnot SSTATUS_SIE)) 1
      (h_saved_sie (k_hart s)) {[LkProc p]}).
  { unfold hart_release, hart_acquire, pop_off_hart, push_off_hart. cbn.
    rewrite Hn, HL. cbn. f_equal. set_solver. }
  split_and!.
  - unfold sleep, curproc. unfold bind at 1. rewrite Hcur.
    rewrite (bind_Ret _ _ _ _ _ (acquire_ok _ _ Hpl)).
    erewrite bind_Ret by (apply release_ok; cbn; set_solver).
    unfold upd_proc. rewrite !bind_modify.
    unfold sched, curproc. unfold bind at 1. cbn [k_cur set_k_procs set_k_hart]. rewrite Hcur.
    unfold holding. rewrite bind_gets. cbn [k_hart set_k_procs set_k_hart]. rewrite Hh. cbn [h_locks].
    rewrite bool_decide_true by set_solver. cbn [negb].
    unfold intr_get. rewrite bind_gets. cbn [k_hart set_k_procs set_k_hart]. rewrite Hh. cbn [h_sstatus].
    rewrite Hoff. cbn [negb Z.eqb].
    unfold bind at 1. unfold get_proc at 1. cbn [k_procs set_k_procs set_k_hart].
    rewrite !list_lookup_alter_eq, Hp. cbn -[set_k_procs set_k_hart]. f_equal.
    unfold set_k_procs, set_k_hart. cbn. f_equal; [done|].
    apply alter_twice.
  - apply hart_ok_release; [by apply hart_ok_acquire|]. cbn. lia.
  - by rewrite Hh.
  - by rewrite Hh.
Qed.

(** No wakeup is lost across [sleep]: a process that holds only the condition
    lock [lk] and sleeps on [ch] is, once it has switched away, marked SLEEPING on
    [ch] with no lock held.  Every later wakeup of another channel leaves it asleep;
    a wakeup of [ch] makes it RUNNABLE, and when the scheduler dispatches it again
    it returns from [sleep] running, off the channel, and holding [lk] again. *)
Theorem sleep_wakeup_handoff ch lk p pr s :
  k_cur s = Some p -> k_procs s !! p = Some pr -> length (k_procs s) = NPROC ->
  hart_ok (k_hart s) -> h_locks (k_hart s) = {[lk]} -> h_noff (k_hart s) = 1 ->
  (forall i, lk ≠ LkProc i) ->
  exists s1 s2 s3 s4 s5,
    sleep (A := unit) ch lk s = Swtch s1 /\
    scheduler_back p s1 = Ret tt s2 /\ h_locks (k_hart s2) = ∅ /\
    k_procs s2 !! p = Some (set_p_state (fun _ => SLEEPING) (set_p_chan (fun _ => Some ch) pr)) /\
    (forall ch', ch' ≠ ch -> exists s', wakeup ch' s2 = Ret tt s' /\
                                        k_procs s' !! p = k_procs s2 !! p) /\
    wakeup ch s2 = Ret tt s3 /\
    scheduler_visit p s3 = Ret true s4 /\
    sleep_return p lk s4 = Ret tt s5 /\
    k_cur s5 = Some p /\ h_locks (k_hart s5) = {[lk]} /\
    k_procs s5 !! p = Some (set_p_state (fun _ => RUNNING) (set_p_chan (fun _ => None) pr)).
Proof.
  intros Hcur Hp Hlen Hok HL Hn Hnp.
  destruct (sleep_run (A := unit) ch lk p pr s) as (h & Hs & Hokh & HLh & Hnh);
    [done|done|done|rewrite HL; set_solver|rewrite HL; specialize (Hnp p); set_solver
    |rewrite HL; apply size_singleton|done|].
  set (s1 := set_k_procs _ _) in Hs.
  set (h2 := hart_release (LkProc p) h).
  set (s2 := set_k_hart (fun _ => h2) (set_k_cur (fun _ => None) s1)).
  assert (HL2 : h_locks h2 = ∅).
  { unfold h2, hart_release, pop_off_hart. cbn. rewrite Hnh, HLh. cbn. set_solver. }
  assert (Hok2 : hart_ok h2) by (apply hart_ok_release; [done|lia]).
  assert (Hback : scheduler_back p s1 = Ret tt s2).
  { unfold scheduler_back. rewrite bind_modify. rewrite release_ok; [done|].
    cbn. rewrite HLh. set_solver. }
  assert (Hp2 : k_procs s2 !! p =
    Some (set_p_state (fun _ => SLEEPING) (set_p_chan (fun _ => Some ch) pr))).
  { cbn. by rewrite list_lookup_alter_eq, Hp. }
  assert (Hfree2 : procs_free s2). { intros i Hi. cbn in Hi. rewrite HL2 in Hi. set_solver. }
  assert (Hlen2 : length (k_procs s2) = NPROC) by (cbn; by rewrite length_alter).
  pose proof (fun c => wakeup_spec c s2 Hok2 Hfree2 Hlen2) as Hwake.
  set (s3 := set_k_procs (wake_table (k_cur s2) ch) s2).
  assert (Hp3 : k_procs s3 !! p =
    Some (set_p_state (fun _ => RUNNABLE) (set_p_chan (fun _ => Some ch) pr))).
  { cbn [s3 k_procs set_k_procs]. rewrite lookup_wake_table, Hp2. cbn.
    unfold wake, is_state. cbn. by bdec. }
  set (s4 := set_k_cur (fun _ => Some p)
    (set_k_procs (alter (set_p_state (fun _ => RUNNING)) p)
      (set_k_hart (hart_acquire (LkProc p)) s3))).
  exists s1, s2, s3, s4. eexists. split_and!; [done|done|done|done| |done| | |..].
  - intros ch' Hne. exists (set_k_procs (wake_table (k_cur s2) ch') s2).
    split; [apply Hwake|]. cbn [k_procs set_k_procs]. rewrite lookup_wake_table, Hp2. cbn.
    unfold wake, is_state. cbn. by bdec.
  - unfold scheduler_visit.
    erewrite bind_Ret by (apply acquire_ok; cbn [s3 s2 k_hart set_k_procs set_k_hart]; rewrite HL2; set_solver).
    unfold bind at 1. unfold get_proc at 1. cbn [k_procs set_k_hart]. rewrite Hp3.
    done.
  - unfold sleep_return, upd_proc. rewrite bind_modify.
    erewrite bind_Ret by (apply (release_after _ s3); [done|cbn; rewrite HL2; set_solver|done]).
    apply acquire_ok. cbn. rewrite HL2. set_solver.
  - done.
  - cbn. rewrite HL2. set_solver.
  - cbn [k_procs set_k_procs set_k_hart set_k_cur s4]. rewrite !list_lookup_alter_eq, Hp3. done.
Qed.

(** ** One running process

    The transitions the scheduling primitives make, with a process that switches
    away followed by the scheduler's release of its lock. *)
Inductive sched_step : kstate -> kstate -> Prop :=
| ss_visit i b s s' : k_cur s = None -> scheduler_visit i s = Ret b s' -> sched_step s s'
| ss_yield p s s1 s' :
    k_cur s = Some p -> yield s = Swtch s1 -> scheduler_back p s1 = Ret tt s' -> sched_step s s'
| ss_yield_return p s s' :
    k_cur s = Some p -> yield_return p s = Ret tt s' -> sched_step s s'
| ss_sleep p ch lk s s1 s' :
    k_cur s = Some p -> sleep (A := unit) ch lk s = Swtch s1 ->
    scheduler_back p s1 = Ret tt s' -> sched_step s s'
| ss_sleep_return p lk s s' :
    k_cur s = Some p -> sleep_return p lk s = Ret tt s' -> sched_step s s'
| ss_wakeup ch s s' : wakeup ch s = Ret tt s' -> sched_step s s'
| ss_kill pid r s s' : kill pid s = Ret r s' -> sched_step s s'
| ss_lock o s s' : run_lock_op o s = Ret tt s' -> sched_step s s'.

(** Exactly the current process is RUNNING. *)
Definition sched_inv (s : kstate) : Prop :=
  forall i p, k_procs s !! i = Some p -> (p_state p = RUNNING <-> k_cur s = Some i).

(** After a switch and before the scheduler has cleared cpu->proc. *)
Definition switched (p : nat) (s : kstate) : Prop :=
  k_cur s = Some p /\ forall i q, k_procs s !! i = Some q -> p_state q ≠ RUNNING.

Lemma lookup_alter_inv {A} (f : A -> A) i j (l : list A) y :
  alter f i l !! j = Some y -> exists x, l !! j = Some x /\ (y = x \/ i = j /\ y = f x).
Proof.
  destruct (decide (i = j)) as [->|Hne].
  - rewrite list_lookup_alter_eq. destruct (l !! j); intros; simplify_eq/=; eauto.
  - rewrite list_lookup_alter_ne by done. eauto.
Qed.

Lemma sched_inv_upd s i f :
  sched_inv s ->
  (forall p, k_procs s !! i = Some p -> p_state (f p) = RUNNING <-> p_state p = RUNNING) ->
  sched_inv (set_k_procs (alter f i) s).
Proof.
  intros Hi Hf j q Hq. cbn in Hq |- *.
  apply lookup_alter_inv in Hq as (x & Hx & [->|[-> ->]]); [by apply Hi|].
  rewrite Hf by done. by apply Hi.
Qed.

(** From a state where all but the current process's entry satisfy the invariant,
    [sched] only switches if that entry is no longer RUNNING. *)
Lemma sched_post {A} p s (Q : A -> kstate -> Prop) :
  k_cur s = Some p ->
  (forall i q, k_procs s !! i = Some q -> p_state q = RUNNING -> i = p) ->
  post sched s Q (switched p).
Proof.
  intros Hc Hr. unfold post, sched, curproc, bind, holding, intr_get, gets, get_proc.
  rewrite Hc. destruct (bool_decide _); cbn [negb]; [|done].
  destruct (Z.land _ _ =? 0); cbn [negb]; [|done]. destruct (k_procs s !! p) as [pr|] eqn:Hp; [|done].
  destruct (is_state RUNNING pr) eqn:Hst; [done|]. split; [done|].
  intros i q Hq Hq'. pose proof (Hr i q Hq Hq') as ->. simplify_eq.
  unfold is_state in Hst. by rewrite bool_decide_eq_false in Hst.
Qed.

Lemma scheduler_back_inv p s s' :
  switched p s -> scheduler_back p s = Ret tt s' -> sched_inv s'.
Proof.
  intros [Hc Hn] H. eapply (post_Ret (scheduler_back p) s (fun _ => sched_inv) (fun _ => True));
    [|exact H].
  unfold scheduler_back. apply post_bind. cbn. apply release_post. intros h i q Hq. cbn in *.
  split; [|done]. intros Hst. by apply Hn in Hq.
Qed.

Lemma wakeup_inv ch s s' : sched_inv s -> wakeup ch s = Ret tt s' -> sched_inv s'.
Proof.
  intros Hi. apply (post_Ret (wakeup ch) s (fun _ => sched_inv) (fun _ => True)).
  apply post_each; [done|]. intros i s0 _ H0. unfold wakeup_one, myproc.
  apply post_bind. cbn -[acquire]. case_bool_decide; [done|].
  apply post_bind, acquire_post. intros h. apply post_bind.
  unfold post at 1, get_proc. destruct (k_procs _ !! i) as [p|] eqn:Hp; [|done].
  apply post_bind. unfold when.
  destruct (is_state SLEEPING p && _) eqn:Hc.
  - unfold post at 1, upd_proc, modify. apply release_post. intros h'.
    apply (sched_inv_upd s0 i); [done|]. intros q Hq. cbn in Hp. simplify_eq.
    unfold is_state in Hc. apply andb_true_iff in Hc as [Hc _].
    apply bool_decide_eq_true in Hc. cbn. by rewrite Hc.
  - apply post_ret, release_post. intros h'. exact H0.
Qed.

Lemma kill_inv pid r s s' : sched_inv s -> kill pid s = Ret r s' -> sched_inv s'.
Proof.
  intros Hi. apply (post_Ret (kill pid) s (fun _ => sched_inv) (fun _ => True)).
  unfold kill. apply post_bind.
  eapply (post_search _ _ sched_inv (fun _ => sched_inv)); [done|done|].
  intros i s0 _ H0. unfold kill_one.
  apply post_bind, acquire_post. intros h. apply post_bind.
  unfold post at 1, get_proc. destruct (k_procs _ !! i) as [p|] eqn:Hp; [|done]. cbn in Hp.
  destruct (_ && _).
  2:{ apply post_bind, release_post. intros h'. exact H0. }
  apply post_bind. unfold post at 1, upd_proc at 1, modify. apply post_bind.
  assert (H1 : sched_inv (set_k_procs (alter (set_p_killed (fun _ => 1)) i)
                            (set_k_hart (fun _ => h) s0))).
  { apply (sched_inv_upd (set_k_hart (fun _ => h) s0)); [exact H0|done]. }
  unfold when. destruct (is_state SLEEPING p) eqn:Hs.
  - unfold post at 1, upd_proc, modify. apply post_bind, release_post. intros h'.
    apply post_ret, (sched_inv_upd _ i _ H1). intros q Hq. cbn in Hq |- *.
    rewrite list_lookup_alter_eq, Hp in Hq. simplify_eq/=.
    unfold is_state in Hs. apply bool_decide_eq_true in Hs. by rewrite Hs.
  - apply post_ret, post_bind, release_post. intros h'. exact H1.
Qed.

(** At most one process runs: from a state in which exactly the current process
    is RUNNING (none, in the scheduler), every sequence of dispatches, yields,
    sleeps and their returns, wakeups, kills and lock operations that does not
    panic leads to a state with the same property. *)
Theorem one_running s s' : rtc sched_step s s' -> sched_inv s -> sched_inv s'.
Proof.
  induction 1 as [|s s1 s' Hstep _ IH]; [done|]. intros Hi. apply IH. clear IH.
  assert (Hcur : forall p i q, k_cur s = Some p -> k_procs s !! i = Some q ->
                               p_state q = RUNNING -> i = p).
  { intros p i q Hc Hq Hst. apply (Hi i q Hq) in Hst. congruence. }
  destruct Hstep as [i b s t Hc H|p s sw t Hc H Hb|p s t Hc H|p ch lk s sw t Hc H Hb
                    |p lk s t Hc H|ch s t H|pid r s t H|o s t H].
  - revert H. apply (post_Ret (scheduler_visit i) s (fun _ => sched_inv) (fun _ => True)).
    unfold scheduler_visit. apply post_bind, acquire_post. intros h. apply post_bind.
    unfold post at 1, get_proc. destruct (k_procs _ !! i) as [p|] eqn:Hp; [|done].
    destruct (is_state RUNNABLE p); [|by apply post_bind, release_post].
    cbn. intros j q Hq. cbn in *. destruct (decide (i = j)) as [->|Hne].
    + rewrite list_lookup_alter_eq, Hp in Hq. by simplify_eq/=.
    + rewrite list_lookup_alter_ne in Hq by done. rewrite (Hi j q Hq), Hc. naive_solver.
  - eapply scheduler_back_inv; [|exact Hb]. revert H.
    apply (post_Swtch yield s (fun _ _ => True) (switched p)).
    unfold yield, curproc. apply post_bind. unfold post at 1. rewrite Hc.
    apply post_bind, acquire_post. intros h. apply post_bind. cbn -[sched].
    apply sched_post; [done|]. intros i q Hq Hst. cbn in Hq.
    apply lookup_alter_inv in Hq as (x & Hx & [->|[-> ->]]); [by eapply Hcur|done].
  - revert H. apply (post_Ret (yield_return p) s (fun _ => sched_inv) (fun _ => True)).
    by apply release_post.
  - eapply scheduler_back_inv; [|exact Hb]. revert H.
    apply (post_Swtch (sleep ch lk) s (fun _ _ => True) (switched p)).
    unfold sleep, curproc. apply post_bind. unfold post at 1. rewrite Hc.
    apply post_bind, acquire_post. intros h. apply post_bind, release_post. intros h'.
    apply post_bind. cbn -[sched]. apply post_bind. cbn -[sched].
    apply sched_post; [done|]. intros i q Hq Hst. cbn in Hq.
    apply lookup_alter_inv in Hq as (x & Hx & [->|[-> ->]]); [|done].
    apply lookup_alter_inv in Hx as (y & Hy & [->|[-> ->]]); by eapply Hcur.
  - revert H. apply (post_Ret (sleep_return p lk) s (fun _ => sched_inv) (fun _ => True)).
    unfold sleep_return. apply post_bind. cbn -[bind].
    apply post_bind, release_post. intros h. apply acquire_post. intros h'.
    by apply (sched_inv_upd s p).
  - by eapply wakeup_inv.
  - by eapply kill_inv.
  - revert H. destruct o as [lk|lk]; cbn [run_lock_op].
    + by apply (post_Ret (acquire lk) s (fun _ => sched_inv) (fun _ => True)), acquire_post.
    + by apply (post_Ret (release lk) s (fun _ => sched_inv) (fun _ => True)), release_post.
Qed.

(** ** Example states

    Slot 1 of the table runnable, and the same slot dispatched. *)
Definition runnable_state : kstate :=
  set_k_procs (alter (fun p => set_p_pid (fun _ => 1) (set_p_state (fun _ => RUNNABLE) p)) 1%nat) boot_state.
Definition running_state : kstate :=
  set_k_hart (fun _ => boot_hart) (final (scheduler_visit 1 runnable_state) runnable_state).

Lemma runnable_not_running : Forall (fun p => p_state p ≠ RUNNING) (k_procs runnable_state).
Proof. apply (bool_decide_unpack _). vm_compute. exact I. Qed.

Lemma one_running_witness :
  rtc sched_step runnable_state (final (scheduler_visit 1 runnable_state) runnable_state) /\
  sched_inv (final (scheduler_visit 1 runnable_state) runnable_state).
Proof.
  assert (H : rtc sched_step runnable_state (final (scheduler_visit 1 runnable_state) runnable_state)).
  { apply rtc_once. apply (ss_visit 1 true); [reflexivity|vm_compute; reflexivity]. }
  split; [exact H|]. apply (one_running _ _ H). intros i p Hp.
  pose proof (Forall_lookup_1 _ _ _ _ runnable_not_running Hp). split; [done|].
  intros Hc. discriminate Hc.
Defined.

Definition waiting_state : kstate := final (acquire LkLog running_state) running_state.

Lemma sleep_wakeup_handoff_witness :
  exists s1 s2 s3 s4 s5,
    sleep (A := unit) ChLog LkLog waiting_state = Swtch s1 /\
    scheduler_back 1 s1 = Ret tt s2 /\ wakeup ChLog s2 = Ret tt s3 /\
    scheduler_visit 1 s3 = Ret true s4 /\ sleep_return 1 LkLog s4 = Ret tt s5 /\
    h_locks (k_hart s5) = {[LkLog]}.
Proof.
  destruct (lookup_lt_is_Some_2 (k_procs waiting_state) 1) as [pr Hpr]; [vm_compute; lia|].
  destruct (sleep_wakeup_handoff ChLog LkLog 1 pr waiting_state)
    as (s1 & s2 & s3 & s4 & s5 & H1 & H2 & _ & _ & _ & H3 & H4 & H5 & _ & H6 & _).
  - reflexivity.
  - exact Hpr.
  - vm_compute. reflexivity.
  - exact (hart_ok_acquire LkLog boot_hart boot_hart_ok).
  - vm_compute. reflexivity.
  - reflexivity.
  - discriminate.
  - exists s1, s2, s3, s4, s5. exact (conj H1 (conj H2 (conj H3 (conj H4 (conj H5 H6))))).
Defined.
