(* ===== verification/CString.v ===== *)
(** * Byte memory and the string library (kernel/string.c)

    Physical memory is a finite map from addresses to bytes; a byte never written
    reads as 0.  [memset] and [memmove] act on it.  The functions on character
    strings act on byte lists: the bytes of a buffer from a pointer on, a read past
    the end of the list reading the terminating NUL. *)

From S2P Require Import Prelude Params.

(** ** Memory access *)
Definition ldb (m : gmap Z Z) (a : Z) : Z := default 0 (m !! a).

Definition ld_bytes (m : gmap Z Z) (a : Z) (n : nat) : list Z :=
  (fun i => ldb m (a + Z.of_nat i)) <$> seq 0 n.

Fixpoint st_bytes (m : gmap Z Z) (a : Z) (bs : list Z) : gmap Z Z :=
  match bs with
  | [] => m
  | b :: bs' => st_bytes (<[a := b]> m) (a + 1) bs'
  end.

Definition ld64 (m : gmap Z Z) (a : Z) : Z := le_val (ld_bytes m a 8).
Definition st64 (m : gmap Z Z) (a v : Z) : gmap Z Z := st_bytes m a (le_bytes 8 v).

(** ** string.c: memory *)
Fixpoint memset (m : gmap Z Z) (dst c : Z) (n : nat) : gmap Z Z :=
  match n with
  | O => m
  | S n' => memset (<[dst := u8 c]> m) (dst + 1) c n'
  end.

Fixpoint memmove_fwd (m : gmap Z Z) (d s : Z) (n : nat) : gmap Z Z :=
  match n with
  | O => m
  | S n' => memmove_fwd (<[d := ldb m s]> m) (d + 1) (s + 1) n'
  end.

Fixpoint memmove_bwd (m : gmap Z Z) (d s : Z) (n : nat) : gmap Z Z :=
  match n with
  | O => m
  | S n' => memmove_bwd (<[d - 1 := ldb m (s - 1)]> m) (d - 1) (s - 1) n'
  end.

Definition memmove (m : gmap Z Z) (dst src : Z) (n : nat) : gmap Z Z :=
  match n with
  | O => m
  | _ =>
      if (src <? dst) && (dst <? src + Z.of_nat n)
      then memmove_bwd m (dst + Z.of_nat n) (src + Z.of_nat n) n
      else memmove_fwd m dst src n
  end.

(** ** string.c: character strings *)
Definition hd0 (l : list Z) : Z := default 0 (head l).

Fixpoint memcmp (s1 s2 : list Z) (n : nat) : Z :=
  match n with
  | O => 0
  | S n' => if hd0 s1 =? hd0 s2 then memcmp (tail s1) (tail s2) n' else hd0 s1 - hd0 s2
  end.

Fixpoint strncmp (p q : list Z) (n : nat) : Z :=
  match n with
  | O => 0
  | S n' =>
      if negb (hd0 p =? 0) && (hd0 p =? hd0 q) then strncmp (tail p) (tail q) n'
      else hd0 p - hd0 q
  end.

(** The bytes [strncpy(s, t, n)] stores at [s]: the string, NUL-padded to [n]. *)
Fixpoint strncpy (t : list Z) (n : nat) : list Z :=
  match n with
  | O => []
  | S n' => hd0 t :: (if hd0 t =? 0 then replicate n' 0 else strncpy (tail t) n')
  end.

(** The copy loop of safestrcpy with [k] characters left, and its final NUL. *)
Fixpoint safestrcpy_loop (t : list Z) (k : nat) : list Z :=
  match k with
  | O => [0]
  | S k' => hd0 t :: (if hd0 t =? 0 then [0] else safestrcpy_loop (tail t) k')
  end.

(** The bytes [safestrcpy(s, t, n)] stores at [s]. *)
Definition safestrcpy (t : list Z) (n : Z) : list Z :=
  if n <=? 0 then []
  else if n =? 1 then [0]
  else safestrcpy_loop t (Z.to_nat (n - 1)).

Fixpoint strlen (s : list Z) : Z :=
  match s with
  | [] => 0
  | c :: s' => if c =? 0 then 0 else 1 + strlen s'
  end.

(** ** Lemmas: memory *)
Lemma ldb_insert m a b x : ldb (<[a := b]> m) x = if bool_decide (a = x) then b else ldb m x.
Proof.
  unfold ldb. rewrite lookup_insert. case_decide; [by rewrite bool_decide_true|].
  by rewrite bool_decide_false.
Qed.

Lemma ldb_st_bytes m a bs x :
  ldb (st_bytes m a bs) x =
    if bool_decide (a <= x < a + Z.of_nat (length bs))
    then default 0 (bs !! Z.to_nat (x - a)) else ldb m x.
Proof.
  revert m a. induction bs as [|b bs IH]; intros m a; cbn [st_bytes length].
  - by rewrite bool_decide_false by lia.
  - rewrite IH. case_bool_decide as H1.
    + rewrite bool_decide_true by lia.
      replace (Z.to_nat (x - a)) with (S (Z.to_nat (x - (a + 1)))) by lia. done.
    + rewrite ldb_insert. case_bool_decide as H2.
      * subst. rewrite bool_decide_true by lia. by rewrite Z.sub_diag.
      * by rewrite bool_decide_false by lia.
Qed.

Lemma ldb_memset m dst c n x :
  ldb (memset m dst c n) x =
    if bool_decide (dst <= x < dst + Z.of_nat n) then u8 c else ldb m x.
Proof.
  revert m dst. induction n as [|n IH]; intros m dst; cbn [memset].
  - by rewrite bool_decide_false by lia.
  - rewrite IH. case_bool_decide as H1; [by rewrite bool_decide_true by lia|].
    rewrite ldb_insert. case_bool_decide as H2.
    + subst. by rewrite bool_decide_true by lia.
    + by rewrite bool_decide_false by lia.
Qed.

Lemma ldb_memmove_fwd m d s n x :
  (d <= s \/ s + Z.of_nat n <= d) ->
  ldb (memmove_fwd m d s n) x =
    if bool_decide (d <= x < d + Z.of_nat n) then ldb m (s + (x - d)) else ldb m x.
Proof.
  revert m d s. induction n as [|n IH]; intros m d s H; cbn [memmove_fwd].
  - by rewrite bool_decide_false by lia.
  - rewrite IH by lia. rewrite !ldb_insert.
    case_bool_decide as H1.
    + rewrite (bool_decide_false (d = _)), (bool_decide_true (d <= x < _)) by lia.
      f_equal. lia.
    + case_bool_decide as H2.
      * subst. rewrite bool_decide_true by lia. f_equal. lia.
      * by rewrite bool_decide_false by lia.
Qed.

Lemma ldb_memmove_bwd m d s n x :
  s <= d ->
  ldb (memmove_bwd m d s n) x =
    if bool_decide (d - Z.of_nat n <= x < d) then ldb m (s - (d - x)) else ldb m x.
Proof.
  revert m d s. induction n as [|n IH]; intros m d s H; cbn [memmove_bwd].
  - by rewrite bool_decide_false by lia.
  - rewrite IH by lia. rewrite !ldb_insert.
    case_bool_decide as H1.
    + rewrite (bool_decide_false (d - 1 = _)), (bool_decide_true (d - _ <= x < _)) by lia.
      f_equal. lia.
    + case_bool_decide as H2.
      * subst. rewrite bool_decide_true by lia. f_equal. lia.
      * by rewrite bool_decide_false by lia.
Qed.

(** memmove, byte by byte. *)
Lemma ldb_memmove m dst src n x :
  ldb (memmove m dst src n) x =
    if bool_decide (dst <= x < dst + Z.of_nat n) then ldb m (src + (x - dst)) else ldb m x.
Proof.
  destruct n as [|n]; [by rewrite bool_decide_false by (cbn; lia)|].
  unfold memmove. set (k := S n).
  destruct (Z.ltb_spec src dst), (Z.ltb_spec dst (src + Z.of_nat k)); cbn [andb].
  - rewrite ldb_memmove_bwd by lia.
    replace (dst + Z.of_nat k - Z.of_nat k) with dst by lia.
    case_bool_decide; [|done]. f_equal. lia.
  - apply ldb_memmove_fwd. lia.
  - apply ldb_memmove_fwd. lia.
  - apply ldb_memmove_fwd. lia.
Qed.

Lemma length_ld_bytes m a n : length (ld_bytes m a n) = n.
Proof. unfold ld_bytes. by rewrite length_fmap, length_seq. Qed.

Lemma lookup_ld_bytes m a n i :
  (i < n)%nat -> ld_bytes m a n !! i = Some (ldb m (a + Z.of_nat i)).
Proof. intros H. unfold ld_bytes. by rewrite list_lookup_fmap, lookup_seq_lt. Qed.

Lemma ld_bytes_ext m m' a a' n :
  (forall i, 0 <= i < Z.of_nat n -> ldb m (a + i) = ldb m' (a' + i)) ->
  ld_bytes m a n = ld_bytes m' a' n.
Proof.
  intros H. apply list_eq. intros i. destruct (decide (i < n)%nat) as [Hi|Hi].
  - rewrite !lookup_ld_bytes by done. f_equal. apply H. lia.
  - rewrite !lookup_ge_None_2; [done| |]; rewrite length_ld_bytes; lia.
Qed.

(** memmove copies between overlapping ranges: afterwards the destination holds
    the bytes the source held before the call, and no byte outside the destination
    has changed. *)
Theorem memmove_correct m dst src n :
  ld_bytes (memmove m dst src n) dst n = ld_bytes m src n /\
  (forall x, ~ (dst <= x < dst + Z.of_nat n) -> ldb (memmove m dst src n) x = ldb m x).
Proof.
  split.
  - apply ld_bytes_ext. intros i Hi. rewrite ldb_memmove, bool_decide_true by lia. f_equal. lia.
  - intros x Hx. by rewrite ldb_memmove, bool_decide_false.
Qed.

Lemma ld_bytes_st_bytes m a bs : ld_bytes (st_bytes m a bs) a (length bs) = bs.
Proof.
  apply list_eq. intros i. destruct (decide (i < length bs)%nat) as [Hi|Hi].
  - rewrite lookup_ld_bytes by done. rewrite ldb_st_bytes, bool_decide_true by lia.
    replace (Z.to_nat (a + Z.of_nat i - a)) with i by lia.
    by destruct (lookup_lt_is_Some_2 _ _ Hi) as [b ->].
  - rewrite !lookup_ge_None_2; [done|lia|]. rewrite length_ld_bytes. lia.
Qed.

Lemma ld64_st64 m a v : ld64 (st64 m a v) a = u64 v.
Proof.
  unfold ld64, st64. rewrite <- (length_le_bytes 8 v) at 2.
  rewrite ld_bytes_st_bytes. apply le_val_bytes.
Qed.

Lemma ldb_st64_ne m a v x : (x < a \/ a + 8 <= x) -> ldb (st64 m a v) x = ldb m x.
Proof.
  intros H. unfold st64. rewrite ldb_st_bytes, length_le_bytes.
  by rewrite bool_decide_false by lia.
Qed.

Lemma ld64_ext m m' a a' :
  (forall i, 0 <= i < 8 -> ldb m (a + i) = ldb m' (a' + i)) -> ld64 m a = ld64 m' a'.
Proof. intros H. unfold ld64. f_equal. apply ld_bytes_ext. exact H. Qed.

Lemma ld64_st64_ne m a v x : (x + 8 <= a \/ a + 8 <= x) -> ld64 (st64 m a v) x = ld64 m x.
Proof. intros H. apply ld64_ext. intros i Hi. apply ldb_st64_ne. lia. Qed.

(** Bytes written by the kernel stay bytes. *)
Definition mem_ok (m : gmap Z Z) : Prop := forall a, is_byte (ldb m a).

Lemma ld_bytes_byte m a n : mem_ok m -> Forall is_byte (ld_bytes m a n).
Proof.
  intros H. apply Forall_lookup. intros i x Hx.
  assert (Hi := lookup_lt_Some _ _ _ Hx). rewrite length_ld_bytes in Hi.
  rewrite lookup_ld_bytes in Hx by done. simplify_eq. apply H.
Qed.

Lemma ld64_range m a : mem_ok m -> 0 <= ld64 m a < 2 ^ 64.
Proof.
  intros H. unfold ld64. pose proof (le_val_range _ (ld_bytes_byte m a 8 H)) as Hr.
  rewrite length_ld_bytes in Hr. exact Hr.
Qed.

Lemma mem_ok_st_bytes m a bs : mem_ok m -> Forall is_byte bs -> mem_ok (st_bytes m a bs).
Proof.
  intros Hm Hb x. rewrite ldb_st_bytes. case_bool_decide; [|done].
  destruct (bs !! _) eqn:E; cbn; [|unfold is_byte; lia].
  by eapply Forall_lookup in Hb.
Qed.

Lemma mem_ok_st64 m a v : mem_ok m -> mem_ok (st64 m a v).
Proof. intros H. apply mem_ok_st_bytes; [done|]. apply le_bytes_byte. Qed.

Lemma mem_ok_memset m a c n : mem_ok m -> mem_ok (memset m a c n).
Proof.
  intros H x. rewrite ldb_memset. case_bool_decide; [|done].
  apply (Z.mod_pos_bound c (2 ^ 8)). lia.
Qed.

Lemma mem_ok_memmove m d s n : mem_ok m -> mem_ok (memmove m d s n).
Proof. intros H x. rewrite ldb_memmove. case_bool_decide; apply H. Qed.

(** ** Lemmas: strings *)

(** The C string held by the first [n] bytes of a buffer. *)
Fixpoint cstr (n : nat) (s : list Z) : list Z :=
  match n with
  | O => []
  | S n' => if hd0 s =? 0 then [] else hd0 s :: cstr n' (tail s)
  end.

(** [strncmp] decides equality of the strings in two n-byte buffers: it
    returns 0 exactly when the characters up to the first NUL, or up to n when
    there is none, are the same. *)
Lemma strncmp_zero n p q : strncmp p q n = 0 <-> cstr n p = cstr n q.
Proof.
  revert p q. induction n as [|n IH]; intros p q; cbn [strncmp cstr]; [done|].
  destruct (Z.eqb_spec (hd0 p) 0) as [Hp|Hp]; cbn [negb andb].
  - destruct (Z.eqb_spec (hd0 q) 0) as [Hq|Hq]; split; [done|lia| |done].
    intros. exfalso. lia.
  - destruct (Z.eqb_spec (hd0 p) (hd0 q)) as [He|He].
    + rewrite <- He. destruct (Z.eqb_spec (hd0 p) 0); [done|]. rewrite IH.
      split; [by intros ->|by intros [=]].
    + split; [intros; exfalso; lia|]. by destruct (Z.eqb_spec (hd0 q) 0); intros [=].
Qed.

Lemma length_strncpy t n : length (strncpy t n) = n.
Proof.
  revert t. induction n as [|n IH]; intros t; cbn [strncpy length]; [done|].
  destruct (hd0 t =? 0); [by rewrite length_replicate|]. by rewrite IH.
Qed.

Lemma hd0_cons c l : hd0 (c :: l) = c.
Proof. done. Qed.

Lemma cstr_strncpy t n : cstr n (strncpy t n) = cstr n t.
Proof.
  revert t. induction n as [|n IH]; intros t; cbn [strncpy cstr]; [done|].
  rewrite hd0_cons. destruct (Z.eqb_spec (hd0 t) 0); [done|]. cbn [tail]. by rewrite IH.
Qed.

Lemma safestrcpy_loop_spec t k :
  (length (safestrcpy_loop t k) <= S k)%nat /\
  last (safestrcpy_loop t k) = Some 0 /\
  (forall n, (k < n)%nat -> cstr n (safestrcpy_loop t k) = cstr k t).
Proof.
  revert t. induction k as [|k IH]; intros t; cbn [safestrcpy_loop cstr].
  { split_and!; [done|done|]. intros [|n] Hn; [lia|done]. }
  destruct (IH (tail t)) as (H1 & H2 & H3).
  destruct (Z.eqb_spec (hd0 t) 0) as [E|E]; split_and!; cbn [length]; [lia|done| |lia| |].
  - intros [|n] Hn; [lia|]. cbn [cstr]. by rewrite hd0_cons, E.
  - cbn [last]. by destruct (safestrcpy_loop (tail t) k).
  - intros [|n] Hn; [lia|]. cbn [cstr]. rewrite hd0_cons. cbn [tail].
    destruct (Z.eqb_spec (hd0 t) 0); [done|]. rewrite H3 by lia. done.
Qed.

(** [safestrcpy] never stores more than n bytes, always leaves the destination
    NUL-terminated, and the string it stores is the source truncated to n-1
    characters. *)
Theorem safestrcpy_correct t n :
  1 <= n ->
  (Z.of_nat (length (safestrcpy t n)) <= n) /\
  last (safestrcpy t n) = Some 0 /\
  cstr (Z.to_nat n) (safestrcpy t n) = cstr (Z.to_nat (n - 1)) t.
Proof.
  intros Hn. unfold safestrcpy.
  destruct (Z.leb_spec n 0); [lia|]. destruct (Z.eqb_spec n 1) as [->|Hne]; [done|].
  destruct (safestrcpy_loop_spec t (Z.to_nat (n - 1))) as (H1 & H2 & H3).
  split_and!; [lia|done|]. apply H3. lia.
Qed.

Lemma safestrcpy_correct_witness :
  1 <= 4 /\
  (Z.of_nat (length (safestrcpy [105; 110; 105; 116; 99; 0] 4)) <= 4) /\
  last (safestrcpy [105; 110; 105; 116; 99; 0] 4) = Some 0 /\
  cstr (Z.to_nat 4) (safestrcpy [105; 110; 105; 116; 99; 0] 4) =
  cstr (Z.to_nat (4 - 1)) [105; 110; 105; 116; 99; 0].
Proof.
  split; [lia|]. apply (safestrcpy_correct [105; 110; 105; 116; 99; 0] 4). lia.
Defined.

(** Page-sized loops are reasoned about with the lemmas above, never unfolded. *)
#[global] Opaque memset memmove.
#[global] Arguments ld64 : simpl never.
#[global] Arguments st64 : simpl never.
#[global] Arguments ldb : simpl never.
#[global] Arguments ld_bytes : simpl never.
#[global] Arguments st_bytes : simpl never.
