(* ===== verification/Kalloc.v ===== *)
(** * The physical page allocator (kernel/kalloc.c)

    The free list is threaded through the free pages themselves: the first eight
    bytes of a free page hold the address of the next one.  [free_inv] relates the
    list in memory to the ghost list of free pages. *)

From S2P Require Import Prelude Params Machine Spinlock CString.

Definition KALLOC_POISON : Z := 0x5a.
Definition PGBYTES : nat := Z.to_nat PGSIZE.

Lemma PGBYTES_Z : Z.of_nat PGBYTES = PGSIZE.
Proof. unfold PGBYTES. rewrite Z2Nat.id; done. Qed.
#[global] Opaque PGBYTES.

Section Kalloc.
Context `{Linker}.

(** ** Code *)
Definition kfree (pa : Z) : K unit :=
  if negb (pa mod PGSIZE =? 0) || (pa <? kend) || (PHYSTOP <=? pa) then panic "kfree"
  else
    do! modify (set_k_mem (fun m => memset m pa KALLOC_POISON PGBYTES));
    do! acquire LkKmem;
    let! head := gets k_freelist in
    do! modify (set_k_mem (fun m => st64 m pa head));
    do! modify (set_k_freelist (fun _ => pa));
    release LkKmem.

Definition kalloc : K Z :=
  do! acquire LkKmem;
  let! r := gets k_freelist in
  do! when (negb (r =? 0)) (modify (fun s => set_k_freelist (fun _ => ld64 (k_mem s) r) s));
  do! release LkKmem;
  do! when (negb (r =? 0)) (modify (set_k_mem (fun m => memset m r 0 PGBYTES)));
  ret r.

Fixpoint freerange_loop (fuel : nat) (p pa_end : Z) : K unit :=
  match fuel with
  | O => fault "freerange: fuel"
  | S fuel' =>
      if p + PGSIZE <=? pa_end then
        do! kfree p;
        freerange_loop fuel' (p + PGSIZE) pa_end
      else ret tt
  end.

Definition freerange (pa_start pa_end : Z) : K unit :=
  let p := PGROUNDUP pa_start in
  if pa_end <=? pa_start then panic "freerange: empty"
  else if PHYSTOP <? pa_end then panic "freerange: end out of bounds"
  else freerange_loop (S (Z.to_nat ((pa_end - p) / PGSIZE))) p pa_end.

Definition kinit : K unit :=
  do! initlock LkKmem;
  freerange kend PHYSTOP.

(** ** The free list *)
Fixpoint chain (m : gmap Z Z) (head : Z) (l : list Z) : Prop :=
  match l with
  | [] => head = 0
  | p :: l' => head = p /\ chain m (ld64 m p) l'
  end.

(** A page the allocator may own. *)
Definition page_ok (p : Z) : Prop := p mod PGSIZE = 0 /\ kend <= p < PHYSTOP /\ 0 < p.

Definition free_inv (s : kstate) (l : list Z) : Prop :=
  chain (k_mem s) (k_freelist s) l /\ NoDup l /\ Forall page_ok l.

(** Two distinct pages do not overlap. *)
Lemma page_disjoint p q i j :
  p mod PGSIZE = 0 -> q mod PGSIZE = 0 -> p ≠ q ->
  0 <= i < PGSIZE -> 0 <= j < PGSIZE -> p + i ≠ q + j.
Proof.
  unfold PGSIZE. intros Hp Hq Hne Hi Hj He.
  apply Hne. rewrite (Z.div_mod p 4096), (Z.div_mod q 4096) by lia.
  rewrite Hp, Hq. f_equal. f_equal.
  pose proof (Z.div_mod p 4096). pose proof (Z.div_mod q 4096). lia.
Qed.

Lemma chain_ext m m' head l :
  chain m head l -> (forall p, p ∈ l -> ld64 m' p = ld64 m p) -> chain m' head l.
Proof.
  revert head. induction l as [|p l IH]; intros head Hc He; [done|].
  destruct Hc as [-> Hc]. split; [done|]. rewrite (He p ltac:(left)).
  apply IH; [done|]. intros q Hq. apply He. by right.
Qed.

(** A change of memory confined to one page leaves a list that does not own the
    page intact. *)
Lemma chain_page m m' head l p :
  chain m head l -> Forall page_ok l -> p mod PGSIZE = 0 -> p ∉ l ->
  (forall x, ~ (p <= x < p + PGSIZE) -> ldb m' x = ldb m x) -> chain m' head l.
Proof.
  intros Hc Hok Hp Hnot Hm. eapply chain_ext; [done|]. intros q Hq.
  rewrite Forall_forall in Hok. destruct (Hok q Hq) as (Hqm & _ & _).
  assert (p ≠ q) by (by intros ->).
  apply ld64_ext. intros i Hi. apply Hm. intros Hx.
  apply (page_disjoint p q (q + i - p) i); unfold PGSIZE in *; try done; lia.
Qed.

(** The exact effect of the two operations. *)
Lemma kfree_run pa s :
  page_ok pa -> hart_ok (k_hart s) -> LkKmem ∉ h_locks (k_hart s) ->
  kfree pa s = Ret tt (set_k_freelist (fun _ => pa)
    (set_k_mem (fun m => st64 (memset m pa KALLOC_POISON PGBYTES) pa (k_freelist s)) s)).
Proof.
  intros (Ha & Hr & Hp) Hok Hl. unfold kfree. rewrite Ha, Z.eqb_refl.
  destruct (Z.ltb_spec pa kend); [lia|]. destruct (Z.leb_spec PHYSTOP pa); [lia|].
  cbn [negb orb]. rewrite bind_modify.
  erewrite bind_Ret by (apply acquire_ok; exact Hl).
  rewrite bind_gets, !bind_modify.
  rewrite (release_after _ s) by done. keq.
Qed.

Lemma kfree_bad pa s :
  (pa mod PGSIZE ≠ 0 \/ pa < kend \/ PHYSTOP <= pa) -> kfree pa s = Panic "kfree" s.
Proof.
  intros Hbad. unfold kfree.
  destruct (Z.eqb_spec (pa mod PGSIZE) 0), (Z.ltb_spec pa kend), (Z.leb_spec PHYSTOP pa);
    cbn [negb orb]; try done. lia.
Qed.

Lemma kalloc_run s :
  hart_ok (k_hart s) -> LkKmem ∉ h_locks (k_hart s) ->
  kalloc s =
    if k_freelist s =? 0 then Ret 0 s
    else Ret (k_freelist s)
      (set_k_mem (fun m => memset m (k_freelist s) 0 PGBYTES)
        (set_k_freelist (fun _ => ld64 (k_mem s) (k_freelist s)) s)).
Proof.
  intros Hok Hl. unfold kalloc.
  erewrite bind_Ret by (apply acquire_ok; exact Hl).
  rewrite bind_gets. cbn [k_freelist set_k_hart].
  destruct (Z.eqb_spec (k_freelist s) 0) as [E|E]; cbn [negb when].
  - rewrite bind_ret. erewrite bind_Ret by (apply (release_after _ s); done).
    rewrite bind_ret, E. done.
  - rewrite bind_modify. erewrite bind_Ret by (apply (release_after _ s); done).
    rewrite bind_modify. done.
Qed.

Lemma chain_head m head l : chain m head l -> Forall page_ok l -> 0 <= head < 2 ^ 64.
Proof.
  destruct l as [|p l]; cbn [chain]; [intros ->; lia|]. intros [-> _] Hok.
  inversion_clear Hok as [|? ? (_ & Hr & Hp) _]. unfold PHYSTOP in Hr. lia.
Qed.

Definition page_zero (m : gmap Z Z) (p : Z) : Prop :=
  forall i, 0 <= i < PGSIZE -> ldb m (p + i) = 0.

(** Memory outside page [p] is the same. *)
Definition page_frame (p : Z) (m m' : gmap Z Z) : Prop :=
  forall x, ~ (p <= x < p + PGSIZE) -> ldb m' x = ldb m x.

Lemma memset_page_frame m p c : page_frame p m (memset m p c PGBYTES).
Proof.
  intros x Hx. rewrite ldb_memset. rewrite bool_decide_false; [done|].
  by rewrite PGBYTES_Z.
Qed.

Lemma memset_page_zero m p : page_zero (memset m p 0 PGBYTES) p.
Proof.
  intros i Hi. rewrite ldb_memset, bool_decide_true; [done|].
  rewrite PGBYTES_Z. lia.
Qed.

Lemma kalloc_empty s :
  free_inv s [] -> hart_ok (k_hart s) -> LkKmem ∉ h_locks (k_hart s) -> kalloc s = Ret 0 s.
Proof. intros (Hc & _) Hok Hl. rewrite kalloc_run by done. cbn in Hc. by rewrite Hc. Qed.

Lemma kalloc_cons s p l :
  free_inv s (p :: l) -> hart_ok (k_hart s) -> LkKmem ∉ h_locks (k_hart s) ->
  let s' := set_k_mem (fun m => memset m p 0 PGBYTES)
              (set_k_freelist (fun _ => ld64 (k_mem s) p) s) in
  kalloc s = Ret p s' /\ free_inv s' l /\ page_ok p /\ p ∉ l.
Proof.
  intros ([Hh Hc] & Hnd & Hok) Hh' Hl s'.
  apply NoDup_cons in Hnd as [Hnot Hnd]. apply Forall_cons in Hok as [Hp Hok].
  split_and!; try done.
  - rewrite kalloc_run by done. rewrite Hh. destruct Hp as (_ & _ & Hpos).
    by destruct (Z.eqb_spec p 0); [lia|].
  - split_and!; try done. cbn. destruct Hp as (Ha & _ & _).
    eapply chain_page; [done|done|exact Ha|done|]. apply memset_page_frame.
Qed.

(** [kalloc] hands out pages: with the free pages [l] it returns the first of
    them and keeps the others free, the page is owned by nobody else, is inside
    [end, PHYSTOP), is entirely zero, and no other byte of memory changes; with no
    free page it returns 0 and changes nothing. *)
Theorem kalloc_correct s l :
  free_inv s l -> hart_ok (k_hart s) -> LkKmem ∉ h_locks (k_hart s) ->
  match l with
  | [] => kalloc s = Ret 0 s
  | p :: l' => exists s', kalloc s = Ret p s' /\ free_inv s' l' /\ page_ok p /\ (p ∉ l') /\
      page_zero (k_mem s') p /\ page_frame p (k_mem s) (k_mem s') /\ k_hart s' = k_hart s
  end.
Proof.
  intros Hf Hok Hl. destruct l as [|p l]; [by apply kalloc_empty|].
  destruct (kalloc_cons s p l Hf Hok Hl) as (Hr & Hf' & Hp & Hnot).
  eexists. split_and!; [exact Hr|exact Hf'|done|done| | |done].
  - apply memset_page_zero.
  - apply memset_page_frame.
Qed.

Lemma kfree_cons s p l :
  free_inv s l -> page_ok p -> p ∉ l -> hart_ok (k_hart s) -> LkKmem ∉ h_locks (k_hart s) ->
  let s' := set_k_freelist (fun _ => p)
    (set_k_mem (fun m => st64 (memset m p KALLOC_POISON PGBYTES) p (k_freelist s)) s) in
  kfree p s = Ret tt s' /\ free_inv s' (p :: l) /\ page_frame p (k_mem s) (k_mem s').
Proof.
  intros (Hc & Hnd & Hok) Hp Hnot Hh Hl s'.
  assert (Hfr : page_frame p (k_mem s) (k_mem s')).
  { intros x Hx. cbn. rewrite ldb_st64_ne by (unfold PGSIZE in Hx; lia).
    by apply memset_page_frame. }
  split_and!; [by apply kfree_run| |done].
  split_and!; [|by apply NoDup_cons|by constructor]. cbn [chain k_freelist set_k_freelist s'].
  split; [done|]. cbn. rewrite ld64_st64. unfold u64.
  rewrite Z.mod_small by (by eapply chain_head).
  eapply chain_page; [done|done|apply Hp|done|]. exact Hfr.
Qed.

(** [kfree] of an allocated page makes it the next page to be allocated: the
    free list becomes the page followed by the old list, only that page's bytes
    change, and everything beyond its link word is the poison byte. *)
Theorem kfree_correct s p l :
  free_inv s l -> page_ok p -> p ∉ l -> hart_ok (k_hart s) -> LkKmem ∉ h_locks (k_hart s) ->
  exists s', kfree p s = Ret tt s' /\ free_inv s' (p :: l) /\
    page_frame p (k_mem s) (k_mem s') /\
    (forall i, 8 <= i < PGSIZE -> ldb (k_mem s') (p + i) = KALLOC_POISON) /\
    k_hart s' = k_hart s.
Proof.
  intros Hf Hp Hnot Hh Hl.
  destruct (kfree_cons s p l Hf Hp Hnot Hh Hl) as (Hr & Hf' & Hfr).
  eexists. split_and!; [exact Hr|exact Hf'|exact Hfr| |done].
  intros i Hi. cbn. rewrite ldb_st64_ne by lia.
  rewrite ldb_memset, bool_decide_true; [done|]. rewrite PGBYTES_Z. lia.
Qed.

(** ** Initialisation *)
Definition pages (p : Z) (n : nat) : list Z :=
  (fun i => p + Z.of_nat i * PGSIZE) <$> seq 0 n.

Lemma elem_of_pages p n q :
  q ∈ pages p n <-> exists i, 0 <= i < Z.of_nat n /\ q = p + i * PGSIZE.
Proof.
  unfold pages. rewrite list_elem_of_fmap. split.
  - intros (i & -> & Hi). apply elem_of_seq in Hi. exists (Z.of_nat i). split; [lia|done].
  - intros (i & Hi & ->). exists (Z.to_nat i). rewrite Z2Nat.id by lia.
    split; [done|]. apply elem_of_seq. lia.
Qed.

Lemma pages_S p n : pages p (S n) = p :: pages (p + PGSIZE) n.
Proof.
  unfold pages. cbn [seq fmap list_fmap]. f_equal; [lia|].
  rewrite <- seq_shift, <- list_fmap_compose. apply list_fmap_ext. intros ? x _.
  unfold compose. lia.
Qed.

Lemma freerange_loop_run n fuel p pa_end s l :
  (n < fuel)%nat -> p mod PGSIZE = 0 -> kend <= p -> 0 < p -> pa_end <= PHYSTOP ->
  p + Z.of_nat n * PGSIZE <= pa_end < p + Z.of_nat n * PGSIZE + PGSIZE ->
  free_inv s l -> (forall q, q ∈ l -> q < p) ->
  hart_ok (k_hart s) -> LkKmem ∉ h_locks (k_hart s) ->
  exists s', freerange_loop fuel p pa_end s = Ret tt s' /\
    free_inv s' (reverse (pages p n) ++ l) /\ k_hart s' = k_hart s.
Proof.
  revert fuel p s l. induction n as [|n IH];
    intros fuel p s l Hfuel Hp Hk Hpos He Hn Hf Hlt Hok Hl;
    (destruct fuel as [|fuel]; [lia|]); cbn [freerange_loop]; unfold PGSIZE in *.
  - destruct (Z.leb_spec (p + 4096) pa_end); [lia|]. by exists s.
  - destruct (Z.leb_spec (p + 4096) pa_end); [|lia].
    destruct (kfree_cons s p l) as (Hr & Hf' & _); [done| | |done|done|].
    { unfold page_ok, PGSIZE. split_and!; [done|lia|lia|lia]. }
    { intros Hin. apply Hlt in Hin. lia. }
    run_ret Hr.
    edestruct (IH fuel (p + 4096)) as (s' & Hr' & Hf'' & Hh');
      [lia| |lia|lia|done|lia|exact Hf'| |done|done|].
    { rewrite Z.add_mod, Hp by lia. done. }
    { intros q [->|Hq]%elem_of_cons; [lia|]. apply Hlt in Hq. lia. }
    exists s'. split_and!; [done| |done].
    rewrite pages_S, reverse_cons, <- app_assoc. exact Hf''.
Qed.

(** Boot exposes all of memory exactly once: from an empty free list, [kinit]
    terminates without panicking and the free list then holds, without repetition,
    exactly the page-aligned pages that lie entirely between the end of the kernel
    image and PHYSTOP. *)
Theorem kinit_correct s :
  KERNBASE <= kend < PHYSTOP -> k_freelist s = 0 -> hart_ok (k_hart s) ->
  exists s' l, kinit s = Ret tt s' /\ free_inv s' l /\
    (forall p, p ∈ l <-> p mod PGSIZE = 0 /\ kend <= p /\ p + PGSIZE <= PHYSTOP).
Proof.
  intros Hk Hfl Hok.
  destruct (PGROUNDUP_spec kend) as [Hm Hr]; [unfold KERNBASE, PHYSTOP, PGSIZE in *; lia|].
  set (p0 := PGROUNDUP kend) in *. set (n := Z.to_nat ((PHYSTOP - p0) / PGSIZE)).
  assert (Hn : Z.of_nat n * PGSIZE = PHYSTOP - p0).
  { assert (Hle : p0 <= PHYSTOP).
    { unfold PGSIZE, PHYSTOP in *. pose proof (Z.div_mod p0 4096). lia. }
    unfold n. rewrite Z2Nat.id by (apply Z.div_pos; unfold PGSIZE; lia).
    rewrite Z.mul_comm. symmetry. apply Z.div_exact; [done|].
    rewrite Zminus_mod, Hm. done. }
  unfold kinit. unfold initlock. rewrite bind_modify. unfold freerange.
  destruct (Z.leb_spec PHYSTOP kend); [lia|]. destruct (Z.ltb_spec PHYSTOP PHYSTOP); [lia|].
  set (s1 := set_k_hart _ s).
  destruct (freerange_loop_run n (S n) p0 PHYSTOP s1 []) as (s' & Hr' & Hf & _);
    [lia|done|lia|unfold KERNBASE in *; lia|lia|unfold PGSIZE in *; lia| |by intros ? ?%elem_of_nil
    |exact Hok|cbn; set_solver|].
  { split_and!; [done|constructor|constructor]. }
  exists s', (reverse (pages p0 n)). rewrite app_nil_r in Hf. split_and!; [done|done|].
  intros p. rewrite elem_of_reverse, elem_of_pages. unfold PGSIZE in *. split.
  - intros (i & Hi & ->). split_and!; [|lia|lia].
    by rewrite Z.mod_add by lia.
  - intros (Hp & Hp1 & Hp2). exists ((p - p0) / 4096).
    assert (Hd : 4096 * ((p - p0) / 4096) = p - p0).
    { symmetry. apply Z.div_exact; [done|]. by rewrite Zminus_mod, Hp, Hm. }
    assert (p0 <= p). { pose proof (Z.div_mod p 4096). pose proof (Z.div_mod p0 4096). lia. }
    split; lia.
Qed.
End Kalloc.

(** ** A concrete machine

    A kernel image that ends two pages below PHYSTOP, used to run the definitions. *)
Definition test_linker : Linker := {|
  kend := PHYSTOP - 3 * PGSIZE + 100; etext := 0x80008000; trampoline := 0x80007000;
  addr_forkret := 0x80001000; addr_usertrap := 0x80001100; addr_kernelvec := 0x80001200;
  addr_uservec := 0x80007000; addr_userret := 0x80007100;
|}.

Lemma kinit_correct_witness :
  exists s' l, kinit (H := test_linker) boot_state = Ret tt s' /\
    free_inv (H := test_linker) s' l /\
    (forall p, p ∈ l <-> p mod PGSIZE = 0 /\ kend (Linker := test_linker) <= p /\ p + PGSIZE <= PHYSTOP).
Proof.
  apply (kinit_correct (H := test_linker) boot_state).
  - by vm_compute.
  - reflexivity.
  - apply boot_hart_ok.
Defined.

(** A free list of one page. *)
Definition one_page : Z := PHYSTOP - PGSIZE.
Definition one_page_state : kstate := set_k_freelist (fun _ => one_page) boot_state.

Lemma one_page_ok : page_ok (H := test_linker) one_page.
Proof. unfold page_ok, one_page, PHYSTOP, PGSIZE. cbn. unfold PHYSTOP, PGSIZE. split; [done|lia]. Qed.

Lemma kalloc_correct_witness :
  exists s', kalloc one_page_state = Ret one_page s' /\ free_inv (H := test_linker) s' [] /\
    page_ok (H := test_linker) one_page /\ (one_page ∉ []) /\ page_zero (k_mem s') one_page /\
    page_frame one_page (k_mem one_page_state) (k_mem s') /\ k_hart s' = k_hart one_page_state.
Proof.
  apply (kalloc_correct (H := test_linker) one_page_state [one_page]).
  - split_and!; [by vm_compute|apply NoDup_singleton|apply Forall_singleton, one_page_ok].
  - apply boot_hart_ok.
  - vm_compute. discriminate.
Defined.

Lemma kfree_correct_witness :
  exists s', kfree (H := test_linker) one_page boot_state = Ret tt s' /\
    free_inv (H := test_linker) s' [one_page] /\
    page_frame one_page (k_mem boot_state) (k_mem s') /\
    (forall i, 8 <= i < PGSIZE -> ldb (k_mem s') (one_page + i) = KALLOC_POISON) /\
    k_hart s' = k_hart boot_state.
Proof.
  apply (kfree_correct (H := test_linker) boot_state one_page []).
  - split_and!; [done|apply NoDup_nil_2|apply Forall_nil_2].
  - apply one_page_ok.
  - set_solver.
  - apply boot_hart_ok.
  - vm_compute. discriminate.
Defined.
