(* ===== verification/Vm.v ===== *)
(** * Virtual memory (kernel/vm.c)

    Sv39 page tables as they are in memory: a page of 512 eight-byte entries per
    table.  A page-table pointer is an address; [walk] returns the address of the
    leaf entry, 0 for the null pointer. *)

From S2P Require Import Prelude Params Machine Spinlock Sched CString Kalloc.

Section Vm.
Context `{Linker}.

(** ** Code *)

(** [&pagetable[PX(level, va)]] *)
Definition pte_addr (pagetable level va : Z) : Z := pagetable + 8 * PX level va.

Definition ld_pte (a : Z) : K Z := gets (fun s => ld64 (k_mem s) a).
Definition st_pte (a v : Z) : K unit := modify (set_k_mem (fun m => st64 m a v)).
Definition memset_k (a c : Z) (n : nat) : K unit := modify (set_k_mem (fun m => memset m a c n)).

(** The walk through the levels [levels]; [None] when it stops at a missing table. *)
Fixpoint walk_levels (levels : list Z) (pagetable va : Z) (alloc : bool) : K (option Z) :=
  match levels with
  | [] => ret (Some pagetable)
  | level :: levels' =>
      let pte := pte_addr pagetable level va in
      let! v := ld_pte pte in
      if negb (Z.land v PTE_V =? 0) then walk_levels levels' (PTE2PA v) va alloc
      else if negb alloc then ret None
      else
        let! pg := kalloc in
        if pg =? 0 then ret None
        else
          do! memset_k pg 0 PGBYTES;
          do! st_pte pte (Z.lor (PA2PTE pg) PTE_V);
          walk_levels levels' pg va alloc
  end.

Definition walk (pagetable va : Z) (alloc : bool) : K Z :=
  if MAXVA <=? va then panic "walk"
  else
    let! r := walk_levels [2; 1] pagetable va alloc in
    match r with
    | None => ret 0
    | Some pt => ret (pte_addr pt 0 va)
    end.

(** The loop of mappages from page [a]; [fuel] bounds the pages up to [last]. *)
Fixpoint mappages_loop (fuel : nat) (pagetable a last pa perm : Z) : K Z :=
  match fuel with
  | O => fault "mappages: fuel"
  | S fuel' =>
      let! pte := walk pagetable a true in
      if pte =? 0 then ret (-1)
      else
        let! v := ld_pte pte in
        if negb (Z.land v PTE_V =? 0) then panic "mappages: remap"
        else
          do! st_pte pte (Z.lor (Z.lor (PA2PTE pa) perm) PTE_V);
          if a =? last then ret 0
          else mappages_loop fuel' pagetable (u64 (a + PGSIZE)) last (u64 (pa + PGSIZE)) perm
  end.

(** The number of iterations: to [last], or, past it, until walk refuses. *)
Definition mappages_fuel (a last : Z) : nat :=
  S (Z.to_nat ((if a <=? last then last - a else MAXVA - a) / PGSIZE)).

Definition mappages (pagetable va size pa perm : Z) : K Z :=
  if size =? 0 then panic "mappages: size"
  else
    let a := PGROUNDDOWN va in
    let last := PGROUNDDOWN (u64 (va + size - 1)) in
    mappages_loop (mappages_fuel a last) pagetable a last pa perm.

Definition kvmmap (kpgtbl va pa sz perm : Z) : K unit :=
  let! r := mappages kpgtbl va sz pa perm in
  if negb (r =? 0) then panic "kvmmap" else ret tt.

Definition kvmmake : K Z :=
  let! kpgtbl := kalloc in
  do! memset_k kpgtbl 0 PGBYTES;
  do! kvmmap kpgtbl UART0 UART0 PGSIZE (Z.lor PTE_R PTE_W);
  do! kvmmap kpgtbl VIRTIO0 VIRTIO0 PGSIZE (Z.lor PTE_R PTE_W);
  do! kvmmap kpgtbl PLIC PLIC 0x400000 (Z.lor PTE_R PTE_W);
  do! kvmmap kpgtbl KERNBASE KERNBASE (u64 (etext - KERNBASE)) (Z.lor PTE_R PTE_X);
  do! kvmmap kpgtbl etext etext (u64 (PHYSTOP - etext)) (Z.lor PTE_R PTE_W);
  do! kvmmap kpgtbl TRAMPOLINE trampoline PGSIZE (Z.lor PTE_R PTE_X);
  ret kpgtbl.

Definition kvminit : K unit :=
  let! pt := kvmmake in
  modify (set_k_kpt (fun _ => pt)).

Definition kvminithart : K unit :=
  let! pt := gets k_kpt in
  modify (set_k_csr (set_csr_satp (fun _ => MAKE_SATP pt))).

Definition uvmcreate : K Z :=
  let! pagetable := kalloc in
  if pagetable =? 0 then ret 0
  else
    do! memset_k pagetable 0 PGBYTES;
    ret pagetable.

(** [src] is the [sz] bytes of the initial program. *)
Definition uvmfirst (pagetable : Z) (src : list Z) : K Z :=
  if PGSIZE <=? Z.of_nat (length src) then panic "uvmfirst: too big"
  else
    let! mem := kalloc in
    if mem =? 0 then ret (-1)
    else
      do! memset_k mem 0 PGBYTES;
      do! modify (set_k_mem (fun m => st_bytes m mem src));
      let! r := mappages pagetable 0 PGSIZE mem (Z.lor (Z.lor (Z.lor PTE_W PTE_X) PTE_R) PTE_U) in
      if negb (r =? 0) then
        do! kfree mem;
        ret (-1)
      else ret 0.

Definition PTE_RWX : Z := Z.lor (Z.lor PTE_R PTE_W) PTE_X.

Definition uvmunmap_one (pagetable : Z) (do_free : bool) (a : Z) : K unit :=
  let! pte := walk pagetable a false in
  if pte =? 0 then ret tt
  else
    let! v := ld_pte pte in
    if Z.land v PTE_V =? 0 then ret tt
    else if Z.land v PTE_RWX =? 0 then panic "uvmunmap: not leaf"
    else
      do! when do_free (kfree (PTE2PA v));
      st_pte pte 0.

(** The page addresses va, va + PGSIZE, ... of a range of [n] pages. *)
Definition page_addrs (va : Z) (n : nat) : list Z :=
  (fun i => va + Z.of_nat i * PGSIZE) <$> seq 0 n.

Definition uvmunmap (pagetable va npages : Z) (do_free : bool) : K unit :=
  if negb (va mod PGSIZE =? 0) || (MAXVA <=? va) || ((MAXVA - va) / PGSIZE <? npages)
  then panic "uvmunmap"
  else each (page_addrs va (Z.to_nat npages)) (uvmunmap_one pagetable do_free).

(** freewalk recurses once per level of the tree it is given. *)
Fixpoint freewalk (fuel : nat) (pagetable : Z) : K unit :=
  match fuel with
  | O => fault "freewalk: depth"
  | S fuel' =>
      do! each (seq 0 512) (fun i =>
        let! pte := ld_pte (pagetable + 8 * Z.of_nat i) in
        if negb (Z.land pte PTE_V =? 0) && (Z.land pte PTE_RWX =? 0) then
          do! freewalk fuel' (PTE2PA pte);
          st_pte (pagetable + 8 * Z.of_nat i) 0
        else if negb (Z.land pte PTE_V =? 0) then panic "freewalk: leaf"
        else ret tt);
      kfree pagetable
  end.

(** A page table has three levels. *)
Definition freewalk_depth : nat := 3.

Definition uvmfree (pagetable sz : Z) : K unit :=
  do! when (0 <? sz) (uvmunmap pagetable 0 (PGROUNDUP sz / PGSIZE) true);
  freewalk freewalk_depth pagetable.

(** The loop of uvmalloc from [a]; [oldsz] is already rounded up. *)
Fixpoint uvmalloc_loop (fuel : nat) (pagetable oldsz a newsz xperm : Z) : K Z :=
  if newsz <=? a then ret newsz
  else match fuel with
  | O => fault "uvmalloc: fuel"
  | S fuel' =>
      let! mem := kalloc in
      if mem =? 0 then
        do! uvmunmap pagetable oldsz ((a - oldsz) / PGSIZE) true;
        ret 0
      else
        let! r := mappages pagetable a PGSIZE mem (Z.lor (Z.lor PTE_R PTE_U) xperm) in
        if negb (r =? 0) then
          do! kfree mem;
          do! uvmunmap pagetable oldsz ((a - oldsz) / PGSIZE) true;
          ret 0
        else uvmalloc_loop fuel' pagetable oldsz (a + PGSIZE) newsz xperm
  end.

Definition uvmalloc (pagetable oldsz newsz xperm : Z) : K Z :=
  if (newsz <? oldsz) || (MAXVA <=? newsz) then ret oldsz
  else
    let old := PGROUNDUP oldsz in
    uvmalloc_loop (Z.to_nat ((newsz - old) / PGSIZE + 1)) pagetable old old newsz xperm.

Definition uvmdealloc (pagetable oldsz newsz : Z) : K Z :=
  if oldsz <=? newsz then ret oldsz
  else
    do! when (PGROUNDUP newsz <? PGROUNDUP oldsz)
          (uvmunmap pagetable (PGROUNDUP newsz) ((PGROUNDUP oldsz - PGROUNDUP newsz) / PGSIZE) true);
    ret newsz.

(** One page of uvmcopy: [Some r] when the function returns [r] here. *)
Definition uvmcopy_one (old new : Z) (i : Z) : K (option Z) :=
  let! pte := walk old i false in
  if pte =? 0 then ret None
  else
    let! v := ld_pte pte in
    if Z.land v PTE_V =? 0 then ret None
    else if Z.land v PTE_RWX =? 0 then panic "uvmcopy: not leaf"
    else
      let! mem := kalloc in
      if mem =? 0 then
        do! uvmunmap new 0 (i / PGSIZE) true;
        ret (Some (-1))
      else
        do! modify (set_k_mem (fun m => memmove m mem (PTE2PA v) PGBYTES));
        let! r := mappages new i PGSIZE mem (PTE_FLAGS v) in
        if negb (r =? 0) then
          do! kfree mem;
          do! uvmunmap new 0 (i / PGSIZE) true;
          ret (Some (-1))
        else ret None.

Definition uvmcopy (old new sz : Z) : K Z :=
  let! r := search (page_addrs 0 (Z.to_nat ((sz + PGSIZE - 1) / PGSIZE))) (uvmcopy_one old new) in
  ret (default 0 r).

Definition uvmmap (pagetable va pa sz perm : Z) : K unit :=
  let! r := mappages pagetable va sz pa perm in
  if negb (r =? 0) then panic "uvmmap" else ret tt.

Definition walkaddr (pagetable va : Z) : K Z :=
  if MAXVA <=? va then ret 0
  else
    let! pte := walk pagetable va false in
    if pte =? 0 then ret 0
    else
      let! v := ld_pte pte in
      if Z.land v PTE_V =? 0 then ret 0
      else if Z.land v PTE_U =? 0 then ret 0
      else ret (PTE2PA v).

(** copyin(pagetable, dst, srcva, len): the status, and the bytes stored at [dst]. *)
Fixpoint copyin_loop (fuel : nat) (pagetable srcva len : Z) (acc : list Z) : K (Z * list Z) :=
  if len <=? 0 then ret (0, acc)
  else match fuel with
  | O => fault "copyin: fuel"
  | S fuel' =>
      let va0 := PGROUNDDOWN srcva in
      let! pa0 := walkaddr pagetable va0 in
      if pa0 =? 0 then ret (-1, acc)
      else
        let n := Z.min (PGSIZE - (srcva - va0)) len in
        let! bs := gets (fun s => ld_bytes (k_mem s) (pa0 + (srcva - va0)) (Z.to_nat n)) in
        copyin_loop fuel' pagetable (u64 (va0 + PGSIZE)) (len - n) (acc ++ bs)
  end.

(** Pages touched by [len] bytes, at most. *)
Definition copy_fuel (len : Z) : nat := Z.to_nat (len / PGSIZE + 2).

Definition copyin (pagetable srcva len : Z) : K (Z * list Z) :=
  copyin_loop (copy_fuel len) pagetable srcva len [].

(** The inner loop of copyinstr: the bytes copied and whether it met the NUL. *)
Fixpoint copy_to_nul (bs : list Z) : list Z * bool :=
  match bs with
  | [] => ([], false)
  | c :: bs' => if c =? 0 then ([0], true)
                else let '(r, got) := copy_to_nul bs' in (c :: r, got)
  end.

Fixpoint copyinstr_loop (fuel : nat) (pagetable srcva max : Z) (acc : list Z) : K (Z * list Z) :=
  if max <=? 0 then ret (-1, acc)
  else match fuel with
  | O => fault "copyinstr: fuel"
  | S fuel' =>
      let va0 := PGROUNDDOWN srcva in
      let! pa0 := walkaddr pagetable va0 in
      if pa0 =? 0 then ret (-1, acc)
      else
        let n := Z.min (PGSIZE - (srcva - va0)) max in
        let! bs := gets (fun s => ld_bytes (k_mem s) (pa0 + (srcva - va0)) (Z.to_nat n)) in
        let '(r, got_null) := copy_to_nul bs in
        if got_null then ret (0, acc ++ r)
        else copyinstr_loop fuel' pagetable (u64 (va0 + PGSIZE)) (max - n) (acc ++ r)
  end.

Definition copyinstr (pagetable srcva max : Z) : K (Z * list Z) :=
  copyinstr_loop (copy_fuel max) pagetable srcva max [].

(** copyout(pagetable, dstva, src, len): [src] is the [len] bytes of the buffer. *)
Fixpoint copyout_loop (fuel : nat) (pagetable dstva : Z) (src : list Z) : K Z :=
  match src with
  | [] => ret 0
  | _ =>
    match fuel with
    | O => fault "copyout: fuel"
    | S fuel' =>
        let va0 := PGROUNDDOWN dstva in
        let! pa0 := walkaddr pagetable va0 in
        if pa0 =? 0 then ret (-1)
        else
          let n := Z.to_nat (Z.min (PGSIZE - (dstva - va0)) (Z.of_nat (length src))) in
          do! modify (set_k_mem (fun m => st_bytes m (pa0 + (dstva - va0)) (take n src)));
          copyout_loop fuel' pagetable (u64 (va0 + PGSIZE)) (drop n src)
    end
  end.

Definition copyout (pagetable dstva : Z) (src : list Z) : K Z :=
  copyout_loop (copy_fuel (Z.of_nat (length src))) pagetable dstva src.
End Vm.
