(* ===== verification/PageTable.v ===== *)
(** * Page tables in memory

    The tree of page-table pages under a root, the leaf entry of a virtual address in
    it, and how writes to memory change them.  The abstract page table is the
    function [pte] from virtual addresses to leaf entries. *)

From S2P Require Import Prelude Params Machine Spinlock Sched CString Kalloc Vm.

(** ** Arithmetic of addresses and entries *)
Lemma PX_shift level va : 0 <= level -> PX level va = (va / 2 ^ PXSHIFT level) mod 512.
Proof.
  intros Hl. unfold PX, PXMASK. change 0x1FF with (Z.ones 9). rewrite Z.land_ones by lia.
  rewrite Z.shiftr_div_pow2; [done|]. unfold PXSHIFT, PGSHIFT. lia.
Qed.

Lemma PX_range level va : 0 <= level -> 0 <= PX level va < 512.
Proof. intros Hl. rewrite PX_shift by done. by apply Z.mod_pos_bound. Qed.

(** The three indices determine the page of an address below MAXVA. *)
Lemma PX_page va :
  0 <= va < MAXVA -> va / PGSIZE = PX 2 va * 2 ^ 18 + PX 1 va * 2 ^ 9 + PX 0 va.
Proof.
  intros Hva. rewrite !PX_shift by lia. unfold PXSHIFT, PGSHIFT, PGSIZE.
  change (MAXVA) with (2 ^ 39) in Hva.
  change (12 + 9 * 2) with 30. change (12 + 9 * 1) with 21. change (12 + 9 * 0) with 12.
  change 4096 with (2 ^ 12). change 512 with (2 ^ 9).
  set (p := va / 2 ^ 12).
  assert (E1 : va / 2 ^ 21 = p / 2 ^ 9) by (unfold p; rewrite Z.div_div by lia; done).
  assert (E2 : va / 2 ^ 30 = p / 2 ^ 9 / 2 ^ 9) by (unfold p; rewrite !Z.div_div by lia; done).
  rewrite E1, E2.
  assert (Hp : 0 <= p < 2 ^ 27).
  { unfold p. split; [apply Z.div_pos; lia|]. apply Z.div_lt_upper_bound; lia. }
  rewrite (Z.mod_small (p / 2 ^ 9 / 2 ^ 9)).
  - pose proof (Z.div_mod p (2 ^ 9) ltac:(lia)). pose proof (Z.div_mod (p / 2 ^ 9) (2 ^ 9) ltac:(lia)). lia.
  - rewrite Z.div_div by lia. split; [apply Z.div_pos; lia|]. apply Z.div_lt_upper_bound; lia.
Qed.

Definition same_page (va va' : Z) : Prop := va / PGSIZE = va' / PGSIZE.
#[export] Instance same_page_dec va va' : Decision (same_page va va').
Proof. unfold same_page. apply _. Defined.

Lemma PX_inj va va' :
  0 <= va < MAXVA -> 0 <= va' < MAXVA -> PX 2 va = PX 2 va' -> PX 1 va = PX 1 va' -> PX 0 va = PX 0 va' ->
  same_page va va'.
Proof. intros H H' E2 E1 E0. unfold same_page. rewrite !PX_page by done. by rewrite E2, E1, E0. Qed.

Lemma PX_same level va va' :
  0 <= level -> same_page va va' -> PX level va = PX level va'.
Proof.
  intros Hl E. rewrite !PX_shift by done. unfold PXSHIFT, PGSHIFT.
  rewrite Z.pow_add_r by lia. rewrite <- !Z.div_div by lia. unfold same_page, PGSIZE in E.
  change (2 ^ 12) with 4096. by rewrite E.
Qed.

Definition valid (pte : Z) : bool := negb (Z.land pte PTE_V =? 0).

Lemma valid_testbit pte : valid pte = Z.testbit pte 0.
Proof.
  unfold valid, PTE_V. change (Z.shiftl 1 0) with (Z.ones 1). rewrite Z.land_ones by lia.
  change (2 ^ 1) with 2. rewrite Z.bit0_odd, Zmod_odd. by destruct (Z.odd pte).
Qed.

(** The entry walk stores for a new table page, and the leaf mappages stores. *)
Lemma PA2PTE_div pa : 0 <= pa < 2 ^ 56 -> PA2PTE pa = pa / 4096 * 1024.
Proof.
  intros H. unfold PA2PTE. rewrite Z.shiftl_mul_pow2, Z.shiftr_div_pow2 by lia.
  change (2 ^ 12) with 4096. change (2 ^ 10) with 1024. unfold u64. apply Z.mod_small.
  assert (0 <= pa / 4096 < 2 ^ 44) by (split; [apply Z.div_pos; lia|apply Z.div_lt_upper_bound; lia]). lia.
Qed.

Lemma leaf_entry pa perm :
  0 <= pa < 2 ^ 56 -> 0 <= perm < 1024 ->
  let e := Z.lor (Z.lor (PA2PTE pa) perm) PTE_V in
  valid e = true /\ PTE2PA e = pa / 4096 * 4096 /\ 0 <= e < 2 ^ 64 /\
  e = pa / 4096 * 1024 + Z.lor perm PTE_V.
Proof.
  intros Hpa Hperm e.
  assert (Hv : valid e = true).
  { unfold e. rewrite valid_testbit, Z.lor_spec. by rewrite orb_true_r. }
  assert (Hq : 0 <= pa / 4096 < 2 ^ 44) by (split; [apply Z.div_pos; lia|apply Z.div_lt_upper_bound; lia]).
  assert (Hlow : 0 <= Z.lor perm PTE_V < 1024).
  { apply (lor_bound 10); [lia|lia|by split]. }
  assert (He : e = pa / 4096 * 1024 + Z.lor perm PTE_V).
  { unfold e. rewrite PA2PTE_div by done. rewrite <- Z.lor_assoc.
    change 1024 with (2 ^ 10). apply shiftl_lor; [lia|done]. }
  split_and!; [done| |lia|lia|done].
  unfold PTE2PA. rewrite He, Z.shiftl_mul_pow2, Z.shiftr_div_pow2 by lia.
  change (2 ^ 10) with 1024. change (2 ^ 12) with 4096.
  rewrite Z.div_add_l by lia. rewrite (Z.div_small (Z.lor perm PTE_V)) by lia.
  unfold u64. rewrite Z.add_0_r. apply Z.mod_small. lia.
Qed.

(** ** The tree *)
Section PageTable.
Context `{Linker}.

(** The entry of table [pg] at index [i], and the table it points to. *)
Definition entry (m : gmap Z Z) (pg i : Z) : Z := ld64 m (pg + 8 * i).
Definition child (m : gmap Z Z) (pg level va : Z) : option Z :=
  let e := entry m pg (PX level va) in if valid e then Some (PTE2PA e) else None.

(** The address of the leaf entry of [va], if the tables above it exist, and the
    entry itself, 0 if they do not. *)
Definition leaf (m : gmap Z Z) (root va : Z) : option Z :=
  match child m root 2 va with
  | Some p1 => match child m p1 1 va with Some p0 => Some (pte_addr p0 0 va) | None => None end
  | None => None
  end.
Definition pte (m : gmap Z Z) (root va : Z) : Z :=
  match leaf m root va with Some a => ld64 m a | None => 0 end.

(** [T1] and [T0] are the table pages of the second and third level: every valid
    entry of a table points to a table of the next level, no two to the same. *)
Record pt_inv (m : gmap Z Z) (root : Z) (T1 T0 : list Z) : Prop := mkPtInv {
  pt_nodup : NoDup (root :: T1 ++ T0);
  pt_pages : Forall page_ok (root :: T1 ++ T0);
  pt_l2 : forall i, 0 <= i < 512 -> valid (entry m root i) = true -> PTE2PA (entry m root i) ∈ T1;
  pt_l1 : forall p i, p ∈ T1 -> 0 <= i < 512 -> valid (entry m p i) = true -> PTE2PA (entry m p i) ∈ T0;
  pt_inj2 : forall i j, 0 <= i < 512 -> 0 <= j < 512 ->
    valid (entry m root i) = true -> valid (entry m root j) = true ->
    PTE2PA (entry m root i) = PTE2PA (entry m root j) -> i = j;
  pt_inj1 : forall p q i j, p ∈ T1 -> q ∈ T1 -> 0 <= i < 512 -> 0 <= j < 512 ->
    valid (entry m p i) = true -> valid (entry m q j) = true ->
    PTE2PA (entry m p i) = PTE2PA (entry m q j) -> p = q /\ i = j }.

Definition tables (root : Z) (T1 T0 : list Z) : list Z := root :: T1 ++ T0.

(** [x] lies in a page of [P]. *)
Definition in_pages (P : list Z) (x : Z) : Prop := exists p, p ∈ P /\ p <= x < p + PGSIZE.

Lemma child_Some m pg level va p :
  child m pg level va = Some p -> valid (entry m pg (PX level va)) = true /\ PTE2PA (entry m pg (PX level va)) = p.
Proof. unfold child. destruct (valid _) eqn:E; [|done]. by intros [= <-]. Qed.

Lemma leaf_inv m root T1 T0 va a :
  pt_inv m root T1 T0 -> leaf m root va = Some a ->
  exists p1 p0, child m root 2 va = Some p1 /\ child m p1 1 va = Some p0 /\ a = p0 + 8 * PX 0 va /\
    p1 ∈ T1 /\ p0 ∈ T0.
Proof.
  intros Hi. unfold leaf. destruct (child m root 2 va) as [p1|] eqn:E2; [|done]. cbn.
  destruct (child m p1 1 va) as [p0|] eqn:E1; [|done]. cbn. intros [= <-].
  destruct (child_Some _ _ _ _ _ E2) as [V2 C2]. destruct (child_Some _ _ _ _ _ E1) as [V1 C1].
  assert (H1 : p1 ∈ T1) by (rewrite <- C2; apply (pt_l2 _ _ _ _ Hi); [by apply PX_range|done]).
  exists p1, p0. split_and!; try done.
  rewrite <- C1. apply (pt_l1 _ _ _ _ Hi); [done|by apply PX_range|done].
Qed.

(** Different pages have different leaf entries. *)
Lemma leaf_inj m root T1 T0 va va' a :
  pt_inv m root T1 T0 -> 0 <= va < MAXVA -> 0 <= va' < MAXVA ->
  leaf m root va = Some a -> leaf m root va' = Some a -> same_page va va'.
Proof.
  intros Hi Hva Hva' Ha Ha'.
  destruct (leaf_inv _ _ _ _ _ _ Hi Ha) as (p1 & p0 & C2 & C1 & -> & H1 & H0).
  destruct (leaf_inv _ _ _ _ _ _ Hi Ha') as (q1 & q0 & C2' & C1' & E & H1' & H0').
  assert (Hp : forall p, p ∈ T0 -> p mod PGSIZE = 0).
  { intros p Hp. pose proof (pt_pages _ _ _ _ Hi) as Hpg. rewrite Forall_forall in Hpg.
    apply Hpg. right. apply elem_of_app. by right. }
  pose proof (PX_range 0 va ltac:(lia)). pose proof (PX_range 0 va' ltac:(lia)).
  assert (p0 = q0) as ->.
  { destruct (decide (p0 = q0)) as [|Hne]; [done|]. exfalso.
    by apply (page_disjoint p0 q0 (8 * PX 0 va) (8 * PX 0 va') (Hp _ H0) (Hp _ H0') Hne);
      unfold PGSIZE; lia || done. }
  destruct (child_Some _ _ _ _ _ C1) as [V1 D1]. destruct (child_Some _ _ _ _ _ C1') as [V1' D1'].
  destruct (pt_inj1 _ _ _ _ Hi p1 q1 (PX 1 va) (PX 1 va')) as [-> E1]; try done;
    try (by apply PX_range); [congruence|].
  destruct (child_Some _ _ _ _ _ C2) as [V2 D2]. destruct (child_Some _ _ _ _ _ C2') as [V2' D2'].
  assert (E2 : PX 2 va = PX 2 va').
  { apply (pt_inj2 _ _ _ _ Hi); try done; try (by apply PX_range). congruence. }
  apply PX_inj; try done. lia.
Qed.

Lemma leaf_same_page m root va va' :
  same_page va va' -> leaf m root va = leaf m root va'.
Proof.
  intros E. unfold leaf, child, pte_addr.
  by rewrite (PX_same 2 va va'), (PX_same 1 va va'), (PX_same 0 va va') by (lia || done).
Qed.

Lemma pte_same_page m root va va' : same_page va va' -> pte m root va = pte m root va'.
Proof. intros E. unfold pte. by rewrite (leaf_same_page _ _ _ _ E). Qed.

(** ** Writes that miss the tables *)
Lemma entry_frame m m' pg i :
  0 <= i < 512 -> (forall x, pg <= x < pg + PGSIZE -> ldb m' x = ldb m x) -> entry m' pg i = entry m pg i.
Proof.
  intros Hi Hf. unfold entry. apply ld64_ext. intros j Hj. apply Hf. unfold PGSIZE. lia.
Qed.

Definition tables_frame (P : list Z) (m m' : gmap Z Z) : Prop := forall x, in_pages P x -> ldb m' x = ldb m x.

Lemma entry_frame_in m m' P pg i :
  pg ∈ P -> 0 <= i < 512 -> tables_frame P m m' -> entry m' pg i = entry m pg i.
Proof. intros Hp Hi Hf. apply entry_frame; [done|]. intros x Hx. apply Hf. by exists pg. Qed.

Lemma child_frame m m' P pg level va :
  pg ∈ P -> 0 <= level -> tables_frame P m m' -> child m' pg level va = child m pg level va.
Proof.
  intros Hp Hl Hf. unfold child. by rewrite (entry_frame_in m m' P) by (done || by apply PX_range).
Qed.

Lemma pt_inv_frame m m' root T1 T0 :
  pt_inv m root T1 T0 -> tables_frame (root :: T1) m m' -> pt_inv m' root T1 T0.
Proof.
  intros [Hnd Hpg Hl2 Hl1 Hi2 Hi1] Hf.
  assert (Er : forall i, 0 <= i < 512 -> entry m' root i = entry m root i)
    by (intros i Hi; apply (entry_frame_in m m' (root :: T1)); [left|done|done]).
  assert (Ep : forall p i, p ∈ T1 -> 0 <= i < 512 -> entry m' p i = entry m p i)
    by (intros p i Hp Hi; apply (entry_frame_in m m' (root :: T1)); [by right|done|done]).
  split; [done|done| | | |].
  - intros i Hi. rewrite Er by done. by apply Hl2.
  - intros p i Hp Hi. rewrite Ep by done. by apply Hl1.
  - intros i j Hi Hj. rewrite !Er by done. by apply Hi2.
  - intros p q i j Hp Hq Hi Hj. rewrite !Ep by done. by apply Hi1.
Qed.

Lemma leaf_frame m m' root T1 T0 va :
  pt_inv m root T1 T0 -> tables_frame (root :: T1) m m' -> leaf m' root va = leaf m root va.
Proof.
  intros Hi Hf. unfold leaf. rewrite (child_frame m m' (root :: T1)) by (left || lia || done).
  destruct (child m root 2 va) as [p1|] eqn:E2; [|done]. cbn.
  rewrite (child_frame m m' (root :: T1)); [done| |lia|done]. right.
  destruct (child_Some _ _ _ _ _ E2) as [V2 <-]. apply (pt_l2 _ _ _ _ Hi); [by apply PX_range|done].
Qed.

Lemma leaf_in_T0 m root T1 T0 va a :
  pt_inv m root T1 T0 -> leaf m root va = Some a -> exists p, p ∈ T0 /\ p <= a /\ a + 8 <= p + PGSIZE.
Proof.
  intros Hi Ha. destruct (leaf_inv _ _ _ _ _ _ Hi Ha) as (p1 & p0 & _ & _ & -> & _ & H0).
  exists p0. pose proof (PX_range 0 va ltac:(lia)). unfold PGSIZE. split_and!; [done|lia|lia].
Qed.

Lemma pte_frame m m' root T1 T0 va :
  pt_inv m root T1 T0 -> tables_frame (tables root T1 T0) m m' -> pte m' root va = pte m root va.
Proof.
  intros Hi Hf. unfold pte.
  rewrite (leaf_frame m m' root T1 T0 va Hi).
  - destruct (leaf m root va) as [a|] eqn:Ha; [|done].
    destruct (leaf_in_T0 _ _ _ _ _ _ Hi Ha) as (p & Hp & H1 & H2).
    apply ld64_ext. intros i Hx. apply Hf. exists p. split; [|lia]. unfold tables. set_solver.
  - intros x (p & Hp & Hx). apply Hf. exists p. split; [|done]. unfold tables. set_solver.
Qed.

(** ** Writes to the tables *)
Lemma entry_store m pg i v pg' j :
  pg mod PGSIZE = 0 -> pg' mod PGSIZE = 0 -> 0 <= i < 512 -> 0 <= j < 512 ->
  entry (st64 m (pg + 8 * i) v) pg' j = if decide (pg = pg' /\ i = j) then u64 v else entry m pg' j.
Proof.
  intros Hp Hp' Hi Hj. unfold entry. case_decide as E.
  - destruct E as [-> ->]. apply ld64_st64.
  - apply ld64_st64_ne. destruct (decide (pg = pg')) as [->|Hne]; [assert (i ≠ j) by tauto; lia|].
    destruct (decide (pg + 8 * i < pg' + 8 * j)) as [Hlt|Hge].
    + right. pose proof (Z.div_mod pg PGSIZE) as D1. pose proof (Z.div_mod pg' PGSIZE) as D2.
      unfold PGSIZE in *. lia.
    + left. pose proof (Z.div_mod pg PGSIZE) as D1. pose proof (Z.div_mod pg' PGSIZE) as D2.
      unfold PGSIZE in *. lia.
Qed.

Lemma pt_aligned m root T1 T0 p : pt_inv m root T1 T0 -> p ∈ tables root T1 T0 -> p mod PGSIZE = 0.
Proof. intros Hi Hp. pose proof (pt_pages _ _ _ _ Hi) as Hpg. rewrite Forall_forall in Hpg. by apply Hpg. Qed.

Lemma page_other p q x :
  p mod PGSIZE = 0 -> q mod PGSIZE = 0 -> p ≠ q -> p <= x < p + PGSIZE -> ~ (q <= x < q + PGSIZE).
Proof.
  intros Hp Hq Hne Hx Hy. apply (page_disjoint p q (x - p) (x - q)); try done; lia.
Qed.

(** Storing a leaf entry changes the abstract page table at its page only. *)
Lemma pte_store m root T1 T0 va a v :
  pt_inv m root T1 T0 -> 0 <= va < MAXVA -> leaf m root va = Some a -> 0 <= v < 2 ^ 64 ->
  pt_inv (st64 m a v) root T1 T0 /\
  (forall va', leaf (st64 m a v) root va' = leaf m root va') /\
  (forall va', 0 <= va' < MAXVA ->
     pte (st64 m a v) root va' = if decide (same_page va va') then v else pte m root va').
Proof.
  intros Hi Hva Ha Hv. destruct (leaf_in_T0 _ _ _ _ _ _ Hi Ha) as (p & Hp & H1 & H2).
  assert (Hf : tables_frame (root :: T1) m (st64 m a v)).
  { intros x (q & Hq & Hx). apply ldb_st64_ne.
    assert (Hne : q ≠ p).
    { intros ->. pose proof (pt_nodup _ _ _ _ Hi) as Hnd. change (root :: T1 ++ T0) with ((root :: T1) ++ T0) in Hnd.
      apply NoDup_app in Hnd as (_ & Hd & _). by apply (Hd p). }
    assert (Hqm : q mod PGSIZE = 0) by (eapply pt_aligned; [done|unfold tables; set_solver]).
    assert (Hpm : p mod PGSIZE = 0) by (eapply pt_aligned; [done|unfold tables; set_solver]).
    pose proof (page_other q p x Hqm Hpm Hne Hx). lia. }
  assert (Hl : forall va', leaf (st64 m a v) root va' = leaf m root va') by (intros; by eapply leaf_frame).
  split_and!; [by eapply pt_inv_frame|done|]. intros va' Hva'. unfold pte. rewrite Hl. case_decide as E.
  - rewrite <- (leaf_same_page _ _ _ _ E), Ha, ld64_st64. unfold u64. by apply Z.mod_small.
  - destruct (leaf m root va') as [a'|] eqn:Ha'; [|done]. apply ld64_st64_ne.
    destruct (decide (a = a')) as [<-|Hne]; [exfalso; by apply E; eapply leaf_inj|].
    destruct (leaf_inv _ _ _ _ _ _ Hi Ha) as (p1 & p0 & _ & _ & -> & _ & G0).
    destruct (leaf_inv _ _ _ _ _ _ Hi Ha') as (q1 & q0 & _ & _ & -> & _ & G0').
    assert (p0 mod PGSIZE = 0) by (eapply pt_aligned; [done|unfold tables; set_solver]).
    assert (q0 mod PGSIZE = 0) by (eapply pt_aligned; [done|unfold tables; set_solver]).
    pose proof (PX_range 0 va ltac:(lia)). pose proof (PX_range 0 va' ltac:(lia)).
    pose proof (Z.div_mod p0 PGSIZE) as D1. pose proof (Z.div_mod q0 PGSIZE) as D2. unfold PGSIZE in *. lia.
Qed.

(** A new table page: [m'] is [m] with page [q] zeroed and the entry at [pg], [i] set. *)
Record new_table (m : gmap Z Z) (pg i q : Z) (m' : gmap Z Z) : Prop := mkNewTable {
  nt_aligned : q mod PGSIZE = 0;
  nt_range : 0 <= q < 2 ^ 56;
  nt_other : forall pg' j, pg' mod PGSIZE = 0 -> pg' ≠ q -> 0 <= j < 512 ->
    entry m' pg' j = if decide (pg = pg' /\ i = j) then Z.lor (PA2PTE q) PTE_V else entry m pg' j;
  nt_zero : forall j, 0 <= j < 512 -> entry m' q j = 0;
  nt_frame : forall x, ~ (q <= x < q + PGSIZE) -> ~ (pg + 8 * i <= x < pg + 8 * i + 8) -> ldb m' x = ldb m x }.

Lemma table_entry q :
  q mod PGSIZE = 0 -> 0 <= q < 2 ^ 56 ->
  valid (Z.lor (PA2PTE q) PTE_V) = true /\ PTE2PA (Z.lor (PA2PTE q) PTE_V) = q /\
  0 <= Z.lor (PA2PTE q) PTE_V < 2 ^ 64.
Proof.
  intros Hq Hr. destruct (leaf_entry q 0 Hr ltac:(lia)) as (E1 & E2 & E3 & _). rewrite Z.lor_0_r in *.
  split_and!; [done| |lia|lia]. rewrite E2. pose proof (Z.div_mod q PGSIZE). unfold PGSIZE in *. lia.
Qed.

Lemma new_table_store m m1 pg i q :
  pg mod PGSIZE = 0 -> q mod PGSIZE = 0 -> 0 <= q < 2 ^ 56 -> pg ≠ q -> 0 <= i < 512 ->
  page_zero m1 q -> page_frame q m m1 ->
  new_table m pg i q (st64 m1 (pg + 8 * i) (Z.lor (PA2PTE q) PTE_V)).
Proof.
  intros Hpg Hq Hr Hne Hi Hz Hf. destruct (table_entry q Hq Hr) as (_ & _ & He).
  split; [done|done| | |].
  - intros pg' j Hpg' Hne' Hj. rewrite entry_store by done. case_decide; [unfold u64; by rewrite Z.mod_small|].
    apply entry_frame; [done|]. intros x Hx. apply Hf. by eapply page_other.
  - intros j Hj. rewrite entry_store by done. rewrite decide_False by tauto.
    unfold entry. transitivity (ld64 ∅ 0); [|by vm_compute]. apply ld64_ext. intros k Hk.
    replace (q + 8 * j + k) with (q + (8 * j + k)) by lia. rewrite Hz by (unfold PGSIZE; lia). by vm_compute.
  - intros x Hx1 Hx2. rewrite ldb_st64_ne by lia. by apply Hf.
Qed.

Lemma zero_invalid : valid 0 = false.
Proof. done. Qed.

(** Adding a table under the root. *)
Lemma add_table2 m m' root T1 T0 va q :
  pt_inv m root T1 T0 -> child m root 2 va = None -> q ∉ tables root T1 T0 -> page_ok q ->
  new_table m root (PX 2 va) q m' ->
  pt_inv m' root (q :: T1) T0 /\ child m' root 2 va = Some q /\
  (forall va', pte m' root va' = pte m root va').
Proof.
  intros Hi Hnone Hq Hok [Na Nr No Nz Nf]. pose proof (PX_range 2 va ltac:(lia)) as Hpx.
  destruct (table_entry q Na Nr) as (Ev & Ep & _).
  assert (Hal : forall p, p ∈ tables root T1 T0 -> p mod PGSIZE = 0 /\ p ≠ q)
    by (intros p Hp; split; [by eapply pt_aligned|by intros ->]).
  assert (Hr : root ∈ tables root T1 T0) by left.
  assert (HT1 : forall p, p ∈ T1 -> p ∈ tables root T1 T0) by (unfold tables; set_solver).
  assert (HT0 : forall p, p ∈ T0 -> p ∈ tables root T1 T0) by (unfold tables; set_solver).
  assert (Er : forall j, 0 <= j < 512 -> entry m' root j =
    if decide (PX 2 va = j) then Z.lor (PA2PTE q) PTE_V else entry m root j).
  { intros j Hj. destruct (Hal root Hr). rewrite No by done.
    destruct (decide (PX 2 va = j)); [by rewrite decide_True|by rewrite decide_False by tauto]. }
  assert (Et : forall p j, p ∈ T1 -> 0 <= j < 512 -> entry m' p j = entry m p j).
  { intros p j Hp Hj. destruct (Hal p (HT1 p Hp)). rewrite No by done. rewrite decide_False; [done|].
    intros [-> _]. pose proof (pt_nodup _ _ _ _ Hi) as Hnd. apply NoDup_cons in Hnd as [Hnd _].
    apply Hnd, elem_of_app. by left. }
  assert (Hold : valid (entry m root (PX 2 va)) = false).
  { unfold child in Hnone. by destruct (valid _). }
  assert (HqT1 : q ∉ T1) by (intros Hin; by apply Hq, HT1).
  destruct Hi as [Hnd Hpg Hl2 Hl1 Hi2 Hi1]. split_and!.
  - split.
    + change (root :: (q :: T1) ++ T0) with ([root] ++ [q] ++ (T1 ++ T0)).
      rewrite Permutation_app_swap_app. cbn [app]. constructor; [done|exact Hnd].
    + change (root :: (q :: T1) ++ T0) with ([root] ++ [q] ++ (T1 ++ T0)).
      rewrite Permutation_app_swap_app. cbn [app]. constructor; [done|exact Hpg].
    + intros i Hi. rewrite Er by done. case_decide; [intros _; rewrite Ep; left|]. intros Hv. right. by apply Hl2.
    + intros p i [->|Hp]%elem_of_cons Hi; [by rewrite Nz|]. rewrite Et by done. by apply Hl1.
    + intros i j Hi Hj. rewrite !Er by done. case_decide as E1; case_decide as E2.
      * congruence.
      * intros _ Hv E. rewrite Ep in E. exfalso. apply HqT1. rewrite E. by apply Hl2.
      * intros Hv _ E. rewrite Ep in E. exfalso. apply HqT1. rewrite <- E. by apply Hl2.
      * by apply Hi2.
    + intros p p' i j [->|Hp]%elem_of_cons [->|Hp']%elem_of_cons Hi Hj; rewrite ?Nz, ?Et by done;
        try done. by apply Hi1.
  - unfold child. rewrite Er by done. rewrite decide_True by done. by rewrite Ev, Ep.
  - intros va'. pose proof (PX_range 2 va' ltac:(lia)) as Hpx'. pose proof (PX_range 1 va' ltac:(lia)) as Hpx1.
    assert (Ec : child m' root 2 va' = if decide (PX 2 va = PX 2 va') then Some q else child m root 2 va').
    { unfold child. rewrite Er by done. case_decide; [by rewrite Ev, Ep|done]. }
    unfold pte, leaf. rewrite Ec. case_decide as E.
    + assert (child m' q 1 va' = None) as -> by (unfold child; by rewrite Nz by done).
      assert (child m root 2 va' = None) as -> by (unfold child; by rewrite <- E, Hold). done.
    + destruct (child m root 2 va') as [p1|] eqn:C2; [|done].
      destruct (child_Some _ _ _ _ _ C2) as [V2 D2].
      assert (Hp1 : p1 ∈ T1) by (rewrite <- D2; by apply Hl2).
      assert (child m' p1 1 va' = child m p1 1 va') as -> by (unfold child; by rewrite Et).
      destruct (child m p1 1 va') as [p0|] eqn:C1; [|done].
      destruct (child_Some _ _ _ _ _ C1) as [V1 D1].
      assert (Hp0 : p0 ∈ T0) by (rewrite <- D1; by apply Hl1).
      destruct (Hal p0 (HT0 _ Hp0)) as [Hp0m Hp0q].
      pose proof (PX_range 0 va' ltac:(lia)) as Hpx0.
      change (entry m' p0 (PX 0 va') = entry m p0 (PX 0 va')).
      rewrite No by done. rewrite decide_False; [done|]. intros [E0 _].
      apply NoDup_cons in Hnd as [Hnd _]. apply Hnd, elem_of_app. right. by rewrite E0.
Qed.

(** Adding a third-level table. *)
Lemma add_table1 m m' root T1 T0 va p1 q :
  pt_inv m root T1 T0 -> child m root 2 va = Some p1 -> child m p1 1 va = None ->
  q ∉ tables root T1 T0 -> page_ok q -> new_table m p1 (PX 1 va) q m' ->
  pt_inv m' root T1 (q :: T0) /\ child m' root 2 va = Some p1 /\ child m' p1 1 va = Some q /\
  (forall va', pte m' root va' = pte m root va').
Proof.
  intros Hi Hc2 Hnone Hq Hok [Na Nr No Nz Nf]. pose proof (PX_range 1 va ltac:(lia)) as Hpx.
  pose proof (PX_range 2 va ltac:(lia)) as Hpx2.
  destruct (table_entry q Na Nr) as (Ev & Ep & _).
  assert (Hal : forall p, p ∈ tables root T1 T0 -> p mod PGSIZE = 0 /\ p ≠ q)
    by (intros p Hp; split; [by eapply pt_aligned|by intros ->]).
  assert (Hr : root ∈ tables root T1 T0) by left.
  assert (HT1 : forall p, p ∈ T1 -> p ∈ tables root T1 T0) by (unfold tables; set_solver).
  assert (HT0 : forall p, p ∈ T0 -> p ∈ tables root T1 T0) by (unfold tables; set_solver).
  destruct Hi as [Hnd Hpg Hl2 Hl1 Hi2 Hi1].
  assert (Hp1 : p1 ∈ T1) by (destruct (child_Some _ _ _ _ _ Hc2) as [V <-]; by apply Hl2).
  assert (Hrp : root ≠ p1) by (intros ->; apply NoDup_cons in Hnd as [Hnd _]; apply Hnd, elem_of_app; by left).
  assert (Hdisj : forall p, p ∈ T1 -> p ∉ T0)
    by (apply NoDup_cons in Hnd as [_ Hnd]; apply NoDup_app in Hnd as (_ & Hd & _); exact Hd).
  assert (Er : forall j, 0 <= j < 512 -> entry m' root j = entry m root j).
  { intros j Hj. destruct (Hal root Hr). rewrite No by done. rewrite decide_False; [done|].
    intros [E _]. by apply Hrp. }
  assert (Et : forall p j, p ∈ T1 -> 0 <= j < 512 -> entry m' p j =
    if decide (p1 = p /\ PX 1 va = j) then Z.lor (PA2PTE q) PTE_V else entry m p j).
  { intros p j Hp Hj. destruct (Hal p (HT1 p Hp)). by rewrite No. }
  assert (Hold : valid (entry m p1 (PX 1 va)) = false) by (unfold child in Hnone; by destruct (valid _)).
  assert (HqT0 : q ∉ T0) by (intros Hin; by apply Hq, HT0).
  split_and!.
  - split; [| |intros i Hi; rewrite Er by done; by apply Hl2| | |].
    + assert (Eperm : root :: T1 ++ q :: T0 ≡ₚ q :: root :: T1 ++ T0) by solve_Permutation.
      rewrite Eperm. by constructor.
    + assert (Eperm : root :: T1 ++ q :: T0 ≡ₚ q :: root :: T1 ++ T0) by solve_Permutation.
      rewrite Eperm. by constructor.
    + intros p i Hp Hi. rewrite Et by done. case_decide; [intros _; rewrite Ep; left|]. intros Hv. right. by apply Hl1.
    + intros i j Hi Hj. rewrite !Er by done. by apply Hi2.
    + intros p p' i j Hp Hp' Hi Hj. rewrite !Et by done. case_decide as E1; case_decide as E2.
      * intros _ _ _. destruct E1, E2. split; congruence.
      * intros _ Hv E. rewrite Ep in E. exfalso. apply HqT0. rewrite E. by apply Hl1.
      * intros Hv _ E. rewrite Ep in E. exfalso. apply HqT0. rewrite <- E. by apply Hl1.
      * by apply Hi1.
  - unfold child. rewrite Er by done. exact Hc2.
  - unfold child. rewrite Et by done. rewrite decide_True by done. by rewrite Ev, Ep.
  - intros va'. pose proof (PX_range 2 va' ltac:(lia)) as Hpx'. pose proof (PX_range 1 va' ltac:(lia)) as Hpx1.
    pose proof (PX_range 0 va' ltac:(lia)) as Hpx0.
    assert (Ec : child m' root 2 va' = child m root 2 va') by (unfold child; by rewrite Er).
    unfold pte, leaf. rewrite Ec. destruct (child m root 2 va') as [p1'|] eqn:C2; [|done].
    destruct (child_Some _ _ _ _ _ C2) as [V2 D2].
    assert (Hp1' : p1' ∈ T1) by (rewrite <- D2; by apply Hl2).
    assert (Ec1 : child m' p1' 1 va' =
      if decide (p1 = p1' /\ PX 1 va = PX 1 va') then Some q else child m p1' 1 va').
    { unfold child. rewrite Et by done. case_decide; [by rewrite Ev, Ep|done]. }
    rewrite Ec1. case_decide as E.
    + destruct E as [-> E]. assert (child m p1' 1 va' = None) as -> by (unfold child; by rewrite <- E, Hold).
      change (entry m' q (PX 0 va') = 0). by rewrite Nz.
    + destruct (child m p1' 1 va') as [p0|] eqn:C1; [|done].
      destruct (child_Some _ _ _ _ _ C1) as [V1 D1].
      assert (Hp0 : p0 ∈ T0) by (rewrite <- D1; by apply Hl1).
      destruct (Hal p0 (HT0 _ Hp0)) as [Hp0m Hp0q].
      change (entry m' p0 (PX 0 va') = entry m p0 (PX 0 va')).
      rewrite No by done. rewrite decide_False; [done|]. intros [E0 _]. apply (Hdisj p1 Hp1). by rewrite E0.
Qed.
End PageTable.
