(* ===== verification/VmSpec.v ===== *)
(** * What the virtual-memory operations do

    The abstract address space of a page table: [uaddr] sends a user virtual address
    to the physical byte it denotes, as walkaddr sees it.  The copy routines of vm.c
    work a page at a time; they are related here to reference definitions that work a
    byte at a time on the abstract address space. *)

From S2P Require Import Prelude Params Machine Spinlock Sched CString Kalloc Vm PageTable.

Section VmSpec.
Context `{Linker}.

(** ** Reference definitions *)
Definition user_entry_ok (e : Z) : bool :=
  valid e && negb (Z.land e PTE_U =? 0) && negb (PTE2PA e =? 0).

Definition uaddr (m : gmap Z Z) (root va : Z) : option Z :=
  if bool_decide (0 <= va < MAXVA) && user_entry_ok (pte m root va)
  then Some (PTE2PA (pte m root va) + va mod PGSIZE) else None.

Definition ubyte (m : gmap Z Z) (root va : Z) : option Z := ldb m <$> uaddr m root va.

(** The [n] bytes from [va] on, if all are mapped for the user. *)
Fixpoint ubytes (m : gmap Z Z) (root va : Z) (n : nat) : option (list Z) :=
  match n with
  | O => Some []
  | S n' => match ubyte m root va, ubytes m root (va + 1) n' with
            | Some b, Some bs => Some (b :: bs)
            | _, _ => None
            end
  end.

(** The string at [va], its NUL included, if it ends within [n] bytes. *)
Fixpoint ustring (m : gmap Z Z) (root va : Z) (n : nat) : option (list Z) :=
  match n with
  | O => None
  | S n' => match ubyte m root va with
            | Some b => if b =? 0 then Some [0] else cons b <$> ustring m root (va + 1) n'
            | None => None
            end
  end.

(** Storing bytes at [va] on. *)
Fixpoint ustore (m : gmap Z Z) (root va : Z) (bs : list Z) : option (gmap Z Z) :=
  match bs with
  | [] => Some m
  | b :: bs' => match uaddr m root va with
                | Some pa => ustore (<[pa := b]> m) root (va + 1) bs'
                | None => None
                end
  end.

(** A user address space: a page-table tree none of whose table pages is mapped for the
    user, and in which no physical byte has two user addresses. *)
Record aspace (m : gmap Z Z) (root : Z) (T1 T0 : list Z) : Prop := mkAspace {
  as_tree : pt_inv m root T1 T0;
  as_user : forall va pa, uaddr m root va = Some pa -> ~ in_pages (tables root T1 T0) pa;
  as_inj : forall va va' pa, uaddr m root va = Some pa -> uaddr m root va' = Some pa -> va = va' }.

(** ** walk and walkaddr *)
Lemma walk_find root va s :
  va < MAXVA -> walk root va false s = Ret (default 0 (leaf (k_mem s) root va)) s.
Proof.
  intros Hva. unfold walk. destruct (Z.leb_spec MAXVA va); [lia|].
  unfold leaf, child, entry, pte_addr. cbn [walk_levels]. unfold ld_pte. rewrite bind_assoc, bind_gets.
  fold (valid (ld64 (k_mem s) (pte_addr root 2 va))). unfold pte_addr.
  destruct (valid (ld64 (k_mem s) (root + 8 * PX 2 va))); [|done].
  rewrite bind_assoc, bind_gets.
  fold (valid (ld64 (k_mem s) (PTE2PA (ld64 (k_mem s) (root + 8 * PX 2 va)) + 8 * PX 1 va))).
  by destruct (valid _).
Qed.

Lemma leaf_pos m root T1 T0 va a : pt_inv m root T1 T0 -> leaf m root va = Some a -> 0 < a.
Proof.
  intros Hi Ha. destruct (leaf_in_T0 _ _ _ _ _ _ Hi Ha) as (p & Hp & Hle & _).
  pose proof (pt_pages _ _ _ _ Hi) as Hpg. rewrite Forall_forall in Hpg.
  destruct (Hpg p) as (_ & _ & ?); [right; apply elem_of_app; by right|]. lia.
Qed.

(** The physical page of a user address, 0 when there is none. *)
Definition upage (m : gmap Z Z) (root va : Z) : Z :=
  if bool_decide (0 <= va < MAXVA) && user_entry_ok (pte m root va)
  then PTE2PA (pte m root va) else 0.

Lemma walkaddr_spec root T1 T0 va s :
  pt_inv (k_mem s) root T1 T0 -> 0 <= va -> walkaddr root va s = Ret (upage (k_mem s) root va) s.
Proof.
  intros Hi Hva. unfold walkaddr, upage. destruct (Z.leb_spec MAXVA va).
  { by rewrite bool_decide_false by lia. }
  rewrite bool_decide_true by lia. cbn [andb].
  rewrite (bind_Ret _ _ _ _ _ (walk_find root va s ltac:(lia))). unfold pte, user_entry_ok.
  destruct (leaf (k_mem s) root va) as [a|] eqn:Ha; [|done]. cbn [from_option id].
  pose proof (leaf_pos _ _ _ _ _ _ Hi Ha). destruct (Z.eqb_spec a 0); [lia|].
  unfold ld_pte. rewrite bind_gets. unfold valid.
  destruct (Z.land _ PTE_V =? 0); [done|]. destruct (Z.land _ PTE_U =? 0); [done|]. cbn [negb andb].
  destruct (Z.eqb_spec (PTE2PA (ld64 (k_mem s) a)) 0) as [E|E]; [by rewrite E|done].
Qed.

Lemma uaddr_upage m root va :
  uaddr m root va = if upage m root va =? 0 then None else Some (upage m root va + va mod PGSIZE).
Proof.
  unfold uaddr, upage. destruct (bool_decide _ && _) eqn:E; [|done].
  apply andb_prop in E as [_ E]. apply andb_prop in E as [_ E].
  by destruct (Z.eqb_spec (PTE2PA (pte m root va)) 0).
Qed.

Lemma same_page_mod va k :
  0 <= k -> va mod PGSIZE + k < PGSIZE -> same_page va (va + k) /\ (va + k) mod PGSIZE = va mod PGSIZE + k.
Proof.
  intros Hk Hlt. pose proof (Z.mod_pos_bound va PGSIZE eq_refl) as Hm.
  pose proof (Z.div_mod va PGSIZE ltac:(done)) as D.
  assert (E : va + k = (va mod PGSIZE + k) + va / PGSIZE * PGSIZE) by lia.
  unfold same_page. rewrite E, Z.div_add, Z.mod_add by done.
  rewrite (Z.div_small (va mod PGSIZE + k)), (Z.mod_small (va mod PGSIZE + k)) by lia. split; lia.
Qed.

Lemma MAXVA_page va va' : same_page va va' -> 0 <= va < MAXVA -> 0 <= va' < MAXVA.
Proof.
  unfold same_page. intros E Hva. change MAXVA with (2 ^ 26 * PGSIZE * 2) in *.
  pose proof (Z.div_mod va PGSIZE ltac:(done)). pose proof (Z.div_mod va' PGSIZE ltac:(done)).
  pose proof (Z.mod_pos_bound va PGSIZE eq_refl). pose proof (Z.mod_pos_bound va' PGSIZE eq_refl).
  unfold PGSIZE in *. lia.
Qed.

Lemma upage_same m root va va' : same_page va va' -> upage m root va = upage m root va'.
Proof.
  intros E. unfold upage. rewrite (pte_same_page _ _ _ _ E).
  assert (Hb : bool_decide (0 <= va < MAXVA) = bool_decide (0 <= va' < MAXVA)).
  { apply bool_decide_ext. split; apply MAXVA_page; done. }
  by rewrite Hb.
Qed.

(** ** Ranges of bytes *)
Lemma ubytes_app m root va n1 n2 :
  ubytes m root va (n1 + n2) =
    match ubytes m root va n1, ubytes m root (va + Z.of_nat n1) n2 with
    | Some l1, Some l2 => Some (l1 ++ l2)
    | _, _ => None
    end.
Proof.
  revert va. induction n1 as [|n1 IH]; intros va; cbn [ubytes Nat.add].
  - rewrite Z.add_0_r. by destruct (ubytes m root va n2).
  - rewrite IH. replace (va + 1 + Z.of_nat n1) with (va + Z.of_nat (S n1)) by lia.
    destruct (ubyte m root va); [|done]. destruct (ubytes m root (va + 1) n1); [|done].
    by destruct (ubytes m root _ n2).
Qed.

Lemma ubytes_length m root va n l : ubytes m root va n = Some l -> length l = n.
Proof.
  revert va l. induction n as [|n IH]; intros va l; cbn [ubytes].
  - by intros [= <-].
  - destruct (ubyte m root va); [|done]. destruct (ubytes m root (va + 1) n) eqn:E; [|done].
    intros [= <-]. cbn. f_equal. by eapply IH.
Qed.

(** The bytes of a range within one page. *)
Lemma ubytes_page m root va n :
  va mod PGSIZE + Z.of_nat n <= PGSIZE -> upage m root va ≠ 0 ->
  ubytes m root va n = Some (ld_bytes m (upage m root va + va mod PGSIZE) n).
Proof.
  revert va. induction n as [|n IH]; intros va Hle Hpg; [done|].
  cbn [ubytes]. unfold ubyte. rewrite uaddr_upage. destruct (Z.eqb_spec (upage m root va) 0); [done|].
  cbn [fmap option_fmap option_map]. unfold ld_bytes. cbn [seq fmap list_fmap]. rewrite Z.add_0_r.
  destruct n as [|n]; [done|].
  destruct (same_page_mod va 1) as [Hsp Hmod]; [lia|lia|].
  rewrite IH; rewrite <- ?(upage_same _ _ _ _ Hsp), ?Hmod; [|lia|done].
  do 2 f_equal. unfold ld_bytes. rewrite <- (fmap_S_seq 0 (S n)), <- list_fmap_compose.
  apply list_fmap_ext. intros i x _. cbn. f_equal. lia.
Qed.

Lemma ubytes_none m root va n : upage m root va = 0 -> ubytes m root va (S n) = None.
Proof. intros E. cbn [ubytes]. unfold ubyte. rewrite uaddr_upage, E. done. Qed.
(** ** copyin *)

(** What a copy of [n] bytes from [va] yields: all of them, or a failure that has
    stored a proper prefix. *)
Definition copied (m : gmap Z Z) (root va : Z) (n : nat) (acc : list Z) (s : kstate)
    (o : outcome kstate (Z * list Z)) : Prop :=
  match ubytes m root va n with
  | Some bs => o = Ret (0, acc ++ bs) s
  | None => exists k bs, (k < n)%nat /\ ubytes m root va k = Some bs /\ o = Ret (-1, acc ++ bs) s
  end.

(** The part of a range in the page of [va], and where the next page starts. *)
Lemma page_step va len :
  0 <= va < MAXVA -> 0 < len ->
  let n := Z.min (PGSIZE - (va - PGROUNDDOWN va)) len in
  0 < n <= len /\ va mod PGSIZE + n <= PGSIZE /\
  (len <= n \/ (u64 (PGROUNDDOWN va + PGSIZE) = va + n /\ (va + n) mod PGSIZE = 0 /\ va mod PGSIZE + n = PGSIZE)).
Proof.
  intros Hva Hlen n. pose proof (Z.mod_pos_bound va PGSIZE eq_refl) as Hm.
  unfold n. rewrite PGROUNDDOWN_mod. replace (va - (va - va mod PGSIZE)) with (va mod PGSIZE) by lia.
  split_and!; [lia|lia|lia|]. destruct (decide (len <= PGSIZE - va mod PGSIZE)); [left; lia|right].
  rewrite Z.min_l by lia. change MAXVA with (2 ^ 39) in Hva.
  assert (u64 (va - va mod PGSIZE + PGSIZE) = va - va mod PGSIZE + PGSIZE) as ->.
  { unfold u64. apply Z.mod_small. unfold PGSIZE in *. lia. }
  split_and!; [lia| |lia].
  replace (va + (PGSIZE - va mod PGSIZE)) with ((va / PGSIZE + 1) * PGSIZE).
  - by rewrite Z.mod_mul.
  - pose proof (Z.div_mod va PGSIZE ltac:(done)). lia.
Qed.

Lemma PGROUNDDOWN_same va : same_page (PGROUNDDOWN va) va.
Proof.
  rewrite PGROUNDDOWN_mod. unfold same_page.
  replace (va - va mod PGSIZE) with (va / PGSIZE * PGSIZE).
  - by rewrite Z.div_mul.
  - pose proof (Z.div_mod va PGSIZE ltac:(done)). lia.
Qed.

Lemma upage_range m root va : upage m root va ≠ 0 -> 0 <= va < MAXVA.
Proof. unfold upage. case_bool_decide; [done|]. by cbn. Qed.

Lemma copied_step m root va n k acc s o :
  (k <= n)%nat -> va mod PGSIZE + Z.of_nat k <= PGSIZE -> upage m root va ≠ 0 ->
  copied m root (va + Z.of_nat k) (n - k) (acc ++ ld_bytes m (upage m root va + va mod PGSIZE) k) s o ->
  copied m root va n acc s o.
Proof.
  intros Hk Hle Hpg. unfold copied. assert (exists r, n = k + r)%nat as [r ->] by (exists (n - k)%nat; lia).
  replace (k + r - k)%nat with r by lia. rewrite ubytes_app, (ubytes_page m root va k) by done.
  destruct (ubytes m root (va + Z.of_nat k) r) as [bs|].
  - by rewrite <- (assoc_L (++)).
  - intros (k' & bs & Hk' & E & ->). eexists (k + k')%nat, _. split; [lia|].
    rewrite ubytes_app, (ubytes_page m root va k), E by done. split; [done|]. by rewrite <- (assoc_L (++)).
Qed.

Lemma copyin_loop_spec root T1 T0 fuel va len acc s :
  pt_inv (k_mem s) root T1 T0 -> 0 <= va ->
  (0 < len -> va mod PGSIZE + len <= Z.of_nat fuel * PGSIZE) ->
  copied (k_mem s) root va (Z.to_nat len) acc s (copyin_loop fuel root va len acc s).
Proof.
  intros Hi. revert va len acc. induction fuel as [|fuel IH]; intros va len acc Hva Hf;
    cbn [copyin_loop]; destruct (Z.leb_spec len 0) as [Hl|Hl].
  1,3: unfold copied; replace (Z.to_nat len) with 0%nat by lia; cbn; by rewrite (right_id_L [] (++)).
  { pose proof (Z.mod_pos_bound va PGSIZE eq_refl). lia. }
  destruct (PGROUNDDOWN_spec va) as [_ Hr].
  assert (H0 : 0 <= PGROUNDDOWN va).
  { rewrite PGROUNDDOWN_mod. pose proof (Z.mod_le va PGSIZE Hva eq_refl). lia. }
  rewrite (bind_Ret _ _ _ _ _ (walkaddr_spec root T1 T0 _ s Hi H0)).
  rewrite (upage_same _ _ _ _ (PGROUNDDOWN_same va)).
  destruct (Z.eqb_spec (upage (k_mem s) root va) 0) as [E|E].
  - unfold copied. destruct (Z.to_nat len) as [|n] eqn:En; [lia|]. rewrite ubytes_none by done.
    exists 0%nat, []. split_and!; [lia|done|]. by rewrite (right_id_L [] (++)).
  - rewrite bind_gets. pose proof (upage_range _ _ _ E) as Hm.
    destruct (page_step va len Hm Hl) as (Hn & Hle & Hnext).
    set (n := Z.min _ len) in *. apply (copied_step _ _ _ _ (Z.to_nat n)); [lia|rewrite Z2Nat.id; lia|done|].
    replace (upage (k_mem s) root va + (va - PGROUNDDOWN va)) with (upage (k_mem s) root va + va mod PGSIZE)
      by (rewrite PGROUNDDOWN_mod; lia).
    rewrite Z2Nat.id by lia. replace (Z.to_nat len - Z.to_nat n)%nat with (Z.to_nat (len - n)) by lia.
    destruct Hnext as [Hend|(-> & Hal & Hfull)].
    + unfold copied. replace (Z.to_nat (len - n)) with 0%nat by lia. cbn [ubytes].
      rewrite (right_id_L [] (++)). destruct fuel; cbn [copyin_loop]; destruct (Z.leb_spec (len - n) 0); lia || done.
    + apply IH; [lia|]. intros Hpos. rewrite Hal. lia.
Qed.
Lemma copy_fuel_enough va len :
  0 <= len -> va mod PGSIZE + len <= Z.of_nat (copy_fuel len) * PGSIZE.
Proof.
  intros Hl. unfold copy_fuel. pose proof (Z.mod_pos_bound va PGSIZE eq_refl).
  pose proof (Z.div_pos len PGSIZE Hl eq_refl). rewrite Z2Nat.id by lia.
  pose proof (Z.div_mod len PGSIZE ltac:(done)). pose proof (Z.mod_pos_bound len PGSIZE eq_refl). lia.
Qed.

(** copyin(pagetable, dst, srcva, len) is the byte-at-a-time read of the user's
    address space: it never panics, faults or changes the state; if every byte of
    the range is mapped for the user it returns 0 with exactly those bytes, whatever
    pages the range spans; otherwise it returns -1, having stored a proper prefix of
    the range. *)
Theorem copyin_correct root T1 T0 va len s :
  pt_inv (k_mem s) root T1 T0 -> 0 <= va -> 0 <= len ->
  match ubytes (k_mem s) root va (Z.to_nat len) with
  | Some bs => copyin root va len s = Ret (0, bs) s
  | None => exists k bs, (k < Z.to_nat len)%nat /\ ubytes (k_mem s) root va k = Some bs /\
                         copyin root va len s = Ret (-1, bs) s
  end.
Proof.
  intros Hi Hva Hlen. apply (copyin_loop_spec root T1 T0); [done|done|]. intros _.
  by apply copy_fuel_enough.
Qed.

(** ** copyinstr *)
Lemma ld_bytes_cons m a n : ld_bytes m a (S n) = ldb m a :: ld_bytes m (a + 1) n.
Proof.
  unfold ld_bytes. cbn [seq fmap list_fmap]. rewrite Z.add_0_r. f_equal.
  rewrite <- (fmap_S_seq 0 n), <- list_fmap_compose. apply list_fmap_ext. intros i x _. cbn. f_equal. lia.
Qed.

(** The string within the first page, or its continuation in the next. *)
Lemma ustring_page m root va k r :
  va mod PGSIZE + Z.of_nat k <= PGSIZE -> (k = 0%nat \/ upage m root va ≠ 0) ->
  ustring m root va (k + r) =
    let '(bs, got) := copy_to_nul (ld_bytes m (upage m root va + va mod PGSIZE) k) in
    if got then Some bs else app bs <$> ustring m root (va + Z.of_nat k) r.
Proof.
  revert va. induction k as [|k IH]; intros va Hle Hpg; cbn [Nat.add].
  - cbn. rewrite Z.add_0_r. by destruct (ustring m root va r).
  - destruct Hpg as [|Hpg]; [done|]. rewrite ld_bytes_cons. cbn [ustring copy_to_nul]. unfold ubyte.
    rewrite uaddr_upage. destruct (Z.eqb_spec (upage m root va) 0); [done|].
    cbn [fmap option_fmap option_map]. destruct (ldb m _ =? 0); [done|].
    assert (E : ustring m root (va + 1) (k + r) =
      let '(bs, got) := copy_to_nul (ld_bytes m (upage m root va + va mod PGSIZE + 1) k) in
      if got then Some bs else app bs <$> ustring m root (va + 1 + Z.of_nat k) r).
    { destruct k as [|k]; [cbn; rewrite Z.add_0_r; by destruct (ustring m root (va + 1) r)|].
      destruct (same_page_mod va 1) as [Hsp Hmod]; [lia|lia|].
      rewrite IH; rewrite <- ?(upage_same _ _ _ _ Hsp), ?Hmod; [|lia|by right].
      by rewrite Z.add_assoc. }
    rewrite E. replace (va + 1 + Z.of_nat k) with (va + Z.of_nat (S k)) by lia.
    destruct (copy_to_nul _) as [bs []]; [done|]. by destruct (ustring m root (va + Z.of_nat (S k)) r).
Qed.

Definition copied_str (m : gmap Z Z) (root va : Z) (n : nat) (acc : list Z) (s : kstate)
    (o : outcome kstate (Z * list Z)) : Prop :=
  match ustring m root va n with
  | Some bs => o = Ret (0, acc ++ bs) s
  | None => exists bs, o = Ret (-1, acc ++ bs) s
  end.

Lemma copyinstr_loop_spec root T1 T0 fuel va max acc s :
  pt_inv (k_mem s) root T1 T0 -> 0 <= va ->
  (0 < max -> va mod PGSIZE + max <= Z.of_nat fuel * PGSIZE) ->
  copied_str (k_mem s) root va (Z.to_nat max) acc s (copyinstr_loop fuel root va max acc s).
Proof.
  intros Hi. revert va max acc. induction fuel as [|fuel IH]; intros va max acc Hva Hf;
    cbn [copyinstr_loop]; destruct (Z.leb_spec max 0) as [Hl|Hl].
  1,3: unfold copied_str; replace (Z.to_nat max) with 0%nat by lia; exists []; by rewrite (right_id_L [] (++)).
  { pose proof (Z.mod_pos_bound va PGSIZE eq_refl). lia. }
  destruct (PGROUNDDOWN_spec va) as [_ Hr].
  assert (H0 : 0 <= PGROUNDDOWN va).
  { rewrite PGROUNDDOWN_mod. pose proof (Z.mod_le va PGSIZE Hva eq_refl). lia. }
  rewrite (bind_Ret _ _ _ _ _ (walkaddr_spec root T1 T0 _ s Hi H0)).
  rewrite (upage_same _ _ _ _ (PGROUNDDOWN_same va)).
  destruct (Z.eqb_spec (upage (k_mem s) root va) 0) as [E|E].
  - unfold copied_str. destruct (Z.to_nat max) as [|n] eqn:En; [lia|]. cbn [ustring]. unfold ubyte.
    rewrite uaddr_upage, E. exists []. by rewrite (right_id_L [] (++)).
  - rewrite bind_gets. pose proof (upage_range _ _ _ E) as Hm.
    destruct (page_step va max Hm Hl) as (Hn & Hle & Hnext).
    set (n := Z.min _ max) in *.
    replace (upage (k_mem s) root va + (va - PGROUNDDOWN va)) with (upage (k_mem s) root va + va mod PGSIZE)
      by (rewrite PGROUNDDOWN_mod; lia).
    unfold copied_str. replace (Z.to_nat max) with (Z.to_nat n + Z.to_nat (max - n))%nat by lia.
    rewrite (ustring_page _ _ va (Z.to_nat n)); [|rewrite Z2Nat.id; lia|by right].
    destruct (copy_to_nul _) as [bs []]; [done|]. rewrite Z2Nat.id by lia.
    destruct Hnext as [Hend|(-> & Hal & Hfull)].
    + replace (Z.to_nat (max - n)) with 0%nat by lia. exists bs.
      destruct fuel; cbn [copyinstr_loop]; destruct (Z.leb_spec (max - n) 0); lia || done.
    + specialize (IH (va + n) (max - n) (acc ++ bs) ltac:(lia) ltac:(intros; rewrite Hal; lia)).
      unfold copied_str in IH. destruct (ustring _ _ (va + n) _) as [l|]; cbn.
      * by rewrite (assoc_L (++)).
      * destruct IH as [bs' ->]. exists (bs ++ bs'). by rewrite (assoc_L (++)).
Qed.

(** copyinstr(pagetable, dst, srcva, max) is the byte-at-a-time read of a
    NUL-terminated string: it returns 0 with the bytes up to and including the first
    NUL exactly when that NUL lies within [max] bytes and every byte up to it is
    mapped for the user (later bytes need not be); in every other case, a string
    that does not end in time included, it returns -1.  It never changes the state. *)
Theorem copyinstr_correct root T1 T0 va max s :
  pt_inv (k_mem s) root T1 T0 -> 0 <= va -> 0 <= max ->
  match ustring (k_mem s) root va (Z.to_nat max) with
  | Some str => copyinstr root va max s = Ret (0, str) s
  | None => exists bs, copyinstr root va max s = Ret (-1, bs) s
  end.
Proof.
  intros Hi Hva Hmax. apply (copyinstr_loop_spec root T1 T0); [done|done|]. intros _.
  by apply copy_fuel_enough.
Qed.
(** ** copyout *)

(** Two memories with the same tables have the same user addresses. *)
Lemma uaddr_frame m m' root T1 T0 va :
  pt_inv m root T1 T0 -> tables_frame (tables root T1 T0) m m' -> uaddr m' root va = uaddr m root va.
Proof. intros Hi Hf. unfold uaddr. by rewrite (pte_frame m m' root T1 T0). Qed.

Lemma aspace_frame m m' root T1 T0 :
  aspace m root T1 T0 -> tables_frame (tables root T1 T0) m m' -> aspace m' root T1 T0.
Proof.
  intros [Hi Hu Hj] Hf. split.
  - eapply pt_inv_frame; [done|]. intros x (p & Hp & Hx). apply Hf. exists p. split; [|done].
    unfold tables. set_solver.
  - intros va pa. rewrite (uaddr_frame m m' root T1 T0) by done. apply Hu.
  - intros va va' pa. rewrite !(uaddr_frame m m' root T1 T0) by done. apply Hj.
Qed.

Lemma store_frame m root T1 T0 va pa b :
  aspace m root T1 T0 -> uaddr m root va = Some pa -> tables_frame (tables root T1 T0) m (<[pa := b]> m).
Proof.
  intros Ha E x Hx. rewrite ldb_insert, bool_decide_false; [done|]. intros <-. by eapply as_user.
Qed.

(** The effect of storing user bytes. *)
Lemma ustore_spec m root T1 T0 va bs m' :
  aspace m root T1 T0 -> ustore m root va bs = Some m' ->
  tables_frame (tables root T1 T0) m m' /\
  ubytes m' root va (length bs) = Some bs /\
  (forall x, (forall i, 0 <= i < Z.of_nat (length bs) -> uaddr m root (va + i) ≠ Some x) -> ldb m' x = ldb m x).
Proof.
  revert m va. induction bs as [|b bs IH]; intros m va Ha; cbn [ustore length].
  { intros [= <-]. done. }
  destruct (uaddr m root va) as [pa|] eqn:Epa; [|done]. intros Hs.
  pose proof (store_frame _ _ _ _ _ _ b Ha Epa) as Hf.
  pose proof (aspace_frame _ _ _ _ _ Ha Hf) as Ha1.
  destruct (IH _ _ Ha1 Hs) as (Hf' & Hb & Hx).
  assert (Hft : tables_frame (tables root T1 T0) m m') by (intros x Hxx; by rewrite Hf', Hf).
  split_and!; [done| |].
  - cbn [ubytes]. rewrite Hb. unfold ubyte.
    rewrite (uaddr_frame m m' root T1 T0), Epa by (done || apply Ha). cbn [fmap option_fmap option_map].
    rewrite Hx; [by rewrite ldb_insert, bool_decide_true|].
    intros i Hi. rewrite (uaddr_frame m _ root T1 T0) by (done || apply Ha). intros E.
    pose proof (as_inj _ _ _ _ Ha _ _ _ Epa E). lia.
  - intros x Hno. rewrite Hx.
    + rewrite ldb_insert, bool_decide_false; [done|]. intros <-. apply (Hno 0); [lia|]. by rewrite Z.add_0_r.
    + intros i Hi. rewrite (uaddr_frame m _ root T1 T0) by (done || apply Ha).
      replace (va + 1 + i) with (va + (i + 1)) by lia. apply Hno. lia.
Qed.

Lemma ustore_app m root va l1 l2 :
  ustore m root va (l1 ++ l2) =
    match ustore m root va l1 with
    | Some m1 => ustore m1 root (va + Z.of_nat (length l1)) l2
    | None => None
    end.
Proof.
  revert m va. induction l1 as [|b l1 IH]; intros m va; cbn [ustore app length].
  - by rewrite Z.add_0_r.
  - destruct (uaddr m root va); [|done]. rewrite IH.
    by replace (va + 1 + Z.of_nat (length l1)) with (va + Z.of_nat (S (length l1))) by lia.
Qed.

(** Bytes stored within one page. *)
Lemma ustore_page m root T1 T0 va bs :
  aspace m root T1 T0 -> va mod PGSIZE + Z.of_nat (length bs) <= PGSIZE -> upage m root va ≠ 0 ->
  ustore m root va bs = Some (st_bytes m (upage m root va + va mod PGSIZE) bs).
Proof.
  revert m va. induction bs as [|b bs IH]; intros m va Ha Hle Hpg; [done|]. cbn [ustore st_bytes].
  assert (Epa : uaddr m root va = Some (upage m root va + va mod PGSIZE)).
  { rewrite uaddr_upage. by destruct (Z.eqb_spec (upage m root va) 0). }
  rewrite Epa. destruct bs as [|b' bs]; [done|]. cbn [length] in *.
  pose proof (store_frame _ _ _ _ _ _ b Ha Epa) as Hf.
  destruct (same_page_mod va 1) as [Hsp Hmod]; [lia|lia|].
  assert (Eu : upage (<[upage m root va + va mod PGSIZE:=b]> m) root (va + 1) = upage m root va).
  { rewrite <- (upage_same _ _ _ _ Hsp). unfold upage at 1.
    by rewrite (pte_frame m _ root T1 T0) by (done || apply Ha). }
  rewrite IH; [|by eapply aspace_frame|rewrite Hmod; lia|by rewrite Eu].
  rewrite Eu, Hmod. by rewrite Z.add_assoc.
Qed.

(** What a copy of [src] to [va] yields: all of it stored, or a failure that has stored
    a proper prefix. *)
Definition stored (m : gmap Z Z) (root va : Z) (src : list Z) (s : kstate) (o : outcome kstate Z) : Prop :=
  match ustore m root va src with
  | Some m' => o = Ret 0 (set_k_mem (fun _ => m') s)
  | None => exists k m', (k < length src)%nat /\ ustore m root va (take k src) = Some m' /\
                         o = Ret (-1) (set_k_mem (fun _ => m') s)
  end.

Lemma stored_step m root T1 T0 va src k s o :
  aspace m root T1 T0 -> (k <= length src)%nat -> va mod PGSIZE + Z.of_nat k <= PGSIZE -> upage m root va ≠ 0 ->
  stored (st_bytes m (upage m root va + va mod PGSIZE) (take k src)) root (va + Z.of_nat k) (drop k src) s o ->
  stored m root va src s o.
Proof.
  intros Ha Hk Hle Hpg. assert (Hlen : length (take k src) = k) by (rewrite length_take; lia).
  assert (Hu : ustore m root va (take k src) = Some (st_bytes m (upage m root va + va mod PGSIZE) (take k src))).
  { eapply ustore_page; [done|by rewrite Hlen|done]. }
  assert (Eall : ustore m root va src =
    ustore (st_bytes m (upage m root va + va mod PGSIZE) (take k src)) root (va + Z.of_nat k) (drop k src)).
  { rewrite <- (take_drop k src) at 1. by rewrite ustore_app, Hu, Hlen. }
  unfold stored. rewrite Eall. destruct (ustore _ _ _ (drop k src)); [done|].
  intros (k' & m' & Hk' & E & ->). rewrite length_drop in Hk'. exists (k + k')%nat, m'. split; [lia|].
  rewrite <- take_take_drop, ustore_app, Hu, Hlen. done.
Qed.

Lemma copyout_loop_spec root T1 T0 fuel va src s :
  aspace (k_mem s) root T1 T0 -> 0 <= va ->
  (src ≠ [] -> va mod PGSIZE + Z.of_nat (length src) <= Z.of_nat fuel * PGSIZE) ->
  stored (k_mem s) root va src s (copyout_loop fuel root va src s).
Proof.
  revert va src s. induction fuel as [|fuel IH]; intros va src s Ha Hva Hf;
    destruct (decide (src = [])) as [->|Hne]; try done.
  { specialize (Hf Hne). pose proof (Z.mod_pos_bound va PGSIZE eq_refl).
    destruct src; [done|]. cbn [length] in Hf. lia. }
  assert (Hl : 0 < Z.of_nat (length src)) by (destruct src; [done|]; cbn; lia).
  assert (H0 : 0 <= PGROUNDDOWN va).
  { rewrite PGROUNDDOWN_mod. pose proof (Z.mod_le va PGSIZE Hva eq_refl). lia. }
  pose proof (walkaddr_spec root T1 T0 (PGROUNDDOWN va) s (as_tree _ _ _ _ Ha) H0) as Hw.
  rewrite (upage_same _ _ _ _ (PGROUNDDOWN_same va)) in Hw.
  replace (copyout_loop (S fuel) root va src) with
    (let! pa0 := walkaddr root (PGROUNDDOWN va) in
     if pa0 =? 0 then ret (-1)
     else
       let n := Z.to_nat (Z.min (PGSIZE - (va - PGROUNDDOWN va)) (Z.of_nat (length src))) in
       do! modify (set_k_mem (fun m => st_bytes m (pa0 + (va - PGROUNDDOWN va)) (take n src)));
       copyout_loop fuel root (u64 (PGROUNDDOWN va + PGSIZE)) (drop n src)) by (by destruct src).
  run_ret Hw. destruct (Z.eqb_spec (upage (k_mem s) root va) 0) as [E|E].
  - unfold stored. destruct src as [|b src]; [done|]. cbn [ustore]. rewrite uaddr_upage, E. cbn.
    exists 0%nat, (k_mem s). split_and!; [lia|done|done].
  - pose proof (upage_range _ _ _ E) as Hm.
    destruct (page_step va _ Hm Hl) as (Hn & Hle & Hnext). set (n := Z.min _ _) in *.
    cbv zeta. rewrite bind_modify.
    replace (upage (k_mem s) root va + (va - PGROUNDDOWN va)) with (upage (k_mem s) root va + va mod PGSIZE)
      by (rewrite PGROUNDDOWN_mod; lia).
    assert (Hlen : length (take (Z.to_nat n) src) = Z.to_nat n) by (rewrite length_take; lia).
    apply (stored_step _ _ T1 T0 _ _ (Z.to_nat n)); [done|lia|rewrite Z2Nat.id; lia|done|].
    set (m1 := st_bytes _ _ _). set (s1 := set_k_mem _ s).
    assert (Ha1 : aspace (k_mem s1) root T1 T0).
    { eapply aspace_frame; [exact Ha|]. eapply (ustore_spec _ _ _ _ va (take (Z.to_nat n) src)); [done|].
      eapply ustore_page; [done|rewrite Hlen; lia|done]. }
    rewrite Z2Nat.id by lia. destruct Hnext as [Hend|(-> & Hal & Hfull)].
    + rewrite drop_ge by lia. unfold stored. cbn [ustore]. by destruct fuel.
    + specialize (IH (va + n) (drop (Z.to_nat n) src) s1 Ha1 ltac:(lia)).
      rewrite Hal, length_drop in IH. specialize (Hf Hne). specialize (IH ltac:(intros _; lia)). exact IH.
Qed.
Lemma ustore_is_Some m root T1 T0 va bs :
  aspace m root T1 T0 -> is_Some (ustore m root va bs) <-> is_Some (ubytes m root va (length bs)).
Proof.
  revert m va. induction bs as [|b bs IH]; intros m va Ha; cbn [ustore length ubytes]; [done|].
  unfold ubyte. destruct (uaddr m root va) as [pa|] eqn:Epa; cbn [fmap option_fmap option_map].
  2:{ split; by intros []. }
  pose proof (store_frame _ _ _ _ _ _ b Ha Epa) as Hf.
  rewrite (IH _ _ (aspace_frame _ _ _ _ _ Ha Hf)).
  assert (Eq : forall n v, is_Some (ubytes (<[pa := b]> m) root v n) <-> is_Some (ubytes m root v n)).
  { induction n as [|n IHn]; intros v; cbn [ubytes]; [done|]. unfold ubyte.
    rewrite (uaddr_frame m _ root T1 T0) by (done || apply Ha).
    destruct (uaddr m root v); cbn; [|done]. specialize (IHn (v + 1)).
    destruct (ubytes (<[pa := b]> m) root (v + 1) n), (ubytes m root (v + 1) n); try done;
      exfalso; destruct IHn as [H1 H2]; (destruct H1; done) || (destruct H2; done). }
  rewrite Eq. destruct (ubytes m root (va + 1) (length bs)); [|done]. split; by eexists.
Qed.

(** C7. copyout then copyin: copyout(pagetable, dstva, src, len) succeeds exactly when
    every byte of the destination is mapped for the user.  Then a copyin of the same
    range from the state it leaves returns the bytes of [src], wherever the range
    crosses pages; only the bytes of the range have changed (no page table, no other
    byte of memory, no other part of the state), so the address space is still well
    formed. *)
Theorem copyout_copyin root T1 T0 va src s :
  aspace (k_mem s) root T1 T0 -> 0 <= va ->
  is_Some (ubytes (k_mem s) root va (length src)) ->
  exists m', copyout root va src s = Ret 0 (set_k_mem (fun _ => m') s) /\
    aspace m' root T1 T0 /\
    copyin root va (Z.of_nat (length src)) (set_k_mem (fun _ => m') s)
      = Ret (0, src) (set_k_mem (fun _ => m') s) /\
    (forall v, uaddr m' root v = uaddr (k_mem s) root v) /\
    (forall x, (forall i, 0 <= i < Z.of_nat (length src) -> uaddr (k_mem s) root (va + i) ≠ Some x) ->
       ldb m' x = ldb (k_mem s) x).
Proof.
  intros Ha Hva Hmap. apply (ustore_is_Some _ _ T1 T0) in Hmap as [m' Hm]; [|done].
  destruct (ustore_spec _ _ _ _ _ _ _ Ha Hm) as (Hf & Hb & Hx).
  pose proof (aspace_frame _ _ _ _ _ Ha Hf) as Ha'.
  exists m'. split_and!; [|done| | |done].
  - pose proof (copyout_loop_spec root T1 T0 (copy_fuel (Z.of_nat (length src))) va src s Ha Hva) as Hc.
    unfold stored in Hc. rewrite Hm in Hc. apply Hc. intros _. apply copy_fuel_enough. lia.
  - pose proof (copyin_loop_spec root T1 T0 (copy_fuel (Z.of_nat (length src))) va
      (Z.of_nat (length src)) [] (set_k_mem (fun _ => m') s) (as_tree _ _ _ _ Ha') Hva) as Hc.
    unfold copied in Hc. rewrite Nat2Z.id in Hc. kcbn in Hc. rewrite Hb in Hc. apply Hc.
    intros _. apply copy_fuel_enough. lia.
  - intros v. apply (uaddr_frame _ _ _ T1 T0); [apply Ha|done].
Qed.

(** C8. copyout to a range with an unmapped byte (or one not mapped for the user)
    returns -1; what it has stored is a proper prefix of the source in the bytes before
    that one, and nothing else has changed. *)
Theorem copyout_fails root T1 T0 va src s :
  aspace (k_mem s) root T1 T0 -> 0 <= va -> ubytes (k_mem s) root va (length src) = None ->
  exists k m', (k < length src)%nat /\ copyout root va src s = Ret (-1) (set_k_mem (fun _ => m') s) /\
    ubytes m' root va k = Some (take k src) /\ aspace m' root T1 T0 /\
    (forall x, (forall i, 0 <= i < Z.of_nat k -> uaddr (k_mem s) root (va + i) ≠ Some x) ->
       ldb m' x = ldb (k_mem s) x).
Proof.
  intros Ha Hva Hmap.
  assert (Hn : ustore (k_mem s) root va src = None).
  { destruct (ustore (k_mem s) root va src) eqn:E; [|done].
    destruct (proj1 (ustore_is_Some _ _ T1 T0 va src Ha)) as [? E']; [by eexists|]. congruence. }
  pose proof (copyout_loop_spec root T1 T0 (copy_fuel (Z.of_nat (length src))) va src s Ha Hva) as Hc.
  unfold stored in Hc. rewrite Hn in Hc. destruct Hc as (k & m' & Hk & E & Hr).
  { intros _. apply copy_fuel_enough. lia. }
  destruct (ustore_spec _ _ _ _ _ _ _ Ha E) as (Hf & Hb & Hx).
  rewrite length_take in Hb, Hx. replace (k `min` length src)%nat with k in * by lia.
  exists k, m'. split_and!; [done|exact Hr|done|by eapply aspace_frame|done].
Qed.
Lemma uaddr_range m root va pa : uaddr m root va = Some pa -> 0 <= va < MAXVA.
Proof. unfold uaddr. case_bool_decide; [done|]. by cbn. Qed.

Lemma ubytes_range m root va b bs : ubytes m root va (length (b :: bs)) = Some (b :: bs) ->
  0 <= va < MAXVA /\ ubytes m root va 1 = Some [b] /\ ubytes m root (va + 1) (length bs) = Some bs.
Proof.
  cbn [ubytes length]. unfold ubyte. destruct (uaddr m root va) as [pa|] eqn:E; cbn; [|done].
  destruct (ubytes m root (va + 1) (length bs)) as [l|]; [|done]. intros [= -> ->].
  split; [by eapply uaddr_range|]. by split.
Qed.

Lemma u64_va va : 0 <= va < MAXVA -> u64 va = va.
Proof. intros Hv. unfold u64. apply Z.mod_small. change MAXVA with (2 ^ 39) in Hv. lia. Qed.

(** One byte from the user. *)
Lemma copyin_one root T1 T0 va b s :
  pt_inv (k_mem s) root T1 T0 -> 0 <= va -> ubytes (k_mem s) root va 1 = Some [b] ->
  copyin root va 1 s = Ret (0, [b]) s.
Proof.
  intros Hi Hva Hb. pose proof (copyin_loop_spec root T1 T0 (copy_fuel 1) va 1 [] s Hi Hva) as Hc.
  unfold copied in Hc. change (Z.to_nat 1) with 1%nat in Hc. rewrite Hb in Hc. apply Hc.
  intros _. apply copy_fuel_enough. lia.
Qed.

(** One byte to the user. *)
Lemma copyout_one root T1 T0 va b s :
  aspace (k_mem s) root T1 T0 -> 0 <= va -> is_Some (ubytes (k_mem s) root va 1) ->
  exists m', copyout root va [b] s = Ret 0 (set_k_mem (fun _ => m') s) /\
    ustore (k_mem s) root va [b] = Some m' /\ aspace m' root T1 T0.
Proof.
  intros Ha Hva Hb. apply (ustore_is_Some _ _ T1 T0 va [b] Ha) in Hb as [m' Hm].
  pose proof (copyout_loop_spec root T1 T0 (copy_fuel 1) va [b] s Ha Hva) as Hc.
  unfold stored in Hc. rewrite Hm in Hc. exists m'. split_and!; [|done|].
  - apply Hc. intros _. apply (copy_fuel_enough va 1). lia.
  - eapply aspace_frame; [done|]. by eapply ustore_spec.
Qed.

Lemma ubytes_frame m m' root T1 T0 va n :
  pt_inv m root T1 T0 -> tables_frame (tables root T1 T0) m m' ->
  is_Some (ubytes m root va n) -> is_Some (ubytes m' root va n).
Proof.
  intros Hi Hf. revert va. induction n as [|n IH]; intros va; cbn [ubytes]; [done|]. unfold ubyte.
  rewrite (uaddr_frame m m' root T1 T0) by done. destruct (uaddr m root va); cbn; [|by intros []].
  specialize (IH (va + 1)). destruct (ubytes m root (va + 1) n); [|by intros []].
  destruct IH as [l0 ->]; by eexists.
Qed.

(** ** walk with allocation, and mappages *)

(** A page table together with the free pages, none of which it uses. *)
Record vm_inv (s : kstate) (root : Z) (T1 T0 fl : list Z) : Prop := mkVmInv {
  vi_tree : pt_inv (k_mem s) root T1 T0;
  vi_free : free_inv s fl;
  vi_disj : forall p, p ∈ fl -> p ∉ tables root T1 T0;
  vi_hart : hart_ok (k_hart s);
  vi_lock : LkKmem ∉ h_locks (k_hart s) }.

(** Only memory and the free list differ. *)
Definition same_rest (s s' : kstate) : Prop :=
  exists m f, s' = set_k_mem (fun _ => m) (set_k_freelist (fun _ => f) s).

Lemma same_rest_refl s : same_rest s s.
Proof. by exists (k_mem s), (k_freelist s). Qed.
Lemma same_rest_trans s s1 s2 : same_rest s s1 -> same_rest s1 s2 -> same_rest s s2.
Proof. intros (m1 & f1 & ->) (m2 & f2 & ->). by exists m2, f2. Qed.
Lemma same_rest_hart s s' : same_rest s s' -> k_hart s' = k_hart s.
Proof. by intros (m & f & ->). Qed.
Lemma same_rest_mem s f : same_rest s (set_k_mem f s).
Proof. by exists (f (k_mem s)), (k_freelist s). Qed.

Lemma same_rest_set_mem s s' f : same_rest s s' -> same_rest s (set_k_mem f s').
Proof. intros Hs. eapply same_rest_trans; [done|apply same_rest_mem]. Qed.
Lemma same_rest_set_free s s' f : same_rest s s' -> same_rest s (set_k_freelist f s').
Proof. intros (m & f1 & ->). by exists m, (f f1). Qed.

(** Outside the pages [P] memory is the same. *)
Definition mem_frame (P : list Z) (m m' : gmap Z Z) : Prop :=
  forall x, ~ in_pages P x -> ldb m' x = ldb m x.

Lemma mem_frame_trans P m1 m2 m3 : mem_frame P m1 m2 -> mem_frame P m2 m3 -> mem_frame P m1 m3.
Proof. intros H1 H2 x Hx. by rewrite H2, H1. Qed.

Lemma mem_frame_Permutation P P' m m' : P ≡ₚ P' -> mem_frame P m m' -> mem_frame P' m m'.
Proof.
  intros HP H1 x Hx. apply H1. intros (p & Hp & Hr). apply Hx. exists p. by rewrite <- HP.
Qed.

(** Taking a page for a new table and linking it at entry [i] of table [pg]. *)
Lemma alloc_table {A} s pg i q fl (k : Z -> K A) (e : K A) :
  free_inv s (q :: fl) -> hart_ok (k_hart s) -> LkKmem ∉ h_locks (k_hart s) ->
  pg mod PGSIZE = 0 -> pg ∉ q :: fl -> 0 <= i < 512 ->
  exists s2,
    (let! p := kalloc in
     if p =? 0 then e
     else do! memset_k p 0 PGBYTES; do! st_pte (pg + 8 * i) (Z.lor (PA2PTE p) PTE_V); k p) s = k q s2 /\
    new_table (k_mem s) pg i q (k_mem s2) /\ free_inv s2 fl /\ same_rest s s2 /\ page_ok q /\ (q ∉ fl).
Proof.
  intros Hf Hh Hl Hpg Hne Hi. destruct (kalloc_cons s q fl Hf Hh Hl) as (Hr & Hf' & Hq & Hnot).
  run_ret Hr. destruct Hq as (Hqa & Hqr & Hqp).
  destruct (Z.eqb_spec q 0); [lia|]. unfold memset_k, st_pte. rewrite !bind_modify.
  eexists. split; [done|].
  assert (Hnt : new_table (k_mem s) pg i q
    (st64 (memset (memset (k_mem s) q 0 PGBYTES) q 0 PGBYTES) (pg + 8 * i) (Z.lor (PA2PTE q) PTE_V))).
  { apply new_table_store; [done|done|unfold PHYSTOP in Hqr; lia|set_solver|done| |].
    - apply memset_page_zero.
    - intros x Hx. by rewrite !memset_page_frame. }
  split_and!; [exact Hnt| |do 3 apply same_rest_set_mem; apply same_rest_set_free, same_rest_refl|exact (conj Hqa (conj Hqr Hqp))|done].
  destruct Hf' as (Hc & Hnd & Hok). split_and!; [|done|done]. kcbn. kcbn in Hc.
  eapply chain_page; [|done|exact Hpg|set_solver|].
  - eapply chain_page; [exact Hc|done|exact Hqa|done|]. apply memset_page_frame.
  - intros x Hx. rewrite ldb_st64_ne by (unfold PGSIZE in Hx; lia). done.
Qed.

(** What walk with allocation may have done to the page table: every leaf entry is what
    it was, and the pages of the tables and the free list are the same pages. *)
Record vm_grown (s s' : kstate) (root : Z) (T1 T0 fl T1' T0' fl' : list Z) : Prop := mkGrown {
  gr_inv : vm_inv s' root T1' T0' fl';
  gr_pages : tables root T1' T0' ++ fl' ≡ₚ tables root T1 T0 ++ fl;
  gr_frame : mem_frame (tables root T1 T0 ++ fl) (k_mem s) (k_mem s');
  gr_rest : same_rest s s' }.

Lemma grown_refl s root T1 T0 fl : vm_inv s root T1 T0 fl -> vm_grown s s root T1 T0 fl T1 T0 fl.
Proof. intros Hi. split; [done|done|done|apply same_rest_refl]. Qed.

Lemma grown_trans s s1 s2 root T1 T0 fl T1' T0' fl' T1'' T0'' fl'' :
  vm_grown s s1 root T1 T0 fl T1' T0' fl' -> vm_grown s1 s2 root T1' T0' fl' T1'' T0'' fl'' ->
  vm_grown s s2 root T1 T0 fl T1'' T0'' fl''.
Proof.
  intros [_ P1 F1 R1] [I2 P2 F2 R2]. split; [done|by rewrite P2| |by eapply same_rest_trans].
  eapply mem_frame_trans; [done|]. by eapply mem_frame_Permutation.
Qed.

Lemma vi_root_aligned s root T1 T0 fl p : vm_inv s root T1 T0 fl -> p ∈ tables root T1 T0 -> p mod PGSIZE = 0.
Proof. intros Hi. apply (pt_aligned _ _ _ _ _ (vi_tree _ _ _ _ _ Hi)). Qed.

Lemma new_table_frame m pg i q m' P :
  new_table m pg i q m' -> 0 <= i < 512 -> pg ∈ P -> q ∈ P -> mem_frame P m m'.
Proof.
  intros Hn Hi Hpg Hq x Hx. apply (nt_frame _ _ _ _ _ Hn).
  - intros Hr. apply Hx. by exists q.
  - intros Hr. apply Hx. exists pg. split; [done|]. unfold PGSIZE. lia.
Qed.
(** The step of walk that adds the second-level table of [va]. *)
Lemma grow_l2 s root T1 T0 q fl va s2 :
  vm_inv s root T1 T0 (q :: fl) -> child (k_mem s) root 2 va = None ->
  new_table (k_mem s) root (PX 2 va) q (k_mem s2) -> free_inv s2 fl -> same_rest s s2 ->
  vm_grown s s2 root T1 T0 (q :: fl) (q :: T1) T0 fl /\ child (k_mem s2) root 2 va = Some q /\
  (forall v, pte (k_mem s2) root v = pte (k_mem s) root v).
Proof.
  intros [Hi Hf Hd Hh Hl] Hc Hn Hf2 Hr.
  assert (Hq : q ∉ tables root T1 T0) by (apply Hd; left).
  assert (Hok : page_ok q) by (destruct Hf as (_ & _ & Hok); by inversion Hok).
  assert (Hqfl : q ∉ fl) by (destruct Hf as (_ & Hnd & _); by inversion Hnd).
  destruct (add_table2 _ _ _ _ _ _ _ Hi Hc Hq Hok Hn) as (Hi2 & Hc2 & Hp).
  split_and!; [|done|done]. split.
  - split; [done|done| |by rewrite (same_rest_hart _ _ Hr)|by rewrite (same_rest_hart _ _ Hr)].
    intros p Hp'. unfold tables. intros Hin. assert (p ∉ tables root T1 T0) as Hno by (apply Hd; by right).
    apply Hno. unfold tables. rewrite elem_of_cons, elem_of_app, elem_of_cons in Hin.
    destruct Hin as [->|[[->|?]|?]]; [left|by destruct Hqfl| |]; right; apply elem_of_app; auto.
  - unfold tables. cbn. solve_Permutation.
  - eapply new_table_frame; [done|by apply PX_range| |]; unfold tables; set_solver.
  - done.
Qed.

(** The step that adds the third-level table. *)
Lemma grow_l1 s root T1 T0 q fl va p1 s2 :
  vm_inv s root T1 T0 (q :: fl) -> child (k_mem s) root 2 va = Some p1 -> child (k_mem s) p1 1 va = None ->
  new_table (k_mem s) p1 (PX 1 va) q (k_mem s2) -> free_inv s2 fl -> same_rest s s2 ->
  vm_grown s s2 root T1 T0 (q :: fl) T1 (q :: T0) fl /\ leaf (k_mem s2) root va = Some (pte_addr q 0 va) /\
  (forall v, pte (k_mem s2) root v = pte (k_mem s) root v).
Proof.
  intros [Hi Hf Hd Hh Hl] Hc Hc1 Hn Hf2 Hr.
  assert (Hq : q ∉ tables root T1 T0) by (apply Hd; left).
  assert (Hok : page_ok q) by (destruct Hf as (_ & _ & Hok); by inversion Hok).
  assert (Hqfl : q ∉ fl) by (destruct Hf as (_ & Hnd & _); by inversion Hnd).
  destruct (add_table1 _ _ _ _ _ _ _ _ Hi Hc Hc1 Hq Hok Hn) as (Hi2 & Hc2 & Hc2' & Hp).
  assert (Hp1 : p1 ∈ T1).
  { destruct (child_Some _ _ _ _ _ Hc) as [V <-]. apply (pt_l2 _ _ _ _ Hi); [by apply PX_range|done]. }
  split_and!; [|unfold leaf; by rewrite Hc2, Hc2'|done]. split.
  - split; [done|done| |by rewrite (same_rest_hart _ _ Hr)|by rewrite (same_rest_hart _ _ Hr)].
    intros p Hp'. unfold tables. intros Hin. assert (p ∉ tables root T1 T0) as Hno by (apply Hd; by right).
    apply Hno. unfold tables. rewrite elem_of_cons, elem_of_app, elem_of_cons in Hin.
    destruct Hin as [->|[?|[->|?]]]; [left| |by destruct Hqfl|]; right; apply elem_of_app; auto.
  - unfold tables. cbn. solve_Permutation.
  - eapply new_table_frame; [done|by apply PX_range| |]; unfold tables; set_solver.
  - done.
Qed.

(** walk below an existing second-level table. *)
Lemma walk_alloc_l1 s root T1 T0 fl va p1 :
  vm_inv s root T1 T0 fl -> child (k_mem s) root 2 va = Some p1 ->
  exists r s' T1' T0' fl',
    (let! r := walk_levels [1] p1 va true in
     match r with None => ret 0 | Some pt => ret (pte_addr pt 0 va) end) s = Ret r s' /\
    vm_grown s s' root T1 T0 fl T1' T0' fl' /\
    (forall v, pte (k_mem s') root v = pte (k_mem s) root v) /\
    ((r = 0 /\ fl' = [] /\ fl = []) \/ (0 < r /\ leaf (k_mem s') root va = Some r)).
Proof.
  intros Hi Hc. cbn [walk_levels]. unfold ld_pte.
  rewrite bind_assoc, bind_gets. fold (valid (ld64 (k_mem s) (pte_addr p1 1 va))).
  assert (Hp1 : p1 ∈ T1).
  { destruct (child_Some _ _ _ _ _ Hc) as [V <-].
    apply (pt_l2 _ _ _ _ (vi_tree _ _ _ _ _ Hi)); [by apply PX_range|done]. }
  destruct (valid (ld64 (k_mem s) (pte_addr p1 1 va))) eqn:V.
  - assert (Hl : leaf (k_mem s) root va = Some (pte_addr (PTE2PA (ld64 (k_mem s) (pte_addr p1 1 va))) 0 va)).
    { unfold leaf. rewrite Hc. unfold child, entry. fold (pte_addr p1 1 va). by rewrite V. }
    eexists _, s, T1, T0, fl. split; [done|]. split; [by apply grown_refl|]. split; [done|].
    right. split; [eapply leaf_pos; [apply (vi_tree _ _ _ _ _ Hi)|done]|done].
  - assert (Hc1 : child (k_mem s) p1 1 va = None) by (unfold child, entry; fold (pte_addr p1 1 va); by rewrite V).
    cbn [negb]. destruct fl as [|q fl].
    + rewrite bind_assoc, (bind_Ret _ _ _ _ _ (kalloc_empty s (vi_free _ _ _ _ _ Hi) (vi_hart _ _ _ _ _ Hi) (vi_lock _ _ _ _ _ Hi))).
      exists 0, s, T1, T0, []. split; [done|]. split; [by apply grown_refl|]. split; [done|]. by left.
    + assert (Hp1t : p1 ∈ tables root T1 T0) by (unfold tables; set_solver).
      destruct (alloc_table s p1 (PX 1 va) q fl (fun p => ret (Some p)) (ret None)
        (vi_free _ _ _ _ _ Hi) (vi_hart _ _ _ _ _ Hi) (vi_lock _ _ _ _ _ Hi)) as (s2 & Hr & Hn & Hf2 & Hsr & _ & _).
      { by eapply vi_root_aligned. }
      { intros Hin. by apply (vi_disj _ _ _ _ _ Hi p1). }
      { by apply PX_range. }
      destruct (grow_l1 _ _ _ _ _ _ _ _ _ Hi Hc Hc1 Hn Hf2 Hsr) as (Hg & Hl & Hp).
      run_ret Hr. eexists _, s2, T1, (q :: T0), fl. split; [done|].
      split; [done|]. split; [done|]. right. split; [|done].
      eapply leaf_pos; [apply (vi_tree _ _ _ _ _ (gr_inv _ _ _ _ _ _ _ _ _ Hg))|done].
Qed.

(** walk with allocation finds or makes the leaf entry of [va], or runs out of pages;
    no mapping changes. *)
Lemma walk_alloc s root T1 T0 fl va :
  vm_inv s root T1 T0 fl -> 0 <= va < MAXVA ->
  exists r s' T1' T0' fl', walk root va true s = Ret r s' /\
    vm_grown s s' root T1 T0 fl T1' T0' fl' /\
    (forall v, pte (k_mem s') root v = pte (k_mem s) root v) /\
    ((r = 0 /\ fl' = [] /\ (length fl < 2)%nat) \/ (0 < r /\ leaf (k_mem s') root va = Some r)).
Proof.
  intros Hi Hva. unfold walk. destruct (Z.leb_spec MAXVA va); [lia|].
  change (walk_levels [2; 1] root va true) with
    (let! v := ld_pte (pte_addr root 2 va) in
     if valid v then walk_levels [1] (PTE2PA v) va true
     else let! pg := kalloc in
       if pg =? 0 then ret None
       else do! memset_k pg 0 PGBYTES; do! st_pte (pte_addr root 2 va) (Z.lor (PA2PTE pg) PTE_V);
         walk_levels [1] pg va true).
  unfold ld_pte. rewrite bind_assoc, bind_gets.
  destruct (valid (ld64 (k_mem s) (pte_addr root 2 va))) eqn:V.
  - destruct (walk_alloc_l1 s root T1 T0 fl va (PTE2PA (ld64 (k_mem s) (pte_addr root 2 va))) Hi)
      as (r & s' & T1' & T0' & fl' & E & Hg & Hp & Hr).
    { unfold child, entry. fold (pte_addr root 2 va). by rewrite V. }
    exists r, s', T1', T0', fl'. split_and!; [done|done|done|].
    destruct Hr as [(-> & -> & ->)|?]; [left; split_and!; (done || cbn; lia)|by right].
  - assert (Hc : child (k_mem s) root 2 va = None) by (unfold child, entry; fold (pte_addr root 2 va); by rewrite V).
    destruct fl as [|q fl].
    + rewrite bind_assoc, (bind_Ret _ _ _ _ _ (kalloc_empty s (vi_free _ _ _ _ _ Hi) (vi_hart _ _ _ _ _ Hi) (vi_lock _ _ _ _ _ Hi))).
      exists 0, s, T1, T0, []. split; [done|]. split; [by apply grown_refl|]. split; [done|]. left. split_and!; (done || cbn; lia).
    + destruct (alloc_table s root (PX 2 va) q fl (fun p => walk_levels [1] p va true) (ret None)
        (vi_free _ _ _ _ _ Hi) (vi_hart _ _ _ _ _ Hi) (vi_lock _ _ _ _ _ Hi)) as (s2 & Hr & Hn & Hf2 & Hsr & _ & _).
      { eapply vi_root_aligned; [done|left]. }
      { intros Hin. apply (vi_disj _ _ _ _ _ Hi root); [done|left]. }
      { by apply PX_range. }
      destruct (grow_l2 _ _ _ _ _ _ _ _ Hi Hc Hn Hf2 Hsr) as (Hg & Hc2 & Hp).
      destruct (walk_alloc_l1 s2 root (q :: T1) T0 fl va q (gr_inv _ _ _ _ _ _ _ _ _ Hg) Hc2)
        as (r & s' & T1' & T0' & fl' & E & Hg' & Hp' & Hr').
      exists r, s', T1', T0', fl'. split_and!.
      * rewrite <- E. apply bind_cong. exact Hr.
      * by eapply grown_trans.
      * intros v. by rewrite Hp', Hp.
      * destruct Hr' as [(-> & -> & ->)|?]; [left; split_and!; (done || cbn; lia)|by right].
Qed.
(** Storing a leaf entry. *)
Lemma store_leaf s root T1 T0 fl va a v :
  vm_inv s root T1 T0 fl -> 0 <= va < MAXVA -> leaf (k_mem s) root va = Some a -> 0 <= v < 2 ^ 64 ->
  let s' := set_k_mem (fun m => st64 m a v) s in
  vm_grown s s' root T1 T0 fl T1 T0 fl /\
  (forall va', 0 <= va' < MAXVA ->
     pte (k_mem s') root va' = if decide (same_page va va') then v else pte (k_mem s) root va').
Proof.
  intros [Hi Hf Hd Hh Hl] Hva Ha Hv s'.
  destruct (pte_store _ _ _ _ _ _ _ Hi Hva Ha Hv) as (Hi' & _ & Hp).
  destruct (leaf_in_T0 _ _ _ _ _ _ Hi Ha) as (p & HpT & H1 & H2).
  assert (Hpt : p ∈ tables root T1 T0) by (unfold tables; set_solver).
  split; [|done]. split; [|done| |apply same_rest_mem].
  - split; [done| |done|done|done]. destruct Hf as (Hc & Hnd & Hok). split_and!; [|done|done].
    kcbn. eapply chain_page; [exact Hc|done|by eapply pt_aligned| |].
    + intros Hin. by apply (Hd p).
    + intros x Hx. apply ldb_st64_ne. lia.
  - intros x Hx. kcbn. apply ldb_st64_ne. destruct (decide (a <= x < a + 8)); [|lia].
    exfalso. apply Hx. exists p. split; [apply elem_of_app; by left|lia].
Qed.

Definition map_entry (pa perm : Z) : Z := Z.lor (Z.lor (PA2PTE pa) perm) PTE_V.

(** [m'] is [m] with the [n] pages from [a] on mapped to the pages from [pa] on. *)
Definition mapped_range (m m' : gmap Z Z) (root a n pa perm : Z) : Prop :=
  forall v, 0 <= v < MAXVA ->
    pte m' root v = if decide (a <= v < a + n * PGSIZE)
                    then map_entry (pa + (PGROUNDDOWN v - a)) perm else pte m root v.

Lemma PGROUNDDOWN_first a v : a mod PGSIZE = 0 -> a <= v < a + PGSIZE -> PGROUNDDOWN v = a.
Proof.
  intros Ha Hv. rewrite PGROUNDDOWN_mod.
  destruct (same_page_mod a (v - a)) as [_ E]; [lia|lia|]. replace (a + (v - a)) with v in E by lia. lia.
Qed.

Lemma same_page_aligned a v : a mod PGSIZE = 0 -> same_page a v <-> a <= v < a + PGSIZE.
Proof.
  intros Ha. unfold same_page. pose proof (Z.div_mod a PGSIZE ltac:(done)).
  pose proof (Z.div_mod v PGSIZE ltac:(done)). pose proof (Z.mod_pos_bound v PGSIZE eq_refl).
  unfold PGSIZE in *. split; intros; lia.
Qed.

Lemma mapped_range_cons m m1 m' root a n pa perm :
  a mod PGSIZE = 0 -> 0 <= n ->
  (forall v, 0 <= v < MAXVA -> pte m1 root v = if decide (same_page a v) then map_entry pa perm else pte m root v) ->
  mapped_range m1 m' root (a + PGSIZE) n (pa + PGSIZE) perm ->
  mapped_range m m' root a (n + 1) pa perm.
Proof.
  intros Ha Hn H1 H2 v Hv. rewrite (H2 v Hv). rewrite (H1 v Hv).
  destruct (decide (same_page a v)) as [E|E]; rewrite same_page_aligned in E by done.
  - rewrite decide_False by lia. rewrite decide_True by (unfold PGSIZE in *; nia).
    rewrite (PGROUNDDOWN_first a v) by done. f_equal. lia.
  - destruct (decide (a + PGSIZE <= v < a + PGSIZE + n * PGSIZE)).
    + rewrite decide_True by (unfold PGSIZE in *; lia). f_equal. lia.
    + rewrite decide_False by (unfold PGSIZE in *; lia). done.
Qed.

(** One iteration of the loop of mappages. *)
Lemma mappages_step s root T1 T0 fl fuel a last pa perm :
  vm_inv s root T1 T0 fl -> 0 <= a < MAXVA -> 0 <= pa < 2 ^ 56 -> 0 <= perm < 1024 ->
  valid (pte (k_mem s) root a) = false ->
  (exists s' T1' T0', mappages_loop (S fuel) root a last pa perm s = Ret (-1) s' /\
     vm_grown s s' root T1 T0 fl T1' T0' [] /\ (forall v, pte (k_mem s') root v = pte (k_mem s) root v)) \/
  (exists s' T1' T0' fl', mappages_loop (S fuel) root a last pa perm s =
       (if a =? last then ret 0
        else mappages_loop fuel root (u64 (a + PGSIZE)) last (u64 (pa + PGSIZE)) perm) s' /\
     vm_grown s s' root T1 T0 fl T1' T0' fl' /\
     (forall v, 0 <= v < MAXVA ->
        pte (k_mem s') root v = if decide (same_page a v) then map_entry pa perm else pte (k_mem s) root v)).
Proof.
  intros Hi Ha Hpa Hperm Hv. cbn [mappages_loop].
  destruct (walk_alloc s root T1 T0 fl a Hi Ha) as (r & s1 & T1a & T0a & fla & Hw & Hg & Hp & Hr).
  run_ret Hw. destruct Hr as [(-> & -> & _)|[Hr Hl]].
  { left. by exists s1, T1a, T0a. }
  right. destruct (Z.eqb_spec r 0); [lia|]. unfold ld_pte. rewrite bind_gets.
  assert (E : ld64 (k_mem s1) r = pte (k_mem s) root a) by (rewrite <- Hp; unfold pte; by rewrite Hl).
  fold (valid (ld64 (k_mem s1) r)). rewrite E, Hv. unfold st_pte. rewrite bind_modify.
  destruct (leaf_entry pa perm Hpa Hperm) as (_ & _ & He & _).
  destruct (store_leaf s1 root T1a T0a fla a r (map_entry pa perm) (gr_inv _ _ _ _ _ _ _ _ _ Hg) Ha Hl He) as [Hg' Hp'].
  eexists _, T1a, T0a, fla. split; [done|]. split; [by eapply grown_trans|].
  intros v Hvr. rewrite Hp' by done. by rewrite Hp.
Qed.

Lemma mappages_loop_spec root perm n : forall fuel a pa s T1 T0 fl,
  vm_inv s root T1 T0 fl -> a mod PGSIZE = 0 ->
  0 <= a -> 0 <= pa -> 0 <= perm < 1024 ->
  a + Z.of_nat (S n) * PGSIZE <= MAXVA -> pa + Z.of_nat (S n) * PGSIZE <= 2 ^ 56 -> (n < fuel)%nat ->
  (forall v, a <= v < a + Z.of_nat (S n) * PGSIZE -> valid (pte (k_mem s) root v) = false) ->
  exists r k s' T1' T0' fl',
    mappages_loop fuel root a (a + Z.of_nat n * PGSIZE) pa perm s = Ret r s' /\
    vm_grown s s' root T1 T0 fl T1' T0' fl' /\
    mapped_range (k_mem s) (k_mem s') root a k pa perm /\
    ((r = 0 /\ k = Z.of_nat (S n)) \/ (r = -1 /\ 0 <= k <= Z.of_nat n /\ fl' = [])).
Proof.
  induction n as [n IH] using lt_wf_ind. intros fuel a pa s T1 T0 fl Hi Ha Ha0 Hpa0 Hperm Hmax Hpmax Hfuel Hfree.
  destruct fuel as [|fuel]; [lia|].
  destruct (mappages_step s root T1 T0 fl fuel a (a + Z.of_nat n * PGSIZE) pa perm Hi) as
    [(s1 & T1a & T0a & E & Hg & Hp)|(s1 & T1a & T0a & fla & E & Hg & Hp)];
    [unfold PGSIZE in *; lia|unfold PGSIZE in *; lia|done|apply Hfree; unfold PGSIZE; lia| |].
  { exists (-1), 0, s1, T1a, T0a, []. split_and!; [done|done| |right; split_and!; lia || done].
    intros v Hv. rewrite decide_False by lia. apply Hp. }
  rewrite E. destruct (Z.eqb_spec a (a + Z.of_nat n * PGSIZE)) as [En|En].
  { assert (n = 0%nat) as -> by (unfold PGSIZE in En; lia).
    exists 0, 1, s1, T1a, T0a, fla. split_and!; [done|done| |by left].
    eapply (mapped_range_cons _ (k_mem s1) _ _ _ 0); [done|lia|exact Hp|].
    intros v Hv. by rewrite decide_False by lia. }
  destruct n as [|n]; [lia|].
  assert (u64 (a + PGSIZE) = a + PGSIZE) as -> by (unfold u64; apply Z.mod_small; change MAXVA with (2 ^ 39) in *; unfold PGSIZE in *; lia).
  assert (u64 (pa + PGSIZE) = pa + PGSIZE) as -> by (unfold u64; apply Z.mod_small; unfold PGSIZE in *; lia).
  destruct (IH n ltac:(lia) fuel (a + PGSIZE) (pa + PGSIZE) s1 T1a T0a fla (gr_inv _ _ _ _ _ _ _ _ _ Hg))
    as (r & k & s' & T1' & T0' & fl' & E' & Hg' & Hm' & Hr');
    [by rewrite <- (Z.mul_1_l PGSIZE) at 1; rewrite Z.mod_add|unfold PGSIZE in *; lia..| |].
  { intros v Hv. unfold PGSIZE in *. rewrite Hp by lia. rewrite decide_False; [apply Hfree; lia|].
    rewrite same_page_aligned by done. unfold PGSIZE. lia. }
  exists r, (k + 1), s', T1', T0', fl'. split_and!.
  - rewrite <- E'. f_equal. unfold PGSIZE. lia.
  - by eapply grown_trans.
  - eapply mapped_range_cons; [done|lia|exact Hp|done].
  - destruct Hr' as [[-> ->]|(-> & Hk & ->)]; [left; split; lia|right; split_and!; lia || done].
Qed.

(** C6. mappages on a well-formed page table, for a range of pages none of which is
    mapped: it never panics or faults.  It returns 0 having mapped exactly the pages
    of the range, in order, to the consecutive physical pages from [pa] on with the
    given permissions, or -1 when the free list ran out, having mapped only the
    first [k] of them.  No other mapping changes; the tables still form a tree; the
    pages of the tables and of the free list are together the same pages as before,
    and memory outside them is untouched. *)
Theorem mappages_correct s root T1 T0 fl va size pa perm :
  vm_inv s root T1 T0 fl -> 0 <= va -> 0 < size -> va + size <= MAXVA ->
  0 <= pa -> pa + (size + 2 * PGSIZE) <= 2 ^ 56 -> 0 <= perm < 1024 ->
  let a := PGROUNDDOWN va in
  let n := (PGROUNDDOWN (va + size - 1) - a) / PGSIZE + 1 in
  (forall v, a <= v < a + n * PGSIZE -> valid (pte (k_mem s) root v) = false) ->
  exists r k s' T1' T0' fl',
    mappages root va size pa perm s = Ret r s' /\
    ((r = 0 /\ k = n) \/ (r = -1 /\ 0 <= k < n /\ fl' = [])) /\
    (forall v, 0 <= v < MAXVA -> pte (k_mem s') root v =
       if decide (a <= v < a + k * PGSIZE) then map_entry (pa + (PGROUNDDOWN v - a)) perm
       else pte (k_mem s) root v) /\
    vm_inv s' root T1' T0' fl' /\
    tables root T1' T0' ++ fl' ≡ₚ tables root T1 T0 ++ fl /\
    mem_frame (tables root T1 T0 ++ fl) (k_mem s) (k_mem s') /\ same_rest s s'.
Proof.
  intros Hi Hva Hsz Hmax Hpa Hpmax Hperm a n Hfree. unfold mappages.
  destruct (Z.eqb_spec size 0); [lia|].
  destruct (PGROUNDDOWN_spec va) as [Ha Hr]. destruct (PGROUNDDOWN_spec (va + size - 1)) as [Hb Hr2].
  assert (u64 (va + size - 1) = va + size - 1) as ->.
  { unfold u64. apply Z.mod_small. change MAXVA with (2 ^ 39) in *. lia. }
  cbv zeta. fold a. fold a in Ha, Hr.
  assert (Hn : 0 <= n - 1 /\ PGROUNDDOWN (va + size - 1) = a + (n - 1) * PGSIZE).
  { unfold n. pose proof (Z.div_mod a PGSIZE ltac:(done)).
    pose proof (Z.div_mod (PGROUNDDOWN (va + size - 1)) PGSIZE ltac:(done)).
    pose proof (Z.div_mod (PGROUNDDOWN (va + size - 1) - a) PGSIZE ltac:(done)).
    pose proof (Z.mod_pos_bound (PGROUNDDOWN (va + size - 1) - a) PGSIZE eq_refl).
    unfold PGSIZE in *. lia. }
  assert (Ha0 : 0 <= a).
  { unfold a. rewrite PGROUNDDOWN_mod. pose proof (Z.mod_le va PGSIZE Hva eq_refl). lia. }
  destruct Hn as [Hn0 Hn].
  assert (Hend : a + n * PGSIZE <= MAXVA).
  { pose proof (Z.div_mod (PGROUNDDOWN (va + size - 1)) PGSIZE ltac:(done)).
    change MAXVA with (2 ^ 39) in *. unfold PGSIZE in *. lia. }
  rewrite Hn.
  destruct (mappages_loop_spec root perm (Z.to_nat (n - 1)) (mappages_fuel a (a + (n - 1) * PGSIZE)) a pa s T1 T0 fl)
    as (r & k & s' & T1' & T0' & fl' & E & [G1 G2 G3 G4] & Hm & Hres); try done.
  { unfold PGSIZE in *. lia. }
  { unfold PGSIZE in *. lia. }
  { unfold mappages_fuel. apply Nat.lt_succ_r.
    destruct (Z.leb_spec a (a + (n - 1) * PGSIZE)); [|unfold PGSIZE in *; lia].
    replace (a + (n - 1) * PGSIZE - a) with ((n - 1) * PGSIZE) by lia. by rewrite Z.div_mul. }
  { intros v Hv. apply Hfree. unfold PGSIZE in *. lia. }
  rewrite Z2Nat.id in E by lia.
  exists r, k, s', T1', T0', fl'. split_and!; try done.
  destruct Hres as [[-> ->]|(-> & Hk & ->)]; [left; split; lia|right; split_and!; lia || done].
Qed.
End VmSpec.

(** ** Instances *)
Section VmExamples.
#[local] Instance vm_linker : Linker := {|
  kend := PHYSTOP - 64 * PGSIZE; etext := 0x80008000; trampoline := 0x80007000;
  addr_forkret := 0x80001000; addr_usertrap := 0x80001100; addr_kernelvec := 0x80001200;
  addr_uservec := 0x80007000; addr_userret := 0x80007100;
|}.

Lemma entry_zero m p i : page_zero m p -> 0 <= i < 512 -> entry m p i = 0.
Proof.
  intros Hz Hi. unfold entry. transitivity (ld64 ∅ 0); [|by vm_compute]. apply ld64_ext. intros k Hk.
  replace (p + 8 * i + k) with (p + (8 * i + k)) by lia. rewrite Hz by (unfold PGSIZE; lia). by vm_compute.
Qed.

(** A zeroed page is an empty page table. *)
Lemma pt_inv_empty m root : page_ok root -> page_zero m root -> pt_inv m root [] [] /\ (forall v, pte m root v = 0).
Proof.
  intros Hok Hz. split.
  - split.
    + apply NoDup_singleton.
    + by constructor.
    + intros i Hi. by rewrite entry_zero.
    + intros p i Hp. by apply not_elem_of_nil in Hp.
    + intros i j Hi Hj. by rewrite !entry_zero.
    + intros p q i j Hp. by apply not_elem_of_nil in Hp.
  - intros v. unfold pte, leaf, child. by rewrite entry_zero by (done || by apply PX_range).
Qed.

(** A page table with a single mapped page outside its tables is a user address space. *)
Lemma aspace_one m root T1 T0 a pa perm :
  pt_inv m root T1 T0 -> a mod PGSIZE = 0 -> page_ok pa -> pa ∉ tables root T1 T0 -> 0 <= perm < 1024 ->
  (forall v, 0 <= v < MAXVA -> pte m root v = if decide (a <= v < a + PGSIZE) then map_entry pa perm else 0) ->
  aspace m root T1 T0.
Proof.
  intros Hi Ha (Hpm & Hpr & Hp0) Hno Hperm Hp.
  assert (Hu : forall va x, uaddr m root va = Some x -> a <= va < a + PGSIZE /\ x = pa + (va - a)).
  { intros va x. unfold uaddr. case_bool_decide as Hr; [|done]. rewrite (Hp va Hr). cbn [andb].
    destruct (decide _) as [Hva|]; [|done].
    destruct (leaf_entry pa perm) as (_ & E & _); [unfold PHYSTOP in Hpr; lia|done|]. fold (map_entry pa perm) in E.
    rewrite E. destruct (user_entry_ok _); [|done]. intros [= <-]. split; [done|].
    destruct (same_page_mod a (va - a)) as [_ Em]; [lia|lia|]. replace (a + (va - a)) with va in Em by lia.
    pose proof (Z.div_mod pa PGSIZE ltac:(done)). unfold PGSIZE in *. lia. }
  split; [done| |].
  - intros va x E (p & Hpt & Hx). destruct (Hu va x E) as [Hva ->].
    assert (p ≠ pa) by (by intros ->).
    apply (page_other p pa (pa + (va - a))); [by eapply pt_aligned|done|done|done|lia].
  - intros va va' x E E'. destruct (Hu _ _ E) as [_ ->]. destruct (Hu _ _ E') as [_ ?]. lia.
Qed.

Definition pg (k : Z) : Z := PHYSTOP - (k + 1) * PGSIZE.
Definition test_vm : kstate :=
  set_k_freelist (fun _ => pg 1)
    (set_k_mem (fun _ => st64 (st64 (st64 ∅ (pg 1) (pg 2)) (pg 2) (pg 3)) (pg 3) 0) boot_state).

Lemma pg_ok k : 0 <= k < 8 -> page_ok (pg k).
Proof.
  intros Hk. assert (k = 0 \/ k = 1 \/ k = 2 \/ k = 3 \/ k = 4 \/ k = 5 \/ k = 6 \/ k = 7) as E by lia.
  repeat destruct E as [->|E]; try subst k; by vm_compute.
Qed.

Lemma test_vm_inv : vm_inv test_vm (pg 0) [] [] [pg 1; pg 2; pg 3] /\ forall v, pte (k_mem test_vm) (pg 0) v = 0.
Proof.
  assert (Hz : page_zero (k_mem test_vm) (pg 0)).
  { intros i Hi. unfold test_vm, pg. kcbn. rewrite !ldb_st64_ne; [done|unfold PGSIZE in *; lia..]. }
  destruct (pt_inv_empty (k_mem test_vm) (pg 0) (pg_ok 0 ltac:(lia)) Hz) as [Hi Hp].
  split; [|done]. split; [done| | | |].
  - split_and!.
    + vm_compute. done.
    + vm_compute. repeat constructor; set_solver.
    + repeat constructor; apply pg_ok; lia.
  - intros p Hp'. unfold tables. vm_compute in Hp'. vm_compute. set_solver.
  - apply boot_hart_ok.
  - done.
Qed.
Definition user_rw : Z := Z.lor (Z.lor PTE_R PTE_W) PTE_U.

Lemma user_rw_ok : 0 <= user_rw < 1024.
Proof. by vm_compute. Qed.

Lemma test_vm_unmapped v : valid (pte (k_mem test_vm) (pg 0) v) = false.
Proof. by rewrite (proj2 test_vm_inv). Qed.

Lemma mappages_correct_witness :
  exists r k s' T1' T0' fl',
    mappages (pg 0) 0 PGSIZE (pg 5) user_rw test_vm = Ret r s' /\
    ((r = 0 /\ k = 1) \/ (r = -1 /\ 0 <= k < 1 /\ fl' = [])) /\
    (forall v, 0 <= v < MAXVA -> pte (k_mem s') (pg 0) v =
       if decide (0 <= v < 0 + k * PGSIZE) then map_entry (pg 5 + (PGROUNDDOWN v - 0)) user_rw
       else pte (k_mem test_vm) (pg 0) v) /\
    vm_inv s' (pg 0) T1' T0' fl' /\
    tables (pg 0) T1' T0' ++ fl' ≡ₚ tables (pg 0) [] [] ++ [pg 1; pg 2; pg 3] /\
    mem_frame (tables (pg 0) [] [] ++ [pg 1; pg 2; pg 3]) (k_mem test_vm) (k_mem s') /\ same_rest test_vm s'.
Proof.
  apply (mappages_correct test_vm (pg 0) [] [] [pg 1; pg 2; pg 3] 0 PGSIZE (pg 5) user_rw).
  - apply test_vm_inv.
  - lia.
  - by vm_compute.
  - by vm_compute.
  - by vm_compute.
  - by vm_compute.
  - by vm_compute.
  - intros v _. apply test_vm_unmapped.
Defined.

(** The state after mapping one user page at address 0. *)
Definition test_mapped : kstate := final (mappages (pg 0) 0 PGSIZE (pg 5) user_rw test_vm) test_vm.

Lemma test_mapped_space : exists T1 T0, aspace (k_mem test_mapped) (pg 0) T1 T0 /\ same_rest boot_state test_mapped.
Proof.
  destruct (mappages_loop_spec (pg 0) user_rw 0 1 0 (pg 5) test_vm [] [] [pg 1; pg 2; pg 3])
    as (r & k & s' & T1' & T0' & fl' & E & [G1 G2 _ G4] & Hm & Hr);
    [apply test_vm_inv|done|lia|by vm_compute|by vm_compute|by vm_compute|by vm_compute|lia|
     intros v _; apply test_vm_unmapped|].
  assert (Er : result (mappages_loop 1 (pg 0) 0 0 (pg 5) user_rw test_vm) = Some 0) by (vm_compute; reflexivity).
  change (0 + Z.of_nat 0 * PGSIZE) with 0 in E. rewrite E in Er. cbn in Er. injection Er as ->.
  destruct Hr as [[_ ->]|(? & _)]; [|done].
  assert (Es : test_mapped = s').
  { unfold test_mapped. change (mappages (pg 0) 0 PGSIZE (pg 5) user_rw) with (mappages_loop 1 (pg 0) 0 0 (pg 5) user_rw).
    by rewrite E. }
  rewrite Es. exists T1', T0'. split.
  2:{ eapply same_rest_trans; [|exact G4]. apply same_rest_set_free, same_rest_set_mem, same_rest_refl. }
  apply (aspace_one _ _ _ _ 0 (pg 5) user_rw).
  - apply G1.
  - reflexivity.
  - apply pg_ok. lia.
  - intros Hin. assert (Hin' : pg 5 ∈ tables (pg 0) T1' T0' ++ fl') by (apply elem_of_app; by left).
    rewrite G2 in Hin'. revert Hin'. apply (bool_decide_unpack (pg 5 ∉ _)). by vm_compute.
  - exact user_rw_ok.
  - intros v Hv. rewrite (Hm v Hv). change (Z.of_nat 1 * PGSIZE) with PGSIZE. destruct (decide _) as [Hr|]; [|apply test_vm_inv].
    rewrite (PGROUNDDOWN_first 0 v); [|reflexivity|lia]. rewrite Z.add_0_r. reflexivity.
Qed.

Definition hello : list Z := [104; 105; 0].

Lemma copyout_copyin_witness :
  exists T1 T0 m', copyout (pg 0) 4000 hello test_mapped = Ret 0 (set_k_mem (fun _ => m') test_mapped) /\
    aspace m' (pg 0) T1 T0 /\
    copyin (pg 0) 4000 3 (set_k_mem (fun _ => m') test_mapped)
      = Ret (0, hello) (set_k_mem (fun _ => m') test_mapped) /\
    (forall v, uaddr m' (pg 0) v = uaddr (k_mem test_mapped) (pg 0) v) /\
    (forall x, (forall i, 0 <= i < 3 -> uaddr (k_mem test_mapped) (pg 0) (4000 + i) ≠ Some x) ->
       ldb m' x = ldb (k_mem test_mapped) x).
Proof.
  destruct test_mapped_space as (T1 & T0 & Ha & _). exists T1, T0.
  apply (copyout_copyin (pg 0) T1 T0 4000 hello test_mapped Ha); [lia|].
  assert (E : ubytes (k_mem test_mapped) (pg 0) 4000 (length hello) = Some [0; 0; 0]) by (vm_compute; reflexivity).
  by rewrite E.
Defined.

Lemma copyout_fails_witness :
  exists T1 T0 k m', (k < 3)%nat /\ copyout (pg 0) 4095 hello test_mapped = Ret (-1) (set_k_mem (fun _ => m') test_mapped) /\
    ubytes m' (pg 0) 4095 k = Some (take k hello) /\ aspace m' (pg 0) T1 T0 /\
    (forall x, (forall i, 0 <= i < Z.of_nat k -> uaddr (k_mem test_mapped) (pg 0) (4095 + i) ≠ Some x) ->
       ldb m' x = ldb (k_mem test_mapped) x).
Proof.
  destruct test_mapped_space as (T1 & T0 & Ha & _). exists T1, T0.
  apply (copyout_fails (pg 0) T1 T0 4095 hello test_mapped Ha); [lia|].
  vm_compute. reflexivity.
Defined.

Lemma copyin_correct_witness : copyin (pg 0) 4090 6 test_mapped = Ret (0, [0; 0; 0; 0; 0; 0]) test_mapped.
Proof.
  destruct test_mapped_space as (T1 & T0 & Ha & _).
  pose proof (copyin_correct (pg 0) T1 T0 4090 6 test_mapped (as_tree _ _ _ _ Ha) ltac:(lia) ltac:(lia)) as Hc.
  assert (E : ubytes (k_mem test_mapped) (pg 0) 4090 (Z.to_nat 6) = Some [0; 0; 0; 0; 0; 0]) by (vm_compute; reflexivity).
  rewrite E in Hc. exact Hc.
Defined.

Lemma copyinstr_correct_witness : copyinstr (pg 0) 4095 8 test_mapped = Ret (0, [0]) test_mapped.
Proof.
  destruct test_mapped_space as (T1 & T0 & Ha & _).
  pose proof (copyinstr_correct (pg 0) T1 T0 4095 8 test_mapped (as_tree _ _ _ _ Ha) ltac:(lia) ltac:(lia)) as Hc.
  assert (E : ustring (k_mem test_mapped) (pg 0) 4095 (Z.to_nat 8) = Some [0]) by (vm_compute; reflexivity).
  rewrite E in Hc. exact Hc.
Defined.
End VmExamples.
