(* ===== verification/Bio.v ===== *)
(** * The buffer cache (kernel/bio.c)

    NBUF buffers and the sentinel [head] linked in a circular doubly-linked list,
    and the per-buffer sleep locks.  [k_bcache] lists the NBUF buffers followed by
    the sentinel, so a buffer pointer is an index and index NBUF is [&bcache.head]. *)

From S2P Require Import Prelude Params Machine Spinlock Sched CString.

(** ** The disk below the cache

    [virtio_disk_rw] as the rest of the kernel sees it: a synchronous transfer of
    one 1024-byte logical block, each completed write recorded in order. *)
Definition zero_block : list Z := replicate BSIZE 0.

Definition disk_read (d : vdisk) (b : Z) : list Z := default zero_block (d_image d !! b).

Definition disk_write (b : Z) (data : list Z) (d : vdisk) : vdisk :=
  mkDisk (<[b := data]> (d_image d)) (d_writes d ++ [(b, data)]).

(** virtio_disk_rw(blockno, data, write); returns the contents of [data] after it. *)
Definition virtio_disk_rw (blockno : Z) (data : list Z) (write : bool) : K (list Z) :=
  if Z.land blockno 0x1fffffffffffffff =? 0x1fffffffffffffff
  then panic "virtio_disk_rw: sector overflow"
  else if write then
    do! modify (set_k_disk (disk_write blockno data));
    ret data
  else gets (fun s => disk_read (k_disk s) blockno).

(** ** Access to buffers and sleep locks *)
Definition get_buf (i : nat) : K buf :=
  fun s => match k_bcache s !! i with Some b => Ret b s | None => Fault "buf pointer" s end.
Definition upd_buf (i : nat) (f : buf -> buf) : K unit :=
  modify (set_k_bcache (alter f i)).

(** The sleep lock embedded in a buffer or in an in-memory inode. *)
Definition sl_of (l : slock) (s : kstate) : option sleeplock :=
  match l with
  | SlBuf i => b_lock <$> k_bcache s !! i
  | SlInode i => i_lock <$> k_icache s !! i
  end.
Definition put_sl (l : slock) (v : sleeplock) : kstate -> kstate :=
  match l with
  | SlBuf i => set_k_bcache (alter (set_b_lock (fun _ => v)) i)
  | SlInode i => set_k_icache (alter (set_i_lock (fun _ => v)) i)
  end.
Definition get_sleeplock (l : slock) : K sleeplock :=
  fun s => match sl_of l s with Some v => Ret v s | None => Fault "sleep lock" s end.
Definition set_sleeplock (l : slock) (v : sleeplock) : K unit := modify (put_sl l v).

(** ** Sleep locks *)
Definition initsleeplock (l : slock) : K unit :=
  do! initlock (LkSleep l);
  set_sleeplock l (mkSleeplock false 0).

(** acquiresleep: if the lock is taken the process sleeps on it, and goes back to
    the test when it is woken. *)
Definition acquiresleep_loop (l : slock) : K unit :=
  let! sl := get_sleeplock l in
  if sl_locked sl then sleep (ChSleeplock l) (LkSleep l)
  else
    let! p := curproc in
    let! pr := get_proc p in
    do! set_sleeplock l (mkSleeplock true (u32 (p_pid pr)));
    release (LkSleep l).

Definition acquiresleep (l : slock) : K unit :=
  do! acquire (LkSleep l);
  acquiresleep_loop l.

Definition acquiresleep_return (p : nat) (l : slock) : K unit :=
  do! sleep_return p (LkSleep l);
  acquiresleep_loop l.

Definition releasesleep (l : slock) : K unit :=
  do! acquire (LkSleep l);
  do! set_sleeplock l (mkSleeplock false 0);
  do! wakeup (ChSleeplock l);
  release (LkSleep l).

Definition holdingsleep (l : slock) : K bool :=
  do! acquire (LkSleep l);
  let! sl := get_sleeplock l in
  let! p := curproc in
  let! pr := get_proc p in
  do! release (LkSleep l);
  ret (sl_locked sl && (sl_pid sl =? u32 (p_pid pr))).

(** ** The cache *)

(** The sentinel. *)
Definition HEAD : nat := NBUF.

Definition binit_one (b : nat) : K unit :=
  let! hd := get_buf HEAD in
  do! upd_buf b (set_b_next (fun _ => b_next hd));
  do! upd_buf b (set_b_prev (fun _ => HEAD));
  do! initsleeplock (SlBuf b);
  let! hd := get_buf HEAD in
  do! upd_buf (b_next hd) (set_b_prev (fun _ => b));
  upd_buf HEAD (set_b_next (fun _ => b)).

Definition binit : K unit :=
  do! initlock LkBcache;
  do! upd_buf HEAD (set_b_prev (fun _ => HEAD));
  do! upd_buf HEAD (set_b_next (fun _ => HEAD));
  each (seq 0 NBUF) binit_one.

(** The two scans of bget: forward for a cached block, backward for a victim. *)
Definition caches (dev blockno : Z) (b : buf) : bool :=
  (b_dev b =? dev) && (b_blockno b =? blockno).
Definition evictable (b : buf) : bool := (b_refcnt b =? 0) && (b_pinned b =? 0).

Fixpoint scan_next (fuel : nat) (test : buf -> bool) (i : nat) : K (option nat) :=
  if (i =? HEAD)%nat then ret None
  else match fuel with
       | O => fault "bcache list"
       | S fuel' =>
           let! b := get_buf i in
           if test b then ret (Some i) else scan_next fuel' test (b_next b)
       end.

Fixpoint scan_prev (fuel : nat) (test : buf -> bool) (i : nat) : K (option nat) :=
  if (i =? HEAD)%nat then ret None
  else match fuel with
       | O => fault "bcache list"
       | S fuel' =>
           let! b := get_buf i in
           if test b then ret (Some i) else scan_prev fuel' test (b_prev b)
       end.

Definition bget (dev blockno : Z) : K nat :=
  do! acquire LkBcache;
  let! hd := get_buf HEAD in
  let! hit := scan_next NBUF (caches dev blockno) (b_next hd) in
  match hit with
  | Some b =>
      do! upd_buf b (set_b_refcnt (fun r => u32 (r + 1)));
      do! release LkBcache;
      do! acquiresleep (SlBuf b);
      ret b
  | None =>
      let! victim := scan_prev NBUF evictable (b_prev hd) in
      match victim with
      | Some b =>
          do! upd_buf b (set_b_dev (fun _ => dev));
          do! upd_buf b (set_b_blockno (fun _ => blockno));
          do! upd_buf b (set_b_valid (fun _ => false));
          do! upd_buf b (set_b_refcnt (fun _ => 1));
          do! release LkBcache;
          do! acquiresleep (SlBuf b);
          ret b
      | None => panic "bget: no buffers"
      end
  end.

Definition bread (dev blockno : Z) : K nat :=
  let! i := bget dev blockno in
  let! b := get_buf i in
  do! when (negb (b_valid b))
        (let! data := virtio_disk_rw blockno (b_data b) false in
         do! upd_buf i (set_b_data (fun _ => data));
         upd_buf i (set_b_valid (fun _ => true)));
  ret i.

Definition bwrite (i : nat) : K unit :=
  let! held := holdingsleep (SlBuf i) in
  if negb held then panic "bwrite"
  else
    let! b := get_buf i in
    do! virtio_disk_rw (b_blockno b) (b_data b) true;
    ret tt.

(** The relinking of brelse: move [i] to the tail, just before the sentinel. *)
Definition move_to_tail (i : nat) : K unit :=
  let! b := get_buf i in
  do! upd_buf (b_prev b) (set_b_next (fun _ => b_next b));
  do! upd_buf (b_next b) (set_b_prev (fun _ => b_prev b));
  let! hd := get_buf HEAD in
  do! upd_buf i (set_b_prev (fun _ => b_prev hd));
  do! upd_buf (b_prev hd) (set_b_next (fun _ => i));
  do! upd_buf i (set_b_next (fun _ => HEAD));
  upd_buf HEAD (set_b_prev (fun _ => i)).

Definition brelse (i : nat) : K unit :=
  let! held := holdingsleep (SlBuf i) in
  if negb held then panic "brelse"
  else
    do! releasesleep (SlBuf i);
    do! acquire LkBcache;
    do! upd_buf i (set_b_refcnt (fun r => u32 (r - 1)));
    let! b := get_buf i in
    do! when ((b_refcnt b =? 0) && negb (b_next b =? HEAD)%nat) (move_to_tail i);
    release LkBcache.

Definition bpin (i : nat) : K unit :=
  do! acquire LkBcache;
  do! upd_buf i (set_b_pinned (fun p => p + 1));
  release LkBcache.

Definition bunpin (i : nat) : K unit :=
  do! acquire LkBcache;
  let! b := get_buf i in
  if b_pinned b <=? 0 then panic "bunpin"
  else
    do! upd_buf i (set_b_pinned (fun p => p - 1));
    release LkBcache.

(** ** Calm states

    What a kernel thread guarantees when it calls the buffer cache: it holds no
    spinlock, and it runs on behalf of a process. *)
Record calm (s : kstate) : Prop := mkCalm {
  calm_hart : hart_ok (k_hart s);
  calm_locks : h_locks (k_hart s) = ∅;
  calm_procs : length (k_procs s) = NPROC;
  calm_cur : exists p pr, k_cur s = Some p /\ k_procs s !! p = Some pr }.

Definition mypid (s : kstate) : Z :=
  match k_cur s with
  | Some p => match k_procs s !! p with Some pr => u32 (p_pid pr) | None => 0 end
  | None => 0
  end.

Definition holds_sl (l : slock) (s : kstate) : Prop :=
  sl_of l s = Some (mkSleeplock true (mypid s)).
Definition free_sl (l : slock) (s : kstate) : Prop :=
  exists v, sl_of l s = Some v /\ sl_locked v = false.

Lemma calm_frame s s' :
  k_hart s' = k_hart s -> k_procs s' = k_procs s -> k_cur s' = k_cur s -> calm s -> calm s'.
Proof. intros Hh Hp Hc [H1 H2 H3 H4]. split; by rewrite ?Hh, ?Hp, ?Hc. Qed.

Lemma calm_fresh lk s : calm s -> lk ∉ h_locks (k_hart s).
Proof. intros [_ -> _ _]. set_solver. Qed.

#[export] Hint Resolve calm_hart calm_fresh : kernel.

(** Enter and leave a critical section from a calm state. *)
Ltac lock_step Hc := erewrite bind_Ret by (apply acquire_ok, calm_fresh, Hc).

Lemma calm_wake s ch : calm s -> calm (set_k_procs (wake_table (k_cur s) ch) s).
Proof.
  intros [H1 H2 H3 (p & pr & Hc & Hp)]. split; kcbn; [done|done|by rewrite length_wake_table|].
  exists p, pr. split; [done|]. rewrite lookup_wake_table, Hp. cbn. by bdec.
Qed.

Lemma mypid_frame s s' :
  k_procs s' = k_procs s -> k_cur s' = k_cur s -> mypid s' = mypid s.
Proof. unfold mypid. by intros -> ->. Qed.

Lemma mypid_wake s ch : mypid (set_k_procs (wake_table (k_cur s) ch) s) = mypid s.
Proof.
  unfold mypid. kcbn. destruct (k_cur s) as [p|]; [|done].
  rewrite lookup_wake_table. destruct (k_procs s !! p); cbn; [|done]. by bdec.
Qed.

Lemma put_sl_hart l v h s :
  put_sl l v (set_k_hart h s) = set_k_hart h (put_sl l v s).
Proof. by destruct l. Qed.

Lemma put_sl_fields l v s :
  k_hart (put_sl l v s) = k_hart s /\ k_procs (put_sl l v s) = k_procs s /\
  k_cur (put_sl l v s) = k_cur s.
Proof. by destruct l. Qed.

Lemma calm_put_sl l v s : calm s -> calm (put_sl l v s).
Proof. apply calm_frame; by destruct (put_sl_fields l v s) as (? & ? & ?). Qed.

Lemma sl_of_put l v s : is_Some (sl_of l s) -> sl_of l (put_sl l v s) = Some v.
Proof.
  destruct l as [i|i]; cbn [sl_of put_sl]; kcbn; intros [w Hw]; rewrite list_lookup_alter_eq;
    [destruct (k_bcache s !! i)|destruct (k_icache s !! i)]; by cbn in *.
Qed.

Lemma hart_id (s : kstate) : set_k_hart (fun _ => k_hart s) s = s.
Proof. by keq. Qed.

(** A free sleep lock is taken without blocking. *)
Lemma acquiresleep_free l s :
  calm s -> free_sl l s ->
  acquiresleep l s = Ret tt (put_sl l (mkSleeplock true (mypid s)) s).
Proof.
  intros Hc (v & Hv & Hf). unfold acquiresleep.
  lock_step Hc.
  assert (Hv' : sl_of l (set_k_hart (hart_acquire (LkSleep l)) s) = Some v) by (by destruct l).
  unfold acquiresleep_loop. unfold bind at 1. unfold get_sleeplock. rewrite Hv', Hf.
  destruct (calm_cur s Hc) as (p & pr & Hp & Hpr).
  unfold bind at 1. unfold curproc. kcbn. rewrite Hp.
  unfold bind at 1. unfold get_proc. kcbn. rewrite Hpr.
  unfold set_sleeplock. rewrite bind_modify, put_sl_hart.
  destruct (put_sl_fields l (mkSleeplock true (u32 (p_pid pr))) s) as (E & _ & _).
  rewrite (release_after _ s); [|apply Hc|apply calm_fresh, Hc|kcbn; by rewrite E].
  unfold mypid. rewrite Hp, Hpr. f_equal. set (s1 := put_sl _ _ _) in *.
  keq. by rewrite E.
Qed.

Lemma holdingsleep_run l s v :
  calm s -> sl_of l s = Some v ->
  holdingsleep l s = Ret (sl_locked v && (sl_pid v =? mypid s)) s.
Proof.
  intros Hc Hv. unfold holdingsleep.
  lock_step Hc.
  assert (Hv' : sl_of l (set_k_hart (hart_acquire (LkSleep l)) s) = Some v) by (by destruct l).
  unfold bind at 1. unfold get_sleeplock. rewrite Hv'.
  destruct (calm_cur s Hc) as (p & pr & Hp & Hpr).
  unfold bind at 1. unfold curproc. kcbn. rewrite Hp.
  unfold bind at 1. unfold get_proc. kcbn. rewrite Hpr.
  erewrite bind_Ret by (apply (release_after _ s); [apply Hc|apply calm_fresh, Hc|done]).
  unfold ret, mypid. by rewrite Hp, Hpr.
Qed.

Lemma holdingsleep_held l s : calm s -> holds_sl l s -> holdingsleep l s = Ret true s.
Proof.
  intros Hc Hl. rewrite (holdingsleep_run l s _ Hc Hl). cbn. by rewrite Z.eqb_refl.
Qed.

Lemma releasesleep_run l s :
  calm s ->
  releasesleep l s = Ret tt (set_k_procs (wake_table (k_cur s) (ChSleeplock l))
                               (put_sl l (mkSleeplock false 0) s)).
Proof.
  intros Hc. unfold releasesleep.
  lock_step Hc.
  unfold set_sleeplock. rewrite bind_modify, put_sl_hart.
  destruct (put_sl_fields l (mkSleeplock false 0) s) as (Eh & Ep & Ec).
  set (s1 := put_sl _ _ _) in *.
  erewrite bind_Ret.
  2:{ apply wakeup_spec; kcbn.
      - rewrite Eh. apply hart_ok_acquire, Hc.
      - intros i. cbn. rewrite Eh, (calm_locks s Hc). set_solver.
      - rewrite Ep. apply Hc. }
  rewrite (release_after _ s); [|apply Hc|apply calm_fresh, Hc|kcbn; by rewrite Eh].
  f_equal. keq; [by rewrite Eh|by rewrite Ec].
Qed.
