(* ===== verification/BioSpec.v ===== *)
(** * The buffer cache: its list, its invariant and its contract

    The doubly-linked list refines an ordered list of the buffers; the operations of
    bio.c are characterised on that order, the cache invariant is preserved, and a
    block's contents are read through the cache as one function of the state. *)

From S2P Require Import Prelude Params Machine Spinlock Sched CString Bio.

(** ** The circular list *)
Definition nxt (bs : list buf) (i : nat) : option nat := b_next <$> bs !! i.
Definition prv (bs : list buf) (i : nat) : option nat := b_prev <$> bs !! i.

(** Consecutive elements of the path are linked both ways. *)
Fixpoint dpath (bs : list buf) (L : list nat) : Prop :=
  match L with
  | i :: ((j :: _) as L') => nxt bs i = Some j /\ prv bs j = Some i /\ dpath bs L'
  | _ => True
  end.

(** The cache lists the buffers in [order], from head.next round to the sentinel. *)
Definition ring (bs : list buf) (order : list nat) : Prop :=
  length bs = S NBUF /\ order ≡ₚ seq 0 NBUF /\ dpath bs (HEAD :: order ++ [HEAD]).

Lemma dpath_app bs A x B : dpath bs (A ++ x :: B) <-> dpath bs (A ++ [x]) /\ dpath bs (x :: B).
Proof.
  induction A as [|a A IH]; [cbn; tauto|].
  destruct A as [|a' A]; [cbn; tauto|].
  change ((a :: a' :: A) ++ x :: B) with (a :: a' :: (A ++ x :: B)).
  change ((a :: a' :: A) ++ [x]) with (a :: a' :: (A ++ [x])).
  change (dpath bs (a :: a' :: A ++ x :: B)) with
    (nxt bs a = Some a' /\ prv bs a' = Some a /\ dpath bs ((a' :: A) ++ x :: B)).
  change (dpath bs (a :: a' :: A ++ [x])) with
    (nxt bs a = Some a' /\ prv bs a' = Some a /\ dpath bs ((a' :: A) ++ [x])).
  rewrite IH. tauto.
Qed.

(** A link from the end of one path to the start of another. *)
Lemma dpath_join bs A x y B :
  dpath bs (A ++ x :: y :: B) <->
  dpath bs (A ++ [x]) /\ (nxt bs x = Some y /\ prv bs y = Some x) /\ dpath bs (y :: B).
Proof. rewrite dpath_app. cbn [dpath]. tauto. Qed.

Lemma dpath_frame bs bs' A x :
  (forall i, i ∈ A -> nxt bs' i = nxt bs i) ->
  (forall j, j ∈ tail (A ++ [x]) -> prv bs' j = prv bs j) ->
  dpath bs (A ++ [x]) -> dpath bs' (A ++ [x]).
Proof.
  induction A as [|a A IH]; intros Hn Hp H; [done|].
  destruct A as [|a' A].
  - cbn in *. destruct H as (H1 & H2 & _). rewrite Hn by set_solver. rewrite Hp by set_solver. done.
  - destruct H as (H1 & H2 & H3). split_and!.
    + rewrite Hn by set_solver. done.
    + rewrite Hp by set_solver. done.
    + apply IH; [set_solver| |done]. intros j Hj. apply Hp. cbn in *. set_solver.
Qed.

Lemma ring_nodup bs order : ring bs order -> NoDup (HEAD :: order).
Proof.
  intros (_ & Hp & _). rewrite Hp. constructor; [|apply NoDup_seq].
  rewrite elem_of_seq. unfold HEAD. lia.
Qed.

Lemma ring_elem bs order i : ring bs order -> i ∈ order <-> (i < NBUF)%nat.
Proof. intros (_ & Hp & _). rewrite Hp, elem_of_seq. lia. Qed.

Lemma ring_length bs order : ring bs order -> length order = NBUF.
Proof. intros (_ & Hp & _). by rewrite Hp, length_seq. Qed.

(** The links are all that matters to the ring. *)
Lemma ring_same bs bs' order :
  length bs' = length bs -> (forall i, nxt bs' i = nxt bs i) -> (forall i, prv bs' i = prv bs i) ->
  ring bs order -> ring bs' order.
Proof.
  intros Hl Hn Hp (H1 & H2 & H3). split_and!; [congruence|done|].
  change (HEAD :: order ++ [HEAD]) with ((HEAD :: order) ++ [HEAD]) in *.
  eapply dpath_frame; [| |exact H3]; auto.
Qed.

Lemma nxt_alter bs f i j :
  nxt (alter f i bs) j = if decide (i = j) then (fun b => b_next (f b)) <$> bs !! j else nxt bs j.
Proof.
  unfold nxt. case_decide as E; [subst|by rewrite list_lookup_alter_ne].
  rewrite list_lookup_alter_eq. by destruct (bs !! j).
Qed.
Lemma prv_alter bs f i j :
  prv (alter f i bs) j = if decide (i = j) then (fun b => b_prev (f b)) <$> bs !! j else prv bs j.
Proof.
  unfold prv. case_decide as E; [subst|by rewrite list_lookup_alter_ne].
  rewrite list_lookup_alter_eq. by destruct (bs !! j).
Qed.

Lemma ring_alter bs order i f :
  (forall b, b_next (f b) = b_next b) -> (forall b, b_prev (f b) = b_prev b) ->
  ring bs order -> ring (alter f i bs) order.
Proof.
  intros Hn Hp. apply ring_same.
  - apply length_alter.
  - intros j. rewrite nxt_alter. case_decide; [|done]. unfold nxt.
    destruct (bs !! j); cbn; [by rewrite Hn|done].
  - intros j. rewrite prv_alter. case_decide; [|done]. unfold prv.
    destruct (bs !! j); cbn; [by rewrite Hp|done].
Qed.

(** ** The scans *)

(** The first index of [l] whose buffer passes the test. *)
Fixpoint first (test : buf -> bool) (bs : list buf) (l : list nat) : option nat :=
  match l with
  | [] => None
  | i :: l' => match bs !! i with
               | Some b => if test b then Some i else first test bs l'
               | None => None
               end
  end.

Lemma scan_next_path fuel test s l i :
  dpath (k_bcache s) (l ++ [HEAD]) -> HEAD ∉ l -> (length l <= fuel)%nat ->
  head (l ++ [HEAD]) = Some i -> Forall (fun j => is_Some (k_bcache s !! j)) l ->
  scan_next fuel test i s = Ret (first test (k_bcache s) l) s.
Proof.
  revert fuel i. induction l as [|x l IH]; intros fuel i Hd Hh Hf Hi Hall; cbn in Hi; simplify_eq.
  - by destruct fuel; cbn [scan_next]; rewrite Nat.eqb_refl.
  - destruct fuel as [|fuel]; [cbn in Hf; lia|].
    apply Forall_cons in Hall as [[b Hb] Hall].
    cbn [scan_next]. destruct (Nat.eqb_spec i HEAD) as [->|_]; [set_solver|].
    unfold bind at 1. unfold get_buf. rewrite Hb. cbn [first]. rewrite Hb.
    destruct (test b); [done|].
    destruct (l ++ [HEAD]) as [|j l'] eqn:El; [by destruct l|].
    cbn [app] in Hd. rewrite El in Hd. destruct Hd as (Hn & _ & Hd).
    unfold nxt in Hn. rewrite Hb in Hn. cbn in Hn. simplify_eq.
    apply IH; [done|set_solver|cbn in Hf; lia|done|done].
Qed.

Lemma scan_prev_path fuel test s l i :
  dpath (k_bcache s) (HEAD :: l) -> HEAD ∉ l -> (length l <= fuel)%nat ->
  last (HEAD :: l) = Some i -> Forall (fun j => is_Some (k_bcache s !! j)) l ->
  scan_prev fuel test i s = Ret (first test (k_bcache s) (reverse l)) s.
Proof.
  revert fuel i. induction l as [|x l IH] using rev_ind; intros fuel i Hd Hh Hf Hi Hall.
  - cbn in Hi. simplify_eq. by destruct fuel; cbn [scan_prev]; rewrite Nat.eqb_refl.
  - change (HEAD :: l ++ [x]) with ((HEAD :: l) ++ [x]) in Hi, Hd. rewrite last_snoc in Hi. simplify_eq.
    rewrite length_app in Hf. cbn in Hf. destruct fuel as [|fuel]; [lia|].
    apply Forall_app in Hall as [Hall Hb]. apply Forall_singleton in Hb as [b Hb].
    cbn [scan_prev]. destruct (Nat.eqb_spec i HEAD) as [->|_]; [set_solver|].
    unfold bind at 1. unfold get_buf. rewrite Hb. rewrite reverse_snoc. cbn [first]. rewrite Hb.
    destruct (test b); [done|].
    destruct (exists_last (l := HEAD :: l)) as (A & z & HA); [done|]. rewrite HA in Hd.
    rewrite <- app_assoc in Hd. cbn [app] in Hd. apply dpath_join in Hd as (Hd & (_ & Hp) & _).
    unfold prv in Hp. rewrite Hb in Hp. cbn in Hp. simplify_eq.
    apply IH; [by rewrite HA|set_solver|lia|rewrite HA; apply last_snoc|done].
Qed.

Lemma ring_all bs order : ring bs order -> Forall (fun j => is_Some (bs !! j)) order.
Proof.
  intros Hr. apply Forall_forall. intros j Hj. apply (ring_elem _ _ _ Hr) in Hj.
  apply lookup_lt_is_Some. destruct Hr as (-> & _). lia.
Qed.

Lemma ring_head bs order hd :
  ring bs order -> bs !! HEAD = Some hd ->
  head (order ++ [HEAD]) = Some (b_next hd) /\ last (HEAD :: order) = Some (b_prev hd).
Proof.
  intros (Hl & Hp & Hd) Hh. split.
  - destruct order as [|i order]; destruct Hd as (Hn & _); unfold nxt in Hn; rewrite Hh in Hn;
      cbn in *; congruence.
  - destruct (exists_last (l := HEAD :: order)) as (A & z & HA); [done|].
    change (HEAD :: order ++ [HEAD]) with ((HEAD :: order) ++ [HEAD]) in Hd.
    rewrite HA, <- app_assoc in Hd. cbn [app] in Hd. apply dpath_join in Hd as (_ & (_ & E) & _).
    unfold prv in E. rewrite Hh in E. cbn in E. rewrite HA, last_snoc. congruence.
Qed.

(** The two loops of bget, on the order. *)
Lemma ring_scan_next s order test hd :
  ring (k_bcache s) order -> k_bcache s !! HEAD = Some hd ->
  scan_next NBUF test (b_next hd) s = Ret (first test (k_bcache s) order) s.
Proof.
  intros Hr Hh. pose proof (ring_nodup _ _ Hr) as Hnd. apply NoDup_cons in Hnd as [Hnd _].
  pose proof Hr as (_ & _ & Hd).
  apply scan_next_path; [|done|by rewrite (ring_length _ _ Hr)|
    by apply (ring_head _ _ _ Hr Hh)|by apply ring_all].
  destruct order as [|i order]; [done|]. apply Hd.
Qed.

Lemma ring_scan_prev s order test hd :
  ring (k_bcache s) order -> k_bcache s !! HEAD = Some hd ->
  scan_prev NBUF test (b_prev hd) s = Ret (first test (k_bcache s) (reverse order)) s.
Proof.
  intros Hr Hh. pose proof (ring_nodup _ _ Hr) as Hnd. apply NoDup_cons in Hnd as [Hnd _].
  pose proof Hr as (_ & _ & Hd).
  apply scan_prev_path; [|done|by rewrite (ring_length _ _ Hr)|
    by apply (ring_head _ _ _ Hr Hh)|by apply ring_all].
  destruct (exists_last (l := HEAD :: order)) as (A & z & HA); [done|].
  change (HEAD :: order ++ [HEAD]) with ((HEAD :: order) ++ [HEAD]) in Hd.
  rewrite HA in *. rewrite <- app_assoc in Hd. by apply dpath_app in Hd as [Hd _].
Qed.

(** ** Relinking *)

(** A buffer without its links: what relinking leaves alone. *)
Definition unlinked (b : buf) : buf := set_b_next (fun _ => 0%nat) (set_b_prev (fun _ => 0%nat) b).
Definition relinked (bs bs' : list buf) : Prop :=
  forall j, unlinked <$> bs' !! j = unlinked <$> bs !! j.

Lemma relinked_alter bs bs' f i :
  (forall b, unlinked (f b) = unlinked b) -> relinked bs bs' -> relinked bs (alter f i bs').
Proof.
  intros Hf H j. rewrite <- H. destruct (decide (i = j)) as [->|Hne].
  - rewrite list_lookup_alter_eq. destruct (bs' !! j); cbn; [by rewrite Hf|done].
  - by rewrite list_lookup_alter_ne.
Qed.

Lemma relinked_lookup bs bs' j b :
  relinked bs bs' -> bs !! j = Some b ->
  exists b', bs' !! j = Some b' /\ unlinked b' = unlinked b.
Proof.
  intros H Hb. specialize (H j). rewrite Hb in H. destruct (bs' !! j) as [b'|]; [|done].
  exists b'. cbn in H. split; congruence.
Qed.

Lemma nxt_set_prev bs f i j : nxt (alter (set_b_prev f) i bs) j = nxt bs j.
Proof. rewrite nxt_alter. case_decide; [|done]. unfold nxt. by destruct (bs !! j). Qed.
Lemma prv_set_next bs f i j : prv (alter (set_b_next f) i bs) j = prv bs j.
Proof. rewrite prv_alter. case_decide; [|done]. unfold prv. by destruct (bs !! j). Qed.
Lemma nxt_set_next bs v i j :
  (i < length bs)%nat ->
  nxt (alter (set_b_next (fun _ => v)) i bs) j = if decide (i = j) then Some v else nxt bs j.
Proof.
  intros Hi. rewrite nxt_alter. case_decide; [subst|done].
  destruct (lookup_lt_is_Some_2 _ _ Hi) as [b ->]. done.
Qed.
Lemma prv_set_prev bs v i j :
  (i < length bs)%nat ->
  prv (alter (set_b_prev (fun _ => v)) i bs) j = if decide (i = j) then Some v else prv bs j.
Proof.
  intros Hi. rewrite prv_alter. case_decide; [subst|done].
  destruct (lookup_lt_is_Some_2 _ _ Hi) as [b ->]. done.
Qed.

Create Rewrite HintDb links.
#[export] Hint Rewrite nxt_set_prev prv_set_next nxt_set_next prv_set_prev using
  (rewrite ?length_alter; assumption) : links.

(** The link updates of brelse, as a function of the links of the buffer [b] being
    moved and of the old tail [t]. *)
Definition tail_links (i : nat) (p y t : nat) (bs : list buf) : list buf :=
  alter (set_b_prev (fun _ => i)) HEAD
  (alter (set_b_next (fun _ => HEAD)) i
  (alter (set_b_next (fun _ => i)) t
  (alter (set_b_prev (fun _ => t)) i
  (alter (set_b_prev (fun _ => p)) y
  (alter (set_b_next (fun _ => y)) p bs))))).

Lemma tail_links_relinked i p y t bs : relinked bs (tail_links i p y t bs).
Proof. unfold tail_links. repeat (apply relinked_alter; [done|]). done. Qed.

Lemma tail_links_nxt i p y t bs j :
  (i < length bs)%nat -> (p < length bs)%nat -> (t < length bs)%nat ->
  nxt (tail_links i p y t bs) j =
    if decide (i = j) then Some HEAD else if decide (t = j) then Some i
    else if decide (p = j) then Some y else nxt bs j.
Proof. intros. unfold tail_links. by autorewrite with links. Qed.

Lemma tail_links_prv i p y t bs j :
  (i < length bs)%nat -> (y < length bs)%nat -> (HEAD < length bs)%nat ->
  prv (tail_links i p y t bs) j =
    if decide (HEAD = j) then Some i else if decide (i = j) then Some t
    else if decide (y = j) then Some p else prv bs j.
Proof. intros. unfold tail_links. by autorewrite with links. Qed.

Ltac links_ne := repeat first
  [ rewrite decide_True by congruence | rewrite decide_False by congruence ].

(** Cutting [i] out from between [p] and [y] and putting it after the tail [t]. *)
Section TailPath.
Context (bs bs' : list buf) (A B : list nat) (p i y t : nat).
Context (Hn : forall j, nxt bs' j = if decide (i = j) then Some HEAD
                        else if decide (t = j) then Some i
                        else if decide (p = j) then Some y else nxt bs j).
Context (Hv : forall j, prv bs' j = if decide (HEAD = j) then Some i
                        else if decide (i = j) then Some t
                        else if decide (y = j) then Some p else prv bs j).
Context (Hnd : NoDup (A ++ p :: i :: B ++ [t])).
Context (HA : head (A ++ [p]) = Some HEAD) (HB : head (B ++ [t]) = Some y).

Lemma tail_facts :
  (forall j, j ∈ A -> j ≠ i /\ j ≠ t /\ j ≠ p) /\
  (forall j, j ∈ B -> j ≠ i /\ j ≠ t /\ j ≠ p) /\
  p ≠ i /\ p ≠ t /\ i ≠ t /\ i ≠ y /\ (y ∈ B \/ y = t) /\
  (HEAD ∈ A \/ HEAD = p).
Proof using Hnd HA HB.
  clear Hn Hv bs bs'.
  apply NoDup_app in Hnd as (_ & HdA & Hnd1).
  apply NoDup_cons in Hnd1 as [Hp Hnd1]. apply NoDup_cons in Hnd1 as [Hi Hnd1].
  apply NoDup_app in Hnd1 as (_ & HtB & _).
  assert (Hy : y ∈ B \/ y = t) by (destruct B; cbn in HB; simplify_eq; [by right|left; left]).
  assert (Hh : HEAD ∈ A \/ HEAD = p) by (destruct A; cbn in HA; simplify_eq; [by right|left; left]).
  split_and!; [| | | | | |done|done].
  - intros j Hj. specialize (HdA j Hj). clear -HdA. set_solver.
  - intros j Hj. specialize (HtB j Hj). clear -HtB Hi Hp Hj. set_solver.
  - clear -Hp. set_solver.
  - clear -Hp. set_solver.
  - clear -Hi. set_solver.
  - clear -Hi Hy. set_solver.
Qed.

Lemma tail_facts_tails :
  (forall j, j ∈ tail (A ++ [p]) -> j ≠ HEAD /\ j ≠ i /\ j ≠ y) /\
  (forall j, j ∈ tail (B ++ [t]) -> j ≠ HEAD /\ j ≠ i /\ j ≠ y) /\
  HEAD ≠ i /\ HEAD ≠ y.
Proof using Hnd HA HB.
  clear Hn Hv bs bs'.
  destruct tail_facts as (FA & FB & Hpi & Hpt & Hit & Hiy & Hy & Hh).
  assert (E : A ++ p :: i :: B ++ [t] = (A ++ [p]) ++ i :: (B ++ [t])) by by rewrite <- app_assoc.
  rewrite E in Hnd. clear E. destruct (A ++ [p]) as [|h A'] eqn:EA; [done|].
  destruct (B ++ [t]) as [|y' B'] eqn:EB; [done|]. cbn in HA, HB. simplify_eq. cbn [tail].
  apply NoDup_app in Hnd as (HndA & Hd & Hnd2). apply NoDup_cons in HndA as [HhA _].
  apply NoDup_cons in Hnd2 as [HiB Hnd2]. apply NoDup_cons in Hnd2 as [HyB _].
  split_and!.
  - intros j Hj. specialize (Hd j ltac:(by right)). clear -Hd HhA Hj. set_solver.
  - intros j Hj. specialize (Hd HEAD ltac:(left)). clear -Hd HiB HyB Hj. set_solver.
  - specialize (Hd HEAD ltac:(left)). clear -Hd. set_solver.
  - specialize (Hd HEAD ltac:(left)). clear -Hd. set_solver.
Qed.

Lemma tail_path :
  dpath bs (A ++ p :: i :: B ++ [t; HEAD]) -> dpath bs' (A ++ p :: B ++ [t; i; HEAD]).
Proof.
  intros Hd. destruct tail_facts as (FA & FB & Hpi & Hpt & Hit & Hiy & Hy & Hh).
  destruct tail_facts_tails as (GA & GB & Hhi & Hhy).
  apply dpath_join in Hd as (HdA & _ & Hd).
  assert (HdB : dpath bs (B ++ [t])).
  { change (i :: B ++ [t; HEAD]) with ((i :: B) ++ t :: [HEAD]) in Hd.
    apply dpath_app in Hd as [Hd _]. destruct (B ++ [t]) eqn:E; [done|].
    cbn in Hd. rewrite E in Hd. apply Hd. }
  assert (HBt : dpath bs' (B ++ [t; i; HEAD])).
  { apply (dpath_app _ B t [i; HEAD]). split.
    - apply (dpath_frame bs); [| |done]; intros j Hj.
      + rewrite Hn. destruct (FB j Hj) as (? & ? & ?). by links_ne.
      + rewrite Hv. destruct (GB j Hj) as (? & ? & ?). by links_ne.
    - cbn. rewrite !Hn, !Hv. by links_ne. }
  destruct (B ++ [t; i; HEAD]) as [|y' B'] eqn:E; [by destruct B|].
  assert (y' = y) as -> by (destruct B; cbn in *; congruence).
  apply dpath_join. split_and!; [|rewrite Hn; by links_ne|rewrite Hv; by links_ne|done].
  apply (dpath_frame bs); [| |done]; intros j Hj.
  - rewrite Hn. destruct (FA j Hj) as (? & ? & ?). by links_ne.
  - rewrite Hv. destruct (GA j Hj) as (? & ? & ?). by links_ne.
Qed.
End TailPath.

Lemma ring_around bs l1 i l2 :
  ring bs (l1 ++ i :: l2) -> l2 ≠ [] ->
  exists A p B t y b, HEAD :: l1 = A ++ [p] /\ l2 = B ++ [t] /\ head l2 = Some y /\
    bs !! i = Some b /\ b_prev b = p /\ b_next b = y /\ prv bs HEAD = Some t /\
    dpath bs (A ++ p :: i :: B ++ [t; HEAD]).
Proof.
  intros Hr Hl2. destruct (exists_last (l := HEAD :: l1)) as (A & p & HA); [done|].
  destruct (exists_last Hl2) as (B & t & HB).
  assert (exists y, head l2 = Some y) as [y Hy] by (destruct l2; [done|by eexists]).
  assert (is_Some (bs !! i)) as [b Hb].
  { pose proof (ring_all _ _ Hr) as Hall. apply Forall_app in Hall as [_ Hall].
    by apply Forall_cons in Hall as [Hi _]. }
  destruct Hr as (Hlen & Hp & Hd).
  change (HEAD :: (l1 ++ i :: l2) ++ [HEAD]) with ((HEAD :: l1 ++ i :: l2) ++ [HEAD]) in Hd.
  change (HEAD :: l1 ++ i :: l2) with ((HEAD :: l1) ++ i :: l2) in Hd.
  rewrite HA, HB, <- !app_assoc in Hd. cbn [app] in Hd. rewrite <- app_assoc in Hd. cbn [app] in Hd.
  exists A, p, B, t, y, b. split_and!; try done.
  - apply dpath_join in Hd as (_ & (_ & Hx) & _). unfold prv in Hx. rewrite Hb in Hx. by simplify_eq/=.
  - apply dpath_join in Hd as (_ & _ & Hd). rewrite HB in Hy.
    destruct B as [|y' B]; cbn in Hy; simplify_eq; destruct Hd as (Hx & _); unfold nxt in Hx;
      rewrite Hb in Hx; by simplify_eq/=.
  - rewrite dpath_app in Hd. destruct Hd as [_ Hd].
    change (p :: i :: B ++ [t; HEAD]) with ((p :: i :: B) ++ t :: HEAD :: []) in Hd.
    apply dpath_join in Hd as (_ & (_ & Hx) & _). done.
Qed.

Lemma move_to_tail_ring s l1 i l2 :
  ring (k_bcache s) (l1 ++ i :: l2) -> l2 ≠ [] ->
  exists bs', move_to_tail i s = Ret tt (set_k_bcache (fun _ => bs') s) /\
    ring bs' (l1 ++ l2 ++ [i]) /\ relinked (k_bcache s) bs'.
Proof.
  intros Hr Hl2.
  destruct (ring_around _ _ _ _ Hr Hl2) as (A & p & B & t & y & b & HA & HB & Hy & Hb & Hbp & Hbn & Ht & Hd).
  pose proof (ring_nodup _ _ Hr) as Hnd. destruct Hr as (Hlen & Hperm & _).
  assert (Hall : forall j, j ∈ HEAD :: l1 ++ i :: l2 -> (j < length (k_bcache s))%nat).
  { intros j [->|Hj]%elem_of_cons; rewrite Hlen; [unfold HEAD; lia|].
    rewrite Hperm, elem_of_seq in Hj. lia. }
  assert (Hnd' : NoDup (A ++ p :: i :: B ++ [t])).
  { change (HEAD :: l1 ++ i :: l2) with ((HEAD :: l1) ++ i :: l2) in Hnd.
    by rewrite HA, HB, <- app_assoc in Hnd. }
  assert (HA1 : head (A ++ [p]) = Some HEAD) by by rewrite <- HA.
  assert (HB1 : head (B ++ [t]) = Some y) by by rewrite <- HB.
  destruct (tail_facts_tails A B p i y t Hnd' HA1 HB1) as (_ & _ & Hhi & Hhy).
  set (bs := k_bcache s) in *.
  assert (Hi : (i < length bs)%nat) by (apply Hall; set_solver).
  assert (Hp : (p < length bs)%nat).
  { apply Hall. change (HEAD :: l1 ++ i :: l2) with ((HEAD :: l1) ++ i :: l2). rewrite HA. set_solver. }
  assert (Ht' : (t < length bs)%nat) by (apply Hall; rewrite HB; set_solver).
  assert (Hyl : (y < length bs)%nat).
  { apply Hall. destruct l2; cbn in Hy; simplify_eq. set_solver. }
  assert (Hhl : (HEAD < length bs)%nat) by (apply Hall; left).
  exists (tail_links i p y t bs). split_and!.
  - unfold move_to_tail. unfold bind at 1. unfold get_buf. fold bs. rewrite Hb.
    unfold upd_buf. rewrite !bind_modify. kcbn. fold bs. rewrite Hbp, Hbn.
    unfold prv in Ht. destruct (bs !! HEAD) as [hd|] eqn:Ehd; [|done]. cbn in Ht. simplify_eq.
    unfold bind at 1. kcbn. fold bs. rewrite list_lookup_alter_ne by done.
    destruct (decide (b_prev b = HEAD)) as [Ep|Ep].
    + rewrite Ep, list_lookup_alter_eq, Ehd. cbn [fmap option_fmap option_map].
      rewrite !bind_modify. unfold modify. keq.
    + rewrite list_lookup_alter_ne by done. rewrite Ehd. rewrite !bind_modify. unfold modify. keq.
  - split_and!.
    + unfold tail_links. by rewrite !length_alter.
    + rewrite <- Hperm. solve_Permutation.
    + change (HEAD :: (l1 ++ l2 ++ [i]) ++ [HEAD]) with ((HEAD :: l1 ++ l2 ++ [i]) ++ [HEAD]).
      change (HEAD :: l1 ++ l2 ++ [i]) with ((HEAD :: l1) ++ l2 ++ [i]).
      rewrite HA, HB, <- !app_assoc. cbn [app].
      eapply tail_path; [intros j; by apply tail_links_nxt|intros j; by apply tail_links_prv|
        done|done|done|done].
  - apply tail_links_relinked.
Qed.

(** ** Running bget *)

(** What bget does to the entry it returns: on a hit, and when it recycles one. *)
Definition take_ref (pid : Z) (b : buf) : buf :=
  set_b_lock (fun _ => mkSleeplock true pid) (set_b_refcnt (fun r => u32 (r + 1)) b).
Definition recycle (dev blockno : Z) (b : buf) : buf :=
  set_b_refcnt (fun _ => 1) (set_b_valid (fun _ => false)
    (set_b_blockno (fun _ => blockno) (set_b_dev (fun _ => dev) b))).
Definition lock_buf (pid : Z) (b : buf) : buf := set_b_lock (fun _ => mkSleeplock true pid) b.

Lemma first_Some test bs l i :
  first test bs l = Some i -> i ∈ l /\ exists b, bs !! i = Some b /\ test b = true.
Proof.
  induction l as [|x l IH]; cbn [first]; [done|]. destruct (bs !! x) as [b|] eqn:Hb; [|done].
  destruct (test b) eqn:Ht.
  - intros [= <-]. split; [left|by eauto].
  - intros H. destruct (IH H) as (Hi & Hx). split; [by right|done].
Qed.

Lemma first_None test bs l :
  Forall (fun j => is_Some (bs !! j)) l -> first test bs l = None ->
  forall i b, i ∈ l -> bs !! i = Some b -> test b = false.
Proof.
  induction l as [|x l IH]; cbn [first]; intros Hall H i b Hi Hb; [set_solver|].
  apply Forall_cons in Hall as [[c Hc] Hall]. rewrite Hc in H.
  destruct (test c) eqn:Ht; [done|].
  apply elem_of_cons in Hi as [->|Hi]; [congruence|by apply (IH Hall H i)].
Qed.

Lemma first_is_Some test bs l i b :
  Forall (fun j => is_Some (bs !! j)) l ->
  i ∈ l -> bs !! i = Some b -> test b = true -> is_Some (first test bs l).
Proof.
  intros Hall Hi Hb Ht. destruct (first test bs l) eqn:E; [by eauto|].
  pose proof (first_None _ _ _ Hall E i b Hi Hb). congruence.
Qed.

Lemma ring_head_buf bs order : ring bs order -> exists hd, bs !! HEAD = Some hd.
Proof. intros (Hl & _). apply lookup_lt_is_Some_2. rewrite Hl. unfold HEAD. lia. Qed.

(** Both scans and the cache lock, up to the choice of the entry. *)
Lemma bget_scan {A} s order dev blockno (hit : nat -> K A) (miss : option nat -> K A) :
  calm s -> ring (k_bcache s) order ->
  (do! acquire LkBcache;
   let! hd := get_buf HEAD in
   let! r := scan_next NBUF (caches dev blockno) (b_next hd) in
   match r with
   | Some b => hit b
   | None => let! v := scan_prev NBUF evictable (b_prev hd) in miss v
   end) s =
  match first (caches dev blockno) (k_bcache s) order with
  | Some b => hit b (set_k_hart (hart_acquire LkBcache) s)
  | None => miss (first evictable (k_bcache s) (reverse order)) (set_k_hart (hart_acquire LkBcache) s)
  end.
Proof.
  intros Hc Hr. destruct (ring_head_buf _ _ Hr) as [hd Hhd].
  lock_step Hc.
  set (s1 := set_k_hart _ s). unfold bind at 1. unfold get_buf.
  change (k_bcache s1) with (k_bcache s). rewrite Hhd.
  erewrite bind_Ret by (apply (ring_scan_next s1 order); done).
  change (k_bcache s1) with (k_bcache s).
  destruct (first (caches dev blockno) _ order); [done|].
  erewrite bind_Ret by (apply (ring_scan_prev s1 order); done). done.
Qed.

Lemma bget_hit s order dev blockno i b :
  calm s -> ring (k_bcache s) order ->
  first (caches dev blockno) (k_bcache s) order = Some i ->
  k_bcache s !! i = Some b -> sl_locked (b_lock b) = false ->
  bget dev blockno s = Ret i (set_k_bcache (alter (take_ref (mypid s)) i) s).
Proof.
  intros Hc Hr Hf Hb Hl. unfold bget. rewrite (bget_scan s order) by done. rewrite Hf.
  unfold upd_buf. rewrite bind_modify.
  erewrite bind_Ret by (apply (release_after _ s); [apply Hc|apply calm_fresh, Hc|done]).
  erewrite bind_Ret.
  2:{ apply acquiresleep_free; [by apply (calm_frame s)|].
      eexists. cbn [sl_of]. kcbn. rewrite list_lookup_alter_eq, Hb. cbn. done. }
  unfold ret. cbn [put_sl]. rewrite (mypid_frame s) by done. keq. by rewrite alter_twice.
Qed.

Lemma bget_miss s order dev blockno i b :
  calm s -> ring (k_bcache s) order ->
  first (caches dev blockno) (k_bcache s) order = None ->
  first evictable (k_bcache s) (reverse order) = Some i ->
  k_bcache s !! i = Some b -> sl_locked (b_lock b) = false ->
  bget dev blockno s =
    Ret i (set_k_bcache (alter (fun b => lock_buf (mypid s) (recycle dev blockno b)) i) s).
Proof.
  intros Hc Hr Hf He Hb Hl. unfold bget. rewrite (bget_scan s order) by done. rewrite Hf, He.
  unfold upd_buf. rewrite !bind_modify.
  erewrite bind_Ret by (apply (release_after _ s); [apply Hc|apply calm_fresh, Hc|done]).
  erewrite bind_Ret.
  2:{ apply acquiresleep_free; [by apply (calm_frame s)|].
      eexists. cbn [sl_of]. kcbn. rewrite !list_lookup_alter_eq, Hb. cbn. done. }
  unfold ret. cbn [put_sl]. rewrite (mypid_frame s) by done. keq. by rewrite !alter_twice.
Qed.

Lemma bget_exhausted s order dev blockno :
  calm s -> ring (k_bcache s) order ->
  first (caches dev blockno) (k_bcache s) order = None ->
  first evictable (k_bcache s) (reverse order) = None ->
  bget dev blockno s = Panic "bget: no buffers" (set_k_hart (hart_acquire LkBcache) s).
Proof.
  intros Hc Hr Hf He. unfold bget. rewrite (bget_scan s order) by done. by rewrite Hf, He.
Qed.

(** ** The cache invariant *)
Record buf_ok (b : buf) : Prop := mkBufOk {
  bo_refcnt : 0 <= b_refcnt b < 2 ^ 32;
  bo_pinned : 0 <= b_pinned b;
  bo_locked : sl_locked (b_lock b) = true -> b_refcnt b ≠ 0 }.

(** The list is a ring of all the entries; an entry whose content lock is held is
    referenced; no two entries cache the same block of a device. *)
Record cache_ok (bs : list buf) : Prop := mkCacheOk {
  co_ring : exists order, ring bs order;
  co_buf : forall i b, (i < NBUF)%nat -> bs !! i = Some b -> buf_ok b;
  co_uniq : forall i j b c, (i < NBUF)%nat -> (j < NBUF)%nat ->
    bs !! i = Some b -> bs !! j = Some c -> b_dev b ≠ 0 ->
    b_dev c = b_dev b -> b_blockno c = b_blockno b -> i = j }.

(** An update of one entry that keeps its links, keeps it well formed, and gives it
    an identity it already had or that no other entry has. *)
Lemma cache_ok_alter bs i f :
  cache_ok bs ->
  (forall b, b_next (f b) = b_next b) -> (forall b, b_prev (f b) = b_prev b) ->
  (forall b, bs !! i = Some b -> buf_ok b -> buf_ok (f b)) ->
  (forall b, bs !! i = Some b ->
     (b_dev (f b) = b_dev b /\ b_blockno (f b) = b_blockno b) \/
     (forall j c, (j < NBUF)%nat -> bs !! j = Some c -> caches (b_dev (f b)) (b_blockno (f b)) c = false)) ->
  cache_ok (alter f i bs).
Proof.
  intros [[order Hr] Hb Hu] Hn Hp Hf Hid. split.
  - exists order. by apply ring_alter.
  - intros j b Hj. destruct (decide (i = j)) as [->|Hne].
    + rewrite list_lookup_alter_eq. destruct (bs !! j) as [c|] eqn:Hc; [|done].
      intros [= <-]. apply Hf; [done|by eapply Hb].
    + rewrite list_lookup_alter_ne by done. by apply Hb.
  - assert (Hpart : forall j k b c, (j < NBUF)%nat -> (k < NBUF)%nat -> i = j -> j ≠ k ->
      bs !! j = Some b -> bs !! k = Some c -> b_dev (f b) ≠ 0 ->
      b_dev c = b_dev (f b) -> b_blockno c = b_blockno (f b) -> False).
    { intros j k b c Hj Hk -> Hne Hbj Hck Hd Ed Eb.
      destruct (Hid b Hbj) as [[E1 E2]|Hnew].
      - apply Hne, (Hu j k b c); congruence.
      - specialize (Hnew k c Hk Hck). unfold caches in Hnew.
        rewrite Ed, Eb, !Z.eqb_refl in Hnew. done. }
    intros j k b c Hj Hk. destruct (decide (j = k)) as [|Hne]; [done|].
    destruct (decide (i = j)) as [->|Hij].
    + rewrite list_lookup_alter_eq, list_lookup_alter_ne by done.
      destruct (bs !! j) as [b0|] eqn:Hb0; [|done]. intros [= <-] Hc Hd Ed Eb. exfalso.
      by eapply (Hpart j k).
    + rewrite (list_lookup_alter_ne _ _ _ _ Hij). destruct (decide (i = k)) as [->|Hik].
      * rewrite list_lookup_alter_eq. destruct (bs !! k) as [c0|] eqn:Hc0; [|done].
        intros Hbj [= <-] Hd Ed Eb. exfalso. eapply (Hpart k j); try done; congruence.
      * rewrite list_lookup_alter_ne by done. by apply Hu.
Qed.

Lemma cache_ok_relinked bs bs' order :
  cache_ok bs -> relinked bs bs' -> ring bs' order -> cache_ok bs'.
Proof.
  intros [_ Hb Hu] Hrl Hr.
  assert (Hback : forall j c, bs' !! j = Some c -> exists b, bs !! j = Some b /\ unlinked b = unlinked c).
  { intros j c Hc. apply (relinked_lookup bs' bs); [|done]. intros k. by rewrite Hrl. }
  split; [by exists order|..].
  - intros i c Hi Hc. destruct (Hback i c Hc) as (b & Hbi & E). destruct (Hb i b Hi Hbi) as [H1 H2 H3].
    destruct b, c; cbn in E; simplify_eq. by split.
  - intros i j b c Hi Hj Hbi Hcj Hd Ed Eb.
    destruct (Hback i b Hbi) as (b0 & Hb0 & E0). destruct (Hback j c Hcj) as (c0 & Hc0 & E1).
    apply (Hu i j b0 c0); try done; destruct b, c, b0, c0; cbn in *; simplify_eq; done.
Qed.

(** What the lock primitives do to the cache. *)
Lemma sched_switches {A} s Q (W : kstate -> Prop) : W s -> post (sched (A := A)) s Q W.
Proof.
  intros H. unfold sched. apply post_bind. unfold post, curproc. destruct (k_cur s); [|done].
  unfold holding, bind at 1, gets. destruct (bool_decide _); [|done]. cbn [negb].
  unfold intr_get, bind at 1, gets. destruct (negb _); [done|].
  unfold bind at 1, get_proc. destruct (k_procs s !! n); [|done]. by destruct (is_state _ _).
Qed.

Lemma sleep_post {A} ch lk s Q (W : kstate -> Prop) :
  (forall h ps, W (set_k_procs (fun _ => ps) (set_k_hart (fun _ => h) s))) ->
  post (sleep (A := A) ch lk) s Q W.
Proof.
  intros H. unfold sleep. apply post_bind. unfold post at 1, curproc. destruct (k_cur s) as [p|]; [|done].
  apply post_bind, acquire_post. intros h1.
  apply post_bind, release_post. intros h2. unfold upd_proc.
  apply post_bind, post_modify, post_bind, post_modify, sched_switches.
  exact (H h2 (alter _ p (alter _ p (k_procs s)))).
Qed.

Lemma acquiresleep_post l s (Q : unit -> kstate -> Prop) (W : kstate -> Prop) :
  (forall h ps, W (set_k_procs (fun _ => ps) (set_k_hart (fun _ => h) s))) ->
  (forall h pid, Q tt (set_k_hart (fun _ => h) (put_sl l (mkSleeplock true pid) s))) ->
  post (acquiresleep l) s Q W.
Proof.
  intros HW HQ. unfold acquiresleep. apply post_bind, acquire_post. intros h1.
  unfold acquiresleep_loop. apply post_bind. unfold post at 1, get_sleeplock.
  destruct (sl_of l _) as [v|]; [|done]. destruct (sl_locked v).
  - apply sleep_post. intros h ps. exact (HW h ps).
  - apply post_bind. unfold post at 1, curproc. destruct (k_cur _) as [p|]; [|done].
    apply post_bind. unfold post at 1, get_proc. destruct (k_procs _ !! p) as [pr|]; [|done].
    unfold set_sleeplock. apply post_bind, post_modify, release_post. intros h2.
    rewrite put_sl_hart. exact (HQ h2 _).
Qed.

Lemma wakeup_post ch s (Q : unit -> kstate -> Prop) W :
  (forall h ps, Q tt (set_k_procs (fun _ => ps) (set_k_hart (fun _ => h) s))) ->
  post (wakeup ch) s Q W.
Proof.
  intros HQ. unfold wakeup.
  set (J := fun s' => exists h ps, s' = set_k_procs (fun _ => ps) (set_k_hart (fun _ => h) s)).
  apply (post_mono _ _ (fun _ => J) _ W); [|intros [] s' (h & ps & ->); apply HQ|done].
  apply (post_each _ _ J).
  { exists (k_hart s), (k_procs s). keq. }
  intros i s' _ (h & ps & ->). unfold wakeup_one, myproc. apply post_bind. unfold post at 1, gets.
  case_bool_decide; [apply post_ret; by exists h, ps|].
  apply post_bind, acquire_post. intros h1. apply post_bind. unfold post at 1, get_proc.
  kcbn. destruct (ps !! i) as [p|]; [|done]. apply post_bind. unfold when, upd_proc.
  destruct (_ && _).
  - apply post_modify, release_post. intros h2. exists h2, (alter (set_p_state (fun _ => RUNNABLE)) i ps). by keq.
  - apply post_ret, release_post. intros h2. exists h2, ps. by keq.
Qed.

Lemma holdingsleep_post l s (Q : bool -> kstate -> Prop) W :
  (forall h r, (r = true -> exists v, sl_of l s = Some v /\ sl_locked v = true) ->
     Q r (set_k_hart (fun _ => h) s)) ->
  post (holdingsleep l) s Q W.
Proof.
  intros HQ. unfold holdingsleep. apply post_bind, acquire_post. intros h1.
  apply post_bind. unfold post at 1, get_sleeplock.
  destruct (sl_of l (set_k_hart _ s)) as [v|] eqn:Hv; [|done].
  apply post_bind. unfold post at 1, curproc. destruct (k_cur _) as [p|]; [|done].
  apply post_bind. unfold post at 1, get_proc. destruct (k_procs _ !! p) as [pr|]; [|done].
  apply post_bind, release_post. intros h2. apply post_ret, HQ. intros E.
  apply andb_prop in E as [E _]. exists v. split; [by destruct l|done].
Qed.

Lemma releasesleep_post l s (Q : unit -> kstate -> Prop) W :
  (forall h ps, Q tt (set_k_procs (fun _ => ps) (set_k_hart (fun _ => h) (put_sl l (mkSleeplock false 0) s)))) ->
  post (releasesleep l) s Q W.
Proof.
  intros HQ. unfold releasesleep. apply post_bind, acquire_post. intros h1.
  unfold set_sleeplock. apply post_bind, post_modify. rewrite put_sl_hart.
  apply post_bind, wakeup_post. intros h2 ps. apply release_post. intros h3. exact (HQ h3 ps).
Qed.

(** ** Preservation of the cache invariant *)
Inductive cache_op :=
| OpBread (dev blockno : Z) | OpBwrite (i : nat) | OpBrelse (i : nat) | OpBpin (i : nat) | OpBunpin (i : nat).

Definition run_cache_op (o : cache_op) : K unit :=
  match o with
  | OpBread dev blockno => do! bread dev blockno; ret tt
  | OpBwrite i => bwrite i
  | OpBrelse i => brelse i
  | OpBpin i => bpin i
  | OpBunpin i => bunpin i
  end.

Definition refs_bounded (bs : list buf) : Prop :=
  forall i b, (i < NBUF)%nat -> bs !! i = Some b -> b_refcnt b + 1 < 2 ^ 32.

Abbreviation cache_post m s :=
  (post m s (fun _ s' => cache_ok (k_bcache s')) (fun s' => cache_ok (k_bcache s'))).

Ltac same_id := intros ? ?; left; done.

Lemma bget_cache_ok s dev blockno :
  cache_ok (k_bcache s) -> refs_bounded (k_bcache s) -> cache_post (bget dev blockno) s.
Proof.
  intros Hc Hb. destruct (co_ring _ Hc) as [order Hr].
  destruct (ring_head_buf _ _ Hr) as [hd Hhd].
  unfold bget. apply post_bind, acquire_post. intros h.
  apply post_bind. unfold post at 1, get_buf. kcbn. rewrite Hhd.
  apply post_bind. eapply post_eq; [by apply (ring_scan_next _ order)|]. kcbn.
  destruct (first (caches _ _) _ order) as [i|] eqn:Hf.
  - destruct (first_Some _ _ _ _ Hf) as (Hi & b & Hbi & _). apply (ring_elem _ _ _ Hr) in Hi.
    unfold upd_buf. apply post_bind, post_modify, post_bind, release_post. intros h2.
    assert (H1 : cache_ok (alter (set_b_refcnt (fun r => u32 (r + 1))) i (k_bcache s))).
    { apply cache_ok_alter; [done|done|done| |same_id].
      intros c Hci [H1 H2 H3]. specialize (Hb i c Hi Hci). split; cbn; [|done|];
      unfold u32; rewrite Z.mod_small by lia; [lia|]. lia. }
    apply post_bind, acquiresleep_post; [done|]. intros h3 pid. apply post_ret. cbn [put_sl]. kcbn.
    apply cache_ok_alter; [done|done|done| |same_id].
    intros c Hci [H2 H3 H4]. split; [done|done|]. intros _. cbn.
    rewrite list_lookup_alter_eq, Hbi in Hci. cbn in Hci. simplify_eq. cbn in *.
    specialize (Hb i b Hi Hbi). pose proof (co_buf _ Hc i b Hi Hbi) as [? ? ?].
    unfold u32. rewrite Z.mod_small; lia.
  - apply post_bind. eapply post_eq; [by apply (ring_scan_prev _ order)|]. kcbn.
    destruct (first evictable _ _) as [i|] eqn:He; [|apply post_panic].
    destruct (first_Some _ _ _ _ He) as (Hi & b & Hbi & _).
    rewrite elem_of_reverse in Hi. apply (ring_elem _ _ _ Hr) in Hi.
    unfold upd_buf. do 4 apply post_bind, post_modify. apply post_bind, release_post. intros h2.
    assert (H1 : cache_ok (alter (recycle dev blockno) i (k_bcache s))).
    { apply cache_ok_alter; [done|done|done| |].
      - intros c Hci [H1 H2 H3]. split; [done|done|]. done.
      - intros c Hci. right. intros j d Hj Hd.
        apply (first_None _ _ _ (ring_all _ _ Hr) Hf j d); [|done]. by apply (ring_elem _ _ _ Hr). }
    apply post_bind, acquiresleep_post; [intros ? ?; kcbn; by rewrite !alter_twice|].
    intros h3 pid. apply post_ret. cbn [put_sl]. kcbn. rewrite !alter_twice.
    rewrite <- (alter_twice (recycle dev blockno)).
    apply cache_ok_alter; [done|done|done| |same_id].
    intros c Hci [H2 H3 H4]. split; [done|done|]. intros _. cbn.
    rewrite list_lookup_alter_eq, Hbi in Hci. cbn in Hci. by simplify_eq.
Qed.

Lemma virtio_disk_rw_post blockno data write s Q W :
  (forall r d, Q r (set_k_disk (fun _ => d) s)) ->
  post (virtio_disk_rw blockno data write) s Q W.
Proof.
  intros HQ. unfold virtio_disk_rw. destruct (_ =? _); [apply post_panic|]. destruct write.
  - apply post_bind, post_modify, post_ret. exact (HQ data (disk_write blockno data (k_disk s))).
  - unfold post, gets. specialize (HQ (disk_read (k_disk s) blockno) (k_disk s)).
    by replace (set_k_disk (fun _ => k_disk s) s) with s in HQ by by keq.
Qed.

Lemma bread_cache_ok s dev blockno :
  cache_ok (k_bcache s) -> refs_bounded (k_bcache s) -> cache_post (bread dev blockno) s.
Proof.
  intros Hc Hb. unfold bread. apply post_bind.
  eapply post_mono; [by apply bget_cache_ok| |done]. intros i s1 H1.
  apply post_bind. unfold post at 1, get_buf. destruct (k_bcache s1 !! i) as [b|]; [|done].
  apply post_bind. unfold when. destruct (negb (b_valid b)); [|by apply post_ret, post_ret].
  apply post_bind, virtio_disk_rw_post. intros data d. unfold upd_buf.
  apply post_bind, post_modify, post_modify, post_ret. kcbn. rewrite alter_twice.
  apply cache_ok_alter; [done|done|done| |same_id]. by intros c _ [? ? ?].
Qed.

Lemma bwrite_cache_ok s i : cache_ok (k_bcache s) -> cache_post (bwrite i) s.
Proof.
  intros Hc. unfold bwrite. apply post_bind, holdingsleep_post. intros h [|] _; cbn [negb]; [|done].
  apply post_bind. unfold post at 1, get_buf. destruct (k_bcache _ !! i) as [b|]; [|done].
  apply post_bind, virtio_disk_rw_post. intros r d. by apply post_ret.
Qed.

Lemma ring_split bs order i :
  ring bs order -> (i < NBUF)%nat -> exists l1 l2, order = l1 ++ i :: l2.
Proof. intros Hr Hi. apply list_elem_of_split. by apply (ring_elem _ _ _ Hr). Qed.

(** The entry's own next link is the sentinel exactly at the tail. *)
Lemma ring_next_tail bs l1 i l2 b :
  ring bs (l1 ++ i :: l2) -> bs !! i = Some b -> b_next b = HEAD <-> l2 = [].
Proof.
  intros Hr Hb. destruct (decide (l2 = [])) as [->|Hne].
  - split; [done|]. intros _. destruct Hr as (_ & _ & Hd).
    change (HEAD :: (l1 ++ [i]) ++ [HEAD]) with ((HEAD :: l1 ++ [i]) ++ [HEAD]) in Hd.
    change (HEAD :: l1 ++ [i]) with ((HEAD :: l1) ++ [i]) in Hd. rewrite <- app_assoc in Hd.
    apply dpath_join in Hd as (_ & (E & _) & _). unfold nxt in E. rewrite Hb in E. cbn in E. congruence.
  - split; [|done]. intros E.
    destruct (ring_around _ _ _ _ Hr Hne) as (A & p & B & t & y & b' & _ & _ & Hy & Hb' & _ & Hn & _).
    simplify_eq. pose proof (ring_nodup _ _ Hr) as Hnd. apply NoDup_cons in Hnd as [Hnd _].
    destruct l2 as [|z l2]; [done|]. cbn in Hy. simplify_eq. exfalso. apply Hnd.
    rewrite <- E. set_solver.
Qed.

Lemma brelse_cache_ok s i :
  cache_ok (k_bcache s) -> (i < NBUF)%nat -> cache_post (brelse i) s.
Proof.
  intros Hc Hi. unfold brelse. apply post_bind, holdingsleep_post. intros h r Hr.
  destruct r; cbn [negb]; [|apply post_panic]. destruct (Hr eq_refl) as (v & Hv & Hl). clear Hr.
  cbn [sl_of] in Hv. destruct (k_bcache s !! i) as [b|] eqn:Hb; [|done]. cbn in Hv. simplify_eq.
  pose proof (co_buf _ Hc i b Hi Hb) as [H1 H2 H3]. specialize (H3 Hl).
  apply post_bind, releasesleep_post. intros h1 ps. apply post_bind, acquire_post. intros h2.
  unfold upd_buf. apply post_bind, post_modify. cbn [put_sl]. kcbn.
  set (f := fun b => set_b_refcnt (fun r => u32 (r - 1)) (set_b_lock (fun _ => mkSleeplock false 0) b)).
  set (bs1 := alter f i (k_bcache s)).
  assert (Hc1 : cache_ok bs1).
  { apply cache_ok_alter; [done|done|done| |same_id]. intros c Hci _. simplify_eq.
    split; cbn; [|done|done]. unfold u32. rewrite Z.mod_small; lia. }
  apply post_bind. unfold post at 1, get_buf. kcbn. rewrite alter_twice. fold f bs1.
  destruct (bs1 !! i) as [b1|] eqn:Hb1; [|done].
  apply post_bind. unfold when. destruct (_ && _) eqn:Ht.
  - apply andb_prop in Ht as [_ Ht]. destruct (Nat.eqb_spec (b_next b1) HEAD) as [|Hn]; [done|].
    destruct (co_ring _ Hc1) as [order Hr]. destruct (ring_split _ _ i Hr Hi) as (l1 & l2 & ->).
    destruct (decide (l2 = [])) as [->|Hne]; [by destruct Hn; apply (ring_next_tail _ _ _ _ _ Hr Hb1)|].
    set (s1 := set_k_bcache _ _). assert (E1 : k_bcache s1 = bs1) by (unfold s1; kcbn; by rewrite alter_twice).
    destruct (move_to_tail_ring s1 l1 i l2) as (bs' & Hm & Hr' & Hrl); [by rewrite E1|done|].
    eapply post_eq; [exact Hm|]. apply release_post. intros h3. kcbn. rewrite E1 in Hrl.
    by eapply cache_ok_relinked.
  - apply post_ret, release_post. intros h3. kcbn. by rewrite alter_twice.
Qed.

Lemma bpin_cache_ok s i : cache_ok (k_bcache s) -> cache_post (bpin i) s.
Proof.
  intros Hc. unfold bpin. apply post_bind, acquire_post. intros h. unfold upd_buf.
  apply post_bind, post_modify, release_post. intros h1. kcbn.
  apply cache_ok_alter; [done|done|done| |same_id]. intros c _ [? ? ?]. split; cbn; try done. lia.
Qed.

Lemma bunpin_cache_ok s i : cache_ok (k_bcache s) -> cache_post (bunpin i) s.
Proof.
  intros Hc. unfold bunpin. apply post_bind, acquire_post. intros h.
  apply post_bind. unfold post at 1, get_buf. kcbn. destruct (k_bcache s !! i) as [b|] eqn:Hb; [|done].
  destruct (Z.leb_spec (b_pinned b) 0); [apply post_panic|]. unfold upd_buf.
  apply post_bind, post_modify, release_post. intros h1. kcbn.
  apply cache_ok_alter; [done|done|done| |same_id]. intros c Hci [? ? ?]. simplify_eq.
  split; cbn; try done. lia.
Qed.

(** C37. Every operation of the cache keeps the cache consistent, whether it returns
    or switches away waiting for a buffer's lock: the links stay a ring of all NBUF
    entries, a locked entry stays referenced, pins stay non-negative, and no two
    entries ever cache the same block of a device. *)
Theorem cache_ops_consistent o s :
  cache_ok (k_bcache s) -> refs_bounded (k_bcache s) ->
  match o with OpBrelse i => (i < NBUF)%nat | _ => True end ->
  post (run_cache_op o) s (fun _ s' => cache_ok (k_bcache s')) (fun s' => cache_ok (k_bcache s')).
Proof.
  intros Hc Hb Hi. destruct o as [dev blockno|i|i|i|i]; cbn [run_cache_op].
  - apply post_bind. eapply post_mono; [by apply bread_cache_ok| |done]. intros ? ? ?. by apply post_ret.
  - by apply bwrite_cache_ok.
  - by apply brelse_cache_ok.
  - by apply bpin_cache_ok.
  - by apply bunpin_cache_ok.
Qed.

(** ** Running brelse *)
Definition drop_ref (b : buf) : buf :=
  set_b_refcnt (fun r => u32 (r - 1)) (set_b_lock (fun _ => mkSleeplock false 0) b).

Lemma snoc_eq_last {A} (l : list A) x : last (l ++ [x]) = Some x.
Proof. apply last_snoc. Qed.

(** Releasing the last reference: the entry keeps its contents and goes to the tail. *)
Lemma brelse_run s order i b :
  calm s -> ring (k_bcache s) order -> k_bcache s !! i = Some b -> (i < NBUF)%nat ->
  holds_sl (SlBuf i) s -> b_refcnt b = 1 ->
  exists bs' order',
    brelse i s = Ret tt (set_k_procs (wake_table (k_cur s) (ChSleeplock (SlBuf i)))
                           (set_k_bcache (fun _ => bs') s)) /\
    ring bs' order' /\ relinked (alter drop_ref i (k_bcache s)) bs' /\ last order' = Some i.
Proof.
  intros Hc Hr Hb Hi Hl Hone. set (bs1 := alter drop_ref i (k_bcache s)).
  set (b1 := drop_ref b).
  assert (Hb1 : bs1 !! i = Some b1) by (unfold bs1; by rewrite list_lookup_alter_eq, Hb).
  assert (Hr1 : ring bs1 order) by by apply ring_alter.
  set (s0 := set_k_procs (wake_table (k_cur s) (ChSleeplock (SlBuf i)))
               (put_sl (SlBuf i) (mkSleeplock false 0) s)).
  assert (Hc0 : calm s0) by (apply (calm_wake (put_sl (SlBuf i) (mkSleeplock false 0) s)), calm_put_sl, Hc).
  set (s1 := set_k_bcache (fun _ => bs1) (set_k_hart (hart_acquire LkBcache) s0)).
  assert (Hpre : forall k : K unit,
    brelse i s = (do! when (negb (b_next b1 =? HEAD)%nat) (move_to_tail i); release LkBcache) s1).
  { intros _. unfold brelse. erewrite bind_Ret by (by apply holdingsleep_held). cbn [negb].
    erewrite bind_Ret by (by apply releasesleep_run). fold s0.
    lock_step Hc0. unfold upd_buf. rewrite bind_modify.
    assert (E : set_k_bcache (alter (set_b_refcnt (fun r => u32 (r - 1))) i)
                  (set_k_hart (hart_acquire LkBcache) s0) = s1).
    { keq. unfold s0. cbn [put_sl]. kcbn. by rewrite alter_twice. }
    rewrite E. unfold bind at 1, get_buf. change (k_bcache s1) with bs1. rewrite Hb1.
    assert (E2 : (b_refcnt b1 =? 0) = true) by (unfold b1, drop_ref; cbn; by rewrite Hone).
    by rewrite E2. }
  rewrite (Hpre (ret tt)). clear Hpre.
  assert (Hfin : forall bs', release LkBcache (set_k_bcache (fun _ => bs') s1) =
    Ret tt (set_k_procs (wake_table (k_cur s) (ChSleeplock (SlBuf i))) (set_k_bcache (fun _ => bs') s))).
  { intros bs'. rewrite (release_after _ s0); [|apply Hc0|apply calm_fresh, Hc0|done]. keq. }
  destruct (ring_split _ _ i Hr1 Hi) as (l1 & l2 & ->).
  destruct (decide (l2 = [])) as [->|Hne].
  - exists bs1, (l1 ++ [i]). split_and!; [|done|done|apply last_snoc].
    assert (En : b_next b1 = HEAD) by (by apply (ring_next_tail _ _ _ _ _ Hr1 Hb1)).
    rewrite En, Nat.eqb_refl. cbn [negb when]. rewrite bind_ret. exact (Hfin bs1).
  - assert (En : (b_next b1 =? HEAD)%nat = false).
    { apply Nat.eqb_neq. by rewrite (ring_next_tail _ _ _ _ _ Hr1 Hb1). }
    rewrite En. cbn [negb when].
    destruct (move_to_tail_ring s1 l1 i l2 Hr1 Hne) as (bs' & Hm & Hr' & Hrl).
    exists bs', (l1 ++ l2 ++ [i]). split_and!; [|done|done|rewrite app_assoc; apply last_snoc].
    run_ret Hm. exact (Hfin bs').
Qed.

Lemma caches_unlinked dev blockno b c :
  unlinked b = unlinked c -> caches dev blockno b = caches dev blockno c.
Proof. destruct b, c. cbn. intros. by simplify_eq. Qed.

Lemma relinked_back bs bs' j c :
  relinked bs bs' -> bs' !! j = Some c -> exists b, bs !! j = Some b /\ unlinked b = unlinked c.
Proof. intros Hrl. apply relinked_lookup. intros k. by rewrite Hrl. Qed.

Lemma first_miss test bs l :
  (forall j c, j ∈ l -> bs !! j = Some c -> test c = false) -> first test bs l = None.
Proof.
  induction l as [|x l IH]; intros H; cbn [first]; [done|].
  destruct (bs !! x) as [c|] eqn:Hc; [|done]. rewrite (H x c ltac:(left) Hc).
  apply IH. intros j d Hj. apply H. by right.
Qed.

Lemma first_last test bs order i b :
  last order = Some i -> bs !! i = Some b -> test b = true ->
  first test bs (reverse order) = Some i.
Proof.
  intros Hl Hb Ht. apply last_Some in Hl as [l ->]. rewrite reverse_snoc. cbn [first].
  by rewrite Hb, Ht.
Qed.

(** C38. Eviction takes the most recently released buffer.  brelse puts a buffer whose
    last reference is dropped at the tail of the list, and bget looks for a victim
    from the tail: the next block that is not cached takes the very buffer that was
    just released, whatever the other free buffers are. *)
Theorem bget_evicts_last_released s i b dev blockno :
  calm s -> cache_ok (k_bcache s) -> (i < NBUF)%nat -> k_bcache s !! i = Some b ->
  holds_sl (SlBuf i) s -> b_refcnt b = 1 -> b_pinned b = 0 ->
  (forall j c, (j < NBUF)%nat -> k_bcache s !! j = Some c -> caches dev blockno c = false) ->
  exists s1 s2, brelse i s = Ret tt s1 /\ bget dev blockno s1 = Ret i s2.
Proof.
  intros Hc [[order Hr] _ _] Hi Hb Hl Hone Hpin Hmiss.
  destruct (brelse_run s order i b) as (bs' & order' & Hrun & Hr' & Hrl & Hlast); [done..|].
  destruct (relinked_lookup _ _ i (drop_ref b) Hrl) as (b' & Hb' & E);
    [by rewrite list_lookup_alter_eq, Hb|].
  eexists. eexists. split; [exact Hrun|]. eapply (bget_miss _ order').
  - by apply (calm_wake (set_k_bcache (fun _ => bs') s)), (calm_frame s).
  - done.
  - apply first_miss. intros j c Hj Hcj. kcbn in Hcj.
    destruct (relinked_back _ _ _ _ Hrl Hcj) as (c0 & Hc0 & E0).
    rewrite <- (caches_unlinked _ _ _ _ E0). apply (ring_elem _ _ _ Hr') in Hj.
    destruct (decide (i = j)) as [<-|Hne].
    + rewrite list_lookup_alter_eq, Hb in Hc0. cbn in Hc0. simplify_eq. by apply (Hmiss i b).
    + rewrite list_lookup_alter_ne in Hc0 by done. by apply (Hmiss j c0).
  - apply (first_last _ _ _ _ b' Hlast); [done|]. destruct b, b'; cbn in E; simplify_eq/=.
    unfold evictable. cbn. done.
  - exact Hb'.
  - destruct b, b'; cbn in E; simplify_eq/=. done.
Qed.

(** ** Running binit *)
Definition zeroed (b : buf) : Prop := b_dev b = 0 /\ b_refcnt b = 0 /\ b_pinned b = 0.

(** One iteration pushes the buffer at the front of the list. *)
Definition push_links (k y : nat) (bs : list buf) : list buf :=
  alter (set_b_next (fun _ => k)) HEAD
  (alter (set_b_prev (fun _ => k)) y
  (alter (set_b_lock (fun _ => mkSleeplock false 0)) k
  (alter (set_b_prev (fun _ => HEAD)) k
  (alter (set_b_next (fun _ => y)) k bs)))).

Lemma nxt_set_lock bs f i j : nxt (alter (set_b_lock f) i bs) j = nxt bs j.
Proof. rewrite nxt_alter. case_decide; [|done]. unfold nxt. by destruct (bs !! j). Qed.
Lemma prv_set_lock bs f i j : prv (alter (set_b_lock f) i bs) j = prv bs j.
Proof. rewrite prv_alter. case_decide; [|done]. unfold prv. by destruct (bs !! j). Qed.
#[export] Hint Rewrite nxt_set_lock prv_set_lock : links.

Lemma push_links_path bs k y order :
  NoDup (k :: order ++ [HEAD]) -> (k < length bs)%nat -> (y < length bs)%nat -> (HEAD < length bs)%nat ->
  head (order ++ [HEAD]) = Some y ->
  dpath bs (order ++ [HEAD]) -> dpath (push_links k y bs) (HEAD :: k :: order ++ [HEAD]).
Proof.
  intros Hnd Hk Hy Hh Ehd Hd.
  assert (Hn : forall j, nxt (push_links k y bs) j =
    if decide (HEAD = j) then Some k else if decide (k = j) then Some y else nxt bs j).
  { intros j. unfold push_links. by autorewrite with links. }
  assert (Hv : forall j, prv (push_links k y bs) j =
    if decide (y = j) then Some k else if decide (k = j) then Some HEAD else prv bs j).
  { intros j. unfold push_links. by autorewrite with links. }
  set (bs' := push_links k y bs) in *. clearbody bs'.
  apply NoDup_cons in Hnd as [Hk' Hnd]. pose proof Hnd as Hnd2.
  assert (Hko : (k ∉ order) /\ HEAD ≠ k) by (clear -Hk'; set_solver). destruct Hko as [Hko Hhk].
  apply NoDup_app in Hnd2 as (_ & Hho & _).
  assert (Hd' : dpath bs' (order ++ [HEAD])).
  { apply (dpath_frame bs); [| |done]; intros j Hj.
    - rewrite Hn. specialize (Hho j Hj). rewrite decide_False by (clear -Hho; set_solver).
      rewrite decide_False; [done|by intros ->].
    - assert (Hjo : j ∈ order ++ [HEAD] /\ j ≠ y).
      { destruct (order ++ [HEAD]) as [|z L]; [done|]. cbn in Ehd, Hj. simplify_eq.
        apply NoDup_cons in Hnd as [Hyn _]. split; [by right|]. intros ->. done. }
      destruct Hjo as [Hjo Hjy].
      rewrite Hv. rewrite decide_False by done. rewrite decide_False; [done|by intros ->]. }
  destruct (order ++ [HEAD]) as [|z L] eqn:Eo; [done|]. cbn in Ehd. simplify_eq.
  assert (Hyk : y ≠ k) by (intros ->; apply Hk'; left).
  split; [rewrite Hn; by links_ne|]. split; [rewrite Hv; by links_ne|].
  split; [rewrite Hn; by links_ne|]. split; [rewrite Hv; by links_ne|exact Hd'].
Qed.

Lemma binit_one_run s k order :
  length (k_bcache s) = S NBUF -> (k < NBUF)%nat -> NoDup (k :: order ++ [HEAD]) ->
  Forall (fun j => (j < NBUF)%nat) order ->
  dpath (k_bcache s) (HEAD :: order ++ [HEAD]) ->
  exists y h, binit_one k s = Ret tt (set_k_bcache (push_links k y) (set_k_hart h s)) /\
    dpath (push_links k y (k_bcache s)) (HEAD :: k :: order ++ [HEAD]).
Proof.
  intros Hlen Hk Hnd Hord Hd.
  assert (exists y L, order ++ [HEAD] = y :: L) as (y & L & Ey) by (destruct order; cbn; eauto).
  assert (Hy : (y < length (k_bcache s))%nat).
  { assert (Hin : y ∈ order ++ [HEAD]) by (rewrite Ey; left).
    apply elem_of_app in Hin as [Hin|Hin]; [|apply list_elem_of_singleton in Hin as ->; unfold HEAD; lia].
    rewrite Forall_forall in Hord. specialize (Hord y Hin). lia. }
  assert (exists hd, k_bcache s !! HEAD = Some hd) as [hd Hhd].
  { apply lookup_lt_is_Some_2. rewrite Hlen. unfold HEAD. lia. }
  rewrite Ey in Hd. destruct Hd as (Hn & _ & Hd). unfold nxt in Hn. rewrite Hhd in Hn. cbn in Hn. simplify_eq.
  exists (b_next hd), (set_h_locks (fun Lk => Lk ∖ {[LkSleep (SlBuf k)]})). split.
  - unfold binit_one. unfold bind at 1, get_buf. rewrite Hhd. unfold upd_buf. rewrite !bind_modify.
    unfold initsleeplock, initlock, set_sleeplock. rewrite bind_assoc, !bind_modify. cbn [put_sl].
    unfold bind at 1. kcbn. rewrite !list_lookup_alter_ne, Hhd by (unfold HEAD; lia).
    rewrite bind_modify. unfold modify. by keq.
  - apply push_links_path; [done|lia|done|unfold HEAD; lia|by rewrite Ey|by rewrite Ey].
Qed.

Lemma push_links_frame k y bs j b' :
  push_links k y bs !! j = Some b' ->
  exists b, bs !! j = Some b /\ (zeroed b -> zeroed b') /\
    (sl_locked (b_lock b) = false -> sl_locked (b_lock b') = false) /\
    (j = k -> sl_locked (b_lock b') = false).
Proof.
  unfold push_links. rewrite !list_lookup_alter. intros H.
  repeat case_decide; subst;
    (match goal with E : context [bs !! ?z] |- _ => destruct (bs !! z) as [b|] eqn:? end);
    cbn in H; simplify_eq; eexists; (split; [first [reflexivity|eassumption]|]); split_and!; done.
Qed.

Lemma binit_range s k n order :
  length (k_bcache s) = S NBUF -> (k + n <= NBUF)%nat -> NoDup order ->
  Forall (fun j => (j < k)%nat) order ->
  dpath (k_bcache s) (HEAD :: order ++ [HEAD]) ->
  Forall zeroed (k_bcache s) ->
  (forall j b, j ∈ order -> k_bcache s !! j = Some b -> sl_locked (b_lock b) = false) ->
  exists s', each (seq k n) binit_one s = Ret tt s' /\
    length (k_bcache s') = S NBUF /\
    dpath (k_bcache s') (HEAD :: (reverse (seq k n) ++ order) ++ [HEAD]) /\
    Forall zeroed (k_bcache s') /\
    (forall j b, j ∈ reverse (seq k n) ++ order -> k_bcache s' !! j = Some b ->
       sl_locked (b_lock b) = false).
Proof.
  revert k s order. induction n as [|n IH]; intros k s order Hlen Hkn Hnd Hord Hd Hz Hl.
  { exists s. cbn. by split_and!. }
  assert (Hko : k ∉ order) by (intros Hin; rewrite Forall_forall in Hord; specialize (Hord k Hin); lia).
  assert (Hnd' : NoDup (k :: order ++ [HEAD])).
  { apply NoDup_cons. split.
    - rewrite elem_of_app, list_elem_of_singleton. unfold HEAD. intros [|]; [done|lia].
    - apply NoDup_app. split_and!; [done| |apply NoDup_singleton]. intros j Hj.
      rewrite Forall_forall in Hord. specialize (Hord j Hj).
      rewrite list_elem_of_singleton. unfold HEAD. lia. }
  destruct (binit_one_run s k order Hlen ltac:(lia) Hnd') as (y & h & Hrun & Hd').
  { eapply Forall_impl; [exact Hord|]. cbn. lia. }
  { done. }
  cbn [seq each]. run_ret Hrun.
  destruct (IH (S k) (set_k_bcache (push_links k y) (set_k_hart h s)) (k :: order))
    as (s' & Hr & Hlen' & Hd2 & Hz' & Hl'); kcbn.
  - unfold push_links. by rewrite !length_alter.
  - lia.
  - by constructor.
  - constructor; [lia|]. eapply Forall_impl; [exact Hord|]. cbn. lia.
  - done.
  - apply Forall_lookup. intros j b' Hj. destruct (push_links_frame _ _ _ _ _ Hj) as (b & Hb & Hzz & _).
    rewrite Forall_lookup in Hz. apply Hzz, (Hz j b Hb).
  - intros j b' Hj Hb'. destruct (push_links_frame _ _ _ _ _ Hb') as (b & Hb & _ & Hl1 & Hl2).
    apply elem_of_cons in Hj as [->|Hj]; [by apply Hl2|by apply Hl1, (Hl j)].
  - exists s'. rewrite reverse_cons, <- (app_assoc _ [k] order). by split_and!.
Qed.

(** The loop of binit, from the zeroed cache. *)
Lemma binit_run s :
  length (k_bcache s) = S NBUF -> Forall zeroed (k_bcache s) ->
  exists s', binit s = Ret tt s' /\ ring (k_bcache s') (reverse (seq 0 NBUF)) /\
    cache_ok (k_bcache s') /\
    (forall i b, (i < NBUF)%nat -> k_bcache s' !! i = Some b -> sl_locked (b_lock b) = false).
Proof.
  intros Hlen Hz. unfold binit, initlock, upd_buf. rewrite !bind_modify.
  set (s0 := set_k_bcache _ _).
  destruct (binit_range s0 0 NBUF []) as (s' & Hr & Hlen' & Hd & Hz' & Hl); unfold s0; kcbn.
  - by rewrite !length_alter.
  - lia.
  - constructor.
  - constructor.
  - cbn [app dpath]. rewrite nxt_set_next, decide_True, prv_set_next, prv_set_prev, decide_True;
      rewrite ?length_alter, ?Hlen; try done; unfold HEAD; lia.
  - apply Forall_lookup. intros j b. rewrite Forall_lookup in Hz. rewrite !list_lookup_alter. intros H.
    repeat case_decide; subst;
    (match goal with E : context [k_bcache s !! ?z] |- _ => destruct (k_bcache s !! z) as [c|] eqn:Hc end);
    cbn in H; simplify_eq; exact (Hz _ _ Hc).
  - set_solver.
  - rewrite app_nil_r in Hd, Hl. exists s'.
    assert (Hring : ring (k_bcache s') (reverse (seq 0 NBUF))).
    { split_and!; [done|apply reverse_Permutation|done]. }
    assert (Hun : forall i b, (i < NBUF)%nat -> k_bcache s' !! i = Some b -> sl_locked (b_lock b) = false).
    { intros i b Hi. apply Hl. rewrite elem_of_reverse, elem_of_seq. lia. }
    split_and!; [done|done| |done]. rewrite Forall_lookup in Hz'.
    split; [eauto|..].
    + intros i b Hi Hb. destruct (Hz' i b Hb) as (E1 & E2 & E3).
      split; [by rewrite E2|by rewrite E3|]. rewrite (Hun i b Hi Hb). done.
    + intros i j b c _ _ Hb _ Hdev. destruct (Hz' i b Hb) as (E1 & _). done.
Qed.

(** binit builds the ring.  From the zeroed cache the loader leaves, it returns
    with every entry in the list, unlocked and unreferenced, in the order buf[NBUF-1]
    first to buf[0] last, and the cache invariant holds. *)
Theorem binit_correct s :
  length (k_bcache s) = S NBUF -> Forall zeroed (k_bcache s) ->
  exists s', binit s = Ret tt s' /\ ring (k_bcache s') (reverse (seq 0 NBUF)) /\
    cache_ok (k_bcache s') /\
    (forall i b, (i < NBUF)%nat -> k_bcache s' !! i = Some b -> sl_locked (b_lock b) = false).
Proof. apply binit_run. Qed.

Lemma binit_correct_witness :
  exists s', binit boot_state = Ret tt s' /\ ring (k_bcache s') (reverse (seq 0 NBUF)) /\
    cache_ok (k_bcache s') /\
    (forall i b, (i < NBUF)%nat -> k_bcache s' !! i = Some b -> sl_locked (b_lock b) = false).
Proof.
  apply (binit_correct boot_state); [reflexivity|].
  apply Forall_replicate. done.
Defined.
