(* ===== verification/Block.v ===== *)
(** * Blocks through the cache

    What the buffer cache promises the log and the file system: the contents of a
    block seen through the cache are one function of the state ([view]); bread pins
    down a locked buffer that holds them; only an update of a held buffer, followed
    by bwrite, changes the disk; a released buffer is either pinned or equal to the
    disk, so recycling it loses nothing. *)

From S2P Require Import Prelude Params Machine Spinlock Sched CString Bio BioSpec.

(** ** Frames

    The cache operations change the cache, the disk and, by waking sleepers, the
    states of other processes; nothing else. *)
Definition woken (cur : option nat) (ps ps' : list proc) : Prop :=
  length ps' = length ps /\
  (forall j, cur = Some j -> ps' !! j = ps !! j) /\
  (forall j, set_p_state (fun _ => UNUSED) <$> ps' !! j = set_p_state (fun _ => UNUSED) <$> ps !! j).

Definition io_frame (s s' : kstate) : Prop :=
  exists bs d ps, s' = set_k_procs (fun _ => ps) (set_k_disk (fun _ => d) (set_k_bcache (fun _ => bs) s)) /\
    woken (k_cur s) (k_procs s) ps.

Lemma woken_refl cur ps : woken cur ps ps.
Proof. done. Qed.

Lemma woken_trans cur ps1 ps2 ps3 : woken cur ps1 ps2 -> woken cur ps2 ps3 -> woken cur ps1 ps3.
Proof.
  intros (L1 & C1 & S1) (L2 & C2 & S2). split_and!.
  - congruence.
  - intros j Hj. by rewrite C2, C1.
  - intros j. by rewrite S2, S1.
Qed.

Lemma woken_wake_table cur ch ps : woken cur ps (wake_table cur ch ps).
Proof.
  split_and!; [apply length_wake_table|..].
  - intros j ->. rewrite lookup_wake_table. destruct (ps !! j); cbn; [|done]. by bdec.
  - intros j. rewrite lookup_wake_table. destruct (ps !! j) as [p|]; cbn; [|done].
    f_equal. case_bool_decide; [done|]. unfold wake. by destruct (_ && _).
Qed.

Lemma io_frame_refl s : io_frame s s.
Proof. exists (k_bcache s), (k_disk s), (k_procs s). split; [keq|apply woken_refl]. Qed.

Lemma io_frame_trans s1 s2 s3 : io_frame s1 s2 -> io_frame s2 s3 -> io_frame s1 s3.
Proof.
  intros (bs & d & ps & -> & W1) (bs' & d' & ps' & -> & W2). exists bs', d', ps'.
  split; [keq|]. by eapply woken_trans.
Qed.

Lemma io_frame_log s s' : io_frame s s' -> k_log s' = k_log s.
Proof. by intros (bs & d & ps & -> & _). Qed.

Lemma woken_mypid s ps : woken (k_cur s) (k_procs s) ps -> mypid (set_k_procs (fun _ => ps) s) = mypid s.
Proof.
  intros (_ & C & _). unfold mypid. kcbn. destruct (k_cur s) as [p|]; [|done]. by rewrite C.
Qed.

Lemma io_frame_mypid s s' : io_frame s s' -> mypid s' = mypid s.
Proof. intros (bs & d & ps & -> & W). exact (woken_mypid s ps W). Qed.

Lemma io_frame_calm s s' : io_frame s s' -> calm s -> calm s'.
Proof.
  intros (bs & d & ps & -> & L & C & _) [H1 H2 H3 (p & pr & Hp & Hpr)]. split; kcbn; [done|done|congruence|].
  exists p, pr. split; [done|]. by rewrite C.
Qed.

(** ** The contents of a block *)
Section Block.
Context (D : Z) (HD : D ≠ 0).

Definition find_buf (bs : list buf) (b : Z) : option buf :=
  match first (caches D b) bs (seq 0 NBUF) with
  | Some i => bs !! i
  | None => None
  end.

Definition contents (bs : list buf) (d : vdisk) (b : Z) : list Z :=
  match find_buf bs b with
  | Some x => if b_valid x then b_data x else disk_read d b
  | None => disk_read d b
  end.

(** The block [b] of device [D], and its pin count, as the kernel sees them. *)
Definition view (s : kstate) (b : Z) : list Z := contents (k_bcache s) (k_disk s) b.
Definition pins (s : kstate) (b : Z) : Z :=
  match find_buf (k_bcache s) b with Some x => b_pinned x | None => 0 end.

(** Buffer [i] caches block [b]. *)
Definition holds_block (bs : list buf) (i : nat) (b : Z) : Prop :=
  (i < NBUF)%nat /\ exists x, bs !! i = Some x /\ b_dev x = D /\ b_blockno x = b.

Lemma caches_true b x : caches D b x = true <-> b_dev x = D /\ b_blockno x = b.
Proof. unfold caches. rewrite andb_true_iff, !Z.eqb_eq. done. Qed.

Lemma cache_lookup bs i : cache_ok bs -> (i < NBUF)%nat -> is_Some (bs !! i).
Proof. intros [[order (Hl & _)] _ _] Hi. apply lookup_lt_is_Some_2. lia. Qed.

Lemma cache_all bs : cache_ok bs -> Forall (fun j => is_Some (bs !! j)) (seq 0 NBUF).
Proof.
  intros Hc. apply Forall_forall. intros j Hj. apply elem_of_seq in Hj. apply cache_lookup; [done|lia].
Qed.

Lemma find_buf_in bs i x b :
  cache_ok bs -> (i < NBUF)%nat -> bs !! i = Some x -> b_dev x = D -> b_blockno x = b ->
  find_buf bs b = Some x.
Proof.
  intros Hc Hi Hx Hdev Hb. unfold find_buf.
  destruct (first_is_Some (caches D b) bs (seq 0 NBUF) i x) as [j Hj].
  - by apply cache_all.
  - apply elem_of_seq. lia.
  - done.
  - by apply caches_true.
  - rewrite Hj. apply first_Some in Hj as (Hin & y & Hy & Ht). apply caches_true in Ht as [E1 E2].
    apply elem_of_seq in Hin. rewrite Hy. f_equal.
    assert (i = j) as <- by (eapply (co_uniq _ Hc i j x y); try done; try lia; congruence).
    congruence.
Qed.

Lemma find_buf_out bs b :
  (forall i x, (i < NBUF)%nat -> bs !! i = Some x -> ~ (b_dev x = D /\ b_blockno x = b)) ->
  find_buf bs b = None.
Proof.
  intros H. unfold find_buf. rewrite first_miss; [done|]. intros j c Hj Hc.
  apply elem_of_seq in Hj. apply not_true_is_false. rewrite caches_true. apply (H j); [lia|done].
Qed.

Lemma find_buf_cases bs b :
  cache_ok bs ->
  (exists i, holds_block bs i b) \/
  (forall i x, (i < NBUF)%nat -> bs !! i = Some x -> ~ (b_dev x = D /\ b_blockno x = b)).
Proof.
  intros Hc. destruct (first (caches D b) bs (seq 0 NBUF)) as [i|] eqn:E.
  - left. apply first_Some in E as (Hin & y & Hy & Ht). apply caches_true in Ht as [E1 E2].
    apply elem_of_seq in Hin. exists i. split; [lia|by exists y].
  - right. intros i x Hi Hx. rewrite <- caches_true.
    rewrite (first_None _ _ _ (cache_all _ Hc) E i x); [done| |done]. apply elem_of_seq. lia.
Qed.

(** Only the identity, the contents and the pins of the buffers matter. *)
Definition payload (x : buf) := (b_dev x, b_blockno x, b_valid x, b_data x, b_pinned x).

Lemma payload_alter f (i : nat) (bs : list buf) (j : nat) :
  (forall x, payload (f x) = payload x) -> payload <$> alter f i bs !! j = payload <$> bs !! j.
Proof.
  intros Hf. destruct (decide (i = j)) as [->|Hne].
  - rewrite list_lookup_alter_eq. destruct (bs !! j); cbn; [by rewrite Hf|done].
  - by rewrite list_lookup_alter_ne.
Qed.

Lemma find_buf_payload bs bs' b :
  (forall j, payload <$> bs' !! j = payload <$> bs !! j) ->
  payload <$> find_buf bs' b = payload <$> find_buf bs b.
Proof.
  intros H. unfold find_buf.
  assert (E : forall l, first (caches D b) bs' l = first (caches D b) bs l).
  { induction l as [|j l IH]; cbn [first]; [done|]. specialize (H j).
    destruct (bs' !! j) as [x'|], (bs !! j) as [x|]; try done.
    injection H as E1 E2 _ _ _. rewrite IH. unfold caches at 1 3. by rewrite E1, E2. }
  rewrite E. destruct (first _ bs _); [apply H|done].
Qed.

Lemma contents_payload bs bs' d b :
  (forall j, payload <$> bs' !! j = payload <$> bs !! j) -> contents bs' d b = contents bs d b.
Proof.
  intros H. pose proof (find_buf_payload bs bs' b H) as E. unfold contents.
  destruct (find_buf bs' b) as [x'|], (find_buf bs b) as [x|]; try done.
  injection E as _ _ E3 E4 _. by rewrite E3, E4.
Qed.

Lemma pins_payload s s' b :
  (forall j, payload <$> k_bcache s' !! j = payload <$> k_bcache s !! j) -> pins s' b = pins s b.
Proof.
  intros H. pose proof (find_buf_payload _ _ b H) as E. unfold pins.
  destruct (find_buf (k_bcache s') b), (find_buf (k_bcache s) b); try done. by injection E.
Qed.

(** ** The invariant of a thread that holds the buffers [H] *)
Record buf_inv (d : vdisk) (pid : Z) (held : bool) (x : buf) : Prop := mkBufInv {
  bi_valid : b_valid x = true -> length (b_data x) = BSIZE /\ b_dev x = D;
  bi_dev : b_dev x = D -> b_valid x = true;
  bi_pin : b_pinned x ≠ 0 -> b_valid x = true;
  bi_lock : if held then b_refcnt x = 1 /\ b_lock x = mkSleeplock true pid /\ b_valid x = true
            else b_refcnt x = 0 /\ sl_locked (b_lock x) = false;
  bi_clean : held = false -> b_valid x = true -> b_pinned x = 0 -> b_data x = disk_read d (b_blockno x) }.

Definition disk_ok (d : vdisk) : Prop := forall b, length (disk_read d b) = BSIZE.

Record binv (H : gset nat) (s : kstate) : Prop := mkBinv {
  bv_calm : calm s;
  bv_cache : cache_ok (k_bcache s);
  bv_disk : disk_ok (k_disk s);
  bv_held : forall i, i ∈ H -> (i < NBUF)%nat;
  bv_buf : forall i x, (i < NBUF)%nat -> k_bcache s !! i = Some x ->
    buf_inv (k_disk s) (mypid s) (bool_decide (i ∈ H)) x }.

Lemma binv_refs H s : binv H s -> refs_bounded (k_bcache s).
Proof.
  intros Hv i b Hi Hb. destruct (bv_buf _ _ Hv i b Hi Hb) as [_ _ _ Hl _].
  case_bool_decide; destruct Hl as [-> _]; done.
Qed.

Lemma virtio_in_range b : 0 <= b < 2 ^ 32 -> (Z.land b 0x1fffffffffffffff =? 0x1fffffffffffffff) = false.
Proof.
  intros Hb. change 0x1fffffffffffffff with (Z.ones 61). rewrite Z.land_ones by lia.
  rewrite Z.mod_small by lia. apply Z.eqb_neq. change (Z.ones 61) with (2 ^ 61 - 1). lia.
Qed.

Lemma view_in s i x b :
  cache_ok (k_bcache s) -> (i < NBUF)%nat -> k_bcache s !! i = Some x -> b_dev x = D -> b_blockno x = b ->
  view s b = (if b_valid x then b_data x else disk_read (k_disk s) b) /\ pins s b = b_pinned x.
Proof.
  intros Hc Hi Hx H1 H2. unfold view, contents, pins. by rewrite (find_buf_in _ i x b).
Qed.

Lemma view_out s b :
  (forall i x, (i < NBUF)%nat -> k_bcache s !! i = Some x -> ~ (b_dev x = D /\ b_blockno x = b)) ->
  view s b = disk_read (k_disk s) b /\ pins s b = 0.
Proof. intros H. unfold view, contents, pins. by rewrite find_buf_out. Qed.

(** ** bread *)
Definition available (s : kstate) (b : Z) : Prop :=
  (exists i, holds_block (k_bcache s) i b) \/
  (exists j x, (j < NBUF)%nat /\ k_bcache s !! j = Some x /\ evictable x = true).

Definition unheld (H : gset nat) (s : kstate) (b : Z) : Prop :=
  forall i, i ∈ H -> ~ holds_block (k_bcache s) i b.

(** What a thread gets from bread: one more held buffer, and the same blocks. *)
Record bread_result (H : gset nat) (s : kstate) (b : Z) (i : nat) (s' : kstate) : Prop := mkBread {
  br_inv : binv ({[i]} ∪ H) s';
  br_new : i ∉ H;
  br_frame : io_frame s s';
  br_disk : k_disk s' = k_disk s;
  br_view : forall b', view s' b' = view s b';
  br_pins : forall b', pins s' b' = pins s b';
  br_holds : holds_block (k_bcache s') i b;
  br_kept : forall j, j ∈ H -> k_bcache s' !! j = k_bcache s !! j }.

Lemma io_frame_bcache s f : io_frame s (set_k_bcache f s).
Proof. exists (f (k_bcache s)), (k_disk s), (k_procs s). split; [keq|apply woken_refl]. Qed.

Lemma bread_hit H s b i :
  binv H s -> holds_block (k_bcache s) i b -> unheld H s b -> exists s', bread D b s = Ret i s' /\
    bread_result H s b i s'.
Proof.
  intros Hv Hh Hun. pose proof Hh as (Hi & x & Hx & Ed & Eb).
  assert (HiH : i ∉ H) by (intros Hin; by apply (Hun i)).
  destruct (bv_buf _ _ Hv i x Hi Hx) as [Hval Hdev Hpin Hlock Hclean].
  rewrite bool_decide_false in Hlock by done. destruct Hlock as [Href Hunl].
  destruct (co_ring _ (bv_cache _ _ Hv)) as [order Hr].
  assert (Hfirst : first (caches D b) (k_bcache s) order = Some i).
  { destruct (first_is_Some (caches D b) (k_bcache s) order i x) as [j Hj];
      [by apply ring_all|by apply (ring_elem _ _ _ Hr)|done|by apply caches_true|].
    rewrite Hj. f_equal. apply first_Some in Hj as (Hin & y & Hy & Ht). apply caches_true in Ht as [E1 E2].
    apply (ring_elem _ _ _ Hr) in Hin. symmetry.
    apply (co_uniq _ (bv_cache _ _ Hv) i j x y); try done; congruence. }
  set (s' := set_k_bcache (alter (take_ref (mypid s)) i) s).
  assert (Hbc : k_bcache s' = alter (take_ref (mypid s)) i (k_bcache s)) by done.
  assert (Hrun : bread D b s = Ret i s').
  { unfold bread. rewrite (bind_Ret _ _ _ _ _ (bget_hit s order D b i x (bv_calm _ _ Hv) Hr Hfirst Hx Hunl)).
    fold s'. unfold bind at 1, get_buf. rewrite Hbc, list_lookup_alter_eq, Hx. cbn [fmap option_fmap option_map].
    change (b_valid (take_ref (mypid s) x)) with (b_valid x). by rewrite (Hdev Ed). }
  assert (Hpay : forall j, payload <$> k_bcache s' !! j = payload <$> k_bcache s !! j).
  { intros j. rewrite Hbc. by apply payload_alter. }
  exists s'. split; [done|]. split; [|done|apply io_frame_bcache|done| | | |].
  - split.
    + apply (calm_frame s); try done. apply Hv.
    + exact (post_Ret _ _ _ _ _ _ (bread_cache_ok s D b (bv_cache _ _ Hv) (binv_refs _ _ Hv)) Hrun).
    + apply Hv.
    + intros j [->%elem_of_singleton|Hj]%elem_of_union; [done|by apply Hv].
    + intros j y Hj. rewrite Hbc, (mypid_frame s s') by done. destruct (decide (i = j)) as [<-|Hne].
      * rewrite list_lookup_alter_eq, Hx. intros [= <-]. rewrite bool_decide_true by set_solver.
        split; [done|done|done| |done]. cbn. rewrite Href. split_and!; [done|done|by apply Hdev].
      * rewrite list_lookup_alter_ne by done. intros Hy.
        rewrite (bool_decide_ext (j ∈ {[i]} ∪ H) (j ∈ H)) by set_solver. by apply Hv.
  - intros b'. by apply contents_payload.
  - intros b'. by apply pins_payload.
  - split; [done|]. exists (take_ref (mypid s) x). by rewrite Hbc, list_lookup_alter_eq, Hx.
  - intros j Hj. rewrite Hbc, list_lookup_alter_ne; [done|]. by intros ->.
Qed.

(** Reading a block that is not cached into the recycled entry [i]. *)
Definition refill (pid b : Z) (data : list Z) (x : buf) : buf :=
  set_b_valid (fun _ => true) (set_b_data (fun _ => data) (lock_buf pid (recycle D b x))).

Lemma bread_miss_run H s b :
  binv H s -> 0 <= b < 2 ^ 32 ->
  (forall i x, (i < NBUF)%nat -> k_bcache s !! i = Some x -> ~ (b_dev x = D /\ b_blockno x = b)) ->
  (exists j x, (j < NBUF)%nat /\ k_bcache s !! j = Some x /\ evictable x = true) ->
  exists i x, bread D b s =
      Ret i (set_k_bcache (alter (refill (mypid s) b (disk_read (k_disk s) b)) i) s) /\
    (i < NBUF)%nat /\ (i ∉ H) /\ k_bcache s !! i = Some x /\ b_pinned x = 0.
Proof.
  intros Hv Hb Hout (j & y & Hj & Hy & Hev).
  destruct (co_ring _ (bv_cache _ _ Hv)) as [order Hr].
  assert (Hfirst : first (caches D b) (k_bcache s) order = None).
  { apply first_miss. intros k c Hk Hc. apply (ring_elem _ _ _ Hr) in Hk.
    apply not_true_is_false. rewrite caches_true. by apply (Hout k). }
  destruct (first_is_Some evictable (k_bcache s) (reverse order) j y) as [i Hi]; [|by
    rewrite elem_of_reverse; apply (ring_elem _ _ _ Hr)|done|done|].
  { apply Forall_reverse. by apply ring_all. }
  pose proof (first_Some _ _ _ _ Hi) as (Hin & x & Hx & Hevx).
  rewrite elem_of_reverse in Hin. apply (ring_elem _ _ _ Hr) in Hin.
  apply andb_prop in Hevx as [Href Hpin]. apply Z.eqb_eq in Href, Hpin.
  destruct (bv_buf _ _ Hv i x Hin Hx) as [_ _ _ Hlock _].
  assert (HiH : i ∉ H).
  { intros HiH. rewrite bool_decide_true in Hlock by done. destruct Hlock as (E & _). congruence. }
  rewrite bool_decide_false in Hlock by done. destruct Hlock as [_ Hunl].
  exists i, x. split_and!; [|done..].
  unfold bread. rewrite (bind_Ret _ _ _ _ _ (bget_miss s order D b i x (bv_calm _ _ Hv) Hr Hfirst Hi Hx Hunl)).
  unfold bind at 1, get_buf. kcbn. rewrite list_lookup_alter_eq, Hx. cbn [fmap option_fmap option_map].
  cbn [b_valid lock_buf recycle set_b_lock set_b_refcnt set_b_valid set_b_dev set_b_blockno negb when].
  unfold virtio_disk_rw. rewrite virtio_in_range by done.
  rewrite bind_assoc, bind_gets. unfold upd_buf. rewrite bind_assoc, !bind_modify. unfold ret. kcbn. keq.
  by rewrite !alter_twice.
Qed.

Lemma bread_miss H s b :
  binv H s -> 0 <= b < 2 ^ 32 ->
  (forall i x, (i < NBUF)%nat -> k_bcache s !! i = Some x -> ~ (b_dev x = D /\ b_blockno x = b)) ->
  (exists j x, (j < NBUF)%nat /\ k_bcache s !! j = Some x /\ evictable x = true) ->
  exists i s', bread D b s = Ret i s' /\ bread_result H s b i s'.
Proof.
  intros Hv Hb Hout Hav.
  destruct (bread_miss_run H s b Hv Hb Hout Hav) as (i & x & Hrun & Hi & HiH & Hx & Hpin).
  set (f := refill _ _ _) in Hrun. set (s' := set_k_bcache _ s) in Hrun.
  assert (Hbc : k_bcache s' = alter f i (k_bcache s)) by done.
  assert (Hfx : k_bcache s' !! i = Some (f x)) by by rewrite Hbc, list_lookup_alter_eq, Hx.
  assert (Hne : forall j, i ≠ j -> k_bcache s' !! j = k_bcache s !! j)
    by (intros j Hj; by rewrite Hbc, list_lookup_alter_ne).
  destruct (bv_buf _ _ Hv i x Hi Hx) as [Hval Hdev _ _ Hclean].
  rewrite bool_decide_false in Hclean by done. specialize (fun Hvl => Hclean eq_refl Hvl Hpin).
  assert (Hck : cache_ok (k_bcache s'))
    by exact (post_Ret _ _ _ _ _ _ (bread_cache_ok s D b (bv_cache _ _ Hv) (binv_refs _ _ Hv)) Hrun).
  assert (Hother : forall b', b' ≠ b -> view s' b' = view s b' /\ pins s' b' = pins s b').
  { intros b' Hbb. destruct (find_buf_cases (k_bcache s) b' (bv_cache _ _ Hv)) as [(j & Hj & y & Hy & E1 & E2)|Hno].
    - destruct (view_in s j y b') as [-> ->]; [apply Hv|done..|].
      destruct (decide (i = j)) as [<-|Hij].
      + assert (y = x) as -> by congruence. destruct (view_out s' b') as [-> ->].
        * intros k z Hk Hz [F1 F2]. destruct (decide (i = k)) as [<-|Hik].
          -- rewrite Hfx in Hz. injection Hz as <-. apply Hbb. by rewrite <- F2.
          -- rewrite Hne in Hz by done.
             apply Hik. apply (co_uniq _ (bv_cache _ _ Hv) i k x z); try done; congruence.
        * rewrite Hpin. split; [|done]. rewrite (Hdev E1), <- E2. symmetry. apply Hclean, Hdev, E1.
      + destruct (view_in s' j y b') as [-> ->]; try done. by rewrite Hne.
    - destruct (view_out s b' Hno) as [-> ->]. apply (view_out s' b').
      intros k z Hk Hz [F1 F2]. destruct (decide (i = k)) as [<-|Hik].
      + rewrite Hfx in Hz. injection Hz as <-. apply Hbb. by rewrite <- F2.
      + rewrite Hne in Hz by done. by apply (Hno k z). }
  assert (Hsame : view s' b = view s b /\ pins s' b = pins s b).
  { destruct (view_out s b Hout) as [-> ->]. by destruct (view_in s' i (f x) b) as [-> ->]. }
  exists i, s'. split; [done|]. split; [|done|apply io_frame_bcache|done| | | |].
  - split; [apply (calm_frame s); try done; apply Hv|done|apply Hv| |].
    + intros j [->%elem_of_singleton|Hj]%elem_of_union; [done|by apply Hv].
    + intros j y Hj. rewrite (mypid_frame s s') by done. destruct (decide (i = j)) as [<-|Hij].
      * rewrite Hfx. intros [= <-]. rewrite bool_decide_true by set_solver.
        split; [|done|done|done|done]. intros _. split; [apply (bv_disk _ _ Hv)|done].
      * rewrite Hne by done. intros Hy.
        rewrite (bool_decide_ext (j ∈ {[i]} ∪ H) (j ∈ H)) by set_solver. by apply Hv.
  - intros b'. destruct (decide (b' = b)) as [->|Hbb]; [apply Hsame|by apply Hother].
  - intros b'. destruct (decide (b' = b)) as [->|Hbb]; [apply Hsame|by apply Hother].
  - split; [done|]. by exists (f x).
  - intros j Hj. apply Hne. by intros ->.
Qed.

Lemma bread_spec H s b :
  binv H s -> 0 <= b < 2 ^ 32 -> unheld H s b -> available s b ->
  exists i s', bread D b s = Ret i s' /\ bread_result H s b i s'.
Proof.
  intros Hv Hb Hun Hav. destruct (find_buf_cases (k_bcache s) b (bv_cache _ _ Hv)) as [[i Hi]|Hno].
  - exists i. by apply bread_hit.
  - apply bread_miss; [done|done|done|]. destruct Hav as [(i & Hi & x & Hx & E)|Hav]; [|done].
    by destruct (Hno i x Hi Hx).
Qed.

(** ** Updating, writing, pinning and releasing a held buffer *)
Lemma holds_held H s i b :
  binv H s -> i ∈ H -> holds_block (k_bcache s) i b ->
  exists x, k_bcache s !! i = Some x /\ (i < NBUF)%nat /\ b_dev x = D /\ b_blockno x = b /\
    b_refcnt x = 1 /\ b_lock x = mkSleeplock true (mypid s) /\ b_valid x = true /\
    b_data x = view s b /\ b_pinned x = pins s b /\ length (b_data x) = BSIZE.
Proof.
  intros Hv HiH (Hi & x & Hx & Ed & Eb). exists x.
  destruct (bv_buf _ _ Hv i x Hi Hx) as [Hval Hdev _ Hl _].
  rewrite bool_decide_true in Hl by done. destruct Hl as (Href & Hlk & Hvalid).
  destruct (view_in s i x b) as [Hview Hpins]; [apply Hv|done..|]. rewrite Hvalid in Hview.
  destruct (Hval Hvalid). by split_and!.
Qed.

Lemma holds_payload bs bs' i b :
  (forall j, payload <$> bs' !! j = payload <$> bs !! j) -> holds_block bs i b -> holds_block bs' i b.
Proof.
  intros H (Hi & x & Hx & Ed & Eb). split; [done|]. specialize (H i). rewrite Hx in H.
  destruct (bs' !! i) as [x'|]; [|done]. injection H as E1 E2 _ _ _. exists x'. split_and!; congruence.
Qed.

(** Any number of buffers held or pinned short of NBUF leaves one to recycle. *)
Lemma available_count H s b (L : list Z) :
  binv H s -> (forall b', pins s b' ≠ 0 -> b' ∈ L) -> (size H + length L < NBUF)%nat -> available s b.
Proof.
  intros Hv HL Hsz. right.
  set (F := filter (fun i => i ∉ H) (seq 0 NBUF)).
  destruct (decide (Exists (fun i => b_pinned <$> k_bcache s !! i = Some 0) F)) as [Hex|Hno].
  { apply Exists_exists in Hex as (i & Hi & Hp). apply fmap_Some in Hp as (x & Hx & Hp). apply list_elem_of_filter in Hi as [HiH Hi].
    apply elem_of_seq in Hi. exists i, x. split_and!; [lia|done|].
    destruct (bv_buf _ _ Hv i x ltac:(lia) Hx) as [_ _ _ Hl _].
    rewrite bool_decide_false in Hl by done. destruct Hl as [Hr _]. unfold evictable. by rewrite Hr, <- Hp. }
  exfalso.
  assert (Hpinned : forall i, i ∈ F -> exists x, (i < NBUF)%nat /\ k_bcache s !! i = Some x /\
    b_dev x = D /\ b_blockno x ∈ L).
  { intros i Hi. pose proof Hi as Hi'. apply list_elem_of_filter in Hi' as [HiH Hin]. apply elem_of_seq in Hin.
    destruct (cache_lookup _ i (bv_cache _ _ Hv)) as [x Hx]; [lia|]. exists x.
    destruct (decide (b_pinned x = 0)) as [E|E].
    { exfalso. apply Hno, Exists_exists. exists i. split; [done|]. by rewrite Hx; cbn; rewrite E. }
    destruct (bv_buf _ _ Hv i x ltac:(lia) Hx) as [Hval _ Hpin _ _].
    destruct (Hval (Hpin E)) as [_ Ed]. split_and!; [lia|done|done|]. apply HL.
    destruct (view_in s i x (b_blockno x)) as [_ ->]; [apply Hv|lia|done..|done]. }
  set (blk := fun i => match k_bcache s !! i with Some x => b_blockno x | None => 0 end).
  assert (Hle : (length (blk <$> F) <= length L)%nat).
  { apply submseteq_length, NoDup_submseteq.
    - apply NoDup_fmap_2_strong; [|apply NoDup_filter, NoDup_seq].
      intros i j Hi Hj E. destruct (Hpinned i Hi) as (x & Hi' & Hx & Ed & _).
      destruct (Hpinned j Hj) as (y & Hj' & Hy & Ed' & _). unfold blk in E. rewrite Hx, Hy in E.
      apply (co_uniq _ (bv_cache _ _ Hv) i j x y); try done; congruence.
    - intros z (i & -> & Hi)%list_elem_of_fmap. destruct (Hpinned i Hi) as (x & _ & Hx & _ & Hin).
      unfold blk. by rewrite Hx. }
  rewrite length_fmap in Hle.
  assert (Hsplit : (NBUF <= length F + size H)%nat).
  { assert (E : (size (list_to_set (C := gset nat) (seq 0 NBUF)) <= size (list_to_set (C := gset nat) F ∪ H))%nat).
    { apply subseteq_size. intros i Hi. apply elem_of_list_to_set in Hi.
      destruct (decide (i ∈ H)); [set_solver|]. apply elem_of_union_l, elem_of_list_to_set.
      by apply list_elem_of_filter. }
    rewrite size_list_to_set, length_seq in E by apply NoDup_seq.
    rewrite size_union_alt in E. rewrite size_list_to_set in E by apply NoDup_filter, NoDup_seq.
    pose proof (subseteq_size (H ∖ list_to_set F) H ltac:(set_solver)). lia. }
  lia.
Qed.

(** An update of one entry that keeps its identity is seen at its block only. *)
Lemma view_alter s f i x b :
  cache_ok (k_bcache s) -> cache_ok (alter f i (k_bcache s)) ->
  (forall y, b_dev (f y) = b_dev y) -> (forall y, b_blockno (f y) = b_blockno y) ->
  (i < NBUF)%nat -> k_bcache s !! i = Some x -> b_dev x = D -> b_blockno x = b -> b_valid (f x) = true ->
  view (set_k_bcache (alter f i) s) b = b_data (f x) /\
  pins (set_k_bcache (alter f i) s) b = b_pinned (f x) /\
  (forall b', b' ≠ b -> view (set_k_bcache (alter f i) s) b' = view s b' /\
                        pins (set_k_bcache (alter f i) s) b' = pins s b').
Proof.
  intros Hc Hc' Fd Fb Hi Hx Ed Eb Hval. set (s' := set_k_bcache _ s).
  assert (Hfx : k_bcache s' !! i = Some (f x)) by (unfold s'; kcbn; by rewrite list_lookup_alter_eq, Hx).
  assert (Hne : forall j, i ≠ j -> k_bcache s' !! j = k_bcache s !! j)
    by (intros j Hj; unfold s'; kcbn; by rewrite list_lookup_alter_ne).
  destruct (view_in s' i (f x) b) as [E1 E2]; [done|done|done|by rewrite Fd|by rewrite Fb|].
  rewrite Hval in E1. split_and!; [done|done|]. intros b' Hbb.
  destruct (find_buf_cases (k_bcache s) b' Hc) as [(j & Hj & y & Hy & G1 & G2)|Hno].
  - assert (i ≠ j) by (intros <-; congruence).
    destruct (view_in s j y b') as [-> ->]; [done..|].
    destruct (view_in s' j y b') as [-> ->]; try done. by rewrite Hne.
  - destruct (view_out s b' Hno) as [-> ->]. apply (view_out s' b').
    intros k z Hk Hz [F1 F2]. destruct (decide (i = k)) as [<-|Hik].
    + rewrite Hfx in Hz. injection Hz as <-. rewrite Fb in F2. congruence.
    + rewrite Hne in Hz by done. by apply (Hno k z).
Qed.

Lemma holds_alter bs f i j b :
  (forall y, b_dev (f y) = b_dev y) -> (forall y, b_blockno (f y) = b_blockno y) ->
  holds_block bs j b -> holds_block (alter f i bs) j b.
Proof.
  intros Fd Fb (Hj & x & Hx & E1 & E2). split; [done|]. destruct (decide (i = j)) as [->|Hne].
  - exists (f x). rewrite list_lookup_alter_eq, Hx, Fd, Fb. done.
  - exists x. by rewrite list_lookup_alter_ne.
Qed.

(** The updates a holder makes: to the contents or to the pins. *)
Record held_update (f : buf -> buf) : Prop := mkHeldUpdate {
  hu_next : forall y, b_next (f y) = b_next y;
  hu_prev : forall y, b_prev (f y) = b_prev y;
  hu_dev : forall y, b_dev (f y) = b_dev y;
  hu_blockno : forall y, b_blockno (f y) = b_blockno y;
  hu_refcnt : forall y, b_refcnt (f y) = b_refcnt y;
  hu_lock : forall y, b_lock (f y) = b_lock y;
  hu_valid : forall y, b_valid (f y) = b_valid y }.

Lemma held_update_data f : held_update (set_b_data f).
Proof. done. Qed.
Lemma held_update_pin f : held_update (set_b_pinned f).
Proof. done. Qed.

Lemma held_update_spec H s i b f x :
  binv H s -> i ∈ H -> holds_block (k_bcache s) i b -> held_update f ->
  k_bcache s !! i = Some x -> length (b_data (f x)) = BSIZE -> 0 <= b_pinned (f x) ->
  let s' := set_k_bcache (alter f i) s in
  binv H s' /\ view s' b = b_data (f x) /\ pins s' b = b_pinned (f x) /\
  (forall b', b' ≠ b -> view s' b' = view s b' /\ pins s' b' = pins s b').
Proof.
  intros Hv HiH Hh [Un Up Ud Ub Ur Ul Uv] Hx Hlen Hpin s'.
  destruct (holds_held H s i b Hv HiH Hh) as (x' & Hx' & Hi & Ed & Eb & Hr & Hlk & Hvl & _).
  assert (x' = x) as -> by congruence.
  assert (Hck : cache_ok (alter f i (k_bcache s))).
  { apply cache_ok_alter; [apply Hv|done|done| |].
    - intros y Hy [? ? ?]. assert (y = x) as -> by congruence. split; rewrite ?Ur, ?Ul; done.
    - intros y _. left. by rewrite Ud, Ub. }
  destruct (view_alter s f i x b) as (E1 & E2 & E3); [apply Hv|done|done|done|done|done|done|done|by rewrite Uv|].
  split_and!; [|done|done|done].
  split; [apply (calm_frame s); try done; apply Hv|done|apply Hv|apply Hv|].
  intros j y Hj. unfold s'. kcbn. rewrite (mypid_frame s (set_k_bcache _ s)) by done.
  destruct (decide (i = j)) as [<-|Hne].
  - rewrite list_lookup_alter_eq, Hx. intros [= <-].
    destruct (bv_buf _ _ Hv i x Hi Hx) as [V1 V2 V3 V4 V5]. rewrite bool_decide_true in * by done.
    split; rewrite ?Uv, ?Ud, ?Ur, ?Ul; done.
  - rewrite list_lookup_alter_ne by done. by apply Hv.
Qed.

(** Changing the contents of a held buffer. *)
Lemma update_spec H s i b g :
  binv H s -> i ∈ H -> holds_block (k_bcache s) i b -> length (g (view s b)) = BSIZE ->
  let s' := set_k_bcache (alter (set_b_data g) i) s in
  binv H s' /\ view s' b = g (view s b) /\ (forall b', b' ≠ b -> view s' b' = view s b') /\
  (forall b', pins s' b' = pins s b').
Proof.
  intros Hv HiH Hh Hlen s'. subst s'. destruct (holds_held H s i b Hv HiH Hh) as (x & Hx & Hi & _ & _ & _ & _ & _ & Hd & Hp & _).
  assert (Hok : buf_ok x) by (by eapply (co_buf _ (bv_cache _ _ Hv) i)). destruct Hok as [_ Hpn _].
  destruct (held_update_spec H s i b (set_b_data g) x) as (V & E1 & E2 & E3); [done..| | |].
  - cbn. by rewrite Hd.
  - done.
  - split_and!; [done|by rewrite E1; cbn; rewrite Hd|intros b' Hb; by apply E3|].
    intros b'. destruct (decide (b' = b)) as [->|Hb]; [|by apply E3]. rewrite E2. cbn. done.
Qed.

Lemma bpin_spec H s i b :
  binv H s -> i ∈ H -> holds_block (k_bcache s) i b ->
  let s' := set_k_bcache (alter (set_b_pinned (fun p => p + 1)) i) s in
  binv H s' /\ (forall b', view s' b' = view s b') /\
  pins s' b = pins s b + 1 /\ (forall b', b' ≠ b -> pins s' b' = pins s b').
Proof.
  intros Hv HiH Hh s'. subst s'. destruct (holds_held H s i b Hv HiH Hh) as (x & Hx & Hi & _ & _ & _ & _ & _ & Hd & Hp & Hl).
  assert (Hok : buf_ok x) by (by eapply (co_buf _ (bv_cache _ _ Hv) i)). destruct Hok as [_ Hpn _].
  destruct (held_update_spec H s i b (set_b_pinned (fun p => p + 1)) x) as (V & E1 & E2 & E3); [done..|cbn; lia|].
  split_and!; [done| |by rewrite E2; cbn; rewrite Hp|intros b' Hb; by apply E3].
  intros b'. destruct (decide (b' = b)) as [->|Hb]; [|by apply E3]. rewrite E1. cbn. done.
Qed.

Lemma bpin_run i s :
  hart_ok (k_hart s) -> LkBcache ∉ h_locks (k_hart s) ->
  bpin i s = Ret tt (set_k_bcache (alter (set_b_pinned (fun p => p + 1)) i) s).
Proof.
  intros Hok Hl. unfold bpin. erewrite bind_Ret by (by apply acquire_ok).
  unfold upd_buf. rewrite bind_modify. rewrite (release_after _ s) by done. by keq.
Qed.

Lemma bunpin_spec H s i b :
  binv H s -> i ∈ H -> holds_block (k_bcache s) i b -> 0 < pins s b ->
  let s' := set_k_bcache (alter (set_b_pinned (fun p => p - 1)) i) s in
  bunpin i s = Ret tt s' /\ binv H s' /\ (forall b', view s' b' = view s b') /\
  pins s' b = pins s b - 1 /\ (forall b', b' ≠ b -> pins s' b' = pins s b').
Proof.
  intros Hv HiH Hh Hpos s'. subst s'.
  destruct (holds_held H s i b Hv HiH Hh) as (x & Hx & Hi & _ & _ & _ & _ & _ & Hd & Hp & Hl).
  destruct (held_update_spec H s i b (set_b_pinned (fun p => p - 1)) x) as (V & E1 & E2 & E3); [done..|cbn; lia|].
  split_and!; [|done| |by rewrite E2; cbn; rewrite Hp|intros b' Hb; by apply E3].
  - unfold bunpin. pose proof (bv_calm _ _ Hv) as Hc.
    lock_step Hc.
    unfold bind at 1, get_buf. kcbn. rewrite Hx. destruct (Z.leb_spec (b_pinned x) 0); [lia|].
    unfold upd_buf. rewrite bind_modify.
    rewrite (release_after _ s); [|apply Hc|apply calm_fresh, Hc|done]. by keq.
  - intros b'. destruct (decide (b' = b)) as [->|Hb]; [|by apply E3]. rewrite E1. cbn. done.
Qed.

Lemma disk_read_write d b b' data :
  disk_read (disk_write b data d) b' = if decide (b = b') then data else disk_read d b'.
Proof.
  unfold disk_read, disk_write. cbn [d_image]. case_decide as E.
  - subst. by rewrite lookup_insert_eq.
  - by rewrite lookup_insert_ne.
Qed.

Lemma bwrite_spec H s i b :
  binv H s -> i ∈ H -> holds_block (k_bcache s) i b -> 0 <= b < 2 ^ 32 ->
  let s' := set_k_disk (disk_write b (view s b)) s in
  bwrite i s = Ret tt s' /\ binv H s' /\ (forall b', view s' b' = view s b').
Proof.
  intros Hv HiH Hh Hb s'. subst s'.
  destruct (holds_held H s i b Hv HiH Hh) as (x & Hx & Hi & Ed & Eb & _ & Hlk & Hvl & Hd & Hp & Hl).
  assert (Hview : forall b', view (set_k_disk (disk_write b (view s b)) s) b' = view s b').
  { intros b'. destruct (find_buf_cases (k_bcache s) b' (bv_cache _ _ Hv)) as [(j & Hj & y & Hy & E1 & E2)|Hno].
    - set (s' := set_k_disk _ s). destruct (view_in s j y b') as [-> _]; [apply Hv|done..|].
      destruct (view_in s' j y b') as [-> _]; [apply Hv|done..|].
      destruct (bv_buf _ _ Hv j y Hj Hy) as [_ Hdev _ _ _]. by rewrite (Hdev E1).
    - set (s' := set_k_disk _ s). destruct (view_out s b' Hno) as [-> _].
      destruct (view_out s' b' Hno) as [-> _]. unfold s'. kcbn. rewrite disk_read_write.
      rewrite decide_False; [done|]. intros ->. by apply (Hno i x Hi Hx). }
  split_and!; [| |done].
  - unfold bwrite. erewrite bind_Ret.
    2:{ apply holdingsleep_held; [apply Hv|]. unfold holds_sl, sl_of. rewrite Hx. cbn. by rewrite Hlk. }
    cbn [negb]. unfold bind at 1, get_buf. rewrite Hx, Eb, Hd. unfold virtio_disk_rw.
    rewrite virtio_in_range by done. rewrite bind_assoc, bind_modify, bind_ret. done.
  - split; [apply (calm_frame s); try done; apply Hv|apply Hv| |apply Hv|].
    + intros b'. kcbn. rewrite disk_read_write. case_decide; [by rewrite <- Hd|apply (bv_disk _ _ Hv)].
    + intros j y Hj Hy. kcbn. kcbn in Hy. rewrite (mypid_frame s (set_k_disk _ s)) by done.
      destruct (bv_buf _ _ Hv j y Hj Hy) as [V1 V2 V3 V4 V5]. split; [done|done|done|done|].
      intros Hn Hyv Hyp. rewrite disk_read_write. rewrite decide_False; [by apply V5|].
      intros E. destruct (V1 Hyv) as [_ Edy]. case_bool_decide as HjH; [done|]. apply HjH.
      assert (i = j) as <-; [|done]. apply (co_uniq _ (bv_cache _ _ Hv) i j x y); try done; congruence.
Qed.

Record brelse_result (H : gset nat) (s : kstate) (i : nat) (s' : kstate) : Prop := mkBrelse {
  bl_inv : binv (H ∖ {[i]}) s';
  bl_frame : io_frame s s';
  bl_disk : k_disk s' = k_disk s;
  bl_view : forall b', view s' b' = view s b';
  bl_pins : forall b', pins s' b' = pins s b';
  bl_holds : forall j b', holds_block (k_bcache s) j b' -> holds_block (k_bcache s') j b' }.

(** A held buffer may be released once it is pinned or written. *)
Lemma brelse_spec H s i b :
  binv H s -> i ∈ H -> holds_block (k_bcache s) i b ->
  pins s b ≠ 0 \/ view s b = disk_read (k_disk s) b ->
  exists s', brelse i s = Ret tt s' /\ brelse_result H s i s'.
Proof.
  intros Hv HiH Hh Hsafe.
  destruct (holds_held H s i b Hv HiH Hh) as (x & Hx & Hi & Ed & Eb & Hr & Hlk & Hvl & Hd & Hp & Hl).
  destruct (co_ring _ (bv_cache _ _ Hv)) as [order Hring].
  destruct (brelse_run s order i x (bv_calm _ _ Hv) Hring Hx Hi) as (bs' & order' & Hrun & Hr' & Hrl & _);
    [unfold holds_sl, sl_of; rewrite Hx; cbn; by rewrite Hlk|done|].
  set (s' := set_k_procs _ _) in Hrun.
  assert (Hbc : k_bcache s' = bs') by done.
  assert (Hpay : forall j, payload <$> k_bcache s' !! j = payload <$> k_bcache s !! j).
  { intros j. rewrite Hbc. transitivity (payload <$> alter drop_ref i (k_bcache s) !! j);
      [|by apply payload_alter]. specialize (Hrl j).
    destruct (bs' !! j) as [y|], (alter _ _ _ !! j) as [z|]; try done. injection Hrl. cbn. intros.
    unfold payload. congruence. }
  assert (Hfr : io_frame s s').
  { exists bs', (k_disk s), (wake_table (k_cur s) (ChSleeplock (SlBuf i)) (k_procs s)).
    split; [unfold s'; keq|apply woken_wake_table]. }
  assert (Hck : cache_ok (k_bcache s'))
    by exact (post_Ret _ _ _ _ _ _ (brelse_cache_ok s i (bv_cache _ _ Hv) Hi) Hrun).
  exists s'. split; [done|]. split; [|done|done| | |].
  - split; [by apply (io_frame_calm s), Hv|done|apply Hv|intros j Hj; apply Hv; set_solver|].
    intros j y Hj. rewrite Hbc. intros Hy. rewrite (io_frame_mypid s s') by done.
    destruct (relinked_back _ _ _ _ Hrl Hy) as (z & Hz & Ez). change (k_disk s') with (k_disk s).
    destruct (decide (i = j)) as [<-|Hne].
    + rewrite list_lookup_alter_eq, Hx in Hz. injection Hz as <-. rewrite bool_decide_false by set_solver.
      destruct (bv_buf _ _ Hv i x Hi Hx) as [V1 V2 V3 V4 V5].
      destruct x, y; cbn in *; simplify_eq/=. split; cbn; [done|done|done|done|].
      intros _ _ Hp0. destruct Hsafe as [Hs|Hs]; [congruence|done].
    + rewrite list_lookup_alter_ne in Hz by done.
      rewrite (bool_decide_ext (j ∈ H ∖ {[i]}) (j ∈ H)) by set_solver.
      destruct (bv_buf _ _ Hv j z Hj Hz) as [V1 V2 V3 V4 V5].
      destruct z, y; cbn in *; simplify_eq/=. by split.
  - intros b'. by apply contents_payload.
  - intros b'. by apply pins_payload.
  - intros j b' Hj. by eapply holds_payload.
Qed.
End Block.

#[global] Opaque find_buf.
