(* ===== verification/Crash.v ===== *)
(** * Disk images, crashes and the on-disk log

    A disk image is a function from block numbers to blocks.  A crash leaves the
    image after some prefix of the writes issued since, the next write possibly torn
    between its two 512-byte sectors.  The log on an image gives it a logical
    content: what recovery would make of it. *)

From S2P Require Import Prelude Params Machine Bio Block.

Definition image : Type := Z -> list Z.

Definition put (b : Z) (data : list Z) (I : image) : image :=
  fun b' => if decide (b = b') then data else I b'.
Definition replay (W : list (Z * list Z)) (I : image) : image :=
  foldl (fun I w => put w.1 w.2 I) I W.
Definition disk_writes (W : list (Z * list Z)) (d : vdisk) : vdisk :=
  foldl (fun d w => disk_write w.1 w.2 d) d W.

(** ** Images and the disk model *)
Lemma disk_writes_app W1 W2 d : disk_writes (W1 ++ W2) d = disk_writes W2 (disk_writes W1 d).
Proof. apply foldl_app. Qed.

Lemma replay_app W1 W2 I : replay (W1 ++ W2) I = replay W2 (replay W1 I).
Proof. apply foldl_app. Qed.

Lemma replay_snoc W b data I : replay (W ++ [(b, data)]) I = put b data (replay W I).
Proof. by rewrite replay_app. Qed.

Lemma put_eq b data I : put b data I b = data.
Proof. unfold put. by rewrite decide_True. Qed.
Lemma put_ne b b' data I : b ≠ b' -> put b data I b' = I b'.
Proof. intros H. unfold put. by rewrite decide_False. Qed.

Lemma put_ext b data I I' : (forall x, I x = I' x) -> forall x, put b data I x = put b data I' x.
Proof. intros H x. unfold put. case_decide; [done|apply H]. Qed.

Lemma replay_ext W I I' : (forall x, I x = I' x) -> forall x, replay W I x = replay W I' x.
Proof.
  revert I I'. induction W as [|w W IH]; intros I I' H x; [apply H|].
  apply IH. by apply put_ext.
Qed.

Lemma disk_read_writes W d b : disk_read (disk_writes W d) b = replay W (disk_read d) b.
Proof.
  revert d. induction W as [|[c data] W IH]; intros d; [done|]. cbn [disk_writes foldl replay fst snd].
  change (foldl _ ?a W) with (disk_writes W a) at 1. rewrite IH. apply replay_ext. intros x.
  apply disk_read_write.
Qed.

(** The disk records the writes it performed, in order. *)
Lemma d_writes_app W d : d_writes (disk_writes W d) = d_writes d ++ W.
Proof.
  revert d. induction W as [|[c data] W IH]; intros d; [by rewrite app_nil_r|].
  cbn [disk_writes foldl fst snd]. change (foldl _ ?a W) with (disk_writes W a). rewrite IH. cbn.
  by rewrite <- app_assoc.
Qed.

Lemma replay_out W I b : b ∉ W.*1 -> replay W I b = I b.
Proof.
  induction W as [|[c data] W IH] using rev_ind; intros H; [done|].
  rewrite replay_snoc, fmap_app in *. rewrite put_ne by set_solver. apply IH. set_solver.
Qed.

(** Writes of [new]'s contents to the blocks [L] make them [new]'s. *)
Lemma replay_in (L : list Z) (new I : image) b :
  b ∈ L -> replay ((fun h => (h, new h)) <$> L) I b = new b.
Proof.
  induction L as [|h L IH] using rev_ind; intros H; [set_solver|].
  rewrite fmap_app. cbn [fmap list_fmap]. rewrite replay_snoc. unfold put. case_decide; [by subst|].
  apply IH. set_solver.
Qed.

(** ** Crashes *)
Definition SECTOR : nat := 512.

(** The contents a block may have when the write of [new] over [old] is interrupted:
    each of its two sectors is written or not. *)
Definition torn (old new data : list Z) : Prop :=
  data = old \/ data = new \/
  data = take SECTOR new ++ drop SECTOR old \/ data = take SECTOR old ++ drop SECTOR new.

(** The images a crash may leave while the writes [W] are performed in order on [I]. *)
Definition crash_image (I : image) (W : list (Z * list Z)) (I' : image) : Prop :=
  (forall b, I' b = replay W I b) \/
  exists W1 b new W2 data, W = W1 ++ (b, new) :: W2 /\ torn (replay W1 I b) new data /\
    forall x, I' x = put b data (replay W1 I) x.

(** A property of images that every image of a run of writes has when each write,
    torn or whole, takes an image that has it to one that has it. *)
Lemma crash_image_invariant (P : image -> Prop) I W :
  (forall I1 I2, (forall x, I2 x = I1 x) -> P I1 -> P I2) ->
  P I ->
  (forall I1 b new data, (b, new) ∈ W -> P I1 -> torn (I1 b) new data -> P (put b data I1)) ->
  (forall I', crash_image I W I' -> P I') /\ P (replay W I).
Proof.
  intros Hext HI Hstep.
  assert (Hpre : forall W1 W2, W = W1 ++ W2 -> P (replay W1 I)).
  { induction W1 as [|[b new] W1 IH] using rev_ind; intros W2 E; [done|].
    rewrite replay_snoc. apply (Hstep _ b new new); [rewrite E; set_solver| |by right; left].
    apply (IH ((b, new) :: W2)). rewrite E, <- app_assoc. done. }
  split; [|apply (Hpre W []); by rewrite app_nil_r].
  intros I' [H|(W1 & b & new & W2 & data & E & Ht & H)].
  - eapply Hext; [exact H|]. apply (Hpre W []). by rewrite app_nil_r.
  - eapply Hext; [exact H|]. apply (Hstep _ b new data); [rewrite E; set_solver| |exact Ht]. by eapply Hpre.
Qed.

Lemma crash_image_app I W1 W2 I' :
  crash_image I (W1 ++ W2) I' -> crash_image I W1 I' \/ crash_image (replay W1 I) W2 I'.
Proof.
  intros [H|(V1 & b & new & V2 & data & E & Ht & H)].
  - right. left. intros x. by rewrite <- replay_app.
  - apply app_eq_app in E as (k & [[-> E2]|[-> E2]]).
    + destruct k as [|w k]; cbn in E2.
      * right. right. rewrite app_nil_r in *. exists [], b, new, V2, data. by rewrite E2.
      * injection E2 as <- E2. left. right. by exists V1, b, new, k, data.
    + right. right. exists k, b, new, V2, data. rewrite replay_app in *. done.
Qed.

(** ** The log header *)
Definition hdr_n (d : list Z) : Z := i32 (get_le 4 0 d).
Definition hdr_block (d : list Z) (k : nat) : Z := i32 (get_le 4 (4 + 4 * k) d).

(** The bytes write_head leaves in the header block. *)
Fixpoint put_blocks (k : nat) (L : list Z) (d : list Z) : list Z :=
  match L with
  | [] => d
  | v :: L' => put_blocks (S k) L' (put_le 4 (4 + 4 * k) v d)
  end.
Definition head_bytes (d : list Z) (n : Z) (L : list Z) : list Z :=
  put_blocks 0 L (put_le 4 0 n d).

(** The header says the log holds the home blocks [L]. *)
Definition hdr_is (d : list Z) (L : list Z) : Prop :=
  hdr_n d = Z.of_nat (length L) /\ forall k v, L !! k = Some v -> u32 (hdr_block d k) = v.

(** Two headers that agree on the first sector. *)
Definition hdr_same (d d' : list Z) : Prop :=
  forall off, (off + 4 <= SECTOR)%nat -> get_le 4 off d' = get_le 4 off d.

Lemma length_put_blocks k L d :
  (4 + 4 * (k + length L) <= length d)%nat -> length (put_blocks k L d) = length d.
Proof.
  revert k d. induction L as [|v L IH]; intros k d H; cbn [put_blocks]; [done|].
  cbn [length] in H. rewrite IH; rewrite length_put_le; lia.
Qed.

Lemma get_put_blocks_out k L d off :
  (4 + 4 * (k + length L) <= length d)%nat -> (off + 4 <= 4 + 4 * k)%nat ->
  get_le 4 off (put_blocks k L d) = get_le 4 off d.
Proof.
  revert k d. induction L as [|v L IH]; intros k d H Ho; cbn [put_blocks]; [done|].
  cbn [length] in H. rewrite IH by (rewrite ?length_put_le; lia). apply get_put_le_ne; lia.
Qed.

Lemma get_put_blocks_in k L d j v :
  (4 + 4 * (k + length L) <= length d)%nat -> L !! j = Some v ->
  get_le 4 (4 + 4 * (k + j)) (put_blocks k L d) = u32 v.
Proof.
  revert k d j. induction L as [|w L IH]; intros k d j H Hj; [done|]. cbn [put_blocks length] in *.
  destruct j as [|j]; cbn in Hj.
  - simplify_eq. rewrite get_put_blocks_out by (rewrite ?length_put_le; lia).
    rewrite Nat.add_0_r. rewrite get_put_le by lia. done.
  - replace (4 + 4 * (k + S j))%nat with (4 + 4 * (S k + j))%nat by lia.
    apply IH; [rewrite length_put_le; lia|done].
Qed.

Lemma length_head_bytes d n L :
  (4 + 4 * length L <= length d)%nat -> length (head_bytes d n L) = length d.
Proof. intros H. unfold head_bytes. rewrite length_put_blocks; rewrite length_put_le; lia. Qed.

Lemma hdr_n_head_bytes d n L :
  (4 + 4 * length L <= length d)%nat -> 0 <= n < 2 ^ 31 -> hdr_n (head_bytes d n L) = n.
Proof.
  intros H Hn. unfold hdr_n, head_bytes. rewrite get_put_blocks_out by (rewrite ?length_put_le; lia).
  rewrite get_put_le by lia. rewrite Z.mod_small by lia. by apply i32_small.
Qed.

Lemma head_bytes_is d L :
  (4 + 4 * length L <= length d)%nat -> (length L <= 30)%nat -> Forall (fun h => 0 <= h < 2 ^ 32) L ->
  hdr_is (head_bytes d (Z.of_nat (length L)) L) L.
Proof.
  intros H HL Hh. split; [apply hdr_n_head_bytes; lia|]. intros k v Hk.
  unfold hdr_block, head_bytes. rewrite u32_i32.
  rewrite (get_put_blocks_in 0 L _ k v) by (rewrite ?length_put_le; done || lia).
  rewrite Forall_lookup in Hh. rewrite !u32_small by (rewrite ?u32_small; by eapply Hh). done.
Qed.

Lemma get_le_app_l n off (a b : list Z) : (off + n <= length a)%nat -> get_le n off (a ++ b) = get_le n off a.
Proof.
  intros H. unfold get_le. rewrite drop_app_le by lia. rewrite take_app_le; [done|]. rewrite length_drop. lia.
Qed.

Lemma hdr_same_take (a b : list Z) : (SECTOR <= length a)%nat -> hdr_same a (take SECTOR a ++ drop SECTOR b).
Proof.
  intros H off Ho. rewrite <- (take_drop SECTOR a) at 2.
  rewrite !get_le_app_l; rewrite ?length_take; done || lia.
Qed.

(** A torn header is the old one or the new one: the header lies in one sector. *)
Lemma torn_header old new data :
  (SECTOR <= length old)%nat -> (SECTOR <= length new)%nat -> torn old new data ->
  hdr_same old data \/ hdr_same new data.
Proof.
  intros Ho Hn [->|[->|[->| ->]]].
  - by left.
  - by right.
  - right. by apply hdr_same_take.
  - left. by apply hdr_same_take.
Qed.

Lemma hdr_same_n d d' : hdr_same d d' -> hdr_n d' = hdr_n d.
Proof. intros H. unfold hdr_n. rewrite H; [done|]. unfold SECTOR. lia. Qed.

Lemma hdr_same_is d d' L : (length L <= 30)%nat -> hdr_same d d' -> hdr_is d L -> hdr_is d' L.
Proof.
  intros HL H [H1 H2]. split; [by rewrite (hdr_same_n _ _ H)|]. intros k v Hk.
  pose proof (lookup_lt_Some _ _ _ Hk). unfold hdr_block. rewrite H; [by apply H2|]. unfold SECTOR. lia.
Qed.

(** ** The logical content of an image *)
Section OnDisk.
Context (start size : Z).

(** The blocks outside the log region. *)
Definition home (b : Z) : Prop := b < start \/ start + size <= b.

(** What install_trans would write for the on-disk header. *)
Definition log_entries (I : image) : list (Z * list Z) :=
  (fun k => (u32 (hdr_block (I start) k), I (start + Z.of_nat k + 1)))
    <$> seq 0 (Z.to_nat (hdr_n (I start))).
Definition logical (I : image) : image := replay (log_entries I) I.

Definition uncommitted (I cur : image) : Prop :=
  hdr_n (I start) = 0 /\ forall b, home b -> I b = cur b.
Definition committed (I : image) (L : list Z) (new : image) : Prop :=
  hdr_is (I start) L /\
  (forall k h, L !! k = Some h -> I (start + Z.of_nat k + 1) = new h) /\
  (forall b, home b -> b ∉ L -> I b = new b).

Lemma logical_uncommitted I cur b : uncommitted I cur -> home b -> logical I b = cur b.
Proof. intros [H1 H2] Hb. unfold logical, log_entries. rewrite H1. by apply H2. Qed.

Lemma log_entries_committed I L new :
  committed I L new -> log_entries I = (fun h => (h, new h)) <$> L.
Proof.
  intros ([Hn Hk] & Hl & _). unfold log_entries. rewrite Hn, Nat2Z.id.
  apply list_eq. intros k. rewrite !list_lookup_fmap.
  destruct (L !! k) as [h|] eqn:E.
  - rewrite lookup_seq_lt by (by eapply lookup_lt_Some). cbn. by rewrite (Hk k h E), (Hl k h E).
  - rewrite lookup_seq_ge by (by apply lookup_ge_None). done.
Qed.

Lemma logical_committed I L new b : committed I L new -> home b -> logical I b = new b.
Proof.
  intros Hc Hb. unfold logical. rewrite (log_entries_committed I L new Hc).
  destruct (decide (b ∈ L)) as [Hin|Hout]; [by apply replay_in|].
  rewrite replay_out; [by apply Hc|]. rewrite <- list_fmap_compose. cbn.
  intros (h & -> & Hh)%list_elem_of_fmap. done.
Qed.

Lemma uncommitted_ext I I' cur : (forall x, I' x = I x) -> uncommitted I cur -> uncommitted I' cur.
Proof. intros H [H1 H2]. split; [by rewrite H|]. intros b Hb. rewrite H. by apply H2. Qed.
Lemma committed_ext I I' L new : (forall x, I' x = I x) -> committed I L new -> committed I' L new.
Proof.
  intros H (H1 & H2 & H3). split_and!; [by rewrite H| |].
  - intros k h Hk. rewrite H. by apply H2.
  - intros b Hb HL. rewrite H. by apply H3.
Qed.

(** ** The writes of a commit *)
Context (L : list Z) (new : image).
Context (Hstart : 0 < start) (Hfit : Z.of_nat (length L) < size).
Context (Hhomes : forall h, h ∈ L -> start + size <= h).

Definition data_writes : list (Z * list Z) := imap (fun k h => (start + Z.of_nat k + 1, new h)) L.
Definition install_writes : list (Z * list Z) := (fun h => (h, new h)) <$> L.

Lemma data_writes_lookup b w :
  (b, w) ∈ data_writes <-> exists k h, L !! k = Some h /\ b = start + Z.of_nat k + 1 /\ w = new h.
Proof.
  unfold data_writes. rewrite list_elem_of_lookup. split.
  - intros [k Hk]. rewrite list_lookup_imap in Hk. destruct (L !! k) as [h|] eqn:E; cbn in Hk; [|done].
    exists k, h. by simplify_eq.
  - intros (k & h & Hk & -> & ->). exists k. by rewrite list_lookup_imap, Hk.
Qed.

Lemma data_slot k h : L !! k = Some h -> start < start + Z.of_nat k + 1 < start + size.
Proof. intros Hk. pose proof (lookup_lt_Some _ _ _ Hk). lia. Qed.

(** Writing the log data leaves the image uncommitted, and the header block alone. *)
Lemma data_writes_crash I0 cur :
  uncommitted I0 cur ->
  (forall I', crash_image I0 data_writes I' -> uncommitted I' cur) /\
  uncommitted (replay data_writes I0) cur /\ replay data_writes I0 start = I0 start.
Proof.
  intros H0. destruct (crash_image_invariant (fun I => uncommitted I cur) I0 data_writes) as [H1 H2].
  - intros I1 I2 He. by apply uncommitted_ext.
  - done.
  - intros I1 b w data Hin [Hn Hh] _. apply data_writes_lookup in Hin as (k & h & Hk & -> & ->).
    pose proof (data_slot k h Hk). split; [by rewrite put_ne by lia|].
    intros b Hb. rewrite put_ne; [by apply Hh|]. unfold home in Hb. lia.
  - split_and!; [done|done|]. apply replay_out. intros ([b w] & -> & Hin)%list_elem_of_fmap.
    apply data_writes_lookup in Hin as (k & h & Hk & E & _). cbn in *. pose proof (data_slot k h Hk). lia.
Qed.

(** After them each slot of the log holds its block. *)
Lemma data_writes_done I0 k h : L !! k = Some h -> replay data_writes I0 (start + Z.of_nat k + 1) = new h.
Proof.
  intros Hk. unfold data_writes. rewrite <- (take_drop_middle L k h Hk) at 1.
  rewrite imap_app, replay_app. cbn [imap]. change ((?a, ?b) :: ?l) with ([(a, b)] ++ l).
  rewrite replay_app. rewrite replay_out.
  - cbn. rewrite Nat.add_0_r, length_take, Nat.min_l by (apply lookup_lt_Some in Hk; lia). apply put_eq.
  - intros ([b w] & E & Hin)%list_elem_of_fmap. apply list_elem_of_lookup in Hin as [j Hj].
    rewrite list_lookup_imap in Hj. destruct (drop (S k) L !! j); cbn in Hj; simplify_eq. cbn in E.
    rewrite length_take, Nat.min_l in E by (apply lookup_lt_Some in Hk; lia). lia.
Qed.

Lemma install_writes_crash I :
  committed I L new ->
  (forall I', crash_image I install_writes I' -> committed I' L new) /\
  committed (replay install_writes I) L new /\
  (forall b, home b -> replay install_writes I b = new b) /\
  replay install_writes I start = I start.
Proof.
  intros H0. destruct (crash_image_invariant (fun I => committed I L new) I install_writes) as [H1 H2].
  - intros I1 I2 He. by apply committed_ext.
  - done.
  - intros I1 b w data Hin (Hn & Hl & Hh) _. unfold install_writes in Hin.
    apply list_elem_of_fmap in Hin as (h & E & Hin). injection E as -> ->.
    pose proof (Hhomes h Hin). split_and!.
    + by rewrite put_ne by lia.
    + intros k h' Hk. pose proof (data_slot k h' Hk). rewrite put_ne by lia. by apply Hl.
    + intros b Hb Hout. rewrite put_ne by (by intros ->). by apply Hh.
  - split_and!; [done|done| |].
    + intros b Hb. destruct (decide (b ∈ L)); [by apply replay_in|].
      destruct H2 as (_ & _ & H2). by apply H2.
    + apply replay_out. intros ([b w] & E & Hin)%list_elem_of_fmap. cbn in E. subst b.
      apply list_elem_of_fmap in Hin as (h & E & Hin). injection E as E _. specialize (Hhomes h Hin). lia.
Qed.

(** A single, possibly torn, write of the header block. *)
Lemma head_write_crash (I : image) (hd : list Z) I' :
  length (I start) = BSIZE -> length hd = BSIZE -> crash_image I [(start, hd)] I' ->
  (forall b, b ≠ start -> I' b = I b) /\ (hdr_same (I start) (I' start) \/ hdr_same hd (I' start)).
Proof.
  intros HI Hhd [H|(W1 & b & w & W2 & data & E & Ht & H)].
  - split; [|right; rewrite H; cbn; by rewrite put_eq].
    intros b Hb. rewrite H. cbn. by rewrite put_ne.
  - destruct W1 as [|x W1]; cbn in E; [|by destruct W1]. injection E as <- <- <-. cbn in *. split.
    + intros b Hb. rewrite H. by rewrite put_ne.
    + rewrite H, put_eq. apply torn_header; [rewrite HI|rewrite Hhd|done]; unfold SECTOR, BSIZE; lia.
Qed.

(** The writes of commit, in order: the log data, the header, the home blocks, and
    the cleared header. *)
Definition commit_writes (hb hb0 : list Z) : list (Z * list Z) :=
  data_writes ++ [(start, hb)] ++ install_writes ++ [(start, hb0)].
(** The writes of recovery. *)
Definition recover_writes (hb0 : list Z) : list (Z * list Z) :=
  install_writes ++ [(start, hb0)].

Context (Hlen : (length L <= 30)%nat).

(** Recovery of a committed image: the logical content never changes, whatever the
    point of a crash, and at the end it is the content of the home blocks. *)
Lemma recover_writes_crash I hb0 :
  committed I L new -> length (I start) = BSIZE -> length hb0 = BSIZE -> hdr_n hb0 = 0 ->
  (forall I', crash_image I (recover_writes hb0) I' -> committed I' L new \/ uncommitted I' new) /\
  uncommitted (replay (recover_writes hb0) I) new.
Proof.
  intros Hc HI Hl0 Hn0. destruct (install_writes_crash I Hc) as (H1 & H2 & H3 & H4).
  set (I1 := replay install_writes I) in *. split.
  - intros I' Hcr. unfold recover_writes in Hcr. apply crash_image_app in Hcr as [Hcr|Hcr].
    { left. by apply H1. }
    fold I1 in Hcr. apply head_write_crash in Hcr as [Hne Hs]; [|by rewrite H4|done].
    destruct Hs as [Hs|Hs].
    + left. destruct H2 as (G1 & G2 & G3). split_and!.
      * by eapply hdr_same_is.
      * intros k h Hk. pose proof (data_slot k h Hk). rewrite Hne by lia. by apply G2.
      * intros b Hb Hout. rewrite Hne; [by apply G3|]. unfold home in Hb. lia.
    + right. split; [by rewrite (hdr_same_n _ _ Hs)|]. intros b Hb.
      rewrite Hne; [by apply H3|]. unfold home in Hb. lia.
  - unfold recover_writes. rewrite replay_app. fold I1. split; [cbn; by rewrite put_eq|].
    intros b Hb. cbn. rewrite put_ne; [by apply H3|]. unfold home in Hb. lia.
Qed.

(** A commit: whatever the point of a crash, the image is the old one, or one whose
    log holds the new one, or the new one. *)
Lemma commit_writes_crash I cur hb hb0 :
  uncommitted I cur -> (forall b, home b -> b ∉ L -> new b = cur b) ->
  length (I start) = BSIZE -> length hb = BSIZE -> hdr_is hb L ->
  length hb0 = BSIZE -> hdr_n hb0 = 0 ->
  (forall I', crash_image I (commit_writes hb hb0) I' ->
     uncommitted I' cur \/ committed I' L new \/ uncommitted I' new) /\
  uncommitted (replay (commit_writes hb hb0) I) new.
Proof.
  intros Hu Hnew HI Hl Hhb Hl0 Hn0. destruct (data_writes_crash I cur Hu) as (H1 & H2 & H3).
  set (I1 := replay data_writes I) in *.
  assert (Hcommit : forall I', (forall b, b ≠ start -> I' b = I1 b) -> hdr_is (I' start) L ->
    committed I' L new).
  { intros I' Hne His. split_and!; [done|..].
    - intros k h Hk. pose proof (data_slot k h Hk). rewrite Hne by lia. by apply data_writes_done.
    - intros b Hb Hout. rewrite Hne by (unfold home in Hb; lia). rewrite Hnew by done.
      destruct H2 as [_ H2]. by apply H2. }
  set (I2 := put start hb I1).
  destruct (recover_writes_crash I2 hb0) as (R1 & R2); [|unfold I2; by rewrite put_eq|done|done|].
  { apply Hcommit; [intros b Hb; by apply put_ne|]. unfold I2. by rewrite put_eq. }
  split.
  - intros I' Hcr. unfold commit_writes in Hcr. apply crash_image_app in Hcr as [Hcr|Hcr]; [left; by apply H1|].
    fold I1 in Hcr. apply crash_image_app in Hcr as [Hcr|Hcr]; [|right; by apply R1].
    apply head_write_crash in Hcr as [Hne [Hs|Hs]]; [| | by rewrite H3|done].
    + left. destruct H2 as [G1 G2]. split; [by rewrite (hdr_same_n _ _ Hs)|].
      intros b Hb. rewrite Hne; [by apply G2|]. unfold home in Hb. lia.
    + right. left. apply Hcommit; [done|]. by eapply hdr_same_is.
  - unfold commit_writes. rewrite !replay_app. fold I1. rewrite <- replay_app. exact R2.
Qed.
End OnDisk.
