(* ===== verification/Log.v ===== *)
(** * The redo log (kernel/log.c)

    Group commit over a fixed log region: admission ([begin_op], [end_op]), the
    in-memory header ([log_write]), commit ([write_log], [write_head],
    [install_trans]) and recovery ([read_head], [recover_from_log], [initlog]). *)

From S2P Require Import Prelude Params Machine Spinlock Sched CString Bio.

(** ** Code *)

(** The superblock as the eight little-endian words it is on disk. *)
Definition sb_of_bytes (d : list Z) : superblock :=
  mkSb (get_le 4 0 d) (get_le 4 4 d) (get_le 4 8 d) (get_le 4 12 d)
       (get_le 4 16 d) (get_le 4 20 d) (get_le 4 24 d) (get_le 4 28 d).

(** memmove(dst->data, src->data, BSIZE) between two buffers. *)
Definition copy_block (dst src : nat) : K unit :=
  let! b := get_buf src in
  upd_buf dst (set_b_data (splice 0 (take BSIZE (b_data b)))).

(** An int of the block's header, and its update; outside the block is undefined. *)
Definition hb_get (i : nat) (off : nat) : K Z :=
  let! b := get_buf i in
  if (off + 4 <=? BSIZE)%nat then ret (i32 (get_le 4 off (b_data b))) else fault "header index".
Definition hb_put (i : nat) (off : nat) (v : Z) : K unit :=
  if (off + 4 <=? BSIZE)%nat then upd_buf i (set_b_data (put_le 4 off v)) else fault "header index".

(** log.lh.block[i]: LOGSIZE entries. *)
Definition lh_block (i : nat) : K Z :=
  fun s => match l_block (k_log s) !! i with
           | Some v => Ret v s
           | None => Fault "log header index" s
           end.
Definition set_lh_block (i : nat) (v : Z) : K unit :=
  fun s => if (i <? length (l_block (k_log s)))%nat
           then Ret tt (set_k_log (set_l_block (insert i v)) s)
           else Fault "log header index" s.

Definition readsb : K unit :=
  let! l := gets k_log in
  let! bp := bread (u32 (l_dev l)) 1 in
  let! b := get_buf bp in
  do! modify (set_k_logsb (fun _ => sb_of_bytes (b_data b)));
  brelse bp.

Definition write_head : K unit :=
  let! l := gets k_log in
  let! buf := bread (u32 (l_dev l)) (u32 (l_start l)) in
  do! hb_put buf 0 (l_n l);
  do! each (seq 0 (Z.to_nat (l_n l)))
        (fun i => let! v := lh_block i in hb_put buf (4 + 4 * i) v);
  do! bwrite buf;
  brelse buf.

Definition read_head_check (buf : nat) (i : nat) : K unit :=
  let! v := hb_get buf (4 + 4 * i) in
  let! l := gets k_log in
  let! sb := gets k_logsb in
  if (u32 v <? u32 (u32 (l_size l) + u32 (l_start l))) || (sb_size sb <=? u32 v)
  then panic "log: impossible block number"
  else ret tt.

Definition read_head : K unit :=
  let! l := gets k_log in
  let! buf := bread (u32 (l_dev l)) (u32 (l_start l)) in
  let! n := hb_get buf 0 in
  if (n <? 0) || (l_size l <=? n) then
    do! brelse buf;
    panic "log: invalid header count"
  else
    do! each (seq 0 (Z.to_nat n)) (read_head_check buf);
    do! modify (set_k_log (set_l_n (fun _ => n)));
    do! each (seq 0 (Z.to_nat n))
          (fun i => let! v := hb_get buf (4 + 4 * i) in set_lh_block i v);
    brelse buf.

Definition write_log_one (tail : nat) : K unit :=
  let! l := gets k_log in
  let! to := bread (u32 (l_dev l)) (u32 (l_start l + Z.of_nat tail + 1)) in
  let! h := lh_block tail in
  let! from := bread (u32 (l_dev l)) (u32 h) in
  do! copy_block to from;
  do! bwrite to;
  do! brelse to;
  brelse from.

Definition write_log : K unit :=
  let! l := gets k_log in
  each (seq 0 (Z.to_nat (l_n l))) write_log_one.

Definition install_one (recovering : bool) (tail : nat) : K unit :=
  let! l := gets k_log in
  let! lbuf := bread (u32 (l_dev l)) (u32 (l_start l + Z.of_nat tail + 1)) in
  let! h := lh_block tail in
  let! dbuf := bread (u32 (l_dev l)) (u32 h) in
  do! copy_block dbuf lbuf;
  do! bwrite dbuf;
  do! when (negb recovering) (bunpin dbuf);
  do! brelse lbuf;
  brelse dbuf.

Definition install_trans (recovering : bool) : K unit :=
  let! l := gets k_log in
  each (seq 0 (Z.to_nat (l_n l))) (install_one recovering).

Definition recover_from_log : K unit :=
  do! read_head;
  do! install_trans true;
  do! modify (set_k_log (set_l_n (fun _ => 0)));
  write_head.

Definition commit : K unit :=
  let! l := gets k_log in
  when (0 <? l_n l)
    (do! write_log;
     do! write_head;
     do! install_trans false;
     do! modify (set_k_log (set_l_n (fun _ => 0)));
     write_head).

(** sizeof(struct logheader) *)
Definition logheader_size : Z := 4 + 4 * LOGSIZE.

Definition initlog (dev : Z) : K unit :=
  if Z.of_nat BSIZE <=? logheader_size then panic "log: log header does not fit a block"
  else
    do! initlock LkLog;
    do! modify (set_k_log (set_l_dev (fun _ => dev)));
    do! readsb;
    let! sb := gets k_logsb in
    if negb (sb_magic sb =? FSMAGIC) then panic "log: bad magic in superblock"
    else if (sb_nlog sb <=? 0) || (sb_logstart sb <=? 1) then panic "log: invalid log region"
    else if sb_size sb <? u32 (sb_logstart sb + sb_nlog sb) then panic "log: log region out of range"
    else
      do! modify (set_k_log (fun l =>
            mkLog (i32 (sb_logstart sb)) (i32 (sb_nlog sb)) 0 false (l_dev l) 0 (l_block l)));
      recover_from_log.

(** begin_op: the admission test, under the log lock; a process that has to wait
    sleeps and comes back to the test. *)
Definition begin_op_loop : K unit :=
  let! l := gets k_log in
  if l_committing l then sleep ChLog LkLog
  else if LOGSIZE <? l_n l + (l_outstanding l + 1) * MAXOPBLOCKS then sleep ChLog LkLog
  else
    do! modify (set_k_log (set_l_outstanding (fun o => o + 1)));
    release LkLog.

Definition begin_op : K unit :=
  do! acquire LkLog;
  begin_op_loop.

Definition begin_op_return (p : nat) : K unit :=
  do! sleep_return p LkLog;
  begin_op_loop.

Definition log_write (i : nat) : K unit :=
  do! acquire LkLog;
  let! l := gets k_log in
  if (LOGSIZE <=? l_n l) || (l_size l - 1 <=? l_n l) then panic "log: too big a transaction"
  else if l_outstanding l <? 1 then panic "log_write outside of transaction"
  else
    let! b := get_buf i in
    let! dup := search (seq 0 (Z.to_nat (l_n l)))
      (fun k => let! h := lh_block k in
                if u32 h =? b_blockno b then ret (Some tt) else ret None) in
    match dup with
    | Some _ => release LkLog
    | None =>
        do! set_lh_block (Z.to_nat (l_n l)) (i32 (b_blockno b));
        do! modify (set_k_log (set_l_n (fun n => n + 1)));
        do! bpin i;
        release LkLog
    end.

Definition end_op : K unit :=
  do! acquire LkLog;
  do! modify (set_k_log (set_l_outstanding (fun o => o - 1)));
  let! l := gets k_log in
  if l_committing l then panic "log committing during end_op"
  else
    let do_commit := l_outstanding l =? 0 in
    do! (if do_commit then modify (set_k_log (set_l_committing (fun _ => true)))
         else wakeup ChLog);
    do! release LkLog;
    when do_commit
      (do! commit;
       do! acquire LkLog;
       do! modify (set_k_log (set_l_committing (fun _ => false)));
       do! wakeup ChLog;
       release LkLog).
