(* ===== verification/LogSpec.v ===== *)
(** * The redo log is crash-atomic

    The writes commit and recovery issue are computed exactly from the state; with
    the crash model of Crash.v they give atomicity of a committed group and
    idempotence of recovery.  Admission and the in-memory header are shown to keep
    the log invariant. *)

From S2P Require Import Prelude Params Machine Spinlock Sched CString Bio BioSpec Block Crash Log.

Lemma get_log {A} (k : logst -> K A) s : bind (gets k_log) k s = k (k_log s) s.
Proof. done. Qed.

Section LogSpec.
Context (D start size : Z).

(** The geometry the superblock gives: the log region is above block 1 and all
    block numbers are positive ints. *)
Record geometry : Prop := mkGeometry {
  g_dev : 0 < D < 2 ^ 31;
  g_start : 1 < start;
  g_size : 0 < size;
  g_end : start + size < 2 ^ 31 }.

Context (G : geometry).

Lemma D_ne : D ≠ 0.
Proof. destruct G. lia. Qed.

(** The in-memory log records the home blocks [L]. *)
Record log_st (L : list Z) (l : logst) : Prop := mkLogSt {
  ls_dev : l_dev l = D;
  ls_start : l_start l = start;
  ls_size : l_size l = size;
  ls_n : l_n l = Z.of_nat (length L);
  ls_cap : length (l_block l) = Z.to_nat LOGSIZE;
  ls_block : forall k h, L !! k = Some h -> l_block l !! k = Some h }.

Definition home_block (h : Z) : Prop := start + size <= h < 2 ^ 31.

Abbreviation view := (view D).
Abbreviation pins := (pins D).
Abbreviation binv := (binv D).
Abbreviation holds := (holds_block D).

Lemma u32_dev l L : log_st L l -> u32 (l_dev l) = D.
Proof. intros Hl. rewrite (ls_dev _ _ Hl). destruct G. apply u32_small. lia. Qed.

Lemma lh_block_run L s k h : log_st L (k_log s) -> L !! k = Some h -> lh_block k s = Ret h s.
Proof. intros Hl Hk. unfold lh_block. by rewrite (ls_block _ _ Hl k h Hk). Qed.

Lemma pinned_available H s b : binv H s -> pins s b ≠ 0 -> available D s b.
Proof.
  intros Hv Hp. left. destruct (find_buf_cases D (k_bcache s) b (bv_cache _ _ _ Hv)) as [|Hno]; [done|].
  destruct (view_out D s b Hno) as [_ E]. done.
Qed.

Lemma kept_holds H s b i s' j b' :
  bread_result D H s b i s' -> j ∈ H -> holds (k_bcache s) j b' -> holds (k_bcache s') j b'.
Proof.
  intros Hr Hj (Hlt & x & Hx & E). split; [done|]. exists x. by rewrite (br_kept _ _ _ _ _ _ Hr j Hj).
Qed.

Lemma holds_unheld H s i b c :
  binv H s -> holds (k_bcache s) i b -> b ≠ c -> H = {[i]} -> unheld D H s c.
Proof.
  intros Hv (_ & x & Hx & _ & E) Hne -> j ->%elem_of_singleton (_ & y & Hy & _ & F). congruence.
Qed.

Lemma splice_block (d d' : list Z) :
  length d = BSIZE -> length d' = BSIZE -> splice 0 (take BSIZE d) d' = d.
Proof.
  intros H H'. rewrite <- H. rewrite firstn_all. unfold splice. cbn [take app].
  rewrite drop_ge by lia. apply app_nil_r.
Qed.

(** memmove of a whole block between two held buffers. *)
Lemma copy_block_spec H s i j b c :
  binv H s -> i ∈ H -> j ∈ H -> holds (k_bcache s) i b -> holds (k_bcache s) j c ->
  exists s', copy_block i j s = Ret tt s' /\ binv H s' /\ io_frame s s' /\ k_disk s' = k_disk s /\
    view s' b = view s c /\ (forall b', b' ≠ b -> view s' b' = view s b') /\
    (forall b', pins s' b' = pins s b') /\
    (forall k b', holds (k_bcache s) k b' -> holds (k_bcache s') k b').
Proof.
  intros Hv Hi Hj Hb Hc. pose proof D_ne as HD.
  destruct (holds_held D HD H s j c Hv Hj Hc) as (y & Hy & _ & _ & _ & _ & _ & _ & Hyd & _ & Hyl).
  destruct (holds_held D HD H s i b Hv Hi Hb) as (x & Hx & _ & _ & _ & _ & _ & _ & Hxd & _ & Hxl).
  set (g := splice 0 (take BSIZE (b_data y))).
  assert (Hg : g (view s b) = view s c).
  { unfold g. rewrite splice_block; [done|done|congruence]. }
  destruct (update_spec D HD H s i b g Hv Hi Hb) as (V & E1 & E2 & E3).
  { rewrite Hg. congruence. }
  exists (set_k_bcache (alter (set_b_data g) i) s). split_and!; try done.
  - unfold copy_block, bind, get_buf. by rewrite Hy.
  - apply io_frame_bcache.
  - by rewrite E1.
  - intros k b' Hk. kcbn. by apply holds_alter.
Qed.

(** What one transfer of a commit or of recovery does: block [c] gets the contents
    of [b] in the cache and on the disk. *)
Record transfer (s : kstate) (b c : Z) (s' : kstate) : Prop := mkTransfer {
  tr_inv : binv ∅ s';
  tr_frame : io_frame s s';
  tr_disk : k_disk s' = disk_write c (view s b) (k_disk s);
  tr_view : forall x, view s' x = put c (view s b) (view s) x }.

Lemma io_frame_disk s d : io_frame s (set_k_disk (fun _ => d) s).
Proof. exists (k_bcache s), d, (k_procs s). split; [keq|apply woken_refl]. Qed.

Lemma write_log_one_spec L s k h :
  binv ∅ s -> log_st L (k_log s) -> L !! k = Some h -> home_block h ->
  (forall b, pins s b ≠ 0 -> b ∈ L) -> (length L < NBUF)%nat -> Z.of_nat (length L) < size -> pins s h ≠ 0 ->
  exists s', write_log_one k s = Ret tt s' /\ transfer s h (start + Z.of_nat k + 1) s' /\
    (forall b, pins s' b = pins s b).
Proof.
  intros Hv Hl Hk Hh Hpl Hn Hsz Hph. pose proof D_ne as HD. destruct G as [G1 G2 G3 G4].
  pose proof (lookup_lt_Some _ _ _ Hk) as Hkl. unfold home_block in Hh.
  set (c := start + Z.of_nat k + 1). assert (Hc : 0 <= c < 2 ^ 31) by (unfold c; lia).
  assert (Hcu : u32 (l_start (k_log s) + Z.of_nat k + 1) = c).
  { rewrite (ls_start _ _ Hl). fold c. apply u32_small. lia. }
  unfold write_log_one. rewrite get_log. cbn beta. rewrite Hcu, (u32_dev _ _ Hl).
  destruct (bread_spec D HD ∅ s c) as (i & s1 & R1 & B1); [done|lia|set_solver| |].
  { apply (available_count D HD ∅ s c L Hv Hpl). rewrite size_empty. lia. }
  run_ret R1. destruct B1 as [V1 N1 F1 D1 W1 P1 H1 K1].
  assert (Hl1 : log_st L (k_log s1)) by by rewrite (io_frame_log _ _ F1).
  rewrite (bind_Ret _ _ _ _ _ (lh_block_run L s1 k h Hl1 Hk)).
  rewrite (u32_small h) by lia.
  rewrite union_empty_r_L in V1.
  destruct (bread_spec D HD {[i]} s1 h) as (j & s2 & R2 & B2); [done|lia| | |].
  { apply (holds_unheld _ s1 i c); [done|done|unfold c; lia|done]. }
  { apply (pinned_available {[i]}); [done|]. by rewrite P1. }
  run_ret R2. pose proof (kept_holds _ _ _ _ _ i c B2 ltac:(set_solver) H1) as H1'.
  destruct B2 as [V2 N2 F2 D2 W2 P2 H2 K2].
  destruct (copy_block_spec _ s2 i j c h V2 ltac:(set_solver) ltac:(set_solver) H1' H2)
    as (s3 & R3 & V3 & F3 & D3 & E3 & W3 & P3 & K3).
  run_ret R3.
  destruct (bwrite_spec D HD _ s3 i c V3 ltac:(set_solver) (K3 _ _ H1') ltac:(lia)) as (R4 & V4 & W4).
  set (s4 := set_k_disk _ s3) in *. run_ret R4.
  assert (Hclean : view s4 c = disk_read (k_disk s4) c).
  { rewrite W4. unfold s4. kcbn. by rewrite disk_read_write, decide_True. }
  destruct (brelse_spec D HD _ s4 i c V4 ltac:(set_solver) (K3 _ _ H1') (or_intror Hclean)) as (s5 & R5 & B5).
  run_ret R5. destruct B5 as [V5 F5 D5 W5 P5 K5].
  assert (Hp5 : pins s5 h ≠ 0).
  { rewrite P5. change (pins s4 h) with (pins s3 h). by rewrite P3, P2, P1. }
  destruct (brelse_spec D HD _ s5 j h V5 ltac:(set_solver) (K5 _ _ (K3 _ _ H2)) (or_introl Hp5)) as (s6 & R6 & B6).
  destruct B6 as [V6 F6 D6 W6 P6 K6]. exists s6. split_and!; [done| |].
  - split.
    + replace (({[j]} ∪ {[i]}) ∖ {[i]} ∖ {[j]} : gset nat) with (∅ : gset nat) in V6 by set_solver. done.
    + eapply io_frame_trans; [exact F1|]. eapply io_frame_trans; [exact F2|].
      eapply io_frame_trans; [exact F3|]. eapply io_frame_trans; [apply io_frame_disk|].
      eapply io_frame_trans; [exact F5|exact F6].
    + rewrite D6, D5. unfold s4. kcbn. rewrite D3, D2, D1, E3, W2, W1. done.
    + intros x. rewrite W6, W5, W4. unfold put. case_decide as E; [subst; by rewrite E3, W2, W1|].
      rewrite W3 by done. by rewrite W2, W1.
  - intros b. rewrite P6, P5. change (pins s4 b) with (pins s3 b). by rewrite P3, P2, P1.
Qed.

(** A sequence of transfers: the writes [W] reach the cache and the disk, in order. *)
Record transfers (s : kstate) (W : list (Z * list Z)) (s' : kstate) : Prop := mkTransfers {
  ts_inv : binv ∅ s';
  ts_frame : io_frame s s';
  ts_disk : k_disk s' = disk_writes W (k_disk s);
  ts_view : forall x, view s' x = replay W (view s) x }.

Lemma transfers_nil s : binv ∅ s -> transfers s [] s.
Proof. intros Hv. split; [done|apply io_frame_refl|done|done]. Qed.

Lemma transfers_cons s b c s1 W s2 :
  transfer s b c s1 -> transfers s1 W s2 -> transfers s ((c, view s b) :: W) s2.
Proof.
  intros [V1 F1 D1 W1] [V2 F2 D2 W2]. split; [done|by eapply io_frame_trans|by rewrite D2, D1|].
  intros x. rewrite W2. exact (replay_ext W _ _ W1 x).
Qed.

Lemma transfers_app s W1 s1 W2 s2 :
  transfers s W1 s1 -> transfers s1 W2 s2 -> transfers s (W1 ++ W2) s2.
Proof.
  intros [V1 F1 D1 E1] [V2 F2 D2 E2]. split; [done|by eapply io_frame_trans| |].
  - by rewrite D2, D1, disk_writes_app.
  - intros x. rewrite E2, replay_app. by apply replay_ext.
Qed.

Lemma view_clean H s b :
  binv H s -> unheld D H s b -> pins s b = 0 -> view s b = disk_read (k_disk s) b.
Proof.
  intros Hv Hun Hp. pose proof D_ne as HD.
  destruct (find_buf_cases D (k_bcache s) b (bv_cache _ _ _ Hv)) as [(i & Hh)|Hno];
    [|by apply (view_out D s b)].
  pose proof Hh as (Hi & x & Hx & Ed & Eb).
  destruct (view_in D HD s i x b) as [Ew Ep]; [apply Hv|done..|].
  destruct (bv_buf _ _ _ Hv i x Hi Hx) as [_ Hdev _ _ Hclean].
  rewrite Ew, (Hdev Ed). rewrite bool_decide_false in Hclean by (intros Hin; by apply (Hun i)).
  rewrite <- Eb. apply Hclean; [done|by apply Hdev|congruence].
Qed.

Lemma install_one_spec (rec : bool) L s k h :
  binv ∅ s -> log_st L (k_log s) -> L !! k = Some h -> home_block h ->
  (forall b, pins s b ≠ 0 -> b ∈ L) -> (length L < NBUF)%nat -> Z.of_nat (length L) < size ->
  (forall h, h ∈ L -> home_block h) ->
  (if rec then forall b, pins s b = 0 else pins s h = 1) ->
  exists s', install_one rec k s = Ret tt s' /\ transfer s (start + Z.of_nat k + 1) h s' /\
    (forall b, pins s' b = if rec then 0 else if decide (b = h) then 0 else pins s b).
Proof.
  intros Hv Hl Hk Hh Hpl Hn Hsz HL Hph. pose proof D_ne as HD. destruct G as [G1 G2 G3 G4].
  pose proof (lookup_lt_Some _ _ _ Hk) as Hkl. unfold home_block in Hh.
  set (c := start + Z.of_nat k + 1). assert (Hc : 0 <= c < 2 ^ 31) by (unfold c; lia).
  assert (Hch : c ≠ h) by (unfold c; lia).
  assert (Hpc : pins s c = 0).
  { destruct (decide (pins s c = 0)) as [|E]; [done|]. specialize (HL c (Hpl c E)).
    unfold home_block, c in HL. lia. }
  assert (Hcu : u32 (l_start (k_log s) + Z.of_nat k + 1) = c).
  { rewrite (ls_start _ _ Hl). fold c. apply u32_small. lia. }
  unfold install_one. rewrite get_log. cbn beta. rewrite Hcu, (u32_dev _ _ Hl).
  pose proof (view_clean ∅ s c Hv ltac:(set_solver) Hpc) as Hcc.
  destruct (bread_spec D HD ∅ s c) as (i & s1 & R1 & B1); [done|lia|set_solver| |].
  { apply (available_count D HD ∅ s c L Hv Hpl). rewrite size_empty. lia. }
  run_ret R1. destruct B1 as [V1 N1 F1 D1 W1 P1 H1 K1].
  assert (Hl1 : log_st L (k_log s1)) by by rewrite (io_frame_log _ _ F1).
  rewrite (bind_Ret _ _ _ _ _ (lh_block_run L s1 k h Hl1 Hk)). rewrite (u32_small h) by lia.
  rewrite union_empty_r_L in V1.
  destruct (bread_spec D HD {[i]} s1 h) as (j & s2 & R2 & B2); [done|lia| | |].
  { by apply (holds_unheld _ s1 i c). }
  { destruct rec; [|apply (pinned_available {[i]}); [done|]; rewrite P1; lia].
    apply (available_count D HD {[i]} s1 h [] V1); [intros b Hb; by rewrite P1, Hph in Hb|].
    rewrite size_singleton. unfold NBUF. cbn. lia. }
  run_ret R2. pose proof (kept_holds _ _ _ _ _ i c B2 ltac:(set_solver) H1) as H1'.
  destruct B2 as [V2 N2 F2 D2 W2 P2 H2 K2].
  destruct (copy_block_spec _ s2 j i h c V2 ltac:(set_solver) ltac:(set_solver) H2 H1')
    as (s3 & R3 & V3 & F3 & D3 & E3 & W3 & P3 & K3).
  run_ret R3.
  destruct (bwrite_spec D HD _ s3 j h V3 ltac:(set_solver) (K3 _ _ H2) ltac:(lia)) as (R4 & V4 & W4).
  set (s4 := set_k_disk _ s3) in *. run_ret R4.
  assert (HP4 : forall b, pins s4 b = pins s b).
  { intros b. change (pins s4 b) with (pins s3 b). by rewrite P3, P2, P1. }
  assert (Hunpin : exists s5, when (negb rec) (bunpin j) s4 = Ret tt s5 /\ binv ({[j]} ∪ {[i]}) s5 /\
    io_frame s4 s5 /\ k_disk s5 = k_disk s4 /\ (forall b, view s5 b = view s4 b) /\
    (forall b, pins s5 b = if rec then 0 else if decide (b = h) then 0 else pins s b) /\
    (forall k b, holds (k_bcache s4) k b -> holds (k_bcache s5) k b)).
  { destruct rec; cbn [negb when].
    - exists s4. split_and!; try done; [apply io_frame_refl|]. intros b. rewrite HP4. apply Hph.
    - destruct (bunpin_spec D HD _ s4 j h V4 ltac:(set_solver) (K3 _ _ H2)) as (R5 & V5 & W5 & P5 & P5').
      { rewrite HP4. lia. }
      eexists. split_and!; [exact R5|done|apply io_frame_bcache|done|done| |].
      + intros b. case_decide as E; [subst b; rewrite P5, HP4; lia|]. by rewrite P5', HP4.
      + intros k' b' Hk'. kcbn. by apply holds_alter. }
  destruct Hunpin as (s5 & R5 & V5 & F5 & D5 & W5 & P5 & K5).
  run_ret R5.
  assert (HD4 : forall b, disk_read (k_disk s4) b = if decide (h = b) then view s c else disk_read (k_disk s) b).
  { intros b. unfold s4. kcbn. rewrite disk_read_write, E3, W2, W1, D3, D2, D1. done. }
  assert (Hclean : view s5 c = disk_read (k_disk s5) c).
  { rewrite D5, HD4, decide_False by done. rewrite W5, W4, W3, W2, W1 by done. done. }
  destruct (brelse_spec D HD _ s5 i c V5 ltac:(set_solver) (K5 _ _ (K3 _ _ H1')) (or_intror Hclean)) as (s6 & R6 & B6).
  run_ret R6. destruct B6 as [V6 F6 D6 W6 P6 K6].
  assert (Hclean' : view s6 h = disk_read (k_disk s6) h).
  { rewrite D6, D5, HD4, decide_True by done. by rewrite W6, W5, W4, E3, W2, W1. }
  destruct (brelse_spec D HD _ s6 j h V6 ltac:(set_solver) (K6 _ _ (K5 _ _ (K3 _ _ H2))) (or_intror Hclean')) as (s7 & R7 & B7).
  destruct B7 as [V7 F7 D7 W7 P7 K7]. exists s7. split_and!; [done| |].
  - split.
    + replace (({[j]} ∪ {[i]}) ∖ {[i]} ∖ {[j]} : gset nat) with (∅ : gset nat) in V7 by set_solver. done.
    + eapply io_frame_trans; [exact F1|]. eapply io_frame_trans; [exact F2|].
      eapply io_frame_trans; [exact F3|]. eapply io_frame_trans; [apply io_frame_disk|].
      eapply io_frame_trans; [exact F5|]. eapply io_frame_trans; [exact F6|exact F7].
    + rewrite D7, D6, D5. unfold s4. kcbn. rewrite D3, D2, D1, E3, W2, W1. done.
    + intros x. rewrite W7, W6, W5, W4. unfold put. case_decide as E; [subst; by rewrite E3, W2, W1|].
      rewrite W3 by done. by rewrite W2, W1.
  - intros b. by rewrite P7, P6, P5.
Qed.

Lemma set_b_data_id (x : buf) g : g (b_data x) = b_data x -> set_b_data g x = x.
Proof. destruct x. unfold set_b_data. cbn. by intros ->. Qed.

(** The loop of write_head that fills in the block numbers. *)
Lemma hb_puts_run buf L2 : forall k s,
  (4 + 4 * (k + length L2) <= BSIZE)%nat ->
  (forall j h, L2 !! j = Some h -> l_block (k_log s) !! (k + j)%nat = Some h) ->
  each (seq k (length L2)) (fun i => let! v := lh_block i in hb_put buf (4 + 4 * i) v) s =
    Ret tt (set_k_bcache (alter (set_b_data (put_blocks k L2)) buf) s).
Proof.
  induction L2 as [|h L2 IH]; intros k s Hb Hlk; cbn [length seq each].
  { unfold ret. keq. destruct (k_bcache s !! buf) as [x|] eqn:Hx.
    - symmetry. apply (alter_alter_id _ _ _ x Hx). by apply set_b_data_id.
    - symmetry. apply list_eq. intros j. destruct (decide (buf = j)) as [->|Hne];
        [by rewrite list_lookup_alter_eq, Hx|by rewrite list_lookup_alter_ne]. }
  assert (Hk : lh_block k s = Ret h s).
  { unfold lh_block. specialize (Hlk 0%nat h eq_refl). rewrite Nat.add_0_r in Hlk. by rewrite Hlk. }
  rewrite bind_assoc, (bind_Ret _ _ _ _ _ Hk). unfold hb_put at 1. cbn [length] in Hb.
  destruct (Nat.leb_spec (4 + 4 * k + 4) BSIZE); [|lia]. unfold upd_buf. rewrite bind_modify.
  rewrite IH; [|lia|].
  - keq. by rewrite alter_twice.
  - intros j h' Hj. kcbn. rewrite <- Hlk with (j := S j) by done. f_equal. lia.
Qed.

Lemma write_head_spec L s :
  binv ∅ s -> log_st L (k_log s) -> (length L <= 30)%nat ->
  (exists P, (forall b, pins s b ≠ 0 -> b ∈ P) /\ (length P < NBUF)%nat) ->
  exists s', write_head s = Ret tt s' /\
    transfers s [(start, head_bytes (view s start) (Z.of_nat (length L)) L)] s' /\
    (forall b, pins s' b = pins s b).
Proof.
  intros Hv Hl Hn (P & HP & HPn). pose proof D_ne as HD. destruct G as [G1 G2 G3 G4].
  unfold write_head. rewrite get_log. cbn beta. rewrite (u32_dev _ _ Hl), (ls_start _ _ Hl), (ls_n _ _ Hl), Nat2Z.id.
  rewrite (u32_small start) by lia.
  destruct (bread_spec D HD ∅ s start) as (i & s1 & R1 & B1); [done|lia|set_solver| |].
  { apply (available_count D HD ∅ s start P Hv HP). rewrite size_empty. lia. }
  run_ret R1. destruct B1 as [V1 N1 F1 D1 W1 P1 H1 K1].
  rewrite union_empty_r_L in V1.
  erewrite bind_Ret by (unfold hb_put; destruct (Nat.leb_spec (0 + 4) BSIZE); [done|unfold BSIZE in *; lia]).
  set (g := fun d => head_bytes d (Z.of_nat (length L)) L).
  erewrite bind_Ret.
  2:{ apply hb_puts_run; [unfold BSIZE; lia|]. intros j h Hj. kcbn. rewrite (io_frame_log _ _ F1).
      by apply (ls_block _ _ Hl). }
  assert (E : set_k_bcache (alter (set_b_data (put_blocks 0 L)) i)
                (set_k_bcache (alter (set_b_data (put_le 4 0 (Z.of_nat (length L)))) i) s1) =
              set_k_bcache (alter (set_b_data g) i) s1) by (keq; by rewrite alter_twice).
  rewrite E. clear E.
  assert (Hvl : length (view s1 start) = BSIZE).
  { destruct (holds_held D HD _ s1 i start V1 ltac:(set_solver) H1) as (x & _ & _ & _ & _ & _ & _ & _ & <- & _ & Hx). done. }
  destruct (update_spec D HD _ s1 i start g V1 ltac:(set_solver) H1) as (V2 & E2 & W2 & P2).
  { unfold g. rewrite length_head_bytes; [done|]. rewrite Hvl. unfold BSIZE. lia. }
  assert (H2 : holds (k_bcache (set_k_bcache (alter (set_b_data g) i) s1)) i start) by (kcbn; by apply holds_alter).
  assert (F2 : io_frame s1 (set_k_bcache (alter (set_b_data g) i) s1)) by apply io_frame_bcache.
  assert (D2 : k_disk (set_k_bcache (alter (set_b_data g) i) s1) = k_disk s1) by done.
  set (s2 := set_k_bcache _ s1) in *. clearbody s2.
  destruct (bwrite_spec D HD _ s2 i start V2 ltac:(set_solver) H2 ltac:(lia)) as (R3 & V3 & W3).
  set (s3 := set_k_disk _ s2) in *. run_ret R3.
  assert (Hclean : view s3 start = disk_read (k_disk s3) start).
  { rewrite W3. unfold s3. kcbn. by rewrite disk_read_write, decide_True. }
  destruct (brelse_spec D HD _ s3 i start V3 ltac:(set_solver) H2 (or_intror Hclean)) as (s4 & R4 & B4).
  destruct B4 as [V4 F4 D4 W4 P4 K4]. exists s4. split_and!; [done| |].
  - replace ({[i]} ∖ {[i]} : gset nat) with (∅ : gset nat) in V4 by set_solver. split; [done|..].
    + eapply io_frame_trans; [exact F1|]. eapply io_frame_trans; [exact F2|].
      eapply io_frame_trans; [apply io_frame_disk|exact F4].
    + rewrite D4. unfold s3. kcbn. cbn. rewrite D2, D1, E2, W1. done.
    + intros x. rewrite W4, W3. cbn. unfold put. case_decide as E; [subst x; by rewrite E2, W1|].
      rewrite W2 by done. by rewrite W1.
  - intros b. rewrite P4. change (pins s3 b) with (pins s2 b). by rewrite P2, P1.
Qed.

Section Moves.
Context (L : list Z) (new : image).
Context (Hhome : forall h, h ∈ L -> home_block h) (Hn : (length L < NBUF)%nat)
  (Hsz : Z.of_nat (length L) < size).

Lemma write_log_range L2 : forall L1 s,
  L = L1 ++ L2 -> binv ∅ s -> log_st L (k_log s) ->
  (forall b, pins s b ≠ 0 <-> b ∈ L) -> (forall h, h ∈ L -> view s h = new h) ->
  exists s', each (seq (length L1) (length L2)) write_log_one s = Ret tt s' /\
    transfers s (imap (fun j h => (start + Z.of_nat (length L1 + j) + 1, new h)) L2) s' /\
    (forall b, pins s' b = pins s b).
Proof.
  induction L2 as [|h L2 IH]; intros L1 s E Hv Hl Hp Hnew.
  { exists s. split_and!; [done|by apply transfers_nil|done]. }
  assert (Hk : L !! length L1 = Some h) by (rewrite E; by apply list_lookup_middle).
  assert (Hin : h ∈ L) by (by eapply list_elem_of_lookup_2).
  destruct (write_log_one_spec L s (length L1) h) as (s1 & R1 & T1 & P1); try done.
  { by apply Hhome. } { intros b. apply Hp. } { by apply Hp. }
  destruct (IH (L1 ++ [h]) s1) as (s2 & R2 & T2 & P2).
  - by rewrite <- app_assoc.
  - apply T1.
  - by rewrite (io_frame_log _ _ (tr_frame _ _ _ _ T1)).
  - intros b. by rewrite P1.
  - intros h' Hh'. rewrite (tr_view _ _ _ _ T1). rewrite put_ne; [by apply Hnew|].
    specialize (Hhome h' Hh'). unfold home_block in Hhome. destruct G.
    apply lookup_lt_Some in Hk. lia.
  - rewrite length_app in R2, T2. cbn [length] in R2, T2. rewrite Nat.add_1_r in R2.
    exists s2. cbn [seq length each]. run_ret R1. split_and!; [done| |].
    + cbn [imap]. rewrite Nat.add_0_r. rewrite <- (Hnew h Hin). eapply transfers_cons; [exact T1|].
      erewrite imap_ext; [exact T2|]. intros j x Hj. cbn. f_equal. lia.
    + intros b. by rewrite P2.
Qed.

Lemma write_log_spec s :
  binv ∅ s -> log_st L (k_log s) ->
  (forall b, pins s b ≠ 0 <-> b ∈ L) -> (forall h, h ∈ L -> view s h = new h) ->
  exists s', write_log s = Ret tt s' /\ transfers s (data_writes start L new) s' /\
    (forall b, pins s' b = pins s b).
Proof.
  intros Hv Hl Hp Hnew. unfold write_log. rewrite get_log. cbn beta.
  rewrite (ls_n _ _ Hl), Nat2Z.id. by apply (write_log_range L []).
Qed.

Lemma install_range (rec : bool) L2 : forall L1 s,
  L = L1 ++ L2 -> NoDup L -> binv ∅ s -> log_st L (k_log s) ->
  (forall b, pins s b = if rec then 0 else if decide (b ∈ L2) then 1 else 0) ->
  (forall k h, L !! k = Some h -> view s (start + Z.of_nat k + 1) = new h) ->
  exists s', each (seq (length L1) (length L2)) (install_one rec) s = Ret tt s' /\
    transfers s ((fun h => (h, new h)) <$> L2) s' /\ (forall b, pins s' b = 0).
Proof.
  induction L2 as [|h L2 IH]; intros L1 s E Hnd Hv Hl Hp Hnew.
  { exists s. split_and!; [done|by apply transfers_nil|]. intros b. rewrite Hp. by destruct rec. }
  assert (Hk : L !! length L1 = Some h) by (rewrite E; by apply list_lookup_middle).
  assert (Hin : h ∈ L) by (by eapply list_elem_of_lookup_2).
  assert (HhL2 : h ∉ L2) by (rewrite E in Hnd; apply NoDup_app in Hnd as (_ & _ & Hnd); by apply NoDup_cons in Hnd as [? _]).
  destruct (install_one_spec rec L s (length L1) h) as (s1 & R1 & T1 & P1); try done.
  { by apply Hhome. }
  { intros b Hb. rewrite Hp in Hb. destruct rec; [done|]. case_decide; [|done]. rewrite E. set_solver. }
  { destruct rec; [by intros b; rewrite Hp|]. rewrite Hp, decide_True by set_solver. done. }
  destruct (IH (L1 ++ [h]) s1) as (s2 & R2 & T2 & P2).
  - by rewrite <- app_assoc.
  - done.
  - apply T1.
  - by rewrite (io_frame_log _ _ (tr_frame _ _ _ _ T1)).
  - intros b. rewrite P1. destruct rec; [done|]. rewrite Hp. case_decide as E1; [subst; by rewrite decide_False|].
    destruct (decide (b ∈ L2)); [rewrite decide_True by set_solver|rewrite decide_False by set_solver]; done.
  - intros k h' Hk'. rewrite (tr_view _ _ _ _ T1). rewrite put_ne; [by apply Hnew|].
    specialize (Hhome h Hin). unfold home_block in Hhome. destruct G.
    apply lookup_lt_Some in Hk'. lia.
  - rewrite length_app in R2. cbn [length] in R2. rewrite Nat.add_1_r in R2.
    exists s2. cbn [seq length each]. run_ret R1. split_and!; [done| |done].
    rewrite fmap_cons. rewrite <- (Hnew _ _ Hk). by eapply transfers_cons.
Qed.

Lemma install_trans_spec (rec : bool) s :
  NoDup L -> binv ∅ s -> log_st L (k_log s) ->
  (forall b, pins s b = if rec then 0 else if decide (b ∈ L) then 1 else 0) ->
  (forall k h, L !! k = Some h -> view s (start + Z.of_nat k + 1) = new h) ->
  exists s', install_trans rec s = Ret tt s' /\ transfers s (install_writes L new) s' /\
    (forall b, pins s' b = 0).
Proof.
  intros Hnd Hv Hl Hp Hnew. unfold install_trans. rewrite get_log. cbn beta.
  rewrite (ls_n _ _ Hl), Nat2Z.id. by apply (install_range rec L []).
Qed.
End Moves.

(** ** Commit *)
Lemma binv_set_log f H s : binv H s -> binv H (set_k_log f s).
Proof. intros [V1 V2 V3 V4 V5]. split; try done. by apply (calm_frame s). Qed.

(** Between operations: the in-memory header lists distinct home blocks that fit the
    log, exactly those are pinned, once, and the header on the disk is empty. *)
Record log_inv (L : list Z) (s : kstate) : Prop := mkLogInv {
  li_inv : binv ∅ s;
  li_st : log_st L (k_log s);
  li_pins : forall b, pins s b = if decide (b ∈ L) then 1 else 0;
  li_nodup : NoDup L;
  li_home : forall h, h ∈ L -> home_block h;
  li_bufs : (length L < NBUF)%nat;
  li_size : Z.of_nat (length L) < size;
  li_hdr : hdr_n (disk_read (k_disk s) start) = 0 }.

Lemma log_inv_clean L s b : log_inv L s -> b ∉ L -> view s b = disk_read (k_disk s) b.
Proof.
  intros Hi Hb. apply (view_clean ∅); [apply Hi|set_solver|]. by rewrite (li_pins _ _ Hi), decide_False.
Qed.

Definition log_frame (s s' : kstate) : Prop := exists l, io_frame (set_k_log (fun _ => l) s) s'.

Lemma io_log_frame s s1 f s2 : io_frame s s1 -> io_frame (set_k_log f s1) s2 -> log_frame s s2.
Proof.
  intros (bs & d & ps & -> & W1) (bs' & d' & ps' & -> & W2). exists (f (k_log s)), bs', d', ps'.
  split; [keq|]. by eapply woken_trans.
Qed.

Lemma start_not_home L s : log_inv L s -> start ∉ L.
Proof. intros Hi Hin. pose proof (li_home _ _ Hi _ Hin) as Hh. unfold home_block in Hh. destruct G. lia. Qed.

(** The commit of a nonempty group issues exactly the writes of [commit_writes]. *)
Lemma commit_spec L s :
  log_inv L s -> L ≠ [] ->
  exists s' hb hb0, commit s = Ret tt s' /\ binv ∅ s' /\ log_frame s s' /\
    k_log s' = set_l_n (fun _ => 0) (k_log s) /\
    k_disk s' = disk_writes (commit_writes start L (view s) hb hb0) (k_disk s) /\
    length hb = BSIZE /\ hdr_is hb L /\ length hb0 = BSIZE /\ hdr_n hb0 = 0 /\
    (forall b, pins s' b = 0).
Proof.
  intros Hi Hne. unfold commit. rewrite get_log. cbn beta. pose proof (li_home _ _ Hi) as Hhome.
  pose proof (li_bufs _ _ Hi) as Hn. pose proof (li_size _ _ Hi) as Hsz.
  rewrite (ls_n _ _ (li_st _ _ Hi)). destruct (Z.ltb_spec 0 (Z.of_nat (length L))); [|destruct L; cbn in *; [done|lia]].
  cbn [when]. assert (H30 : (length L <= 30)%nat) by (unfold NBUF in Hn; lia).
  assert (HP : forall s', (forall b, pins s' b = pins s b) ->
    exists P, (forall b, pins s' b ≠ 0 -> b ∈ P) /\ (length P < NBUF)%nat).
  { intros s' Hs'. exists L. split; [|done]. intros b. rewrite Hs', (li_pins _ _ Hi). by case_decide. }
  pose proof (log_inv_clean L s start Hi (start_not_home L s Hi)) as Hst.
  assert (Hlst : length (view s start) = BSIZE) by (rewrite Hst; apply (bv_disk _ _ _ (li_inv _ _ Hi))).
  destruct (write_log_spec L (view s) Hhome Hn Hsz s (li_inv _ _ Hi) (li_st _ _ Hi)) as (s1 & R1 & T1 & P1);
    [intros b; rewrite (li_pins _ _ Hi); by case_decide|done|].
  run_ret R1.
  assert (Hl1 : log_st L (k_log s1)) by (rewrite (io_frame_log _ _ (ts_frame _ _ _ T1)); apply Hi).
  assert (Hst1 : view s1 start = view s start).
  { rewrite (ts_view _ _ _ T1). apply replay_out.
    intros ([b w] & E & Hin)%list_elem_of_fmap. cbn in E. subst b.
    apply data_writes_lookup in Hin as (k & h & Hk & E & _). lia. }
  destruct (write_head_spec L s1 (ts_inv _ _ _ T1) Hl1 H30 (HP s1 P1)) as (s2 & R2 & T2 & P2).
  run_ret R2.
  assert (Hl2 : log_st L (k_log s2)) by by rewrite (io_frame_log _ _ (ts_frame _ _ _ T2)).
  destruct (install_trans_spec L (view s) Hhome Hn Hsz false s2 (li_nodup _ _ Hi) (ts_inv _ _ _ T2) Hl2)
    as (s3 & R3 & T3 & P3).
  { intros b. rewrite P2, P1. apply Hi. }
  { intros k h Hk. rewrite (ts_view _ _ _ T2). cbn. rewrite put_ne by lia. rewrite (ts_view _ _ _ T1).
    by apply data_writes_done. }
  run_ret R3. rewrite bind_modify.
  set (hb := head_bytes (view s1 start) (Z.of_nat (length L)) L) in *.
  set (s4 := set_k_log _ s3).
  assert (Hl4 : log_st [] (k_log s4)).
  { unfold s4. kcbn. rewrite (io_frame_log _ _ (ts_frame _ _ _ T3)). by destruct Hl2. }
  destruct (write_head_spec [] s4) as (s5 & R5 & T5 & P5).
  { apply binv_set_log, T3. } { done. } { cbn; lia. }
  { exists []. split; [intros b; change (pins s4 b) with (pins s3 b); by rewrite P3|cbn; unfold NBUF; lia]. }
  set (hb0 := head_bytes (view s4 start) (Z.of_nat (length [])) []) in *.
  assert (Hlhb : length hb = BSIZE).
  { unfold hb. rewrite length_head_bytes; rewrite Hst1, Hlst; [done|]. unfold BSIZE. lia. }
  assert (Hst4 : view s4 start = hb).
  { change (view s4 start) with (view s3 start). rewrite (ts_view _ _ _ T3), replay_out.
    - rewrite (ts_view _ _ _ T2). cbn. apply put_eq.
    - intros ([b w] & E & Hin)%list_elem_of_fmap. cbn in E. subst b.
      apply list_elem_of_fmap in Hin as (h & E & Hin). injection E as E _. rewrite <- E in Hin. exact (start_not_home L s Hi Hin). }
  exists s5, hb, hb0. split_and!.
  - done.
  - apply T5.
  - eapply io_log_frame; [|exact (ts_frame _ _ _ T5)].
    eapply io_frame_trans; [exact (ts_frame _ _ _ T1)|].
    eapply io_frame_trans; [exact (ts_frame _ _ _ T2)|exact (ts_frame _ _ _ T3)].
  - rewrite (io_frame_log _ _ (ts_frame _ _ _ T5)). unfold s4. kcbn.
    by rewrite (io_frame_log _ _ (ts_frame _ _ _ T3)), (io_frame_log _ _ (ts_frame _ _ _ T2)),
      (io_frame_log _ _ (ts_frame _ _ _ T1)).
  - rewrite (ts_disk _ _ _ T5). change (k_disk s4) with (k_disk s3).
    rewrite (ts_disk _ _ _ T3), (ts_disk _ _ _ T2), (ts_disk _ _ _ T1). unfold commit_writes.
    by rewrite !disk_writes_app.
  - done.
  - unfold hb. apply head_bytes_is; [rewrite Hst1, Hlst; unfold BSIZE; lia|done|].
    apply Forall_forall. intros h Hh. specialize (Hhome h Hh). unfold home_block in Hhome. destruct G. lia.
  - unfold hb0. rewrite length_head_bytes; rewrite Hst4, Hlhb; [done|]. unfold BSIZE. cbn. lia.
  - unfold hb0. apply hdr_n_head_bytes; [rewrite Hst4, Hlhb; unfold BSIZE; cbn; lia|cbn; lia].
  - intros b. rewrite P5. change (pins s4 b) with (pins s3 b). apply P3.
Qed.

(** What a finished commit leaves, and what a crash during it can leave. *)
Record commit_result (L : list Z) (s : kstate) (s' : kstate) : Prop := mkCommit {
  cr_inv : log_inv [] s';
  cr_frame : log_frame s s';
  cr_log : k_log s' = set_l_n (fun _ => 0) (k_log s);
  cr_crash : exists W, k_disk s' = disk_writes W (k_disk s) /\
    forall I, crash_image (disk_read (k_disk s)) W I ->
      uncommitted start size I (disk_read (k_disk s)) \/ committed start size I L (view s) \/
      uncommitted start size I (view s);
  cr_home : forall b, home start size b -> disk_read (k_disk s') b = view s b }.

Lemma log_st_nil L l : log_st L l -> log_st [] (set_l_n (fun _ => 0) l).
Proof. by intros []. Qed.

Lemma commit_result_spec L s : log_inv L s -> exists s', commit s = Ret tt s' /\ commit_result L s s'.
Proof.
  intros Hi. destruct (decide (L = [])) as [->|Hne].
  { exists s. split.
    - unfold commit. rewrite get_log. cbn beta. by rewrite (ls_n _ _ (li_st _ _ Hi)).
    - assert (E : set_l_n (fun _ => 0) (k_log s) = k_log s).
      { pose proof (ls_n _ _ (li_st _ _ Hi)) as E. destruct (k_log s). cbn in *. by rewrite E. }
      assert (Hv : forall b, view s b = disk_read (k_disk s) b).
      { intros b. apply (log_inv_clean [] s b Hi). set_solver. }
      split; [done| |done| |].
      + exists (k_log s). exists (k_bcache s), (k_disk s), (k_procs s). split; [keq|apply woken_refl].
      + exists []. split; [done|]. intros I [HI|(W1 & b & w & W2 & data & E' & _)]; [|by destruct W1].
        left. split; [rewrite HI; apply Hi|]. intros b _. apply HI.
      + intros b _. by rewrite Hv. }
  destruct (commit_spec L s Hi Hne) as (s' & hb & hb0 & R & V & F & El & Ed & L1 & H1 & L0 & H0 & P).
  exists s'. split; [done|]. pose proof (li_bufs _ _ Hi) as Hn. unfold NBUF in Hn. destruct G as [G1 G2 G3 G4].
  destruct (commit_writes_crash start size L (view s) ltac:(lia) (li_size _ _ Hi) (fun h Hh => proj1 (li_home _ _ Hi h Hh))
    ltac:(lia) (disk_read (k_disk s)) (disk_read (k_disk s)) hb hb0) as [C1 C2]; try done.
  { split; [apply Hi|done]. }
  { intros b _ Hb. by apply (log_inv_clean L). }
  { apply (bv_disk _ _ _ (li_inv _ _ Hi)). }
  split; [|done|done|by eexists|].
  - split; [done| | | | | | |].
    + rewrite El. by eapply log_st_nil, Hi.
    + intros b. rewrite decide_False by set_solver. apply P.
    + constructor.
    + intros h Hh. set_solver.
    + cbn. unfold NBUF. lia.
    + cbn. lia.
    + rewrite Ed, disk_read_writes. apply C2.
  - intros b Hb. rewrite Ed, disk_read_writes. by apply C2.
Qed.

(** C1. Group commit is crash-atomic.  When the last open operation ends, end_op
    returns with the in-memory header empty and every home block on the disk equal to
    its cached contents.  And if the machine crashes at any point of the writes it
    issues, a write torn between its two sectors included, what recovery would make
    of the disk is, on every block outside the log, either all of the old contents or
    all of the new ones. *)
Theorem end_op_crash_atomic L s :
  log_inv L s -> l_outstanding (k_log s) = 1 -> l_committing (k_log s) = false ->
  exists s' W, end_op s = Ret tt s' /\ d_writes (k_disk s') = d_writes (k_disk s) ++ W /\
    (forall I, crash_image (disk_read (k_disk s)) W I ->
       (forall b, home start size b -> logical start I b = disk_read (k_disk s) b) \/
       (forall b, home start size b -> logical start I b = view s b)) /\
    (forall b, home start size b -> disk_read (k_disk s') b = view s b) /\
    log_inv [] s' /\ l_outstanding (k_log s') = 0 /\ l_committing (k_log s') = false.
Proof.
  intros Hi Ho Hcm. pose proof (bv_calm _ _ _ (li_inv _ _ Hi)) as Hc. unfold end_op.
  lock_step Hc. rewrite bind_modify, get_log. kcbn. cbn [l_committing l_outstanding set_l_outstanding].
  rewrite Hcm, Ho. change (1 - 1 =? 0) with true. cbv iota zeta. rewrite bind_modify.
  erewrite bind_Ret by (apply (release_after _ s); [apply Hc|apply calm_fresh, Hc|done]). cbn [when].
  set (s0 := set_k_hart _ _).
  assert (E0 : s0 = set_k_log (fun l => set_l_committing (fun _ => true) (set_l_outstanding (fun o => o - 1) l)) s)
    by (unfold s0; keq).
  assert (Hi0 : log_inv L s0).
  { rewrite E0. destruct Hi as [V S1 P1 N1 H1 B1 Z1 D1]. split; try done.
    - by apply binv_set_log.
    - by destruct S1. }
  clearbody s0. destruct (commit_result_spec L s0 Hi0) as (s1 & R1 & [I1 F1 L1 (W & D1 & C1) H1]).
  run_ret R1. pose proof (bv_calm _ _ _ (li_inv _ _ I1)) as Hc1.
  lock_step Hc1. rewrite bind_modify.
  erewrite bind_Ret.
  2:{ apply wakeup_spec; kcbn; [apply hart_ok_acquire, Hc1| |apply Hc1].
      intros i. cbn. rewrite (calm_locks s1 Hc1). set_solver. }
  rewrite (release_after _ s1); [|apply Hc1|apply calm_fresh, Hc1|done].
  assert (Hview : forall b, view s0 b = view s b) by (intros b; by rewrite E0).
  assert (Hdisk : k_disk s0 = k_disk s) by by rewrite E0.
  eexists. exists W. split_and!; [done| | | | | |].
  - kcbn. by rewrite D1, d_writes_app, Hdisk.
  - intros I HI. rewrite Hdisk in C1. destruct (C1 I HI) as [C|[C|C]].
    + left. intros b Hb. by apply (logical_uncommitted start size).
    + right. intros b Hb. rewrite <- Hview. by apply (logical_committed start size I L).
    + right. intros b Hb. rewrite <- Hview. by apply (logical_uncommitted start size).
  - intros b Hb. kcbn. rewrite H1 by done. apply Hview.
  - destruct I1 as [V S1 P1 N1 H1' B1 Z1 D1']. split; try done; [|by destruct S1].
    set (s2 := set_k_log (set_l_committing (fun _ => false)) s1).
    assert (V2 : binv ∅ s2) by by apply binv_set_log.
    assert (F2 : io_frame s2 (set_k_procs (wake_table (k_cur s1) ChLog) s2)).
    { exists (k_bcache s2), (k_disk s2), (wake_table (k_cur s2) ChLog (k_procs s2)).
      split; [keq|apply woken_wake_table]. }
    match goal with |- Block.binv D ∅ ?x => assert (E : x = set_k_procs (wake_table (k_cur s1) ChLog) s2) by keq end.
    rewrite E. destruct V2 as [U1 U2 U3 U4 U5]. split; [by apply (io_frame_calm s2)|done|done|done|].
    rewrite (io_frame_mypid _ _ F2). done.
  - kcbn. rewrite L1, E0. cbn. by rewrite Ho.
  - done.
Qed.
End LogSpec.
