(* ===== verification/Tx.v ===== *)
(** * Transactions: what the file system assumes of the log and the buffer cache

    The interface [TxLayer]: inside a transaction a process reads blocks, changes and
    logs the ones it holds, and releases them, and sees one image of the disk; each
    logged change uses one of the credits of the transaction.  The log and the buffer
    cache implement it ([log_tx]).  begin_op opens such a transaction. *)

From S2P Require Import Prelude Params Machine Spinlock Sched CString Bio BioSpec Block Crash Log LogSpec.

(** ** The interface *)

(** [tx H c s]: in state [s] the process holds the buffers [H] and may log [c] more
    blocks; [img s] is the image it sees; [holds s i b]: buffer [i] holds block [b]. *)
Class TxLayer (dev : Z) : Type := {
  tx : gset nat -> nat -> kstate -> Prop;
  img : kstate -> Z -> list Z;
  holds : kstate -> nat -> Z -> Prop;
  home_blk : Z -> Prop;

  tx_calm : forall H c s, tx H c s -> calm s;
  tx_length : forall H c s b, tx H c s -> length (img s b) = BSIZE;
  tx_weaken : forall H c c' s, tx H c s -> (c' <= c)%nat -> tx H c' s;
  tx_holds_inj : forall s i b b', holds s i b -> holds s i b' -> b = b';
  tx_held : forall H c s j, tx H c s -> j ∈ H -> exists b, holds s j b;
  tx_icache : forall H c s f, tx H c s -> tx H c (set_k_icache f s);
  tx_icache_img : forall s f b, img (set_k_icache f s) b = img s b;
  tx_icache_holds : forall s f i b, holds (set_k_icache f s) i b <-> holds s i b;
  tx_mem : forall H c s f, tx H c s -> tx H c (set_k_mem f s);
  tx_mem_img : forall s f b, img (set_k_mem f s) b = img s b;
  tx_mem_holds : forall s f i b, holds (set_k_mem f s) i b <-> holds s i b;
  tx_wake : forall H c s ch, tx H c s -> tx H c (set_k_procs (wake_table (k_cur s) ch) s);
  tx_wake_img : forall s f b, img (set_k_procs f s) b = img s b;

  tx_bread : forall H c s b, tx H c s -> 0 <= b < 2 ^ 32 ->
    (forall i, i ∈ H -> ~ holds s i b) -> (size H <= 2)%nat ->
    exists i s', bread dev b s = Ret i s' /\ tx ({[i]} ∪ H) c s' /\ (i ∉ H) /\ holds s' i b /\
      (forall x, img s' x = img s x) /\ (forall j x, j ∈ H -> holds s j x -> holds s' j x) /\ log_frame s s';
  tx_data : forall H c s i b, tx H c s -> i ∈ H -> holds s i b ->
    exists x, get_buf i s = Ret x s /\ b_data x = img s b;
  tx_write : forall H c s i b g, tx H (S c) s -> i ∈ H -> holds s i b -> home_blk b ->
    length (g (img s b)) = BSIZE ->
    exists s', (do! upd_buf i (set_b_data g); log_write i) s = Ret tt s' /\ tx H c s' /\
      (forall x, img s' x = put b (g (img s b)) (img s) x) /\
      (forall j x, holds s j x -> holds s' j x) /\ log_frame s s';
  tx_brelse : forall H c s i b, tx H c s -> i ∈ H -> holds s i b ->
    exists s', brelse i s = Ret tt s' /\ tx (H ∖ {[i]}) c s' /\
      (forall x, img s' x = img s x) /\ (forall j x, holds s j x -> holds s' j x) /\ log_frame s s';
}.

(** ** Frames *)
Lemma log_frame_refl s : log_frame s s.
Proof. exists (k_log s). apply io_frame_refl. Qed.

Lemma log_frame_trans s1 s2 s3 : log_frame s1 s2 -> log_frame s2 s3 -> log_frame s1 s3.
Proof.
  intros (l & bs & d & ps & -> & W1) (l' & bs' & d' & ps' & -> & W2). exists l', bs', d', ps'.
  split; [keq|]. by eapply woken_trans.
Qed.

Lemma log_frame_log s s' f : log_frame s s' -> log_frame s (set_k_log f s').
Proof.
  intros (l & bs & d & ps & -> & W1). exists (f l), bs, d, ps. split; [keq|done].
Qed.

(** What the frame leaves alone. *)
Record same_fs (s s' : kstate) : Prop := mkSameFs {
  sf_icache : k_icache s' = k_icache s;
  sf_sb : k_sb s' = k_sb s;
  sf_mem : k_mem s' = k_mem s;
  sf_hart : k_hart s' = k_hart s;
  sf_cur : k_cur s' = k_cur s;
  sf_ftable : k_ftable s' = k_ftable s }.

Lemma log_frame_fs s s' : log_frame s s' -> same_fs s s'.
Proof. intros (l & bs & d & ps & -> & _). by split. Qed.

Lemma log_frame_wake ch s : log_frame s (set_k_procs (wake_table (k_cur s) ch) s).
Proof.
  exists (k_log s), (k_bcache s), (k_disk s), (wake_table (k_cur s) ch (k_procs s)).
  split; [keq|apply woken_wake_table].
Qed.

Lemma log_frame_mypid s s' : log_frame s s' -> mypid s' = mypid s.
Proof. intros [l Hf]. apply io_frame_mypid in Hf. by rewrite Hf. Qed.

(** ** log_write *)
Section LogWrite.
Context (D start size : Z) (G : geometry D start size).

Abbreviation view := (Block.view D).
Abbreviation pins := (Block.pins D).
Abbreviation binv := (Block.binv D).
Abbreviation holdsb := (holds_block D).

Lemma home_u32 h : home_block start size h -> u32 h = h /\ i32 h = h.
Proof.
  intros [H1 H2]. destruct G as [G1 G2 G3 G4]. split.
  - apply u32_small. lia.
  - unfold i32, signed. rewrite (Z.mod_small h) by lia. change (32 - 1) with 31.
    destruct (Z.ltb_spec h (2 ^ 31)); lia.
Qed.

Definition dup_body (b : Z) : nat -> K (option unit) :=
  fun k => let! h := lh_block k in if u32 h =? b then ret (Some tt) else ret None.

Lemma dup_body_run L s k h b :
  log_st D start size L (k_log s) -> L !! k = Some h -> home_block start size h ->
  dup_body b k s = Ret (if decide (h = b) then Some tt else None) s.
Proof.
  intros Hl Hk Hh. unfold dup_body. rewrite (bind_Ret _ _ _ _ _ (lh_block_run D start size L s k h Hl Hk)).
  destruct (home_u32 h Hh) as [-> _]. destruct (Z.eqb_spec h b); [by rewrite decide_True|by rewrite decide_False].
Qed.

Lemma dup_search L s b :
  log_st D start size L (k_log s) -> (forall h, h ∈ L -> home_block start size h) ->
  search (seq 0 (length L)) (dup_body b) s = Ret (if decide (b ∈ L) then Some tt else None) s.
Proof.
  intros Hl Hh. destruct (decide (b ∈ L)) as [Hin|Hno].
  - apply list_elem_of_split_l in Hin as (l1 & l2 & E & Hno).
    assert (Eseq : seq 0 (length L) = seq 0 (length l1) ++ length l1 :: seq (S (length l1)) (length l2)).
    { rewrite E, length_app. cbn [length]. rewrite seq_app. cbn [seq]. done. }
    rewrite Eseq. apply search_hit.
    + intros k Hk. apply elem_of_seq in Hk. destruct (lookup_lt_is_Some_2 l1 k) as [h Hk1]; [lia|].
      assert (HLk : L !! k = Some h) by (rewrite E; by apply lookup_app_l_Some).
      rewrite (dup_body_run L s k h b Hl HLk); [|by apply Hh; eapply list_elem_of_lookup_2].
      rewrite decide_False; [done|]. intros ->. apply Hno. by eapply list_elem_of_lookup_2.
    + assert (HLk : L !! length l1 = Some b) by (rewrite E; by apply list_lookup_middle).
      rewrite (dup_body_run L s _ b b Hl HLk); [|by apply Hh; eapply list_elem_of_lookup_2].
      by rewrite decide_True.
  - apply search_skip. intros k Hk. apply elem_of_seq in Hk. destruct (lookup_lt_is_Some_2 L k) as [h HLk]; [lia|].
    rewrite (dup_body_run L s k h b Hl HLk); [|by apply Hh; eapply list_elem_of_lookup_2].
    rewrite decide_False; [done|]. intros ->. apply Hno. by eapply list_elem_of_lookup_2.
Qed.

(** Recording block [b] in the in-memory header. *)
Definition log_add (b : Z) (l : logst) : logst :=
  set_l_n (fun n => n + 1) (set_l_block (insert (Z.to_nat (l_n l)) b) l).

Lemma log_st_add L l b :
  log_st D start size L l -> (length L < 30)%nat -> log_st D start size (L ++ [b]) (log_add b l).
Proof.
  intros [E1 E2 E3 E4 E5 E6] Hn. unfold log_add. split; cbn; [done|done|done| |by rewrite length_insert|].
  - rewrite E4, length_app. cbn. lia.
  - intros k h. rewrite lookup_app_Some. intros [Hk|[Hk1 Hk2]].
    + pose proof (lookup_lt_Some _ _ _ Hk). rewrite list_lookup_insert_ne by lia. by apply E6.
    + apply list_lookup_singleton_Some in Hk2 as [Hk2 <-]. rewrite E4, Nat2Z.id.
      assert (k = length L) as -> by lia. apply list_lookup_insert_eq. rewrite E5. unfold LOGSIZE, MAXOPBLOCKS. lia.
Qed.

Lemma log_write_run H L s i b :
  binv H s -> log_st D start size L (k_log s) -> i ∈ H -> holdsb (k_bcache s) i b ->
  home_block start size b -> (forall h, h ∈ L -> home_block start size h) ->
  (length L < 30)%nat -> Z.of_nat (length L) < size - 1 -> 1 <= l_outstanding (k_log s) ->
  log_write i s = Ret tt (if decide (b ∈ L) then s else
    set_k_bcache (alter (set_b_pinned (fun p => p + 1)) i) (set_k_log (log_add b) s)).
Proof.
  intros Hv Hl HiH Hh Hb HL Hn Hsz Ho. pose proof (bv_calm _ _ _ Hv) as Hc.
  destruct G as [G1 G2 G3 G4].
  destruct (holds_held D ltac:(lia) H s i b Hv HiH Hh) as (x & Hx & _ & _ & Eb & _).
  unfold log_write. lock_step Hc. rewrite get_log. kcbn.
  pose proof (ls_n _ _ _ _ _ Hl) as En. rewrite En, (ls_size _ _ _ _ _ Hl).
  destruct (Z.leb_spec LOGSIZE (Z.of_nat (length L))); [unfold LOGSIZE, MAXOPBLOCKS in *; lia|].
  destruct (Z.leb_spec (size - 1) (Z.of_nat (length L))); [lia|]. cbn [orb].
  destruct (Z.ltb_spec (l_outstanding (k_log s)) 1); [lia|].
  set (sL := set_k_hart (hart_acquire LkLog) s).
  assert (Hget : get_buf i sL = Ret x sL) by (unfold get_buf, sL; kcbn; by rewrite Hx).
  rewrite (bind_Ret _ _ _ _ _ Hget), Nat2Z.id, Eb. fold (dup_body b).
  rewrite (bind_Ret _ _ _ _ _ (dup_search L sL b Hl HL)).
  assert (Hrel : forall s1, k_hart s1 = hart_acquire LkLog (k_hart s) ->
    release LkLog s1 = Ret tt (set_k_hart (fun _ => k_hart s) s1)).
  { intros s1 E. apply (release_after _ s); [apply Hc|apply calm_fresh, Hc|done]. }
  destruct (decide (b ∈ L)) as [Hin|Hno].
  { rewrite Hrel by done. unfold sL. keq. }
  assert (Hset : set_lh_block (length L) (i32 b) sL =
    Ret tt (set_k_log (set_l_block (insert (length L) b)) sL)).
  { unfold set_lh_block, sL. kcbn. rewrite (ls_cap _ _ _ _ _ Hl). destruct (home_u32 b Hb) as [_ ->].
    destruct (Nat.ltb_spec (length L) (Z.to_nat LOGSIZE)); [done|unfold LOGSIZE, MAXOPBLOCKS in *; lia]. }
  rewrite (bind_Ret _ _ _ _ _ Hset), bind_modify.
  erewrite bind_Ret.
  2:{ apply bpin_run; kcbn; [apply hart_ok_acquire, Hc|]. cbn. rewrite (calm_locks _ Hc).
      apply not_elem_of_union. split; [|set_solver]. by apply not_elem_of_singleton. }
  rewrite Hrel by done. unfold sL. keq. unfold log_add. by rewrite En, Nat2Z.id.
Qed.
End LogWrite.

(** ** The log and the cache implement the interface *)
Section LogTx.
Context (D start size : Z) (G : geometry D start size).

Abbreviation view := (Block.view D).
Abbreviation pins := (Block.pins D).
Abbreviation binv := (Block.binv D).
Abbreviation holdsb := (holds_block D).

Record ltx (L : list Z) (H : gset nat) (c : nat) (s : kstate) : Prop := mkLtx {
  lt_inv : binv H s;
  lt_st : log_st D start size L (k_log s);
  lt_pins : forall b, pins s b = if decide (b ∈ L) then 1 else 0;
  lt_nodup : NoDup L;
  lt_home : forall h, h ∈ L -> home_block start size h;
  lt_hdr : hdr_n (disk_read (k_disk s) start) = 0;
  lt_out : 1 <= l_outstanding (k_log s);
  lt_bufs : (length L + c + 3 <= NBUF)%nat;
  lt_size : Z.of_nat (length L + c) < size;
  lt_clean : forall i b, i ∈ H -> holdsb (k_bcache s) i b -> b ∈ L \/ view s b = disk_read (k_disk s) b }.

Lemma HD : D ≠ 0.
Proof. destruct G. lia. Qed.

Lemma holds_fun bs i b b' : holdsb bs i b -> holdsb bs i b' -> b = b'.
Proof. intros (_ & x & Hx & _ & <-) (_ & y & Hy & _ & <-). congruence. Qed.

Lemma held_block H s j : binv H s -> j ∈ H -> exists b, holdsb (k_bcache s) j b.
Proof.
  intros Hv Hj. pose proof (bv_held _ _ _ Hv j Hj) as Hlt.
  destruct (cache_lookup (k_bcache s) j (bv_cache _ _ _ Hv) Hlt) as [x Hx].
  destruct (bv_buf _ _ _ Hv j x Hlt Hx) as [Hval _ _ Hl _]. rewrite bool_decide_true in Hl by done.
  destruct Hl as (_ & _ & Hvl). exists (b_blockno x). split; [done|]. exists x.
  destruct (Hval Hvl). done.
Qed.

Lemma view_length H s b : binv H s -> length (view s b) = BSIZE.
Proof.
  intros Hv. destruct (find_buf_cases D (k_bcache s) b (bv_cache _ _ _ Hv)) as [(i & Hi & x & Hx & E1 & E2)|Hno].
  - destruct (view_in D HD s i x b) as [-> _]; [apply Hv|done..|].
    destruct (bv_buf _ _ _ Hv i x Hi Hx) as [Hval Hdev _ _ _]. rewrite (Hdev E1). by apply Hval, Hdev.
  - destruct (view_out D s b Hno) as [-> _]. apply (bv_disk _ _ _ Hv).
Qed.

(** The clean held blocks, when the blocks held before keep their contents. *)
Lemma clean_step (L L' : list Z) (H H' : gset nat) s s' :
  binv H' s' -> (forall j b, j ∈ H' -> holdsb (k_bcache s') j b ->
    (exists b0, (j ∈ H) /\ holdsb (k_bcache s) j b0 /\ holdsb (k_bcache s') j b0) \/
    b ∈ L' \/ view s' b = disk_read (k_disk s') b) ->
  (forall b, b ∈ L -> b ∈ L') -> k_disk s' = k_disk s ->
  (forall b, b ∉ L' -> view s' b = view s b) ->
  (forall i b, i ∈ H -> holdsb (k_bcache s) i b -> b ∈ L \/ view s b = disk_read (k_disk s) b) ->
  forall i b, i ∈ H' -> holdsb (k_bcache s') i b -> b ∈ L' \/ view s' b = disk_read (k_disk s') b.
Proof.
  intros Hv Hback HLL Hd Hview Hclean j b Hj Hh.
  destruct (Hback j b Hj Hh) as [(b0 & HjH & H0 & H1)|Hok]; [|done].
  assert (b0 = b) as -> by by eapply holds_fun.
  destruct (decide (b ∈ L')) as [|Hno]; [by left|]. right. rewrite Hview, Hd by done.
  destruct (Hclean j b HjH H0) as [Hin|E]; [by destruct Hno; apply HLL|done].
Qed.

Lemma ltx_bread L H c s b :
  ltx L H c s -> 0 <= b < 2 ^ 32 -> (forall i, i ∈ H -> ~ holdsb (k_bcache s) i b) -> (base.size H <= 2)%nat ->
  exists i s', bread D b s = Ret i s' /\ ltx L ({[i]} ∪ H) c s' /\ (i ∉ H) /\ holdsb (k_bcache s') i b /\
    (forall x, view s' x = view s x) /\
    (forall j x, j ∈ H -> holdsb (k_bcache s) j x -> holdsb (k_bcache s') j x) /\ log_frame s s'.
Proof.
  intros [Hv Hl Hp Hnd Hh Hdr Ho Hb Hs Hcl] Hbr Hun Hsz.
  destruct (bread_spec D HD H s b Hv Hbr Hun) as (i & s' & Hr & B).
  { apply (available_count D HD H s b L Hv); [|lia]. intros b'. rewrite Hp. by case_decide. }
  destruct B as [Hv' Hnew Hfr Hd Hw Hpn Hhl Hkept].
  assert (Hlog : k_log s' = k_log s) by by apply io_frame_log.
  assert (Hkh : forall j x, j ∈ H -> holdsb (k_bcache s) j x -> holdsb (k_bcache s') j x).
  { intros j x Hj (Hlt & y & Hy & E). split; [done|]. exists y. by rewrite Hkept. }
  exists i, s'. split_and!; [done| |done|done|done|done|by exists (k_log s)].
  split; try done; [by rewrite Hlog|intros b'; by rewrite Hpn|by rewrite Hd|by rewrite Hlog|].
  eapply (clean_step L L H); [done| |done|done|done|done].
  intros j b' [->%elem_of_singleton|Hj]%elem_of_union Hb'.
  - assert (b' = b) as -> by by eapply holds_fun.
    right. destruct (decide (b ∈ L)) as [|Hno]; [by left|]. right. rewrite Hw, Hd.
    apply (view_clean D start size G H); [done|done|]. by rewrite Hp, decide_False.
  - left. destruct (held_block H s j Hv Hj) as [b0 Hb0]. exists b0. split_and!; [done|done|by apply Hkh].
Qed.

Lemma ltx_brelse L H c s i b :
  ltx L H c s -> i ∈ H -> holdsb (k_bcache s) i b ->
  exists s', brelse i s = Ret tt s' /\ ltx L (H ∖ {[i]}) c s' /\
    (forall x, view s' x = view s x) /\ (forall j x, holdsb (k_bcache s) j x -> holdsb (k_bcache s') j x) /\
    log_frame s s'.
Proof.
  intros [Hv Hl Hp Hnd Hh Hdr Ho Hb Hs Hcl] HiH Hhb.
  destruct (brelse_spec D HD H s i b Hv HiH Hhb) as (s' & Hr & B).
  { destruct (Hcl i b HiH Hhb) as [Hin|E]; [left|by right]. by rewrite Hp, decide_True. }
  destruct B as [Hv' Hfr Hd Hw Hpn Hhl].
  assert (Hlog : k_log s' = k_log s) by by apply io_frame_log.
  exists s'. split_and!; [done| |done|done|by exists (k_log s)].
  split; try done; [by rewrite Hlog|intros b'; by rewrite Hpn|by rewrite Hd|by rewrite Hlog|].
  eapply (clean_step L L H); [done| |done|done|done|done].
  intros j b' [Hj _]%elem_of_difference Hb'. left.
  destruct (held_block H s j Hv Hj) as [b0 Hb0]. exists b0. split_and!; [done|done|by apply Hhl].
Qed.

Lemma ltx_write L H c s i b g :
  ltx L H (S c) s -> i ∈ H -> holdsb (k_bcache s) i b -> home_block start size b -> length (g (view s b)) = BSIZE ->
  exists s' L', (do! upd_buf i (set_b_data g); log_write i) s = Ret tt s' /\ ltx L' H c s' /\
    (forall x, view s' x = put b (g (view s b)) (view s) x) /\
    (forall j x, holdsb (k_bcache s) j x -> holdsb (k_bcache s') j x) /\ log_frame s s'.
Proof.
  intros [Hv Hl Hp Hnd Hh Hdr Ho Hb Hs Hcl] HiH Hhb Hhome Hlen.
  destruct (update_spec D HD H s i b g Hv HiH Hhb Hlen) as (V1 & W1 & W1' & P1).
  set (s1 := set_k_bcache (alter (set_b_data g) i) s) in *.
  assert (H1 : forall j x, holdsb (k_bcache s) j x -> holdsb (k_bcache s1) j x)
    by (intros j x Hj; by apply holds_alter).
  assert (Hw1 : forall x, view s1 x = put b (g (view s b)) (view s) x).
  { intros x. unfold put. case_decide; [by subst|]. by apply W1'. }
  pose proof (log_write_run D start size G H L s1 i b V1 Hl HiH (H1 i b Hhb) Hhome Hh) as Hrun.
  specialize (Hrun ltac:(unfold NBUF in *; lia) ltac:(lia) Ho).
  unfold upd_buf. rewrite bind_modify. fold s1. rewrite Hrun.
  destruct (decide (b ∈ L)) as [Hin|Hno].
  - exists s1, L. split_and!; [done| |done|done|].
    2:{ exists (k_log s). apply io_frame_bcache. }
    split; try done; [intros b'; by rewrite P1|lia|lia|].
    eapply (clean_step L L H H s s1); [done| |done|done| |done].
    + intros j b' Hj Hb'. left. destruct (held_block H s j Hv Hj) as [b0 Hb0]. exists b0. split_and!; [done|done|by apply H1].
    + intros b' Hb'. apply W1'. by intros ->.
  - set (s2 := set_k_log (log_add b) s1).
    assert (V2 : binv H s2) by by apply binv_set_log.
    destruct (bpin_spec D HD H s2 i b V2 HiH (H1 i b Hhb)) as (V3 & W3 & P3 & P3').
    set (s3 := set_k_bcache _ s2) in *.
    assert (H3 : forall j x, holdsb (k_bcache s) j x -> holdsb (k_bcache s3) j x)
      by (intros j x Hj; apply holds_alter; [done|done|by apply H1]).
    exists s3, (L ++ [b]). split_and!; [done| | |done|].
    + split; try done.
      * apply log_st_add; [done|unfold NBUF in *; lia].
      * intros b'. destruct (decide (b' = b)) as [->|Hne].
        -- rewrite P3. change (pins s2 b) with (pins s1 b). rewrite P1, Hp, decide_False by done.
           by rewrite decide_True by set_solver.
        -- rewrite P3' by done. change (pins s2 b') with (pins s1 b'). rewrite P1, Hp.
           destruct (decide (b' ∈ L)); [by rewrite decide_True by set_solver|by rewrite decide_False by set_solver].
      * apply NoDup_app. split_and!; [done|set_solver|apply NoDup_singleton].
      * intros h [Hin| ->%list_elem_of_singleton]%elem_of_app; [by apply Hh|done].
      * rewrite length_app. cbn. lia.
      * rewrite length_app. cbn. lia.
      * eapply (clean_step L (L ++ [b]) H H s s3); [done| |set_solver|done| |done].
        -- intros j b' Hj Hb'. left. destruct (held_block H s j Hv Hj) as [b0 Hb0]. exists b0.
           split_and!; [done|done|by apply H3].
        -- intros b' Hb'. rewrite W3. change (view s2 b') with (view s1 b'). apply W1'. intros ->. set_solver.
    + intros x. rewrite W3. apply Hw1.
    + exists (log_add b (k_log s)), (k_bcache s3), (k_disk s), (k_procs s). split; [unfold s3, s2, s1; keq|apply woken_refl].
Qed.
Lemma binv_set_icache f H s : binv H s -> binv H (set_k_icache f s).
Proof. intros [V1 V2 V3 V4 V5]. split; try done. by apply (calm_frame s). Qed.
Lemma binv_wake ch H s : binv H s -> binv H (set_k_procs (wake_table (k_cur s) ch) s).
Proof. intros [V1 V2 V3 V4 V5]. split; try done; [by apply calm_wake|]. by rewrite mypid_wake. Qed.
Lemma binv_set_mem f H s : binv H s -> binv H (set_k_mem f s).
Proof. intros [V1 V2 V3 V4 V5]. split; try done. by apply (calm_frame s). Qed.

#[program] Instance log_tx : TxLayer D := {|
  tx H c s := exists L, ltx L H c s;
  img := Block.view D;
  holds s i b := holdsb (k_bcache s) i b;
  home_blk := home_block start size;
|}.
Next Obligation. intros H c s [L HL]. apply (bv_calm _ _ _ (lt_inv _ _ _ _ HL)). Qed.
Next Obligation. intros H c s b [L HL]. apply (view_length H), HL. Qed.
Next Obligation. intros H c c' s [L HL] Hc. exists L. destruct HL. split; try done; lia. Qed.
Next Obligation. intros s i b b'. apply holds_fun. Qed.
Next Obligation. intros H c s j [L HL] Hj. apply (held_block H); [apply HL|done]. Qed.
Next Obligation. intros H c s f [L HL]. exists L. destruct HL. split; try done. by apply binv_set_icache. Qed.
Next Obligation. done. Qed.
Next Obligation. done. Qed.
Next Obligation. intros H c s f [L HL]. exists L. destruct HL. split; try done. by apply binv_set_mem. Qed.
Next Obligation. done. Qed.
Next Obligation. done. Qed.
Next Obligation. intros H c s ch [L HL]. exists L. destruct HL. split; try done. by apply binv_wake. Qed.
Next Obligation. done. Qed.
Next Obligation.
  intros H c s b [L HL] Hb Hun Hsz.
  destruct (ltx_bread L H c s b HL Hb Hun Hsz) as (i & s' & Hr & HL' & Hrest). exists i, s'. eauto.
Qed.
Next Obligation.
  intros H c s i b [L HL] Hi Hh.
  destruct (holds_held D HD H s i b (lt_inv _ _ _ _ HL) Hi Hh) as (x & Hx & _ & _ & _ & _ & _ & _ & Hd & _).
  exists x. unfold get_buf. by rewrite Hx.
Qed.
Next Obligation.
  intros H c s i b g [L HL] Hi Hh Hhome Hlen.
  destruct (ltx_write L H c s i b g HL Hi Hh Hhome Hlen) as (s' & L' & Hr & HL' & Hrest). exists s'. eauto.
Qed.
Next Obligation.
  intros H c s i b [L HL] Hi Hh.
  destruct (ltx_brelse L H c s i b HL Hi Hh) as (s' & Hr & HL' & Hrest). exists s'. eauto.
Qed.

(** begin_op on an idle log whose region and cache are large enough opens a transaction
    with MAXOPBLOCKS credits. *)
Lemma begin_op_tx s :
  log_inv D start size [] s -> l_outstanding (k_log s) = 0 -> l_committing (k_log s) = false ->
  MAXOPBLOCKS < size ->
  exists s', begin_op s = Ret tt s' /\ ltx [] ∅ (Z.to_nat MAXOPBLOCKS) s' /\
    s' = set_k_log (set_l_outstanding (fun o => o + 1)) s.
Proof.
  intros [Hv Hl Hp Hnd Hh Hb Hs Hdr] Ho Hcm Hsz. pose proof (bv_calm _ _ _ Hv) as Hc.
  unfold begin_op. lock_step Hc.
  unfold begin_op_loop. rewrite get_log. kcbn. rewrite Hcm, Ho, (ls_n _ _ _ _ _ Hl). cbn [length].
  change (LOGSIZE <? Z.of_nat 0 + (0 + 1) * MAXOPBLOCKS) with false. cbv iota. rewrite bind_modify.
  rewrite (release_after _ s); [|apply Hc|apply calm_fresh, Hc|done].
  assert (E : set_k_hart (fun _ => k_hart s) (set_k_log (set_l_outstanding (fun o => o + 1))
    (set_k_hart (hart_acquire LkLog) s)) = set_k_log (set_l_outstanding (fun o => o + 1)) s) by keq.
  rewrite E. eexists. split; [done|]. split; [|done].
  split; try done; [by apply binv_set_log|by destruct Hl| |by apply Nat.leb_le].
  kcbn. cbn [l_outstanding set_l_outstanding]. lia.
Qed.

(** At its end, with every buffer released, a transaction is a state of the log between
    operations. *)
Lemma ltx_log_inv L c s : ltx L ∅ c s -> log_inv D start size L s.
Proof. intros [Hv Hl Hp Hnd Hh Hdr Ho Hb Hs _]. split; try done; unfold NBUF in *; lia. Qed.
End LogTx.
