(* ===== verification/Recovery.v ===== *)
(** * Recovery of the log (initlog)

    Reading and checking the header at boot, replaying it, and the result: the home
    blocks become the logical content of the image, and a crash at any point of
    recovery, repeated any number of times, loses nothing. *)

From S2P Require Import Prelude Params Machine Spinlock Sched CString Bio BioSpec Block Crash Log LogSpec.

Lemma get_logsb {A} (k : superblock -> K A) s : bind (gets k_logsb) k s = k (k_logsb s) s.
Proof. done. Qed.

Section Recovery.
Context (D start size : Z) (G : geometry D start size).

Abbreviation view := (view D).
Abbreviation pins := (pins D).
Abbreviation binv := (binv D).
Abbreviation holds := (holds_block D).
Abbreviation home_block := (home_block start size).
Abbreviation log_st := (log_st D start size).
Abbreviation log_inv := (log_inv D start size).

(** An image whose superblock describes this geometry, and whose log header holds
    the distinct home blocks [L]. *)
Record image_ok (L : list Z) (I : image) : Prop := mkImageOk {
  io_len : forall b, length (I b) = BSIZE;
  io_magic : sb_magic (sb_of_bytes (I 1)) = FSMAGIC;
  io_nlog : sb_nlog (sb_of_bytes (I 1)) = size;
  io_logstart : sb_logstart (sb_of_bytes (I 1)) = start;
  io_fs : start + size <= sb_size (sb_of_bytes (I 1)) <= 2 ^ 31;
  io_hdr : hdr_is (I start) L;
  io_nodup : NoDup L;
  io_home : forall h, h ∈ L -> start + size <= h < sb_size (sb_of_bytes (I 1));
  io_bufs : (length L < NBUF)%nat;
  io_fit : Z.of_nat (length L) < size }.

(** The cache as it is at boot: consistent with the disk, and nothing pinned. *)
Record boot_ok (s : kstate) : Prop := mkBootOk {
  bo_inv : binv ∅ s;
  bo_pins : forall b, pins s b = 0;
  bo_cap : length (l_block (k_log s)) = Z.to_nat LOGSIZE }.

Lemma boot_view s b : boot_ok s -> view s b = disk_read (k_disk s) b.
Proof. intros Hb. apply (view_clean D start size G ∅); [apply Hb|set_solver|apply Hb]. Qed.


(** A block held for reading: bread, look at it, brelse. *)
Lemma read_block_spec s b :
  boot_ok s -> 0 <= b < 2 ^ 32 ->
  exists i s1, bread D b s = Ret i s1 /\ bread_result D ∅ s b i s1 /\
    (exists x, k_bcache s1 !! i = Some x /\ b_data x = disk_read (k_disk s) b).
Proof.
  intros Hs Hb. pose proof (D_ne D start size G) as HD.
  destruct (bread_spec D HD ∅ s b) as (i & s1 & R & B); [apply Hs|done|set_solver| |].
  { apply (available_count D HD ∅ s b [] (bo_inv _ Hs)); [intros b'; by rewrite (bo_pins _ Hs)|].
    rewrite size_empty. cbn. unfold NBUF. lia. }
  exists i, s1. split_and!; [done|done|].
  destruct (holds_held D HD _ s1 i b (br_inv _ _ _ _ _ _ B) ltac:(set_solver) (br_holds _ _ _ _ _ _ B))
    as (x & Hx & _ & _ & _ & _ & _ & _ & Hd & _).
  exists x. split; [done|]. by rewrite Hd, (br_view _ _ _ _ _ _ B), boot_view.
Qed.

(** Releasing it again, possibly after changes of the log's own variables. *)
Lemma release_read s b i s1 s2 :
  boot_ok s -> bread_result D ∅ s b i s1 ->
  (exists l sb, s2 = set_k_logsb (fun _ => sb) (set_k_log (fun _ => l) s1) /\
     length (l_block l) = Z.to_nat LOGSIZE) ->
  exists s3, brelse i s2 = Ret tt s3 /\ boot_ok s3 /\ k_disk s3 = k_disk s /\
    k_log s3 = k_log s2 /\ k_logsb s3 = k_logsb s2.
Proof.
  intros Hs B (l & sb & -> & Hcap). pose proof (D_ne D start size G) as HD.
  destruct B as [V N F Dk W P H K]. rewrite union_empty_r_L in V.
  set (s2 := set_k_logsb _ _).
  assert (V2 : binv {[i]} s2) by (destruct V as [V1 V2 V3 V4 V5]; split; try done; by apply (calm_frame s1)).
  destruct (brelse_spec D HD {[i]} s2 i b V2 ltac:(set_solver) H) as (s3 & R & [V3 F3 D3 W3 P3 K3]).
  { right. change (view s2 b) with (view s1 b). change (k_disk s2) with (k_disk s1).
    rewrite W, Dk. by apply boot_view. }
  exists s3. split_and!; [done| |by rewrite D3|by apply io_frame_log|by destruct F3 as (? & ? & ? & -> & _)].
  split.
  - by replace ({[i]} ∖ {[i]} : gset nat) with (∅ : gset nat) in V3 by set_solver.
  - intros b'. rewrite P3. change (pins s2 b') with (pins s1 b'). rewrite P. apply Hs.
  - rewrite (io_frame_log _ _ F3). exact Hcap.
Qed.

Lemma readsb_spec s :
  boot_ok s -> l_dev (k_log s) = D ->
  exists s', readsb s = Ret tt s' /\ boot_ok s' /\ k_disk s' = k_disk s /\ k_log s' = k_log s /\
    k_logsb s' = sb_of_bytes (disk_read (k_disk s) 1).
Proof.
  intros Hs Hd. unfold readsb. rewrite get_log. cbn beta. rewrite Hd. destruct G as [G1 G2 G3 G4].
  rewrite (u32_small D) by lia.
  destruct (read_block_spec s 1 Hs ltac:(lia)) as (i & s1 & R & B & x & Hx & Hdat).
  run_ret R. unfold bind at 1, get_buf. rewrite Hx, Hdat, bind_modify.
  pose proof (io_frame_log _ _ (br_frame _ _ _ _ _ _ B)) as Hl.
  destruct (release_read s 1 i s1 (set_k_logsb (fun _ => sb_of_bytes (disk_read (k_disk s) 1)) s1) Hs B)
    as (s3 & R3 & H3 & D3 & L3 & S3).
  { eexists (k_log s1), _. split; [keq|]. rewrite Hl. apply Hs. }
  exists s3. split_and!; [done|done|done|by rewrite L3|by rewrite S3].
Qed.

Lemma hb_get_run i off s x :
  k_bcache s !! i = Some x -> (off + 4 <= BSIZE)%nat -> hb_get i off s = Ret (i32 (get_le 4 off (b_data x))) s.
Proof.
  intros Hx Ho. unfold hb_get, bind, get_buf. rewrite Hx. by destruct (Nat.leb_spec (off + 4) BSIZE); [|lia].
Qed.

(** The validation loop passes over the valid entries and changes nothing. *)
Lemma read_head_check_run i x L2 : forall k s,
  k_bcache s !! i = Some x -> (4 + 4 * (k + length L2) <= BSIZE)%nat ->
  l_size (k_log s) = size -> l_start (k_log s) = start ->
  (forall j h, L2 !! j = Some h -> u32 (hdr_block (b_data x) (k + j)) = h /\
                 start + size <= h < sb_size (k_logsb s)) ->
  each (seq k (length L2)) (read_head_check i) s = Ret tt s.
Proof.
  induction L2 as [|h L2 IH]; intros k s Hx Hb Hsz Hst Hh; cbn [length seq each]; [done|].
  cbn [length] in Hb. destruct (Hh 0%nat h eq_refl) as [E1 E2]. rewrite Nat.add_0_r in E1. destruct G as [G1 G2 G3 G4].
  assert (Hone : read_head_check i k s = Ret tt s).
  { unfold read_head_check. rewrite (bind_Ret _ _ _ _ _ (hb_get_run i (4 + 4 * k) s x Hx ltac:(lia))).
    rewrite get_log, get_logsb. cbn beta. change (i32 (get_le 4 (4 + 4 * k) (b_data x))) with (hdr_block (b_data x) k).
    rewrite E1, Hsz, Hst. rewrite (u32_small size), (u32_small start), (u32_small (size + start)) by lia.
    destruct (Z.ltb_spec h (size + start)); [lia|]. by destruct (Z.leb_spec (sb_size (k_logsb s)) h); [lia|]. }
  run_ret Hone. apply IH; [done|lia|done|done|].
  intros j h' Hj. specialize (Hh (S j) h' Hj). by replace (k + S j)%nat with (S k + j)%nat in Hh by lia.
Qed.

Lemma i32_of_u32 x h : u32 (i32 x) = h -> 0 <= h < 2 ^ 31 -> i32 x = h.
Proof.
  intros E Hh. rewrite u32_i32 in E. unfold u32 in E. unfold i32, signed. rewrite E.
  by destruct (Z.ltb_spec h (2 ^ (32 - 1))); [|lia].
Qed.

(** The loop that copies the entries into the in-memory header. *)
Lemma set_lh_blocks_run i x L2 : forall k s,
  k_bcache s !! i = Some x -> (4 + 4 * (k + length L2) <= BSIZE)%nat ->
  (k + length L2 <= length (l_block (k_log s)))%nat ->
  (forall j h, L2 !! j = Some h -> u32 (hdr_block (b_data x) (k + j)) = h /\ 0 <= h < 2 ^ 31) ->
  exists bl, each (seq k (length L2)) (fun n => let! v := hb_get i (4 + 4 * n) in set_lh_block n v) s =
      Ret tt (set_k_log (set_l_block (fun _ => bl)) s) /\
    length bl = length (l_block (k_log s)) /\
    (forall j h, L2 !! j = Some h -> bl !! (k + j)%nat = Some h) /\
    (forall j, (j < k)%nat -> bl !! j = l_block (k_log s) !! j).
Proof.
  induction L2 as [|h L2 IH]; intros k s Hx Hb Hcap Hh; cbn [length seq each].
  { exists (l_block (k_log s)). split_and!; try done. unfold ret. keq. by destruct (k_log s). }
  cbn [length] in *. destruct (Hh 0%nat h eq_refl) as [E1 E2]. rewrite Nat.add_0_r in E1.
  rewrite bind_assoc, (bind_Ret _ _ _ _ _ (hb_get_run i (4 + 4 * k) s x Hx ltac:(lia))).
  change (i32 (get_le 4 (4 + 4 * k) (b_data x))) with (hdr_block (b_data x) k).
  rewrite (i32_of_u32 _ h E1 E2 : hdr_block (b_data x) k = h).
  erewrite bind_Ret by (unfold set_lh_block; destruct (Nat.ltb_spec k (length (l_block (k_log s)))); [done|lia]).
  destruct (IH (S k) (set_k_log (set_l_block (insert k h)) s)) as (bl & R & Hl & Hin & Hout).
  - done.
  - lia.
  - kcbn. cbn. rewrite length_insert. lia.
  - intros j h' Hj. specialize (Hh (S j) h' Hj). by replace (k + S j)%nat with (S k + j)%nat in Hh by lia.
  - exists bl. rewrite R. split_and!.
    + keq.
    + rewrite Hl. kcbn. cbn. apply length_insert.
    + intros [|j] h' Hj; cbn in Hj.
      * simplify_eq. rewrite Nat.add_0_r, Hout by lia. kcbn. cbn. rewrite list_lookup_insert_eq by lia. done.
      * replace (k + S j)%nat with (S k + j)%nat by lia. by apply Hin.
    + intros j Hj. rewrite Hout by lia. kcbn. cbn. by rewrite list_lookup_insert_ne by lia.
Qed.

Lemma read_head_spec L s :
  boot_ok s -> l_dev (k_log s) = D -> l_start (k_log s) = start -> l_size (k_log s) = size ->
  image_ok L (disk_read (k_disk s)) -> k_logsb s = sb_of_bytes (disk_read (k_disk s) 1) ->
  exists s', read_head s = Ret tt s' /\ boot_ok s' /\ k_disk s' = k_disk s /\ log_st L (k_log s') /\
    l_outstanding (k_log s') = l_outstanding (k_log s) /\ l_committing (k_log s') = l_committing (k_log s).
Proof.
  intros Hs Hd Hst Hsz Him Hsb. unfold read_head. rewrite get_log. cbn beta. rewrite Hd, Hst, Hsz.
  pose proof G as [G1 G2 G3 G4]. rewrite (u32_small D), (u32_small start) by lia.
  destruct Him as [Ilen Imagic Inlog Istart Ifs [Hn Hk] Ind Ihome Ibufs Ifit]. unfold NBUF in Ibufs.
  destruct (read_block_spec s start Hs ltac:(lia)) as (i & s1 & R & B & x & Hx & Hdat).
  run_ret R.
  rewrite (bind_Ret _ _ _ _ _ (hb_get_run i 0 s1 x Hx ltac:(unfold BSIZE; lia))).
  change (i32 (get_le 4 0 (b_data x))) with (hdr_n (b_data x)). rewrite Hdat, Hn.
  destruct (Z.ltb_spec (Z.of_nat (length L)) 0); [lia|].
  destruct (Z.leb_spec size (Z.of_nat (length L))); [lia|]. cbn [orb]. rewrite Nat2Z.id.
  pose proof (io_frame_log _ _ (br_frame _ _ _ _ _ _ B)) as Hl.
  assert (Hsb1 : k_logsb s1 = k_logsb s) by (by destruct (br_frame _ _ _ _ _ _ B) as (? & ? & ? & -> & _)).
  assert (HL : forall j h, L !! j = Some h -> start + size <= h < sb_size (k_logsb s)).
  { intros j h Hj. rewrite Hsb. apply Ihome. by eapply list_elem_of_lookup_2. }
  erewrite bind_Ret.
  2:{ apply (read_head_check_run i x L 0 s1 Hx); [unfold BSIZE; lia|by rewrite Hl|by rewrite Hl|].
      intros j h Hj. rewrite Hdat, Hsb1. split; [by apply Hk|by eapply HL]. }
  rewrite bind_modify.
  set (s2 := set_k_log (set_l_n (fun _ => Z.of_nat (length L))) s1).
  destruct (set_lh_blocks_run i x L 0 s2) as (bl & R2 & Hbl & Hin & _).
  { done. } { unfold BSIZE; lia. }
  { unfold s2. kcbn. cbn. rewrite Hl, (bo_cap _ Hs). unfold LOGSIZE, MAXOPBLOCKS. lia. }
  { intros j h Hj. rewrite Hdat. split; [by apply Hk|]. specialize (HL j h Hj). rewrite Hsb in HL. lia. }
  run_ret R2.
  destruct (release_read s start i s1 (set_k_log (set_l_block (fun _ => bl)) s2) Hs B) as (s3 & R3 & H3 & D3 & L3 & S3).
  { exists (set_l_block (fun _ => bl) (k_log s2)), (k_logsb s1). split; [unfold s2; keq|].
    cbn. rewrite Hbl. unfold s2. kcbn. cbn. rewrite Hl. apply Hs. }
  exists s3. rewrite L3. unfold s2. kcbn. cbn. rewrite Hl. split_and!; try done.
  split; cbn; try done. rewrite Hbl. unfold s2. kcbn. cbn. rewrite Hl. apply Hs.
Qed.

(** The log of a good image holds the logical content of its home blocks. *)
Lemma image_committed L I : image_ok L I -> committed start size I L (logical start I).
Proof.
  intros Him. destruct (io_hdr _ _ Him) as [Hn Hb].
  assert (E : log_entries start I = imap (fun k h => (h, I (start + Z.of_nat k + 1))) L).
  { unfold log_entries. rewrite Hn, Nat2Z.id. apply list_eq. intros j.
    rewrite list_lookup_fmap, list_lookup_imap. destruct (L !! j) as [h'|] eqn:Ej.
    - rewrite lookup_seq_lt by (by eapply lookup_lt_Some). cbn. by rewrite (Hb j h' Ej).
    - rewrite lookup_seq_ge by (by apply lookup_ge_None). done. }
  unfold logical. rewrite E. split_and!; [done| |].
  - intros k h Hk. symmetry. rewrite <- (take_drop_middle L k h Hk) at 1.
    rewrite imap_app, replay_app. cbn [imap].
    change ((?a, ?b) :: ?l) with ([(a, b)] ++ l). rewrite replay_app, replay_out.
    + cbn. rewrite put_eq. rewrite Nat.add_0_r, length_take, Nat.min_l by (apply lookup_lt_Some in Hk; lia). done.
    + intros ([b w] & Eb & Hin)%list_elem_of_fmap. cbn in Eb. subst b. apply list_elem_of_lookup in Hin as [j Hj].
      rewrite list_lookup_imap in Hj. destruct (drop (S k) L !! j) as [z|] eqn:Ez; cbn in Hj; simplify_eq.
      rewrite lookup_drop in Ez. pose proof (NoDup_lookup _ _ _ _ (io_nodup _ _ Him) Hk Ez). lia.
  - intros b _ Hb'. symmetry. apply replay_out. intros ([c w] & Ec & Hin)%list_elem_of_fmap. cbn in Ec. subst c.
    apply list_elem_of_lookup in Hin as [j Hj]. rewrite list_lookup_imap in Hj.
    destruct (L !! j) as [z|] eqn:Ez; cbn in Hj; simplify_eq. apply Hb'. by eapply list_elem_of_lookup_2.
Qed.

(** What recovery leaves, and what a crash during it can leave. *)
Lemma recover_spec L s :
  boot_ok s -> l_dev (k_log s) = D -> l_start (k_log s) = start -> l_size (k_log s) = size ->
  image_ok L (disk_read (k_disk s)) -> k_logsb s = sb_of_bytes (disk_read (k_disk s) 1) ->
  exists s' hb0, recover_from_log s = Ret tt s' /\ log_inv [] s' /\
    l_outstanding (k_log s') = l_outstanding (k_log s) /\ l_committing (k_log s') = l_committing (k_log s) /\
    k_disk s' = disk_writes (recover_writes start L (logical start (disk_read (k_disk s))) hb0) (k_disk s) /\
    length hb0 = BSIZE /\ hdr_n hb0 = 0.
Proof.
  intros Hs Hd Hst Hsz Him Hsb. unfold recover_from_log. pose proof G as [G1 G2 G3 G4].
  destruct (read_head_spec L s Hs Hd Hst Hsz Him Hsb) as (s1 & R1 & H1 & D1 & L1 & O1 & C1).
  run_ret R1. set (I := disk_read (k_disk s)) in *.
  pose proof (io_bufs _ _ Him) as Hbufs. unfold NBUF in Hbufs. pose proof (io_fit _ _ Him) as Hfit.
  assert (Hhome : forall h, h ∈ L -> home_block h).
  { intros h Hh. pose proof (io_home _ _ Him h Hh). pose proof (io_fs _ _ Him). unfold LogSpec.home_block. lia. }
  assert (Hslot : forall k h, L !! k = Some h -> view s1 (start + Z.of_nat k + 1) = logical start I h).
  { intros k h Hk. rewrite boot_view by done. rewrite D1. fold I.
    destruct (image_committed L I Him) as (_ & Hc & _). by apply Hc. }
  destruct (install_trans_spec D start size G L (logical start I) Hhome (io_bufs _ _ Him) Hfit true s1
    (io_nodup _ _ Him) (bo_inv _ H1) L1) as (s2 & R2 & T2 & P2); [apply H1|exact Hslot|].
  run_ret R2. rewrite bind_modify.
  set (s3 := set_k_log _ s2).
  assert (Hl3 : k_log s3 = set_l_n (fun _ => 0) (k_log s1)).
  { unfold s3. kcbn. by rewrite (io_frame_log _ _ (ts_frame _ _ _ _ T2)). }
  assert (L3 : log_st [] (k_log s3)) by (rewrite Hl3; by eapply log_st_nil).
  destruct (write_head_spec D start size G [] s3) as (s4 & R4 & T4 & P4).
  { apply binv_set_log, T2. } { done. } { cbn; lia. }
  { exists []. split; [intros b; change (pins s3 b) with (pins s2 b); by rewrite P2|cbn; unfold NBUF; lia]. }
  set (hb0 := head_bytes (view s3 start) _ []) in *.
  assert (Hstart : length (view s3 start) = BSIZE).
  { change (view s3 start) with (view s2 start). rewrite (ts_view _ _ _ _ T2), replay_out.
    - rewrite boot_view by done. rewrite D1. apply (io_len _ _ Him).
    - intros ([b w] & E & Hin)%list_elem_of_fmap. cbn in E. subst b.
      apply list_elem_of_fmap in Hin as (h & E & Hin). injection E as E _. specialize (Hhome h Hin).
      unfold LogSpec.home_block in Hhome. lia. }
  assert (Hdisk : k_disk s4 = disk_writes (recover_writes start L (logical start I) hb0) (k_disk s)).
  { rewrite (ts_disk _ _ _ _ T4). change (k_disk s3) with (k_disk s2). rewrite (ts_disk _ _ _ _ T2), D1.
    unfold recover_writes. by rewrite disk_writes_app. }
  exists s4, hb0. pose proof (io_frame_log _ _ (ts_frame _ _ _ _ T4)) as Hl4.
  assert (Hhb0 : hdr_n hb0 = 0) by (apply hdr_n_head_bytes; [rewrite Hstart; unfold BSIZE; cbn; lia|cbn; lia]).
  split_and!; [done| |by rewrite Hl4, Hl3|by rewrite Hl4, Hl3|done| |done].
  - split; [apply T4|by rewrite Hl4| | | | | |].
    + intros b. rewrite decide_False by set_solver. rewrite P4. apply P2.
    + constructor.
    + intros h Hh. set_solver.
    + cbn. unfold NBUF. lia.
    + cbn. lia.
    + rewrite Hdisk, disk_read_writes. unfold recover_writes. rewrite replay_app. cbn. by rewrite put_eq.
  - unfold hb0. rewrite length_head_bytes; rewrite Hstart; [done|]. unfold BSIZE. cbn. lia.
Qed.

Lemma initlock_free lk s : calm s -> initlock lk s = Ret tt s.
Proof.
  intros Hc. unfold initlock, modify. keq. pose proof (calm_locks s Hc) as E.
  destruct (k_hart s) as [a b c d]. cbn in *. subst d. unfold set_h_locks. cbn. f_equal. set_solver.
Qed.

Lemma initlog_run L s :
  boot_ok s -> image_ok L (disk_read (k_disk s)) ->
  exists s' hb0, initlog D s = Ret tt s' /\ log_inv [] s' /\
    l_outstanding (k_log s') = 0 /\ l_committing (k_log s') = false /\
    k_disk s' = disk_writes (recover_writes start L (logical start (disk_read (k_disk s))) hb0) (k_disk s) /\
    length hb0 = BSIZE /\ hdr_n hb0 = 0.
Proof.
  intros Hs Him. unfold initlog. pose proof G as [G1 G2 G3 G4].
  change (Z.of_nat BSIZE <=? logheader_size) with false. cbv iota.
  rewrite (bind_Ret _ _ _ _ _ (initlock_free LkLog s (bv_calm _ _ _ (bo_inv _ Hs)))), bind_modify.
  set (s0 := set_k_log _ s).
  assert (Hs0 : boot_ok s0) by (destruct Hs as [A1 A2 A3]; split; [by apply binv_set_log|done|done]).
  destruct (readsb_spec s0 Hs0 eq_refl) as (s1 & R1 & H1 & D1 & L1 & S1).
  rewrite (bind_Ret _ _ _ _ _ R1), get_logsb. cbn beta. rewrite S1. change (k_disk s0) with (k_disk s) in *.
  rewrite (io_magic _ _ Him), (io_nlog _ _ Him), (io_logstart _ _ Him). pose proof (io_fs _ _ Him) as Hfs.
  rewrite Z.eqb_refl. cbn [negb]. destruct (Z.leb_spec size 0); [lia|]. destruct (Z.leb_spec start 1); [lia|].
  cbn [orb]. rewrite (u32_small (start + size)) by lia.
  destruct (Z.ltb_spec (sb_size (sb_of_bytes (disk_read (k_disk s) 1))) (start + size)); [lia|].
  rewrite bind_modify, !i32_small by lia. set (s2 := set_k_log _ s1).
  assert (Hdev : l_dev (k_log s1) = D) by by rewrite L1.
  destruct (recover_spec L s2) as (s3 & hb0 & R3 & I3 & O3 & C3 & D3 & E3); unfold s2; kcbn; try done.
  - destruct H1 as [A1 A2 A3]. split; [by apply binv_set_log|done|exact A3].
  - by rewrite D1.
  - by rewrite S1, D1.
  - exists s3, hb0. change (k_disk s2) with (k_disk s1) in D3. rewrite D1 in D3. split_and!; [exact R3|done|exact O3|exact C3|exact D3|apply E3|apply E3].
Qed.

Lemma recover_crash L I hb0 :
  image_ok L I -> length hb0 = BSIZE -> hdr_n hb0 = 0 ->
  (forall I', crash_image I (recover_writes start L (logical start I) hb0) I' ->
     committed start size I' L (logical start I) \/ uncommitted start size I' (logical start I)) /\
  uncommitted start size (replay (recover_writes start L (logical start I) hb0) I) (logical start I).
Proof.
  intros Him Hl0 Hn0. pose proof (io_bufs _ _ Him) as Hbufs. unfold NBUF in Hbufs.
  apply (recover_writes_crash start size L (logical start I) (io_fit _ _ Him)
    (fun h Hh => proj1 (io_home _ _ Him h Hh)) ltac:(lia)); [by apply image_committed|apply (io_len _ _ Him)|done|done].
Qed.

(** Recovery installs the log and is harmless to interrupt.  On a disk whose
    superblock and log header are valid, initlog returns with the log ready and
    empty, and every block outside the log region is what the log says it should be;
    if the machine crashes anywhere during recovery, a torn write included, the
    logical content of the disk has not changed. *)
Theorem initlog_recovers L s :
  boot_ok s -> image_ok L (disk_read (k_disk s)) ->
  exists s' W, initlog D s = Ret tt s' /\ d_writes (k_disk s') = d_writes (k_disk s) ++ W /\
    log_inv [] s' /\ l_outstanding (k_log s') = 0 /\ l_committing (k_log s') = false /\
    (forall b, home start size b ->
       disk_read (k_disk s') b = logical start (disk_read (k_disk s)) b) /\
    (forall I b, crash_image (disk_read (k_disk s)) W I -> home start size b ->
       logical start I b = logical start (disk_read (k_disk s)) b).
Proof.
  intros Hs Him. destruct (initlog_run L s Hs Him) as (s' & hb0 & R & HI & O & C & Dk & Hl0 & Hn0).
  destruct (recover_crash L _ hb0 Him Hl0 Hn0) as [C1 C2].
  eexists s', _. split_and!; [done|by rewrite Dk, d_writes_app|done|done|done| |].
  - intros b Hb. rewrite Dk, disk_read_writes. by apply C2.
  - intros I b HI' Hb. destruct (C1 I HI') as [Hc|Hu].
    + by apply (logical_committed start size I L).
    + by apply (logical_uncommitted start size I).
Qed.

(** ** Repeated crashes *)

(** The disk images reachable from [I0] by booting and crashing during recovery. *)
Inductive rebooted (I0 : image) : image -> Prop :=
| rb_refl : rebooted I0 I0
| rb_crash I s s' W I' :
    rebooted I0 I -> boot_ok s -> (forall b, disk_read (k_disk s) b = I b) ->
    initlog D s = Ret tt s' -> d_writes (k_disk s') = d_writes (k_disk s) ++ W ->
    crash_image (disk_read (k_disk s)) W I' -> rebooted I0 I'.

Lemma torn_length old new data :
  length old = BSIZE -> length new = BSIZE -> torn old new data -> length data = BSIZE.
Proof.
  intros Ho Hn [->|[->|[->| ->]]]; try done;
    rewrite length_app, length_take, length_drop, Ho, Hn; unfold SECTOR, BSIZE; lia.
Qed.

Lemma crash_image_length I W I' :
  (forall b, length (I b) = BSIZE) -> (forall b w, (b, w) ∈ W -> length w = BSIZE) ->
  crash_image I W I' -> forall b, length (I' b) = BSIZE.
Proof.
  intros HI HW. apply (crash_image_invariant (fun I => forall b, length (I b) = BSIZE)).
  - intros I1 I2 E H b. by rewrite E.
  - done.
  - intros I1 b w data Hin H1 Ht c. unfold put. case_decide; [|done].
    eapply torn_length; [apply H1|by eapply HW|exact Ht].
Qed.

Lemma image_ok_ext L I I' : (forall b, I' b = I b) -> image_ok L I -> image_ok L I'.
Proof.
  intros E [H1 H2 H3 H4 H5 H6 H7 H8 H9 H10]. split; rewrite ?E; try done. intros b. by rewrite E.
Qed.

Lemma logical_length L I b : image_ok L I -> length (logical start I b) = BSIZE.
Proof.
  intros Him. unfold logical. destruct (decide (b ∈ (log_entries start I).*1)) as [Hin|Hout].
  - eapply (crash_image_length I (log_entries start I)); [apply Him| |by left].
    intros c w Hw. apply list_elem_of_fmap in Hw as (k & E & _). injection E as _ ->. apply Him.
  - rewrite replay_out by done. apply Him.
Qed.

(** A crash during recovery leaves a good image with the same logical content. *)
Lemma recovery_crash_image L I hb0 I' :
  image_ok L I -> length hb0 = BSIZE -> hdr_n hb0 = 0 ->
  crash_image I (recover_writes start L (logical start I) hb0) I' ->
  (exists L', image_ok L' I') /\ forall b, home start size b -> logical start I' b = logical start I b.
Proof.
  intros Him Hl0 Hn0 Hcr. pose proof G as [G1 G2 G3 G4].
  assert (Hlen : forall b, length (I' b) = BSIZE).
  { eapply crash_image_length; [apply Him| |exact Hcr]. intros b w Hin. unfold recover_writes in Hin.
    apply elem_of_app in Hin as [Hin|Hin].
    - apply list_elem_of_fmap in Hin as (h & E & _). injection E as _ ->. by eapply logical_length.
    - apply list_elem_of_singleton in Hin. by injection Hin as _ ->. }
  assert (Hone : home start size 1) by (left; lia).
  assert (H1L : 1 ∉ L) by (intros Hin; pose proof (io_home _ _ Him 1 Hin); lia).
  assert (Hsb : logical start I 1 = I 1).
  { destruct (image_committed L I Him) as (_ & _ & Hc). by rewrite Hc. }
  destruct (recover_crash L I hb0 Him Hl0 Hn0) as [C1 _].
  destruct (C1 I' Hcr) as [Hc|Hu].
  - split; [|intros b Hb; by apply (logical_committed start size I' L)].
    pose proof Hc as (Hh & _ & Hout). specialize (Hout 1 Hone H1L). rewrite Hsb in Hout.
    exists L. destruct Him. split; rewrite ?Hout; done.
  - split; [|intros b Hb; by apply (logical_uncommitted start size I')].
    pose proof Hu as (Hh & Hout). specialize (Hout 1 Hone). rewrite Hsb in Hout.
    exists []. destruct Him. split; rewrite ?Hout; try done.
    + constructor.
    + intros h Hh'. set_solver.
    + cbn. unfold NBUF. lia.
Qed.

End Recovery.
