(* ===== verification/Decide.v ===== *)
(** * Deciding the invariants on a concrete state

    Boolean versions of the cache, block-layer and log invariants, sound for the
    propositions, so that a concrete kernel state can be shown to satisfy them by
    evaluation. *)

From S2P Require Import Prelude Params Machine Spinlock Sched CString Bio BioSpec Block Crash Log LogSpec Recovery.

(** ** The cache *)
Definition allb (P : nat -> buf -> bool) (bs : list buf) : bool :=
  forallb (fun i => match bs !! i with Some x => P i x | None => false end) (seq 0 NBUF).

Lemma allb_spec P bs : allb P bs = true -> forall i x, (i < NBUF)%nat -> bs !! i = Some x -> P i x = true.
Proof.
  intros H i x Hi Hx. unfold allb in H. rewrite forallb_forall in H.
  specialize (H i). rewrite Hx in H. apply H. apply in_seq. lia.
Qed.

Fixpoint dpathb (bs : list buf) (L : list nat) : bool :=
  match L with
  | i :: ((j :: _) as L') => bool_decide (nxt bs i = Some j) && bool_decide (prv bs j = Some i) && dpathb bs L'
  | _ => true
  end.

Lemma dpathb_spec bs L : dpathb bs L = true -> dpath bs L.
Proof.
  induction L as [|i L IH]; [done|]. destruct L as [|j L]; [done|]. cbn [dpathb dpath].
  rewrite !andb_true_iff, !bool_decide_eq_true. intros [[H1 H2] H3]. split_and!; [done|done|by apply IH].
Qed.

(** The order of the list, read off the next links. *)
Fixpoint order_walk (fuel : nat) (bs : list buf) (i : nat) : list nat :=
  match fuel with
  | O => []
  | S f => if (i =? HEAD)%nat then []
           else i :: match nxt bs i with Some j => order_walk f bs j | None => [] end
  end.
Definition order_of (bs : list buf) : list nat :=
  match nxt bs HEAD with Some j => order_walk NBUF bs j | None => [] end.

Definition ringb (bs : list buf) (order : list nat) : bool :=
  (length bs =? S NBUF)%nat && bool_decide (NoDup order) && forallb (fun i => (i <? NBUF)%nat) order &&
  (length order =? NBUF)%nat && dpathb bs (HEAD :: order ++ [HEAD]).

Lemma ringb_spec bs order : ringb bs order = true -> ring bs order.
Proof.
  unfold ringb. rewrite !andb_true_iff, bool_decide_eq_true, !Nat.eqb_eq, forallb_forall.
  intros ((((H1 & H2) & H3) & H4) & H5). split_and!; [done| |by apply dpathb_spec].
  apply submseteq_length_Permutation; [|by rewrite length_seq, H4].
  apply NoDup_submseteq; [done|]. intros i Hi. apply elem_of_seq.
  specialize (H3 i ltac:(by apply list_elem_of_In)). apply Nat.ltb_lt in H3. lia.
Qed.

Definition buf_okb (b : buf) : bool :=
  (0 <=? b_refcnt b) && (b_refcnt b <? 2 ^ 32) && (0 <=? b_pinned b) &&
  (negb (sl_locked (b_lock b)) || negb (b_refcnt b =? 0)).

Definition cache_okb (bs : list buf) : bool :=
  ringb bs (order_of bs) && allb (fun _ => buf_okb) bs &&
  allb (fun i b => (b_dev b =? 0) || allb (fun j c =>
    (i =? j)%nat || negb ((b_dev c =? b_dev b) && (b_blockno c =? b_blockno b))) bs) bs.

Lemma cache_okb_spec bs : cache_okb bs = true -> cache_ok bs.
Proof.
  unfold cache_okb. rewrite !andb_true_iff. intros [[H1 H2] H3]. split.
  - exists (order_of bs). by apply ringb_spec.
  - intros i b Hi Hb. pose proof (allb_spec _ _ H2 i b Hi Hb) as H. cbv beta in H. unfold buf_okb in H.
    rewrite !andb_true_iff, orb_true_iff, !negb_true_iff, !Z.leb_le, Z.ltb_lt, Z.eqb_neq in H.
    destruct H as [[[A1 A2] A3] A4]. split; [lia|done|]. intros E. destruct A4; congruence.
  - intros i j b c Hi Hj Hb Hc Hd E1 E2. pose proof (allb_spec _ _ H3 i b Hi Hb) as H. cbv beta in H.
    apply orb_true_iff in H as [H|H]; [by apply Z.eqb_eq in H|].
    pose proof (allb_spec _ _ H j c Hj Hc) as H'. cbv beta in H'.
    rewrite orb_true_iff, negb_true_iff, Nat.eqb_eq in H'. destruct H' as [|H']; [done|].
    rewrite E1, E2, !Z.eqb_refl in H'. done.
Qed.

(** ** The calm state and the block layer *)
Definition hart_okb (h : hart) : bool :=
  bool_decide (h_noff h = 0) && bool_decide (h_saved_sie h = 0) &&
  bool_decide (Z.land (h_sstatus h) SSTATUS_SIE = 0).

Definition calmb (s : kstate) : bool :=
  hart_okb (k_hart s) && bool_decide (h_locks (k_hart s) = ∅) && (length (k_procs s) =? NPROC)%nat &&
  match k_cur s with Some p => (p <? NPROC)%nat | None => false end.

Lemma calmb_spec s : calmb s = true -> calm s.
Proof.
  unfold calmb, hart_okb. rewrite !andb_true_iff, !bool_decide_eq_true, Nat.eqb_eq.
  intros ((((H1 & H2) & H3) & H4) & H5). destruct H1 as [H0 H1].
  split; [|done|done|].
  - split_and!; [lia|by left|by rewrite H1, H2|lia].
  - destruct (k_cur s) as [p|]; [|done]. apply Nat.ltb_lt in H5.
    destruct (lookup_lt_is_Some_2 (k_procs s) p) as [pr Hpr]; [lia|]. by exists p, pr.
Qed.

Section DecideBlock.
Context (D : Z).

Definition buf_invb (d : vdisk) (x : buf) : bool :=
  (negb (b_valid x) || ((length (b_data x) =? BSIZE)%nat && (b_dev x =? D))) &&
  (negb (b_dev x =? D) || b_valid x) && ((b_pinned x =? 0) || b_valid x) &&
  (b_refcnt x =? 0) && negb (sl_locked (b_lock x)) &&
  (negb (b_valid x) || negb (b_pinned x =? 0) || bool_decide (b_data x = disk_read d (b_blockno x))).

Definition disk_okb (d : vdisk) : bool :=
  forallb (fun p => (length p.2 =? BSIZE)%nat) (map_to_list (d_image d)).

Definition binvb (s : kstate) : bool :=
  calmb s && cache_okb (k_bcache s) && disk_okb (k_disk s) && allb (fun _ => buf_invb (k_disk s)) (k_bcache s).

Lemma disk_okb_spec d : disk_okb d = true -> disk_ok d.
Proof.
  unfold disk_okb. rewrite forallb_forall. intros H b. unfold disk_read.
  destruct (d_image d !! b) as [data|] eqn:E; cbn [default]; [|apply length_replicate].
  specialize (H (b, data)). cbn in H. apply Nat.eqb_eq, H, list_elem_of_In, elem_of_map_to_list. done.
Qed.

Lemma binvb_spec s : binvb s = true -> binv D ∅ s.
Proof.
  unfold binvb. rewrite !andb_true_iff. intros [[[H1 H2] H3] H4].
  split; [by apply calmb_spec|by apply cache_okb_spec|by apply disk_okb_spec|set_solver|].
  intros i x Hi Hx. rewrite bool_decide_false by set_solver.
  pose proof (allb_spec _ _ H4 i x Hi Hx) as H. cbv beta in H. unfold buf_invb in H.
  rewrite !andb_true_iff, !orb_true_iff, !negb_true_iff in H.
  destruct H as (((((A1 & A2) & A3) & A4) & A5) & A6). split.
  - intros Hv. rewrite Hv in A1. destruct A1 as [|A1]; [done|].
    apply andb_true_iff in A1 as [B1 B2]. apply Nat.eqb_eq in B1. apply Z.eqb_eq in B2. done.
  - intros Hd. destruct A2 as [A2|]; [|done]. apply Z.eqb_neq in A2. done.
  - intros Hp. destruct A3 as [A3|]; [|done]. apply Z.eqb_eq in A3. done.
  - apply Z.eqb_eq in A4. done.
  - intros _ Hv Hp. destruct A6 as [[A6|A6]|A6]; [congruence|apply Z.eqb_neq in A6; done|].
    by apply bool_decide_eq_true in A6.
Qed.

(** The pins are exactly one per block of [L]. *)
Definition pinsb (L : list Z) (bs : list buf) : bool :=
  allb (fun _ x => negb (b_dev x =? D) || (b_pinned x =? (if bool_decide (b_blockno x ∈ L) then 1 else 0))) bs &&
  forallb (fun h => existsb (fun i => match bs !! i with Some x => caches D h x | None => false end) (seq 0 NBUF)) L.

Lemma pinsb_spec L s :
  D ≠ 0 -> cache_ok (k_bcache s) -> pinsb L (k_bcache s) = true ->
  forall b, pins D s b = if decide (b ∈ L) then 1 else 0.
Proof.
  intros HD Hc H b. unfold pinsb in H. apply andb_true_iff in H as [H1 H2].
  destruct (find_buf_cases D (k_bcache s) b Hc) as [(i & Hi & x & Hx & E1 & E2)|Hno].
  - destruct (view_in D HD s i x b Hc Hi Hx E1 E2) as [_ ->].
    pose proof (allb_spec _ _ H1 i x Hi Hx) as H. cbv beta in H. rewrite E1, Z.eqb_refl, E2 in H. cbn in H.
    apply Z.eqb_eq in H. rewrite H. by case_bool_decide; case_decide.
  - destruct (view_out D s b Hno) as [_ ->]. rewrite decide_False; [done|]. intros Hin.
    rewrite forallb_forall in H2. specialize (H2 b ltac:(by apply list_elem_of_In)).
    apply existsb_exists in H2 as (i & Hi & H2). apply in_seq in Hi.
    destruct (k_bcache s !! i) as [x|] eqn:Hx; [|done]. apply caches_true in H2. apply (Hno i x); [lia|done|done].
Qed.
End DecideBlock.

(** ** The log *)
Section DecideLog.
Context (D start size : Z).

Definition geometryb : bool :=
  (0 <? D) && (D <? 2 ^ 31) && (1 <? start) && (0 <? size) && (start + size <? 2 ^ 31).

Lemma geometryb_spec : geometryb = true -> geometry D start size.
Proof. unfold geometryb. rewrite !andb_true_iff, !Z.ltb_lt. intros H. split; lia. Qed.

Definition log_stb (L : list Z) (l : logst) : bool :=
  (l_dev l =? D) && (l_start l =? start) && (l_size l =? size) && (l_n l =? Z.of_nat (length L)) &&
  (length (l_block l) =? Z.to_nat LOGSIZE)%nat && bool_decide (take (length L) (l_block l) = L).

Lemma log_stb_spec L l : log_stb L l = true -> log_st D start size L l.
Proof.
  unfold log_stb. rewrite !andb_true_iff, !Z.eqb_eq, Nat.eqb_eq, bool_decide_eq_true.
  intros (((((H1 & H2) & H3) & H4) & H5) & H6). split; try done.
  intros k h Hk. rewrite <- H6 in Hk. rewrite lookup_take_Some in Hk. apply Hk.
Qed.

Definition log_invb (L : list Z) (s : kstate) : bool :=
  binvb D s && log_stb L (k_log s) && pinsb D L (k_bcache s) && bool_decide (NoDup L) &&
  forallb (fun h => (start + size <=? h) && (h <? 2 ^ 31)) L && (length L <? NBUF)%nat &&
  (Z.of_nat (length L) <? size) && (hdr_n (disk_read (k_disk s) start) =? 0).

Lemma log_invb_spec L s : geometryb = true -> log_invb L s = true -> log_inv D start size L s.
Proof.
  intros HG. pose proof (geometryb_spec HG) as G. unfold log_invb.
  rewrite !andb_true_iff, Z.eqb_eq, Z.ltb_lt, Nat.ltb_lt, bool_decide_eq_true, forallb_forall.
  intros (((((((H1 & H2) & H3) & H4) & H5) & H6) & H7) & H8). pose proof (binvb_spec D s H1) as V.
  split; [done|by apply log_stb_spec| |done| |done|done|done].
  - apply pinsb_spec; [by eapply D_ne|apply V|done].
  - intros h Hh. specialize (H5 h ltac:(by apply list_elem_of_In)).
    rewrite andb_true_iff, Z.leb_le, Z.ltb_lt in H5. exact H5.
Qed.

Definition boot_okb (s : kstate) : bool :=
  binvb D s && pinsb D [] (k_bcache s) && (length (l_block (k_log s)) =? Z.to_nat LOGSIZE)%nat.

Lemma boot_okb_spec s : D ≠ 0 -> boot_okb s = true -> boot_ok D s.
Proof.
  intros HD. unfold boot_okb. rewrite !andb_true_iff, Nat.eqb_eq. intros [[H1 H2] H3].
  pose proof (binvb_spec D s H1) as V. split; [done| |done]. intros b.
  rewrite (pinsb_spec D [] s HD (bv_cache _ _ _ V) H2). by rewrite decide_False by set_solver.
Qed.

Definition image_okb (L : list Z) (d : vdisk) : bool :=
  let sb := sb_of_bytes (disk_read d 1) in let hd := disk_read d start in
  disk_okb d && (sb_magic sb =? FSMAGIC) && (sb_nlog sb =? size) && (sb_logstart sb =? start) &&
  (start + size <=? sb_size sb) && (sb_size sb <=? 2 ^ 31) &&
  (hdr_n hd =? Z.of_nat (length L)) &&
  forallb (fun k => bool_decide (Some (u32 (hdr_block hd k)) = L !! k)) (seq 0 (length L)) &&
  bool_decide (NoDup L) && forallb (fun h => (start + size <=? h) && (h <? sb_size sb)) L &&
  (length L <? NBUF)%nat && (Z.of_nat (length L) <? size).

Lemma image_okb_spec L d : image_okb L d = true -> image_ok start size L (disk_read d).
Proof.
  unfold image_okb. cbv zeta.
  rewrite !andb_true_iff, !Z.eqb_eq, !Z.leb_le, Z.ltb_lt, Nat.ltb_lt, bool_decide_eq_true, !forallb_forall.
  intros (((((((((((H1 & H2) & H3) & H4) & H5) & H6) & H7) & H8) & H9) & H10) & H11) & H12).
  split; [by apply disk_okb_spec|done|done|done|done| |done| |done|done].
  - split; [done|]. intros k v Hk. pose proof (lookup_lt_Some _ _ _ Hk).
    specialize (H8 k ltac:(apply in_seq; lia)). apply bool_decide_eq_true in H8. congruence.
  - intros h Hh. specialize (H10 h ltac:(by apply list_elem_of_In)).
    rewrite andb_true_iff, Z.leb_le, Z.ltb_lt in H10. exact H10.
Qed.
End DecideLog.
