(* ===== verification/Examples.v ===== *)
(** * Example states for the storage stack

    A booted cache over a small disk, a disk with a committed log, and the state of an
    operation that has logged one block: concrete inputs at which the theorems on the
    cache, the log and recovery apply. *)

From S2P Require Import Prelude Params Machine Spinlock Sched CString Bio BioSpec Block Crash Log LogSpec Recovery Decide.

(** ** A disk of 1000 blocks with a log of 30 blocks at block 2 *)
Definition words (ws : list Z) : list Z :=
  let bs := concat (le_bytes 4 <$> ws) in bs ++ replicate (BSIZE - length bs) 0.
Definition ex_sb : list Z := words [FSMAGIC; 1000; 900; 200; 30; 2; 32; 58].
Definition ex_data : list Z := replicate BSIZE 7.

Definition ex_disk : vdisk := mkDisk {[ 1 := ex_sb ]} [].
(** The log holds one committed block, 100. *)
Definition ex_disk_committed : vdisk := mkDisk {[ 1 := ex_sb; 2 := words [1; 100]; 3 := ex_data ]} [].

(** ** Kernel states *)
Definition ex_cache : kstate := final (binit running_state) running_state.
Definition ex_boot : kstate := set_k_disk (fun _ => ex_disk) ex_cache.
Definition ex_boot_committed : kstate := set_k_disk (fun _ => ex_disk_committed) ex_cache.
Definition ex_log : kstate := final (initlog 1 ex_boot) ex_boot.

(** An operation that changes the first word of block 100. *)
Definition ex_op : K unit :=
  do! begin_op;
  let! b := bread 1 100 in
  do! upd_buf b (set_b_data (put_le 4 0 77));
  do! log_write b;
  brelse b.
Definition ex_dirty : kstate := final (ex_op ex_log) ex_log.

Lemma ex_geometry : geometry 1 2 30.
Proof. apply geometryb_spec. vm_compute. reflexivity. Qed.

Lemma ex_cache_ok : cache_ok (k_bcache ex_cache).
Proof. apply cache_okb_spec. vm_compute. reflexivity. Qed.

(** ** Witnesses *)
Lemma cache_ops_consistent_witness :
  post (run_cache_op (OpBread 1 5)) ex_cache (fun _ s' => cache_ok (k_bcache s')) (fun s' => cache_ok (k_bcache s')).
Proof.
  apply (cache_ops_consistent (OpBread 1 5) ex_cache).
  - apply ex_cache_ok.
  - intros i b Hi Hb.
    pose proof (allb_spec (fun _ x => b_refcnt x + 1 <? 2 ^ 32) (k_bcache ex_cache)) as H.
    apply Z.ltb_lt. apply (H ltac:(vm_compute; reflexivity) i b Hi Hb).
  - exact I.
Defined.

(** Buffer 0 holds block 5. *)
Definition ex_held : kstate := final (bread 1 5 ex_cache) ex_cache.

Lemma bget_evicts_last_released_witness :
  exists s1 s2, brelse 0 ex_held = Ret tt s1 /\ bget 1 6 s1 = Ret 0%nat s2.
Proof.
  destruct (cache_lookup (k_bcache ex_held) 0) as [b Hb];
    [apply cache_okb_spec; vm_compute; reflexivity|unfold NBUF; lia|].
  assert (E : Some (b_refcnt b, b_pinned b, b_lock b) = Some (1, 0, mkSleeplock true (mypid ex_held))).
  { change (Some (b_refcnt b, b_pinned b, b_lock b)) with
      ((fun x => (b_refcnt x, b_pinned x, b_lock x)) <$> Some b). rewrite <- Hb. vm_compute. reflexivity. }
  injection E as E1 E2 E3.
  apply (bget_evicts_last_released ex_held 0 b 1 6).
  - apply calmb_spec. vm_compute. reflexivity.
  - apply cache_okb_spec. vm_compute. reflexivity.
  - unfold NBUF. lia.
  - exact Hb.
  - unfold holds_sl, sl_of. rewrite Hb. cbn. by rewrite E3.
  - exact E1.
  - exact E2.
  - intros j c Hj Hc. pose proof (allb_spec (fun _ x => negb (caches 1 6 x)) (k_bcache ex_held)) as H.
    apply negb_true_iff, (H ltac:(vm_compute; reflexivity) j c Hj Hc).
Defined.

Lemma end_op_crash_atomic_witness :
  exists s' W, end_op ex_dirty = Ret tt s' /\ d_writes (k_disk s') = d_writes (k_disk ex_dirty) ++ W /\
    (forall I, crash_image (disk_read (k_disk ex_dirty)) W I ->
       (forall b, home 2 30 b -> logical 2 I b = disk_read (k_disk ex_dirty) b) \/
       (forall b, home 2 30 b -> logical 2 I b = view 1 ex_dirty b)) /\
    (forall b, home 2 30 b -> disk_read (k_disk s') b = view 1 ex_dirty b) /\
    log_inv 1 2 30 [] s' /\ l_outstanding (k_log s') = 0 /\ l_committing (k_log s') = false.
Proof.
  apply (end_op_crash_atomic 1 2 30 ex_geometry [100] ex_dirty).
  - apply log_invb_spec; vm_compute; reflexivity.
  - vm_compute. reflexivity.
  - vm_compute. reflexivity.
Defined.

Lemma ex_boot_committed_ok : boot_ok 1 ex_boot_committed.
Proof. apply boot_okb_spec; [done|]. vm_compute. reflexivity. Qed.

Lemma ex_image_ok : image_ok 2 30 [100] (disk_read (k_disk ex_boot_committed)).
Proof. apply image_okb_spec. vm_compute. reflexivity. Qed.

Lemma initlog_recovers_witness :
  exists s' W, initlog 1 ex_boot_committed = Ret tt s' /\
    d_writes (k_disk s') = d_writes (k_disk ex_boot_committed) ++ W /\
    log_inv 1 2 30 [] s' /\ l_outstanding (k_log s') = 0 /\ l_committing (k_log s') = false /\
    (forall b, home 2 30 b ->
       disk_read (k_disk s') b = logical 2 (disk_read (k_disk ex_boot_committed)) b) /\
    (forall I b, crash_image (disk_read (k_disk ex_boot_committed)) W I -> home 2 30 b ->
       logical 2 I b = logical 2 (disk_read (k_disk ex_boot_committed)) b).
Proof. apply (initlog_recovers 1 2 30 ex_geometry [100] _ ex_boot_committed_ok ex_image_ok). Defined.

