(* ===== verification/Pipe.v ===== *)
(** * Pipes (kernel/pipe.c)

    A pipe is a ring of PIPESIZE bytes with two 32-bit positions that only grow
    (modulo 2^32).  [k_pipes] maps the address of a pipe's page to its contents.
    A writer that finds the ring full, and a reader that finds it empty, sleep:
    [pipewrite] and [piperead] are given up to the switch, and [pipewrite_return]
    and [piperead_return] from the switch back on.  (pipealloc is in File.v, with
    the file table it allocates from.) *)

From S2P Require Import Prelude Params Machine Spinlock Sched CString Kalloc Vm.

Definition PIPESIZE : Z := 512.

Section Pipe.
Context `{Linker}.

(** ** Code *)
Definition get_pipe (pi : Z) : K pipe :=
  fun s => match k_pipes s !! pi with Some p => Ret p s | None => Fault "pipe pointer" s end.
Definition upd_pipe (pi : Z) (f : pipe -> pipe) : K unit :=
  modify (set_k_pipes (alter f pi)).

Definition pipeclose (pi : Z) (writable : bool) : K unit :=
  do! acquire (LkPipe pi);
  do! (if writable then
         do! upd_pipe pi (set_pi_writeopen (fun _ => false));
         do! wakeup (ChPipeRead pi);
         wakeup (ChPipeWrite pi)
       else
         do! upd_pipe pi (set_pi_readopen (fun _ => false));
         do! wakeup (ChPipeRead pi);
         wakeup (ChPipeWrite pi));
  let! p := get_pipe pi in
  if negb (pi_readopen p) && negb (pi_writeopen p) then
    do! release (LkPipe pi);
    do! kfree pi;
    modify (set_k_pipes (delete pi))
  else release (LkPipe pi).

(** The index of position [k] in the ring, and the push and pop of one byte. *)
Definition ring_index (k : Z) : nat := Z.to_nat (k mod PIPESIZE).
Definition pipe_push (ch : Z) (p : pipe) : pipe :=
  set_pi_nwrite (fun k => u32 (k + 1)) (set_pi_data (insert (ring_index (pi_nwrite p)) ch) p).
Definition pipe_next (p : pipe) : Z := default 0 (pi_data p !! ring_index (pi_nread p)).
Definition pipe_pop (p : pipe) : pipe := set_pi_nread (fun k => u32 (k + 1)) p.
Definition pipe_full (p : pipe) : bool := pi_nwrite p =? u32 (pi_nread p + PIPESIZE).
Definition pipe_empty (p : pipe) : bool := pi_nread p =? pi_nwrite p.

(** How the loop of pipewrite leaves: with the function's result, at its end with
    [i] bytes accepted, or to sleep with the ring full. *)
Inductive pw_exit : Type := PwReturn (r : Z) | PwDone (i : Z) | PwFull (i : Z).

Fixpoint pipewrite_loop (fuel : nat) (pr : option nat) (pi addr n i : Z) : K pw_exit :=
  if n <=? i then ret (PwDone i)
  else match fuel with
  | O => fault "pipewrite: fuel"
  | S fuel' =>
      let! p := get_pipe pi in
      if negb (pi_readopen p) then
        do! release (LkPipe pi);
        ret (PwReturn (-1))
      else if pipe_full p then ret (PwFull i)
      else
        let! pt := pagetable_of pr in
        let! r := copyin pt (u64 (addr + i)) 1 in
        if fst r =? -1 then
          if i =? 0 then
            do! release (LkPipe pi);
            ret (PwReturn (-1))
          else ret (PwDone i)
        else
          do! upd_pipe pi (pipe_push (hd0 (snd r)));
          pipewrite_loop fuel' pr pi addr n (i + 1)
  end.

(** From the head of the loop on, the lock held. *)
Definition pipewrite_from (pr : option nat) (pi addr n i : Z) : K Z :=
  let! e := pipewrite_loop (Z.to_nat (n - i)) pr pi addr n i in
  match e with
  | PwReturn r => ret r
  | PwFull _ =>
      do! wakeup (ChPipeRead pi);
      sleep (ChPipeWrite pi) (LkPipe pi)
  | PwDone i =>
      do! wakeup (ChPipeRead pi);
      do! release (LkPipe pi);
      ret i
  end.

Definition pipewrite (pi addr n : Z) : K Z :=
  let! pr := myproc in
  do! acquire (LkPipe pi);
  pipewrite_from pr pi addr n 0.

(** The writer [p] that slept with [i] bytes accepted runs again. *)
Definition pipewrite_return (p : nat) (pi addr n i : Z) : K Z :=
  do! sleep_return p (LkPipe pi);
  pipewrite_from (Some p) pi addr n i.

(** How the copy loop of piperead leaves. *)
Inductive pr_exit : Type := PrReturn (r : Z) | PrDone (i : Z).

Fixpoint piperead_loop (fuel : nat) (pr : option nat) (pi addr n i : Z) : K pr_exit :=
  if n <=? i then ret (PrDone i)
  else match fuel with
  | O => fault "piperead: fuel"
  | S fuel' =>
      let! p := get_pipe pi in
      if pipe_empty p then ret (PrDone i)
      else
        let ch := pipe_next p in
        let! pt := pagetable_of pr in
        let! r := copyout pt (u64 (addr + i)) [ch] in
        if r =? -1 then
          if i =? 0 then
            do! release (LkPipe pi);
            ret (PrReturn (-1))
          else ret (PrDone i)
        else
          do! upd_pipe pi pipe_pop;
          piperead_loop fuel' pr pi addr n (i + 1)
  end.

Definition piperead_from (pr : option nat) (pi addr n : Z) : K Z :=
  let! p := get_pipe pi in
  if pipe_empty p && pi_writeopen p then sleep (ChPipeRead pi) (LkPipe pi)
  else
    let! e := piperead_loop (Z.to_nat n) pr pi addr n 0 in
    match e with
    | PrReturn r => ret r
    | PrDone i =>
        do! wakeup (ChPipeWrite pi);
        do! release (LkPipe pi);
        ret i
    end.

Definition piperead (pi addr n : Z) : K Z :=
  let! pr := myproc in
  do! acquire (LkPipe pi);
  piperead_from pr pi addr n.

Definition piperead_return (p : nat) (pi addr n : Z) : K Z :=
  do! sleep_return p (LkPipe pi);
  piperead_from (Some p) pi addr n.
End Pipe.
