(* ===== verification/PipeSpec.v ===== *)
(** * A pipe is a bounded queue of bytes

    The contents of the ring as a list, and pipewrite and piperead as operations on
    it: a pipe refines a FIFO queue of at most PIPESIZE bytes, also across the
    wrap-around of its 32-bit positions. *)

From S2P Require Import Prelude Params Machine Spinlock Sched CString Kalloc Vm PageTable VmSpec Bio Pipe.

(** ** The ring as a queue *)
Definition pipe_len (p : pipe) : Z := u32 (pi_nwrite p - pi_nread p).

Definition queue (p : pipe) : list Z :=
  (fun k => default 0 (pi_data p !! ring_index (pi_nread p + Z.of_nat k))) <$> seq 0 (Z.to_nat (pipe_len p)).

Record pipe_ok (p : pipe) : Prop := mkPipeOk {
  po_data : Z.of_nat (length (pi_data p)) = PIPESIZE;
  po_nread : 0 <= pi_nread p < 2 ^ 32;
  po_nwrite : 0 <= pi_nwrite p < 2 ^ 32;
  po_len : pipe_len p <= PIPESIZE }.

Lemma pipe_len_range p : 0 <= pipe_len p < 2 ^ 32.
Proof. unfold pipe_len, u32. apply Z.mod_pos_bound. lia. Qed.

Lemma length_queue p : Z.of_nat (length (queue p)) = pipe_len p.
Proof. unfold queue. rewrite length_fmap, length_seq. pose proof (pipe_len_range p). lia. Qed.

Lemma ring_index_u32 k : ring_index (u32 k) = ring_index k.
Proof.
  unfold ring_index, u32, PIPESIZE. f_equal. change (2 ^ 32) with (512 * 2 ^ 23).
  rewrite Z.rem_mul_r by lia. rewrite (Z.mul_comm 512), Z.mod_add by lia. by rewrite Z.mod_mod.
Qed.

Lemma u32_cases p :
  pipe_ok p -> pi_nwrite p = pi_nread p + pipe_len p \/ pi_nwrite p = pi_nread p + pipe_len p - 2 ^ 32.
Proof.
  intros [_ Hr Hw Hl]. unfold pipe_len, u32 in *.
  destruct (decide (pi_nread p <= pi_nwrite p)).
  - left. rewrite Z.mod_small; lia.
  - right. rewrite <- (Z.mod_add _ 1), Z.mod_small by lia. lia.
Qed.

Lemma pipe_full_spec p : pipe_ok p -> pipe_full p = (Z.of_nat (length (queue p)) =? PIPESIZE).
Proof.
  intros Hok. rewrite length_queue. unfold pipe_full. pose proof (u32_cases p Hok) as Hc.
  destruct Hok as [_ Hr Hw Hl]. pose proof (pipe_len_range p).
  assert (Hu : (pi_nread p + PIPESIZE < 2 ^ 32 /\ u32 (pi_nread p + PIPESIZE) = pi_nread p + PIPESIZE) \/
               (2 ^ 32 <= pi_nread p + PIPESIZE /\ u32 (pi_nread p + PIPESIZE) = pi_nread p + PIPESIZE - 2 ^ 32)).
  { unfold u32, PIPESIZE. destruct (decide (pi_nread p + 512 < 2 ^ 32)).
    - left. split; [lia|]. rewrite Z.mod_small; lia.
    - right. split; [lia|]. rewrite <- (Z.mod_add _ (-1)), Z.mod_small by lia. lia. }
  unfold PIPESIZE in *. destruct (Z.eqb_spec (pi_nwrite p) (u32 (pi_nread p + 512))), (Z.eqb_spec (pipe_len p) 512);
    (reflexivity || (exfalso; lia)).
Qed.

Lemma pipe_empty_spec p : pipe_ok p -> pipe_empty p = bool_decide (queue p = []).
Proof.
  intros Hok. unfold pipe_empty. pose proof (u32_cases p Hok) as Hc.
  pose proof (length_queue p) as Hl. destruct Hok as [_ Hr Hw Hle]. unfold PIPESIZE in *.
  destruct (Z.eqb_spec (pi_nread p) (pi_nwrite p)).
  - rewrite bool_decide_true; [done|]. apply nil_length_inv. unfold pipe_len, u32 in *.
    replace (pi_nwrite p - pi_nread p) with 0 in Hl by lia. rewrite Z.mod_0_l in Hl by done. lia.
  - rewrite bool_decide_false; [done|]. intros E. rewrite E in Hl. cbn in Hl. lia.
Qed.

Lemma lookup_queue p k :
  queue p !! k = if decide (Z.of_nat k < pipe_len p)
                    then Some (default 0 (pi_data p !! ring_index (pi_nread p + Z.of_nat k))) else None.
Proof.
  unfold queue. rewrite list_lookup_fmap. pose proof (pipe_len_range p). case_decide.
  - rewrite lookup_seq_lt by lia. done.
  - rewrite lookup_seq_ge by lia. done.
Qed.

Lemma ring_index_lt k : (ring_index k < 512)%nat.
Proof. unfold ring_index, PIPESIZE. pose proof (Z.mod_pos_bound k 512). lia. Qed.

(** Positions less than PIPESIZE apart have different slots. *)
Lemma ring_index_ne a i j :
  0 <= i < PIPESIZE -> 0 <= j < PIPESIZE -> i ≠ j -> ring_index (a + i) ≠ ring_index (a + j).
Proof.
  unfold ring_index, PIPESIZE. intros Hi Hj Hne E.
  apply Z2Nat.inj in E; [|by apply Z.mod_pos_bound..].
  pose proof (Z.div_mod (a + i) 512). pose proof (Z.div_mod (a + j) 512).
  pose proof (Z.mod_pos_bound (a + i) 512). lia.
Qed.

Lemma push_ok p ch :
  pipe_ok p -> pipe_full p = false ->
  pipe_ok (pipe_push ch p) /\ queue (pipe_push ch p) = queue p ++ [ch].
Proof.
  intros Hok Hf. rewrite pipe_full_spec in Hf by done. apply Z.eqb_neq in Hf. rewrite length_queue in Hf.
  pose proof Hok as [Hd Hr Hw Hl]. pose proof (pipe_len_range p) as Hlr. pose proof (u32_cases p Hok) as Hc.
  assert (Hlen : pipe_len (pipe_push ch p) = pipe_len p + 1).
  { unfold pipe_len, pipe_push. cbn. unfold u32. rewrite Zminus_mod_idemp_l.
    replace (pi_nwrite p + 1 - pi_nread p) with (pi_nwrite p - pi_nread p + 1) by lia.
    rewrite <- Zplus_mod_idemp_l. fold (u32 (pi_nwrite p - pi_nread p)). fold (pipe_len p).
    apply Z.mod_small. unfold PIPESIZE in *. lia. }
  split.
  - split; [by cbn; rewrite length_insert|done| |rewrite Hlen; lia].
    cbn. unfold u32. apply Z.mod_pos_bound. lia.
  - apply list_eq. intros k. rewrite lookup_queue, Hlen.
    assert (Hw' : ring_index (pi_nwrite p) = ring_index (pi_nread p + pipe_len p)).
    { destruct Hc as [->| ->]; [done|]. rewrite <- (ring_index_u32 (pi_nread p + pipe_len p)).
      rewrite <- (ring_index_u32 (_ - 2 ^ 32)). f_equal. unfold u32.
      rewrite <- (Z.mod_add (pi_nread p + pipe_len p - 2 ^ 32) 1) by lia. f_equal. lia. }
    assert (Hlc : Z.of_nat (length (queue p)) = pipe_len p) by apply length_queue.
    destruct (decide (Z.of_nat k < pipe_len p)) as [Hk|Hk].
    + rewrite decide_True by lia. rewrite lookup_app_l by lia. rewrite lookup_queue, decide_True by done.
      do 2 f_equal. cbn. apply list_lookup_insert_ne. rewrite Hw'. apply ring_index_ne; lia.
    + rewrite lookup_app_r by lia. destruct (decide (Z.of_nat k = pipe_len p)) as [E|E].
      * rewrite decide_True by lia. replace (k - length (queue p))%nat with 0%nat by lia. cbn.
        rewrite E, <- Hw'. rewrite list_lookup_insert_eq; [done|].
        pose proof (ring_index_lt (pi_nwrite p)). unfold PIPESIZE in Hd. lia.
      * rewrite decide_False by lia. rewrite lookup_ge_None_2; [done|]. cbn. lia.
Qed.

Lemma pop_ok p ch q :
  pipe_ok p -> queue p = ch :: q ->
  pipe_next p = ch /\ pipe_ok (pipe_pop p) /\ queue (pipe_pop p) = q.
Proof.
  intros Hok Hq. pose proof Hok as [Hd Hr Hw Hl]. pose proof (pipe_len_range p) as Hlr.
  pose proof (length_queue p) as Hlc. rewrite Hq in Hlc. cbn [length] in Hlc.
  assert (Hlen : pipe_len (pipe_pop p) = pipe_len p - 1).
  { unfold pipe_len, pipe_pop. cbn. unfold u32. rewrite Zminus_mod_idemp_r.
    replace (pi_nwrite p - (pi_nread p + 1)) with (pi_nwrite p - pi_nread p - 1) by lia.
    rewrite <- Zminus_mod_idemp_l. fold (u32 (pi_nwrite p - pi_nread p)). fold (pipe_len p).
    apply Z.mod_small. lia. }
  split_and!.
  - pose proof (lookup_queue p 0) as H0. rewrite Hq, decide_True in H0 by lia. rewrite Z.add_0_r in H0.
    cbn in H0. by injection H0.
  - split; [done| |done|rewrite Hlen; lia]. cbn. unfold u32. apply Z.mod_pos_bound. lia.
  - apply list_eq. intros k. pose proof (lookup_queue p (S k)) as Hk. rewrite Hq in Hk.
    change ((ch :: q) !! S k) with (q !! k) in Hk.
    rewrite Hk, lookup_queue, Hlen. destruct (decide (Z.of_nat (S k) < pipe_len p)).
    + rewrite decide_True by lia. cbn [pipe_pop pi_data set_pi_nread pi_nread]. do 3 f_equal.
      rewrite <- (ring_index_u32 (u32 _ + _)), <- (ring_index_u32 (pi_nread p + Z.of_nat (S k))).
      unfold u32. rewrite Zplus_mod_idemp_l. do 2 f_equal. lia.
    + by rewrite decide_False by lia.
Qed.

(** ** The copy loops *)
Section PipeSpec.
Context `{Linker}.

Lemma get_pipe_ok pi p s : k_pipes s !! pi = Some p -> get_pipe pi s = Ret p s.
Proof. unfold get_pipe. by intros ->. Qed.

Lemma upd_pipe_ok pi f p s :
  k_pipes s !! pi = Some p -> upd_pipe pi f s = Ret tt (set_k_pipes (fun _ => <[pi := f p]> (k_pipes s)) s).
Proof.
  intros Hp. unfold upd_pipe, modify. f_equal. unfold set_k_pipes. f_equal.
  apply map_eq. intros j. destruct (decide (pi = j)) as [<-|Hne].
  - by rewrite lookup_alter_eq, lookup_insert_eq, Hp.
  - by rewrite lookup_alter_ne, lookup_insert_ne.
Qed.

(** Room left in the ring. *)
Definition room (p : pipe) : nat := Z.to_nat (PIPESIZE - Z.of_nat (length (queue p))).

Lemma room_full p : pipe_ok p -> pipe_full p = true <-> room p = 0%nat.
Proof.
  intros Hok. rewrite pipe_full_spec by done. rewrite Z.eqb_eq. unfold room.
  pose proof (po_len _ Hok). rewrite length_queue in *. lia.
Qed.

Lemma pipewrite_loop_spec me pr pi addr n T1 T0 bs : forall fuel i s p,
  k_pipes s !! pi = Some p -> pipe_ok p -> pi_readopen p = true ->
  k_procs s !! me = Some pr -> pt_inv (k_mem s) (p_pagetable pr) T1 T0 ->
  ubytes (k_mem s) (p_pagetable pr) (addr + i) (length bs) = Some bs ->
  n = i + Z.of_nat (length bs) -> (length bs <= fuel)%nat ->
  exists p', pipe_ok p' /\ pi_readopen p' = true /\ pi_writeopen p' = pi_writeopen p /\
    queue p' = queue p ++ take (room p) bs /\
    pipewrite_loop fuel (Some me) pi addr n i s =
      Ret (if decide (length bs <= room p)%nat then PwDone n else PwFull (i + Z.of_nat (room p)))
          (set_k_pipes (fun _ => <[pi := p']> (k_pipes s)) s).
Proof.
  induction bs as [|b bs IH]; intros fuel i s p Hp Hok Hro Hpr Hi Hb -> Hf.
  - exists p. split_and!; [done|done|done|by rewrite take_nil, (right_id_L [] (++))|].
    rewrite decide_True by (cbn; lia). cbn [length]. rewrite Z.add_0_r.
    assert (E : pipewrite_loop fuel (Some me) pi addr i i = ret (PwDone i)).
    { destruct fuel; cbn; by rewrite Z.leb_refl. }
    rewrite E. unfold ret. f_equal. rewrite insert_id by done. done.
  - destruct fuel as [|fuel]; [cbn in Hf; lia|].
    destruct (ubytes_range _ _ _ _ _ Hb) as (Hva & Hb1 & Hbs).
    cbn [pipewrite_loop]. destruct (Z.leb_spec (i + Z.of_nat (length (b :: bs))) i) as [Hle|_]; [cbn in Hle; lia|].
    rewrite (bind_Ret _ _ _ _ _ (get_pipe_ok _ _ _ Hp)), Hro. cbn [negb].
    destruct (pipe_full p) eqn:Hfull.
    + pose proof (proj1 (room_full p Hok) Hfull) as Hr. rewrite Hr.
      exists p. split_and!; [done|done|done|by rewrite take_0, (right_id_L [] (++))|].
      rewrite decide_False by (cbn; lia). rewrite Z.add_0_r, insert_id by done. done.
    + assert (Hr : room p ≠ 0%nat) by (rewrite <- room_full by done; congruence).
      destruct (push_ok p b Hok Hfull) as [Hok' Hc'].
      assert (Hroom : room p = S (room (pipe_push b p))).
      { unfold room in *. rewrite Hc', length_app. cbn [length]. lia. }
      rewrite (bind_Ret _ _ _ _ _ (pagetable_of_ok _ _ _ Hpr)).
      rewrite (u64_va _ Hva). rewrite (bind_Ret _ _ _ _ _ (copyin_one _ _ _ _ _ _ Hi (proj1 Hva) Hb1)).
      cbn [fst snd Z.eqb Z.opp]. rewrite (bind_Ret _ _ _ _ _ (upd_pipe_ok _ _ _ _ Hp)).
      change (hd0 [b]) with b.
      destruct (IH fuel (i + 1) (set_k_pipes (fun _ => <[pi:=pipe_push b p]> (k_pipes s)) s) (pipe_push b p))
        as (p' & G1 & G2 & G3 & G4 & G5); try done.
      { kcbn. apply lookup_insert_eq. }
      { by rewrite Z.add_assoc. }
      { cbn [length]. lia. }
      { cbn in Hf. lia. }
      exists p'. split_and!; [done|done|done| |].
      * rewrite G4, Hc', Hroom, <- (assoc_L (++)). done.
      * rewrite G5. kcbn. rewrite Hroom, insert_insert_eq. cbn [length]. unfold set_k_pipes. f_equal.
        destruct (decide (length bs <= room (pipe_push b p))%nat).
        -- by rewrite decide_True by lia.
        -- rewrite decide_False by lia. f_equal. lia.
Qed.
(** The caller: a process outside any critical section, with its page table. *)
Record caller (s : kstate) (me : nat) (pr : proc) : Prop := mkCaller {
  ca_calm : calm s;
  ca_noff : h_noff (k_hart s) = 0;
  ca_cur : k_cur s = Some me;
  ca_proc : k_procs s !! me = Some pr }.

(** Inside the pipe's critical section a wakeup wakes the sleepers on the channel, and
    a sleep switches away. *)
Lemma wakeup_locked lk ch s s1 :
  calm s -> (forall j, lk ≠ LkProc j) -> k_hart s1 = hart_acquire lk (k_hart s) ->
  k_procs s1 = k_procs s -> k_cur s1 = k_cur s ->
  wakeup ch s1 = Ret tt (set_k_procs (wake_table (k_cur s) ch) s1).
Proof.
  intros Hc Hlk Hh Hp Hcur. rewrite wakeup_spec; [by rewrite Hcur| | |].
  - rewrite Hh. apply hart_ok_acquire, Hc.
  - intros j. rewrite Hh. cbn. rewrite (calm_locks _ Hc), (right_id_L ∅ (∪)), elem_of_singleton.
    intros E. by destruct (Hlk j).
  - rewrite Hp. apply Hc.
Qed.

Lemma sleep_locked {A} lk ch s s1 me pr :
  caller s me pr -> (forall j, lk ≠ LkProc j) -> k_hart s1 = hart_acquire lk (k_hart s) ->
  k_cur s1 = Some me -> k_procs s1 !! me = Some pr ->
  exists h, sleep (A := A) ch lk s1 =
    Swtch (set_k_procs (alter (fun q => set_p_state (fun _ => SLEEPING) (set_p_chan (fun _ => Some ch) q)) me)
             (set_k_hart (fun _ => h) s1)) /\ hart_ok h /\ h_locks h = {[LkProc me]} /\ h_noff h = 1.
Proof.
  intros [Hc Hn Hcur Hpr] Hlk Hh Hcur1 Hpr1.
  assert (HL : h_locks (k_hart s1) = {[lk]}).
  { rewrite Hh. cbn. by rewrite (calm_locks _ Hc), (right_id_L ∅ (∪)). }
  apply (sleep_run ch lk me pr s1); [done|done| | | | |].
  - rewrite Hh. apply hart_ok_acquire, Hc.
  - rewrite HL. set_solver.
  - rewrite HL. specialize (Hlk me). set_solver.
  - rewrite HL. apply size_singleton.
  - rewrite Hh. cbn. lia.
Qed.

Lemma ubytes_ge0 m root addr n bs : ubytes m root addr n = Some bs -> n ≠ 0%nat -> 0 <= addr.
Proof.
  destruct n as [|n]; [done|]. cbn [ubytes]. unfold ubyte.
  destruct (uaddr m root addr) as [pa|] eqn:E; [|done]. intros _ _. apply uaddr_range in E. lia.
Qed.

(** C17. pipewrite appends to the queue.  For a process outside any critical section
    writing [n] mapped bytes [bs] to a pipe with a live reader: if they fit, all of
    them are appended to the queue in order, the readers waiting on the
    pipe are made runnable and [n] is returned; if they do not, as many as fit are
    appended, the readers are woken and the writer is asleep on the write channel,
    the ring full and no lock but its own process lock held.  Nothing else changes. *)
Theorem pipewrite_fifo s me pr pi p addr n bs T1 T0 :
  caller s me pr -> k_pipes s !! pi = Some p -> pipe_ok p -> pi_readopen p = true ->
  pt_inv (k_mem s) (p_pagetable pr) T1 T0 -> 0 <= n ->
  ubytes (k_mem s) (p_pagetable pr) addr (Z.to_nat n) = Some bs ->
  exists p', pipe_ok p' /\ queue p' = queue p ++ take (room p) bs /\
    let s1 := set_k_procs (wake_table (Some me) (ChPipeRead pi))
                (set_k_pipes (fun _ => <[pi := p']> (k_pipes s)) s) in
    if decide (n <= Z.of_nat (room p)) then
      queue p' = queue p ++ bs /\ pipewrite pi addr n s = Ret n s1
    else
      Z.of_nat (length (queue p')) = PIPESIZE /\
      exists h, h_locks h = {[LkProc me]} /\
        pipewrite pi addr n s =
          Swtch (set_k_procs (alter (fun q => set_p_state (fun _ => SLEEPING)
                    (set_p_chan (fun _ => Some (ChPipeWrite pi)) q)) me) (set_k_hart (fun _ => h) s1)).
Proof.
  intros Hca Hp Hok Hro Hi Hn Hb. pose proof Hca as [Hc Hnoff Hcur Hpr].
  pose proof (ubytes_length _ _ _ _ _ Hb) as Hlen.
  assert (Hfresh : LkPipe pi ∉ h_locks (k_hart s)) by (by apply calm_fresh).
  set (sL := set_k_hart (hart_acquire (LkPipe pi)) s).
  destruct (pipewrite_loop_spec me pr pi addr n T1 T0 bs (Z.to_nat (n - 0)) 0 sL p) as (p' & G1 & G2 & G3 & G4 & G5);
    [done|done|done|done|done|by rewrite Z.add_0_r, Hlen|lia|lia|].
  exists p'. split_and!; [done|done|]. cbv zeta.
  assert (Erun : pipewrite pi addr n s = pipewrite_from (Some me) pi addr n 0 sL).
  { unfold pipewrite. rewrite (bind_myproc _ _ _ Hcur). by rewrite (bind_Ret _ _ _ _ _ (acquire_ok _ _ Hfresh)). }
  rewrite Erun. unfold pipewrite_from. run_ret G5.
  destruct (decide (n <= Z.of_nat (room p))) as [Hle|Hgt].
  - rewrite decide_True by lia. split; [rewrite G4, take_ge by lia; done|].
    erewrite bind_Ret by (apply (wakeup_locked (LkPipe pi) _ s); done). rewrite Hcur.
    erewrite bind_Ret by (apply (release_after _ s); [apply Hc|done|done]). done.
  - rewrite decide_False by lia. split.
    { rewrite G4, length_app, length_take. unfold room in *. pose proof (length_queue p).
      pose proof (po_len _ Hok). lia. }
    erewrite bind_Ret by (apply (wakeup_locked (LkPipe pi) _ s); done). rewrite Hcur.
    match goal with |- context [sleep _ _ ?x] => set (sW := x) end.
    destruct (sleep_locked (A := Z) (LkPipe pi) (ChPipeWrite pi) s sW me pr) as (h & Hs & _ & Hh & _); [done..| |].
    { unfold sW, sL. kcbn. rewrite lookup_wake_table, Hpr. cbn. by bdec. }
    exists h. split; [done|]. rewrite Hs. done.
Qed.

(** pipewrite to a pipe whose read side is closed fails: with at least one byte to
    write it returns -1 and leaves the state exactly as it was. *)
Theorem pipewrite_closed s me pr pi p addr n :
  caller s me pr -> k_pipes s !! pi = Some p -> pi_readopen p = false -> 0 < n ->
  pipewrite pi addr n s = Ret (-1) s.
Proof.
  intros [Hc Hnoff Hcur Hpr] Hp Hro Hn. unfold pipewrite. rewrite (bind_myproc _ _ _ Hcur).
  rewrite (bind_Ret _ _ _ _ _ (acquire_ok _ _ (calm_fresh (LkPipe pi) s Hc))).
  unfold pipewrite_from. destruct (Z.to_nat (n - 0)) as [|fuel] eqn:Ef; [lia|].
  cbn [pipewrite_loop]. destruct (Z.leb_spec n 0); [lia|].
  rewrite bind_assoc, (bind_Ret _ _ _ _ _ (get_pipe_ok pi p (set_k_hart (hart_acquire (LkPipe pi)) s) Hp)), Hro. cbn [negb].
  rewrite bind_assoc. erewrite bind_Ret by (apply (release_after _ s); [apply Hc|by apply calm_fresh|done]). done.
Qed.
Lemma piperead_loop_spec me pr pi addr n T1 T0 q : forall fuel i s p,
  k_pipes s !! pi = Some p -> pipe_ok p -> queue p = q ->
  k_procs s !! me = Some pr -> aspace (k_mem s) (p_pagetable pr) T1 T0 ->
  0 <= n - i -> (Z.to_nat (n - i) <= fuel)%nat ->
  let k := Nat.min (Z.to_nat (n - i)) (length q) in
  is_Some (ubytes (k_mem s) (p_pagetable pr) (addr + i) k) ->
  exists p' m', pipe_ok p' /\ queue p' = drop k q /\
    pi_readopen p' = pi_readopen p /\ pi_writeopen p' = pi_writeopen p /\
    ustore (k_mem s) (p_pagetable pr) (addr + i) (take k q) = Some m' /\
    piperead_loop fuel (Some me) pi addr n i s =
      Ret (PrDone (i + Z.of_nat k))
          (set_k_pipes (fun _ => <[pi := p']> (k_pipes s)) (set_k_mem (fun _ => m') s)).
Proof.
  induction q as [|b q IH]; intros fuel i s p Hp Hok Hq Hpr Ha Hn Hf k Hb.
  - exists p, (k_mem s). unfold k. rewrite Nat.min_0_r. cbn [drop take ustore].
    split_and!; [done|done|done|done|done|]. rewrite Z.add_0_r, insert_id by done.
    assert (He : pipe_empty p = true) by (rewrite pipe_empty_spec, Hq by done; done).
    destruct fuel as [|fuel]; cbn [piperead_loop]; (destruct (Z.leb_spec n i); [done|]); [lia|].
    by rewrite (bind_Ret _ _ _ _ _ (get_pipe_ok _ _ _ Hp)), He.
  - destruct (decide (n <= i)) as [Hle|Hgt].
    { exists p, (k_mem s). assert (k = 0%nat) as -> by (unfold k; lia). cbn [take ustore]. rewrite drop_0.
      split_and!; [done|done|done|done|done|]. rewrite Z.add_0_r, insert_id by done.
      destruct fuel; cbn [piperead_loop]; by destruct (Z.leb_spec n i); [|lia]. }
    assert (Ek : k = S (Nat.min (Z.to_nat (n - (i + 1))) (length q))) by (unfold k; cbn [length]; lia).
    rewrite Ek in Hb |- *. cbn [take drop ustore].
    destruct (pop_ok p b q Hok Hq) as (Hnx & Hok' & Hq').
    destruct fuel as [|fuel]; [lia|]. cbn [piperead_loop]. destruct (Z.leb_spec n i); [lia|].
    assert (He : pipe_empty p = false) by (rewrite pipe_empty_spec, Hq by done; done).
    rewrite (bind_Ret _ _ _ _ _ (get_pipe_ok _ _ _ Hp)), He, Hnx. cbv zeta.
    rewrite (bind_Ret _ _ _ _ _ (pagetable_of_ok _ _ _ Hpr)).
    destruct Hb as [l Hb]. cbn [ubytes] in Hb.
    destruct (ubyte (k_mem s) (p_pagetable pr) (addr + i)) as [b0|] eqn:Eb0; [|done].
    destruct (ubytes (k_mem s) (p_pagetable pr) (addr + i + 1) _) as [l'|] eqn:El'; [|done].
    assert (Hpa : exists pa, uaddr (k_mem s) (p_pagetable pr) (addr + i) = Some pa).
    { unfold ubyte in Eb0. destruct (uaddr _ _ (addr + i)); [by eexists|done]. }
    destruct Hpa as [pa Epa]. pose proof (uaddr_range _ _ _ _ Epa) as Hva. rewrite (u64_va _ Hva).
    destruct (copyout_one (p_pagetable pr) T1 T0 (addr + i) b s Ha (proj1 Hva)) as (m1 & Hc1 & Hs1 & Ha1).
    { cbn [ubytes]. rewrite Eb0. by eexists. }
    cbn [ustore] in Hs1. rewrite Epa in Hs1 |- *. injection Hs1 as Hs1.
    run_ret Hc1. cbn [Z.eqb Z.opp].
    rewrite (bind_Ret _ _ _ _ _ (upd_pipe_ok pi pipe_pop p (set_k_mem (fun _ => m1) s) Hp)).
    destruct (IH fuel (i + 1) (set_k_pipes (fun _ => <[pi:=pipe_pop p]> (k_pipes s)) (set_k_mem (fun _ => m1) s)) (pipe_pop p))
      as (p' & m' & G1 & G2 & G3 & G4 & G5 & G6); try done; try lia.
    { kcbn. apply lookup_insert_eq. }
    { kcbn. rewrite Z.add_assoc. eapply (ubytes_frame (k_mem s) m1 _ T1 T0); [apply Ha| |by eexists].
      rewrite <- Hs1. by eapply store_frame. }
    exists p', m'. kcbn in G5. rewrite Z.add_assoc, <- Hs1 in G5.
    split_and!; [done|done|done|done|done|]. etransitivity; [exact G6|]. kcbn. rewrite insert_insert_eq.
    unfold set_k_pipes. f_equal. f_equal. lia.
Qed.
(** C18. piperead takes from the front of the queue.  For a process outside any
    critical section: with bytes in the ring it delivers the first min(n, length) of
    them, in order, to the user's buffer (a copyin of it reads them back), removes
    exactly those from the ring, wakes the waiting writers and returns their number.
    An empty ring with a live writer puts the reader to sleep on the read channel and
    changes nothing else; an empty ring without one is the end of file: 0. *)
Theorem piperead_fifo s me pr pi p addr n T1 T0 :
  caller s me pr -> k_pipes s !! pi = Some p -> pipe_ok p ->
  aspace (k_mem s) (p_pagetable pr) T1 T0 -> 0 <= n ->
  let k := Nat.min (Z.to_nat n) (length (queue p)) in
  is_Some (ubytes (k_mem s) (p_pagetable pr) addr k) ->
  if decide (queue p = [] /\ pi_writeopen p = true) then
    exists h, h_locks h = {[LkProc me]} /\
      piperead pi addr n s =
        Swtch (set_k_procs (alter (fun q => set_p_state (fun _ => SLEEPING)
                 (set_p_chan (fun _ => Some (ChPipeRead pi)) q)) me) (set_k_hart (fun _ => h) s))
  else
    exists p' m', pipe_ok p' /\ queue p' = drop k (queue p) /\
      ubytes m' (p_pagetable pr) addr k = Some (take k (queue p)) /\
      aspace m' (p_pagetable pr) T1 T0 /\
      piperead pi addr n s =
        Ret (Z.of_nat k) (set_k_procs (wake_table (Some me) (ChPipeWrite pi))
          (set_k_pipes (fun _ => <[pi := p']> (k_pipes s)) (set_k_mem (fun _ => m') s))).
Proof.
  intros Hca Hp Hok Ha Hn k Hb. pose proof Hca as [Hc Hnoff Hcur Hpr].
  assert (Hfresh : LkPipe pi ∉ h_locks (k_hart s)) by (by apply calm_fresh).
  set (sL := set_k_hart (hart_acquire (LkPipe pi)) s).
  assert (Erun : piperead pi addr n s = piperead_from (Some me) pi addr n sL).
  { unfold piperead. rewrite (bind_myproc _ _ _ Hcur). by rewrite (bind_Ret _ _ _ _ _ (acquire_ok _ _ Hfresh)). }
  rewrite Erun. unfold piperead_from. rewrite (bind_Ret _ _ _ _ _ (get_pipe_ok pi p sL Hp)).
  rewrite pipe_empty_spec by done. destruct (decide _) as [[Hq Hw]|Hne].
  - rewrite Hw, bool_decide_true by done. cbn [andb].
    destruct (sleep_locked (A := Z) (LkPipe pi) (ChPipeRead pi) s sL me pr) as (h & Hs & _ & Hh & _); [done..|].
    exists h. split; [done|]. rewrite Hs. done.
  - assert (bool_decide (queue p = []) && pi_writeopen p = false) as ->.
    { destruct (decide (queue p = [])); [|by rewrite bool_decide_false].
      rewrite bool_decide_true by done. destruct (pi_writeopen p); tauto. }
    destruct (piperead_loop_spec me pr pi addr n T1 T0 (queue p) (Z.to_nat n) 0 sL p)
      as (p' & m' & G1 & G2 & _ & _ & G5 & G6); try done; try lia.
    { rewrite Z.sub_0_r, Z.add_0_r. exact Hb. }
    rewrite Z.sub_0_r in G2, G5, G6. rewrite Z.add_0_r in G5. fold k in G2, G5, G6.
    destruct (ustore_spec _ _ _ _ _ _ _ Ha G5) as (Hf & Hr & _).
    rewrite length_take in Hr. replace (k `min` length (queue p))%nat with k in Hr by (unfold k; lia).
    exists p', m'. split_and!; [done|done|done|by eapply aspace_frame|].
    run_ret G6. cbn [Z.add].
    erewrite bind_Ret by (apply (wakeup_locked (LkPipe pi) _ s); done). rewrite Hcur.
    erewrite bind_Ret by (apply (release_after _ s); [apply Hc|done|done]). done.
Qed.
End PipeSpec.

(** ** Instances *)
Section PipeExamples.
#[local] Existing Instance vm_linker.

Definition test_proc : proc := set_p_pagetable (fun _ => pg 0) (set_p_state (fun _ => RUNNING) zero_proc).
(** Process 3 runs with the one-page address space, and a pipe whose positions are
    about to wrap around holds two bytes. *)
Definition test_ring : pipe :=
  mkPipe (<[511%nat := 65]> (<[510%nat := 66]> (replicate 512 0))) (2 ^ 32 - 2) 0 true true.
Definition test_piping : kstate :=
  set_k_pipes (fun _ => {[pg 6 := test_ring]})
    (set_k_cur (fun _ => Some 3%nat) (set_k_procs (insert 3%nat test_proc) test_mapped)).

Lemma test_ring_ok : pipe_ok test_ring.
Proof. split; vm_compute; intuition congruence. Qed.

Lemma test_piping_caller : caller test_piping 3 test_proc.
Proof.
  destruct test_mapped_space as (T1 & T0 & _ & (m & f & E)). unfold test_piping. rewrite E.
  split; [split| | |]; kcbn.
  - apply boot_hart_ok.
  - reflexivity.
  - reflexivity.
  - exists 3%nat, test_proc. split; reflexivity.
  - reflexivity.
  - reflexivity.
  - reflexivity.
Qed.

Lemma pipewrite_fifo_witness :
  exists p', pipe_ok p' /\ queue p' = queue test_ring ++ [0; 0; 0] /\
    pipewrite (pg 6) 4090 3 test_piping =
      Ret 3 (set_k_procs (wake_table (Some 3%nat) (ChPipeRead (pg 6)))
               (set_k_pipes (fun _ => <[pg 6 := p']> (k_pipes test_piping)) test_piping)).
Proof.
  destruct test_mapped_space as (T1 & T0 & Ha & _).
  assert (Eb : ubytes (k_mem test_mapped) (pg 0) 4090 (Z.to_nat 3) = Some [0; 0; 0]) by (vm_compute; reflexivity).
  destruct (pipewrite_fifo test_piping 3 test_proc (pg 6) test_ring 4090 3 [0; 0; 0] T1 T0) as (p' & H1 & H2 & H3).
  - apply test_piping_caller.
  - reflexivity.
  - apply test_ring_ok.
  - reflexivity.
  - apply Ha.
  - lia.
  - exact Eb.
  - assert (Er : room test_ring = 510%nat) by (vm_compute; reflexivity). rewrite Er in H3.
    cbv zeta in H3. rewrite decide_True in H3 by lia. exists p'. tauto.
Defined.

Lemma pipewrite_closed_witness :
  pipewrite (pg 6) 0 1 (set_k_pipes (fun _ => {[pg 6 := set_pi_readopen (fun _ => false) test_ring]}) test_piping)
  = Ret (-1) (set_k_pipes (fun _ => {[pg 6 := set_pi_readopen (fun _ => false) test_ring]}) test_piping).
Proof.
  apply (pipewrite_closed _ 3 test_proc (pg 6) (set_pi_readopen (fun _ => false) test_ring) 0 1).
  - destruct test_piping_caller as [[A1 A2 A3 A4] B C D]. by split; [split| | |].
  - reflexivity.
  - reflexivity.
  - lia.
Defined.

Lemma piperead_fifo_witness :
  exists T1 T0 p' m', pipe_ok p' /\ queue p' = [] /\
    ubytes m' (pg 0) 4000 2 = Some [66; 65] /\ aspace m' (pg 0) T1 T0 /\
    piperead (pg 6) 4000 16 test_piping =
      Ret 2 (set_k_procs (wake_table (Some 3%nat) (ChPipeWrite (pg 6)))
          (set_k_pipes (fun _ => <[pg 6 := p']> (k_pipes test_piping)) (set_k_mem (fun _ => m') test_piping))).
Proof.
  destruct test_mapped_space as (T1 & T0 & Ha & _). exists T1, T0.
  assert (Ec : queue test_ring = [66; 65]) by (vm_compute; reflexivity).
  assert (Eb : ubytes (k_mem test_mapped) (pg 0) 4000 2 = Some [0; 0]) by (vm_compute; reflexivity).
  pose proof (piperead_fifo test_piping 3 test_proc (pg 6) test_ring 4000 16 T1 T0 test_piping_caller) as Ht.
  rewrite Ec in Ht. cbn [length] in Ht. change (Z.to_nat 16 `min` 2)%nat with 2%nat in Ht.
  cbv zeta in Ht. rewrite decide_False in Ht by (by intros [? _]).
  apply Ht.
  - reflexivity.
  - apply test_ring_ok.
  - exact Ha.
  - lia.
  - exists [0; 0]. exact Eb.
Defined.
End PipeExamples.
