(* ===== verification/Fs.v ===== *)
(** * The file system (kernel/fs.c)

    Block and inode allocation, the inode cache, file contents, directories and path
    resolution, over the buffer cache and the log.  An inode pointer is the index of
    its slot of icache.inode; a character string is the list of its bytes, ending at
    the first NUL or at the end of the list. *)

From S2P Require Import Prelude Params Machine Spinlock Sched CString Kalloc Vm Bio Log.

Definition ROOTINO : Z := 1.
(** sizeof(struct dinode), dinodes per block, bits per bitmap block, sizeof(struct dirent). *)
Definition DINODE_SIZE : nat := 64.
Definition IPB : Z := 16.
Definition BPB : Z := Z.of_nat BSIZE * 8.
Definition DIRENT_SIZE : Z := 16.

(** ** On-disk structures *)

(** struct dinode: 16-bit type, major, minor, nlink; 32-bit size and 13 addresses. *)
Record dinode : Type := mkDinode {
  di_type : Z; di_major : Z; di_minor : Z; di_nlink : Z; di_size : Z; di_addrs : list Z;
}.

(** The dinode at index [k] of a block, and the block with it replaced. *)
Definition get_dinode (k : nat) (d : list Z) : dinode :=
  let o := (k * DINODE_SIZE)%nat in
  mkDinode (i16 (get_le 2 o d)) (i16 (get_le 2 (o + 2) d)) (i16 (get_le 2 (o + 4) d))
    (i16 (get_le 2 (o + 6) d)) (get_le 4 (o + 8) d)
    ((fun j => get_le 4 (o + 12 + 4 * j) d) <$> seq 0 (S NDIRECT)).

Definition dinode_bytes (di : dinode) : list Z :=
  le_bytes 2 (di_type di) ++ le_bytes 2 (di_major di) ++ le_bytes 2 (di_minor di) ++
  le_bytes 2 (di_nlink di) ++ le_bytes 4 (di_size di) ++ mjoin (le_bytes 4 <$> di_addrs di).

Definition put_dinode (k : nat) (di : dinode) (d : list Z) : list Z :=
  splice (k * DINODE_SIZE) (dinode_bytes di) d.

(** struct dirent: a 16-bit inode number and DIRSIZ name bytes. *)
Record dirent : Type := mkDirent { de_inum : Z; de_name : list Z }.
Definition dirent_of_bytes (bs : list Z) : dirent := mkDirent (get_le 2 0 bs) (take DIRSIZ (drop 2 bs)).
Definition dirent_bytes (de : dirent) : list Z := le_bytes 2 (de_inum de) ++ de_name de.

(** struct stat; its 24-byte image has four bytes of padding, whose contents are
    whatever the stack held. *)
Record stat : Type := mkStat { st_dev : Z; st_ino : Z; st_type : Z; st_nlink : Z; st_size : Z }.
Definition stat_bytes (pad : list Z) (st : stat) : list Z :=
  le_bytes 4 (st_dev st) ++ le_bytes 4 (st_ino st) ++ le_bytes 2 (st_type st) ++
  le_bytes 2 (st_nlink st) ++ take 4 (pad ++ replicate 4 0) ++ le_bytes 8 (st_size st).

(** ** Path elements *)
Definition SLASH : Z := 47.
Definition DOT : Z := 46.

Fixpoint skip_slashes (path : list Z) : list Z :=
  match path with
  | c :: path' => if c =? SLASH then skip_slashes path' else path
  | [] => []
  end.

(** The bytes up to the next slash or NUL, and the rest. *)
Fixpoint elem_span (path : list Z) : list Z * list Z :=
  match path with
  | c :: path' =>
      if (c =? SLASH) || (c =? 0) then ([], path)
      else let '(e, r) := elem_span path' in (c :: e, r)
  | [] => ([], [])
  end.

(** skipelem(path, name): the rest of the path and the bytes of [name], or null. *)
Definition skipelem (path : list Z) : option (list Z * list Z) :=
  let path := skip_slashes path in
  if hd0 path =? 0 then None
  else
    let '(s, path) := elem_span path in
    let len := if (DIRSIZ <=? length s)%nat then (DIRSIZ - 1)%nat else length s in
    Some (skip_slashes path, take len s ++ [0]).

Definition namecmp (s t : list Z) : Z := strncmp s t DIRSIZ.

Section Fs.
Context `{Linker}.

(** ** Access to the inode cache *)
Definition get_inode (ip : nat) : K inode :=
  fun s => match k_icache s !! ip with Some x => Ret x s | None => Fault "inode pointer" s end.
Definition upd_inode (ip : nat) (f : inode -> inode) : K unit :=
  modify (set_k_icache (alter f ip)).
Definition get_sb : K superblock := gets k_sb.

Definition breadv (dev b : Z) : K nat := bread dev b.

Definition fs_readsb (dev : Z) : K unit :=
  let! bp := breadv dev 1 in
  let! b := get_buf bp in
  do! modify (set_k_sb (fun _ => sb_of_bytes (b_data b)));
  brelse bp.

(** ** Bitmap allocation *)
Definition bzero_block (b : Z) : K unit :=
  let! bp := breadv 1 b in
  do! upd_buf bp (set_b_data (fun _ => replicate BSIZE 0));
  do! log_write bp;
  brelse bp.

Definition bit_mask (bi : Z) : Z := Z.shiftl 1 (bi mod 8).
Definition bitmap_byte (bi : Z) (d : list Z) : Z := default 0 (d !! Z.to_nat (bi / 8)).
Definition bitmap_set (bi : Z) (d : list Z) : list Z :=
  <[Z.to_nat (bi / 8) := u8 (Z.lor (bitmap_byte bi d) (bit_mask bi))]> d.
Definition bitmap_clear (bi : Z) (d : list Z) : list Z :=
  <[Z.to_nat (bi / 8) := u8 (Z.land (bitmap_byte bi d) (Z.lnot (bit_mask bi)))]> d.
Definition bitmap_used (bi : Z) (d : list Z) : bool :=
  negb (Z.land (bitmap_byte bi d) (bit_mask bi) =? 0).

(** The inner loop of balloc_alloc on the bitmap block [bp], [n] bits left. *)
Definition balloc_bits (bp : nat) (b size : Z) (n : Z) : K (option Z) :=
  search (seqZ 0 n) (fun bi =>
    let! x := get_buf bp in
    if bitmap_used bi (b_data x) then ret None
    else
      do! upd_buf bp (set_b_data (bitmap_set bi));
      do! log_write bp;
      do! brelse bp;
      do! bzero_block (u32 (b + bi));
      ret (Some (b + bi))).

Definition balloc_alloc (dev : Z) : K Z :=
  let! sb := get_sb in
  let size := sb_size sb in
  let! r := search (seqZ 0 ((size + BPB - 1) / BPB)) (fun k =>
    let b := k * BPB in
    let! bp := breadv 1 (u32 (sb_bmapstart sb + b / BPB)) in
    let! r := balloc_bits bp b size (Z.min BPB (size - b)) in
    match r with
    | Some x => ret (Some x)
    | None => do! brelse bp; ret None
    end) in
  ret (default 0 r).

Definition bfree_release (dev b : Z) : K unit :=
  let! sb := get_sb in
  if sb_size sb <=? b then panic "bfree: block out of range"
  else
    let bi := b mod BPB in
    let! bp := breadv 1 (u32 (sb_bmapstart sb + b / BPB)) in
    let! x := get_buf bp in
    if negb (bitmap_used bi (b_data x)) then panic "bfree: freeing a free block"
    else
      do! upd_buf bp (set_b_data (bitmap_clear bi));
      do! log_write bp;
      brelse bp.

(** ** The inode cache *)
Definition iinit : K unit :=
  do! initlock LkIcache;
  each (seq 0 NINODE) (fun i => initsleeplock (SlInode i)).

(** The scan of iget: the slot that caches the inode, or the first unused slot. *)
Fixpoint iget_scan (slots : list nat) (dev inum : Z) (empty : option nat) : K (nat + option nat) :=
  match slots with
  | [] => ret (inr empty)
  | i :: slots' =>
      let! ip := get_inode i in
      if (0 <? i_ref ip) && (i_dev ip =? dev) && (i_inum ip =? inum) then ret (inl i)
      else iget_scan slots' dev inum
             (match empty with None => if i_ref ip =? 0 then Some i else None | Some _ => empty end)
  end.

Definition iget (dev inum : Z) : K nat :=
  do! acquire LkIcache;
  let! r := iget_scan (seq 0 NINODE) dev inum None in
  match r with
  | inl ip =>
      do! upd_inode ip (set_i_ref (fun r => r + 1));
      do! release LkIcache;
      ret ip
  | inr None => panic "iget: no inodes"
  | inr (Some ip) =>
      do! upd_inode ip (set_i_dev (fun _ => dev));
      do! upd_inode ip (set_i_inum (fun _ => inum));
      do! upd_inode ip (set_i_ref (fun _ => 1));
      do! upd_inode ip (set_i_valid (fun _ => false));
      do! release LkIcache;
      ret ip
  end.

Definition idup (ip : nat) : K nat :=
  do! acquire LkIcache;
  do! upd_inode ip (set_i_ref (fun r => r + 1));
  do! release LkIcache;
  ret ip.

(** The block of the inode region that holds inode [inum], and its index there. *)
Definition IBLOCK (sb : superblock) (inum : Z) : Z := u32 (sb_inodestart sb + inum / IPB).
Definition IINDEX (inum : Z) : nat := Z.to_nat (inum mod IPB).

Definition load_dinode (di : dinode) (ip : inode) : inode :=
  mkInode (i_dev ip) (i_inum ip) (i_ref ip) (i_lock ip) (i_valid ip)
    (di_type di) (di_major di) (di_minor di) (di_nlink di) (di_size di) (di_addrs di).
Definition dinode_of (ip : inode) : dinode :=
  mkDinode (i_type ip) (i_major ip) (i_minor ip) (i_nlink ip) (i_size ip) (i_addrs ip).

(** The part of ilock that reads the inode from disk. *)
Definition ilock_load (i : nat) : K unit :=
  let! ip := get_inode i in
  if i_valid ip then ret tt
  else
    let! sb := get_sb in
    let! bp := breadv (i_dev ip) (IBLOCK sb (i_inum ip)) in
    let! b := get_buf bp in
    do! upd_inode i (load_dinode (get_dinode (IINDEX (i_inum ip)) (b_data b)));
    do! brelse bp;
    do! upd_inode i (set_i_valid (fun _ => true));
    let! ip := get_inode i in
    if i_type ip =? 0 then panic "ilock: no type" else ret tt.

Definition ilock (ip : option nat) : K unit :=
  match ip with
  | None => panic "ilock"
  | Some i =>
      let! x := get_inode i in
      if i_ref x <? 1 then panic "ilock"
      else
        do! acquiresleep (SlInode i);
        ilock_load i
  end.

(** The process that slept on the inode's lock in ilock runs again. *)
Definition ilock_return (p : nat) (i : nat) : K unit :=
  do! acquiresleep_return p (SlInode i);
  ilock_load i.

Definition iunlock (ip : option nat) : K unit :=
  match ip with
  | None => panic "iunlock"
  | Some i =>
      let! held := holdingsleep (SlInode i) in
      if negb held then panic "iunlock"
      else
        let! x := get_inode i in
        if i_ref x <? 1 then panic "iunlock" else releasesleep (SlInode i)
  end.

Definition iupdate (i : nat) : K unit :=
  let! ip := get_inode i in
  let! sb := get_sb in
  let! bp := breadv (i_dev ip) (IBLOCK sb (i_inum ip)) in
  do! upd_buf bp (set_b_data (put_dinode (IINDEX (i_inum ip)) (dinode_of ip)));
  do! log_write bp;
  brelse bp.

Definition ialloc_alloc (dev type : Z) : K (option nat) :=
  let! sb := get_sb in
  search (seqZ 1 (i32 (sb_ninodes sb) - 1)) (fun inum =>
    let! bp := breadv 1 (IBLOCK sb inum) in
    let! b := get_buf bp in
    if di_type (get_dinode (IINDEX inum) (b_data b)) =? 0 then
      do! upd_buf bp (set_b_data
            (put_dinode (IINDEX inum) (mkDinode type 0 0 0 0 (replicate (S NDIRECT) 0))));
      do! log_write bp;
      do! brelse bp;
      let! ip := iget dev inum in
      ret (Some ip)
    else
      do! brelse bp;
      ret None).

(** ** Truncation and the last reference *)
Definition itrunc_direct (i : nat) (k : nat) : K unit :=
  let! ip := get_inode i in
  let a := default 0 (i_addrs ip !! k) in
  when (negb (a =? 0))
    (do! bfree_release (i_dev ip) a;
     upd_inode i (set_i_addrs (insert k 0))).

Definition itrunc_indirect (i bp : nat) (j : nat) : K unit :=
  let! ip := get_inode i in
  let! b := get_buf bp in
  let a := get_le 4 (4 * j) (b_data b) in
  when (negb (a =? 0)) (bfree_release (i_dev ip) a).

Definition itrunc (i : nat) : K Z :=
  do! each (seq 0 NDIRECT) (itrunc_direct i);
  let! ip := get_inode i in
  let a := default 0 (i_addrs ip !! NDIRECT) in
  do! when (negb (a =? 0))
        (let! bp := breadv (i_dev ip) a in
         do! each (seq 0 NINDIRECT) (itrunc_indirect i bp);
         do! brelse bp;
         let! ip := get_inode i in
         do! bfree_release (i_dev ip) (default 0 (i_addrs ip !! NDIRECT));
         upd_inode i (set_i_addrs (insert NDIRECT 0)));
  do! upd_inode i (set_i_size (fun _ => 0));
  do! iupdate i;
  ret 0.

Definition iput (i : nat) : K unit :=
  let! ip := get_inode i in
  if negb (i_ref ip =? 1) || negb (i_valid ip) || negb (i_nlink ip =? 0) then
    do! acquire LkIcache;
    let! ip := get_inode i in
    if i_ref ip <? 1 then panic "iput"
    else
      do! upd_inode i (set_i_ref (fun r => r - 1));
      release LkIcache
  else
    do! acquiresleep (SlInode i);
    do! itrunc i;
    do! upd_inode i (set_i_type (fun _ => 0));
    do! iupdate i;
    do! releasesleep (SlInode i);
    do! acquire LkIcache;
    do! upd_inode i (set_i_valid (fun _ => false));
    let! ip := get_inode i in
    if negb (i_ref ip =? 1) then panic "iput: concurrent reference"
    else
      do! upd_inode i (set_i_ref (fun _ => 0));
      release LkIcache.

Definition iunlockput (i : nat) : K unit :=
  do! iunlock (Some i);
  iput i.

(** ** Block mapping *)
Definition bmap (i : nat) (bn : Z) : K Z :=
  let! ip := get_inode i in
  if bn <? Z.of_nat NDIRECT then
    let addr := default 0 (i_addrs ip !! Z.to_nat bn) in
    if addr =? 0 then
      let! addr := balloc_alloc (i_dev ip) in
      if addr =? 0 then ret 0
      else
        do! upd_inode i (set_i_addrs (insert (Z.to_nat bn) (u32 addr)));
        ret (u32 addr)
    else ret addr
  else
    let bn := bn - Z.of_nat NDIRECT in
    if bn <? Z.of_nat NINDIRECT then
      let addr := default 0 (i_addrs ip !! NDIRECT) in
      let! addr := (if addr =? 0 then
                      let! addr := balloc_alloc (i_dev ip) in
                      do! when (negb (addr =? 0)) (upd_inode i (set_i_addrs (insert NDIRECT (u32 addr))));
                      ret (u32 addr)
                    else ret addr) in
      if addr =? 0 then ret 0
      else
        let! bp := breadv (i_dev ip) addr in
        let! b := get_buf bp in
        let addr := get_le 4 (4 * Z.to_nat bn) (b_data b) in
        let! addr := (if addr =? 0 then
                        let! addr := balloc_alloc (i_dev ip) in
                        do! when (negb (addr =? 0))
                              (do! upd_buf bp (set_b_data (put_le 4 (4 * Z.to_nat bn) addr));
                               log_write bp);
                        ret (u32 addr)
                      else ret addr) in
        do! brelse bp;
        ret addr
    else ret 0.

(** ** File contents *)

(** Where readi puts the bytes: a user address, physical memory, or a local
    variable of the caller. *)
Inductive copy_dst : Type := ToUser (va : Z) | ToMem (pa : Z) | ToLocal.
(** Where writei takes them from. *)
Inductive copy_src : Type := FromUser (va : Z) | FromLocal (bs : list Z).

Definition dst_add (d : copy_dst) (m : Z) : copy_dst :=
  match d with ToUser va => ToUser (u64 (va + m)) | ToMem pa => ToMem (pa + m) | ToLocal => ToLocal end.
Definition src_add (x : copy_src) (m : Z) : copy_src :=
  match x with FromUser va => FromUser (u64 (va + m)) | FromLocal bs => FromLocal (drop (Z.to_nat m) bs) end.

Definition either_copyout (d : copy_dst) (bs : list Z) : K Z :=
  let! p := myproc in
  match d with
  | ToUser va => let! pt := pagetable_of p in copyout pt va bs
  | ToMem pa => do! modify (set_k_mem (fun m => st_bytes m pa bs)); ret 0
  | ToLocal => ret 0
  end.

(** The status, and the bytes stored (a failing user copy stores a prefix). *)
Definition either_copyin (x : copy_src) (len : Z) : K (Z * list Z) :=
  let! p := myproc in
  match x with
  | FromUser va => let! pt := pagetable_of p in copyin pt va len
  | FromLocal bs => ret (0, take (Z.to_nat len) bs)
  end.

(** The loop of readi; returns the count and the bytes copied. *)
Fixpoint readi_loop (fuel : nat) (i : nat) (d : copy_dst) (off n tot : Z) (acc : list Z) : K (Z * list Z) :=
  if n <=? tot then ret (tot, acc)
  else match fuel with
  | O => fault "readi: fuel"
  | S fuel' =>
      let! addr := bmap i (off / Z.of_nat BSIZE) in
      if addr =? 0 then ret (tot, acc)
      else
        let! ip := get_inode i in
        let! bp := breadv (i_dev ip) addr in
        let m := Z.min (n - tot) (Z.of_nat BSIZE - off mod Z.of_nat BSIZE) in
        let! b := get_buf bp in
        let bs := take (Z.to_nat m) (drop (Z.to_nat (off mod Z.of_nat BSIZE)) (b_data b)) in
        let! r := either_copyout d bs in
        do! brelse bp;
        if r =? -1 then ret (tot, acc)
        else readi_loop fuel' i (dst_add d m) (off + m) n (tot + m) (acc ++ bs)
  end.

(** Blocks touched by [n] bytes, at most. *)
Definition rw_fuel (n : Z) : nat := Z.to_nat (n / Z.of_nat BSIZE + 2).

Definition readi (i : nat) (d : copy_dst) (off n : Z) : K (Z * list Z) :=
  let! ip := get_inode i in
  if (i_size ip <? off) || (u32 (off + n) <? off) then ret (0, [])
  else
    let n := if i_size ip <? u32 (off + n) then i_size ip - off else n in
    readi_loop (rw_fuel n) i d off n 0 [].

(** The loop of writei; returns the count and the offset reached. *)
Fixpoint writei_loop (fuel : nat) (i : nat) (x : copy_src) (off n tot : Z) : K (Z * Z) :=
  if n <=? tot then ret (tot, off)
  else match fuel with
  | O => fault "writei: fuel"
  | S fuel' =>
      let! addr := bmap i (off / Z.of_nat BSIZE) in
      if addr =? 0 then ret (tot, off)
      else
        let! ip := get_inode i in
        let! bp := breadv (i_dev ip) addr in
        let m := Z.min (n - tot) (Z.of_nat BSIZE - off mod Z.of_nat BSIZE) in
        let! r := either_copyin x m in
        do! upd_buf bp (set_b_data (splice (Z.to_nat (off mod Z.of_nat BSIZE)) (snd r)));
        if fst r =? -1 then
          do! brelse bp;
          ret (tot, off)
        else
          do! log_write bp;
          do! brelse bp;
          writei_loop fuel' i (src_add x m) (off + m) n (tot + m)
  end.

Definition writei (i : nat) (x : copy_src) (off n : Z) : K Z :=
  let! ip := get_inode i in
  if (i_size ip <? off) || (u32 (off + n) <? off) then ret (-1)
  else if MAXFILE * Z.of_nat BSIZE <? u32 (off + n) then ret (-1)
  else
    let! r := writei_loop (rw_fuel n) i x off n 0 in
    let '(tot, off) := r in
    do! upd_inode i (set_i_size (fun sz => if sz <? off then off else sz));
    do! iupdate i;
    ret (i32 tot).

Definition stati (i : nat) : K stat :=
  let! ip := get_inode i in
  ret (mkStat (i32 (i_dev ip)) (i_inum ip) (i_type ip) (i_nlink ip) (i_size ip)).

(** ** Directories *)

(** Read one directory entry, or panic. *)
Definition read_dirent (dp : nat) (off : Z) (msg : string) : K dirent :=
  let! r := readi dp ToLocal off DIRENT_SIZE in
  if negb (fst r =? DIRENT_SIZE) then panic msg else ret (dirent_of_bytes (snd r)).

Fixpoint dirlookup_loop (fuel : nat) (dp : nat) (name : list Z) (off : Z) : K (option (nat * Z)) :=
  let! d := get_inode dp in
  if i_size d <=? off then ret None
  else match fuel with
  | O => fault "dirlookup: fuel"
  | S fuel' =>
      let! de := read_dirent dp off "dirlookup read" in
      if de_inum de =? 0 then dirlookup_loop fuel' dp name (off + DIRENT_SIZE)
      else if namecmp name (de_name de) =? 0 then
        let! ip := iget (i_dev d) (de_inum de) in
        ret (Some (ip, off))
      else dirlookup_loop fuel' dp name (off + DIRENT_SIZE)
  end.

(** Entries of a directory of [size] bytes, at most. *)
Definition dir_fuel (size : Z) : nat := Z.to_nat (size / DIRENT_SIZE + 1).

(** dirlookup(dp, name, &off): the referenced inode and the entry's offset. *)
Definition dirlookup (dp : nat) (name : list Z) : K (option (nat * Z)) :=
  let! d := get_inode dp in
  if negb (i_type d =? T_DIR) then panic "dirlookup not DIR"
  else dirlookup_loop (dir_fuel (i_size d)) dp name 0.

(** The offset of the first free entry, or the size of the directory. *)
Fixpoint free_dirent (fuel : nat) (dp : nat) (off : Z) : K Z :=
  let! d := get_inode dp in
  if i_size d <=? off then ret off
  else match fuel with
  | O => fault "dirlink: fuel"
  | S fuel' =>
      let! de := read_dirent dp off "dirlink read" in
      if de_inum de =? 0 then ret off else free_dirent fuel' dp (off + DIRENT_SIZE)
  end.

Definition dirlink (dp : nat) (name : list Z) (inum : Z) : K Z :=
  let! r := dirlookup dp name in
  match r with
  | Some (ip, _) => do! iput ip; ret (-1)
  | None =>
      let! d := get_inode dp in
      let! off := free_dirent (dir_fuel (i_size d)) dp 0 in
      let de := mkDirent (u16 inum) (strncpy name DIRSIZ) in
      let! w := writei dp (FromLocal (dirent_bytes de)) off DIRENT_SIZE in
      if negb (w =? DIRENT_SIZE) then ret (-1) else ret 0
  end.

Fixpoint isdirempty_loop (fuel : nat) (dp : nat) (off : Z) : K bool :=
  let! d := get_inode dp in
  if i_size d <=? off then ret true
  else match fuel with
  | O => fault "isdirempty: fuel"
  | S fuel' =>
      let! de := read_dirent dp off "isdirempty: readi" in
      if negb (de_inum de =? 0) then ret false else isdirempty_loop fuel' dp (off + DIRENT_SIZE)
  end.

Definition isdirempty (dp : nat) : K bool :=
  let! d := get_inode dp in
  isdirempty_loop (dir_fuel (i_size d)) dp (2 * DIRENT_SIZE).

(** ** Path resolution *)

(** The loop of dnamex from inode [ip]; with [parent], stop one element early and
    return the last element. *)
Fixpoint dnamex_loop (fuel : nat) (ip : nat) (path : list Z) (parent : bool) : K (option (nat * list Z)) :=
  match skipelem path with
  | None => if parent then do! iput ip; ret None else ret (Some (ip, []))
  | Some (path, element) =>
      match fuel with
      | O => fault "dnamex: fuel"
      | S fuel' =>
          do! ilock (Some ip);
          let! x := get_inode ip in
          if negb (i_type x =? T_DIR) then
            do! iunlockput ip;
            ret None
          else if parent && (hd0 path =? 0) then
            do! iunlock (Some ip);
            ret (Some (ip, safestrcpy element (Z.of_nat DIRSIZ)))
          else
            let! r := dirlookup ip element in
            match r with
            | None => do! iunlockput ip; ret None
            | Some (next, _) => do! iunlockput ip; dnamex_loop fuel' next path parent
            end
      end
  end.

Definition dnamex (path : list Z) (parent : bool) : K (option (nat * list Z)) :=
  let! ip := iget ROOTDEV ROOTINO in
  dnamex_loop (length path) ip path parent.

Definition namei (path : list Z) : K (option nat) :=
  let! r := dnamex path false in
  ret (fst <$> r).

Definition nameiparent (path : list Z) : K (option (nat * list Z)) := dnamex path true.

Definition unlink_bad (ip dp : nat) : K Z :=
  do! iunlockput ip;
  do! iunlockput dp;
  ret (-1).

Definition unlink_helper (path : list Z) : K Z :=
  let! r := nameiparent path in
  match r with
  | None => ret (-1)
  | Some (dp, name) =>
      do! ilock (Some dp);
      let! r := dirlookup dp name in
      match r with
      | None => do! iunlockput dp; ret (-1)
      | Some (ip, off) =>
          do! ilock (Some ip);
          if (namecmp name [DOT] =? 0) || (namecmp name [DOT; DOT] =? 0) then unlink_bad ip dp
          else
            let! x := get_inode ip in
            let! nonempty := (if i_type x =? T_DIR then
                                let! e := isdirempty ip in ret (negb e)
                              else ret false) in
            if nonempty then unlink_bad ip dp
            else
              let! w := writei dp (FromLocal (replicate 16 0)) off DIRENT_SIZE in
              if negb (w =? DIRENT_SIZE) then unlink_bad ip dp
              else
                do! upd_inode ip (set_i_nlink (fun n => i16 (n - 1)));
                do! iupdate ip;
                do! iunlockput ip;
                do! iunlockput dp;
                ret 0
      end
  end.

(** ** Mounting *)
Definition unformatted (sb : superblock) : bool :=
  (sb_magic sb =? 0) && (sb_size sb =? 0) && (sb_nlog sb =? 0) && (sb_logstart sb =? 0) &&
  (sb_ninodes sb =? 0) && (sb_inodestart sb =? 0) && (sb_bmapstart sb =? 0).

(** The geometry test of fsinit: the panic message of the first violated condition. *)
Definition sb_error (sb : superblock) : option string :=
  if negb (sb_magic sb =? FSMAGIC) then Some "invalid file system superblock"
  else if (sb_size sb <=? 0) || (FSSIZE <? sb_size sb) then Some "invalid superblock size"
  else if (sb_nlog sb <=? 0) || (sb_logstart sb <=? 1) then Some "invalid log region"
  else if sb_size sb <? u32 (sb_logstart sb + sb_nlog sb) then Some "log region out of range"
  else if (sb_inodestart sb <? u32 (sb_logstart sb + sb_nlog sb)) || (sb_size sb <=? sb_inodestart sb)
  then Some "invalid inode region"
  else if (sb_bmapstart sb <? sb_inodestart sb) || (sb_size sb <=? sb_bmapstart sb)
  then Some "invalid bitmap region"
  else None.

Definition fsinit (dev : Z) : K unit :=
  let! probe_bp := breadv (u32 dev) 1 in
  let! b := get_buf probe_bp in
  let probe := sb_of_bytes (b_data b) in
  do! brelse probe_bp;
  if unformatted probe then ret tt
  else
    do! fs_readsb (u32 dev);
    let! sb := get_sb in
    match sb_error sb with
    | Some msg => panic msg
    | None =>
        do! initlog dev;
        do! iinit;
        let! root := iget (u32 dev) ROOTINO in
        do! ilock (Some root);
        let! r := get_inode root in
        if negb (i_type r =? T_DIR) then panic "fsinit: root not a directory"
        else
          do! iunlock (Some root);
          iput root
    end.
End Fs.
