(* ===== verification/FsSpec.v ===== *)
(** * The file system over transactions

    Specifications of the operations of fs.c, proved against the interface [TxLayer]:
    the on-disk codecs, the inode cache and the disk inodes, block allocation, file
    contents and directories, on the image of the disk a transaction sees. *)

From S2P Require Import Prelude Params Machine Spinlock Sched CString Kalloc Vm PageTable VmSpec Bio BioSpec Block Crash Log LogSpec Tx Fs.

(** ** Codecs *)
Lemma get_le_splice_mid n base l1 v l3 d :
  (base + (length l1 + n + length l3) <= length d)%nat ->
  get_le n (base + length l1) (splice base (l1 ++ le_bytes n v ++ l3) d) = v mod 256 ^ Z.of_nat n.
Proof.
  intros Hlen. unfold get_le. rewrite <- (le_val_bytes n v). f_equal.
  apply list_eq. intros i. destruct (decide (i < n)%nat) as [Hi|Hi].
  - rewrite lookup_take_lt, lookup_drop by done.
    rewrite lookup_splice_in; rewrite ?length_app, ?length_le_bytes; [|lia|lia].
    rewrite lookup_app_r by lia. rewrite lookup_app_l by (rewrite length_le_bytes; lia). f_equal. lia.
  - rewrite lookup_take_ge by lia. symmetry. apply lookup_ge_None_2. rewrite length_le_bytes. lia.
Qed.

Lemma get_le_splice_out n base bs d off :
  (base + length bs <= length d)%nat -> (off + n <= base \/ base + length bs <= off)%nat ->
  get_le n off (splice base bs d) = get_le n off d.
Proof. intros H1 H2. unfold get_le. by rewrite take_drop_splice_ne. Qed.

(** A dinode whose fields fit their widths. *)
Record dinode_ok (di : dinode) : Prop := mkDinodeOk {
  do_type : - 2 ^ 15 <= di_type di < 2 ^ 15;
  do_major : - 2 ^ 15 <= di_major di < 2 ^ 15;
  do_minor : - 2 ^ 15 <= di_minor di < 2 ^ 15;
  do_nlink : - 2 ^ 15 <= di_nlink di < 2 ^ 15;
  do_size : 0 <= di_size di < 2 ^ 32;
  do_len : length (di_addrs di) = S NDIRECT;
  do_addrs : Forall (fun a => 0 <= a < 2 ^ 32) (di_addrs di) }.

Lemma i16_wrap v : - 2 ^ 15 <= v < 2 ^ 15 -> i16 (v mod 256 ^ Z.of_nat 2) = v.
Proof.
  intros Hv. unfold i16, signed. change (256 ^ Z.of_nat 2) with (2 ^ 16). change (16 - 1) with 15.
  rewrite Z.mod_mod by done. destruct (decide (0 <= v)).
  - rewrite Z.mod_small by lia. destruct (Z.ltb_spec v (2 ^ 15)); lia.
  - rewrite <- (Z.mod_add v 1) by done. rewrite Z.mod_small by lia.
    destruct (Z.ltb_spec (v + 1 * 2 ^ 16) (2 ^ 15)); lia.
Qed.

Lemma u32_wrap v : 0 <= v < 2 ^ 32 -> v mod 256 ^ Z.of_nat 4 = v.
Proof. intros Hv. change (256 ^ Z.of_nat 4) with (2 ^ 32). by apply Z.mod_small. Qed.

Lemma length_addr_bytes (l : list Z) : length (mjoin (le_bytes 4 <$> l)) = (4 * length l)%nat.
Proof.
  induction l as [|a l IH]; [done|]. change (mjoin (le_bytes 4 <$> a :: l)) with (le_bytes 4 a ++ mjoin (le_bytes 4 <$> l)).
  rewrite length_app, length_le_bytes, IH. cbn [length]. lia.
Qed.

Lemma length_dinode_bytes di : length (di_addrs di) = S NDIRECT -> length (dinode_bytes di) = DINODE_SIZE.
Proof.
  intros Hl. unfold dinode_bytes. rewrite !length_app, !length_le_bytes, length_addr_bytes, Hl. done.
Qed.

Lemma length_put_dinode k di d :
  length (di_addrs di) = S NDIRECT -> (k < 16)%nat -> length d = BSIZE -> length (put_dinode k di d) = BSIZE.
Proof.
  intros Hl Hk Hd. unfold put_dinode. rewrite length_splice; [done|].
  rewrite length_dinode_bytes, Hd by done. unfold DINODE_SIZE, BSIZE. lia.
Qed.

Lemma addr_bytes_split (l : list Z) j a :
  l !! j = Some a -> mjoin (le_bytes 4 <$> l) =
    mjoin (le_bytes 4 <$> take j l) ++ le_bytes 4 a ++ mjoin (le_bytes 4 <$> drop (S j) l).
Proof.
  intros Hj. rewrite <- (take_drop_middle l j a Hj) at 1.
  rewrite fmap_app, join_app. done.
Qed.

(** Reading back a stored dinode. *)
Lemma get_put_dinode k di d :
  dinode_ok di -> (k < 16)%nat -> length d = BSIZE -> get_dinode k (put_dinode k di d) = di.
Proof.
  intros [H1 H2 H3 H4 H5 H6 H7] Hk Hd. unfold get_dinode, put_dinode. set (o := (k * DINODE_SIZE)%nat).
  assert (Ho : (o + 64 <= length d)%nat) by (unfold o, DINODE_SIZE; rewrite Hd; unfold BSIZE; lia).
  assert (Ha : length (mjoin (le_bytes 4 <$> di_addrs di)) = 52%nat) by (by rewrite length_addr_bytes, H6).
  assert (Hmid : forall n off l1 v l3, dinode_bytes di = l1 ++ le_bytes n v ++ l3 -> off = (o + length l1)%nat ->
    get_le n off (splice o (dinode_bytes di) d) = v mod 256 ^ Z.of_nat n).
  { intros n off l1 v l3 E ->. rewrite E. apply get_le_splice_mid.
    apply (f_equal length) in E. rewrite length_dinode_bytes in E by done.
    rewrite !length_app, length_le_bytes in E. unfold DINODE_SIZE in E. lia. }
  destruct di as [ty mj mn nl sz ad]; cbn [di_type di_major di_minor di_nlink di_size di_addrs] in *.
  unfold dinode_bytes in *. cbn [di_type di_major di_minor di_nlink di_size di_addrs] in *.
  f_equal.
  - rewrite (Hmid 2%nat o [] ty _ eq_refl) by (cbn; lia). by apply i16_wrap.
  - rewrite (Hmid 2%nat (o + 2)%nat (le_bytes 2 ty) mj _ eq_refl) by (rewrite length_le_bytes; lia). by apply i16_wrap.
  - rewrite (Hmid 2%nat (o + 4)%nat (le_bytes 2 ty ++ le_bytes 2 mj) mn
      (le_bytes 2 nl ++ le_bytes 4 sz ++ mjoin (le_bytes 4 <$> ad))).
    + by apply i16_wrap.
    + by rewrite <- !(assoc_L (++)).
    + rewrite length_app, !length_le_bytes. lia.
  - rewrite (Hmid 2%nat (o + 6)%nat (le_bytes 2 ty ++ le_bytes 2 mj ++ le_bytes 2 mn) nl
      (le_bytes 4 sz ++ mjoin (le_bytes 4 <$> ad))).
    + by apply i16_wrap.
    + by rewrite <- !(assoc_L (++)).
    + rewrite !length_app, !length_le_bytes. lia.
  - rewrite (Hmid 4%nat (o + 8)%nat (le_bytes 2 ty ++ le_bytes 2 mj ++ le_bytes 2 mn ++ le_bytes 2 nl) sz
      (mjoin (le_bytes 4 <$> ad))).
    + by apply u32_wrap.
    + by rewrite <- !(assoc_L (++)).
    + rewrite !length_app, !length_le_bytes. lia.
  - apply list_eq. intros j. rewrite list_lookup_fmap. destruct (decide (j < 13)%nat) as [Hj|Hj].
    + rewrite lookup_seq_lt by done. cbn [fmap option_fmap option_map Nat.add].
      destruct (lookup_lt_is_Some_2 ad j) as [a Hja]; [rewrite H6; unfold NDIRECT; lia|]. rewrite Hja. f_equal.
      rewrite (Hmid 4%nat (o + 12 + 4 * j)%nat
        (le_bytes 2 ty ++ le_bytes 2 mj ++ le_bytes 2 mn ++ le_bytes 2 nl ++ le_bytes 4 sz ++
           mjoin (le_bytes 4 <$> take j ad)) a (mjoin (le_bytes 4 <$> drop (S j) ad))).
      * apply u32_wrap. by apply (Forall_lookup_1 _ _ _ _ H7 Hja).
      * rewrite (addr_bytes_split ad j a Hja). by rewrite <- !(assoc_L (++)).
      * rewrite !length_app, !length_le_bytes, length_addr_bytes, length_take, H6. unfold NDIRECT. lia.
    + rewrite lookup_seq_ge by (unfold NDIRECT; lia). symmetry. apply lookup_ge_None_2. rewrite H6. unfold NDIRECT. lia.
Qed.

Lemma get_put_dinode_ne k k' di d :
  length (di_addrs di) = S NDIRECT -> k ≠ k' -> (k < 16)%nat -> (k' < 16)%nat -> length d = BSIZE ->
  get_dinode k' (put_dinode k di d) = get_dinode k' d.
Proof.
  intros Hl Hne Hk Hk' Hd. unfold get_dinode, put_dinode.
  assert (Hout : forall n off, (k' * DINODE_SIZE <= off)%nat -> (off + n <= k' * DINODE_SIZE + 64)%nat ->
    get_le n off (splice (k * DINODE_SIZE) (dinode_bytes di) d) = get_le n off d).
  { intros n off H1 H2. apply get_le_splice_out; rewrite length_dinode_bytes by done; unfold DINODE_SIZE in *; rewrite ?Hd; unfold BSIZE; lia. }
  rewrite !Hout by lia. f_equal. apply list_fmap_ext. intros i x Hx. apply lookup_seq in Hx as [-> Hi].
  apply Hout; unfold NDIRECT in Hi; lia.
Qed.

(** ** Steps of a transaction *)
Section FsSpec.
Context {LK : Linker} {TL : TxLayer 1}.

(** From [s] to [s'] only the image (now [I]), buffers and log changed; the process holds
    the same buffers [H] and has [c] credits left. *)
Record txs (H : gset nat) (c : nat) (I : image) (s s' : kstate) : Prop := mkTxs {
  txs_tx : tx H c s';
  txs_img : forall x, img s' x = I x;
  txs_frame : log_frame s s';
  txs_holds : forall j x, j ∈ H -> holds s j x -> holds s' j x }.

Definition unheld_by (H : gset nat) (s : kstate) (b : Z) : Prop := forall i, i ∈ H -> ~ holds s i b.

Lemma unheld_empty s b : unheld_by ∅ s b.
Proof. intros i Hi. set_solver. Qed.

Lemma txs_refl H c s : tx H c s -> txs H c (img s) s s.
Proof. intros Ht. split; [done|done|apply log_frame_refl|done]. Qed.

Lemma txs_trans H c1 c2 I1 I2 s s1 s2 : txs H c1 I1 s s1 -> txs H c2 I2 s1 s2 -> txs H c2 I2 s s2.
Proof.
  intros [T1 E1 F1 K1] [T2 E2 F2 K2]. split; [done|done|by eapply log_frame_trans|]. eauto.
Qed.

Lemma txs_ext H c I I' s s' : (forall x, I x = I' x) -> txs H c I s s' -> txs H c I' s s'.
Proof. intros E [T1 E1 F1 K1]. split; [done|intros x; by rewrite <- E|done|done]. Qed.

(** A held set that is unchanged in what it holds keeps a block free. *)
Lemma unheld_step H c s s' b :
  tx H c s -> (forall j x, j ∈ H -> holds s j x -> holds s' j x) ->
  unheld_by H s b -> unheld_by H s' b.
Proof.
  intros Ht Hk Hun j Hj Hh. destruct (tx_held H c s j Ht Hj) as [x Hx]. pose proof (Hk j x Hj Hx) as Hx'.
  assert (x = b) as -> by by eapply tx_holds_inj. by apply (Hun j).
Qed.

Lemma read_block H c s b :
  tx H c s -> 0 <= b < 2 ^ 32 -> unheld_by H s b -> (size H <= 2)%nat ->
  exists i x s', bread 1 b s = Ret i s' /\ get_buf i s' = Ret x s' /\ b_data x = img s b /\
    tx ({[i]} ∪ H) c s' /\ (i ∉ H) /\ holds s' i b /\ (forall y, img s' y = img s y) /\
    (forall j y, j ∈ H -> holds s j y -> holds s' j y) /\ log_frame s s'.
Proof.
  intros Ht Hb Hun Hsz. destruct (tx_bread H c s b Ht Hb Hun Hsz) as (i & s' & Hr & Ht' & Hi & Hh & Hm & Hk & Hf).
  destruct (tx_data _ _ s' i b Ht' ltac:(set_solver) Hh) as (x & Hg & Hd).
  exists i, x, s'. rewrite Hd. auto 10.
Qed.

Lemma release_block H c s i b :
  tx ({[i]} ∪ H) c s -> i ∉ H -> holds s i b -> exists s', brelse i s = Ret tt s' /\ txs H c (img s) s s'.
Proof.
  intros Ht Hi Hh. destruct (tx_brelse _ _ s i b Ht ltac:(set_solver) Hh) as (s' & Hr & Ht' & Hm & Hk & Hf).
  exists s'. split; [done|]. split; [|done|done|auto].
  replace (({[i]} ∪ H) ∖ {[i]}) with H in Ht' by set_solver. done.
Qed.

Lemma write_block H c s i b g :
  tx H (S c) s -> i ∈ H -> holds s i b -> home_blk b -> length (g (img s b)) = BSIZE ->
  exists s', (forall A (k : K A), (do! upd_buf i (set_b_data g); do! log_write i; k) s = k s') /\
    txs H c (put b (g (img s b)) (img s)) s s'.
Proof.
  intros Ht Hi Hh Hb Hl. destruct (tx_write _ _ s i b g Ht Hi Hh Hb Hl) as (s' & Hr & Ht' & Hm & Hk & Hf).
  exists s'. split; [intros A k|split; auto].
  rewrite <- (bind_assoc (upd_buf i (set_b_data g)) (fun _ => log_write i) (fun _ => k)).
  by run_ret Hr.
Qed.

(** read - modify - log - release of one block. *)
Lemma modify_block H c s b g :
  tx H (S c) s -> 0 <= b < 2 ^ 32 -> unheld_by H s b -> (size H <= 2)%nat -> home_blk b ->
  length (g (img s b)) = BSIZE ->
  exists i s1 s2, bread 1 b s = Ret i s1 /\
    (do! upd_buf i (set_b_data g); do! log_write i; brelse i) s1 = Ret tt s2 /\
    txs H c (put b (g (img s b)) (img s)) s s2.
Proof.
  intros Ht Hb Hun Hsz Hh Hl.
  destruct (read_block H (S c) s b Ht Hb Hun Hsz) as (i & x & s1 & Hr & Hg & Hd & Ht1 & Hi & Hh1 & Hm1 & Hk1 & Hf1).
  destruct (write_block ({[i]} ∪ H) c s1 i b g Ht1 ltac:(set_solver) Hh1 Hh ltac:(by rewrite Hm1))
    as (s2 & Hr2 & [Ht2 Hm2 Hf2 Hk2]).
  destruct (release_block H c s2 i b Ht2 Hi (Hk2 i b ltac:(set_solver) Hh1)) as (s3 & Hr3 & [Ht3 Hm3 Hf3 Hk3]).
  exists i, s1, s3. split; [done|]. split; [by rewrite Hr2|]. split; [done| | |].
  - intros y. rewrite Hm3, Hm2, Hm1. by apply put_ext.
  - eapply log_frame_trans; [done|]. by eapply log_frame_trans.
  - intros j y Hj Hjy. apply Hk3; [done|]. apply Hk2; [set_solver|]. by apply Hk1.
Qed.

(** ** Disk inodes *)
Definition disk_inode (I : image) (sb : superblock) (inum : Z) : dinode :=
  get_dinode (IINDEX inum) (I (IBLOCK sb inum)).

Lemma bind_get_sb {A} (k : superblock -> K A) s : bind get_sb k s = k (k_sb s) s.
Proof. done. Qed.

Lemma get_inode_ok i ip s : k_icache s !! i = Some ip -> get_inode i s = Ret ip s.
Proof. unfold get_inode. by intros ->. Qed.

Lemma IBLOCK_range sb inum : 0 <= IBLOCK sb inum < 2 ^ 32.
Proof. unfold IBLOCK, u32. apply Z.mod_pos_bound. lia. Qed.

Lemma IINDEX_lt inum : (IINDEX inum < 16)%nat.
Proof. unfold IINDEX, IPB. pose proof (Z.mod_pos_bound inum 16). lia. Qed.

Lemma iupdate_spec H c s i ip :
  tx H (S c) s -> (size H <= 2)%nat -> k_icache s !! i = Some ip -> i_dev ip = 1 ->
  length (i_addrs ip) = S NDIRECT ->
  let b := IBLOCK (k_sb s) (i_inum ip) in
  home_blk b -> unheld_by H s b ->
  exists s', iupdate i s = Ret tt s' /\
    txs H c (put b (put_dinode (IINDEX (i_inum ip)) (dinode_of ip) (img s b)) (img s)) s s'.
Proof.
  intros Ht Hsz Hip Hdev Hlen b Hb Hun. unfold iupdate.
  rewrite (bind_Ret _ _ _ _ _ (get_inode_ok _ _ _ Hip)), bind_get_sb, Hdev. unfold breadv. fold b.
  destruct (modify_block H c s b (put_dinode (IINDEX (i_inum ip)) (dinode_of ip))) as (bp & s1 & s2 & Hr1 & Hr2 & Hs);
    [done|apply IBLOCK_range|done|done|done| |].
  { apply length_put_dinode; [done|apply IINDEX_lt|by eapply tx_length]. }
  exists s2. split; [|done]. by run_ret Hr1.
Qed.
Lemma log_frame_icache f s s' : log_frame s s' -> log_frame (set_k_icache f s) (set_k_icache f s').
Proof. intros (l & bs & d & ps & -> & W). exists l, bs, d, ps. split; [keq|done]. Qed.

Lemma upd_inode_run {A} i f (k : K A) s : (do! upd_inode i f; k) s = k (set_k_icache (alter f i) s).
Proof. done. Qed.

(** ilock's read of the disk inode into an invalid cache entry. *)
Lemma ilock_load_spec H c s i ip :
  tx H c s -> (size H <= 2)%nat -> k_icache s !! i = Some ip -> i_dev ip = 1 -> i_valid ip = false ->
  unheld_by H s (IBLOCK (k_sb s) (i_inum ip)) ->
  let di := disk_inode (img s) (k_sb s) (i_inum ip) in
  let f := fun x => set_i_valid (fun _ => true) (load_dinode di x) in
  di_type di ≠ 0 ->
  exists s', ilock_load i s = Ret tt s' /\ txs H c (img s) (set_k_icache (alter f i) s) s'.
Proof.
  intros Ht Hsz Hip Hdev Hval Hun di f Hty. unfold ilock_load.
  rewrite (bind_Ret _ _ _ _ _ (get_inode_ok _ _ _ Hip)), Hval, bind_get_sb, Hdev. unfold breadv.
  destruct (read_block H c s _ Ht (IBLOCK_range _ _) Hun Hsz) as (bp & x & s1 & Hr & Hg & Hd & Ht1 & Hi & Hh1 & Hm1 & Hk1 & Hf1).
  rewrite (bind_Ret _ _ _ _ _ Hr), (bind_Ret _ _ _ _ _ Hg), Hd, upd_inode_run.
  fold (disk_inode (img s) (k_sb s) (i_inum ip)). fold di.
  set (s2 := set_k_icache (alter (load_dinode di) i) s1).
  destruct (release_block H c s2 bp (IBLOCK (k_sb s) (i_inum ip))) as (s3 & Hr3 & [Ht3 Hm3 Hf3 Hk3]).
  { by apply tx_icache. }
  { done. }
  { by apply tx_icache_holds. }
  rewrite (bind_Ret _ _ _ _ _ Hr3), upd_inode_run.
  set (s4 := set_k_icache (alter (set_i_valid (fun _ => true)) i) s3).
  pose proof (log_frame_fs _ _ Hf1) as [Ei1 _ _ _ _ _]. pose proof (log_frame_fs _ _ Hf3) as [Ei3 _ _ _ _ _].
  assert (Hic : k_icache s4 = alter f i (k_icache s)).
  { unfold s4. kcbn. rewrite Ei3. unfold s2. kcbn. by rewrite Ei1, alter_twice. }
  assert (Hg4 : get_inode i s4 = Ret (f ip) s4).
  { apply get_inode_ok. by rewrite Hic, list_lookup_alter_eq, Hip. }
  run_ret Hg4. cbn [f i_type load_dinode set_i_valid].
  destruct (Z.eqb_spec (di_type di) 0); [done|]. exists s4. split; [done|]. split.
  - by apply tx_icache.
  - intros y. unfold s4. rewrite tx_icache_img, Hm3. unfold s2. by rewrite tx_icache_img, Hm1.
  - assert (E : set_k_icache (alter f i) s = set_k_icache (alter (set_i_valid (fun _ => true)) i)
      (set_k_icache (alter (load_dinode di) i) s)) by (keq; by rewrite alter_twice).
    rewrite E. apply log_frame_icache. eapply log_frame_trans; [|exact Hf3]. by apply log_frame_icache.
  - intros j y Hj Hy. unfold s4. apply tx_icache_holds, Hk3; [done|]. unfold s2. apply tx_icache_holds, Hk1; [done|].
    by apply tx_icache_holds in Hy.
Qed.
(** Inode numbers and an inode region whose blocks do not wrap around. *)
Definition inum_ok (sb : superblock) (inum : Z) : Prop :=
  0 <= inum < 2 ^ 31 /\ 0 <= sb_inodestart sb < 2 ^ 31.

Lemma inode_place sb inum inum' :
  inum_ok sb inum -> inum_ok sb inum' -> IBLOCK sb inum = IBLOCK sb inum' -> IINDEX inum = IINDEX inum' -> inum = inum'.
Proof.
  unfold inum_ok, IBLOCK, IINDEX, IPB, u32. intros [H1 H2] [H3 _] Eb Ei.
  assert (inum / 16 < 2 ^ 31) by (apply Z.div_lt_upper_bound; lia).
  assert (inum' / 16 < 2 ^ 31) by (apply Z.div_lt_upper_bound; lia).
  pose proof (Z.div_pos inum 16). pose proof (Z.div_pos inum' 16).
  rewrite !Z.mod_small in Eb by lia.
  pose proof (Z.mod_pos_bound inum 16). pose proof (Z.mod_pos_bound inum' 16).
  pose proof (Z.div_mod inum 16). pose proof (Z.div_mod inum' 16). lia.
Qed.

Lemma disk_inode_put I sb inum inum' di :
  inum_ok sb inum -> inum_ok sb inum' -> dinode_ok di -> (forall b, length (I b) = BSIZE) ->
  disk_inode (put (IBLOCK sb inum) (put_dinode (IINDEX inum) di (I (IBLOCK sb inum))) I) sb inum' =
    if decide (inum' = inum) then di else disk_inode I sb inum'.
Proof.
  intros Hi Hi' Hdi Hlen. unfold disk_inode. destruct (decide (inum' = inum)) as [->|Hne].
  - rewrite put_eq. apply get_put_dinode; [done|apply IINDEX_lt|done].
  - destruct (decide (IBLOCK sb inum = IBLOCK sb inum')) as [E|E]; [|by rewrite put_ne].
    rewrite <- E, put_eq. apply get_put_dinode_ne; [apply Hdi| |apply IINDEX_lt|apply IINDEX_lt|done].
    intros Ei. apply Hne. symmetry. by eapply inode_place.
Qed.

(** What iupdate writes, ilock reads back: for a cached inode whose fields fit the
    on-disk widths, iupdate inside a transaction stores it in its slot of the inode
    region, and filling any invalid cache entry for the same inode number from the
    resulting disk yields exactly those fields.  The other inodes of the same block,
    and every other block, are untouched. *)
Theorem iupdate_ilock c s i ip j jp :
  tx ∅ (S c) s -> k_icache s !! i = Some ip -> i_dev ip = 1 -> dinode_ok (dinode_of ip) -> i_type ip ≠ 0 ->
  inum_ok (k_sb s) (i_inum ip) -> home_blk (IBLOCK (k_sb s) (i_inum ip)) ->
  k_icache s !! j = Some jp -> i_dev jp = 1 -> i_inum jp = i_inum ip -> i_valid jp = false ->
  exists s1 s2, iupdate i s = Ret tt s1 /\ ilock_load j s1 = Ret tt s2 /\ tx ∅ c s2 /\
    k_icache s2 !! j = Some (set_i_valid (fun _ => true) (load_dinode (dinode_of ip) jp)) /\
    (forall k, k ≠ j -> k_icache s2 !! k = k_icache s !! k) /\
    (forall inum, inum_ok (k_sb s) inum -> inum ≠ i_inum ip ->
       disk_inode (img s2) (k_sb s) inum = disk_inode (img s) (k_sb s) inum) /\
    (forall b, b ≠ IBLOCK (k_sb s) (i_inum ip) -> img s2 b = img s b).
Proof.
  intros Ht Hip Hdev Hdi Hty Hin Hhome Hjp Hjdev Hjin Hjv.
  destruct (iupdate_spec ∅ c s i ip Ht) as (s1 & Hr1 & [Ht1 Hm1 Hf1 _]);
    [set_solver|done|done|apply Hdi|done|apply unheld_empty|].
  pose proof (log_frame_fs _ _ Hf1) as [Ei1 Es1 _ _ _ _].
  assert (Hlen : forall b, length (img s b) = BSIZE) by (intros b; by eapply tx_length).
  assert (Hdisk : disk_inode (img s1) (k_sb s1) (i_inum jp) = dinode_of ip).
  { rewrite Es1, Hjin. transitivity (disk_inode (put (IBLOCK (k_sb s) (i_inum ip)) (put_dinode (IINDEX (i_inum ip))
      (dinode_of ip) (img s (IBLOCK (k_sb s) (i_inum ip)))) (img s)) (k_sb s) (i_inum ip)).
    - unfold disk_inode. by rewrite Hm1.
    - rewrite disk_inode_put by done. by rewrite decide_True. }
  destruct (ilock_load_spec ∅ c s1 j jp Ht1) as (s2 & Hr2 & [Ht2 Hm2 Hf2 _]);
    [set_solver|by rewrite Ei1|done|done|apply unheld_empty|by rewrite Hdisk|].
  pose proof (log_frame_fs _ _ Hf2) as [Ei2 _ _ _ _ _]. kcbn in Ei2. rewrite Ei1, Hdisk in Ei2.
  exists s1, s2. split_and!; [done|done|done| | | |].
  - by rewrite Ei2, list_lookup_alter_eq, Hjp.
  - intros k Hk. by rewrite Ei2, list_lookup_alter_ne.
  - intros inum Hok Hne. transitivity (disk_inode (put (IBLOCK (k_sb s) (i_inum ip)) (put_dinode (IINDEX (i_inum ip))
      (dinode_of ip) (img s (IBLOCK (k_sb s) (i_inum ip)))) (img s)) (k_sb s) inum).
    + unfold disk_inode. by rewrite Hm2, Hm1.
    + rewrite disk_inode_put by done. by rewrite decide_False.
  - intros b Hb. rewrite Hm2, Hm1. by apply put_ne.
Qed.

(** ** Block allocation *)
Lemma bit_mask_pow bi : bit_mask bi = 2 ^ (bi mod 8).
Proof. unfold bit_mask. by rewrite Z.shiftl_1_l. Qed.

Lemma bitmap_used_testbit bi d : bitmap_used bi d = Z.testbit (bitmap_byte bi d) (bi mod 8).
Proof.
  unfold bitmap_used. rewrite bit_mask_pow. pose proof (Z.mod_pos_bound bi 8).
  destruct (Z.testbit (bitmap_byte bi d) (bi mod 8)) eqn:E.
  - apply negb_true_iff, Z.eqb_neq. intros E0. apply (f_equal (fun z => Z.testbit z (bi mod 8))) in E0.
    rewrite Z.land_spec, Z.pow2_bits_true, E, Z.bits_0 in E0 by lia. done.
  - apply negb_false_iff, Z.eqb_eq. apply Z.bits_inj'. intros n Hn. rewrite Z.land_spec, Z.bits_0.
    destruct (decide (n = bi mod 8)) as [->|Hne]; [by rewrite E|]. rewrite Z.pow2_bits_false by lia. apply andb_false_r.
Qed.

Lemma u8_testbit x n : 0 <= n < 8 -> Z.testbit (u8 x) n = Z.testbit x n.
Proof. intros Hn. unfold u8. apply Z.mod_pow2_bits_low. lia. Qed.

(** The bits of the bitmap after a change of one of its bytes. *)
Lemma bitmap_byte_insert bi bj v d :
  0 <= bi -> 0 <= bj -> bi / 8 < Z.of_nat (length d) ->
  bitmap_byte bj (<[Z.to_nat (bi / 8) := v]> d) = if decide (bi / 8 = bj / 8) then v else bitmap_byte bj d.
Proof.
  intros H0 H1 Hl. unfold bitmap_byte. pose proof (Z.div_pos bi 8 H0). pose proof (Z.div_pos bj 8 H1). case_decide as E.
  - rewrite <- E, list_lookup_insert_eq by lia. done.
  - rewrite list_lookup_insert_ne; [done|lia].
Qed.

Lemma bit_index bi bj : bi / 8 = bj / 8 -> bi mod 8 = bj mod 8 -> bi = bj.
Proof. intros. rewrite (Z.div_mod bi 8), (Z.div_mod bj 8) by lia. lia. Qed.

Lemma bitmap_used_set bi bj d :
  0 <= bi -> 0 <= bj -> bi / 8 < Z.of_nat (length d) ->
  bitmap_used bj (bitmap_set bi d) = bool_decide (bi = bj) || bitmap_used bj d.
Proof.
  intros H0 H1 Hl. rewrite !bitmap_used_testbit. unfold bitmap_set. rewrite bitmap_byte_insert by done.
  pose proof (Z.mod_pos_bound bi 8). pose proof (Z.mod_pos_bound bj 8). case_decide as E.
  - rewrite u8_testbit, Z.lor_spec, bit_mask_pow by lia. unfold bitmap_byte. rewrite E. case_bool_decide as Eb.
    + subst. rewrite Z.pow2_bits_true by lia. by rewrite orb_true_r.
    + rewrite Z.pow2_bits_false; [by rewrite orb_false_r|]. intros Em. apply Eb. by apply bit_index.
  - rewrite bool_decide_false; [done|]. by intros ->.
Qed.

Lemma bitmap_used_clear bi bj d :
  0 <= bi -> 0 <= bj -> bi / 8 < Z.of_nat (length d) ->
  bitmap_used bj (bitmap_clear bi d) = negb (bool_decide (bi = bj)) && bitmap_used bj d.
Proof.
  intros H0 H1 Hl. rewrite !bitmap_used_testbit. unfold bitmap_clear. rewrite bitmap_byte_insert by done.
  pose proof (Z.mod_pos_bound bi 8). pose proof (Z.mod_pos_bound bj 8). case_decide as E.
  - rewrite u8_testbit, Z.land_spec, Z.lnot_spec, bit_mask_pow by lia. unfold bitmap_byte. rewrite E. case_bool_decide as Eb.
    + subst. rewrite Z.pow2_bits_true by lia. by rewrite andb_false_r.
    + rewrite Z.pow2_bits_false; [by rewrite andb_true_r|]. intros Em. apply Eb. by apply bit_index.
  - rewrite bool_decide_false; [done|]. by intros ->.
Qed.

Lemma length_bitmap_set bi d : length (bitmap_set bi d) = length d.
Proof. apply length_insert. Qed.
Lemma length_bitmap_clear bi d : length (bitmap_clear bi d) = length d.
Proof. apply length_insert. Qed.
(** The first free block below [n], by the bitmap [d]. *)
Definition first_free (d : list Z) (n : Z) : option Z :=
  head (filter (fun b => bitmap_used b d = false) (seqZ 0 n)).

Lemma first_free_spec d n :
  match first_free d n with
  | Some b => 0 <= b < n /\ bitmap_used b d = false /\ (forall x, 0 <= x < b -> bitmap_used x d = true)
  | None => forall x, 0 <= x < n -> bitmap_used x d = true
  end.
Proof.
  unfold first_free.
  assert (G : forall k m, match head (filter (fun b => bitmap_used b d = false) (seqZ m (Z.of_nat k))) with
    | Some b => m <= b < m + Z.of_nat k /\ bitmap_used b d = false /\ (forall x, m <= x < b -> bitmap_used x d = true)
    | None => forall x, m <= x < m + Z.of_nat k -> bitmap_used x d = true
    end).
  { induction k as [|k IH]; intros m; [rewrite seqZ_nil by lia; intros x Hx; lia|].
    rewrite seqZ_cons by lia. replace (Z.pred (Z.of_nat (S k))) with (Z.of_nat k) by lia.
    rewrite filter_cons. destruct (decide (bitmap_used m d = false)) as [E|E]; [cbn; split_and!; [lia|lia|done|lia]|].
    apply not_false_is_true in E. specialize (IH (Z.succ m)). destruct (head _) as [b|].
    - destruct IH as (H1 & H2 & H3). split_and!; [lia|lia|done|]. intros x Hx.
      destruct (decide (x = m)) as [->|]; [done|]. apply H3. lia.
    - intros x Hx. destruct (decide (x = m)) as [->|]; [done|]. apply IH. lia. }
  destruct (decide (0 <= n)).
  - specialize (G (Z.to_nat n) 0). rewrite Z2Nat.id in G by done. exact G.
  - rewrite seqZ_nil by lia. intros x Hx. lia.
Qed.

Lemma seqZ_split n b : 0 <= b < n -> seqZ 0 n = seqZ 0 b ++ b :: seqZ (b + 1) (n - b - 1).
Proof.
  intros Hb. replace n with (b + (n - b)) at 1 by lia. rewrite seqZ_app, Z.add_0_l by lia.
  rewrite (seqZ_cons b (n - b)) by lia. do 2 f_equal.
Qed.

(** The bitmap a transaction sees, in a file system whose bitmap is one block, and in
    which only blocks outside the log, the bitmap and the blocks held are free. *)
Record bitmap_ok (H : gset nat) (s : kstate) (bb : Z) : Prop := mkBitmapOk {
  bo_size : 0 < sb_size (k_sb s) <= BPB;
  bo_block : bb = u32 (sb_bmapstart (k_sb s));
  bo_home : home_blk bb;
  bo_unheld : unheld_by H s bb;
  bo_free : forall b, 0 <= b < sb_size (k_sb s) -> bitmap_used b (img s bb) = false ->
    home_blk b /\ b ≠ bb /\ unheld_by H s b }.

Lemma BPB_small : BPB = 8192.
Proof. reflexivity. Qed.

Lemma balloc_spec H c s bb dev :
  tx H (S (S c)) s -> (size H <= 2)%nat -> bitmap_ok H s bb ->
  match first_free (img s bb) (sb_size (k_sb s)) with
  | Some b => exists s', balloc_alloc dev s = Ret b s' /\
      txs H c (put b (replicate BSIZE 0) (put bb (bitmap_set b (img s bb)) (img s))) s s'
  | None => exists s', balloc_alloc dev s = Ret 0 s' /\ txs H (S (S c)) (img s) s s'
  end.
Proof.
  intros Ht Hsz [Hs Hbb Hhome Hun Hfree].
  pose proof (first_free_spec (img s bb) (sb_size (k_sb s))) as Hff.
  assert (Hbr : 0 <= bb < 2 ^ 32) by (rewrite Hbb; unfold u32; apply Z.mod_pos_bound; lia).
  destruct (read_block H (S (S c)) s bb Ht Hbr Hun Hsz) as (bp & x & s1 & Hr & Hg & Hd & Ht1 & Hi & Hh1 & Hm1 & Hk1 & Hf1).
  assert (E1 : seqZ 0 ((sb_size (k_sb s) + BPB - 1) / BPB) = [0]).
  { assert ((sb_size (k_sb s) + BPB - 1) / BPB = 1) as ->; [|done].
    rewrite BPB_small in *. symmetry. apply (Z.div_unique _ _ _ (sb_size (k_sb s) - 1)); lia. }
  unfold balloc_alloc. rewrite bind_get_sb, E1. cbn [search]. unfold breadv.
  change (0 * BPB) with 0. change (0 / BPB) with 0. rewrite Z.add_0_r, Z.sub_0_r, <- Hbb.
  rewrite Z.min_r by lia. rewrite !bind_assoc, (bind_Ret _ _ _ _ _ Hr), !bind_assoc.
  unfold balloc_bits.
  destruct (first_free (img s bb) (sb_size (k_sb s))) as [b|].
  - destruct Hff as (Hb & Hfr & Hlow). destruct (Hfree b Hb Hfr) as (Hbh & Hne & Hbun).
    assert (Hbl : b / 8 < Z.of_nat (length (img s bb))).
    { rewrite (tx_length _ _ s bb Ht). apply Z.div_lt_upper_bound; [lia|]. rewrite BPB_small in Hs. unfold BSIZE. lia. }
    (* the bitmap *)
    destruct (write_block ({[bp]} ∪ H) (S c) s1 bp bb (bitmap_set b)) as (s2 & Hr2 & [Ht2 Hm2 Hf2 Hk2]);
      [done|set_solver|done|done|rewrite length_bitmap_set, Hm1; by eapply tx_length|].
    destruct (release_block H (S c) s2 bp bb Ht2 Hi (Hk2 bp bb ltac:(set_solver) Hh1)) as (s3 & Hr3 & [Ht3 Hm3 Hf3 Hk3]).
    assert (Hkeep : forall j y, j ∈ H -> holds s j y -> holds s3 j y).
    { intros j y Hj Hy. apply Hk3; [done|]. apply Hk2; [set_solver|]. by apply Hk1. }
    assert (Ht3w : tx H (S c) s3) by done.
    destruct (modify_block H c s3 b (fun _ => replicate BSIZE 0)) as (bz & s4 & s5 & Hr4 & Hr5 & [Ht5 Hm5 Hf5 Hk5]);
      [done|unfold BPB, BSIZE in Hs; lia|exact (unheld_step H _ s s3 b Ht Hkeep Hbun)|done|done|apply length_replicate|].
    exists s5. split.
    + rewrite (seqZ_split _ b Hb). erewrite bind_Ret.
      2:{ apply search_hit; [intros y Hy; apply elem_of_seqZ in Hy; cbv beta; by rewrite (bind_Ret _ _ _ _ _ Hg), Hd, Hlow by lia|].
          rewrite (bind_Ret _ _ _ _ _ Hg), Hd, Hfr, Hr2, (bind_Ret _ _ _ _ _ Hr3). rewrite Z.add_0_l.
          unfold bzero_block, breadv. rewrite (u32_small b) by (unfold BPB, BSIZE in Hs; lia).
          rewrite bind_assoc, (bind_Ret _ _ _ _ _ Hr4), (bind_Ret _ _ _ _ _ Hr5). reflexivity. }
      reflexivity.
    + split; [done| | |].
      * intros y. rewrite Hm5. apply put_ext. intros z. rewrite Hm3, Hm2, Hm1. by apply put_ext.
      * eapply log_frame_trans; [done|]. eapply log_frame_trans; [done|]. by eapply log_frame_trans.
      * intros j y Hj Hy. apply Hk5; [done|]. by apply Hkeep.
  - erewrite bind_Ret.
    2:{ apply search_skip. intros y Hy. apply elem_of_seqZ in Hy. cbv beta. by rewrite (bind_Ret _ _ _ _ _ Hg), Hd, Hff by lia. }
    cbn beta iota.
    destruct (release_block H (S (S c)) s1 bp bb Ht1 Hi Hh1) as (s3 & Hr3 & [Ht3 Hm3 Hf3 Hk3]).
    rewrite !bind_assoc, (bind_Ret _ _ _ _ _ Hr3). exists s3. split; [done|]. split; [done| | |].
    + intros y. by rewrite Hm3.
    + by eapply log_frame_trans.
    + intros j y Hj Hy. apply Hk3; [done|]. by apply Hk1.
Qed.
(** bfree: a used block is marked free; a free one is a panic. *)
Lemma bfree_spec H c s bb dev b :
  tx H (S c) s -> (size H <= 2)%nat -> 0 <= b < sb_size (k_sb s) -> sb_size (k_sb s) <= BPB ->
  bb = u32 (sb_bmapstart (k_sb s)) -> home_blk bb -> unheld_by H s bb ->
  if bitmap_used b (img s bb) then
    exists s', bfree_release dev b s = Ret tt s' /\ txs H c (put bb (bitmap_clear b (img s bb)) (img s)) s s'
  else exists s', bfree_release dev b s = Panic "bfree: freeing a free block" s'.
Proof.
  intros Ht Hsz Hb Hs Hbb Hhome Hun.
  assert (Hbr : 0 <= bb < 2 ^ 32) by (rewrite Hbb; unfold u32; apply Z.mod_pos_bound; lia).
  destruct (read_block H (S c) s bb Ht Hbr Hun Hsz) as (bp & x & s1 & Hr & Hg & Hd & Ht1 & Hi & Hh1 & Hm1 & Hk1 & Hf1).
  unfold bfree_release. rewrite bind_get_sb. destruct (Z.leb_spec (sb_size (k_sb s)) b); [lia|]. cbv zeta.
  rewrite (Z.mod_small b BPB), (Z.div_small b BPB), Z.add_0_r, <- Hbb by lia. unfold breadv.
  rewrite (bind_Ret _ _ _ _ _ Hr), (bind_Ret _ _ _ _ _ Hg), Hd.
  destruct (bitmap_used b (img s bb)) eqn:Hu; cbn [negb]; [|by exists s1].
  destruct (write_block ({[bp]} ∪ H) c s1 bp bb (bitmap_clear b)) as (s2 & Hr2 & [Ht2 Hm2 Hf2 Hk2]);
    [done|set_solver|done|done|rewrite length_bitmap_clear, Hm1; by eapply tx_length|].
  destruct (release_block H c s2 bp bb Ht2 Hi (Hk2 bp bb ltac:(set_solver) Hh1)) as (s3 & Hr3 & [Ht3 Hm3 Hf3 Hk3]).
  exists s3. split; [by rewrite Hr2|]. split; [done| | |].
  - intros y. rewrite Hm3, Hm2, Hm1. by apply put_ext.
  - eapply log_frame_trans; [done|]. by eapply log_frame_trans.
  - intros j y Hj Hy. apply Hk3; [done|]. apply Hk2; [set_solver|]. by apply Hk1.
Qed.

(** C20. Block allocation.  balloc_alloc returns the lowest-numbered block the bitmap
    has free, with its bit now set, the block itself zeroed and every other block and
    every other bit as before, or 0 when no block is free, changing nothing.
    bfree_release of the block gives back exactly the bits there were before, and a
    second bfree_release of it panics. *)
Theorem balloc_bfree c s bb dev :
  tx ∅ (S (S (S (S c)))) s -> bitmap_ok ∅ s bb ->
  match first_free (img s bb) (sb_size (k_sb s)) with
  | Some b => exists s1 s2 s3,
      balloc_alloc dev s = Ret b s1 /\ tx ∅ (S (S c)) s1 /\
      img s1 b = replicate BSIZE 0 /\
      (forall x, 0 <= x < sb_size (k_sb s) ->
         bitmap_used x (img s1 bb) = bool_decide (b = x) || bitmap_used x (img s bb)) /\
      (forall y, y ≠ b -> y ≠ bb -> img s1 y = img s y) /\
      bfree_release dev b s1 = Ret tt s2 /\
      (forall x, 0 <= x < sb_size (k_sb s) -> bitmap_used x (img s2 bb) = bitmap_used x (img s bb)) /\
      bfree_release dev b s2 = Panic "bfree: freeing a free block" s3
  | None => exists s', balloc_alloc dev s = Ret 0 s' /\ tx ∅ (S (S (S (S c)))) s' /\ forall y, img s' y = img s y
  end.
Proof.
  intros Ht Hbo. pose proof (balloc_spec ∅ (S (S c)) s bb dev Ht ltac:(by apply Nat.leb_le) Hbo) as Hb.
  pose proof (first_free_spec (img s bb) (sb_size (k_sb s))) as Hff.
  destruct Hbo as [Hs Hbb Hhome Hun Hfree]. destruct (first_free _ _) as [b|].
  2:{ destruct Hb as (s' & Hr & [Ht' Hm _ _]). by exists s'. }
  destruct Hb as (s1 & Hr1 & [Ht1 Hm1 Hf1 _]). destruct Hff as (Hbr & Hfr & _).
  destruct (Hfree b Hbr Hfr) as (_ & Hne & _). pose proof (log_frame_fs _ _ Hf1) as [_ Es1 _ _ _ _].
  assert (Hbit : forall x, 0 <= x < sb_size (k_sb s) -> x / 8 < Z.of_nat (length (img s bb))).
  { intros x Hx. rewrite (tx_length _ _ s bb Ht). apply Z.div_lt_upper_bound; [lia|].
    rewrite BPB_small in Hs. unfold BSIZE. lia. }
  assert (Ebb : img s1 bb = bitmap_set b (img s bb)) by (rewrite Hm1, put_ne, put_eq; done).
  assert (Hu1 : forall x, 0 <= x < sb_size (k_sb s) ->
    bitmap_used x (img s1 bb) = bool_decide (b = x) || bitmap_used x (img s bb)).
  { intros x Hx. rewrite Ebb. apply bitmap_used_set; [lia|lia|by apply Hbit]. }
  pose proof (bfree_spec ∅ (S c) s1 bb dev b Ht1) as Hfree1. rewrite Es1, Hu1 in Hfree1 by done.
  rewrite bool_decide_true in Hfree1 by done. cbn [orb] in Hfree1.
  destruct Hfree1 as (s2 & Hr2 & [Ht2 Hm2 Hf2 _]); [by apply Nat.leb_le|done|lia|done|done|apply unheld_empty|].
  pose proof (log_frame_fs _ _ Hf2) as [_ Es2 _ _ _ _].
  assert (Hu2 : forall x, 0 <= x < sb_size (k_sb s) -> bitmap_used x (img s2 bb) = bitmap_used x (img s bb)).
  { intros x Hx. rewrite Hm2, put_eq. rewrite bitmap_used_clear; [|lia|lia|rewrite Ebb, length_bitmap_set; by apply Hbit].
    rewrite Hu1 by done. case_bool_decide as E; [|done]. subst. by rewrite Hfr. }
  pose proof (bfree_spec ∅ c s2 bb dev b Ht2) as Hfree2. rewrite Es2, Es1, Hu2, Hfr in Hfree2 by done.
  destruct Hfree2 as (s3 & Hr3); [by apply Nat.leb_le|done|lia|done|done|apply unheld_empty|].
  exists s1, s2, s3. split_and!; [done|done| |done| |done|done|done].
  - by rewrite Hm1, put_eq.
  - intros y Hy1 Hy2. by rewrite Hm1, !put_ne by done.
Qed.
(** ** File contents *)
Definition iaddr (ip : inode) (k : nat) : Z := default 0 (i_addrs ip !! k).

(** The block that holds block [bn] of a file. *)
Definition baddr (I : image) (ip : inode) (bn : Z) : Z :=
  if bn <? Z.of_nat NDIRECT then iaddr ip (Z.to_nat bn)
  else get_le 4 (4 * Z.to_nat (bn - Z.of_nat NDIRECT)) (I (iaddr ip NDIRECT)).

(** Block [bn] of the file is allocated. *)
Definition mapped (I : image) (ip : inode) (bn : Z) : Prop :=
  0 <= bn < MAXFILE /\ 0 < baddr I ip bn < 2 ^ 32 /\
  (Z.of_nat NDIRECT <= bn -> 0 < iaddr ip NDIRECT < 2 ^ 32).

Lemma bmap_mapped c s i ip bn :
  tx ∅ c s -> k_icache s !! i = Some ip -> i_dev ip = 1 -> mapped (img s) ip bn ->
  exists s', bmap i bn s = Ret (baddr (img s) ip bn) s' /\ txs ∅ c (img s) s s'.
Proof.
  intros Ht Hip Hdev (Hbn & Hba & Hind). unfold bmap.
  rewrite (bind_Ret _ _ _ _ _ (get_inode_ok _ _ _ Hip)). unfold baddr in *.
  destruct (Z.ltb_spec bn (Z.of_nat NDIRECT)) as [Hlt|Hge].
  - cbv zeta. fold (iaddr ip (Z.to_nat bn)). destruct (Z.eqb_spec (iaddr ip (Z.to_nat bn)) 0); [lia|].
    exists s. split; [done|]. by apply txs_refl.
  - cbv zeta. destruct (Z.ltb_spec (bn - Z.of_nat NDIRECT) (Z.of_nat NINDIRECT)); [|unfold MAXFILE in Hbn; lia].
    specialize (Hind Hge). fold (iaddr ip NDIRECT). destruct (Z.eqb_spec (iaddr ip NDIRECT) 0); [lia|].
    rewrite bind_ret. destruct (Z.eqb_spec (iaddr ip NDIRECT) 0); [lia|]. rewrite Hdev. unfold breadv.
    destruct (read_block ∅ c s (iaddr ip NDIRECT) Ht) as (bp & x & s1 & Hr & Hg & Hd & Ht1 & Hi & Hh1 & Hm1 & Hk1 & Hf1);
      [lia|apply unheld_empty|by apply Nat.leb_le|].
    rewrite (bind_Ret _ _ _ _ _ Hr), (bind_Ret _ _ _ _ _ Hg), Hd.
    set (a := get_le 4 _ (img s _)) in *. destruct (Z.eqb_spec a 0); [lia|]. rewrite bind_ret.
    destruct (release_block ∅ c s1 bp _ Ht1 Hi Hh1) as (s2 & Hr2 & [Ht2 Hm2 Hf2 _]).
    run_ret Hr2. exists s2. split; [done|]. split; [done| | |set_solver].
    + intros y. by rewrite Hm2.
    + by eapply log_frame_trans.
Qed.

(** The bytes of the file from offset [off] on. *)
Definition fbyte (I : image) (ip : inode) (off : Z) : Z :=
  default 0 (I (baddr I ip (off / Z.of_nat BSIZE)) !! Z.to_nat (off mod Z.of_nat BSIZE)).
Definition fbytes (I : image) (ip : inode) (off n : Z) : list Z := fbyte I ip <$> seqZ off n.

Lemma length_fbytes I ip off n : length (fbytes I ip off n) = Z.to_nat n.
Proof. unfold fbytes. by rewrite length_fmap, length_seqZ. Qed.

Lemma fbytes_app I ip off n1 n2 :
  0 <= n1 -> 0 <= n2 -> fbytes I ip off (n1 + n2) = fbytes I ip off n1 ++ fbytes I ip (off + n1) n2.
Proof. intros H1 H2. unfold fbytes. by rewrite seqZ_app, fmap_app by done. Qed.

Lemma off_block off k :
  0 <= off -> 0 <= k -> off mod Z.of_nat BSIZE + k < Z.of_nat BSIZE ->
  (off + k) / Z.of_nat BSIZE = off / Z.of_nat BSIZE /\ (off + k) mod Z.of_nat BSIZE = off mod Z.of_nat BSIZE + k.
Proof.
  unfold BSIZE. change (Z.of_nat 1024) with 1024. intros Ho Hk Hlt.
  pose proof (Z.div_mod off 1024). pose proof (Z.mod_pos_bound off 1024).
  assert (E : off + k = (off mod 1024 + k) + off / 1024 * 1024) by lia.
  rewrite E, Z.div_add, Z.mod_add by lia. rewrite (Z.div_small (off mod 1024 + k)), (Z.mod_small (off mod 1024 + k)) by lia. lia.
Qed.

(** The part of a range within one block. *)
Lemma fbytes_block I ip off m :
  0 <= off -> 0 <= m -> off mod Z.of_nat BSIZE + m <= Z.of_nat BSIZE ->
  length (I (baddr I ip (off / Z.of_nat BSIZE))) = BSIZE ->
  fbytes I ip off m = take (Z.to_nat m) (drop (Z.to_nat (off mod Z.of_nat BSIZE)) (I (baddr I ip (off / Z.of_nat BSIZE)))).
Proof.
  intros Ho Hm Hle Hlen. pose proof (Z.mod_pos_bound off (Z.of_nat BSIZE) eq_refl) as Hmod.
  apply list_eq. intros k. destruct (decide (k < Z.to_nat m)%nat) as [Hk|Hk].
  - rewrite lookup_take_lt, lookup_drop by done. unfold fbytes. rewrite list_lookup_fmap, lookup_seqZ_lt by lia.
    cbn [fmap option_fmap option_map]. unfold fbyte.
    destruct (off_block off (Z.of_nat k)) as [-> ->]; [done|lia|lia|].
    replace (Z.to_nat (off mod Z.of_nat BSIZE + Z.of_nat k)) with (Z.to_nat (off mod Z.of_nat BSIZE) + k)%nat by lia.
    destruct (lookup_lt_is_Some_2 (I (baddr I ip (off / Z.of_nat BSIZE))) (Z.to_nat (off mod Z.of_nat BSIZE) + k)) as [v ->]; [|done].
    rewrite Hlen. lia.
  - rewrite lookup_take_ge by lia. apply lookup_ge_None_2. rewrite length_fbytes. lia.
Qed.

Lemma block_step off n :
  0 <= off -> 0 < n ->
  let m := Z.min n (Z.of_nat BSIZE - off mod Z.of_nat BSIZE) in
  0 < m <= n /\ off mod Z.of_nat BSIZE + m <= Z.of_nat BSIZE /\
  (m = n \/ ((off + m) mod Z.of_nat BSIZE = 0 /\ off mod Z.of_nat BSIZE + m = Z.of_nat BSIZE)).
Proof.
  intros Ho Hn m. pose proof (Z.mod_pos_bound off (Z.of_nat BSIZE) eq_refl) as Hmod.
  unfold m. split_and!; [lia|lia|lia|]. destruct (decide (n <= Z.of_nat BSIZE - off mod Z.of_nat BSIZE)); [left; lia|right].
  rewrite Z.min_r by lia. split; [|lia].
  replace (off + (Z.of_nat BSIZE - off mod Z.of_nat BSIZE)) with ((off / Z.of_nat BSIZE + 1) * Z.of_nat BSIZE).
  - by rewrite Z.mod_mul.
  - pose proof (Z.div_mod off (Z.of_nat BSIZE) ltac:(done)). lia.
Qed.
(** *** The destination of a read *)
Definition put_dst (pt : Z) (d : copy_dst) (bs : list Z) (m : gmap Z Z) : option (gmap Z Z) :=
  match d with
  | ToUser va => ustore m pt va bs
  | ToMem pa => Some (st_bytes m pa bs)
  | ToLocal => Some m
  end.

Definition dst_ok (m : gmap Z Z) (pt : Z) (d : copy_dst) : Prop :=
  match d with ToUser va => exists T1 T0, aspace m pt T1 T0 | _ => True end.

Lemma ustore_ge0 m root va b bs m' : ustore m root va (b :: bs) = Some m' -> 0 <= va < MAXVA.
Proof. cbn [ustore]. destruct (uaddr m root va) eqn:E; [|done]. intros _. by eapply uaddr_range. Qed.

Lemma ustore_end m root va bs1 bs2 m' :
  ustore m root va (bs1 ++ bs2) = Some m' -> bs2 ≠ [] -> 0 <= va -> 0 <= va + Z.of_nat (length bs1) < MAXVA.
Proof.
  rewrite ustore_app. destruct (ustore m root va bs1) as [m1|]; [|done]. destruct bs2 as [|b bs2]; [done|].
  intros Hs _ Hva. by eapply ustore_ge0.
Qed.

Lemma st_bytes_app m a l1 l2 : st_bytes m a (l1 ++ l2) = st_bytes (st_bytes m a l1) (a + Z.of_nat (length l1)) l2.
Proof.
  revert m a. induction l1 as [|b l1 IH]; intros m a; [cbn; by rewrite Z.add_0_r|].
  transitivity (st_bytes (<[a := b]> m) (a + 1) (l1 ++ l2)); [done|]. rewrite IH. cbn [st_bytes length]. f_equal. lia.
Qed.

Lemma put_dst_app pt d l1 l2 m m' :
  put_dst pt d (l1 ++ l2) m = Some m' ->
  exists m1, put_dst pt d l1 m = Some m1 /\ (l2 = [] \/ put_dst pt (dst_add d (Z.of_nat (length l1))) l2 m1 = Some m').
Proof.
  destruct d as [va|pa|]; cbn [put_dst dst_add].
  - intros Hs. destruct (decide (l2 = [])) as [->|Hne].
    + rewrite (right_id_L [] (++)) in Hs. exists m'. auto.
    + pose proof Hs as Hs'. rewrite ustore_app in Hs. destruct (ustore m pt va l1) as [m1|] eqn:E1; [|done].
      exists m1. split; [done|]. right. rewrite u64_va; [done|].
      destruct l2 as [|b l2]; [done|]. by eapply ustore_ge0.
  - intros [= <-]. eexists. split; [done|]. right. by rewrite st_bytes_app.
  - intros [= <-]. exists m. split; [done|]. by right.
Qed.

Lemma either_copyout_run d bs s me pr m' :
  k_cur s = Some me -> k_procs s !! me = Some pr -> dst_ok (k_mem s) (p_pagetable pr) d -> bs ≠ [] ->
  put_dst (p_pagetable pr) d bs (k_mem s) = Some m' ->
  either_copyout d bs s = Ret 0 (set_k_mem (fun _ => m') s) /\ dst_ok m' (p_pagetable pr) d.
Proof.
  intros Hc Hp Hok Hne Hput. unfold either_copyout. rewrite (bind_myproc _ _ _ Hc).
  destruct d as [va|pa|]; cbn [put_dst dst_ok] in *.
  - destruct Hok as (T1 & T0 & Ha). rewrite (bind_Ret _ _ _ _ _ (pagetable_of_ok _ _ _ Hp)).
    destruct bs as [|b bs]; [done|]. pose proof (ustore_ge0 _ _ _ _ _ _ Hput) as Hva.
    pose proof (copyout_loop_spec (p_pagetable pr) T1 T0 (copy_fuel (Z.of_nat (length (b :: bs)))) va (b :: bs) s Ha (proj1 Hva)) as Hr.
    unfold stored in Hr. rewrite Hput in Hr. split.
    + apply Hr. intros _. apply copy_fuel_enough. lia.
    + exists T1, T0. eapply aspace_frame; [done|]. by eapply ustore_spec.
  - injection Hput as <-. done.
  - injection Hput as <-. done.
Qed.

Lemma dst_ok_add m pt d n : dst_ok m pt d -> dst_ok m pt (dst_add d n).
Proof. by destruct d. Qed.

Lemma log_frame_mem f s s' : log_frame s s' -> log_frame (set_k_mem f s) (set_k_mem f s').
Proof. intros (l & bs & d & ps & -> & W). exists l, bs, d, ps. split; [keq|done]. Qed.

Lemma log_frame_me s s' me : log_frame s s' -> k_cur s = Some me -> k_procs s' !! me = k_procs s !! me.
Proof. intros (l & bs & d & ps & -> & _ & W & _) E. kcbn. by apply W. Qed.

(** *** readi *)
Lemma readi_loop_spec i ip me pr c : forall fuel d off n tot acc s m',
  tx ∅ c s -> k_icache s !! i = Some ip -> i_dev ip = 1 ->
  k_cur s = Some me -> k_procs s !! me = Some pr -> dst_ok (k_mem s) (p_pagetable pr) d ->
  0 <= off -> (tot < n -> off mod Z.of_nat BSIZE + (n - tot) <= Z.of_nat fuel * Z.of_nat BSIZE) -> tot <= n ->
  (forall k, off <= k < off + (n - tot) -> mapped (img s) ip (k / Z.of_nat BSIZE)) ->
  put_dst (p_pagetable pr) d (fbytes (img s) ip off (n - tot)) (k_mem s) = Some m' ->
  exists s', readi_loop fuel i d off n tot acc s = Ret (n, acc ++ fbytes (img s) ip off (n - tot)) s' /\
    txs ∅ c (img s) (set_k_mem (fun _ => if tot <? n then m' else k_mem s) s) s'.
Proof.
  induction fuel as [|fuel IH]; intros d off n tot acc s m' Ht Hip Hdev Hc Hp Hd Ho Hf Hn Hmap Hput;
    cbn [readi_loop]; destruct (Z.leb_spec n tot) as [Hle|Hlt].
  1,3: exists s; destruct (Z.ltb_spec tot n); [lia|]; assert (n = tot) as -> by lia;
    rewrite Z.sub_diag; change (fbytes (img s) ip off 0) with (@nil Z); rewrite (right_id_L [] (++));
    split; [done|]; by apply txs_refl.
  { pose proof (Z.mod_pos_bound off (Z.of_nat BSIZE) eq_refl). lia. }
  destruct (block_step off (n - tot) Ho ltac:(lia)) as (Hm & Hin & Hnext). set (m := Z.min _ _) in *.
  destruct (bmap_mapped c s i ip (off / Z.of_nat BSIZE) Ht Hip Hdev) as (s1 & Hr1 & [Ht1 Hm1 Hf1 _]); [apply Hmap; lia|].
  run_ret Hr1. set (a := baddr (img s) ip (off / Z.of_nat BSIZE)) in *.
  destruct (Hmap off ltac:(lia)) as (_ & Ha & _). fold a in Ha. destruct (Z.eqb_spec a 0); [lia|].
  pose proof (log_frame_fs _ _ Hf1) as [Ei1 _ Em1 _ Ec1 _].
  rewrite (bind_Ret _ _ _ _ _ (get_inode_ok i ip s1 ltac:(by rewrite Ei1))), Hdev. unfold breadv.
  destruct (read_block ∅ c s1 a Ht1) as (bp & x & s2 & Hr2 & Hg2 & Hd2 & Ht2 & Hi2 & Hh2 & Hm2 & _ & Hf2);
    [lia|apply unheld_empty|by apply Nat.leb_le|].
  run_ret Hr2. cbv zeta. rewrite (bind_Ret _ _ _ _ _ Hg2), Hd2, Hm1.
  assert (Hchunk : take (Z.to_nat m) (drop (Z.to_nat (off mod Z.of_nat BSIZE)) (img s a)) = fbytes (img s) ip off m).
  { symmetry. apply fbytes_block; [done|lia|done|by eapply tx_length]. }
  rewrite Hchunk. pose proof (length_fbytes (img s) ip off m) as Hcl.
  assert (Esplit : fbytes (img s) ip off (n - tot) = fbytes (img s) ip off m ++ fbytes (img s) ip (off + m) (n - (tot + m))).
  { replace (n - tot) with (m + (n - (tot + m))) by lia. apply fbytes_app; lia. }
  rewrite Esplit in Hput. destruct (put_dst_app _ _ _ _ _ _ Hput) as (m1 & Hp1 & Hp2).
  pose proof (log_frame_fs _ _ Hf2) as [Ei2 _ Em2 _ Ec2 _].
  assert (Hf12 : log_frame s s2) by by eapply log_frame_trans.
  destruct (either_copyout_run d (fbytes (img s) ip off m) s2 me pr m1) as [Hco Hdok].
  { by rewrite Ec2, Ec1. }
  { by rewrite (log_frame_me s s2 me). }
  { by rewrite Em2, Em1. }
  { intros E. apply (f_equal length) in E. rewrite Hcl in E. cbn in E. lia. }
  { by rewrite Em2, Em1. }
  run_ret Hco.
  destruct (release_block ∅ c (set_k_mem (fun _ => m1) s2) bp a) as (s3 & Hr3 & [Ht3 Hm3 Hf3 _]);
    [by apply tx_mem|done|by apply tx_mem_holds|].
  run_ret Hr3. cbn [Z.eqb Z.opp].
  assert (Hf03 : log_frame (set_k_mem (fun _ => m1) s) s3).
  { eapply log_frame_trans; [|exact Hf3]. by apply log_frame_mem. }
  pose proof (log_frame_fs _ _ Hf03) as [Ei3 _ Em3 _ Ec3 _]. kcbn in Ei3. kcbn in Em3. kcbn in Ec3.
  assert (Himg : forall y, img s3 y = img s y).
  { intros y. rewrite Hm3, tx_mem_img, Hm2. apply Hm1. }
  assert (Hfb : forall o k, fbytes (img s3) ip o k = fbytes (img s) ip o k).
  { intros o k. unfold fbytes. apply list_fmap_ext. intros. unfold fbyte, baddr. by rewrite !Himg. }
  assert (Hrest : exists m2, put_dst (p_pagetable pr) (dst_add d m) (fbytes (img s3) ip (off + m) (n - (tot + m))) (k_mem s3) = Some m2 /\
    (if tot + m <? n then m2 else m1) = m').
  { rewrite Hfb, Em3. replace (Z.of_nat (length (fbytes (img s) ip off m))) with m in Hp2 by (rewrite Hcl; lia).
    destruct (Z.ltb_spec (tot + m) n) as [Hlt2|Hge2].
    - exists m'. split; [|done]. destruct Hp2 as [E|]; [|done].
      apply (f_equal length) in E. rewrite length_fbytes in E. cbn in E. lia.
    - replace (n - (tot + m)) with 0 in * by lia. change (fbytes (img s) ip (off + m) 0) with (@nil Z) in *.
      rewrite (right_id_L [] (++)) in Hput. exists m1. split; [|congruence]. destruct d; done. }
  destruct Hrest as (m2 & Hput2 & Em2').
  destruct (IH (dst_add d m) (off + m) n (tot + m) (acc ++ fbytes (img s) ip off m) s3 m2) as (s4 & Hr4 & [Ht4 Hm4 Hf4 _]);
    [done|by rewrite Ei3|done|by rewrite Ec3|rewrite (log_frame_me _ s3 me Hf03); done|rewrite Em3; by apply dst_ok_add|lia| |lia| |done|].
  { intros Hlt2. specialize (Hf Hlt). destruct Hnext as [|[-> Hfull]]; lia. }
  { intros k Hk. destruct (Hmap k ltac:(lia)) as (A1 & A2 & A3). split_and!; [lia|lia| | |done];
      unfold baddr in *; rewrite ?Himg; lia. }
  exists s4. split.
  - rewrite Hr4, Hfb, Esplit. by rewrite (assoc_L (++)).
  - destruct (Z.ltb_spec tot n); [|lia]. split; [done| | |set_solver].
    + intros y. by rewrite Hm4.
    + rewrite Em3, Em2' in Hf4. eapply log_frame_trans; [|exact Hf4].
      apply (log_frame_mem (fun _ => m')) in Hf03. exact Hf03.
Qed.
Lemma rw_fuel_enough off n :
  0 <= n -> off mod Z.of_nat BSIZE + n <= Z.of_nat (rw_fuel n) * Z.of_nat BSIZE.
Proof.
  intros Hn. unfold rw_fuel. unfold BSIZE. change (Z.of_nat 1024) with 1024.
  pose proof (Z.mod_pos_bound off 1024). pose proof (Z.div_pos n 1024 Hn). rewrite Z2Nat.id by lia.
  pose proof (Z.div_mod n 1024). pose proof (Z.mod_pos_bound n 1024). lia.
Qed.

(** The number of bytes a read of [n] at [off] yields. *)
Definition read_len (ip : inode) (off n : Z) : Z :=
  if i_size ip <? off then 0 else Z.min n (i_size ip - off).

Lemma readi_spec c s i ip me pr d off n m' :
  tx ∅ c s -> k_icache s !! i = Some ip -> i_dev ip = 1 -> 0 <= i_size ip ->
  k_cur s = Some me -> k_procs s !! me = Some pr -> dst_ok (k_mem s) (p_pagetable pr) d ->
  0 <= off -> 0 <= n -> off + n < 2 ^ 32 ->
  let k := read_len ip off n in
  (forall o, off <= o < off + k -> mapped (img s) ip (o / Z.of_nat BSIZE)) ->
  put_dst (p_pagetable pr) d (fbytes (img s) ip off k) (k_mem s) = Some m' ->
  exists s', readi i d off n s = Ret (k, fbytes (img s) ip off k) s' /\
    txs ∅ c (img s) (set_k_mem (fun _ => if 0 <? k then m' else k_mem s) s) s'.
Proof.
  intros Ht Hip Hdev Hsz Hc Hp Hd Ho Hn Hw k Hmap Hput.
  unfold readi. rewrite (bind_Ret _ _ _ _ _ (get_inode_ok _ _ _ Hip)).
  rewrite (u32_small (off + n)) by lia. destruct (Z.ltb_spec (off + n) off); [lia|].
  unfold k, read_len in *. destruct (Z.ltb_spec (i_size ip) off) as [Hlt|Hge]; cbn [orb].
  - exists s. split; [done|]. by apply txs_refl.
  - cbv zeta. set (k' := if i_size ip <? off + n then i_size ip - off else n).
    assert (Ek : k' = Z.min n (i_size ip - off)) by (unfold k'; destruct (Z.ltb_spec (i_size ip) (off + n)); lia).
    destruct (readi_loop_spec i ip me pr c (rw_fuel k') d off k' 0 [] s m') as (s' & Hr & Hs);
      [done|done|done|done|done|done|done| |lia|rewrite Z.sub_0_r, Ek; done|rewrite Z.sub_0_r, Ek; done|].
    { intros _. rewrite Z.sub_0_r. apply rw_fuel_enough. lia. }
    rewrite Z.sub_0_r in Hr. rewrite Hr. cbn [app]. rewrite Ek in Hs |- *. by exists s'.
Qed.

(** C19. readi reads the file.  For a cached inode whose blocks are allocated up to its
    size, and a destination that can take them (user memory through the caller's page
    table, physical memory, or a local variable), readi returns the number of bytes
    between [off] and the end of the file, at most [n], and delivers exactly the
    file's bytes from [off] on, gathered over direct and indirect blocks; beyond the
    destination it changes neither the image, nor the inodes, nor memory. *)
Theorem readi_correct c s i ip me pr d off n m' :
  tx ∅ c s -> k_icache s !! i = Some ip -> i_dev ip = 1 -> 0 <= i_size ip ->
  k_cur s = Some me -> k_procs s !! me = Some pr -> dst_ok (k_mem s) (p_pagetable pr) d ->
  0 <= off -> 0 <= n -> off + n < 2 ^ 32 ->
  let k := read_len ip off n in
  (forall o, off <= o < off + k -> mapped (img s) ip (o / Z.of_nat BSIZE)) ->
  put_dst (p_pagetable pr) d (fbytes (img s) ip off k) (k_mem s) = Some m' ->
  exists s', readi i d off n s = Ret (k, fbytes (img s) ip off k) s' /\
    tx ∅ c s' /\ (forall b, img s' b = img s b) /\ k_icache s' = k_icache s /\
    k_mem s' = (if 0 <? k then m' else k_mem s) /\
    match d with ToUser va => ubytes (k_mem s') (p_pagetable pr) va (Z.to_nat k) = Some (fbytes (img s) ip off k) | _ => True end.
Proof.
  intros Ht Hip Hdev Hsz Hc Hp Hd Ho Hn Hw k Hmap Hput.
  destruct (readi_spec c s i ip me pr d off n m') as (s' & Hr & [Ht' Hm' Hf' _]); try done. exists s'.
  pose proof (log_frame_fs _ _ Hf') as [Ei _ Em _ _ _]. kcbn in Ei. kcbn in Em.
  split_and!; [done|done|done|done|done|]. destruct d as [va| |]; [|done|done].
  rewrite Em. fold k. destruct (Z.ltb_spec 0 k) as [Hk|Hk].
  - destruct Hd as (T1 & T0 & Ha). destruct (ustore_spec _ _ _ _ _ _ _ Ha Hput) as (_ & Hb & _).
    rewrite length_fbytes in Hb. done.
  - unfold fbytes. rewrite seqZ_nil by lia. replace (Z.to_nat k) with 0%nat by lia. done.
Qed.

(** *** The source of a write *)
Definition src_bytes (pt : Z) (x : copy_src) (n : Z) (m : gmap Z Z) : option (list Z) :=
  match x with
  | FromUser va => ubytes m pt va (Z.to_nat n)
  | FromLocal bs => if (Z.to_nat n <=? length bs)%nat then Some (take (Z.to_nat n) bs) else None
  end.
Definition src_ok (m : gmap Z Z) (pt : Z) (x : copy_src) : Prop :=
  match x with FromUser va => exists T1 T0, pt_inv m pt T1 T0 | FromLocal _ => True end.

Lemma src_bytes_length pt x n m l : 0 <= n -> src_bytes pt x n m = Some l -> length l = Z.to_nat n.
Proof.
  intros Hn. destruct x as [va|bs]; cbn [src_bytes].
  - apply ubytes_length.
  - destruct (Nat.leb_spec (Z.to_nat n) (length bs)); [|done]. intros [= <-]. rewrite length_take. lia.
Qed.

Lemma src_bytes_split pt x n k m l :
  0 < k <= n -> src_bytes pt x n m = Some l ->
  src_bytes pt x k m = Some (take (Z.to_nat k) l) /\
  (k = n \/ src_bytes pt (src_add x k) (n - k) m = Some (drop (Z.to_nat k) l)).
Proof.
  intros Hk. destruct x as [va|bs]; cbn [src_bytes src_add].
  - replace (Z.to_nat n) with (Z.to_nat k + Z.to_nat (n - k))%nat by lia. rewrite ubytes_app.
    destruct (ubytes m pt va (Z.to_nat k)) as [l1|] eqn:E1; [|done].
    destruct (ubytes m pt (va + Z.of_nat (Z.to_nat k)) (Z.to_nat (n - k))) as [l2|] eqn:E2; [|done].
    intros [= <-]. pose proof (ubytes_length _ _ _ _ _ E1) as L1.
    rewrite take_app_length', drop_app_length' by done. split; [done|].
    destruct (decide (k = n)) as [|Hne]; [by left|right]. rewrite Z2Nat.id in E2 by lia.
    rewrite u64_va; [done|]. destruct (Z.to_nat (n - k)) as [|q] eqn:Eq; [lia|]. cbn [ubytes] in E2. unfold ubyte in E2.
    destruct (uaddr m pt (va + k)) eqn:Ea; [|done]. by eapply uaddr_range.
  - destruct (Nat.leb_spec (Z.to_nat n) (length bs)); [|done]. intros [= <-].
    destruct (Nat.leb_spec (Z.to_nat k) (length bs)); [|lia]. split; [rewrite take_take; do 2 f_equal; lia|].
    right. rewrite length_drop. destruct (Nat.leb_spec (Z.to_nat (n - k)) (length bs - Z.to_nat k)); [|lia].
    f_equal. rewrite skipn_firstn_comm. f_equal. lia.
Qed.

Lemma either_copyin_run x n s me pr l :
  k_cur s = Some me -> k_procs s !! me = Some pr -> src_ok (k_mem s) (p_pagetable pr) x -> 0 < n ->
  src_bytes (p_pagetable pr) x n (k_mem s) = Some l -> either_copyin x n s = Ret (0, l) s.
Proof.
  intros Hc Hp Hok Hn Hsrc. unfold either_copyin. rewrite (bind_myproc _ _ _ Hc).
  destruct x as [va|bs]; cbn [src_bytes src_ok] in *.
  - destruct Hok as (T1 & T0 & Hi). rewrite (bind_Ret _ _ _ _ _ (pagetable_of_ok _ _ _ Hp)).
    assert (Hva : 0 <= va).
    { destruct (Z.to_nat n) as [|q] eqn:Eq; [lia|]. cbn [ubytes] in Hsrc. unfold ubyte in Hsrc.
      destruct (uaddr (k_mem s) (p_pagetable pr) va) eqn:Ea; [|done]. apply uaddr_range in Ea. lia. }
    pose proof (copyin_loop_spec (p_pagetable pr) T1 T0 (copy_fuel n) va n [] s Hi Hva) as Hr.
    unfold copied in Hr. rewrite Hsrc in Hr. apply Hr. intros _. apply copy_fuel_enough. lia.
  - destruct (Nat.leb_spec (Z.to_nat n) (length bs)); [|done]. by injection Hsrc as <-.
Qed.
(** *** writei *)
Abbreviation B := (Z.of_nat BSIZE).

(** [I'] is [I] with the bytes [bs] stored from file offset [off] on, block [bn] of the
    file being block [A bn] of the disk. *)
Record written (A : Z -> Z) (off : Z) (bs : list Z) (I I' : image) : Prop := mkWritten {
  wr_in : forall (k : nat) b, bs !! k = Some b ->
    I' (A ((off + Z.of_nat k) / B)) !! Z.to_nat ((off + Z.of_nat k) mod B) = Some b;
  wr_out : forall x j, (forall k : nat, (k < length bs)%nat ->
      ~ (A ((off + Z.of_nat k) / B) = x /\ Z.to_nat ((off + Z.of_nat k) mod B) = j)) ->
    I' x !! j = I x !! j }.

Lemma written_nil A off I : written A off [] I I.
Proof. split; [intros k b Hk; by destruct k|done]. Qed.

Lemma written_ext A off bs I I1 I2 : (forall x, I1 x = I2 x) -> written A off bs I I1 -> written A off bs I I2.
Proof. intros E [H1 H2]. split; intros; rewrite <- E; auto. Qed.

Lemma written_ext_l A off bs I I' I2 : (forall x, I x = I' x) -> written A off bs I I2 -> written A off bs I' I2.
Proof. intros E [H1 H2]. split; intros; rewrite <- ?E; auto. Qed.

Lemma written_block A off bs I :
  0 <= off -> off mod B + Z.of_nat (length bs) <= B -> length (I (A (off / B))) = BSIZE ->
  written A off bs I (put (A (off / B)) (splice (Z.to_nat (off mod B)) bs (I (A (off / B)))) I).
Proof.
  intros Ho Hle Hlen. pose proof (Z.mod_pos_bound off B eq_refl) as Hm. split.
  - intros k b Hk. pose proof (lookup_lt_Some _ _ _ Hk).
    destruct (off_block off (Z.of_nat k)) as [-> ->]; [done|lia|lia|]. rewrite put_eq.
    rewrite lookup_splice_in by lia. rewrite <- Hk. f_equal. lia.
  - intros x j Hno. unfold put. case_decide as E; [|done]. subst x.
    apply lookup_splice_out; [lia|]. destruct (decide (j < Z.to_nat (off mod B) \/ Z.to_nat (off mod B) + length bs <= j)%nat); [done|].
    exfalso. apply (Hno (j - Z.to_nat (off mod B))%nat); [lia|].
    destruct (off_block off (Z.of_nat (j - Z.to_nat (off mod B)))) as [-> ->]; [done|lia|lia|]. split; [done|lia].
Qed.

Lemma written_app A off l1 l2 I I1 I2 :
  0 <= off ->
  (forall o o', off <= o < off + Z.of_nat (length l1 + length l2) -> off <= o' < off + Z.of_nat (length l1 + length l2) ->
     A (o / B) = A (o' / B) -> o / B = o' / B) ->
  written A off l1 I I1 -> written A (off + Z.of_nat (length l1)) l2 I1 I2 -> written A off (l1 ++ l2) I I2.
Proof.
  intros Ho Hinj [In1 Out1] [In2 Out2]. split.
  - intros k b Hk. apply lookup_app_Some in Hk as [Hk|[Hk1 Hk2]].
    + rewrite Out2; [by apply In1|]. intros k' Hk' [E1 E2]. pose proof (lookup_lt_Some _ _ _ Hk).
      apply Hinj in E1; [|lia|lia].
      pose proof (Z.div_mod (off + Z.of_nat (length l1) + Z.of_nat k') B ltac:(done)).
      pose proof (Z.div_mod (off + Z.of_nat k) B ltac:(done)).
      pose proof (Z.mod_pos_bound (off + Z.of_nat (length l1) + Z.of_nat k') B eq_refl).
      pose proof (Z.mod_pos_bound (off + Z.of_nat k) B eq_refl). unfold BSIZE in *. lia.
    + specialize (In2 (k - length l1)%nat b Hk2).
      replace (off + Z.of_nat (length l1) + Z.of_nat (k - length l1)) with (off + Z.of_nat k) in In2 by lia. done.
  - intros x j Hno. rewrite Out2, Out1; [done| |].
    + intros k Hk. apply Hno. rewrite length_app. lia.
    + intros k Hk. specialize (Hno (length l1 + k)%nat).
      replace (off + Z.of_nat (length l1 + k)) with (off + Z.of_nat (length l1) + Z.of_nat k) in Hno by lia.
      apply Hno. rewrite length_app. lia.
Qed.

Lemma baddr_put I ip bn a data : a ≠ iaddr ip NDIRECT -> baddr (put a data I) ip bn = baddr I ip bn.
Proof. intros Hne. unfold baddr. by rewrite put_ne. Qed.

Lemma baddr_ext I I' ip bn : (forall x, I x = I' x) -> baddr I ip bn = baddr I' ip bn.
Proof. intros E. unfold baddr. by rewrite E. Qed.

(** The blocks of a range that may be overwritten in place. *)
Record writable (I : image) (ip : inode) (off n : Z) : Prop := mkWritable {
  wb_mapped : forall o, off <= o < off + n -> mapped I ip (o / B);
  wb_home : forall o, off <= o < off + n -> home_blk (baddr I ip (o / B));
  wb_data : forall o, off <= o < off + n -> baddr I ip (o / B) ≠ iaddr ip NDIRECT;
  wb_inj : forall o o', off <= o < off + n -> off <= o' < off + n ->
    baddr I ip (o / B) = baddr I ip (o' / B) -> o / B = o' / B }.

Lemma writable_sub I ip off n k : 0 <= k <= n -> writable I ip off n -> writable I ip (off + k) (n - k).
Proof. intros Hk [W1 W2 W3 W4]. split; intros; [apply W1|apply W2|apply W3|apply W4]; lia || done. Qed.

Lemma writable_same I I' ip off n :
  (forall bn, baddr I' ip bn = baddr I ip bn) -> writable I ip off n -> writable I' ip off n.
Proof.
  intros E [W1 W2 W3 W4]. split.
  - intros o Ho. destruct (W1 o Ho) as (A1 & A2 & A3). split_and!; rewrite ?E; lia || done.
  - intros o Ho. rewrite E. by apply W2.
  - intros o Ho. rewrite E. by apply W3.
  - intros o o' Ho Ho'. rewrite !E. by apply W4.
Qed.

Lemma writei_loop_spec i ip me pr c : forall fuel q x off n tot s l,
  tx ∅ (q + c) s -> k_icache s !! i = Some ip -> i_dev ip = 1 ->
  k_cur s = Some me -> k_procs s !! me = Some pr -> src_ok (k_mem s) (p_pagetable pr) x ->
  0 <= off -> tot <= n ->
  (tot < n -> off mod B + (n - tot) <= Z.of_nat fuel * B) ->
  (tot < n -> off mod B + (n - tot) <= Z.of_nat q * B) ->
  writable (img s) ip off (n - tot) ->
  src_bytes (p_pagetable pr) x (n - tot) (k_mem s) = Some l ->
  exists s' I', writei_loop fuel i x off n tot s = Ret (n, off + (n - tot)) s' /\
    written (baddr (img s) ip) off l (img s) I' /\ (forall bn, baddr I' ip bn = baddr (img s) ip bn) /\
    txs ∅ c I' s s'.
Proof.
  induction fuel as [|fuel IH]; intros q x off n tot s l Ht Hip Hdev Hc Hp Hsrc Ho Hn Hf Hq Hw Hl;
    cbn [writei_loop]; destruct (Z.leb_spec n tot) as [Hle|Hlt].
  1,3: assert (n = tot) as -> by lia; rewrite Z.sub_diag in *;
    pose proof (src_bytes_length (p_pagetable pr) x 0 (k_mem s) l ltac:(lia) Hl) as Hlen; destruct l; [|done];
    exists s, (img s); rewrite Z.add_0_r; split_and!; [done|apply written_nil|done|];
    apply txs_refl; apply (tx_weaken _ (q + c)); [done|lia].
  { pose proof (Z.mod_pos_bound off B eq_refl). lia. }
  specialize (Hf Hlt). specialize (Hq Hlt). pose proof (Z.mod_pos_bound off B eq_refl) as Hmod.
  destruct q as [|q]; [lia|].
  destruct (block_step off (n - tot) Ho ltac:(lia)) as (Hm & Hin & Hnext). set (m := Z.min _ _) in *.
  set (a := baddr (img s) ip (off / B)).
  destruct (wb_mapped _ _ _ _ Hw off ltac:(lia)) as (Hbn & Ha & Hind). fold a in Ha.
  destruct (bmap_mapped (S q + c) s i ip (off / B) Ht Hip Hdev) as (s1 & Hr1 & [Ht1 Hm1 Hf1 _]); [done|].
  run_ret Hr1. fold a. destruct (Z.eqb_spec a 0); [lia|].
  pose proof (log_frame_fs _ _ Hf1) as [Ei1 _ Em1 _ Ec1 _].
  rewrite (bind_Ret _ _ _ _ _ (get_inode_ok i ip s1 ltac:(by rewrite Ei1))), Hdev. unfold breadv.
  destruct (read_block ∅ (S q + c) s1 a Ht1) as (bp & y & s2 & Hr2 & _ & _ & Ht2 & Hi2 & Hh2 & Hm2 & _ & Hf2);
    [lia|apply unheld_empty|by apply Nat.leb_le|].
  run_ret Hr2. cbv zeta.
  pose proof (log_frame_fs _ _ Hf2) as [Ei2 _ Em2 _ Ec2 _].
  assert (Hf12 : log_frame s s2) by by eapply log_frame_trans.
  destruct (src_bytes_split (p_pagetable pr) x (n - tot) m (k_mem s) l ltac:(lia) Hl) as [Hl1 Hl2].
  pose proof (src_bytes_length (p_pagetable pr) x m (k_mem s) _ ltac:(lia) Hl1) as Hlen1.
  rewrite (bind_Ret _ _ _ _ _ (either_copyin_run x m s2 me pr (take (Z.to_nat m) l)
    ltac:(by rewrite Ec2, Ec1) ltac:(by rewrite (log_frame_me s s2 me)) ltac:(by rewrite Em2, Em1) ltac:(lia) ltac:(by rewrite Em2, Em1))).
  cbn [fst snd Z.eqb Z.opp].
  set (g := splice (Z.to_nat (off mod B)) (take (Z.to_nat m) l)).
  assert (Hia : img s2 a = img s a) by by rewrite Hm2.
  assert (Hlena : length (img s a) = BSIZE) by by eapply tx_length.
  destruct (write_block ({[bp]} ∪ ∅) (q + c) s2 bp a g) as (s3 & Hr3 & [Ht3 Hm3 Hf3 Hk3]);
    [done|set_solver|done|by apply (wb_home _ _ _ _ Hw); lia| |].
  { rewrite Hia. unfold g. rewrite length_splice; [done|]. rewrite Hlen1, Hlena. lia. }
  rewrite Hr3. destruct (release_block ∅ (q + c) s3 bp a Ht3 Hi2 (Hk3 bp a ltac:(set_solver) Hh2)) as (s4 & Hr4 & [Ht4 Hm4 Hf4 _]).
  run_ret Hr4.
  assert (Hf04 : log_frame s s4) by (eapply log_frame_trans; [exact Hf12|]; by eapply log_frame_trans).
  pose proof (log_frame_fs _ _ Hf04) as [Ei4 _ Em4 _ Ec4 _].
  assert (Himg4 : forall z, img s4 z = put a (g (img s a)) (img s) z).
  { intros z. rewrite Hm4, Hm3, Hia. apply put_ext. intros w. by rewrite Hm2. }
  assert (Hba4 : forall bn, baddr (img s4) ip bn = baddr (img s) ip bn).
  { intros bn. rewrite (baddr_ext _ _ _ _ Himg4). apply baddr_put. apply (wb_data _ _ _ _ Hw). lia. }
  assert (Hw1 : written (baddr (img s) ip) off (take (Z.to_nat m) l) (img s) (img s4)).
  { eapply (written_ext _ _ _ _ (put a (g (img s a)) (img s))); [intros z; by rewrite Himg4|].
    apply written_block; [done| |done]. rewrite Hlen1. lia. }
  assert (Hlen : length l = Z.to_nat (n - tot)) by (eapply src_bytes_length; [|done]; lia).
  assert (Hrest : exists l2, drop (Z.to_nat m) l = l2 /\ src_bytes (p_pagetable pr) (src_add x m) (n - (tot + m)) (k_mem s4) = Some l2).
  { exists (drop (Z.to_nat m) l). split; [done|]. rewrite Em4.
    replace (n - (tot + m)) with (n - tot - m) by lia. destruct Hl2 as [E|]; [|done].
    rewrite E, Z.sub_diag, drop_ge by lia. destruct x; [done|]. cbn. done. }
  destruct Hrest as (l2 & El2 & Hl2').
  destruct (IH q (src_add x m) (off + m) n (tot + m) s4 l2) as (s5 & I5 & Hr5 & Hw5 & Hb5 & Hs5);
    [done|by rewrite Ei4|done|by rewrite Ec4|by rewrite (log_frame_me s s4 me)|rewrite Em4; by destruct x|lia|lia
    |intros; destruct Hnext as [|[-> ?]]; lia|intros; destruct Hnext as [|[-> ?]]; lia| |done|].
  { eapply writable_same; [exact Hba4|]. replace (n - (tot + m)) with (n - tot - m) by lia. apply writable_sub; [lia|done]. }
  exists s5, I5. split_and!.
  - rewrite Hr5. do 2 f_equal. lia.
  - rewrite <- (take_drop (Z.to_nat m) l), El2. eapply (written_app _ _ _ _ _ (img s4)).
    + done.
    + rewrite Hlen1, <- El2, length_drop, Hlen. intros o o' Ho1 Ho2. apply (wb_inj _ _ _ _ Hw); lia.
    + done.
    + rewrite Hlen1, Z2Nat.id by lia. destruct Hw5 as [W1 W2]. split.
      * intros k b Hk. rewrite <- (W1 k b Hk). by rewrite Hba4.
      * intros z j Hno. apply W2. intros k Hk. rewrite Hba4. by apply Hno.
  - intros bn. by rewrite Hb5, Hba4.
  - destruct Hs5 as [T5 M5 F5 _]. split; [done|done|by eapply log_frame_trans|set_solver].
Qed.
Lemma writable_range I ip off n off' n' :
  off <= off' -> off' + n' <= off + n -> writable I ip off n -> writable I ip off' n'.
Proof. intros H1 H2 [W1 W2 W3 W4]. split; intros; [apply W1|apply W2|apply W3|apply W4]; lia || done. Qed.

(** The file after a write. *)
Lemma written_fbyte A I I' ip ip' off l o :
  written A off l I I' -> (forall bn, baddr I ip bn = A bn) -> (forall bn, baddr I' ip' bn = A bn) ->
  (forall o', off <= o' < off + Z.of_nat (length l) -> A (o / B) = A (o' / B) -> o / B = o' / B) ->
  0 <= off -> 0 <= o ->
  fbyte I' ip' o = if decide (off <= o < off + Z.of_nat (length l))
                   then default 0 (l !! Z.to_nat (o - off)) else fbyte I ip o.
Proof.
  intros [Win Wout] HA HA' Hinj Ho Ho'. unfold fbyte. rewrite HA, HA'. case_decide as Hr.
  - destruct (lookup_lt_is_Some_2 l (Z.to_nat (o - off))) as [b Hb]; [lia|]. rewrite Hb.
    specialize (Win _ _ Hb). rewrite Z2Nat.id in Win by lia. replace (off + (o - off)) with o in Win by lia.
    by rewrite Win.
  - rewrite Wout; [done|]. intros k Hk [E1 E2]. symmetry in E1. apply Hinj in E1; [|lia].
    pose proof (Z.div_mod o B ltac:(done)). pose proof (Z.div_mod (off + Z.of_nat k) B ltac:(done)).
    pose proof (Z.mod_pos_bound o B eq_refl). pose proof (Z.mod_pos_bound (off + Z.of_nat k) B eq_refl).
    unfold BSIZE in *. lia.
Qed.

Lemma set_icache_id s : set_k_icache (fun _ => k_icache s) s = s.
Proof. by destruct s. Qed.

(** The effect of a write whose blocks are allocated. *)
Lemma writei_spec c q s i ip me pr x off n l :
  tx ∅ (q + S c) s -> k_icache s !! i = Some ip -> i_dev ip = 1 -> dinode_ok (dinode_of ip) ->
  inum_ok (k_sb s) (i_inum ip) -> home_blk (IBLOCK (k_sb s) (i_inum ip)) ->
  k_cur s = Some me -> k_procs s !! me = Some pr -> src_ok (k_mem s) (p_pagetable pr) x ->
  0 <= off <= i_size ip -> 0 < n -> off + n <= MAXFILE * B -> off mod B + n <= Z.of_nat q * B ->
  let size := Z.max (i_size ip) (off + n) in
  let ip' := set_i_size (fun _ => size) ip in
  writable (img s) ip 0 size ->
  (forall o, 0 <= o < size -> baddr (img s) ip (o / B) ≠ IBLOCK (k_sb s) (i_inum ip)) ->
  IBLOCK (k_sb s) (i_inum ip) ≠ iaddr ip NDIRECT ->
  src_bytes (p_pagetable pr) x n (k_mem s) = Some l ->
  exists s', writei i x off n s = Ret n s' /\ tx ∅ c s' /\
    k_icache s' = <[i := ip']> (k_icache s) /\
    disk_inode (img s') (k_sb s) (i_inum ip) = dinode_of ip' /\
    (forall bn, baddr (img s') ip' bn = baddr (img s) ip bn) /\
    (forall o, 0 <= o < size -> fbyte (img s') ip' o =
       if decide (off <= o < off + n) then default 0 (l !! Z.to_nat (o - off)) else fbyte (img s) ip o) /\
    log_frame (set_k_icache (fun _ => k_icache s') s) s'.
Proof.
  intros Ht Hip Hdev Hdi Hin Hhome Hc Hp Hsrc Ho Hn Hmax Hq size ip' Hw Hnib Hnind Hl.
  pose proof (do_size _ Hdi) as Hsz. cbn [di_size dinode_of] in Hsz.
  pose proof (src_bytes_length _ _ n _ _ ltac:(lia) Hl) as Hlen.
  unfold writei. rewrite (bind_Ret _ _ _ _ _ (get_inode_ok _ _ _ Hip)).
  assert (HMF : MAXFILE * B = 274432) by reflexivity. rewrite HMF in *.
  rewrite (u32_small (off + n)) by lia.
  destruct (Z.ltb_spec (i_size ip) off); [lia|]. destruct (Z.ltb_spec (off + n) off); [lia|]. cbn [orb].
  destruct (Z.ltb_spec 274432 (off + n)); [lia|].
  destruct (writei_loop_spec i ip me pr (S c) (rw_fuel n) q x off n 0 s l) as (s1 & I1 & Hr1 & Hw1 & Hb1 & [Ht1 Hm1 Hf1 _]);
    [done|done|done|done|done|done|lia|lia| |by rewrite Z.sub_0_r| |by rewrite Z.sub_0_r|].
  { intros _. rewrite Z.sub_0_r. apply rw_fuel_enough. lia. }
  { rewrite Z.sub_0_r. eapply writable_range; [| |exact Hw]; lia. }
  rewrite (bind_Ret _ _ _ _ _ Hr1), upd_inode_run. rewrite Z.sub_0_r.
  pose proof (log_frame_fs _ _ Hf1) as [Ei1 Es1 _ _ _ _].
  set (f := set_i_size _). set (s2 := set_k_icache (alter f i) s1).
  assert (Hip2 : k_icache s2 !! i = Some ip').
  { unfold s2. kcbn. rewrite Ei1, list_lookup_alter_eq, Hip. cbn. f_equal. unfold f, ip', set_i_size. f_equal.
    unfold size. destruct (Z.ltb_spec (i_size ip) (off + n)); lia. }
  assert (Hdi' : dinode_ok (dinode_of ip')) by (destruct Hdi; split; cbn in *; (done || unfold size; lia)).
  assert (Hsb2 : k_sb s2 = k_sb s) by done.
  set (ib := IBLOCK (k_sb s) (i_inum ip)).
  destruct (iupdate_spec ∅ c s2 i ip') as (s3 & Hr3 & [Ht3 Hm3 Hf3 _]);
    [by apply tx_icache|by apply Nat.leb_le|done|done|apply Hdi'|by rewrite Hsb2|apply unheld_empty|].
  rewrite Hsb2 in Hm3. change (i_inum ip') with (i_inum ip) in Hm3. fold ib in Hm3.
  run_ret Hr3.
  assert (Himg2 : forall z, img s2 z = I1 z) by (intros z; unfold s2; by rewrite tx_icache_img).
  assert (Himg3 : forall z, img s3 z = put ib (put_dinode (IINDEX (i_inum ip)) (dinode_of ip') (I1 ib)) I1 z).
  { intros z. rewrite Hm3, Himg2. by apply put_ext. }
  assert (Hlen1 : forall z, length (I1 z) = BSIZE) by (intros z; rewrite <- Hm1; by eapply tx_length).
  pose proof (log_frame_fs _ _ Hf3) as [Ei3 _ _ _ _ _].
  assert (Hba : forall bn, baddr (img s3) ip' bn = baddr (img s) ip bn).
  { intros bn. rewrite (baddr_ext _ _ _ _ Himg3), baddr_put by done. rewrite <- Hb1. reflexivity. }
  exists s3. split_and!.
  - unfold ret. f_equal. unfold i32, signed. rewrite Z.mod_small by lia. change (32 - 1) with 31.
    destruct (Z.ltb_spec n (2 ^ 31)); lia.
  - done.
  - rewrite Ei3. apply list_eq. intros j. destruct (decide (j = i)) as [->|Hne].
    + rewrite Hip2. rewrite list_lookup_insert_eq; [done|]. by eapply lookup_lt_Some.
    + unfold s2. kcbn. rewrite list_lookup_alter_ne, list_lookup_insert_ne, Ei1 by done. done.
  - transitivity (disk_inode (put ib (put_dinode (IINDEX (i_inum ip)) (dinode_of ip') (I1 ib)) I1) (k_sb s) (i_inum ip)).
    + unfold disk_inode. by rewrite Himg3.
    + unfold ib. rewrite disk_inode_put by done. by rewrite decide_True.
  - done.
  - intros o Hor. assert (Z.of_nat (length l) = n) as <- by lia.
    rewrite <- (written_fbyte (baddr (img s) ip) (img s) I1 ip ip off l o); try done; try lia.
    2:{ intros o' Ho'. apply (wb_inj _ _ _ _ Hw); lia. }
    unfold fbyte. rewrite Hba, Hb1, Himg3, put_ne; [done|]. intros E. by apply (Hnib o).
  - apply (log_frame_trans _ (set_k_icache (fun _ => k_icache s3) s1)); [by apply log_frame_icache|].
    pose proof (log_frame_icache (fun _ => k_icache s3) _ _ Hf3) as Hx.
    by rewrite (set_icache_id s3) in Hx.
Qed.
(** C3. What writei writes, readi reads back.  For a cached inode whose blocks are
    allocated, pairwise distinct and outside the inode blocks, a write of [n] bytes at
    an offset within the file returns [n]; the size becomes the larger of the old size
    and the end of the write, in the cached inode and in the dinode on disk; every byte
    of the file outside the range keeps its value; and readi of the range returns the
    bytes of the source.  The transaction pays one log slot for each block touched and
    one for the inode. *)
Theorem writei_readi c q s i ip me pr x off n l :
  tx ∅ (q + S c) s -> k_icache s !! i = Some ip -> i_dev ip = 1 -> dinode_ok (dinode_of ip) ->
  inum_ok (k_sb s) (i_inum ip) -> home_blk (IBLOCK (k_sb s) (i_inum ip)) ->
  k_cur s = Some me -> k_procs s !! me = Some pr -> src_ok (k_mem s) (p_pagetable pr) x ->
  0 <= off <= i_size ip -> 0 < n -> off + n <= MAXFILE * B -> off mod B + n <= Z.of_nat q * B ->
  let size := Z.max (i_size ip) (off + n) in
  let ip' := set_i_size (fun _ => size) ip in
  writable (img s) ip 0 size ->
  (forall o, 0 <= o < size -> baddr (img s) ip (o / B) ≠ IBLOCK (k_sb s) (i_inum ip)) ->
  IBLOCK (k_sb s) (i_inum ip) ≠ iaddr ip NDIRECT ->
  src_bytes (p_pagetable pr) x n (k_mem s) = Some l ->
  exists s' s'', writei i x off n s = Ret n s' /\ tx ∅ c s' /\
    k_icache s' = <[i := ip']> (k_icache s) /\
    disk_inode (img s') (k_sb s) (i_inum ip) = dinode_of ip' /\
    (forall o, 0 <= o < size -> ~ (off <= o < off + n) -> fbyte (img s') ip' o = fbyte (img s) ip o) /\
    readi i ToLocal off n s' = Ret (n, l) s''.
Proof.
  intros Ht Hip Hdev Hdi Hin Hhome Hc Hp Hsrc Ho Hn Hmax Hq size ip' Hw Hnib Hnind Hl.
  destruct (writei_spec c q s i ip me pr x off n l) as (s' & Hr & Ht' & Hi' & Hd' & Hb' & Hf' & Hfr); try done.
  fold size ip' in Hi', Hd', Hb', Hf'.
  pose proof (src_bytes_length _ _ n _ _ ltac:(lia) Hl) as Hlen.
  assert (HMF : MAXFILE * B = 274432) by reflexivity.
  assert (Ek : read_len ip' off n = n) by (unfold read_len; cbn [i_size ip' set_i_size]; unfold size;
    destruct (Z.ltb_spec (Z.max (i_size ip) (off + n)) off); lia).
  assert (Ebs : fbytes (img s') ip' off n = l).
  { apply list_eq. intros k. unfold fbytes. rewrite list_lookup_fmap.
    destruct (decide (k < length l)%nat) as [Hk|Hk].
    - rewrite lookup_seqZ_lt by lia. cbn. rewrite Hf' by (unfold size; lia).
      rewrite decide_True by lia. replace (Z.to_nat (off + Z.of_nat k - off)) with k by lia.
      by destruct (lookup_lt_is_Some_2 l k Hk) as [b ->].
    - rewrite lookup_seqZ_ge, lookup_ge_None_2 by lia. done. }
  assert (Hip' : k_icache s' !! i = Some ip').
  { rewrite Hi'. apply list_lookup_insert_eq. by eapply lookup_lt_Some. }
  assert (Hc' : k_cur s' = Some me) by (rewrite (sf_cur _ _ (log_frame_fs _ _ Hfr)); done).
  assert (Hp' : k_procs s' !! me = Some pr) by (rewrite (log_frame_me _ _ _ Hfr Hc); done).
  destruct (readi_spec c s' i ip' me pr ToLocal off n (k_mem s')) as (s'' & Hr' & _); try done.
  - unfold ip'. cbn. lia.
  - lia.
  - lia.
  - lia.
  - rewrite Ek. intros o Hor. unfold mapped. rewrite Hb'. apply (wb_mapped _ _ _ _ Hw). unfold size. lia.
  - exists s', s''. rewrite Ek, Ebs in Hr'. split_and!; try done.
    intros o Hor Hnr. rewrite Hf' by done. by rewrite decide_False by done.
Qed.
End FsSpec.
