(* ===== verification/DirSpec.v ===== *)
(** * The inode cache and directories

    iget keeps one slot per inode and counts its references; dirlookup and dirlink are a
    lookup and an insertion in the list of entries that the directory's bytes encode; the
    path walk of dnamex follows the elements of the path. *)

From stdpp Require Import base list gmap numbers.
From S2P Require Import Prelude Params Machine Spinlock Sched CString Bio BioSpec Block Crash Log LogSpec Tx Vm VmSpec Fs FsSpec.

(** ** The inode cache *)

Definition icaches (dev inum : Z) (ip : inode) : Prop := 0 < i_ref ip /\ i_dev ip = dev /\ i_inum ip = inum.
#[global] Instance icaches_dec dev inum ip : Decision (icaches dev inum ip).
Proof. unfold icaches. apply _. Defined.
Definition unused (ip : inode) : Prop := i_ref ip = 0.
#[global] Instance unused_dec ip : Decision (unused ip).
Proof. unfold unused. apply _. Defined.

(** The references held on an inode of the disk. *)
Definition iref (cs : list inode) (dev inum : Z) : Z :=
  match list_find (icaches dev inum) cs with Some (_, ip) => i_ref ip | None => 0 end.

(** The invariant of the cache: NINODE slots, counts are never negative, and an inode
    with references is in one slot only. *)
Record icache_ok (cs : list inode) : Prop := mkIcacheOk {
  ic_length : length cs = NINODE;
  ic_refs : Forall (fun ip => 0 <= i_ref ip) cs;
  ic_inj : forall i j ip jp, cs !! i = Some ip -> cs !! j = Some jp -> 0 < i_ref ip -> 0 < i_ref jp ->
    i_dev ip = i_dev jp -> i_inum ip = i_inum jp -> i = j }.

(** The slot iget chooses, with the cache it leaves: the slot that caches the inode, or
    the first unused one. *)
Definition iclaim (dev inum : Z) (ip : inode) : inode :=
  set_i_valid (fun _ => false) (set_i_ref (fun _ => 1) (set_i_inum (fun _ => inum) (set_i_dev (fun _ => dev) ip))).
Definition iget_pure (dev inum : Z) (cs : list inode) : option (nat * list inode) :=
  match list_find (icaches dev inum) cs with
  | Some (i, ip) => Some (i, <[i := set_i_ref (fun r => r + 1) ip]> cs)
  | None => match list_find unused cs with
            | Some (i, ip) => Some (i, <[i := iclaim dev inum ip]> cs)
            | None => None
            end
  end.

Lemma iget_scan_run dev inum s : forall suf pre e,
  k_icache s = pre ++ suf ->
  iget_scan (seq (length pre) (length suf)) dev inum e s =
    Ret (match list_find (icaches dev inum) suf with
         | Some (i, _) => inl (length pre + i)%nat
         | None => inr (match e with
                        | Some _ => e
                        | None => (fun x => (length pre + fst x)%nat) <$> list_find unused suf
                        end)
         end) s.
Proof.
  induction suf as [|ip suf IH]; intros pre e Hs; cbn [length seq iget_scan list_find].
  { by destruct e. }
  rewrite (bind_Ret _ _ _ ip s).
  2:{ apply get_inode_ok. rewrite Hs, lookup_app_r, Nat.sub_diag by done. done. }
  specialize (IH (pre ++ [ip])). rewrite <- app_assoc, length_app, Nat.add_1_r in IH.
  destruct (decide (icaches dev inum ip)) as [(H1 & H2 & H3)|Hn].
  - rewrite (proj2 (Z.ltb_lt _ _) H1), (proj2 (Z.eqb_eq _ _) H2), (proj2 (Z.eqb_eq _ _) H3). cbn [andb].
    by rewrite Nat.add_0_r.
  - assert ((0 <? i_ref ip) && (i_dev ip =? dev) && (i_inum ip =? inum) = false) as ->.
    { destruct (Z.ltb_spec 0 (i_ref ip)); [|done]. destruct (Z.eqb_spec (i_dev ip) dev); [|done].
      destruct (Z.eqb_spec (i_inum ip) inum); [|done]. by destruct Hn. }
    rewrite IH by done. f_equal. destruct (list_find (icaches dev inum) suf) as [[i x]|]; cbn; [f_equal; lia|].
    f_equal. destruct e as [e|]; [done|]. destruct (decide (unused ip)) as [Hu|Hu].
    + unfold unused in Hu. rewrite (proj2 (Z.eqb_eq _ _) Hu). cbn. f_equal. lia.
    + unfold unused in Hu. rewrite (proj2 (Z.eqb_neq _ _) Hu). destruct (list_find unused suf) as [[i x]|]; cbn; [f_equal; lia|done].
Qed.

Lemma alter_insert {A} (f : A -> A) i x (l : list A) : l !! i = Some x -> alter f i l = <[i := f x]> l.
Proof.
  intros Hx. apply list_eq. intros j. destruct (decide (i = j)) as [<-|Hne].
  - rewrite list_lookup_alter_eq, Hx, list_lookup_insert_eq; [done|]. by eapply lookup_lt_Some.
  - by rewrite list_lookup_alter_ne, list_lookup_insert_ne.
Qed.

Section Icache.
Context {LK : Linker}.

Lemma iget_run dev inum s :
  calm s -> length (k_icache s) = NINODE ->
  iget dev inum s = match iget_pure dev inum (k_icache s) with
                    | Some (i, cs) => Ret i (set_k_icache (fun _ => cs) s)
                    | None => Panic "iget: no inodes" (set_k_hart (hart_acquire LkIcache) s)
                    end.
Proof.
  intros Hc Hlen. unfold iget. lock_step Hc.
  set (s1 := set_k_hart _ s).
  assert (Hrel : forall f, release LkIcache (set_k_icache f s1) = Ret tt (set_k_icache f s)).
  { intros f. rewrite (release_after _ s); [|apply Hc|apply calm_fresh, Hc|done]. keq. }
  erewrite bind_Ret by (rewrite <- Hlen; apply (iget_scan_run dev inum s1 (k_icache s) [] None eq_refl)).
  unfold iget_pure. destruct (list_find (icaches dev inum) (k_icache s)) as [[i ip]|] eqn:Ef.
  - apply list_find_Some in Ef as (Hi & _). cbn [length Nat.add]. rewrite upd_inode_run.
    rewrite (bind_Ret _ _ _ _ _ (Hrel _)). unfold ret. f_equal. unfold set_k_icache. f_equal. by apply alter_insert.
  - destruct (list_find unused (k_icache s)) as [[i ip]|] eqn:Eu; cbn [fmap option_fmap option_map fst length Nat.add]; [|done].
    apply list_find_Some in Eu as (Hi & _). rewrite !upd_inode_run.
    match goal with |- bind _ _ ?x = _ =>
      assert (x = set_k_icache (fun _ => <[i := iclaim dev inum ip]> (k_icache s)) s1) as -> end.
    { unfold set_k_icache, s1. kcbn. f_equal. apply list_eq. intros j. destruct (decide (i = j)) as [<-|Hne].
      - rewrite !list_lookup_alter_eq, Hi, list_lookup_insert_eq; [done|]. by eapply lookup_lt_Some.
      - by rewrite !list_lookup_alter_ne, list_lookup_insert_ne. }
    by rewrite (bind_Ret _ _ _ _ _ (Hrel _)).
Qed.

(** The references of an inode, by its slot. *)
Lemma iref_slot cs dev inum i ip : icache_ok cs -> cs !! i = Some ip -> icaches dev inum ip -> iref cs dev inum = i_ref ip.
Proof.
  intros [_ _ Hinj] Hi (H1 & H2 & H3). unfold iref.
  destruct (list_find (icaches dev inum) cs) as [[j jp]|] eqn:E.
  - apply list_find_Some in E as (Hj & (G1 & G2 & G3) & _).
    assert (i = j) as -> by (eapply Hinj; [done|done|done|done|congruence|congruence]). congruence.
  - apply list_find_None in E. rewrite Forall_lookup in E. by destruct (E _ _ Hi).
Qed.

Lemma iref_none cs dev inum : (forall i ip, cs !! i = Some ip -> ~ icaches dev inum ip) -> iref cs dev inum = 0.
Proof.
  intros Hn. unfold iref. destruct (list_find (icaches dev inum) cs) as [[j jp]|] eqn:E; [|done].
  apply list_find_Some in E as (Hj & Hc & _). by destruct (Hn _ _ Hj).
Qed.

Lemma iref_cases cs dev inum : icache_ok cs ->
  (exists i ip, cs !! i = Some ip /\ icaches dev inum ip /\ iref cs dev inum = i_ref ip) \/
  ((forall i ip, cs !! i = Some ip -> ~ icaches dev inum ip) /\ iref cs dev inum = 0).
Proof.
  intros Hok. destruct (list_find (icaches dev inum) cs) as [[j jp]|] eqn:E.
  - apply list_find_Some in E as (Hj & Hc & _). left. exists j, jp. split_and!; [done|done|by eapply iref_slot].
  - apply list_find_None in E. rewrite Forall_lookup in E. right. split; [exact E|by apply iref_none].
Qed.

(** Storing an inode in slot [i] that carries one more reference to what it caches. *)
Lemma icache_store cs i ip ip' :
  icache_ok cs -> cs !! i = Some ip -> 0 < i_ref ip' ->
  i_ref ip' = i_ref ip + 1 -> (0 < i_ref ip -> i_dev ip' = i_dev ip /\ i_inum ip' = i_inum ip) ->
  (i_ref ip = 0 -> forall j jp, cs !! j = Some jp -> ~ icaches (i_dev ip') (i_inum ip') jp) ->
  icache_ok (<[i := ip']> cs) /\
  forall d n, iref (<[i := ip']> cs) d n =
    iref cs d n + (if decide (d = i_dev ip' /\ n = i_inum ip') then 1 else 0).
Proof.
  intros [Hlen Hrefs Hinj] Hi Hpos Href Hsame Hnew.
  pose proof (lookup_lt_Some _ _ _ Hi) as Hlt.
  assert (Hip : 0 <= i_ref ip) by (rewrite Forall_lookup in Hrefs; eauto).
  assert (Huniq : forall j jp, cs !! j = Some jp -> j ≠ i -> ~ icaches (i_dev ip') (i_inum ip') jp).
  { intros j jp Hj Hne. destruct (decide (i_ref ip = 0)) as [E|E]; [by eapply Hnew|].
    intros (G1 & G2 & G3). apply Hne. destruct (Hsame ltac:(lia)) as [E1 E2].
    eapply Hinj; [exact Hj|exact Hi|done|lia|congruence|congruence]. }
  assert (Hok' : icache_ok (<[i := ip']> cs)).
  { split; [by rewrite length_insert|apply Forall_insert; [done|lia]|].
    intros a b x y Ha Hb Px Py Ed En.
    destruct (decide (a = i)) as [->|Na], (decide (b = i)) as [->|Nb]; [done| | |].
    - rewrite list_lookup_insert_eq in Ha by done. rewrite list_lookup_insert_ne in Hb by done.
      simplify_eq. exfalso. apply (Huniq b y); [done|done|]. by split_and!.
    - rewrite list_lookup_insert_eq in Hb by done. rewrite list_lookup_insert_ne in Ha by done.
      simplify_eq. exfalso. apply (Huniq a x); [done|done|]. by split_and!.
    - rewrite list_lookup_insert_ne in Ha by done. rewrite list_lookup_insert_ne in Hb by done. eauto. }
  split; [done|]. intros d n. case_decide as E.
  - destruct E as [-> ->]. rewrite (iref_slot _ _ _ i ip' Hok'); [|by apply list_lookup_insert_eq|by split_and!].
    rewrite Href. f_equal. destruct (decide (i_ref ip = 0)) as [E|E].
    + rewrite E. symmetry. by apply iref_none, Hnew.
    + symmetry. destruct (Hsame ltac:(lia)). eapply iref_slot; [by split|done|]. split_and!; [lia|done|done].
  - rewrite Z.add_0_r. destruct (iref_cases cs d n ltac:(by split)) as [(j & jp & Hj & Hcj & ->)|[Hn ->]].
    + assert (j ≠ i). { intros ->. simplify_eq. destruct Hcj as (G1 & G2 & G3). destruct (Hsame G1). apply E. split; congruence. }
      eapply iref_slot; [done|by rewrite list_lookup_insert_ne|done].
    + apply iref_none. intros j jp Hj (G1 & G2 & G3). destruct (decide (j = i)) as [->|Nj].
      * rewrite list_lookup_insert_eq in Hj by done. simplify_eq. by apply E.
      * rewrite list_lookup_insert_ne in Hj by done. apply (Hn _ _ Hj). by split_and!.
Qed.

Lemma iget_pure_spec dev inum cs i cs' :
  icache_ok cs -> iget_pure dev inum cs = Some (i, cs') ->
  icache_ok cs' /\ (exists ip', cs' !! i = Some ip' /\ icaches dev inum ip') /\
  (forall j, j ≠ i -> cs' !! j = cs !! j) /\
  (forall ip, cs !! i = Some ip -> icaches dev inum ip -> cs' !! i = Some (set_i_ref (fun r => r + 1) ip)) /\
  forall d n, iref cs' d n = iref cs d n + (if decide (d = dev /\ n = inum) then 1 else 0).
Proof.
  intros Hok. unfold iget_pure. destruct (list_find (icaches dev inum) cs) as [[k ip]|] eqn:Ef.
  - intros [= -> <-]. apply list_find_Some in Ef as (Hi & (G1 & G2 & G3) & _).
    pose proof (lookup_lt_Some _ _ _ Hi) as Hlt.
    destruct (icache_store cs i ip (set_i_ref (fun r => r + 1) ip) Hok Hi) as [H1 H2]; [cbn; lia|done|done|lia|].
    split_and!; [done| | | |].
    + exists (set_i_ref (fun r => r + 1) ip). split; [by apply list_lookup_insert_eq|]. split_and!; [cbn; lia|done|done].
    + intros j Hj. by apply list_lookup_insert_ne.
    + intros ip2 E _. simplify_eq. by apply list_lookup_insert_eq.
    + intros d n. rewrite H2. cbn [i_dev i_inum set_i_ref]. by rewrite G2, G3.
  - destruct (list_find unused cs) as [[k ip]|] eqn:Eu; [|done]. intros [= -> <-].
    apply list_find_Some in Eu as (Hi & Hu & _). unfold unused in Hu.
    apply list_find_None in Ef. rewrite Forall_lookup in Ef.
    pose proof (lookup_lt_Some _ _ _ Hi) as Hlt.
    destruct (icache_store cs i ip (iclaim dev inum ip) Hok Hi) as [H1 H2]; [done|cbn; lia|lia|intros _; apply Ef|].
    split_and!; [done| | | |done].
    + exists (iclaim dev inum ip). split; [by apply list_lookup_insert_eq|done].
    + intros j Hj. by apply list_lookup_insert_ne.
    + intros ip2 E Hc. simplify_eq. destruct Hc. lia.
Qed.

(** iget counts references and never caches an inode twice.  On a cache in which
    every inode with references has one slot, iget either finds the inode or claims an
    unused slot for it; it returns a slot that caches the inode, adds one to the count of
    that inode and of no other, changes no other slot and nothing else in the kernel, and
    keeps the invariant; when the inode is already cached its slot keeps the loaded
    contents.  It panics exactly when the inode is not cached and every slot is in use. *)
Theorem iget_counts dev inum s :
  calm s -> icache_ok (k_icache s) ->
  (iref (k_icache s) dev inum = 0 /\ Forall (fun ip => i_ref ip ≠ 0) (k_icache s) /\
   exists s', iget dev inum s = Panic "iget: no inodes" s') \/
  exists i cs, iget dev inum s = Ret i (set_k_icache (fun _ => cs) s) /\ icache_ok cs /\
    (exists ip, cs !! i = Some ip /\ icaches dev inum ip) /\
    (forall j, j ≠ i -> cs !! j = k_icache s !! j) /\
    (forall ip, k_icache s !! i = Some ip -> icaches dev inum ip -> cs !! i = Some (set_i_ref (fun r => r + 1) ip)) /\
    forall d n, iref cs d n = iref (k_icache s) d n + (if decide (d = dev /\ n = inum) then 1 else 0).
Proof.
  intros Hc Hok. rewrite (iget_run _ _ _ Hc (ic_length _ Hok)).
  destruct (iget_pure dev inum (k_icache s)) as [[i cs]|] eqn:E.
  - right. exists i, cs. split; [done|]. by apply iget_pure_spec.
  - left. unfold iget_pure in E. destruct (list_find (icaches dev inum) (k_icache s)) as [[]|] eqn:Ef; [done|].
    destruct (list_find unused (k_icache s)) as [[]|] eqn:Eu; [done|].
    apply list_find_None in Ef. apply list_find_None in Eu. rewrite Forall_lookup in Ef.
    split_and!; [by apply iref_none|done|by eexists].
Qed.
End Icache.

(** ** Directories *)

(** The entries of a directory, as its bytes encode them. *)
Definition dent (I : image) (ip : inode) (k : nat) : dirent :=
  dirent_of_bytes (fbytes I ip (DIRENT_SIZE * Z.of_nat k) DIRENT_SIZE).
Definition dents (I : image) (ip : inode) : list dirent :=
  dent I ip <$> seq 0 (Z.to_nat (i_size ip / DIRENT_SIZE)).

(** The entry is in use and carries the name. *)
Definition names (name : list Z) (de : dirent) : Prop :=
  de_inum de ≠ 0 /\ cstr DIRSIZ name = cstr DIRSIZ (de_name de).
#[global] Instance names_dec name de : Decision (names name de).
Proof. unfold names. apply _. Defined.
Definition vacant (de : dirent) : Prop := de_inum de = 0.
#[global] Instance vacant_dec de : Decision (vacant de).
Proof. unfold vacant. apply _. Defined.

(** A directory whose blocks are allocated and whose size is a whole number of entries. *)
Record dir_ok (I : image) (ip : inode) : Prop := mkDirOk {
  dk_type : i_type ip = T_DIR;
  dk_dev : i_dev ip = 1;
  dk_size : 0 <= i_size ip < 2 ^ 31;
  dk_whole : i_size ip mod DIRENT_SIZE = 0;
  dk_mapped : forall o, 0 <= o < i_size ip -> mapped I ip (o / Z.of_nat BSIZE) }.

Lemma length_dents I ip : length (dents I ip) = Z.to_nat (i_size ip / DIRENT_SIZE).
Proof. unfold dents. by rewrite length_fmap, length_seq. Qed.

Lemma fbyte_ext I I' ip o : (forall b, I b = I' b) -> fbyte I ip o = fbyte I' ip o.
Proof. intros E. unfold fbyte. by rewrite (baddr_ext _ _ _ _ E), E. Qed.

Lemma dent_ext I I' ip k : (forall b, I b = I' b) -> dent I ip k = dent I' ip k.
Proof. intros E. unfold dent, fbytes. f_equal. apply list_fmap_ext. intros. by apply fbyte_ext. Qed.

Lemma dents_ext I I' ip : (forall b, I b = I' b) -> dents I ip = dents I' ip.
Proof. intros E. unfold dents. apply list_fmap_ext. intros. by apply dent_ext. Qed.

Lemma dir_ok_ext I I' ip : (forall b, I b = I' b) -> dir_ok I ip -> dir_ok I' ip.
Proof.
  intros E [H1 H2 H3 H4 H5]. split; [done|done|done|done|]. intros o Ho. unfold mapped.
  rewrite <- (baddr_ext _ _ _ _ E). by apply H5.
Qed.

Section Dir.
Context {LK : Linker} {TL : TxLayer 1}.

(** The state of a process inside a transaction on inode [ip] of slot [dp]. *)
Record at_dir (dp : nat) (ip : inode) (c : nat) (s : kstate) : Prop := mkAtDir {
  ad_tx : tx ∅ c s;
  ad_slot : k_icache s !! dp = Some ip;
  ad_ok : dir_ok (img s) ip }.

Lemma at_dir_step dp ip c s s' : at_dir dp ip c s -> txs ∅ c (img s) s s' -> at_dir dp ip c s'.
Proof.
  intros [H1 H2 H3] [T1 T2 T3 _]. split; [done| |].
  - by rewrite (sf_icache _ _ (log_frame_fs _ _ T3)).
  - apply (dir_ok_ext (img s)); [intros b; by rewrite T2|done].
Qed.

Lemma read_dirent_spec dp ip c s k msg :
  at_dir dp ip c s -> DIRENT_SIZE * Z.of_nat k < i_size ip ->
  exists s', read_dirent dp (DIRENT_SIZE * Z.of_nat k) msg s = Ret (dent (img s) ip k) s' /\ txs ∅ c (img s) s s'.
Proof.
  intros [Ht Hip [Hty Hdev Hsz Hwh Hmap]] Hk. destruct (calm_cur _ (tx_calm _ _ _ Ht)) as (me & pr & Hc & Hp).
  unfold DIRENT_SIZE in *.
  assert (Hle : 16 * Z.of_nat k + 16 <= i_size ip) by (pose proof (Z.div_mod (i_size ip) 16 ltac:(done)); lia).
  assert (Hrl : read_len ip (16 * Z.of_nat k) 16 = 16).
  { unfold read_len. destruct (Z.ltb_spec (i_size ip) (16 * Z.of_nat k)); lia. }
  destruct (readi_spec c s dp ip me pr ToLocal (16 * Z.of_nat k) 16 (k_mem s)) as (s' & Hr & Hs); try done; try lia.
  { rewrite Hrl. intros o Ho. apply Hmap. lia. }
  rewrite Hrl in Hr, Hs. unfold read_dirent, DIRENT_SIZE. run_ret Hr. cbn [fst snd].
  exists s'. split; [done|]. assert (E : set_k_mem (fun _ => if 0 <? 16 then k_mem s else k_mem s) s = s) by by destruct s.
  by rewrite E in Hs.
Qed.

(** The scan from entry [k] on. *)
Lemma dirlookup_loop_spec name dp ip c : forall m k s fuel,
  at_dir dp ip c s -> Z.of_nat (k + m) = i_size ip / DIRENT_SIZE -> (m < fuel)%nat ->
  exists s', txs ∅ c (img s) s s' /\
    dirlookup_loop fuel dp name (DIRENT_SIZE * Z.of_nat k) s =
      match list_find (names name) (dent (img s) ip <$> seq k m) with
      | None => Ret None s'
      | Some (j, de) => (let! i := iget 1 (de_inum de) in ret (Some (i, DIRENT_SIZE * Z.of_nat (k + j)))) s'
      end.
Proof.
  induction m as [|m IH]; intros k s [|fuel] Hs Hkm Hf; try lia; cbn [dirlookup_loop seq fmap list_fmap list_find];
    rewrite (bind_Ret _ _ _ _ _ (get_inode_ok _ _ _ (ad_slot _ _ _ _ Hs)));
    pose proof (Z.div_mod (i_size ip) DIRENT_SIZE ltac:(done)) as Hdm; rewrite (dk_whole _ _ (ad_ok _ _ _ _ Hs)) in Hdm;
    unfold DIRENT_SIZE in *.
  { destruct (Z.leb_spec (i_size ip) (16 * Z.of_nat k)); [|lia]. exists s. split; [apply txs_refl, Hs|done]. }
  destruct (Z.leb_spec (i_size ip) (16 * Z.of_nat k)); [lia|].
  destruct (read_dirent_spec dp ip c s k "dirlookup read" Hs) as (s1 & Hr & Hs1); [unfold DIRENT_SIZE; lia|].
  unfold DIRENT_SIZE in Hr. run_ret Hr.
  destruct (IH (S k) s1 fuel) as (s2 & Hs2 & Hr2); [by eapply at_dir_step|lia|lia|].
  assert (E : dent (img s1) ip <$> seq (S k) m = dent (img s) ip <$> seq (S k) m).
  { apply list_fmap_ext. intros. apply dent_ext, Hs1. }
  rewrite E in Hr2. clear E. set (de := dent (img s) ip k). cbn [list_find].
  assert (Ho : 16 * Z.of_nat k + 16 = 16 * Z.of_nat (S k)) by lia. rewrite Ho.
  destruct (decide (names name de)) as [[N1 N2]|Hn].
  - exists s1. split; [done|]. destruct (Z.eqb_spec (de_inum de) 0); [done|].
    unfold namecmp. rewrite (proj2 (strncmp_zero _ _ _) N2), (dk_dev _ _ (ad_ok _ _ _ _ Hs)), Nat.add_0_r. done.
  - exists s2. split; [eapply txs_trans; [exact Hs1|eapply txs_ext; [|exact Hs2]; apply Hs1]|].
    transitivity (dirlookup_loop fuel dp name (16 * Z.of_nat (S k)) s1).
    + destruct (Z.eqb_spec (de_inum de) 0) as [E0|E0]; [done|]. unfold namecmp.
      destruct (Z.eqb_spec (strncmp name (de_name de) DIRSIZ) 0) as [Ec|Ec]; [|done].
      apply strncmp_zero in Ec. by destruct Hn.
    + rewrite Hr2. destruct (list_find _ _) as [[j d]|]; [|done]. cbn.
      by replace (k + S j)%nat with (S k + j)%nat by lia.
Qed.

Lemma dir_fuel_enough size : 0 <= size -> (Z.to_nat (size / DIRENT_SIZE) < dir_fuel size)%nat.
Proof. intros H. unfold dir_fuel. pose proof (Z.div_pos size DIRENT_SIZE H ltac:(done)). lia. Qed.

Lemma dirlookup_run name dp ip c s :
  at_dir dp ip c s ->
  exists s', txs ∅ c (img s) s s' /\
    dirlookup dp name s =
      match list_find (names name) (dents (img s) ip) with
      | None => Ret None s'
      | Some (k, de) => (let! i := iget 1 (de_inum de) in ret (Some (i, DIRENT_SIZE * Z.of_nat k))) s'
      end.
Proof.
  intros Hs. pose proof (ad_ok _ _ _ _ Hs) as [Hty _ Hsz _ _]. unfold dirlookup.
  rewrite (bind_Ret _ _ _ _ _ (get_inode_ok _ _ _ (ad_slot _ _ _ _ Hs))), Hty. cbn [negb Z.eqb].
  pose proof (Z.div_pos (i_size ip) DIRENT_SIZE ltac:(lia) ltac:(done)).
  apply (dirlookup_loop_spec name dp ip c (Z.to_nat (i_size ip / DIRENT_SIZE)) 0 s); [done|lia|].
  apply dir_fuel_enough. lia.
Qed.

Lemma free_dirent_spec dp ip c : forall m k s fuel,
  at_dir dp ip c s -> Z.of_nat (k + m) = i_size ip / DIRENT_SIZE -> (m < fuel)%nat ->
  exists s', txs ∅ c (img s) s s' /\
    free_dirent fuel dp (DIRENT_SIZE * Z.of_nat k) s =
      Ret (DIRENT_SIZE * Z.of_nat (k + match list_find vacant (dent (img s) ip <$> seq k m) with
                                       | None => m | Some (j, _) => j end)) s'.
Proof.
  induction m as [|m IH]; intros k s [|fuel] Hs Hkm Hf; try lia; cbn [free_dirent seq fmap list_fmap list_find];
    rewrite (bind_Ret _ _ _ _ _ (get_inode_ok _ _ _ (ad_slot _ _ _ _ Hs)));
    pose proof (Z.div_mod (i_size ip) DIRENT_SIZE ltac:(done)) as Hdm; rewrite (dk_whole _ _ (ad_ok _ _ _ _ Hs)) in Hdm;
    unfold DIRENT_SIZE in *.
  { destruct (Z.leb_spec (i_size ip) (16 * Z.of_nat k)); [|lia]. exists s. split; [apply txs_refl, Hs|].
    cbn. by rewrite Nat.add_0_r. }
  destruct (Z.leb_spec (i_size ip) (16 * Z.of_nat k)); [lia|].
  destruct (read_dirent_spec dp ip c s k "dirlink read" Hs) as (s1 & Hr & Hs1); [unfold DIRENT_SIZE; lia|].
  unfold DIRENT_SIZE in Hr. run_ret Hr.
  destruct (IH (S k) s1 fuel) as (s2 & Hs2 & Hr2); [by eapply at_dir_step|lia|lia|].
  assert (E : dent (img s1) ip <$> seq (S k) m = dent (img s) ip <$> seq (S k) m).
  { apply list_fmap_ext. intros. apply dent_ext, Hs1. }
  rewrite E in Hr2. clear E. set (de := dent (img s) ip k). cbn [list_find].
  assert (Ho : 16 * Z.of_nat k + 16 = 16 * Z.of_nat (S k)) by lia. rewrite Ho.
  destruct (decide (vacant de)) as [Hv|Hn].
  - exists s1. split; [done|]. rewrite (proj2 (Z.eqb_eq (de_inum de) 0) Hv), Nat.add_0_r. done.
  - exists s2. split; [eapply txs_trans; [exact Hs1|eapply txs_ext; [|exact Hs2]; apply Hs1]|].
    rewrite (proj2 (Z.eqb_neq (de_inum de) 0) Hn), Hr2. do 3 f_equal.
    destruct (list_find _ _) as [[j d]|]; cbn; lia.
Qed.
End Dir.

(** ** A directory as a map from names to inode numbers *)

Definition dirfind (ds : list dirent) (name : list Z) : option Z :=
  (fun x => de_inum (snd x)) <$> list_find (names name) ds.

(** The entry dirlink fills, and the entries it leaves. *)
Definition dslot (ds : list dirent) : nat :=
  match list_find vacant ds with None => length ds | Some (k, _) => k end.
Definition dput (ds : list dirent) (de : dirent) : list dirent :=
  if decide (dslot ds < length ds)%nat then <[dslot ds := de]> ds else ds ++ [de].

Lemma dslot_le ds : (dslot ds <= length ds)%nat.
Proof.
  unfold dslot. destruct (list_find vacant ds) as [[k d]|] eqn:E; [|done].
  apply list_find_Some in E as (Hk & _). apply lookup_lt_Some in Hk. lia.
Qed.

Lemma lookup_dput ds de k :
  dput ds de !! k = if decide (k = dslot ds) then Some de else ds !! k.
Proof.
  unfold dput. pose proof (dslot_le ds). destruct (decide (dslot ds < length ds)%nat) as [Hl|Hl]; case_decide as E.
  - subst k. by apply list_lookup_insert_eq.
  - by apply list_lookup_insert_ne.
  - assert (dslot ds = length ds) as E2 by lia. rewrite E, E2, lookup_app_r, Nat.sub_diag by done. done.
  - assert (dslot ds = length ds) as E2 by lia. rewrite E2 in E. destruct (decide (k < length ds)%nat).
    + by rewrite lookup_app_l.
    + rewrite !lookup_ge_None_2; [done|lia|]. rewrite length_app. cbn. lia.
Qed.

Lemma length_dput ds de : length (dput ds de) = Nat.max (length ds) (S (dslot ds)).
Proof.
  unfold dput. pose proof (dslot_le ds). case_decide; [rewrite length_insert|rewrite length_app; cbn]; lia.
Qed.

Lemma dslot_vacant ds d : ds !! dslot ds = Some d -> de_inum d = 0.
Proof.
  unfold dslot. destruct (list_find vacant ds) as [[k x]|] eqn:E.
  - apply list_find_Some in E as (Hk & Hv & _). intros. simplify_eq. done.
  - intros Hd. apply lookup_lt_Some in Hd. lia.
Qed.

Lemma list_find_first {A} (P : A -> Prop) `{forall x, Decision (P x)} (l : list A) k x :
  l !! k = Some x -> P x -> (forall j y, l !! j = Some y -> P y -> (k <= j)%nat) -> list_find P l = Some (k, x).
Proof.
  intros Hk Hx Hmin. apply list_find_Some. split_and!; [done|done|]. intros j y Hj Hlt Py.
  specialize (Hmin _ _ Hj Py). lia.
Qed.

(** dput is an insertion in the map of names. *)
Lemma dirfind_dput ds de name :
  de_inum de ≠ 0 -> dirfind ds (de_name de) = None ->
  dirfind (dput ds de) name =
    if decide (cstr DIRSIZ name = cstr DIRSIZ (de_name de)) then Some (de_inum de) else dirfind ds name.
Proof.
  intros Hne Hnew. unfold dirfind in *. case_decide as Hn.
  - rewrite (list_find_first _ _ (dslot ds) de); [done|by rewrite lookup_dput, decide_True|by split|].
    intros j y Hj [H1 H2]. rewrite lookup_dput in Hj. case_decide; [lia|].
    apply fmap_None, list_find_None in Hnew. rewrite Forall_lookup in Hnew. destruct (Hnew _ _ Hj). split; [done|congruence].
  - destruct (list_find (names name) ds) as [[k d]|] eqn:E.
    + apply list_find_Some in E as (Hk & [Hd1 Hd2] & Hmin). rewrite (list_find_first _ _ k d); [done| |by split|].
      * rewrite lookup_dput, decide_False; [done|]. intros ->. by apply Hd1, (dslot_vacant ds).
      * intros j y Hj Hy. rewrite lookup_dput in Hj. case_decide; [simplify_eq; by destruct Hy|].
        destruct (decide (k <= j)%nat); [done|]. exfalso. eapply Hmin; [done|lia|done].
    + apply list_find_None in E. rewrite Forall_lookup in E.
      assert (list_find (names name) (dput ds de) = None) as ->; [|done].
      apply list_find_None, Forall_lookup. intros j y Hj Hy. rewrite lookup_dput in Hj. case_decide.
      * simplify_eq. by destruct Hy.
      * by apply (E _ _ Hj).
Qed.

Lemma dirent_roundtrip inum name :
  dirent_of_bytes (dirent_bytes (mkDirent (u16 inum) (strncpy name DIRSIZ))) = mkDirent (u16 inum) (strncpy name DIRSIZ).
Proof.
  unfold dirent_of_bytes, dirent_bytes, get_le. cbn [de_inum de_name]. rewrite drop_0.
  rewrite take_app_length', drop_app_length' by (by rewrite length_le_bytes).
  rewrite le_val_bytes, take_ge by (by rewrite length_strncpy). f_equal. unfold u16. by rewrite Z.mod_mod.
Qed.

Section DirTheorems.
Context {LK : Linker} {TL : TxLayer 1}.

(** dirlookup is the lookup of a name in the directory's entries.  In a directory
    whose blocks are allocated, the scan ends; when no entry in use carries the name
    (compared as C strings of at most DIRSIZ bytes) it returns nothing and changes
    neither inodes nor the image; otherwise it returns the offset of the first such entry
    and a slot that caches the inode of the entry, with one more reference on that inode
    and on no other. *)
Theorem dirlookup_correct name dp ip c s :
  at_dir dp ip c s -> icache_ok (k_icache s) -> Exists unused (k_icache s) ->
  match list_find (names name) (dents (img s) ip) with
  | None => exists s', dirlookup dp name s = Ret None s' /\ txs ∅ c (img s) s s'
  | Some (k, de) => exists i s' ip',
      dirlookup dp name s = Ret (Some (i, DIRENT_SIZE * Z.of_nat k)) s' /\
      tx ∅ c s' /\ (forall b, img s' b = img s b) /\ icache_ok (k_icache s') /\
      k_icache s' !! i = Some ip' /\ icaches 1 (de_inum de) ip' /\
      forall d n, iref (k_icache s') d n = iref (k_icache s) d n + (if decide (d = 1 /\ n = de_inum de) then 1 else 0)
  end.
Proof.
  intros Hs Hok Hfree. destruct (dirlookup_run name dp ip c s Hs) as (s1 & Hs1 & Hr).
  destruct (list_find (names name) (dents (img s) ip)) as [[k de]|]; [|by exists s1].
  destruct Hs1 as [Ht Hm Hf _]. pose proof (sf_icache _ _ (log_frame_fs _ _ Hf)) as Ei.
  rewrite Hr. unfold bind. rewrite iget_run by (rewrite ?Ei; apply Hok || by eapply tx_calm). rewrite Ei.
  destruct (iget_pure 1 (de_inum de) (k_icache s)) as [[i cs]|] eqn:E.
  - destruct (iget_pure_spec _ _ _ _ _ Hok E) as (H1 & (ip' & H2 & H3) & _ & _ & H4).
    exists i, (set_k_icache (fun _ => cs) s1), ip'. split_and!; [done|by apply tx_icache| |done|done|done|done].
    intros b. by rewrite tx_icache_img.
  - exfalso. unfold iget_pure in E. destruct (list_find (icaches _ _) _) as [[]|]; [done|].
    destruct (list_find unused _) as [[]|] eqn:Eu; [done|]. apply list_find_None in Eu.
    apply Exists_exists in Hfree as (x & Hx1 & Hx2). rewrite Forall_forall in Eu. by apply (Eu x).
Qed.

(** The directory after a write of one entry. *)
Lemma dents_write I I' ip size' (de : dirent) name inum :
  let ds := dents I ip in
  let off := DIRENT_SIZE * Z.of_nat (dslot ds) in
  let ip' := set_i_size (fun _ => size') ip in
  0 <= i_size ip -> i_size ip mod DIRENT_SIZE = 0 ->
  size' = Z.max (i_size ip) (off + DIRENT_SIZE) ->
  de = mkDirent (u16 inum) (strncpy name DIRSIZ) ->
  (forall o, 0 <= o < size' -> fbyte I' ip' o =
     if decide (off <= o < off + DIRENT_SIZE) then default 0 (dirent_bytes de !! Z.to_nat (o - off)) else fbyte I ip o) ->
  dents I' ip' = dput ds de.
Proof.
  intros ds off ip' Hsz Hmod Hs' Hde Hb. pose proof (dslot_le ds) as Hle.
  assert (Hlen : length ds = Z.to_nat (i_size ip / DIRENT_SIZE)) by apply length_dents.
  unfold DIRENT_SIZE in *. pose proof (Z.div_mod (i_size ip) 16 ltac:(done)) as Hdm.
  assert (Hq : size' / 16 = Z.of_nat (Nat.max (length ds) (S (dslot ds)))).
  { symmetry. apply (Z.div_unique_pos _ _ _ 0); lia. }
  assert (Hdb : length (dirent_bytes de) = 16%nat).
  { subst de. unfold dirent_bytes. cbn [de_name]. by rewrite length_app, length_le_bytes, length_strncpy. }
  apply list_eq. intros k. rewrite lookup_dput. unfold dents. cbn [i_size ip' set_i_size]. unfold DIRENT_SIZE.
  rewrite Hq, Nat2Z.id, list_lookup_fmap.
  assert (Hin : (k < Nat.max (length ds) (S (dslot ds)))%nat -> dent I' ip' k = if decide (k = dslot ds) then de else dent I ip k).
  { intros Hk. unfold dent, DIRENT_SIZE.
    assert (Hsame : k ≠ dslot ds -> fbytes I' ip' (16 * Z.of_nat k) 16 = fbytes I ip (16 * Z.of_nat k) 16).
    { intros Hne. unfold fbytes. apply list_fmap_ext. intros j o Ho. apply lookup_seqZ in Ho as [-> Ho].
      rewrite Hb by lia. rewrite decide_False by lia. done. }
    case_decide as E; [|by rewrite Hsame].
    transitivity (dirent_of_bytes (dirent_bytes de)); [|subst de; apply dirent_roundtrip]. f_equal.
    apply list_eq. intros j. destruct (decide (j < 16)%nat) as [Hj|Hj].
    - unfold fbytes. rewrite list_lookup_fmap, lookup_seqZ_lt by lia. cbn. rewrite Hb by lia. rewrite decide_True by lia.
      replace (Z.to_nat _) with j by lia. destruct (lookup_lt_is_Some_2 (dirent_bytes de) j) as [b ->]; [lia|done].
    - rewrite !lookup_ge_None_2; [done|lia|]. rewrite length_fbytes. lia. }
  destruct (decide (k < Nat.max (length ds) (S (dslot ds)))%nat) as [Hk|Hk].
  - rewrite lookup_seq_lt by lia. cbn. rewrite Hin by lia. case_decide as E; [done|].
    unfold ds, dents. rewrite list_lookup_fmap, lookup_seq_lt; [done|]. unfold DIRENT_SIZE. lia.
  - rewrite lookup_seq_ge by lia. cbn. rewrite decide_False by lia. symmetry. apply lookup_ge_None_2. lia.
Qed.

(** dirlink up to its write: the name is looked up and a slot for the entry chosen. *)
Lemma dirlink_scan name inum dp ip c s :
  let ds := dents (img s) ip in
  at_dir dp ip c s -> list_find (names name) ds = None ->
  exists s', txs ∅ c (img s) s s' /\ dirlink dp name inum s =
    (let! w := writei dp (FromLocal (dirent_bytes (mkDirent (u16 inum) (strncpy name DIRSIZ))))
                 (DIRENT_SIZE * Z.of_nat (dslot ds)) DIRENT_SIZE in
     if negb (w =? DIRENT_SIZE) then ret (-1) else ret 0) s'.
Proof.
  intros ds Hs Ef. destruct (dirlookup_run name dp ip _ s Hs) as (s1 & Hs1 & Hr1). fold ds in Hr1. rewrite Ef in Hr1.
  pose proof (at_dir_step _ _ _ _ _ Hs Hs1) as Hd1. pose proof (dk_size _ _ (ad_ok _ _ _ _ Hs)) as Hsz.
  pose proof (Z.div_pos (i_size ip) DIRENT_SIZE ltac:(lia) ltac:(done)) as Hq0.
  destruct (free_dirent_spec dp ip _ (Z.to_nat (i_size ip / DIRENT_SIZE)) 0 s1 (dir_fuel (i_size ip)) Hd1) as (s2 & Hs2 & Hr2);
    [lia|apply dir_fuel_enough; lia|].
  fold (dents (img s1) ip) in Hr2. rewrite (dents_ext _ (img s)) in Hr2 by apply Hs1. fold ds in Hr2.
  assert (Eslot : (0 + match list_find vacant ds with Some (j, _) => j | None => Z.to_nat (i_size ip / DIRENT_SIZE) end)%nat = dslot ds).
  { unfold dslot. destruct (list_find vacant ds) as [[]|]; [done|]. unfold ds. by rewrite length_dents. }
  rewrite Eslot in Hr2. change (DIRENT_SIZE * Z.of_nat 0) with 0 in Hr2. exists s2. split.
  { eapply txs_trans; [exact Hs1|]. eapply txs_ext; [|exact Hs2]. apply Hs1. }
  unfold dirlink. rewrite (bind_Ret _ _ _ _ _ Hr1), (bind_Ret _ _ _ _ _ (get_inode_ok _ _ _ (ad_slot _ _ _ _ Hd1))).
  by run_ret Hr2.
Qed.

(** C5. dirlink adds a name to the directory.  When the name is not there, dirlink
    returns 0, fills the first vacant entry or extends the directory by one entry, and
    the directory as a map from names to inode numbers gains exactly the new name with
    its inode number, so that dirlookup finds it there and finds every other name as
    before; the on-disk inode carries the new size. *)
Theorem dirlink_inserts name inum dp ip c s :
  let ds := dents (img s) ip in
  let size' := Z.max (i_size ip) (DIRENT_SIZE * Z.of_nat (dslot ds) + DIRENT_SIZE) in
  let ip' := set_i_size (fun _ => size') ip in
  at_dir dp ip (S (S c)) s -> dinode_ok (dinode_of ip) ->
  inum_ok (k_sb s) (i_inum ip) -> home_blk (IBLOCK (k_sb s) (i_inum ip)) ->
  writable (img s) ip 0 size' -> size' <= MAXFILE * Z.of_nat BSIZE ->
  (forall o, 0 <= o < size' -> baddr (img s) ip (o / Z.of_nat BSIZE) ≠ IBLOCK (k_sb s) (i_inum ip)) ->
  IBLOCK (k_sb s) (i_inum ip) ≠ iaddr ip NDIRECT ->
  0 < inum < 2 ^ 16 -> dirfind ds name = None ->
  exists s', dirlink dp name inum s = Ret 0 s' /\ at_dir dp ip' c s' /\
    disk_inode (img s') (k_sb s) (i_inum ip) = dinode_of ip' /\
    dents (img s') ip' = dput ds (mkDirent inum (strncpy name DIRSIZ)) /\
    forall n, dirfind (dents (img s') ip') n =
      if decide (cstr DIRSIZ n = cstr DIRSIZ name) then Some inum else dirfind ds n.
Proof.
  intros ds size' ip' Hs Hdi Hin Hhome Hw Hmax Hnib Hnind Hinum Hnew.
  unfold dirfind in Hnew. apply fmap_None in Hnew as Ef.
  destruct (dirlink_scan name inum dp ip _ s Hs Ef) as (s2 & Hs2 & Hr2). fold ds in Hr2.
  pose proof (at_dir_step _ _ _ _ _ Hs Hs2) as Hd2. pose proof (ad_ok _ _ _ _ Hs) as [Hty Hdev Hsz Hwh Hmap].
  rewrite Hr2. clear Hr2. destruct Hs2 as [_ Himg Hf2 _]. pose proof (sf_sb _ _ (log_frame_fs _ _ Hf2)) as Hsb.
  assert (Hba : forall bn, baddr (img s2) ip bn = baddr (img s) ip bn) by (intros bn; by apply baddr_ext).
  destruct (calm_cur _ (tx_calm _ _ _ (ad_tx _ _ _ _ Hd2))) as (me & pr & Hc & Hp).
  assert (Hu : u16 inum = inum) by (apply Z.mod_small; lia). rewrite Hu.
  set (de := mkDirent inum _). set (off := DIRENT_SIZE * Z.of_nat (dslot ds)).
  assert (Hdb : length (dirent_bytes de) = 16%nat).
  { unfold dirent_bytes. cbn [de_name de]. by rewrite length_app, length_le_bytes, length_strncpy. }
  pose proof (dslot_le ds) as Hle. unfold ds in Hle. rewrite length_dents in Hle. fold ds in Hle.
  assert (Hoff : off <= i_size ip).
  { unfold off. pose proof (Z.div_mod (i_size ip) DIRENT_SIZE ltac:(done)). unfold DIRENT_SIZE in *. lia. }
  assert (Hblk : off mod Z.of_nat BSIZE + 16 <= Z.of_nat 1 * Z.of_nat BSIZE).
  { unfold off, DIRENT_SIZE. change (Z.of_nat BSIZE) with (16 * 64). rewrite Z.mul_mod_distr_l by done.
    pose proof (Z.mod_pos_bound (Z.of_nat (dslot ds)) 64). lia. }
  destruct (writei_spec c 1 s2 dp ip me pr (FromLocal (dirent_bytes de)) off 16 (dirent_bytes de))
    as (s3 & Hr3 & Ht3 & Hi3 & Hdi3 & Hba3 & Hfb3 & _); rewrite ?Hsb; try done; try lia.
  { apply Hd2. }
  { apply Hd2. }
  { split; [unfold off, DIRENT_SIZE; lia|done]. }
  { unfold size' in Hmax. fold off in Hmax. unfold DIRENT_SIZE in Hmax. lia. }
  { apply (writable_same (img s)); [done|]. exact Hw. }
  { intros o Ho. rewrite Hba. by apply Hnib. }
  { cbn [src_bytes]. rewrite Hdb. change (Z.to_nat 16) with 16%nat. cbn [Nat.leb]. by rewrite take_ge by lia. }
  run_ret Hr3. cbn [negb Z.eqb Pos.eqb DIRENT_SIZE].
  change (Z.max (i_size ip) (off + 16)) with size' in *. fold ip' in Hi3, Hdi3, Hba3, Hfb3.
  rewrite Hsb in Hdi3.
  assert (Hds : dents (img s3) ip' = dput ds de).
  { apply (dents_write (img s) (img s3) ip size' de name inum); [lia|done|done|by rewrite Hu|].
    intros o Ho. fold ds off. unfold DIRENT_SIZE. rewrite Hfb3 by done. case_decide; [done|]. by apply fbyte_ext. }
  assert (Hlt : (dp < length (k_icache s2))%nat) by (eapply lookup_lt_Some, Hd2).
  exists s3. split_and!; [done| |done|done|].
  - split; [done|by rewrite Hi3; apply list_lookup_insert_eq|]. split; [done|done| | |].
    + cbn. split; [lia|]. assert (MAXFILE * Z.of_nat BSIZE = 274432) by reflexivity. lia.
    + cbn [i_size ip' set_i_size]. unfold size', DIRENT_SIZE. destruct (Z.max_spec (i_size ip) (16 * Z.of_nat (dslot ds) + 16)) as [[_ ->]|[_ ->]]; [|done].
      replace (16 * Z.of_nat (dslot ds) + 16) with ((Z.of_nat (dslot ds) + 1) * 16) by lia. by apply Z.mod_mul.
    + cbn [i_size ip' set_i_size]. intros o Ho. unfold mapped. rewrite Hba3, Hba. apply (wb_mapped _ _ _ _ Hw). lia.
  - intros n. rewrite Hds, dirfind_dput; cbn [de_inum de_name de]; [by rewrite cstr_strncpy|lia|].
    unfold dirfind. apply fmap_None. apply list_find_None. apply list_find_None in Ef. eapply Forall_impl; [exact Ef|].
    intros x Hx [N1 N2]. apply Hx. split; [done|]. by rewrite <- N2, cstr_strncpy.
Qed.
End DirTheorems.
