(* ===== verification/PathSpec.v ===== *)
(** * Path resolution

    skipelem cuts a path at its slashes; namei follows the elements of a path from the
    root directory through the directories of the disk image, locking and releasing one
    directory at a time, and leaves one reference on the inode it returns. *)

From stdpp Require Import base list gmap numbers.
From S2P Require Import Prelude Params Machine Spinlock Sched CString Bio BioSpec Block Crash Log LogSpec Tx Vm VmSpec Fs FsSpec DirSpec.

(** ** The elements of a path *)

(** The components between slashes, up to the NUL; [cur] is the component being read,
    reversed. *)
Fixpoint comps (cur path : list Z) : list (list Z) :=
  let flush := match cur with [] => [] | _ => [reverse cur] end in
  match path with
  | [] => flush
  | c :: path' =>
      if c =? 0 then flush
      else if c =? SLASH then flush ++ comps [] path'
      else comps (c :: cur) path'
  end.
(** Names are cut to what fits a directory entry with its NUL. *)
Definition elements (path : list Z) : list (list Z) := take (DIRSIZ - 1) <$> comps [] path.

Lemma comps_skip path : comps [] (skip_slashes path) = comps [] path.
Proof.
  induction path as [|c path IH]; [done|]. cbn [skip_slashes comps].
  destruct (Z.eqb_spec c SLASH) as [->|Hc]; [exact IH|]. cbn [comps].
  by rewrite (proj2 (Z.eqb_neq c SLASH) Hc).
Qed.

Lemma skip_slashes_length path : (length (skip_slashes path) <= length path)%nat.
Proof. induction path as [|c path IH]; [done|]. cbn. destruct (c =? SLASH); cbn; lia. Qed.

Lemma skip_slashes_hd path : hd0 (skip_slashes path) ≠ SLASH.
Proof.
  induction path as [|c path IH]; [done|]. cbn [skip_slashes]. destruct (Z.eqb_spec c SLASH); [exact IH|done].
Qed.

(** The first component of a path that does not start with a slash. *)
Lemma comps_span path cur :
  (cur ≠ [] \/ (hd0 path ≠ 0 /\ hd0 path ≠ SLASH)) ->
  let '(e, r) := elem_span path in
  comps cur path = (reverse cur ++ e) :: comps [] r /\ (length e + length r = length path)%nat /\
  (cur = [] -> e ≠ []).
Proof.
  revert cur. induction path as [|c path IH]; intros cur Hc; cbn [elem_span comps].
  { destruct Hc as [Hc|[Hc _]]; [|done]. destruct cur; [done|]. rewrite app_nil_r. by split_and!. }
  destruct (Z.eqb_spec c SLASH) as [->|Hs]; cbn [orb].
  { destruct Hc as [Hc|[_ Hc]]; [|done]. destruct cur as [|x cur]; [done|]. cbn [Z.eqb SLASH]. rewrite app_nil_r.
    split_and!; [|done|done]. cbn [comps]. done. }
  destruct (Z.eqb_spec c 0) as [->|H0].
  { destruct Hc as [Hc|[Hc _]]; [|done]. destruct cur as [|x cur]; [done|]. rewrite app_nil_r. by split_and!. }
  specialize (IH (c :: cur) ltac:(by left)). destruct (elem_span path) as [e r].
  destruct IH as (-> & Hl & _). split_and!; [|cbn; lia|done]. by rewrite reverse_cons, <- app_assoc.
Qed.

Lemma skipelem_spec path :
  match elements path with
  | [] => skipelem path = None
  | e :: es => exists rest, skipelem path = Some (rest, e ++ [0]) /\ elements rest = es /\
                 (length rest < length path)%nat /\ (hd0 rest = 0 <-> es = [])
  end.
Proof.
  unfold elements, skipelem. rewrite <- comps_skip. pose proof (skip_slashes_length path) as Hl.
  pose proof (skip_slashes_hd path) as Hh. set (p := skip_slashes path) in *.
  destruct (Z.eqb_spec (hd0 p) 0) as [H0|H0].
  { destruct p as [|c p]; [done|]. unfold hd0 in H0. cbn in H0. subst c. done. }
  pose proof (comps_span p [] ltac:(by right)) as Hs. destruct (elem_span p) as [e r].
  destruct Hs as (-> & Hlen & He). specialize (He eq_refl). cbn [fmap list_fmap].
  exists (skip_slashes r). split; [|split; [by rewrite comps_skip|split]].
  - assert (E : take (if (DIRSIZ <=? length e)%nat then DIRSIZ - 1 else length e)%nat e = take (DIRSIZ - 1) e).
    { unfold DIRSIZ. destruct (Nat.leb_spec 14 (length e)); [done|]. rewrite !take_ge; [done|lia|lia]. }
    by rewrite E.
  - pose proof (skip_slashes_length r). destruct e; [done|]. cbn in Hlen. lia.
  - rewrite <- (comps_skip r). pose proof (skip_slashes_hd r) as Hr. destruct (skip_slashes r) as [|c q]; [done|].
    unfold hd0 in Hr |- *. cbn in Hr |- *. destruct (Z.eqb_spec c 0) as [->|Hc0]; [done|].
    rewrite (proj2 (Z.eqb_neq c SLASH) Hr). split; [done|].
    pose proof (comps_span q [c] ltac:(by left)) as Hq. destruct (elem_span q) as [e' r']. by destruct Hq as [-> _].
Qed.

(** ** The inode cache under locking and release *)

(** What the reference counts depend on. *)
Definition ident (ip : inode) : Z * Z * Z := (i_dev ip, i_inum ip, i_ref ip).

Lemma icache_ident cs i ip ip' :
  icache_ok cs -> cs !! i = Some ip -> ident ip' = ident ip ->
  icache_ok (<[i := ip']> cs) /\ forall d n, iref (<[i := ip']> cs) d n = iref cs d n.
Proof.
  intros [Hlen Hrefs Hinj] Hi Hid. injection Hid as Hd Hn Hr.
  pose proof (lookup_lt_Some _ _ _ Hi) as Hlt.
  assert (Hlk : forall j x, <[i := ip']> cs !! j = Some x -> exists y, cs !! j = Some y /\ ident x = ident y).
  { intros j x Hj. destruct (decide (j = i)) as [->|Hne].
    - rewrite list_lookup_insert_eq in Hj by done. injection Hj as <-. exists ip. split; [done|]. unfold ident. congruence.
    - rewrite list_lookup_insert_ne in Hj by done. by exists x. }
  assert (Hok : icache_ok (<[i := ip']> cs)).
  { split; [by rewrite length_insert| |].
    - apply Forall_insert; [done|]. rewrite Hr. rewrite Forall_lookup in Hrefs. eauto.
    - intros a b x y Ha Hb Px Py Ed En.
      destruct (Hlk _ _ Ha) as (x0 & Ha0 & Ex), (Hlk _ _ Hb) as (y0 & Hb0 & Ey).
      unfold ident in *. eapply Hinj; [exact Ha0|exact Hb0|..]; congruence. }
  split; [done|]. intros d n.
  destruct (iref_cases _ d n Hok) as [(j & x & Hj & Hc & ->)|[Hno ->]].
  - destruct (Hlk _ _ Hj) as (y & Hy & E). injection E as E1 E2 E3. symmetry.
    rewrite E3. eapply iref_slot; [by split|exact Hy|]. destruct Hc as (C1 & C2 & C3). split_and!; congruence.
  - symmetry. apply iref_none. intros j x Hj (C1 & C2 & C3). destruct (decide (j = i)) as [->|Hne].
    + simplify_eq. apply (Hno i ip'); [by apply list_lookup_insert_eq|]. split_and!; congruence.
    + apply (Hno j x); [by rewrite list_lookup_insert_ne|done].
Qed.

(** Dropping one reference. *)
Lemma icache_drop cs i ip :
  icache_ok cs -> cs !! i = Some ip -> 0 < i_ref ip ->
  let cs' := <[i := set_i_ref (fun r => r - 1) ip]> cs in
  icache_ok cs' /\ forall d n, iref cs' d n = iref cs d n - (if decide (d = i_dev ip /\ n = i_inum ip) then 1 else 0).
Proof.
  intros Hok Hi Hpos cs'. pose proof (lookup_lt_Some _ _ _ Hi) as Hlt. set (ip' := set_i_ref _ ip) in *.
  destruct Hok as [Hlen Hrefs Hinj].
  assert (Hlk : forall j x, cs' !! j = Some x -> exists y, cs !! j = Some y /\ i_dev x = i_dev y /\ i_inum x = i_inum y /\ i_ref x <= i_ref y).
  { intros j x Hj. destruct (decide (j = i)) as [->|Hne].
    - unfold cs' in Hj. rewrite list_lookup_insert_eq in Hj by done. injection Hj as <-. exists ip. split_and!; try done. cbn. lia.
    - unfold cs' in Hj. rewrite list_lookup_insert_ne in Hj by done. exists x. by split_and!. }
  assert (Hok' : icache_ok cs').
  { split; [unfold cs'; by rewrite length_insert|apply Forall_insert; [done|cbn; lia]|].
    intros a b x y Ha Hb Px Py Ed En.
    destruct (Hlk _ _ Ha) as (x0 & Ha0 & ? & ? & ?), (Hlk _ _ Hb) as (y0 & Hb0 & ? & ? & ?).
    eapply Hinj; [exact Ha0|exact Hb0|lia|lia|congruence|congruence]. }
  split; [done|]. intros d n.
  assert (Hi' : cs' !! i = Some ip') by by apply list_lookup_insert_eq.
  destruct (icache_store cs' i ip' ip Hok' Hi' Hpos) as [_ Hs]; [cbn; lia|done| |].
  - intros H0 j jp Hj (C1 & C2 & C3). destruct (Hlk _ _ Hj) as (y & Hy & E1 & E2 & E3).
    assert (j = i) as -> by (eapply Hinj; [exact Hy|exact Hi|lia|done|congruence|congruence]).
    rewrite Hi' in Hj. injection Hj as <-. lia.
  - specialize (Hs d n). unfold cs' in Hs at 1. rewrite list_insert_insert_eq, list_insert_id in Hs by done. lia.
Qed.

(** The inodes with references. *)
Definition ikeys (cs : list inode) : gset (Z * Z) :=
  list_to_set ((fun ip => (i_dev ip, i_inum ip)) <$> filter (fun ip => 0 < i_ref ip) cs).

Lemma elem_of_ikeys cs d n : icache_ok cs -> (d, n) ∈ ikeys cs <-> 0 < iref cs d n.
Proof.
  intros Hok. unfold ikeys. rewrite elem_of_list_to_set, list_elem_of_fmap. split.
  - intros (ip & [= -> ->] & Hin). apply list_elem_of_filter in Hin as [Hpos Hin].
    apply list_elem_of_lookup in Hin as [i Hi]. by rewrite (iref_slot cs _ _ i ip).
  - intros Hpos. destruct (iref_cases cs d n Hok) as [(i & ip & Hi & (C1 & C2 & C3) & _)|[_ E]]; [|lia].
    exists ip. split; [by subst|]. apply list_elem_of_filter. split; [done|]. by eapply list_elem_of_lookup_2.
Qed.

Lemma ikeys_size cs : icache_ok cs -> size (ikeys cs) = length (filter (fun ip => 0 < i_ref ip) cs).
Proof.
  intros [_ _ Hinj]. unfold ikeys. rewrite size_list_to_set; [by rewrite length_fmap|].
  enough (Hnd : forall l, (forall i j x y, l !! i = Some x -> l !! j = Some y -> 0 < i_ref x -> 0 < i_ref y ->
      i_dev x = i_dev y -> i_inum x = i_inum y -> i = j) ->
    NoDup ((fun ip => (i_dev ip, i_inum ip)) <$> filter (fun ip => 0 < i_ref ip) l)) by by apply Hnd.
  clear. induction l as [|x l IH]; intros Hinj; [constructor|].
  assert (IH' : NoDup ((fun ip => (i_dev ip, i_inum ip)) <$> filter (fun ip => 0 < i_ref ip) l)).
  { apply IH. intros i j a b Ha Hb ? ? ? ?. assert (S i = S j) by by apply (Hinj (S i) (S j) a b). lia. }
  rewrite filter_cons. destruct (decide (0 < i_ref x)) as [Hx|Hx]; [|done]. cbn [fmap list_fmap].
  apply NoDup_cons. split; [|done]. intros Hin. apply list_elem_of_fmap in Hin as (y & E & Hy). injection E as E1 E2.
  apply list_elem_of_filter in Hy as [Py Hy]. apply list_elem_of_lookup in Hy as [j Hj].
  specialize (Hinj 0%nat (S j) x y eq_refl Hj Hx Py E1 E2). lia.
Qed.

Lemma ikeys_room cs : icache_ok cs -> (size (ikeys cs) < NINODE)%nat -> Exists unused cs.
Proof.
  intros Hok Hs. rewrite ikeys_size in Hs by done. destruct (Exists_dec unused cs) as [|Hn]; [done|exfalso].
  apply not_Exists_Forall in Hn; [|apply _]. destruct Hok as [Hlen Hrefs _].
  assert (E : filter (fun ip => 0 < i_ref ip) cs = cs).
  { clear -Hn Hrefs. induction cs as [|x cs IH]; [done|]. apply Forall_cons in Hn as [H1 H2].
    apply Forall_cons in Hrefs as [H3 H4]. unfold compose, unused in H1. rewrite filter_cons_True by lia. by rewrite IH. }
  rewrite E in Hs. lia.
Qed.

(** ** Operations that change the inode cache only *)
Section Path.
Context {LK : Linker} {TL : TxLayer 1}.

(** From [s] to [s'] the inode cache becomes [cs]; the image of the disk is the same and
    the rest changes at most as reading blocks and waking processes do. *)
Record imove (c : nat) (s : kstate) (cs : list inode) (s' : kstate) : Prop := mkImove {
  im_tx : tx ∅ c s';
  im_img : forall b, img s' b = img s b;
  im_icache : k_icache s' = cs;
  im_frame : log_frame (set_k_icache (fun _ => cs) s) s' }.

Lemma imove_trans c s s1 s2 cs1 cs2 : imove c s cs1 s1 -> imove c s1 cs2 s2 -> imove c s cs2 s2.
Proof.
  intros [T1 E1 I1 F1] [T2 E2 I2 F2]. split; [done|intros b; by rewrite E2|done|].
  eapply log_frame_trans; [|exact F2]. apply (log_frame_icache (fun _ => cs2)) in F1. exact F1.
Qed.

Lemma imove_sb c s cs s' : imove c s cs s' -> k_sb s' = k_sb s.
Proof. intros [_ _ _ F]. apply (sf_sb _ _ (log_frame_fs _ _ F)). Qed.
Lemma imove_pid c s cs s' : imove c s cs s' -> mypid s' = mypid s.
Proof. intros [_ _ _ F]. apply (log_frame_mypid _ _ F). Qed.

Lemma imove_set c s cs : tx ∅ c s -> imove c s cs (set_k_icache (fun _ => cs) s).
Proof. intros Ht. split; [by apply tx_icache|intros b; by rewrite tx_icache_img|done|apply log_frame_refl]. Qed.

Lemma imove_alter c s i f ip :
  tx ∅ c s -> k_icache s !! i = Some ip -> imove c s (<[i := f ip]> (k_icache s)) (set_k_icache (alter f i) s).
Proof.
  intros Ht Hi. rewrite <- (alter_insert f i ip) by done. by apply (imove_set c s (alter f i (k_icache s))).
Qed.

Lemma imove_txs c s i f ip s' :
  k_icache s !! i = Some ip -> txs ∅ c (img s) (set_k_icache (alter f i) s) s' ->
  imove c s (<[i := f ip]> (k_icache s)) s'.
Proof.
  intros Hi [T1 E1 F1 _]. rewrite <- (alter_insert f i ip) by done. split; [done|done| |exact F1].
  by rewrite (sf_icache _ _ (log_frame_fs _ _ F1)).
Qed.

Lemma imove_wake c s ch : tx ∅ c s -> imove c s (k_icache s) (set_k_procs (wake_table (k_cur s) ch) s).
Proof.
  intros Ht. split; [by apply tx_wake|intros b; by rewrite tx_wake_img|done|].
  rewrite (set_icache_id s). apply log_frame_wake.
Qed.

(** The entry ilock leaves in the cache. *)
Definition loaded (I : image) (sb : superblock) (ip : inode) : inode :=
  if i_valid ip then ip else set_i_valid (fun _ => true) (load_dinode (disk_inode I sb (i_inum ip)) ip).
Definition unlocked (ip : inode) : Prop := sl_locked (i_lock ip) = false.

Lemma ilock_run c s i ip :
  tx ∅ c s -> k_icache s !! i = Some ip -> 0 < i_ref ip -> i_dev ip = 1 -> unlocked ip ->
  di_type (disk_inode (img s) (k_sb s) (i_inum ip)) ≠ 0 ->
  let ip' := loaded (img s) (k_sb s) (set_i_lock (fun _ => mkSleeplock true (mypid s)) ip) in
  exists s', ilock (Some i) s = Ret tt s' /\ imove c s (<[i := ip']> (k_icache s)) s'.
Proof.
  intros Ht Hi Hr Hdev Hul Hty ip'. unfold ilock. rewrite (bind_Ret _ _ _ _ _ (get_inode_ok _ _ _ Hi)).
  destruct (Z.ltb_spec (i_ref ip) 1); [lia|].
  assert (Hsl : acquiresleep (SlInode i) s = Ret tt (put_sl (SlInode i) (mkSleeplock true (mypid s)) s)).
  { apply acquiresleep_free; [by eapply tx_calm|]. exists (i_lock ip). cbn [sl_of]. by rewrite Hi. }
  run_ret Hsl. cbn [put_sl]. set (f := set_i_lock (fun _ => mkSleeplock true (mypid s))) in *.
  pose proof (imove_alter c s i f ip Ht Hi) as Hm1. set (s1 := set_k_icache (alter f i) s) in *.
  assert (Hi1 : k_icache s1 !! i = Some (f ip)) by (unfold s1; kcbn; by rewrite list_lookup_alter_eq, Hi).
  unfold ip', loaded. change (i_valid (f ip)) with (i_valid ip). unfold ilock_load.
  destruct (i_valid ip) eqn:Hv.
  - exists s1. split; [|done]. rewrite (bind_Ret _ _ _ _ _ (get_inode_ok _ _ _ Hi1)).
    change (i_valid (f ip)) with (i_valid ip). by rewrite Hv.
  - destruct (ilock_load_spec ∅ c s1 i (f ip)) as (s2 & Hr2 & Hs2);
      [apply Hm1|by apply Nat.leb_le|done|done|done|apply unheld_empty| |].
    { change (i_inum (f ip)) with (i_inum ip). change (k_sb s1) with (k_sb s).
      unfold disk_inode in *. unfold s1. by rewrite tx_icache_img. }
    exists s2. split; [exact Hr2|]. eapply (imove_trans c s s1 s2); [exact Hm1|].
    apply (imove_txs _ _ _ _ _ _ Hi1) in Hs2. change (k_sb s1) with (k_sb s) in Hs2.
    change (i_inum (f ip)) with (i_inum ip) in *.
    assert (E : disk_inode (img s1) (k_sb s) (i_inum ip) = disk_inode (img s) (k_sb s) (i_inum ip)).
    { unfold disk_inode, s1. by rewrite tx_icache_img. }
    rewrite E in Hs2. rewrite (im_icache _ _ _ _ Hm1), list_insert_insert_eq in Hs2. exact Hs2.
Qed.

(** iunlockput of an inode with links: the lock is free again and one reference gone. *)
Lemma iunlockput_run c s i ip :
  tx ∅ c s -> k_icache s !! i = Some ip -> 0 < i_ref ip -> i_lock ip = mkSleeplock true (mypid s) ->
  i_nlink ip ≠ 0 ->
  let ip' := set_i_ref (fun r => r - 1) (set_i_lock (fun _ => mkSleeplock false 0) ip) in
  exists s', iunlockput i s = Ret tt s' /\ imove c s (<[i := ip']> (k_icache s)) s'.
Proof.
  intros Ht Hi Hr Hl Hn ip'. pose proof (tx_calm _ _ _ Ht) as Hc. unfold iunlockput, iunlock.
  assert (Hh : holdingsleep (SlInode i) s = Ret true s).
  { apply holdingsleep_held; [done|]. unfold holds_sl. cbn [sl_of]. rewrite Hi. cbn. by rewrite Hl. }
  rewrite bind_assoc. run_ret Hh. cbn [negb]. rewrite bind_assoc, (bind_Ret _ _ _ _ _ (get_inode_ok _ _ _ Hi)).
  destruct (Z.ltb_spec (i_ref ip) 1); [lia|]. run_ret (releasesleep_run (SlInode i) s Hc). cbn [put_sl].
  set (g := set_i_lock (fun _ => mkSleeplock false 0)) in *.
  pose proof (imove_alter c s i g ip Ht Hi) as Hm1. set (s1 := set_k_icache (alter g i) s) in *.
  pose proof (imove_wake c s1 (ChSleeplock (SlInode i)) (im_tx _ _ _ _ Hm1)) as Hm2.
  change (k_cur s1) with (k_cur s) in Hm2. set (s2 := set_k_procs _ s1) in *.
  assert (Hi2 : k_icache s2 !! i = Some (g ip)) by (unfold s2, s1; kcbn; by rewrite list_lookup_alter_eq, Hi).
  pose proof (im_tx _ _ _ _ Hm2) as Ht2. pose proof (tx_calm _ _ _ Ht2) as Hc2.
  unfold iput. rewrite (bind_Ret _ _ _ _ _ (get_inode_ok _ _ _ Hi2)).
  assert (Eb : negb (i_ref (g ip) =? 1) || negb (i_valid (g ip)) || negb (i_nlink (g ip) =? 0) = true).
  { change (i_nlink (g ip)) with (i_nlink ip). rewrite (proj2 (Z.eqb_neq (i_nlink ip) 0) Hn). by rewrite orb_true_r. }
  rewrite Eb. lock_step Hc2.
  assert (Hi3 : k_icache (set_k_hart (hart_acquire LkIcache) s2) !! i = Some (g ip)) by exact Hi2.
  rewrite (bind_Ret _ _ _ _ _ (get_inode_ok _ _ _ Hi3)). change (i_ref (g ip)) with (i_ref ip).
  destruct (Z.ltb_spec (i_ref ip) 1); [lia|]. rewrite upd_inode_run.
  rewrite (release_after _ s2); [|apply Hc2|apply calm_fresh, Hc2|done].
  exists (set_k_icache (alter (set_i_ref (fun r => r - 1)) i) s2). split; [f_equal; keq|].
  pose proof (imove_alter c s2 i (set_i_ref (fun r => r - 1)) (g ip) Ht2 Hi2) as Hm3.
  rewrite (im_icache _ _ _ _ Hm2), (im_icache _ _ _ _ Hm1), list_insert_insert_eq in Hm3.
  eapply imove_trans; [exact Hm1|]. eapply imove_trans; [exact Hm2|exact Hm3].
Qed.
End Path.

(** ** The directory tree of a disk image *)

(** Inode [n] of the image, as a cache entry holds it. *)
Definition inode_at (I : image) (sb : superblock) (n : Z) : inode :=
  load_dinode (disk_inode I sb n) (mkInode 1 n 0 (mkSleeplock false 0) true 0 0 0 0 0 []).

(** Following the elements of a path from inode [n]. *)
Fixpoint resolve (I : image) (sb : superblock) (n : Z) (es : list (list Z)) : option Z :=
  match es with
  | [] => Some n
  | e :: es' =>
      if i_type (inode_at I sb n) =? T_DIR then
        match dirfind (dents I (inode_at I sb n)) e with
        | Some m => resolve I sb m es'
        | None => None
        end
      else None
  end.

(** An image whose inodes in use are [G]: they have a type and links, and the entries of
    the directories among them lead to inodes in use. *)
Record tree_ok (I : image) (sb : superblock) (G : Z -> Prop) : Prop := mkTreeOk {
  tr_root : G ROOTINO;
  tr_type : forall n, G n -> i_type (inode_at I sb n) ≠ 0;
  tr_links : forall n, G n -> i_nlink (inode_at I sb n) ≠ 0;
  tr_dir : forall n, G n -> i_type (inode_at I sb n) = T_DIR -> dir_ok I (inode_at I sb n);
  tr_closed : forall n de, G n -> i_type (inode_at I sb n) = T_DIR ->
    de ∈ dents I (inode_at I sb n) -> de_inum de ≠ 0 -> G (de_inum de) }.

(** A cache entry nobody has locked and that agrees with the image. *)
Definition quiet (I : image) (sb : superblock) (ip : inode) : Prop :=
  unlocked ip /\ (0 < i_ref ip -> i_valid ip = true -> i_dev ip = 1 -> dinode_of ip = disk_inode I sb (i_inum ip)).

Lemma dents_dinode I ip ip' : dinode_of ip = dinode_of ip' -> dents I ip = dents I ip'.
Proof.
  intros [= _ _ _ _ Hs Ha]. unfold dents. rewrite Hs. apply list_fmap_ext. intros j k _. unfold dent. f_equal.
  unfold fbytes. apply list_fmap_ext. intros _ o _. unfold fbyte, baddr, iaddr. by rewrite Ha.
Qed.

Lemma dir_ok_dinode I ip ip' : dinode_of ip = dinode_of ip' -> i_dev ip = i_dev ip' -> dir_ok I ip -> dir_ok I ip'.
Proof.
  intros [= Ht _ _ _ Hs Ha] Hd [D1 D2 D3 D4 D5]. split; try congruence.
  intros o Ho. rewrite <- Hs in Ho. specialize (D5 o Ho). unfold mapped, baddr, iaddr in *. by rewrite <- Ha.
Qed.

Lemma dinode_inode_at I sb n : dinode_of (inode_at I sb n) = disk_inode I sb n.
Proof. unfold inode_at. by destruct (disk_inode I sb n). Qed.

Lemma loaded_dinode I sb ip f :
  quiet I sb ip -> 0 < i_ref ip -> i_dev ip = 1 ->
  dinode_of (loaded I sb (set_i_lock f ip)) = disk_inode I sb (i_inum ip).
Proof.
  intros [_ Hq] Hr Hd. unfold loaded. cbn [i_valid set_i_lock]. destruct (i_valid ip) eqn:Hv.
  - by apply Hq.
  - cbn [i_inum set_i_lock]. by destruct (disk_inode I sb (i_inum ip)).
Qed.

Lemma loaded_fields I sb ip :
  ident (loaded I sb ip) = ident ip /\ i_lock (loaded I sb ip) = i_lock ip /\ i_valid (loaded I sb ip) = true.
Proof. unfold loaded. destruct (i_valid ip) eqn:E; by split_and!. Qed.

Lemma iget_pure_cases dev inum cs j cs' :
  iget_pure dev inum cs = Some (j, cs') ->
  exists ip, cs !! j = Some ip /\
    ((icaches dev inum ip /\ cs' = <[j := set_i_ref (fun r => r + 1) ip]> cs) \/
     (unused ip /\ cs' = <[j := iclaim dev inum ip]> cs)).
Proof.
  unfold iget_pure. destruct (list_find (icaches dev inum) cs) as [[k ip]|] eqn:Ef.
  - intros [= -> <-]. apply list_find_Some in Ef as (Hi & Hc & _). exists ip. split; [done|]. by left.
  - destruct (list_find unused cs) as [[k ip]|] eqn:Eu; [|done]. intros [= -> <-].
    apply list_find_Some in Eu as (Hi & Hu & _). exists ip. split; [done|]. by right.
Qed.

Lemma iget_pure_room dev inum cs : Exists unused cs -> exists j cs', iget_pure dev inum cs = Some (j, cs').
Proof.
  intros Hx. unfold iget_pure. destruct (list_find (icaches dev inum) cs) as [[]|]; [by eauto|].
  destruct (list_find unused cs) as [[]|] eqn:Eu; [by eauto|]. exfalso. apply list_find_None in Eu.
  apply Exists_exists in Hx as (x & Hx1 & Hx2). rewrite Forall_forall in Eu. by apply (Eu x).
Qed.

(** iget keeps quiet entries quiet. *)
Lemma iget_pure_quiet I sb dev inum cs j cs' (P : nat -> Prop) :
  iget_pure dev inum cs = Some (j, cs') ->
  (forall k x, P k -> cs !! k = Some x -> quiet I sb x) ->
  forall k x, P k -> cs' !! k = Some x -> quiet I sb x.
Proof.
  intros Hg Hq k x Pk Hk. destruct (iget_pure_cases _ _ _ _ _ Hg) as (ip & Hj & Hcase).
  pose proof (lookup_lt_Some _ _ _ Hj) as Hlt.
  destruct (decide (k = j)) as [->|Hne].
  - destruct (Hq j ip Pk Hj) as [Hu Hc]. destruct Hcase as [[(C1 & C2 & C3) ->]|[Hu' ->]];
      rewrite list_lookup_insert_eq in Hk by done; injection Hk as <-; split; try done.
    intros _ Hv Hd. by apply Hc.
  - apply (Hq k); [done|]. destruct Hcase as [[_ ->]|[_ ->]]; by rewrite list_lookup_insert_ne in Hk.
Qed.

(** The NUL at the end of an element. *)
Lemma cstr_nul n e : cstr n (e ++ [0]) = cstr n e.
Proof.
  revert e. induction n as [|n IH]; intros e; [done|]. cbn [cstr]. destruct e as [|c e]; [done|].
  unfold hd0. cbn [head app from_option default]. cbn. destruct (c =? 0); [done|]. by rewrite IH.
Qed.

Lemma find_nul e ds : list_find (names (e ++ [0])) ds = list_find (names e) ds.
Proof. apply list_find_ext. intros x. unfold names. by rewrite cstr_nul. Qed.

(** ** namei *)
Section Namei.
Context {LK : Linker} {TL : TxLayer 1}.
Context (I : image) (sb : superblock) (G : Z -> Prop) (HG : tree_ok I sb G).
Context (R : Z -> Z -> Z) (K0 : gset (Z * Z)).
Context (HR : forall d n, 0 < R d n -> (d, n) ∈ K0) (HK : (size K0 + 2 <= NINODE)%nat).

(** The counts [R], and one more reference on [h]. *)
Definition plus_one (h : option Z) (d n : Z) : Z :=
  R d n + match h with Some m => if decide (d = 1 /\ n = m) then 1 else 0 | None => 0 end.

(** The state between two steps of the walk, with a reference on inode [h]. *)
Record resting (h : option Z) (c : nat) (s : kstate) : Prop := mkResting {
  re_tx : tx ∅ c s;
  re_img : forall b, img s b = I b;
  re_sb : k_sb s = sb;
  re_ok : icache_ok (k_icache s);
  re_quiet : Forall (quiet I sb) (k_icache s);
  re_refs : forall d n, iref (k_icache s) d n = plus_one h d n }.

Lemma disk_inode_ext (J J' : image) n : (forall b, J b = J' b) -> disk_inode J sb n = disk_inode J' sb n.
Proof. intros E. unfold disk_inode. by rewrite E. Qed.

(** There is room for the next inode of the walk. *)
Lemma walk_room cs h : icache_ok cs -> (forall d n, iref cs d n = plus_one h d n) -> Exists unused cs.
Proof.
  intros Hok Href. apply ikeys_room; [done|].
  assert (Hsub : ikeys cs ⊆ match h with Some m => {[(1, m)]} ∪ K0 | None => K0 end).
  { intros [d n] Hin. apply (elem_of_ikeys _ _ _ Hok) in Hin. rewrite Href in Hin. unfold plus_one in Hin.
    destruct h as [m|]; [case_decide as E|]; [destruct E as [-> ->]; set_solver| |].
    - apply elem_of_union_r, HR. lia.
    - apply HR. lia. }
  apply subseteq_size in Hsub. destruct h as [m|]; [|lia].
  pose proof (size_union_alt {[(1, m)]} K0). rewrite size_singleton in *.
  assert (Hd : K0 ∖ {[(1, m)]} ⊆ K0) by set_solver. apply subseteq_size in Hd. lia.
Qed.

(** Inode [n], held in slot [i], locked. *)
Record at_node (n : Z) (i : nat) (ip : inode) (c : nat) (s : kstate) : Prop := mkAtNode {
  an_tx : tx ∅ c s;
  an_img : forall b, img s b = I b;
  an_sb : k_sb s = sb;
  an_ok : icache_ok (k_icache s);
  an_slot : k_icache s !! i = Some ip;
  an_caches : icaches 1 n ip;
  an_lock : i_lock ip = mkSleeplock true (mypid s);
  an_dinode : dinode_of ip = disk_inode I sb n;
  an_quiet : forall j x, j ≠ i -> k_icache s !! j = Some x -> quiet I sb x }.

Lemma walk_lock n i ip c s :
  resting (Some n) c s -> G n -> k_icache s !! i = Some ip -> icaches 1 n ip ->
  exists s' ip', ilock (Some i) s = Ret tt s' /\ at_node n i ip' c s' /\
    forall d k, iref (k_icache s') d k = plus_one (Some n) d k.
Proof.
  intros [Ht Him Hsb Hok Hq Href] Hn Hi Hcache. pose proof Hcache as (C1 & C2 & C3).
  pose proof (Forall_lookup_1 _ _ _ _ Hq Hi) as Hqi.
  destruct (ilock_run c s i ip Ht Hi C1 C2 (proj1 Hqi)) as (s' & Hr & Hm).
  { rewrite C3, Hsb, (disk_inode_ext (img s) I) by done. rewrite <- dinode_inode_at. by apply (tr_type _ _ _ HG). }
  assert (El : loaded (img s) (k_sb s) (set_i_lock (fun _ => mkSleeplock true (mypid s)) ip) =
               loaded I sb (set_i_lock (fun _ => mkSleeplock true (mypid s)) ip)).
  { unfold loaded. cbn [i_valid i_inum set_i_lock]. rewrite Hsb. destruct (i_valid ip); [done|].
    by rewrite (disk_inode_ext (img s) I). }
  rewrite El in Hm. set (ip' := loaded I sb _) in *.
  destruct (loaded_fields I sb (set_i_lock (fun _ => mkSleeplock true (mypid s)) ip)) as (Eid & Elk & Ev). fold ip' in Eid, Elk, Ev.
  destruct (icache_ident _ i ip ip' Hok Hi Eid) as [Hok' Href'].
  injection Eid as E1 E2 E3. exists s', ip'. split; [done|]. split.
  - split; [apply Hm| | | | | | | |]; try rewrite (im_icache _ _ _ _ Hm).
    + intros b. by rewrite (im_img _ _ _ _ Hm).
    + by rewrite (imove_sb _ _ _ _ Hm).
    + done.
    + apply list_lookup_insert_eq. by eapply lookup_lt_Some.
    + split_and!; congruence.
    + by rewrite (imove_pid _ _ _ _ Hm), Elk.
    + rewrite <- C3. by apply loaded_dinode.
    + intros j x Hne Hx. rewrite list_lookup_insert_ne in Hx by done. by eapply Forall_lookup_1.
  - intros d k. rewrite (im_icache _ _ _ _ Hm), Href'. apply Href.
Qed.

(** Unlocking and releasing the node; [h] is what is still held. *)
Lemma walk_release n i ip c s h :
  at_node n i ip c s -> G n ->
  (forall d k, iref (k_icache s) d k = plus_one h d k + (if decide (d = 1 /\ k = n) then 1 else 0)) ->
  exists s', iunlockput i s = Ret tt s' /\ resting h c s' /\
    forall j x, k_icache s !! j = Some x -> (j ≠ i \/ 1 < i_ref x) ->
      exists y, k_icache s' !! j = Some y /\ (i_dev y = i_dev x /\ i_inum y = i_inum x /\ (0 < i_ref x -> 0 < i_ref y)).
Proof.
  intros [Ht Him Hsb Hok Hi Hcache Hl Hdi Hq] Hn Href. pose proof Hcache as (C1 & C2 & C3).
  assert (Hlinks : i_nlink ip ≠ 0).
  { pose proof (tr_links _ _ _ HG n Hn) as H. change (i_nlink ip) with (di_nlink (dinode_of ip)).
    change (i_nlink (inode_at I sb n)) with (di_nlink (dinode_of (inode_at I sb n))) in H.
    by rewrite dinode_inode_at, <- Hdi in H. }
  destruct (iunlockput_run c s i ip Ht Hi C1 Hl Hlinks) as (s' & Hr & Hm).
  set (ul := set_i_lock (fun _ => mkSleeplock false 0) ip) in *.
  pose proof (lookup_lt_Some _ _ _ Hi) as Hlt.
  destruct (icache_ident _ i ip ul Hok Hi eq_refl) as [Hok1 Href1].
  assert (Hi1 : <[i := ul]> (k_icache s) !! i = Some ul) by by apply list_lookup_insert_eq.
  destruct (icache_drop _ i ul Hok1 Hi1 C1) as [Hok2 Href2]. rewrite list_insert_insert_eq in Hok2, Href2.
  exists s'. split; [done|]. split.
  - split; [apply Hm|intros b; by rewrite (im_img _ _ _ _ Hm)|by rewrite (imove_sb _ _ _ _ Hm)| | |];
      rewrite (im_icache _ _ _ _ Hm); [done| |].
    + apply Forall_lookup. intros j x Hx. destruct (decide (j = i)) as [->|Hne].
      * rewrite list_lookup_insert_eq in Hx by done. injection Hx as <-. split; [done|].
        intros _ _ _. cbn [i_inum set_i_ref ul set_i_lock]. rewrite C3. exact Hdi.
      * rewrite list_lookup_insert_ne in Hx by done. by apply (Hq j).
    + intros d k. rewrite Href2, Href1, Href. cbn [i_dev i_inum set_i_lock ul]. rewrite C2, C3. lia.
  - intros j x Hx Hor. rewrite (im_icache _ _ _ _ Hm). destruct (decide (j = i)) as [->|Hne].
    + exists (set_i_ref (fun r => r - 1) ul). rewrite list_lookup_insert_eq by done. simplify_eq. split; [done|].
      split_and!; [done|done|]. cbn. destruct Hor; [done|lia].
    + exists x. rewrite list_lookup_insert_ne by done. by split_and!.
Qed.

Lemma at_node_txs n i ip c s s' : at_node n i ip c s -> txs ∅ c (img s) s s' -> at_node n i ip c s'.
Proof.
  intros [Ht Him Hsb Hok Hi Hc Hl Hd Hq] [T E F _].
  pose proof (log_frame_fs _ _ F) as [Fi Fs _ _ _ _].
  split; [done| | | | |done| |done|]; rewrite ?Fi, ?Fs; try done.
  - intros b. by rewrite E.
  - by rewrite (log_frame_mypid _ _ F).
Qed.

Lemma walk_dir n i ip c s :
  at_node n i ip c s -> G n -> i_type (inode_at I sb n) = T_DIR ->
  at_dir i ip c s /\ dents (img s) ip = dents I (inode_at I sb n).
Proof.
  intros [Ht Him Hsb Hok Hi (C1 & C2 & C3) Hl Hd Hq] Hn Hty.
  assert (Ed : dinode_of (inode_at I sb n) = dinode_of ip) by by rewrite dinode_inode_at.
  split; [|rewrite (dents_ext (img s) I) by done; by apply dents_dinode].
  split; [done|done|]. apply (dir_ok_ext I); [done|].
  apply (dir_ok_dinode I (inode_at I sb n)); [done|by rewrite C2|]. by apply (tr_dir _ _ _ HG).
Qed.

Lemma walk_lookup n i ip c s e :
  at_node n i ip c s -> G n -> i_type (inode_at I sb n) = T_DIR ->
  (forall d k, iref (k_icache s) d k = plus_one (Some n) d k) ->
  match dirfind (dents I (inode_at I sb n)) e with
  | None => exists s', dirlookup i (e ++ [0]) s = Ret None s' /\ at_node n i ip c s' /\ k_icache s' = k_icache s
  | Some m => G m /\ exists j off s' ip' x,
      dirlookup i (e ++ [0]) s = Ret (Some (j, off)) s' /\ at_node n i ip' c s' /\
      k_icache s' !! j = Some x /\ icaches 1 m x /\ (j ≠ i \/ 1 < i_ref x) /\
      forall d k, iref (k_icache s') d k = plus_one (Some m) d k + (if decide (d = 1 /\ k = n) then 1 else 0)
  end.
Proof.
  intros Hn HGn Hty Href. destruct (walk_dir _ _ _ _ _ Hn HGn Hty) as [Had Hde].
  destruct (dirlookup_run (e ++ [0]) i ip c s Had) as (s1 & Hs1 & Hr). rewrite Hde, find_nul in Hr.
  pose proof (at_node_txs _ _ _ _ _ _ Hn Hs1) as Hn1.
  pose proof (sf_icache _ _ (log_frame_fs _ _ (txs_frame _ _ _ _ _ Hs1))) as Ei.
  unfold dirfind. destruct (list_find (names e) (dents I (inode_at I sb n))) as [[k de]|] eqn:Ef; cbn [fmap option_fmap option_map].
  2:{ exists s1. by split_and!. }
  cbn [snd]. apply list_find_Some in Ef as (Hk & [Hne _] & _). split.
  { eapply (tr_closed _ _ _ HG); [exact HGn|done|by eapply list_elem_of_lookup_2|done]. }
  set (m := de_inum de) in *. destruct Hn1 as [Ht Him Hsb Hok Hi Hc Hl Hd Hq].
  destruct (iget_pure_room 1 m (k_icache s1)) as (j & cs & Hg).
  { apply (walk_room _ (Some n)); [done|]. by rewrite Ei. }
  destruct (iget_pure_spec _ _ _ _ _ Hok Hg) as (Hok' & (x & Hx & Hcx) & Hoth & Hsame & Hrefs).
  destruct (iget_pure_cases _ _ _ _ _ Hg) as (y & Hy & Hcase).
  assert (Hslot : exists ip', cs !! i = Some ip' /\ (i_dev ip' = i_dev ip /\ i_inum ip' = i_inum ip /\ i_lock ip' = i_lock ip /\ dinode_of ip' = dinode_of ip) /\
    i_ref ip <= i_ref ip' /\ (j = i -> 1 < i_ref ip')).
  { destruct Hc as (C1 & _). destruct (decide (i = j)) as [->|Hne'].
    - assert (y = ip) as -> by congruence. destruct Hcase as [[_ ->]|[Hu _]]; [|unfold unused in Hu; lia].
      exists (set_i_ref (fun r => r + 1) ip). split; [apply list_lookup_insert_eq; by eapply lookup_lt_Some|].
      split; [done|]. cbn. lia.
    - exists ip. rewrite Hoth by done. by split_and!. }
  destruct Hslot as (ip' & Hi' & (E1 & E2 & E3 & E4) & Hge & Hji). destruct Hc as (C1 & C2 & C3).
  exists j, (DIRENT_SIZE * Z.of_nat k), (set_k_icache (fun _ => cs) s1), ip', x.
  split; [|split; [|split; [done|split; [done|split]]]].
  - rewrite Hr. unfold bind. rewrite iget_run by (apply Hok || by eapply tx_calm). by rewrite Hg.
  - split; [by apply tx_icache|intros b; by rewrite tx_icache_img|done|done|exact Hi'| | | |].
    + split_and!; [lia|congruence|congruence].
    + by rewrite E3.
    + by rewrite E4.
    + intros j' x' Hne' Hx'. eapply (iget_pure_quiet I sb 1 m _ j cs (fun k => k ≠ i)); [exact Hg|exact Hq|done|exact Hx'].
  - destruct (decide (j = i)) as [->|]; [right|by left]. assert (x = ip') as -> by congruence. by apply Hji.
  - intros d k'. change (k_icache (set_k_icache (fun _ => cs) s1)) with cs. rewrite Hrefs, Ei, Href. unfold plus_one. lia.
Qed.

(** The walk from inode [n] along the path. *)
Lemma walk_spec c : forall es path fuel n i ip s,
  elements path = es -> (length path <= fuel)%nat ->
  resting (Some n) c s -> G n -> k_icache s !! i = Some ip -> icaches 1 n ip ->
  exists r s', dnamex_loop fuel i path false s = Ret r s' /\ resting (resolve I sb n es) c s' /\
    match resolve I sb n es with
    | None => r = None
    | Some m => G m /\ exists j x, r = Some (j, []) /\ k_icache s' !! j = Some x /\ icaches 1 m x
    end.
Proof.
  induction es as [|e es IH]; intros path fuel n i ip s Hes Hfuel Hs Hn Hi Hcache;
    pose proof (skipelem_spec path) as Hsk; rewrite Hes in Hsk.
  { exists (Some (i, [])), s. split; [destruct fuel; cbn [dnamex_loop]; by rewrite Hsk|]. cbn [resolve].
    split; [done|]. split; [done|]. by exists i, ip. }
  destruct Hsk as (rest & Hsk & Hrest & Hlen & _). destruct fuel as [|fuel]; [lia|].
  cbn [dnamex_loop resolve]. rewrite Hsk.
  destruct (walk_lock n i ip c s Hs Hn Hi Hcache) as (s1 & ip1 & Hr1 & Hn1 & Href1). run_ret Hr1.
  rewrite (bind_Ret _ _ _ _ _ (get_inode_ok _ _ _ (an_slot _ _ _ _ _ Hn1))).
  assert (Ety : i_type ip1 = i_type (inode_at I sb n)).
  { change (di_type (dinode_of ip1) = di_type (dinode_of (inode_at I sb n))).
    by rewrite dinode_inode_at, (an_dinode _ _ _ _ _ Hn1). }
  rewrite Ety. assert (Hrel : forall s0 ip0, at_node n i ip0 c s0 -> k_icache s0 = k_icache s1 ->
    exists r s', (do! iunlockput i; ret None) s0 = Ret r s' /\ resting None c s' /\ r = None :> option (nat * list Z)).
  { intros s0 ip0 H0 E0. destruct (walk_release n i ip0 c s0 None H0 Hn) as (s' & Hr & Hs' & _).
    - intros d k. rewrite E0, Href1. unfold plus_one. lia.
    - exists None, s'. split; [by run_ret Hr|done]. }
  destruct (Z.eqb_spec (i_type (inode_at I sb n)) T_DIR) as [Hty|Hty]; cbn [negb].
  2:{ destruct (Hrel s1 ip1 Hn1 eq_refl) as (r & s' & Hx & Hy & Hz). exists r, s'. by split_and!. }
  cbn [andb]. pose proof (walk_lookup n i ip1 c s1 e Hn1 Hn Hty Href1) as Hlk.
  destruct (dirfind (dents I (inode_at I sb n)) e) as [m|].
  2:{ destruct Hlk as (s2 & Hr2 & Hn2 & E2). run_ret Hr2.
      destruct (Hrel s2 ip1 Hn2 E2) as (r & s' & Hx & Hy & Hz). exists r, s'. by split_and!. }
  destruct Hlk as (Hm & j & off & s2 & ip2 & x & Hr2 & Hn2 & Hx & Hcx & Hor & Href2). run_ret Hr2.
  destruct (walk_release n i ip2 c s2 (Some m) Hn2 Hn Href2) as (s3 & Hr3 & Hs3 & Hkeep). run_ret Hr3.
  destruct (Hkeep j x Hx Hor) as (y & Hy & E1 & E2 & E3). destruct Hcx as (C1 & C2 & C3).
  apply (IH rest fuel m j y s3); [done|lia|done|done|done|]. split_and!; [by apply E3|congruence|congruence].
Qed.
End Namei.

Section NameiCorrect.
Context {LK : Linker} {TL : TxLayer 1}.

(** C4. namei resolves paths.  In a file system whose directories are well formed, with an
    inode cache that agrees with the disk, holds no lock and has two free slots, namei of
    any path terminates without panic: it follows the elements of the path (cut at
    slashes, at most DIRSIZ - 1 bytes each) through the directories from the root, and
    returns a slot that caches the inode the path leads to, with exactly one more
    reference on that inode, or nothing when an element is missing or is not in a
    directory, with the reference counts it found.  Every lock it took is free again and
    the disk image is unchanged. *)
Theorem namei_resolves (G : Z -> Prop) c s path :
  tx ∅ c s -> tree_ok (img s) (k_sb s) G ->
  icache_ok (k_icache s) -> Forall (quiet (img s) (k_sb s)) (k_icache s) ->
  (size (ikeys (k_icache s)) + 2 <= NINODE)%nat ->
  let target := resolve (img s) (k_sb s) ROOTINO (elements path) in
  exists r s', namei path s = Ret r s' /\ tx ∅ c s' /\ (forall b, img s' b = img s b) /\
    icache_ok (k_icache s') /\ Forall (quiet (img s) (k_sb s)) (k_icache s') /\
    match target with
    | None => r = None /\ forall d n, iref (k_icache s') d n = iref (k_icache s) d n
    | Some m => (exists j ip, r = Some j /\ k_icache s' !! j = Some ip /\ icaches 1 m ip) /\
        forall d n, iref (k_icache s') d n = iref (k_icache s) d n + (if decide (d = 1 /\ n = m) then 1 else 0)
    end.
Proof.
  intros Ht HG Hok Hq Hroom target. set (I := img s) in *. set (sb := k_sb s) in *.
  set (R := iref (k_icache s)). set (K0 := ikeys (k_icache s)).
  assert (HR : forall d n, 0 < R d n -> (d, n) ∈ K0) by (intros d n Hpos; by apply elem_of_ikeys).
  destruct (iget_pure_room ROOTDEV ROOTINO (k_icache s)) as (j & cs & Hg).
  { apply ikeys_room; [done|lia]. }
  destruct (iget_pure_spec _ _ _ _ _ Hok Hg) as (Hok' & (x & Hx & Hcx) & _ & _ & Hrefs).
  assert (Hrest : resting I sb R (Some ROOTINO) c (set_k_icache (fun _ => cs) s)).
  { split; [by apply tx_icache|intros b; by rewrite tx_icache_img|done|done| |].
    - apply Forall_lookup. intros k y Hy. eapply (iget_pure_quiet I sb _ _ _ j cs (fun _ => True)); [exact Hg| |done|exact Hy].
      intros k' y' _ Hy'. by eapply Forall_lookup_1.
    - intros d n. apply Hrefs. }
  destruct (walk_spec I sb G HG R K0 HR Hroom c (elements path) path (length path) ROOTINO j x _ eq_refl (le_n _) Hrest (tr_root _ _ _ HG) Hx Hcx)
    as (r & s' & Hr & [Rt Ri Rs Ro Rq Rr] & Hres). fold target in Rr, Hres.
  assert (Hname : namei path s = Ret (fst <$> r) s').
  { unfold namei, dnamex. rewrite bind_assoc. erewrite bind_Ret.
    2:{ rewrite iget_run by (apply Hok || by eapply tx_calm). by rewrite Hg. }
    by run_ret Hr. }
  exists (fst <$> r), s'. split_and!; [done|done|done|done|done|]. unfold plus_one in Rr.
  destruct target as [m|].
  - destruct Hres as (_ & k & y & -> & Hy & Hcy). split; [|done]. exists k, y. by split_and!.
  - subst r. split; [done|]. intros d n. rewrite Rr. unfold R. lia.
Qed.
End NameiCorrect.
