(* ===== verification/File.v ===== *)
(** * Open files (kernel/file.c) and the creation of pipes

    The global table of NFILE open files; a file pointer is the index of its slot.
    [pipealloc] of kernel/pipe.c is here because it allocates two file slots. *)

From S2P Require Import Prelude Params Machine Spinlock Sched CString Kalloc Vm Pipe Bio Log Fs.

Section File.
Context `{Linker}.

(** ** Code *)
Definition get_file (f : nat) : K file :=
  fun s => match k_ftable s !! f with Some x => Ret x s | None => Fault "file pointer" s end.
Definition upd_file (f : nat) (g : file -> file) : K unit :=
  modify (set_k_ftable (alter g f)).

Definition fileinit : K unit := initlock LkFtable.

Definition filealloc : K (option nat) :=
  do! acquire LkFtable;
  let! r := search (seq 0 NFILE) (fun f =>
    let! x := get_file f in
    if f_ref x =? 0 then
      do! upd_file f (set_f_ref (fun _ => 1));
      do! release LkFtable;
      ret (Some f)
    else ret None) in
  match r with
  | Some f => ret (Some f)
  | None => do! release LkFtable; ret None
  end.

Definition filedup (f : nat) : K nat :=
  do! acquire LkFtable;
  let! x := get_file f in
  if f_ref x <? 1 then panic "filedup"
  else
    do! upd_file f (set_f_ref (fun r => r + 1));
    do! release LkFtable;
    ret f.

(** [iput] of a pointer that may be null. *)
Definition iput_ptr (ip : option nat) : K unit :=
  match ip with Some i => iput i | None => fault "null inode" end.

(** What the last close does with the copied-out file. *)
Definition fileclose_last (ff : file) : K unit :=
  if f_type ff =? FD_INODE then
    do! begin_op;
    do! iput_ptr (f_ip ff);
    end_op
  else if f_type ff =? FD_PIPE then pipeclose (f_pipe ff) (f_writable ff)
  else ret tt.

Definition fileclose (f : nat) : K unit :=
  do! acquire LkFtable;
  let! x := get_file f in
  if f_ref x <? 1 then panic "fileclose"
  else
    do! upd_file f (set_f_ref (fun r => r - 1));
    let! ff := get_file f in
    if 0 <? f_ref ff then release LkFtable
    else
      do! upd_file f (set_f_ref (fun _ => 0));
      do! upd_file f (set_f_type (fun _ => FD_NONE));
      do! release LkFtable;
      fileclose_last ff.

(** [pad]: the padding bytes of the struct stat on the stack. *)
Definition filestat (pad : list Z) (f : nat) (addr : Z) : K Z :=
  let! p := myproc in
  let! x := get_file f in
  if negb (f_type x =? FD_INODE) then ret (-1)
  else
    do! ilock (f_ip x);
    match f_ip x with
    | None => fault "null inode"
    | Some ip =>
        let! st := stati ip in
        do! iunlock (f_ip x);
        let! pt := pagetable_of p in
        let! r := copyout pt addr (stat_bytes pad st) in
        if r <? 0 then ret (-1) else ret 0
    end.

(** The test [f->type != FD_INODE || f->ip == 0 || f->ip->type == T_DEVICE]:
    the inode when it passes. *)
Definition file_inode (x : file) : K (option nat) :=
  if negb (f_type x =? FD_INODE) then ret None
  else match f_ip x with
       | None => ret None
       | Some ip => let! i := get_inode ip in if i_type i =? T_DEVICE then ret None else ret (Some ip)
       end.

Definition fileread (f : nat) (addr n : Z) : K Z :=
  let! x := get_file f in
  if negb (f_readable x) then ret (-1)
  else if f_type x =? FD_PIPE then piperead (f_pipe x) addr n
  else
    let! oip := file_inode x in
    match oip with
    | None => ret (-1)
    | Some ip =>
        do! ilock (Some ip);
        let! x := get_file f in
        let! rb := readi ip (ToUser addr) (f_off x) (u32 n) in
        let r := i32 (fst rb) in
        do! when (0 <? r) (upd_file f (set_f_off (fun o => u32 (o + r))));
        do! iunlock (Some ip);
        ret r
    end.

(** The most bytes written per transaction. *)
Definition write_max : Z := (MAXOPBLOCKS - 1) / 2 * Z.of_nat BSIZE.

(** The loop of filewrite; [src] is advanced by every chunk, and the address passed
    to writei is src + ret. *)
Fixpoint filewrite_loop (fuel : nat) (f ip : nat) (src n r : Z) : K Z :=
  if n <=? 0 then ret r
  else match fuel with
  | O => fault "filewrite: fuel"
  | S fuel' =>
      let n := if write_max <? n then write_max else n in
      do! begin_op;
      let! x := get_file f in
      let! w := writei ip (FromUser (u64 (src + r))) (f_off x) (u32 n) in
      do! end_op;
      if w <? 0 then ret (if r =? 0 then -1 else r)
      else if w =? 0 then ret r
      else
        do! upd_file f (set_f_off (fun o => u32 (o + w)));
        filewrite_loop fuel' f ip (u64 (src + w)) (n - w) (r + w)
  end.

Definition filewrite (f : nat) (src n : Z) : K Z :=
  let! x := get_file f in
  if negb (f_writable x) then ret (-1)
  else if f_type x =? FD_PIPE then pipewrite (f_pipe x) src n
  else
    let! oip := file_inode x in
    match oip with
    | None => ret (-1)
    | Some ip =>
        do! ilock (Some ip);
        let! i := get_inode ip in
        do! upd_file f (set_f_off (fun o => if i_size i <? o then i_size i else o));
        let! r := filewrite_loop (Z.to_nat n) f ip src n 0 in
        do! iunlock (Some ip);
        ret r
    end.

(** ** pipealloc *)
Definition fresh_pipe : pipe := mkPipe (replicate (Z.to_nat PIPESIZE) 0) 0 0 true true.

Definition close_if (f : option nat) : K unit :=
  match f with Some f => fileclose f | None => ret tt end.

Definition pipealloc_bad (rf wf : option nat) : K (Z * option nat * option nat) :=
  do! close_if rf;
  do! close_if wf;
  ret (-1, None, None).

(** pipealloc(&f0, &f1): the status and the two pointers. *)
Definition pipealloc : K (Z * option nat * option nat) :=
  let! rf := filealloc in
  match rf with
  | None => pipealloc_bad None None
  | Some r =>
      let! wf := filealloc in
      match wf with
      | None => pipealloc_bad rf None
      | Some w =>
          let! pi := kalloc in
          if pi =? 0 then pipealloc_bad rf wf
          else
            do! modify (set_k_pipes (insert pi fresh_pipe));
            do! initlock (LkPipe pi);
            do! upd_file r (fun x => mkFile FD_PIPE (f_ref x) true false (f_ip x) pi (f_off x));
            do! upd_file w (fun x => mkFile FD_PIPE (f_ref x) false true (f_ip x) pi (f_off x));
            ret (0, Some r, Some w)
      end
  end.
End File.
