(* ===== verification/Proc.v ===== *)
(** * Processes (kernel/proc.c)

    Allocation and release of process slots, fork, exit and wait, and the first
    process.  (The scheduler, sleep, wakeup and kill are in Sched.v.)  A trap frame
    is a page of physical memory holding struct usertrapframe, 36 words. *)

From S2P Require Import Prelude Params Machine Spinlock Sched CString Kalloc Vm Pipe Bio Log Fs File.

(** ** struct usertrapframe *)
Definition TF_kernel_satp : Z := 0.
Definition TF_kernel_sp : Z := 8.
Definition TF_kernel_trap : Z := 16.
Definition TF_epc : Z := 24.
Definition TF_kernel_hartid : Z := 32.
Definition TF_sp : Z := 48.
Definition TF_s0 : Z := 96.
Definition TF_s1 : Z := 104.
Definition TF_a0 : Z := 112.
Definition TF_a1 : Z := 120.
Definition TF_a7 : Z := 168.
Definition TF_SIZE : nat := 288.

(** A field of the trap frame at physical address [tf]. *)
Definition tf_get (tf off : Z) : K Z := gets (fun s => ld64 (k_mem s) (tf + off)).
Definition tf_set (tf off v : Z) : K unit := modify (set_k_mem (fun m => st64 m (tf + off) v)).

(** char name[16] after safestrcpy of a string into it. *)
Definition NAMESZ : Z := 16.
Definition set_name (str : list Z) : proc -> proc :=
  set_p_name (splice 0 (safestrcpy str NAMESZ)).

Section Proc.
Context `{Linker}.

(** A use of a process pointer that may be null. *)
Definition proc_ptr (p : option nat) : K nat :=
  match p with Some i => ret i | None => fault "null process" end.

(** ** Slots *)
Definition allocpid (p : nat) : K unit :=
  let! pid := gets k_nextpid in
  do! upd_proc p (set_p_pid (fun _ => pid));
  modify (set_k_nextpid (fun _ => pid + 1)).

Definition procinit_one (i : nat) : K unit :=
  do! initlock (LkProc i);
  do! upd_proc i (set_p_kstack (fun _ => KSTACK (Z.of_nat i)));
  let! pa := kalloc in
  if pa =? 0 then panic "procinit: kernel-stack allocation"
  else
    let! kpt := gets k_kpt in
    do! kvmmap kpt (KSTACK (Z.of_nat i)) pa PGSIZE (Z.lor PTE_R PTE_W);
    upd_proc i (set_p_state (fun _ => UNUSED)).

(** (cpus[0].noff and cpus[0].intena, which procinit also clears, are never read.) *)
Definition procinit : K unit :=
  do! initlock LkWait;
  do! each (seq 0 NPROC) procinit_one;
  modify (set_k_cur (fun _ => None)).

Definition freeproc (p : nat) : K unit :=
  let! pr := get_proc p in
  do! when (negb (p_trapframe pr =? 0))
        (do! kfree (p_trapframe pr);
         upd_proc p (set_p_trapframe (fun _ => 0)));
  do! when (negb (p_pagetable pr =? 0))
        (do! uvmfree (p_pagetable pr) (p_sz pr);
         upd_proc p (set_p_pagetable (fun _ => 0)));
  do! upd_proc p (set_p_sz (fun _ => 0));
  do! upd_proc p (set_p_pid (fun _ => 0));
  do! upd_proc p (set_p_chan (fun _ => None));
  do! upd_proc p (set_p_killed (fun _ => 0));
  do! upd_proc p (set_p_xstate (fun _ => 0));
  do! upd_proc p (set_p_parent (fun _ => None));
  do! upd_proc p (set_p_context (fun _ => zero_context));
  upd_proc p (set_p_state (fun _ => UNUSED)).

(** The scan of allocproc: the first UNUSED slot, returned with its lock held. *)
Definition find_unused : K (option nat) :=
  search (seq 0 NPROC) (fun i =>
    do! acquire (LkProc i);
    let! p := get_proc i in
    if is_state UNUSED p then ret (Some i)
    else
      do! release (LkProc i);
      ret None).

Definition str_proc : list Z := [112; 114; 111; 99; 0].
Definition str_initcode : list Z := [105; 110; 105; 116; 99; 111; 100; 101; 0].

Definition fresh_slot (p : proc) : proc :=
  set_p_cwd (fun _ => None)
  (set_p_ofile (fun _ => replicate NOFILE None)
  (set_name str_proc
  (set_p_parent (fun _ => None)
  (set_p_xstate (fun _ => 0)
  (set_p_killed (fun _ => 0)
  (set_p_chan (fun _ => None)
  (set_p_sz (fun _ => 0)
  (set_p_state (fun _ => USED) p)))))))).

Definition allocproc_fail (p : nat) : K (option nat) :=
  do! freeproc p;
  do! release (LkProc p);
  ret None.

Definition start_context (kstack : Z) : context :=
  mkContext addr_forkret (kstack + PGSIZE) 0 0 0 0 0 0 0 0 0 0 0 0.

Definition allocproc : K (option nat) :=
  let! o := find_unused in
  match o with
  | None => ret None
  | Some p =>
      do! allocpid p;
      do! upd_proc p fresh_slot;
      let! tf := kalloc in
      do! upd_proc p (set_p_trapframe (fun _ => tf));
      if tf =? 0 then allocproc_fail p
      else
        let! pt := uvmcreate in
        do! upd_proc p (set_p_pagetable (fun _ => pt));
        if pt =? 0 then allocproc_fail p
        else
          let! pr := get_proc p in
          do! upd_proc p (set_p_context (fun _ => start_context (p_kstack pr)));
          ret (Some p)
  end.

(** ** fork *)
Definition PTE_RX : Z := Z.lor PTE_R PTE_X.
Definition PTE_RWU : Z := Z.lor (Z.lor PTE_R PTE_W) PTE_U.

(** Duplicate descriptor [i] of process [p] into process [np]. *)
Definition fork_dup (p np : nat) (i : nat) : K unit :=
  let! pr := get_proc p in
  match p_ofile pr !! i with
  | Some (Some f) =>
      let! f' := filedup f in
      upd_proc np (set_p_ofile (insert i (Some f')))
  | _ => ret tt
  end.

Definition fork : K Z :=
  let! me := myproc in
  let! o := allocproc in
  match o with
  | None => ret (-1)
  | Some np =>
      let! npr := get_proc np in
      do! uvmmap (p_pagetable npr) TRAMPOLINE trampoline PGSIZE PTE_RX;
      do! uvmmap (p_pagetable npr) TRAPFRAME (p_trapframe npr) PGSIZE PTE_RWU;
      let! p := proc_ptr me in
      let! pr := get_proc p in
      let! r := uvmcopy (p_pagetable pr) (p_pagetable npr) (p_sz pr) in
      if r <? 0 then
        do! uvmunmap (p_pagetable npr) TRAPFRAME 1 false;
        do! uvmunmap (p_pagetable npr) TRAMPOLINE 1 false;
        do! freeproc np;
        do! release (LkProc np);
        ret (-1)
      else
        do! upd_proc np (set_p_sz (fun _ => p_sz pr));
        do! modify (set_k_mem (fun m =>
              st_bytes m (p_trapframe npr) (ld_bytes m (p_trapframe pr) TF_SIZE)));
        do! tf_set (p_trapframe npr) TF_a0 0;
        do! each (seq 0 NOFILE) (fork_dup p np);
        do! match p_cwd pr with
            | Some ip => let! ip' := idup ip in upd_proc np (set_p_cwd (fun _ => Some ip'))
            | None => ret tt
            end;
        do! upd_proc np (set_name (p_name pr));
        let! npr := get_proc np in
        let pid := p_pid npr in
        do! release (LkProc np);
        do! acquire LkWait;
        do! upd_proc np (set_p_parent (fun _ => Some p));
        do! acquire (LkProc np);
        do! upd_proc np (set_p_state (fun _ => RUNNABLE));
        do! release (LkProc np);
        do! release LkWait;
        ret pid
  end.

(** ** exit *)
Definition reparent_one (p : nat) (i : nat) : K unit :=
  let! pp := get_proc i in
  when (bool_decide (p_parent pp = Some p))
    (do! upd_proc i (set_p_parent (fun _ => Some 0%nat));
     wakeup (ChProc 0)).

Definition reparent (p : nat) : K unit := each (seq 0 NPROC) (reparent_one p).

Definition exit_close (p : nat) (fd : nat) : K unit :=
  let! pr := get_proc p in
  match p_ofile pr !! fd with
  | Some (Some f) =>
      do! upd_proc p (set_p_ofile (insert fd None));
      fileclose f
  | _ => ret tt
  end.

(** wakeup(0): the processes asleep with a null channel. *)
Definition wakeup_null_one (i : nat) : K unit :=
  let! me := myproc in
  if bool_decide (me = Some i) then ret tt
  else
    do! acquire (LkProc i);
    let! p := get_proc i in
    do! when (is_state SLEEPING p && bool_decide (p_chan p = None))
          (upd_proc i (set_p_state (fun _ => RUNNABLE)));
    release (LkProc i).

Definition wakeup_proc (p : option nat) : K unit :=
  match p with
  | Some i => wakeup (ChProc i)
  | None => each (seq 0 NPROC) wakeup_null_one
  end.

(** exit after the files and the directory are released. *)
Definition exit_tail (p : nat) (status : Z) : K unit :=
  do! acquire LkWait;
  do! reparent p;
  let! pr := get_proc p in
  do! wakeup_proc (p_parent pr);
  do! acquire (LkProc p);
  do! upd_proc p (set_p_xstate (fun _ => status));
  do! upd_proc p (set_p_state (fun _ => ZOMBIE));
  do! release LkWait;
  do! (sched : K unit);
  panic "zombie exit".

Definition exit (status : Z) : K unit :=
  let! p := curproc in
  if (p =? 0)%nat then panic "init exiting"
  else
    do! each (seq 0 NOFILE) (exit_close p);
    do! begin_op;
    let! pr := get_proc p in
    do! match p_cwd pr with
        | Some ip => do! iput ip; upd_proc p (set_p_cwd (fun _ => None))
        | None => ret tt
        end;
    do! end_op;
    exit_tail p status.

(** ** wait *)

(** The reaping of the zombie child [i]; the function's result. *)
Definition wait_reap (p i : nat) (addr : Z) : K Z :=
  let! me := get_proc p in
  let! pp := get_proc i in
  let pid := p_pid pp in
  let! bad := (if addr =? 0 then ret false
               else let! r := copyout (p_pagetable me) addr (le_bytes 4 (p_xstate pp)) in ret (r <? 0)) in
  if bad then
    do! release (LkProc i);
    do! release LkWait;
    ret (-1)
  else
    do! when (negb (p_pagetable pp =? 0))
          (do! uvmunmap (p_pagetable pp) TRAPFRAME 1 false;
           uvmunmap (p_pagetable pp) TRAMPOLINE 1 false);
    do! freeproc i;
    do! release (LkProc i);
    do! release LkWait;
    ret pid.

(** One scan of the table: the function's result, or whether a child was seen. *)
Fixpoint wait_scan (slots : list nat) (p : nat) (addr : Z) (havekids : bool) : K (Z + bool) :=
  match slots with
  | [] => ret (inr havekids)
  | i :: slots' =>
      let! pp := get_proc i in
      if negb (bool_decide (p_parent pp = Some p)) then wait_scan slots' p addr havekids
      else
        do! acquire (LkProc i);
        let! pp := get_proc i in
        if is_state ZOMBIE pp then
          let! r := wait_reap p i addr in
          ret (inl r)
        else
          do! release (LkProc i);
          wait_scan slots' p addr true
  end.

(** The body of the loop of wait, up to the return or the switch. *)
Definition wait_loop (p : nat) (addr : Z) : K Z :=
  let! r := wait_scan (seq 0 NPROC) p addr false in
  match r with
  | inl r => ret r
  | inr havekids =>
      let! pr := get_proc p in
      if negb havekids || negb (p_killed pr =? 0) then
        do! release LkWait;
        ret (-1)
      else sleep (ChProc p) LkWait
  end.

Definition wait (addr : Z) : K Z :=
  let! p := curproc in
  do! acquire LkWait;
  wait_loop p addr.

(** The process that slept in wait runs again. *)
Definition wait_return (p : nat) (addr : Z) : K Z :=
  do! sleep_return p LkWait;
  wait_loop p addr.

(** ** The first process *)
Definition initcode : list Z :=
  [0xc1; 0x48; 0x05; 0x45; 0xb9; 0x45; 0x31; 0x46; 0x73; 0x00; 0x00; 0x00;
   0x01; 0xa0; 0x53; 0x59; 0x53; 0x43; 0x41; 0x4c; 0x4c; 0x5f; 0x4f; 0x4b;
   0x0a; 0x00].

Definition userinit : K unit :=
  let! o := allocproc in
  match o with
  | None => panic "userinit: allocproc"
  | Some p =>
      let! pr := get_proc p in
      do! uvmmap (p_pagetable pr) TRAMPOLINE trampoline PGSIZE PTE_RX;
      do! uvmmap (p_pagetable pr) TRAPFRAME (p_trapframe pr) PGSIZE PTE_RWU;
      let! r := uvmfirst (p_pagetable pr) initcode in
      if r <? 0 then panic "userinit: uvmfirst"
      else
        do! upd_proc p (set_p_sz (fun _ => PGSIZE));
        do! upd_proc p (set_name str_initcode);
        do! memset_k (p_trapframe pr) 0 TF_SIZE;
        do! tf_set (p_trapframe pr) TF_kernel_sp (p_kstack pr + PGSIZE);
        do! tf_set (p_trapframe pr) TF_kernel_trap addr_usertrap;
        do! tf_set (p_trapframe pr) TF_epc 0;
        do! upd_proc p (set_p_state (fun _ => RUNNABLE));
        release (LkProc p)
  end.
End Proc.
