(* ===== verification/ProcSpec.v ===== *)
(** * Exit and wait

    A process that exits becomes a zombie, hands its children to process 0 and wakes its
    parent; the parent, dispatched again inside wait, finds a zombie child to reap. *)

From S2P Require Import Prelude Params Machine Spinlock Sched CString Kalloc Vm Pipe Bio Log Fs File Proc.

(** ** reparent as a pure update of the table *)
Definition rstep (me : option nat) (p : nat) (ps : list proc) (i : nat) : list proc :=
  match ps !! i with
  | Some x =>
      if bool_decide (p_parent x = Some p)
      then wake_table me (ChProc 0) (alter (set_p_parent (fun _ => Some 0%nat)) i ps)
      else ps
  | None => ps
  end.

Lemma length_rstep me p ps i : length (rstep me p ps i) = length ps.
Proof. unfold rstep. destruct (ps !! i); [|done]. case_bool_decide; [|done]. by rewrite length_wake_table, length_alter. Qed.

Lemma reparent_one_spec p i s : kok s -> (i < NPROC)%nat ->
  let s' := set_k_procs (fun ps => rstep (k_cur s) p ps i) s in reparent_one p i s = Ret tt s' /\ kok s'.
Proof.
  intros Hk Hi. pose proof Hk as (H1 & H2 & H3). cbv zeta. split.
  2:{ split_and!; [done|done|]. cbn. by rewrite length_rstep. }
  destruct (lookup_lt_is_Some_2 (k_procs s) i ltac:(lia)) as [x Hx].
  unfold reparent_one. erewrite bind_Ret by (unfold get_proc; rewrite Hx; done). unfold set_k_procs, rstep. rewrite Hx. case_bool_decide; [|done].
  cbn [when]. unfold upd_proc. rewrite bind_modify. set (s1 := set_k_procs _ s).
  assert (Hk1 : kok s1) by (split_and!; [done|done|cbn; by rewrite length_alter]). by rewrite (proj1 (kok_wake (ChProc 0) s1 Hk1)).
Qed.

Lemma reparent_each p l : Forall (fun i => i < NPROC)%nat l -> forall s, kok s ->
  let s' := set_k_procs (fold_left (rstep (k_cur s) p) l) s in each l (reparent_one p) s = Ret tt s' /\ kok s'.
Proof.
  induction 1 as [|i l Hi _ IH]; intros s Hk; [done|]. cbn [each fold_left]. destruct (reparent_one_spec p i s Hk Hi) as [E Hk1].
  run_ret E. by apply (IH (set_k_procs (fun ps => rstep (k_cur s) p ps i) s)).
Qed.

(** What reparent may do to the entry of process [j]. *)
Definition moved (me : option nat) (p j : nat) (x x' : proc) : Prop :=
  exists st pa, x' = set_p_state (fun _ => st) (set_p_parent (fun _ => pa) x) /\
  (pa = p_parent x \/ p_parent x = Some p /\ pa = Some 0%nat) /\
  (st = p_state x \/ me ≠ Some j /\ p_state x = SLEEPING /\ p_chan x = Some (ChProc 0) /\ st = RUNNABLE).

Lemma moved_refl me p j x : moved me p j x x.
Proof. exists (p_state x), (p_parent x). split; [by destruct x|]. split; by left. Qed.

Lemma moved_trans me p j x y z : p ≠ 0%nat -> moved me p j x y -> moved me p j y z -> moved me p j x z.
Proof.
  intros Hp (st & pa & -> & Hpa & Hst) (st' & pa' & -> & Hpa' & Hst'). exists st', pa'. split; [done|]. cbn in *. split.
  - destruct Hpa' as [->|[E ->]]; [done|]. destruct Hpa as [->|[_ ->]]; [by right|congruence].
  - destruct Hst' as [->|(Hm & E & Hc & ->)]; [done|]. destruct Hst as [->|(_ & _ & _ & ->)]; [by right|done].
Qed.

Lemma rstep_moved me p ps i j x : p ≠ 0%nat -> ps !! j = Some x ->
  exists x', rstep me p ps i !! j = Some x' /\ moved me p j x x' /\ (i = j -> p_parent x' ≠ Some p).
Proof.
  intros Hp Hx. unfold rstep. destruct (ps !! i) as [y|] eqn:Hy.
  2:{ exists x. split_and!; [done|apply moved_refl|]. intros ->. congruence. }
  case_bool_decide as Hc.
  2:{ exists x. split_and!; [done|apply moved_refl|]. intros ->. congruence. }
  rewrite lookup_wake_table.
  assert (Hw : forall z, moved me p j x z -> moved me p j x (if bool_decide (me = Some j) then z else wake (ChProc 0) z) /\
                         p_parent (if bool_decide (me = Some j) then z else wake (ChProc 0) z) = p_parent z).
  { intros z Hz. case_bool_decide as Hm; [done|]. unfold wake, is_state. destruct (decide (p_state z = SLEEPING /\ p_chan z = Some (ChProc 0))) as [[E1 E2]|E].
    - rewrite !bool_decide_true by done. cbn [andb]. split; [|done]. apply (moved_trans _ _ _ _ z); [done|done|]. exists RUNNABLE, (p_parent z).
      split; [by destruct z|]. split; [by left|]. by right.
    - destruct (bool_decide (p_state z = SLEEPING)) eqn:E1, (bool_decide (p_chan z = Some (ChProc 0))) eqn:E2; cbn [andb]; try done.
      exfalso. apply E. by rewrite bool_decide_eq_true in E1, E2. }
  destruct (decide (i = j)) as [->|Hne].
  - rewrite list_lookup_alter_eq, Hx. cbn [fmap option_fmap option_map]. assert (y = x) as -> by congruence.
    destruct (Hw (set_p_parent (fun _ => Some 0%nat) x)) as [H1 H2].
    { exists (p_state x), (Some 0%nat). split; [by destruct x|]. split; [by right|by left]. }
    eexists. split_and!; [done|done|]. intros _. rewrite H2. cbn. congruence.
  - rewrite list_lookup_alter_ne, Hx by done. destruct (Hw x (moved_refl me p j x)) as [H1 _]. eexists. split_and!; [done|done|done].
Qed.

Lemma reparent_moved me p j l : p ≠ 0%nat -> forall ps x, ps !! j = Some x ->
  exists x', fold_left (rstep me p) l ps !! j = Some x' /\ moved me p j x x' /\ (j ∈ l \/ p_parent x ≠ Some p -> p_parent x' ≠ Some p).
Proof.
  intros Hp. induction l as [|i l IH]; intros ps x Hx.
  { exists x. split_and!; [done|apply moved_refl|]. by intros [?%not_elem_of_nil|]. }
  destruct (rstep_moved me p ps i j x Hp Hx) as (y & Hy & Hm & Hi). destruct (IH _ _ Hy) as (z & Hz & Hm' & Hj).
  exists z. split_and!; [done|by apply (moved_trans _ _ _ _ y)|]. intros Hcase. apply Hj.
  assert (Hny : p_parent x ≠ Some p -> p_parent y ≠ Some p) by (intros Hn; destruct Hm as (st & pa & -> & [->|[E _]] & _); done).
  destruct Hcase as [[->|Hin]%elem_of_cons|Hn]; [right; by apply Hi|by left|right; by apply Hny].
Qed.

(** ** The end of exit *)
Definition idle_hart (h : hart) : Prop := hart_ok h /\ h_locks h = ∅ /\ h_noff h = 0.

Lemma kok_idle s : idle_hart (k_hart s) -> length (k_procs s) = NPROC -> kok s.
Proof. intros (H1 & H2 & _) H3. split_and!; [done| |done]. intros i Hi. rewrite H2 in Hi. by apply not_elem_of_empty in Hi. Qed.

(** Taking [lk] and then the lock of the current process and giving [lk] back. *)
Lemma handover_hart h lk p : idle_hart h -> lk ≠ LkProc p ->
  let h' := hart_release lk (hart_acquire (LkProc p) (hart_acquire lk h)) in
  h_locks h' = {[LkProc p]} /\ h_noff h' = 1 /\ hart_ok h' /\ Z.land (h_sstatus h') SSTATUS_SIE = 0.
Proof.
  intros (H1 & H2 & H3) Hne h'. assert (Hok : hart_ok h').
  { apply hart_ok_release; [by apply hart_ok_acquire, hart_ok_acquire|]. cbn. lia. }
  assert (Hn : h_noff h' = 1) by (unfold h', hart_release, pop_off_hart, hart_acquire, push_off_hart; cbn; by rewrite H3).
  split_and!; [|done|done|apply Hok; lia].
  unfold h', hart_release, pop_off_hart, hart_acquire, push_off_hart. cbn. rewrite H3, H2. cbn. set_solver.
Qed.

Lemma set_k_procs_const f s : set_k_procs f s = set_k_procs (fun _ => f (k_procs s)) s.
Proof. done. Qed.

(** reparent, entry by entry. *)
Lemma reparent_each_run p l s : Forall (fun i => i < NPROC)%nat l -> (forall j, (j < NPROC)%nat -> j ∈ l) -> kok s -> k_cur s = Some p -> p ≠ 0%nat ->
  exists ps, each l (reparent_one p) s = Ret tt (set_k_procs (fun _ => ps) s) /\ length ps = NPROC /\
    forall j x, k_procs s !! j = Some x -> exists x', ps !! j = Some x' /\ moved (Some p) p j x x' /\ p_parent x' ≠ Some p.
Proof.
  intros Hl Hall Hk Hcur Hp. destruct (reparent_each p l Hl s Hk) as [E (_ & _ & Hlen)]. rewrite Hcur in *. rewrite set_k_procs_const in E.
  eexists. split; [exact E|]. split; [exact Hlen|].
  intros j x Hx. destruct (reparent_moved (Some p) p j l Hp _ x Hx) as (x' & H1 & H2 & H3). exists x'. split_and!; [done|done|]. apply H3. left.
  apply Hall. apply lookup_lt_Some in Hx. destruct Hk as (_ & _ & Hk). lia.
Qed.

Lemma reparent_run p s : kok s -> k_cur s = Some p -> p ≠ 0%nat ->
  exists ps, reparent p s = Ret tt (set_k_procs (fun _ => ps) s) /\ length ps = NPROC /\
    forall j x, k_procs s !! j = Some x -> exists x', ps !! j = Some x' /\ moved (Some p) p j x x' /\ p_parent x' ≠ Some p.
Proof. apply reparent_each_run; [apply Forall_forall; intros i Hi%elem_of_seq; lia|intros j Hj; apply elem_of_seq; lia]. Qed.

Definition zombie (status : Z) (x : proc) : proc := set_p_state (fun _ => ZOMBIE) (set_p_xstate (fun _ => status) x).

(** sched with the process lock held, interrupts off and the process not running. *)
Lemma sched_run {A} p pr s : k_cur s = Some p -> LkProc p ∈ h_locks (k_hart s) -> Z.land (h_sstatus (k_hart s)) SSTATUS_SIE = 0 ->
  k_procs s !! p = Some pr -> p_state pr ≠ RUNNING -> sched (A := A) s = Swtch s.
Proof.
  intros Hc Hl Hs Hp Hr. unfold sched, curproc. unfold bind at 1. rewrite Hc. unfold holding. rewrite bind_gets, bool_decide_true by done. cbn [negb].
  unfold intr_get. rewrite bind_gets, Hs. cbn [Z.eqb negb]. erewrite bind_Ret by (unfold get_proc; rewrite Hp; done). unfold is_state. by rewrite bool_decide_false.
Qed.

Lemma exit_tail_run p par status pr s :
  k_cur s = Some p -> p ≠ 0%nat -> idle_hart (k_hart s) -> length (k_procs s) = NPROC ->
  k_procs s !! p = Some pr -> p_parent pr = Some par -> par ≠ p ->
  exists ps1 h, exit_tail p status s =
      Swtch (set_k_procs (fun _ => alter (zombie status) p (wake_table (Some p) (ChProc par) ps1)) (set_k_hart (fun _ => h) s)) /\
    h_locks h = {[LkProc p]} /\ h_noff h = 1 /\ hart_ok h /\ length ps1 = NPROC /\
    forall j x, k_procs s !! j = Some x -> exists x', ps1 !! j = Some x' /\ moved (Some p) p j x x' /\ p_parent x' ≠ Some p.
Proof.
  intros Hcur Hp0 Hidle Hlen Hp Hpar Hne. pose proof Hidle as (Hok & HL & Hn).
  destruct (handover_hart (k_hart s) LkWait p Hidle ltac:(done)) as (HL' & Hn' & Hok' & Hsie). set (h' := hart_release _ _) in *.
  unfold exit_tail. run_ret (acquire_ok LkWait s ltac:(rewrite HL; apply not_elem_of_empty)). set (s1 := set_k_hart _ s).
  assert (Hk1 : kok s1) by (split_and!; [by apply hart_ok_acquire| |done]; intros i Hi; cbn in Hi; rewrite HL in Hi; set_solver).
  destruct (reparent_run p s1 Hk1 Hcur Hp0) as (ps1 & E & Hl1 & Hmv). run_ret E. exists ps1, h'. split; [|split_and!; [exact HL'|exact Hn'|exact Hok'|exact Hl1|exact Hmv]].
  set (s2 := set_k_procs _ s1). assert (Hk2 : kok s2) by (destruct Hk1 as (K1 & K2 & _); by split_and!).
  destruct (Hmv p pr Hp) as (pr' & Hp' & (st & pa & Epr & Hpa & Hst) & _).
  assert (Epa : p_parent pr' = Some par) by (subst pr'; cbn; destruct Hpa as [->|[? _]]; congruence).
  erewrite bind_Ret by (unfold get_proc; cbn [k_procs set_k_procs s2]; rewrite Hp'; done). rewrite Epa. cbn [wakeup_proc].
  destruct (kok_wake (ChProc par) s2 Hk2) as [Ew _]. change (k_cur s2) with (k_cur s) in Ew. rewrite Hcur in Ew. run_ret Ew.
  erewrite bind_Ret by (apply acquire_ok; cbn; rewrite HL; set_solver).
  unfold upd_proc. rewrite !bind_modify. erewrite bind_Ret by (apply release_ok; cbn; rewrite HL; set_solver).
  match goal with |- bind _ _ ?s3 = _ => assert (E3 : s3 = set_k_procs (fun _ => alter (zombie status) p (wake_table (Some p) (ChProc par) ps1)) (set_k_hart (fun _ => h') s)) end.
  { unfold set_k_procs, set_k_hart. cbn. f_equal. by rewrite alter_twice. }
  rewrite E3. unfold bind. erewrite sched_run; [reflexivity|exact Hcur|cbn; rewrite HL'; set_solver|exact Hsie| |].
  - cbn. rewrite list_lookup_alter_eq, lookup_wake_table, Hp'. reflexivity.
  - done.
Qed.

(** ** The scan of wait *)
Section Wait.
Context `{Linker}.

Definition child_of (par : nat) (x : proc) : Prop := p_parent x = Some par.
Definition zombie_child (par : nat) (x : proc) : Prop := p_parent x = Some par /\ p_state x = ZOMBIE.
#[global] Instance zombie_child_dec par x : Decision (zombie_child par x).
Proof. apply and_dec; [apply option_eq_dec|solve_decision]. Defined.

(** The scan reaps the first zombie child. *)
Lemma wait_scan_hit par addr i x s : hart_ok (k_hart s) -> (forall j, LkProc j ∉ h_locks (k_hart s)) ->
  k_procs s !! i = Some x -> zombie_child par x -> forall before after hk,
  (forall j, j ∈ before -> exists y, k_procs s !! j = Some y /\ ~ zombie_child par y) ->
  wait_scan (before ++ i :: after) par addr hk s =
  bind (wait_reap par i addr) (fun r => ret (inl r)) (set_k_hart (hart_acquire (LkProc i)) s).
Proof.
  intros Hok Hfree Hi [Hpar Hz] before. induction before as [|j before IH]; intros after hk Hb; cbn [app wait_scan].
  - erewrite bind_Ret by (unfold get_proc; rewrite Hi; done). rewrite bool_decide_true by done. cbn [negb].
    run_ret (acquire_ok _ _ (Hfree i)). erewrite bind_Ret by (unfold get_proc; cbn [k_procs set_k_hart]; rewrite Hi; done).
    unfold is_state. by rewrite bool_decide_true.
  - destruct (Hb j ltac:(left)) as (y & Hy & Hn). assert (Hb' : forall j, j ∈ before -> exists y, k_procs s !! j = Some y /\ ~ zombie_child par y) by (intros k Hk; apply Hb; by right).
    erewrite bind_Ret by (unfold get_proc; rewrite Hy; done). case_bool_decide as Hc; cbn [negb]; [|by apply IH].
    run_ret (acquire_ok _ _ (Hfree j)). erewrite bind_Ret by (unfold get_proc; cbn [k_procs set_k_hart]; rewrite Hy; done).
    unfold is_state. rewrite bool_decide_false by (intros Hs; by apply Hn).
    erewrite bind_Ret by (by apply (release_after _ s)). by apply IH.
Qed.

Lemma seq_split n i : (i < n)%nat -> seq 0 n = seq 0 i ++ i :: seq (S i) (n - S i).
Proof. intros Hi. replace n with (i + S (n - S i))%nat at 1 by lia. by rewrite seq_app. Qed.

Lemma wait_loop_hit par addr z s : hart_ok (k_hart s) -> (forall j, LkProc j ∉ h_locks (k_hart s)) -> length (k_procs s) = NPROC ->
  (exists x, k_procs s !! z = Some x /\ zombie_child par x) ->
  exists i x, wait_loop par addr s = wait_reap par i addr (set_k_hart (hart_acquire (LkProc i)) s) /\ (i <= z)%nat /\
    k_procs s !! i = Some x /\ zombie_child par x /\ (forall j y, (j < i)%nat -> k_procs s !! j = Some y -> ~ zombie_child par y).
Proof.
  intros Hok Hfree Hlen (x & Hx & Hz). destruct (list_find (zombie_child par) (k_procs s)) as [[i y]|] eqn:E.
  2:{ apply list_find_None in E. rewrite Forall_lookup in E. by destruct (E z x Hx). }
  apply list_find_Some in E as (Hi & Hzi & Hbefore). exists i, y. split_and!; [|destruct (decide (i <= z)%nat); [done|]; by destruct (Hbefore z x Hx ltac:(lia))|done|done|].
  2:{ intros j y' Hj Hy'. by apply (Hbefore j y' Hy'). }
  unfold wait_loop. rewrite (seq_split NPROC i) by (apply lookup_lt_Some in Hi; lia).
  unfold bind at 1. rewrite (wait_scan_hit par addr i y s Hok Hfree Hi Hzi).
  - unfold bind at 1. by destruct (wait_reap par i addr _).
  - intros j Hj%elem_of_seq. apply lookup_lt_Some in Hi. destruct (lookup_lt_is_Some_2 (k_procs s) j ltac:(lia)) as [y' Hy']. exists y'. split; [done|]. apply (Hbefore j y' Hy'). lia.
Qed.

Lemma no_child_left p par j status ps x y : ps !! j = Some x -> p_parent x ≠ Some p ->
  alter (zombie status) p (wake_table (Some p) (ChProc par) ps) !! j = Some y -> p_parent y ≠ Some p.
Proof.
  intros Hx Hn Hy. assert (Hw : forall b, p_parent (if b : bool then x else wake (ChProc par) x) = p_parent x) by (intros []; [done|]; unfold wake; by destruct (_ && _)).
  destruct (decide (j = p)) as [->|Hne].
  - rewrite list_lookup_alter_eq, lookup_wake_table, Hx in Hy. injection Hy as <-. unfold zombie. cbn [p_parent set_p_state set_p_xstate]. by rewrite Hw.
  - rewrite list_lookup_alter_ne, lookup_wake_table, Hx in Hy by done. injection Hy as <-. by rewrite Hw.
Qed.

(** A parent asleep in wait is RUNNABLE once its child has exited. *)
Lemma parent_woken p par x x' : par ≠ p -> p_state x = SLEEPING -> p_chan x = Some (ChProc par) -> moved (Some p) p par x x' ->
  p_state (wake (ChProc par) x') = RUNNABLE.
Proof.
  intros Hne Hs Hc (st & pa & -> & _ & [->|(_ & _ & _ & ->)]).
  - rewrite (wake_hit (ChProc par)); [done|exact Hs|exact Hc].
  - by rewrite (wake_miss (ChProc par)) by (by intros [? _]).
Qed.

End Wait.

(** ** Process 2 exits while process 1 waits for it *)
Definition ex_parent : proc := set_p_chan (fun _ => Some (ChProc 1)) (set_p_state (fun _ => SLEEPING) (set_p_pid (fun _ => 1) zero_proc)).
Definition ex_child : proc := set_p_parent (fun _ => Some 1%nat) (set_p_state (fun _ => RUNNING) (set_p_pid (fun _ => 2) zero_proc)).
Definition ex_family : kstate :=
  set_k_cur (fun _ => Some 2%nat) (set_k_procs (fun ps => <[2%nat := ex_child]> (<[1%nat := ex_parent]> ps)) boot_state).

