(* ===== verification/Console.v ===== *)
(** * Console output and the interrupt controller

    kernel/uart.c, kernel/console.c, kernel/printk.c, kernel/plic.c and the banner of
    kernel/boot.c.  [k_console] is the sequence of bytes written to the UART's transmit
    register.  Both transmit loops poll the line status register until the transmitter
    is ready and then write one byte; the model is the write. *)

From S2P Require Import Prelude Params Machine Spinlock Sched CString.

(** ** Memory-mapped registers *)
Definition ld_reg (a : Z) : K Z := gets (fun s => default 0 (dv_regs (k_dev s) !! a)).
Definition st_reg (a v : Z) : K unit := modify (set_k_dev (set_dv_regs (insert a v))).

(** ** uart.c *)
Definition IER : Z := 1.
Definition FCR : Z := 2.
Definition LCR : Z := 3.
Definition IER_RX_ENABLE : Z := Z.shiftl 1 0.
Definition IER_TX_ENABLE : Z := Z.shiftl 1 1.
Definition FCR_FIFO_ENABLE : Z := Z.shiftl 1 0.
Definition FCR_FIFO_CLEAR : Z := Z.shiftl 3 1.
Definition LCR_EIGHT_BITS : Z := Z.shiftl 3 0.
Definition LCR_BAUD_LATCH : Z := Z.shiftl 1 7.

(** While the baud latch is set, registers 0 and 1 are the two divisor bytes. *)
Definition uartinit : K unit :=
  do! st_reg (UART0 + IER) 0;
  do! st_reg (UART0 + LCR) LCR_BAUD_LATCH;
  do! st_reg (UART0 + 0) 1;
  do! st_reg (UART0 + 1) 0;
  do! st_reg (UART0 + LCR) LCR_EIGHT_BITS;
  do! st_reg (UART0 + FCR) (Z.lor FCR_FIFO_ENABLE FCR_FIFO_CLEAR);
  st_reg (UART0 + IER) (Z.lor IER_TX_ENABLE IER_RX_ENABLE).

Definition uartputc_sync (c : Z) : K unit :=
  modify (set_k_console (fun out => out ++ [u8 c])).

(** The next byte of the receive FIFO, -1 when the line status reports none. *)
Definition uartgetc : K Z :=
  let! v := gets k_dev in
  match dv_rx v with
  | c :: rx =>
      do! modify (set_k_dev (set_dv_rx (fun _ => rx)));
      ret (u8 c)
  | [] => ret (-1)
  end.

(** ** console.c *)
Definition consputc (c : Z) : K unit := uartputc_sync c.

Definition consoleinit : K unit := initlock LkCons.

Definition consoleputc (c : Z) : K unit :=
  do! acquire LkCons;
  do! consputc c;
  release LkCons.

Definition consoleintr (c : Z) : K unit := ret tt.

(** uartintr: one iteration per byte of the FIFO, and the one that finds it empty. *)
Fixpoint uartintr_loop (fuel : nat) : K unit :=
  match fuel with
  | O => fault "uartintr: fuel"
  | S fuel' =>
      let! c := uartgetc in
      if c <? 0 then ret tt
      else
        do! consoleintr c;
        uartintr_loop fuel'
  end.

Definition uartintr : K unit :=
  let! v := gets k_dev in
  uartintr_loop (S (length (dv_rx v))).

(** ** printk.c *)
Definition digits : list Z :=
  [48; 49; 50; 51; 52; 53; 54; 55; 56; 57; 97; 98; 99; 100; 101; 102].
Definition digit (d : Z) : Z := default 0 (digits !! Z.to_nat d).

(** The do-while loop of printint: the digits of [x], least significant first. *)
Fixpoint int_digits (fuel : nat) (x base : Z) : list Z :=
  match fuel with
  | O => []
  | S fuel' =>
      digit (x mod base) ::
      (if x / base =? 0 then [] else int_digits fuel' (x / base) base)
  end.

(** The contents of buf: a 32-bit value has at most 32 digits. *)
Definition printint_buf (xx base : Z) (sign : bool) : list Z :=
  let neg := sign && (xx <? 0) in
  let x := if neg then u32 (- xx) else u32 xx in
  int_digits 32 x base ++ (if neg then [45] else []).

(** sizeof(buf) *)
Definition PRINTBUF : nat := 16.

Definition printint (xx base : Z) (sign : bool) : K unit :=
  let buf := printint_buf xx base sign in
  if (PRINTBUF <? length buf)%nat then fault "printint: buffer overrun"
  else each (reverse buf) consoleputc.

(** The 16 hexadecimal digits of a 64-bit value. *)
Fixpoint ptr_digits (n : nat) (x : Z) : list Z :=
  match n with
  | O => []
  | S n' => digit (Z.shiftr x 60) :: ptr_digits n' (u64 (Z.shiftl x 4))
  end.

Definition printptr (x : Z) : K unit :=
  do! consoleputc 48;
  do! consoleputc 120;
  each (ptr_digits 16 x) consoleputc.

(** The arguments printf takes off its va_list. *)
Inductive parg : Type := AInt (x : Z) | APtr (x : Z) | AStr (s : option (list Z)).

Definition arg_int (args : list parg) : Z :=
  match args with AInt x :: _ => i32 x | APtr x :: _ => i32 x | _ => 0 end.
Definition arg_ptr (args : list parg) : Z :=
  match args with APtr x :: _ => u64 x | AInt x :: _ => u64 x | _ => 0 end.
Definition arg_str (args : list parg) : list Z :=
  match args with AStr (Some s) :: _ => s | _ => [40; 110; 117; 108; 108; 41] end.

(** The bytes of a C string before its NUL. *)
Fixpoint cstr (s : list Z) : list Z :=
  match s with [] => [] | c :: s' => if c =? 0 then [] else c :: cstr s' end.

Fixpoint printf (fmt : list Z) (args : list parg) : K unit :=
  match fmt with
  | [] => ret tt
  | c :: fmt =>
      if c =? 0 then ret tt
      else if negb (c =? 37) then
        do! consoleputc c;
        printf fmt args
      else
        match fmt with
        | [] => ret tt
        | c :: fmt =>
            if c =? 0 then ret tt
            else if c =? 100 then do! printint (arg_int args) 10 true; printf fmt (tail args)
            else if c =? 120 then do! printint (arg_int args) 16 true; printf fmt (tail args)
            else if c =? 112 then do! printptr (arg_ptr args); printf fmt (tail args)
            else if c =? 115 then do! each (cstr (arg_str args)) consoleputc; printf fmt (tail args)
            else if c =? 37 then do! consoleputc 37; printf fmt args
            else
              do! consoleputc 37;
              do! consoleputc c;
              printf fmt args
        end
  end.

(** ** boot.c *)

(** The bytes of XV6_BOOT_OK and a newline. *)
Definition boot_banner : list Z := [88; 86; 54; 95; 66; 79; 79; 84; 95; 79; 75; 10; 0].

Definition publish_boot_banner : K unit := each (cstr boot_banner) uartputc_sync.

(** ** plic.c *)
Definition PLIC_PRIORITY : Z := PLIC + 0x0.
Definition PLIC_SENABLE : Z := PLIC + 0x2080.
Definition PLIC_SPRIORITY : Z := PLIC + 0x201000.
Definition PLIC_SCLAIM : Z := PLIC + 0x201004.
Definition PLIC_PRIORITY_INIT : Z := 1.

Definition r_mhartid : K Z :=
  let! v := gets k_dev in
  match dv_mhartid v with Some h => ret (i32 h) | None => fault "illegal instruction: mhartid" end.

Definition plicinit : K unit :=
  do! st_reg (PLIC_PRIORITY + (UART0_IRQ - 1) * 4) PLIC_PRIORITY_INIT;
  st_reg (PLIC_PRIORITY + (VIRTIO0_IRQ - 1) * 4) PLIC_PRIORITY_INIT.

Definition plicinithart : K unit :=
  let! hart := r_mhartid in
  let! e := ld_reg (PLIC_SENABLE + hart * 4) in
  do! st_reg (PLIC_SENABLE + hart * 4) (Z.lor e (Z.shiftl 1 UART0_IRQ));
  let! e := ld_reg (PLIC_SENABLE + hart * 4) in
  do! st_reg (PLIC_SENABLE + hart * 4) (Z.lor e (Z.shiftl 1 VIRTIO0_IRQ));
  st_reg (PLIC_SPRIORITY + hart * 4) 0.

(** Reading the claim register hands out the next pending interrupt. *)
Definition plic_claim : K Z :=
  let! hart := r_mhartid in
  let! v := gets k_dev in
  match dv_pending v with
  | irq :: rest =>
      do! modify (set_k_dev (fun v => set_dv_claimed (cons irq) (set_dv_pending (fun _ => rest) v)));
      ret (i32 irq)
  | [] => ret 0
  end.

(** Writing it back completes the interrupt. *)
Definition plic_complete (irq : Z) : K unit :=
  let! hart := r_mhartid in
  modify (set_k_dev (set_dv_claimed (filter (fun j => u32 irq ≠ j)))).
