(* ===== verification/Virtio.v ===== *)
(** * The virtio block driver (kernel/virtio_disk.c)

    One legacy queue of NUM descriptors; a request is a chain of three: header, data
    and status.  The driver sleeps in two places, for free descriptors and for the
    completion, so [virtio_disk_rw] is the composition of [vrw_alloc], [vrw_submit]
    and [vrw_wait], with [vrw_alloc_return] and [vrw_wait_return] for the process that
    runs again.  The device itself is not part of the kernel. *)

From S2P Require Import Prelude Params Machine Spinlock Sched CString Console.

Definition NUM : nat := 8.
Definition VRING_DESC_F_NEXT : Z := 1.
Definition VRING_DESC_F_WRITE : Z := 2.
Definition VIRTIO_BLK_T_IN : Z := 0.
Definition VIRTIO_BLK_T_OUT : Z := 1.
Definition VIRTIO_BLK_F_RO : Z := 5.
Definition VIRTIO_BLK_F_FLUSH : Z := 9.

(** Register offsets. *)
Definition VIRTIO_MMIO_MAGIC_VALUE : Z := 0x00.
Definition VIRTIO_MMIO_VERSION : Z := 0x04.
Definition VIRTIO_MMIO_DEVICE_ID : Z := 0x08.
Definition VIRTIO_MMIO_VENDOR_ID : Z := 0x0c.
Definition VIRTIO_MMIO_DEVICE_FEATURES : Z := 0x10.
Definition VIRTIO_MMIO_DRIVER_FEATURES : Z := 0x20.
Definition VIRTIO_MMIO_QUEUE_SEL : Z := 0x30.
Definition VIRTIO_MMIO_QUEUE_NUM_MAX : Z := 0x34.
Definition VIRTIO_MMIO_QUEUE_NUM : Z := 0x38.
Definition VIRTIO_MMIO_QUEUE_PFN : Z := 0x40.
Definition VIRTIO_MMIO_QUEUE_READY : Z := 0x44.
Definition VIRTIO_MMIO_QUEUE_NOTIFY : Z := 0x50.
Definition VIRTIO_MMIO_INTR_STATUS : Z := 0x60.
Definition VIRTIO_MMIO_STATUS : Z := 0x70.
Definition VIRTIO_CONFIG_S_ACKNOWLEDGE : Z := 1.
Definition VIRTIO_CONFIG_S_DRIVER : Z := 2.
Definition VIRTIO_CONFIG_S_DRIVER_OK : Z := 4.
Definition VIRTIO_CONFIG_S_FEATURES_OK : Z := 8.

(** ** Access to the queue *)
Definition upd_vq (f : vqueue -> vqueue) : K unit := modify (set_k_vq f).
Definition get_desc (i : Z) : K vring_desc :=
  fun s => match vq_desc (k_vq s) !! Z.to_nat i with
           | Some d => if i <? 0 then Fault "descriptor index" s else Ret d s
           | None => Fault "descriptor index" s
           end.
Definition upd_desc (i : Z) (f : vring_desc -> vring_desc) : K unit :=
  upd_vq (set_vq_desc (alter f (Z.to_nat i))).
Definition get_info (i : Z) : K vinfo :=
  fun s => match vq_info (k_vq s) !! Z.to_nat i with
           | Some d => Ret d s
           | None => Fault "info index" s
           end.
Definition set_status (i v : Z) : K unit :=
  upd_vq (set_vq_info (alter (fun x => mkVInfo (vi_data x) v) (Z.to_nat i))).

(** The 16-bit word [k] of the available ring's page and the used ring's page. *)
Definition get_word (k : Z) : K Z :=
  fun s => match vq_words (k_vq s) !! Z.to_nat k with
           | Some w => Ret w s
           | None => Fault "queue memory" s
           end.
Definition set_word (k v : Z) : K unit :=
  fun s => if (Z.to_nat k <? length (vq_words (k_vq s)))%nat
           then Ret tt (set_k_vq (set_vq_words (insert (Z.to_nat k) (u16 v))) s)
           else Fault "queue memory" s.

(** avail[1], the used index, and the words of used->elems[k].id. *)
Definition AVAIL_IDX : Z := 1.
Definition AVAIL_RING : Z := 2.
Definition USED_PAGE : Z := 2048.
Definition USED_IDX : Z := USED_PAGE + 1.
Definition USED_ID (k : Z) : Z := USED_PAGE + 2 + 4 * k.

(** ** Descriptors *)
Definition free_desc (i : Z) : K unit :=
  if Z.of_nat NUM <=? i then panic "free_desc 1"
  else
    let! q := gets k_vq in
    match vq_free q !! Z.to_nat i with
    | None => fault "free index"
    | Some true => panic "free_desc 2"
    | Some false =>
        do! upd_desc i (fun d => mkVDesc VNull (vd_len d) (vd_flags d) (vd_next d));
        do! upd_vq (set_vq_free (insert (Z.to_nat i) true));
        wakeup ChDiskFree
    end.

Definition alloc_desc : K Z :=
  let! r := search (seq 0 NUM) (fun i =>
    let! q := gets k_vq in
    match vq_free q !! i with
    | Some true =>
        do! upd_vq (set_vq_free (insert i false));
        ret (Some (Z.of_nat i))
    | Some false => ret None
    | None => fault "free index"
    end) in
  ret (default (-1) r).

(** A chain of distinct descriptors has at most NUM of them. *)
Fixpoint free_chain (fuel : nat) (i : Z) : K unit :=
  match fuel with
  | O => fault "free_chain: fuel"
  | S fuel' =>
      let! d := get_desc i in
      do! free_desc i;
      if negb (Z.land (vd_flags d) VRING_DESC_F_NEXT =? 0) then free_chain fuel' (vd_next d)
      else ret tt
  end.

(** alloc3_desc(idx): the three indices, or nothing. *)
Definition alloc3_desc : K (option (Z * Z * Z)) :=
  let! a := alloc_desc in
  if a <? 0 then ret None
  else
    let! b := alloc_desc in
    if b <? 0 then do! free_desc a; ret None
    else
      let! c := alloc_desc in
      if c <? 0 then do! free_desc a; do! free_desc b; ret None
      else ret (Some (a, b, c)).

(** ** Initialisation; [pages] is the address of disk.pages *)
Definition virtio_reg (r : Z) : K Z := ld_reg (VIRTIO0 + r).
Definition set_virtio_reg (r v : Z) : K unit := st_reg (VIRTIO0 + r) (u32 v).

Definition virtio_disk_init (pages : Z) : K unit :=
  do! initlock LkDisk;
  let! magic := virtio_reg VIRTIO_MMIO_MAGIC_VALUE in
  let! version := virtio_reg VIRTIO_MMIO_VERSION in
  let! id := virtio_reg VIRTIO_MMIO_DEVICE_ID in
  let! vendor := virtio_reg VIRTIO_MMIO_VENDOR_ID in
  if negb (magic =? 0x74726976) || negb (version =? 1) || negb (id =? 2) || negb (vendor =? 0x554d4551)
  then panic "could not find virtio disk"
  else
    let status := VIRTIO_CONFIG_S_ACKNOWLEDGE in
    do! set_virtio_reg VIRTIO_MMIO_STATUS status;
    let status := Z.lor status VIRTIO_CONFIG_S_DRIVER in
    do! set_virtio_reg VIRTIO_MMIO_STATUS status;
    let! features := virtio_reg VIRTIO_MMIO_DEVICE_FEATURES in
    let features := Z.land features (Z.lnot (Z.shiftl 1 VIRTIO_BLK_F_RO)) in
    let features := Z.land features (Z.lnot (Z.shiftl 1 VIRTIO_BLK_F_FLUSH)) in
    do! set_virtio_reg VIRTIO_MMIO_DRIVER_FEATURES features;
    let status := Z.lor status VIRTIO_CONFIG_S_FEATURES_OK in
    do! set_virtio_reg VIRTIO_MMIO_STATUS status;
    let status := Z.lor status VIRTIO_CONFIG_S_DRIVER_OK in
    do! set_virtio_reg VIRTIO_MMIO_STATUS status;
    do! set_virtio_reg VIRTIO_MMIO_QUEUE_SEL 0;
    let! max := virtio_reg VIRTIO_MMIO_QUEUE_NUM_MAX in
    if max =? 0 then panic "virtio disk has no queue 0"
    else if max <? Z.of_nat NUM then panic "virtio disk max queue too short"
    else
      do! upd_vq (fun q => mkVq (replicate NUM (mkVDesc VNull 0 0 0)) (replicate 4096 0)
                            (replicate NUM true) (vq_info q) 0);
      do! set_virtio_reg VIRTIO_MMIO_QUEUE_NUM (Z.of_nat NUM);
      do! set_virtio_reg VIRTIO_MMIO_QUEUE_PFN (Z.shiftr pages 12);
      set_virtio_reg VIRTIO_MMIO_QUEUE_READY 1.

(** ** Requests *)

(** The loop that allocates the chain; the lock is held. *)
Definition vrw_alloc : K (Z * Z * Z) :=
  let! r := alloc3_desc in
  match r with
  | Some idx => ret idx
  | None => sleep ChDiskFree LkDisk
  end.

(** Fill in the chain, publish it and notify the device.  [b] is the buffer whose
    data is transferred. *)
Definition vrw_submit (idx : Z * Z * Z) (blockno : Z) (b : nat) (write : bool) : K unit :=
  let '(i0, i1, i2) := idx in
  let hdr := mkOuthdr (if write then VIRTIO_BLK_T_OUT else VIRTIO_BLK_T_IN) (u64 (blockno * 2)) in
  do! upd_desc i0 (fun _ => mkVDesc (VHdr hdr) 16 VRING_DESC_F_NEXT (u16 i1));
  do! upd_desc i1 (fun _ => mkVDesc (VData b) 1024
        (Z.lor (if write then 0 else VRING_DESC_F_WRITE) VRING_DESC_F_NEXT) (u16 i2));
  do! set_status i0 0xff;
  do! upd_desc i2 (fun _ => mkVDesc (VStatus (Z.to_nat i0)) 1 VRING_DESC_F_WRITE 0);
  do! upd_vq (set_vq_info (alter (fun x => mkVInfo (Some b) (vi_status x)) (Z.to_nat i0)));
  let! n := get_word AVAIL_IDX in
  do! set_word (AVAIL_RING + n) i0;
  do! set_word AVAIL_IDX (n + 1);
  set_virtio_reg VIRTIO_MMIO_QUEUE_NOTIFY 0.

(** Wait for the completion and release the chain; the lock is held. *)
Definition vrw_wait (i0 : Z) : K unit :=
  let! info := get_info i0 in
  if negb (vi_status info =? 0) then sleep (ChDiskInfo (Z.to_nat i0)) LkDisk
  else
    do! free_chain (S NUM) i0;
    release LkDisk.

Definition vrw_submit_wait (idx : Z * Z * Z) (blockno : Z) (b : nat) (write : bool) : K unit :=
  do! vrw_submit idx blockno b write;
  vrw_wait (fst (fst idx)).

Definition vrw (blockno : Z) (b : nat) (write : bool) : K unit :=
  if Z.land blockno 0x1fffffffffffffff =? 0x1fffffffffffffff
  then panic "virtio_disk_rw: sector overflow"
  else
    do! acquire LkDisk;
    let! idx := vrw_alloc in
    vrw_submit_wait idx blockno b write.

(** The processes that slept in the two loops run again. *)
Definition vrw_alloc_return (p : nat) (blockno : Z) (b : nat) (write : bool) : K unit :=
  do! sleep_return p LkDisk;
  let! idx := vrw_alloc in
  vrw_submit_wait idx blockno b write.
Definition vrw_wait_return (p : nat) (i0 : Z) : K unit :=
  do! sleep_return p LkDisk;
  vrw_wait i0.

(** ** The interrupt handler *)

(** The loop over the used ring.  Each iteration clears one status byte that was 0xff,
    so no more than NUM iterations pass the status test. *)
Fixpoint intr_loop (fuel : nat) (i count used_idx : Z) : K unit :=
  if count <=? i then ret tt
  else match fuel with
  | O => fault "virtio_disk_intr: fuel"
  | S fuel' =>
      let k := (used_idx + i) mod Z.of_nat NUM in
      let! lo := get_word (USED_ID k) in
      let! hi := get_word (USED_ID k + 1) in
      let id := lo + 65536 * hi in
      if Z.of_nat NUM <=? id then panic "virtio_disk_intr: used id"
      else
        let! info := get_info id in
        if negb (vi_status info =? 0xff) then panic "virtio_disk_intr: status"
        else
          do! set_status id 0;
          do! wakeup (ChDiskInfo (Z.to_nat id));
          intr_loop fuel' (i + 1) count used_idx
  end.

Definition virtio_disk_intr : K unit :=
  do! acquire LkDisk;
  let! st := virtio_reg VIRTIO_MMIO_INTR_STATUS in
  do! set_virtio_reg VIRTIO_MMIO_INTR_STATUS st;
  let! used_idx := get_word USED_IDX in
  let! q := gets k_vq in
  do! intr_loop (S NUM) 0 (u32 (used_idx - vq_used_idx q)) (vq_used_idx q);
  do! upd_vq (set_vq_used_idx (fun _ => used_idx));
  release LkDisk.
