(* ===== verification/VirtioSpec.v ===== *)
(** * The descriptors and rings of the virtio driver

    The requests in flight own disjoint chains of three descriptors and the free map says
    exactly which descriptors are in none; what a request shows the device; what the
    interrupt handler accepts and what it panics on. *)

From S2P Require Import Prelude Params Machine Spinlock Sched CString Console Virtio.

(** ** Requests in flight *)
Record vreq : Type := mkReq { rq_0 : nat; rq_1 : nat; rq_2 : nat; rq_block : Z; rq_buf : nat; rq_write : bool }.
Definition rq_idx (r : vreq) : list nat := [rq_0 r; rq_1 r; rq_2 r].
Definition held (ex : list nat) (rs : list vreq) : list nat := ex ++ concat (map rq_idx rs).

Definition rq_hdr (r : vreq) : outhdr :=
  mkOuthdr (if rq_write r then VIRTIO_BLK_T_OUT else VIRTIO_BLK_T_IN) (u64 (rq_block r * 2)).
Definition rq_flags (r : vreq) : Z := Z.lor (if rq_write r then 0 else VRING_DESC_F_WRITE) VRING_DESC_F_NEXT.

Definition desc_0 (r : vreq) : vring_desc := mkVDesc (VHdr (rq_hdr r)) 16 VRING_DESC_F_NEXT (Z.of_nat (rq_1 r)).
Definition desc_1 (r : vreq) : vring_desc := mkVDesc (VData (rq_buf r)) 1024 (rq_flags r) (Z.of_nat (rq_2 r)).
Definition desc_2 (r : vreq) : vring_desc := mkVDesc (VStatus (rq_0 r)) 1 VRING_DESC_F_WRITE 0.
Definition chain_ok (ds : list vring_desc) (r : vreq) : Prop :=
  ds !! rq_0 r = Some (desc_0 r) /\ ds !! rq_1 r = Some (desc_1 r) /\ ds !! rq_2 r = Some (desc_2 r).

(** The pool: [ex] are descriptors taken and not in a chain. *)
Record pool (q : vqueue) (ex : list nat) (rs : list vreq) : Prop := {
  pl_desc : length (vq_desc q) = NUM;
  pl_free : length (vq_free q) = NUM;
  pl_nodup : NoDup (held ex rs);
  pl_range : Forall (fun i => i < NUM)%nat (held ex rs);
  pl_mark : forall i, (i < NUM)%nat -> vq_free q !! i = Some (bool_decide (i ∉ held ex rs));
  pl_chain : Forall (chain_ok (vq_desc q)) rs;
}.

Lemma held_perm ex ex' rs rs' : ex ≡ₚ ex' -> rs ≡ₚ rs' -> held ex rs ≡ₚ held ex' rs'.
Proof.
  intros He Hr. unfold held. rewrite He. apply Permutation_app_head. clear He. induction Hr as [|x l l' _ IH|x y l|l1 l2 l3 _ IH1 _ IH2]; cbn -[rq_idx].
  - done.
  - by apply Permutation_app_head.
  - by rewrite !app_assoc, (Permutation_app_comm (rq_idx y)).
  - by etrans.
Qed.

Lemma pool_perm q ex ex' rs rs' : ex ≡ₚ ex' -> rs ≡ₚ rs' -> pool q ex rs -> pool q ex' rs'.
Proof.
  intros He Hr [Hd Hf Hn Hrg Hm Hc]. pose proof (held_perm _ _ _ _ He Hr) as Hh.
  split; [done|done|by rewrite <- Hh|by rewrite <- Hh| |by rewrite <- Hr].
  intros i Hi. rewrite (Hm i Hi). f_equal. apply bool_decide_ext. by rewrite Hh.
Qed.

(** ** Other code does not touch the queue *)
Lemma wakeup_vq ch s W : post (wakeup ch) s (fun _ s' => k_vq s' = k_vq s) W.
Proof.
  apply (post_each _ _ (fun s' => k_vq s' = k_vq s)); [done|]. intros i s1 _ H1. unfold wakeup_one, myproc.
  apply post_bind. cbn. case_bool_decide; [done|]. apply post_bind, acquire_post. intros h. apply post_bind. unfold get_proc, post at 1.
  cbn [k_procs set_k_hart]. destruct (k_procs s1 !! i) as [p|]; [|done]. apply post_bind.
  assert (Hr : forall s2, k_vq s2 = k_vq s -> post (release (LkProc i)) s2 (fun _ s' => k_vq s' = k_vq s) W).
  { intros s2 H2. apply release_post. by intros h'. }
  destruct (is_state SLEEPING p && _); cbn; by apply Hr.
Qed.

Lemma sleep_vq {A} ch lk s (Q : A -> kstate -> Prop) : post (sleep ch lk) s Q (fun s' => k_vq s' = k_vq s).
Proof.
  unfold sleep, curproc. apply post_bind. unfold post at 1. destruct (k_cur s) as [p|]; [|done].
  apply post_bind, acquire_post. intros h. apply post_bind, release_post. intros h'.
  apply post_bind, post_modify, post_bind, post_modify. unfold sched, curproc. apply post_bind. unfold post at 1. cbn [k_cur set_k_procs set_k_hart].
  destruct (k_cur s) as [p'|]; [|done]. apply post_bind. cbn -[post]. unfold post at 1, holding, gets.
  destruct (negb _); [done|]. apply post_bind. unfold post at 1, intr_get, gets. destruct (negb _); [done|].
  apply post_bind. unfold post at 1, get_proc. destruct (_ !! _); [|done]. by destruct (is_state _ _).
Qed.

(** ** Descriptors *)
Lemma free_desc_eq i s : (i < NUM)%nat -> vq_free (k_vq s) !! i = Some false ->
  free_desc (Z.of_nat i) s =
  wakeup ChDiskFree (set_k_vq (fun q => set_vq_free (insert i true)
    (set_vq_desc (alter (fun d => mkVDesc VNull (vd_len d) (vd_flags d) (vd_next d)) i) q)) s).
Proof.
  intros Hi Hf. unfold free_desc. destruct (Z.leb_spec (Z.of_nat NUM) (Z.of_nat i)); [lia|]. unfold bind at 1, gets. cbn beta iota. rewrite Nat2Z.id. replace (vq_free (k_vq s) !! i) with (Some false) by done. unfold upd_desc, upd_vq. rewrite Nat2Z.id. done.
Qed.

Lemma chain_alter ds i f rs r : Forall (chain_ok ds) rs -> r ∈ rs -> i ∉ rq_idx r -> chain_ok (alter f i ds) r.
Proof.
  intros Hc Hr Hi. unfold rq_idx in Hi. rewrite !not_elem_of_cons in Hi. destruct Hi as (H0 & H1 & H2 & _).
  destruct (proj1 (Forall_forall _ _) Hc r Hr) as (E0 & E1 & E2). split_and!; by rewrite list_lookup_alter_ne.
Qed.

Lemma pool_free q i ex rs : pool q (i :: ex) rs ->
  pool (set_vq_free (insert i true) (set_vq_desc (alter (fun d => mkVDesc VNull (vd_len d) (vd_flags d) (vd_next d)) i) q)) ex rs.
Proof.
  intros [Hd Hf Hn Hrg Hm Hc]. unfold held in Hn, Hrg, Hm. cbn [app] in Hn, Hrg, Hm. apply NoDup_cons in Hn as [Hi Hn]. apply Forall_cons in Hrg as [Hir Hrg].
  split; cbn [vq_desc vq_free set_vq_free set_vq_desc]; [by rewrite length_alter|by rewrite length_insert|done|done| |].
  - intros j Hj. destruct (decide (j = i)) as [->|Hne].
    + rewrite list_lookup_insert_eq by lia. by rewrite bool_decide_true.
    + rewrite list_lookup_insert_ne, Hm by done. f_equal. apply bool_decide_ext. unfold held. rewrite not_elem_of_cons. naive_solver.
  - apply Forall_forall. intros r Hr. eapply (chain_alter _ i _ rs r Hc Hr). intros Hin. apply Hi. apply elem_of_app. right.
    apply list_elem_of_In, in_concat. exists (rq_idx r). split; [apply in_map|]; by apply list_elem_of_In.
Qed.

Lemma free_desc_post i ex rs s W : pool (k_vq s) (i :: ex) rs ->
  post (free_desc (Z.of_nat i)) s (fun _ s' => pool (k_vq s') ex rs /\ (forall j, j ≠ i -> vq_desc (k_vq s') !! j = vq_desc (k_vq s) !! j)) W.
Proof.
  intros HP. pose proof (pl_range _ _ _ HP) as Hr. apply Forall_cons in Hr as [Hi _].
  assert (Hf : vq_free (k_vq s) !! i = Some false) by (rewrite (pl_mark _ _ _ HP i Hi), bool_decide_false; [done|]; intros Hn; apply Hn; left).
  unfold post. rewrite (free_desc_eq i s Hi Hf). eapply post_mono; [apply wakeup_vq| |done].
  intros [] s' E. rewrite E. split; [by apply pool_free|]. intros j Hj. cbn. by rewrite list_lookup_alter_ne.
Qed.

Lemma alloc_desc_spec s : length (vq_free (k_vq s)) = NUM ->
  (exists i, vq_free (k_vq s) !! i = Some true /\ alloc_desc s = Ret (Z.of_nat i) (set_k_vq (set_vq_free (insert i false)) s)) \/
  ((forall i, vq_free (k_vq s) !! i ≠ Some true) /\ alloc_desc s = Ret (-1) s).
Proof.
  intros Hl. unfold alloc_desc. destruct (list_find (fun b : bool => b = true) (vq_free (k_vq s))) as [[i b]|] eqn:E.
  - apply list_find_Some in E as (Hi & -> & Hbefore). left. exists i. split; [done|]. apply lookup_lt_Some in Hi as Hlt.
    replace (seq 0 NUM) with (seq 0 i ++ i :: seq (S i) (NUM - S i)).
    2:{ replace NUM with (i + S (NUM - S i))%nat at 2 by lia. by rewrite seq_app. }
    erewrite bind_Ret; [|apply search_hit].
    3:{ unfold bind at 1, gets. cbn beta iota. replace (vq_free (k_vq s) !! i) with (Some true) by done. reflexivity. }
    1: done. intros j Hj. apply elem_of_seq in Hj. unfold bind, gets. destruct (lookup_lt_is_Some_2 (vq_free (k_vq s)) j ltac:(lia)) as [c Hc].
    replace (vq_free (k_vq s) !! j) with (Some c) by done. destruct c; [|done]. exfalso. by apply (Hbefore j true Hc); [lia|].
  - apply list_find_None in E. rewrite Forall_lookup in E. right. split; [by intros i Hi; apply (E i true)|].
    erewrite bind_Ret; [|apply search_skip]; [done|]. intros j Hj. apply elem_of_seq in Hj. unfold bind, gets.
    destruct (lookup_lt_is_Some_2 (vq_free (k_vq s)) j ltac:(lia)) as [c Hc]. replace (vq_free (k_vq s) !! j) with (Some c) by done.
    destruct c; [|done]. exfalso. by apply (E j true Hc).
Qed.

Lemma pool_take q i ex rs : pool q ex rs -> vq_free q !! i = Some true -> pool (set_vq_free (insert i false) q) (i :: ex) rs.
Proof.
  intros [Hd Hf Hn Hrg Hm Hc] Hi. apply lookup_lt_Some in Hi as Hlt. rewrite Hf in Hlt.
  assert (Hni : i ∉ held ex rs) by (rewrite (Hm i Hlt) in Hi; by injection Hi as Hi%bool_decide_eq_true).
  split; cbn [vq_desc vq_free set_vq_free]; [done|by rewrite length_insert|by apply NoDup_cons|by apply Forall_cons| |done].
  intros j Hj. destruct (decide (j = i)) as [->|Hne].
  - rewrite list_lookup_insert_eq by lia. rewrite bool_decide_false; [done|]. intros Hx. apply Hx. left.
  - rewrite list_lookup_insert_ne, Hm by done. f_equal. apply bool_decide_ext. unfold held. cbn [app]. rewrite not_elem_of_cons. naive_solver.
Qed.

Lemma length_held ex rs : length (held ex rs) = (length ex + 3 * length rs)%nat.
Proof. unfold held. rewrite length_app. f_equal. induction rs as [|r rs IH]; [done|]. cbn -[Nat.mul] in *. lia. Qed.

Lemma pool_size q ex rs : pool q ex rs -> (length ex + 3 * length rs <= NUM)%nat.
Proof.
  intros HP. rewrite <- length_held. rewrite <- (length_seq NUM 0). apply submseteq_length, NoDup_submseteq; [apply (pl_nodup _ _ _ HP)|].
  intros i Hi. apply elem_of_seq. pose proof (proj1 (Forall_forall _ _) (pl_range _ _ _ HP) i Hi). cbn in *. lia.
Qed.

Lemma pool_full q ex rs : pool q ex rs -> (forall i, vq_free q !! i ≠ Some true) -> (length ex + 3 * length rs = NUM)%nat.
Proof.
  intros HP Hno. pose proof (pool_size _ _ _ HP). enough (NUM <= length (held ex rs))%nat by (rewrite length_held in *; lia).
  rewrite <- (length_seq NUM 0) at 1. apply submseteq_length, NoDup_submseteq; [apply NoDup_seq|]. intros i Hi. apply elem_of_seq in Hi.
  destruct (decide (i ∈ held ex rs)) as [|Hn]; [done|]. exfalso. apply (Hno i). rewrite (pl_mark _ _ _ HP) by lia. by rewrite bool_decide_true.
Qed.

Lemma alloc_pool s ex rs : pool (k_vq s) ex rs ->
  (exists i s', alloc_desc s = Ret (Z.of_nat i) s' /\ pool (k_vq s') (i :: ex) rs) \/
  (alloc_desc s = Ret (-1) s /\ (length ex + 3 * length rs = NUM)%nat).
Proof.
  intros HP. destruct (alloc_desc_spec s (pl_free _ _ _ HP)) as [(i & Hi & E)|[Hno E]].
  - left. exists i, (set_k_vq (set_vq_free (insert i false)) s). split; [exact E|]. by apply (pool_take (k_vq s)).
  - right. split; [exact E|]. by apply (pool_full (k_vq s)).
Qed.

(** Three descriptors, or none and the pool as it was. *)
Lemma alloc3_post s rs W : pool (k_vq s) [] rs ->
  post alloc3_desc s (fun o s' =>
    match o with
    | Some idx => (length rs < 2)%nat /\ exists i j k, idx = (Z.of_nat i, Z.of_nat j, Z.of_nat k) /\ pool (k_vq s') [k; j; i] rs
    | None => length rs = 2%nat /\ pool (k_vq s') [] rs
    end) W.
Proof.
  intros HP. unfold alloc3_desc, post.
  destruct (alloc_pool s [] rs HP) as [(i & s1 & E1 & H1)|[E1 H1]]; run_ret E1; [|unfold NUM in *; cbn [length] in *; lia].
  destruct (Z.ltb_spec (Z.of_nat i) 0); [lia|].
  destruct (alloc_pool s1 [i] rs H1) as [(j & s2 & E2 & H2)|[E2 H2]]; run_ret E2; [|unfold NUM in *; cbn [length] in *; lia].
  destruct (Z.ltb_spec (Z.of_nat j) 0); [lia|].
  destruct (alloc_pool s2 [j; i] rs H2) as [(k & s3 & E3 & H3)|[E3 H3]]; run_ret E3.
  - destruct (Z.ltb_spec (Z.of_nat k) 0); [lia|]. cbn. split; [apply pool_size in H3; unfold NUM in *; cbn [length] in *; lia|]. by exists i, j, k.
  - cbn [Z.ltb Z.compare]. apply (post_bind (free_desc (Z.of_nat i))).
    assert (H2' : pool (k_vq s2) [i; j] rs) by (by apply (pool_perm _ [j; i] _ rs); [apply Permutation_swap| |]).
    eapply post_mono; [apply (free_desc_post i [j] rs s2 W H2')|intros [] s4 [H4 _]|done].
    apply (post_bind (free_desc (Z.of_nat j))). eapply post_mono; [apply (free_desc_post j [] rs s4 W H4)|intros [] s5 [H5 _]|done].
    cbn. split; [unfold NUM in *; cbn [length] in *; lia|done].
Qed.

(** ** Submitting *)
Definition submitted (r : vreq) (n : Z) (q : vqueue) : vqueue :=
  mkVq (alter (fun _ => desc_2 r) (rq_2 r) (alter (fun _ => desc_1 r) (rq_1 r) (alter (fun _ => desc_0 r) (rq_0 r) (vq_desc q))))
       (<[1%nat := u16 (n + 1)]> (<[Z.to_nat (2 + n) := u16 (Z.of_nat (rq_0 r))]> (vq_words q)))
       (vq_free q)
       (alter (fun x => mkVInfo (Some (rq_buf r)) (vi_status x)) (rq_0 r) (alter (fun x => mkVInfo (vi_data x) 0xff) (rq_0 r) (vq_info q)))
       (vq_used_idx q).

Lemma get_word_eq k w s : vq_words (k_vq s) !! Z.to_nat k = Some w -> get_word k s = Ret w s.
Proof. intros H. unfold get_word. by rewrite H. Qed.

Lemma vrw_submit_eq r n s : (rq_1 r < NUM)%nat -> (rq_2 r < NUM)%nat -> vq_words (k_vq s) !! 1%nat = Some n ->
  vrw_submit (Z.of_nat (rq_0 r), Z.of_nat (rq_1 r), Z.of_nat (rq_2 r)) (rq_block r) (rq_buf r) (rq_write r) s =
  let s1 := set_k_vq (fun q => set_vq_words (fun _ => vq_words q) (submitted r n q)) s in
  if (Z.to_nat (2 + n) <? length (vq_words (k_vq s)))%nat
  then set_virtio_reg VIRTIO_MMIO_QUEUE_NOTIFY 0 (set_k_vq (submitted r n) s)
  else Fault "queue memory" s1.
Proof.
  intros H1 H2 Hn. destruct r as [i j k bn b w]. cbn [rq_0 rq_1 rq_2 rq_block rq_buf rq_write] in *.
  assert (Hu : forall x, (x < NUM)%nat -> u16 (Z.of_nat x) = Z.of_nat x) by (intros x Hx; unfold u16, NUM in *; apply Z.mod_small; lia).
  unfold vrw_submit, upd_desc, set_status, upd_vq. rewrite !bind_modify, !Nat2Z.id, !Hu by done.
  run_ret (get_word_eq AVAIL_IDX n (set_k_vq (fun q => set_vq_words (fun _ => vq_words q) (submitted (mkReq i j k bn b w) n q)) s) Hn).
  change AVAIL_RING with 2. unfold bind at 1, set_word at 1. cbn [k_vq set_k_vq vq_words set_vq_words].
  destruct (Nat.ltb_spec (Z.to_nat (2 + n)) (length (vq_words (k_vq s)))); [|done].
  unfold bind at 1, set_word at 1. cbn [k_vq set_k_vq vq_words set_vq_words]. rewrite length_insert.
  apply lookup_lt_Some in Hn. change (Z.to_nat AVAIL_IDX) with 1%nat. by rewrite (proj2 (Nat.ltb_lt _ _) Hn).
Qed.

Lemma pool_submit r n q rs : pool q [rq_2 r; rq_1 r; rq_0 r] rs -> pool (submitted r n q) [] (r :: rs).
Proof.
  intros [Hd Hf Hn Hrg Hm Hc].
  assert (Hh : held [] (r :: rs) ≡ₚ held [rq_2 r; rq_1 r; rq_0 r] rs).
  { unfold held. cbn [app map concat rq_idx]. change (rq_idx r ++ concat (map rq_idx rs) ≡ₚ [rq_2 r; rq_1 r; rq_0 r] ++ concat (map rq_idx rs)).
    apply Permutation_app_tail. exact (Permutation_rev (rq_idx r)). }
  split; cbn [vq_desc vq_free submitted]; [by rewrite !length_alter|done|by rewrite Hh|by rewrite Hh| |].
  - intros i Hi. rewrite (Hm i Hi). f_equal. apply bool_decide_ext. by rewrite Hh.
  - unfold held in Hn, Hrg. cbn [app] in Hn, Hrg. rewrite !NoDup_cons, !not_elem_of_cons in Hn. destruct Hn as ((H21 & H20 & H2) & (H10 & H1) & H0 & _).
    rewrite !Forall_cons in Hrg. destruct Hrg as (R2 & R1 & R0 & _). rewrite <- Hd in R0, R1, R2. apply Forall_cons. split.
    + destruct (lookup_lt_is_Some_2 _ _ R0) as [d0 E0], (lookup_lt_is_Some_2 _ _ R1) as [d1 E1], (lookup_lt_is_Some_2 _ _ R2) as [d2 E2].
      split_and!; repeat first [rewrite list_lookup_alter_eq | rewrite list_lookup_alter_ne by congruence]; by rewrite ?E0, ?E1, ?E2.
    + apply Forall_forall. intros r' Hr'.
      assert (Hnot : forall i, i ∉ concat (map rq_idx rs) -> i ∉ rq_idx r').
      { intros i Hi Hin. apply Hi. apply list_elem_of_In, in_concat. exists (rq_idx r'). split; [apply in_map|]; by apply list_elem_of_In. }
      assert (Hs : forall i f ds, Forall (chain_ok ds) [r'] -> i ∉ concat (map rq_idx rs) -> Forall (chain_ok (alter f i ds)) [r']).
      { intros i f ds Hds Hi. apply Forall_singleton. eapply (chain_alter _ i _ [r'] r' Hds); [left|by apply Hnot]. }
      apply Forall_singleton. do 3 (apply Hs; [|done]). apply Forall_singleton. exact (proj1 (Forall_forall _ _) Hc r' Hr').
Qed.

(** ** The other operations *)
Lemma pool_same q q' ex rs : vq_desc q' = vq_desc q -> vq_free q' = vq_free q -> pool q ex rs -> pool q' ex rs.
Proof. intros E1 E2 [Hd Hf Hn Hrg Hm Hc]. split; by rewrite ?E1, ?E2. Qed.

Definition same_pool (q q' : vqueue) : Prop := vq_desc q' = vq_desc q /\ vq_free q' = vq_free q.

Lemma intr_loop_pool fuel : forall i count used s W, post (intr_loop fuel i count used) s (fun _ s' => same_pool (k_vq s) (k_vq s')) W.
Proof.
  induction fuel as [|fuel IH]; intros i count used s W; cbn [intr_loop]; destruct (count <=? i); [done|done|done|].
  apply post_bind. unfold post at 1, get_word at 1. destruct (_ !! _) as [lo|]; [|done]. apply post_bind. unfold post at 1, get_word at 1. destruct (_ !! _) as [hi|]; [|done].
  destruct (_ <=? _); [done|]. apply post_bind. unfold post at 1, get_info at 1. destruct (_ !! _) as [info|]; [|done].
  destruct (negb _); [done|]. apply post_bind, post_modify, post_bind. eapply post_mono; [apply wakeup_vq| |done]. intros [] s1 E1.
  eapply post_mono; [apply IH| |done]. intros [] s2 [E2 E3]. rewrite E1 in E2, E3. by split.
Qed.

Lemma intr_pool s W : post virtio_disk_intr s (fun _ s' => same_pool (k_vq s) (k_vq s')) W.
Proof.
  unfold virtio_disk_intr. apply post_bind, acquire_post. intros h. apply post_bind. unfold post at 1, virtio_reg, ld_reg, gets at 1. apply post_bind, post_modify, post_bind.
  unfold post at 1, get_word at 1. destruct (_ !! _) as [u|]; [|done]. apply post_bind. unfold post at 1, gets at 1. apply post_bind.
  eapply post_mono; [apply intr_loop_pool| |done]. intros [] s1 [E1 E2]. apply post_bind, post_modify, release_post. intros h'. by split.
Qed.

(** A chain given up is three descriptors taken. *)
Lemma pool_open q r rs ex : pool q ex (r :: rs) -> pool q (rq_idx r ++ ex) rs.
Proof.
  intros [Hd Hf Hn Hrg Hm Hc].
  assert (Hh : held (rq_idx r ++ ex) rs ≡ₚ held ex (r :: rs)).
  { unfold held. cbn [map concat]. rewrite !app_assoc. apply Permutation_app_tail, Permutation_app_comm. }
  split; [done|done|by rewrite Hh|by rewrite Hh| |by inversion Hc].
  intros i Hi. rewrite (Hm i Hi). f_equal. apply bool_decide_ext. by rewrite Hh.
Qed.

Lemma get_desc_eq i d s : vq_desc (k_vq s) !! i = Some d -> get_desc (Z.of_nat i) s = Ret d s.
Proof. intros H. unfold get_desc. rewrite Nat2Z.id, H. destruct (Z.ltb_spec (Z.of_nat i) 0); [lia|done]. Qed.

(** Releasing the chain of a request takes three rounds. *)
Lemma free_chain_post r rs s fuel W : pool (k_vq s) [] (r :: rs) ->
  post (free_chain (3 + fuel) (Z.of_nat (rq_0 r))) s (fun _ s' => pool (k_vq s') [] rs) W.
Proof.
  intros HP. pose proof (pool_open _ _ _ _ HP) as H0. rewrite app_nil_r in H0. unfold rq_idx in H0. destruct (Forall_inv (pl_chain _ _ _ HP)) as (E0 & E1 & E2).
  pose proof (pl_nodup _ _ _ H0) as Hn. unfold held in Hn. cbn [app] in Hn. rewrite !NoDup_cons, !not_elem_of_cons in Hn. destruct Hn as ((H01 & H02 & _) & (H12 & _) & _).
  cbn [free_chain Nat.add]. apply post_bind. eapply post_eq; [by apply get_desc_eq|]. apply post_bind.
  eapply post_mono; [apply (free_desc_post _ _ _ _ _ H0)| |done]. intros [] s1 [H1 F1]. cbn [vd_flags vd_next desc_0].
  change (negb (Z.land VRING_DESC_F_NEXT VRING_DESC_F_NEXT =? 0)) with true. cbn iota.
  apply post_bind. eapply post_eq; [apply get_desc_eq; rewrite F1 by done; exact E1|]. apply post_bind.
  eapply post_mono; [apply (free_desc_post _ _ _ _ _ H1)| |done]. intros [] s2 [H2 F2]. cbn [vd_flags vd_next desc_1].
  replace (negb (Z.land (rq_flags r) VRING_DESC_F_NEXT =? 0)) with true by (unfold rq_flags; by destruct (rq_write r)). cbn iota.
  apply post_bind. eapply post_eq; [apply get_desc_eq; rewrite F2, F1 by done; exact E2|]. apply post_bind.
  eapply post_mono; [apply (free_desc_post _ _ _ _ _ H2)| |done]. by intros [] s3 [H3 _].
Qed.

Lemma wait_post r rs s : pool (k_vq s) [] (r :: rs) ->
  post (vrw_wait (Z.of_nat (rq_0 r))) s (fun _ s' => pool (k_vq s') [] rs) (fun s' => k_vq s' = k_vq s).
Proof.
  intros HP. unfold vrw_wait. apply post_bind. unfold post at 1, get_info at 1. destruct (_ !! _) as [info|]; [|done].
  destruct (negb _); [apply sleep_vq|]. apply post_bind. eapply post_mono; [apply (free_chain_post r rs s 6 (fun s' => k_vq s' = k_vq s)); exact HP| |done].
  intros [] s1 H1. apply release_post. by intros h.
Qed.

(** ** Histories of the disk *)

(** One step of the driver with the requests in flight.  Between two steps of the driver
    the device may write the rings and the status bytes ([vs_device]), and the kernel do
    anything else ([vs_kernel]). *)
Inductive vstep : kstate * list vreq -> kstate * list vreq -> Prop :=
| vs_submit r s s1 s2 rs :
    vrw_alloc s = Ret (Z.of_nat (rq_0 r), Z.of_nat (rq_1 r), Z.of_nat (rq_2 r)) s1 ->
    vrw_submit (Z.of_nat (rq_0 r), Z.of_nat (rq_1 r), Z.of_nat (rq_2 r)) (rq_block r) (rq_buf r) (rq_write r) s1 = Ret tt s2 ->
    vstep (s, rs) (s2, r :: rs)
| vs_no_desc s s' rs : vrw_alloc s = Swtch s' -> vstep (s, rs) (s', rs)
| vs_finish r s s' rs rs' :
    rs ≡ₚ r :: rs' -> vrw_wait (Z.of_nat (rq_0 r)) s = Ret tt s' -> vstep (s, rs) (s', rs')
| vs_wait r s s' rs : r ∈ rs -> vrw_wait (Z.of_nat (rq_0 r)) s = Swtch s' -> vstep (s, rs) (s', rs)
| vs_intr s s' rs : virtio_disk_intr s = Ret tt s' -> vstep (s, rs) (s', rs)
| vs_device s s' rs : same_pool (k_vq s) (k_vq s') -> vstep (s, rs) (s', rs)
| vs_kernel s s' rs : k_vq s' = k_vq s -> vstep (s, rs) (s', rs).

Lemma alloc_post s rs : pool (k_vq s) [] rs ->
  post vrw_alloc s (fun idx s' => (length rs < 2)%nat /\ exists i j k, idx = (Z.of_nat i, Z.of_nat j, Z.of_nat k) /\ pool (k_vq s') [k; j; i] rs)
    (fun s' => length rs = 2%nat /\ pool (k_vq s') [] rs).
Proof.
  intros HP. unfold vrw_alloc. apply post_bind. eapply post_mono; [apply (alloc3_post s rs (fun _ => length rs = 2%nat /\ False) HP)| |by intros s' [_ []]].
  intros [idx|] s1 H1; [done|]. destruct H1 as [Hl H1]. eapply post_mono; [apply (sleep_vq _ _ _ (fun _ _ => False))|done|].
  intros s2 E. rewrite E. by split.
Qed.

Lemma vrw_submit_Ret r s s' : (rq_1 r < NUM)%nat -> (rq_2 r < NUM)%nat ->
  vrw_submit (Z.of_nat (rq_0 r), Z.of_nat (rq_1 r), Z.of_nat (rq_2 r)) (rq_block r) (rq_buf r) (rq_write r) s = Ret tt s' ->
  exists n, k_vq s' = submitted r n (k_vq s).
Proof.
  intros H1 H2 E. destruct (vq_words (k_vq s) !! 1%nat) as [n|] eqn:Hn.
  - rewrite (vrw_submit_eq r n s H1 H2 Hn) in E. cbn zeta in E. destruct (_ <? _)%nat; [|done]. exists n. injection E as <-. done.
  - exfalso. unfold vrw_submit, upd_desc, set_status, upd_vq in E. rewrite !bind_modify in E. unfold bind at 1, get_word in E.
    cbn [k_vq set_k_vq vq_words set_vq_desc set_vq_info] in E. change (Z.to_nat AVAIL_IDX) with 1%nat in E. by rewrite Hn in E.
Qed.

Lemma vstep_pool c c' : vstep c c' -> pool (k_vq c.1) [] c.2 -> pool (k_vq c'.1) [] c'.2.
Proof.
  intros H. destruct H as [r s s1 s2 rs Ea Es|s s' rs Ea|r s s' rs rs' Hp Ew|r s s' rs Hr Ew|s s' rs Ei|s s' rs [E1 E2]|s s' rs E]; cbn [fst snd]; intros HP.
  - apply (post_Ret _ _ _ _ _ _ (alloc_post s rs HP)) in Ea as [_ (i & j & k & Eidx & H1)].
    injection Eidx as E0%Nat2Z.inj E1%Nat2Z.inj E2%Nat2Z.inj. subst i j k.
    pose proof (pl_range _ _ _ H1) as Hr. apply Forall_cons in Hr as [R2 [R1 _]%Forall_cons].
    destruct (vrw_submit_Ret r s1 s2 R1 R2 Es) as [n En]. rewrite En. by apply pool_submit.
  - by apply (post_Swtch _ _ _ _ _ (alloc_post s rs HP)) in Ea as [_ H1].
  - apply (pool_perm _ [] [] _ (r :: rs')) in HP; [|done|done]. exact (post_Ret _ _ _ _ _ _ (wait_post r rs' s HP) Ew).
  - apply list_elem_of_split in Hr as (l1 & l2 & ->).
    assert (HP' : pool (k_vq s) [] (r :: l1 ++ l2)) by (by apply (pool_perm _ [] [] (l1 ++ r :: l2)); [|symmetry; apply Permutation_middle|]).
    by rewrite (post_Swtch _ _ _ _ _ (wait_post r _ s HP') Ew).
  - destruct (post_Ret _ _ _ _ _ _ (intr_pool s (fun _ => True)) Ei) as [E1 E2]. by apply (pool_same (k_vq s)).
  - by apply (pool_same (k_vq s)).
  - by rewrite E.
Qed.

(** ** A finished request is released *)

Lemma free_desc_Ret i ex rs s : pool (k_vq s) (i :: ex) rs -> kok s ->
  exists s', free_desc (Z.of_nat i) s = Ret tt s' /\ kok s' /\ k_hart s' = k_hart s.
Proof.
  intros HP Hk. pose proof (pl_range _ _ _ HP) as Hr. apply Forall_cons in Hr as [Hi _].
  assert (Hf : vq_free (k_vq s) !! i = Some false) by (rewrite (pl_mark _ _ _ HP i Hi), bool_decide_false; [done|]; intros Hn; apply Hn; left).
  rewrite (free_desc_eq i s Hi Hf). set (s1 := set_k_vq _ s). destruct (kok_wake ChDiskFree s1 Hk) as [E Hk1]. eexists. split_and!; [exact E|exact Hk1|done].
Qed.

Lemma free_chain_Ret r rs s fuel : pool (k_vq s) [] (r :: rs) -> kok s ->
  exists s', free_chain (3 + fuel) (Z.of_nat (rq_0 r)) s = Ret tt s' /\ k_hart s' = k_hart s.
Proof.
  intros HP Hk. pose proof (pool_open _ _ _ _ HP) as H0. rewrite app_nil_r in H0. unfold rq_idx in H0. destruct (Forall_inv (pl_chain _ _ _ HP)) as (E0 & E1 & E2).
  pose proof (pl_nodup _ _ _ H0) as Hn. unfold held in Hn. cbn [app] in Hn. rewrite !NoDup_cons, !not_elem_of_cons in Hn. destruct Hn as ((H01 & H02 & _) & (H12 & _) & _).
  destruct (free_desc_Ret _ _ _ _ H0 Hk) as (s1 & F1 & Hk1 & Hh1). destruct (post_Ret _ _ _ _ _ _ (free_desc_post _ _ _ _ (fun _ => True) H0) F1) as [H1 D1].
  destruct (free_desc_Ret _ _ _ _ H1 Hk1) as (s2 & F2 & Hk2 & Hh2). destruct (post_Ret _ _ _ _ _ _ (free_desc_post _ _ _ _ (fun _ => True) H1) F2) as [H2 D2].
  destruct (free_desc_Ret _ _ _ _ H2 Hk2) as (s3 & F3 & _ & Hh3). exists s3. split; [|congruence].
  cbn [free_chain Nat.add]. run_ret (get_desc_eq _ _ _ E0). run_ret F1. cbn [vd_flags vd_next desc_0].
  change (negb (Z.land VRING_DESC_F_NEXT VRING_DESC_F_NEXT =? 0)) with true. cbn iota.
  rewrite <- D1 in E1, E2 by done. run_ret (get_desc_eq _ _ _ E1). run_ret F2. cbn [vd_flags vd_next desc_1].
  replace (negb (Z.land (rq_flags r) VRING_DESC_F_NEXT =? 0)) with true by (unfold rq_flags; by destruct (rq_write r)). cbn iota.
  rewrite <- D2 in E2 by done. run_ret (get_desc_eq _ _ _ E2). by run_ret F3.
Qed.

Lemma wait_Ret r rs s d : pool (k_vq s) [] (r :: rs) -> kok s -> LkDisk ∈ h_locks (k_hart s) ->
  vq_info (k_vq s) !! rq_0 r = Some (mkVInfo d 0) -> exists s', vrw_wait (Z.of_nat (rq_0 r)) s = Ret tt s'.
Proof.
  intros HP Hk Hl Hi. unfold vrw_wait. erewrite bind_Ret by (unfold get_info; rewrite Nat2Z.id, Hi; done). cbn [vi_status Z.eqb negb].
  destruct (free_chain_Ret r rs s 6 HP Hk) as (s1 & E1 & Hh). change (3 + 6)%nat with (S NUM) in E1. run_ret E1.
  rewrite release_ok by (by rewrite Hh). by eexists.
Qed.

Lemma init_pool pages s s' : virtio_disk_init pages s = Ret tt s' -> pool (k_vq s') [] [].
Proof.
  unfold virtio_disk_init, initlock, virtio_reg, set_virtio_reg, ld_reg, st_reg, upd_vq. rewrite bind_modify, !bind_gets. destruct (negb _ || _ || _ || _); [done|].
  cbn zeta. rewrite !bind_modify, bind_gets, !bind_modify, bind_gets. destruct (_ =? 0); [done|]. destruct (_ <? Z.of_nat NUM); [done|].
  rewrite !bind_modify. intros [= <-]. split; try done; [apply NoDup_nil_2|]. intros i Hi. unfold held. cbn [app concat map]. rewrite bool_decide_true by apply not_elem_of_nil.
  exact (lookup_replicate_2 NUM true i Hi).
Qed.

(** C21.  The descriptors of the disk are never shared or lost.  After any history of submissions, sleeps,
    interrupts and releases since virtio_disk_init, interleaved with the device and the rest of the
    kernel: at most two requests are in flight; their chains are disjoint and hold the header, the data
    and the status descriptor of their request; a descriptor is free exactly when it is in no chain; and a
    request whose status byte is clear is released without panic. *)
Theorem virtio_pool pages s0 s1 s rs :
  virtio_disk_init pages s0 = Ret tt s1 -> rtc vstep (s1, []) (s, rs) ->
  (length rs <= 2)%nat /\ NoDup (held [] rs) /\ Forall (chain_ok (vq_desc (k_vq s))) rs /\
  (forall i, (i < NUM)%nat -> vq_free (k_vq s) !! i = Some (bool_decide (i ∉ held [] rs))) /\
  (forall r d, r ∈ rs -> kok s -> LkDisk ∈ h_locks (k_hart s) -> vq_info (k_vq s) !! rq_0 r = Some (mkVInfo d 0) ->
     exists s', vrw_wait (Z.of_nat (rq_0 r)) s = Ret tt s').
Proof.
  intros Hi Hs. assert (HP : pool (k_vq s) [] rs).
  { apply init_pool in Hi. change (pool (k_vq (s1, @nil vreq).1) [] (s1, @nil vreq).2) in Hi. change (pool (k_vq (s, rs).1) [] (s, rs).2).
    revert Hi. induction Hs as [|c c1 c2 H1 _ IH]; [done|]. intros H. by apply IH, (vstep_pool c). }
  split_and!; [apply pool_size in HP; unfold NUM in HP; cbn in HP; lia|apply (pl_nodup _ _ _ HP)|apply (pl_chain _ _ _ HP)|apply (pl_mark _ _ _ HP)|].
  intros r d Hr Hk Hl Hst. apply list_elem_of_split in Hr as (l1 & l2 & ->).
  apply (wait_Ret r (l1 ++ l2) s d); [|done..]. by apply (pool_perm _ [] [] (l1 ++ r :: l2)); [|symmetry; apply Permutation_middle|].
Qed.

(** ** The interrupt handler *)

(** The id the device stored in entry [j] of the used ring, counted from [from]. *)
Definition word (q : vqueue) (k : Z) : Z := default 0 (vq_words q !! Z.to_nat k).
Definition used_id (q : vqueue) (from j : Z) : Z :=
  let k := (from + j) mod Z.of_nat NUM in word q (USED_ID k) + 65536 * word q (USED_ID k + 1).

Definition status (q : vqueue) (id : Z) : Z := default 0 (vi_status <$> vq_info q !! Z.to_nat id).

(** The handler's condition on the entries it consumes. *)
Definition completable (q : vqueue) (ids : list Z) : Prop :=
  Forall (fun id => id < Z.of_nat NUM /\ status q id = 0xff) ids /\ NoDup ids.

Definition clear_status (id : Z) : vqueue -> vqueue := set_vq_info (alter (fun x => mkVInfo (vi_data x) 0) (Z.to_nat id)).
Definition complete (s : kstate) (id : Z) : kstate :=
  set_k_procs (wake_table (k_cur s) (ChDiskInfo (Z.to_nat id))) (set_k_vq (clear_status id) s).

(** The rings have their size and hold 16-bit words. *)
Record ring_ok (q : vqueue) : Prop := {
  rg_words : length (vq_words q) = 4096%nat;
  rg_range : Forall (fun w => 0 <= w < 65536) (vq_words q);
  rg_info : length (vq_info q) = NUM;
}.

Lemma get_word_ok q k s : k_vq s = q -> ring_ok q -> 0 <= k < 4096 -> get_word k s = Ret (word q k) s /\ 0 <= word q k < 65536.
Proof.
  intros <- [Hl Hr _] Hk. destruct (lookup_lt_is_Some_2 (vq_words (k_vq s)) (Z.to_nat k) ltac:(lia)) as [w Hw].
  unfold get_word, word. rewrite Hw. split; [done|]. cbn. by apply (proj1 (Forall_lookup _ _) Hr (Z.to_nat k)).
Qed.

(** How many requests still have the status of a request in flight. *)
Definition in_flight (q : vqueue) : nat := length (filter (fun x => vi_status x = 0xff) (vq_info q)).

Lemma in_flight_clear (l : list vinfo) i x : l !! i = Some x -> vi_status x = 0xff ->
  length (filter (fun x => vi_status x = 0xff) l) = S (length (filter (fun x => vi_status x = 0xff) (alter (fun x => mkVInfo (vi_data x) 0) i l))).
Proof.
  revert i. induction l as [|y l IH]; intros i Hi Hx; [done|]. destruct i as [|i]; cbn in Hi.
  - injection Hi as ->. change (alter _ 0%nat (x :: l)) with (mkVInfo (vi_data x) 0 :: l). rewrite filter_cons_True, filter_cons_False by done. done.
  - change (alter ?f (S i) (y :: l)) with (y :: alter f i l). destruct (decide (vi_status y = 0xff)).
    + rewrite !filter_cons_True by done. cbn [length]. by rewrite (IH i).
    + rewrite !filter_cons_False by done. by apply IH.
Qed.

Lemma status_clear q id id' : 0 <= id -> 0 <= id' -> status q id = 0xff ->
  status (clear_status id q) id' = if bool_decide (id' = id) then 0 else status q id'.
Proof.
  intros H0 H1 Hs. unfold status, clear_status. cbn [vq_info set_vq_info]. case_bool_decide as E.
  - subst id'. rewrite list_lookup_alter_eq. unfold status in Hs. by destruct (vq_info q !! Z.to_nat id).
  - by rewrite list_lookup_alter_ne by lia.
Qed.

Lemma completable_cons q id ids : 0 <= id < Z.of_nat NUM -> Forall (fun x => 0 <= x) ids -> status q id = 0xff ->
  completable q (id :: ids) <-> completable (clear_status id q) ids.
Proof.
  intros Hid Hp Hs. unfold completable. rewrite Forall_cons, NoDup_cons, !Forall_forall. rewrite Forall_forall in Hp.
  split.
  - intros [[_ Hall] [Hn Hd]]. split; [|done]. intros x Hx. rewrite status_clear by (done || lia || by apply Hp). rewrite bool_decide_false by congruence. by apply Hall.
  - intros [Hall Hd]. assert (Hn : id ∉ ids).
    { intros Hin. destruct (Hall id Hin) as [_ E]. rewrite status_clear in E by (done || lia). by rewrite bool_decide_true in E. }
    split; [split; [by split; [lia|]|]|by split]. intros x Hx. destruct (Hall x Hx) as [Hlt E].
    rewrite status_clear in E by (done || lia || by apply Hp). rewrite bool_decide_false in E by congruence. by split.
Qed.

Lemma used_id_pos q from j : ring_ok q -> 0 <= used_id q from j.
Proof.
  intros [_ Hr _]. assert (H : forall k, 0 <= word q k) by (intros k; unfold word; destruct (vq_words q !! _) eqn:E; [|done]; apply (proj1 (Forall_lookup _ _) Hr) in E; cbn; lia).
  unfold used_id. cbv zeta. pose proof (H (USED_ID ((from + j) mod Z.of_nat NUM))). pose proof (H (USED_ID ((from + j) mod Z.of_nat NUM) + 1)). lia.
Qed.

Lemma intr_loop_eq q from : ring_ok q -> forall fuel ids i count s,
  vq_words (k_vq s) = vq_words q -> length (vq_info (k_vq s)) = NUM -> kok s ->
  ids = map (used_id q from) (seqZ i (count - i)) -> (in_flight (k_vq s) < fuel)%nat ->
  (completable (k_vq s) ids -> intr_loop fuel i count from s = Ret tt (fold_left complete ids s)) /\
  (~ completable (k_vq s) ids -> exists msg s', intr_loop fuel i count from s = Panic msg s' /\
     (msg = "virtio_disk_intr: used id" \/ msg = "virtio_disk_intr: status")%string).
Proof.
  intros HR. induction fuel as [|fuel IH]; intros ids i count s Hw Hl Hk Hids Hf; [lia|]. cbn [intr_loop].
  destruct (Z.leb_spec count i).
  { rewrite seqZ_nil in Hids by lia. subst ids. split; [done|]. intros Hn. exfalso. apply Hn. split; [constructor|apply NoDup_nil_2]. }
  rewrite seqZ_cons in Hids by lia. cbn [map] in Hids.
  set (k := (from + i) mod Z.of_nat NUM). pose proof (Z.mod_pos_bound (from + i) (Z.of_nat NUM) ltac:(unfold NUM; lia)) as Hkb. fold k in Hkb.
  assert (HRs : ring_ok (k_vq s)) by (split; [rewrite Hw; apply HR|rewrite Hw; apply HR|done]).
  assert (Hwd : forall j, word (k_vq s) j = word q j) by (intros j; unfold word; by rewrite Hw).
  destruct (get_word_ok _ (USED_ID k) s eq_refl HRs) as [E1 R1]; [unfold USED_ID, USED_PAGE, NUM in *; lia|].
  destruct (get_word_ok _ (USED_ID k + 1) s eq_refl HRs) as [E2 R2]; [unfold USED_ID, USED_PAGE, NUM in *; lia|].
  run_ret E1. run_ret E2. rewrite !Hwd in *. change (word q (USED_ID k) + 65536 * word q (USED_ID k + 1)) with (used_id q from i).
  assert (Hpos : forall j, 0 <= used_id q from j) by (intros j; by apply used_id_pos).
  subst ids. set (id := used_id q from i) in *. set (rest := map _ _).
  assert (Hrest : Forall (fun x => 0 <= x) rest) by (apply Forall_forall; intros x Hx; apply list_elem_of_fmap in Hx as (j & -> & _); apply Hpos).
  destruct (Z.leb_spec (Z.of_nat NUM) id).
  { split; [intros [[[? _] _]%Forall_cons _]; lia|]. intros _. do 2 eexists. split; [done|]. by left. }
  destruct (lookup_lt_is_Some_2 (vq_info (k_vq s)) (Z.to_nat id) ltac:(specialize (Hpos i); lia)) as [x Hx].
  erewrite bind_Ret by (unfold get_info; rewrite Hx; done). destruct (Z.eqb_spec (vi_status x) 0xff) as [Es|Es]; cbn [negb].
  2:{ split; [intros [[[_ Hst] _]%Forall_cons _]; unfold status in Hst; rewrite Hx in Hst; done|]. intros _. do 2 eexists. split; [done|]. by right. }
  assert (Hst : status (k_vq s) id = 0xff) by (unfold status; by rewrite Hx).
  unfold set_status, upd_vq. rewrite bind_modify. destruct (kok_wake (ChDiskInfo (Z.to_nat id)) (set_k_vq (clear_status id) s) Hk) as [E3 Hk'].
  run_ret E3. rewrite (completable_cons (k_vq s) id rest) by (done || (specialize (Hpos i); lia)). cbn [fold_left].
  apply (IH rest (i + 1) count (complete s id)); [done|cbn; by rewrite length_alter|done| |].
  - unfold rest. f_equal. f_equal; lia.
  - unfold in_flight in *. cbn. rewrite (in_flight_clear _ _ _ Hx Es) in Hf. lia.
Qed.

(** The effect of the completions, process by process and entry by entry. *)
Definition waits_for (ids : list Z) (p : proc) : Prop :=
  p_state p = SLEEPING /\ exists id, id ∈ ids /\ p_chan p = Some (ChDiskInfo (Z.to_nat id)).

Lemma complete_frame ids : forall s, let s' := fold_left complete ids s in
  k_hart s' = k_hart s /\ k_cur s' = k_cur s /\ vq_words (k_vq s') = vq_words (k_vq s) /\ same_pool (k_vq s) (k_vq s').
Proof.
  induction ids as [|id ids IH]; intros s; [done|]. cbn [fold_left]. destruct (IH (complete s id)) as (E1 & E2 & E3 & E4 & E5). cbv zeta.
  rewrite E1, E2, E3. split_and!; [done|done|done|]. split; [by rewrite E4|by rewrite E5].
Qed.

Lemma complete_procs ids : forall s i p, k_procs s !! i = Some p -> let s' := fold_left complete ids s in
  (k_cur s ≠ Some i -> waits_for ids p -> k_procs s' !! i = Some (set_p_state (fun _ => RUNNABLE) p)) /\
  (k_cur s = Some i \/ ~ waits_for ids p -> k_procs s' !! i = Some p).
Proof.
  induction ids as [|id ids IH]; intros s i p Hp; cbn [fold_left]; cbv zeta.
  { split; [by intros _ [_ (x & Hx%not_elem_of_nil & _)]|done]. }
  set (ch := ChDiskInfo (Z.to_nat id)).
  assert (Hp1 : k_procs (complete s id) !! i = Some (if bool_decide (k_cur s = Some i) then p else wake ch p)).
  { unfold complete. cbn [k_procs set_k_procs set_k_vq]. by rewrite lookup_wake_table, Hp. }
  destruct (IH _ _ _ Hp1) as [Hw Hn]. change (k_cur (complete s id)) with (k_cur s) in Hw, Hn. split.
  - intros Hc [Hs (x & Hx & Hch)]. rewrite bool_decide_false in Hw, Hn by done. destruct (decide (p_chan p = Some ch)) as [E|E].
    + rewrite (wake_hit ch p Hs E) in Hw, Hn. apply Hn. right. by intros [? _].
    + rewrite wake_miss in Hw by naive_solver. apply Hw; [done|]. split; [done|]. exists x. split; [|done].
      apply elem_of_cons in Hx as [->|Hx]; [by rewrite Hch in E|done].
  - intros Hcase. case_bool_decide as Hc; [apply Hn; by left|]. destruct Hcase as [|Hcase]; [done|].
    rewrite wake_miss in Hn. 2:{ intros [Hs Hch]. apply Hcase. split; [done|]. exists id. split; [left|done]. }
    apply Hn. right. intros [Hs (x & Hx & Hch)]. apply Hcase. split; [done|]. exists x. split; [by right|done].
Qed.

Lemma complete_status ids : forall s id, completable (k_vq s) ids -> Forall (fun x => 0 <= x) ids -> 0 <= id ->
  status (k_vq (fold_left complete ids s)) id = if bool_decide (id ∈ ids) then 0 else status (k_vq s) id.
Proof.
  induction ids as [|x ids IH]; intros s id Hc Hp Hid; [done|]. cbn [fold_left]. apply Forall_cons in Hp as [Hx Hp].
  pose proof Hc as [[[Hlt Hst] _]%Forall_cons _]. apply completable_cons in Hc; [|lia|done|done].
  rewrite (IH (complete s x)) by done. cbn [k_vq complete set_k_procs set_k_vq].
  change (k_vq (complete s x)) with (clear_status x (k_vq s)). rewrite status_clear by done.
  destruct (decide (id ∈ ids)); [by rewrite !bool_decide_true by (by try right)|]. rewrite (bool_decide_false (id ∈ ids)) by done.
  destruct (decide (id = x)) as [->|Hne]; [by rewrite !bool_decide_true by (by try left)|].
  rewrite !bool_decide_false; [done| |done]. by apply not_elem_of_cons.
Qed.

(** The entries of the used ring the driver has not seen. *)
Definition fresh_ids (q : vqueue) : list Z :=
  map (used_id q (vq_used_idx q)) (seqZ 0 (u32 (word q USED_IDX - vq_used_idx q))).

(** C22.  The interrupt handler of the disk.  It consumes the entries of the used ring it has not seen: when
    they are distinct requests whose status byte still says in flight (0xff), each status is cleared, the
    processes that wait for these requests and no others become RUNNABLE, the index moves up and the chains
    stay as they are; in every other case, a status byte the device has set to 0 included, it panics.  The
    loop ends in both. *)
Theorem virtio_disk_intr_correct s :
  kok s -> ring_ok (k_vq s) -> LkDisk ∉ h_locks (k_hart s) ->
  (completable (k_vq s) (fresh_ids (k_vq s)) -> exists s', virtio_disk_intr s = Ret tt s' /\
     (forall id, 0 <= id -> status (k_vq s') id = if bool_decide (id ∈ fresh_ids (k_vq s)) then 0 else status (k_vq s) id) /\
     (forall i p, k_procs s !! i = Some p -> k_cur s ≠ Some i -> waits_for (fresh_ids (k_vq s)) p ->
        k_procs s' !! i = Some (set_p_state (fun _ => RUNNABLE) p)) /\
     (forall i p, k_procs s !! i = Some p -> k_cur s = Some i \/ ~ waits_for (fresh_ids (k_vq s)) p -> k_procs s' !! i = Some p) /\
     vq_used_idx (k_vq s') = word (k_vq s) USED_IDX /\ vq_words (k_vq s') = vq_words (k_vq s) /\
     same_pool (k_vq s) (k_vq s') /\ k_hart s' = k_hart s) /\
  (~ completable (k_vq s) (fresh_ids (k_vq s)) -> exists msg s', virtio_disk_intr s = Panic msg s' /\
     (msg = "virtio_disk_intr: used id" \/ msg = "virtio_disk_intr: status")%string).
Proof.
  intros Hk HR Hlk. unfold virtio_disk_intr. run_ret (acquire_ok _ _ Hlk). unfold virtio_reg, set_virtio_reg, ld_reg, st_reg. rewrite bind_gets, bind_modify.
  set (s1 := set_k_dev _ _). assert (Hk1 : kok s1).
  { destruct Hk as (H1 & H2 & H3). split_and!; [by apply hart_ok_acquire| |done]. intros i Hi. apply H2. cbn in Hi. set_solver. }
  destruct (get_word_ok (k_vq s1) USED_IDX s1 eq_refl HR ltac:(unfold USED_IDX, USED_PAGE; lia)) as [E _]. run_ret E. rewrite bind_gets. change (k_vq s1) with (k_vq s).
  assert (Hfl : (in_flight (k_vq s) < S NUM)%nat) by (unfold in_flight; rewrite <- (rg_info _ HR); apply Nat.lt_succ_r, length_filter).
  destruct (intr_loop_eq (k_vq s) (vq_used_idx (k_vq s)) HR (S NUM) (fresh_ids (k_vq s)) 0 (u32 (word (k_vq s) USED_IDX - vq_used_idx (k_vq s))) s1) as [Hgood Hbad];
    [done|apply HR|done|unfold fresh_ids; by rewrite Z.sub_0_r|exact Hfl|]. change (k_vq s1) with (k_vq s) in Hgood, Hbad. split.
  2:{ intros Hn. destruct (Hbad Hn) as (msg & s' & E' & Hm). exists msg, s'. split; [|done]. unfold bind at 1. by rewrite E'. }
  intros Hc. run_ret (Hgood Hc). unfold upd_vq. rewrite bind_modify. set (ids := fresh_ids (k_vq s)) in *.
  destruct (complete_frame ids s1) as (F1 & F2 & F3 & F4). cbv zeta in F1.
  assert (Hids : Forall (fun x => 0 <= x) ids) by (apply Forall_forall; intros x Hx; apply list_elem_of_fmap in Hx as (j & -> & _); by apply used_id_pos).
  rewrite (release_after LkDisk s) by (done || apply Hk). eexists. split; [reflexivity|]. cbn [k_vq k_procs k_hart set_k_hart set_k_vq vq_used_idx vq_words set_vq_used_idx].
  split_and!; [|intros i p Hp; exact (proj1 (complete_procs ids s1 i p Hp))|intros i p Hp; exact (proj2 (complete_procs ids s1 i p Hp))|done|exact F3|exact F4|done].
  intros id Hid. by apply (complete_status ids s1).
Qed.

(** ** What the device reads *)

(** The device looks for request [n] of the available ring in entry n mod NUM, and
    follows the chain from there. *)
Definition dev_head (q : vqueue) (n : Z) : Z := word q (AVAIL_RING + n mod Z.of_nat NUM).
Fixpoint dev_chain (fuel : nat) (q : vqueue) (i : Z) : list vring_desc :=
  match fuel with
  | O => []
  | S fuel' =>
      match vq_desc q !! Z.to_nat i with
      | None => []
      | Some d => d :: (if Z.land (vd_flags d) VRING_DESC_F_NEXT =? 0 then [] else dev_chain fuel' q (vd_next d))
      end
  end.

Lemma dev_chain_ok q r fuel : chain_ok (vq_desc q) r -> dev_chain (3 + fuel) q (Z.of_nat (rq_0 r)) = [desc_0 r; desc_1 r; desc_2 r].
Proof.
  intros (E0 & E1 & E2). cbn [dev_chain Nat.add]. rewrite Nat2Z.id, E0. cbn [vd_flags vd_next desc_0]. change (Z.land VRING_DESC_F_NEXT VRING_DESC_F_NEXT =? 0) with false.
  cbn iota. rewrite Nat2Z.id, E1. cbn [vd_flags vd_next desc_1]. replace (Z.land (rq_flags r) VRING_DESC_F_NEXT =? 0) with false by (unfold rq_flags; by destruct (rq_write r)).
  cbn iota. by rewrite Nat2Z.id, E2.
Qed.

(** C23.  Which requests the device sees.  Submitting request number n on a chain just allocated returns, counts
    it in the available index and marks it in flight.  For the first NUM requests the device finds in the ring
    the header with the direction and the sector, the buffer and the status byte of the request.  A later one is
    stored behind the ring, which has NUM entries: everything the device reads there is as it was before. *)
Theorem virtio_request_published r n s rs :
  ring_ok (k_vq s) -> pool (k_vq s) [rq_2 r; rq_1 r; rq_0 r] rs -> word (k_vq s) AVAIL_IDX = n -> 0 <= n < 2046 ->
  exists s', vrw_submit (Z.of_nat (rq_0 r), Z.of_nat (rq_1 r), Z.of_nat (rq_2 r)) (rq_block r) (rq_buf r) (rq_write r) s = Ret tt s' /\
  word (k_vq s') AVAIL_IDX = n + 1 /\ status (k_vq s') (Z.of_nat (rq_0 r)) = 0xff /\
  (n < Z.of_nat NUM -> dev_chain NUM (k_vq s') (dev_head (k_vq s') n) = [desc_0 r; desc_1 r; desc_2 r]) /\
  (Z.of_nat NUM <= n -> forall m, dev_head (k_vq s') m = dev_head (k_vq s) m).
Proof.
  intros [Hl Hw Hinfo] HP Hn Hr. pose proof (pl_range _ _ _ HP) as Hb. unfold held in Hb. cbn [app] in Hb. rewrite !Forall_cons in Hb. destruct Hb as (R2 & R1 & R0 & _).
  assert (Hn1 : vq_words (k_vq s) !! 1%nat = Some n).
  { destruct (lookup_lt_is_Some_2 (vq_words (k_vq s)) 1 ltac:(lia)) as [w E]. unfold word in Hn. change (Z.to_nat AVAIL_IDX) with 1%nat in Hn. rewrite E in *. cbn in Hn. congruence. }
  pose proof (vrw_submit_eq r n s R1 R2 Hn1) as E. cbn zeta in E. rewrite Hl, (proj2 (Nat.ltb_lt _ _)) in E by lia. eexists. split; [exact E|].
  pose proof (pool_submit r n (k_vq s) rs HP) as HP'. cbn [k_vq set_virtio_reg st_reg set_k_dev set_k_vq].
  assert (Hu : forall x, 0 <= x < 65536 -> u16 x = x) by (intros x Hx; unfold u16; apply Z.mod_small; lia).
  assert (Hring : forall k, 2 <= k -> word (submitted r n (k_vq s)) k = if k =? 2 + n then Z.of_nat (rq_0 r) else word (k_vq s) k).
  { intros k Hk. unfold word. cbn [vq_words submitted]. rewrite list_lookup_insert_ne by lia. destruct (Z.eqb_spec k (2 + n)) as [->|Hne].
    - rewrite list_lookup_insert_eq by lia. cbn. apply Hu. unfold NUM in R0. lia.
    - by rewrite list_lookup_insert_ne by lia. }
  split_and!.
  - unfold word. cbn [vq_words submitted]. change (Z.to_nat AVAIL_IDX) with 1%nat. rewrite list_lookup_insert_eq by (rewrite length_insert; lia). cbn. apply Hu. lia.
  - unfold status. cbn [vq_info submitted]. rewrite Nat2Z.id, !list_lookup_alter_eq. destruct (lookup_lt_is_Some_2 (vq_info (k_vq s)) (rq_0 r) ltac:(lia)) as [x ->]. done.
  - intros Hlt. unfold dev_head. rewrite Z.mod_small by lia. rewrite Hring by (unfold AVAIL_RING; lia). rewrite (proj2 (Z.eqb_eq _ _)) by done.
    apply (dev_chain_ok _ r 5). by destruct (Forall_inv (pl_chain _ _ _ HP')).
  - intros Hge m. unfold dev_head. pose proof (Z.mod_pos_bound m (Z.of_nat NUM) ltac:(unfold NUM; lia)). rewrite Hring by (unfold AVAIL_RING; lia).
    by rewrite (proj2 (Z.eqb_neq _ _)) by (unfold AVAIL_RING; lia).
Qed.

(** ** A disk in use *)
Definition disk_regs : gmap Z Z :=
  list_to_map [(VIRTIO0 + VIRTIO_MMIO_MAGIC_VALUE, 0x74726976); (VIRTIO0 + VIRTIO_MMIO_VERSION, 1);
    (VIRTIO0 + VIRTIO_MMIO_DEVICE_ID, 2); (VIRTIO0 + VIRTIO_MMIO_VENDOR_ID, 0x554d4551); (VIRTIO0 + VIRTIO_MMIO_QUEUE_NUM_MAX, 8)].
Definition disk_found : kstate :=
  set_k_vq (set_vq_info (fun _ => replicate NUM (mkVInfo None 0))) (set_k_dev (set_dv_regs (fun _ => disk_regs)) running_state).
Definition disk_ready : kstate := final (virtio_disk_init 0x80020000 disk_found) disk_found.
Definition ex_req : vreq := mkReq 0 1 2 7 3 false.
Definition disk_taken : kstate := final (vrw_alloc disk_ready) disk_ready.
Definition disk_asked : kstate := final (vrw_submit (0, 1, 2) 7 3 false disk_taken) disk_taken.
(** The device reports request 0 and leaves its status byte alone. *)
Definition disk_done : kstate := set_k_vq (set_vq_words (fun w => <[2049%nat := 1]> w)) disk_asked.

Lemma virtio_pool_witness :
  rtc vstep (disk_ready, []) (disk_asked, [ex_req]) /\ NoDup (held [] [ex_req]) /\
  vq_free (k_vq disk_asked) !! 3%nat = Some true.
Proof.
  assert (Hs : rtc vstep (disk_ready, []) (disk_asked, [ex_req])).
  { apply rtc_once. apply (vs_submit ex_req disk_ready disk_taken disk_asked []); vm_compute; reflexivity. }
  assert (Hi : virtio_disk_init 0x80020000 disk_found = Ret tt disk_ready) by (vm_compute; reflexivity).
  destruct (virtio_pool 0x80020000 disk_found disk_ready disk_asked [ex_req] Hi Hs) as (_ & Hn & _ & Hf & _).
  split; [exact Hs|split; [exact Hn|]]. rewrite (Hf 3%nat) by (unfold NUM; lia). reflexivity.
Defined.

Lemma disk_ring (w : list Z) (q : vqueue) : length w = 4096%nat -> forallb (fun x => (0 <=? x) && (x <? 65536)) w = true ->
  vq_words q = w -> length (vq_info q) = NUM -> ring_ok q.
Proof.
  intros Hl Hf <- Hi. split; [done| |done]. apply Forall_forall. intros x Hx. rewrite forallb_forall in Hf.
  specialize (Hf x (proj1 (list_elem_of_In _ _) Hx)). apply andb_true_iff in Hf as [H1%Z.leb_le H2%Z.ltb_lt]. lia.
Qed.

Lemma virtio_disk_intr_correct_witness :
  fresh_ids (k_vq disk_done) = [0] /\ exists s', virtio_disk_intr disk_done = Ret tt s' /\ status (k_vq s') 0 = 0.
Proof.
  assert (Hk : kok disk_done).
  { split_and!; [exact boot_hart_ok| |vm_compute; reflexivity]. intros i Hi. exfalso. revert Hi. apply not_elem_of_empty. }
  assert (HR : ring_ok (k_vq disk_done)) by (eapply disk_ring; [..|reflexivity|]; vm_compute; reflexivity).
  destruct (virtio_disk_intr_correct disk_done Hk HR (not_elem_of_empty _)) as [H _].
  assert (Hids : fresh_ids (k_vq disk_done) = [0]) by (vm_compute; reflexivity). split; [exact Hids|].
  destruct H as (s' & E & Hs & _).
  { rewrite Hids. split; [|apply NoDup_singleton]. apply Forall_singleton. split; [unfold NUM; lia|vm_compute; reflexivity]. }
  exists s'. split; [exact E|]. rewrite (Hs 0) by lia. rewrite Hids. reflexivity.
Defined.

Lemma virtio_request_published_witness :
  exists s', vrw_submit (0, 1, 2) 7 3 false disk_taken = Ret tt s' /\
    dev_chain NUM (k_vq s') (dev_head (k_vq s') 0) = [desc_0 ex_req; desc_1 ex_req; desc_2 ex_req].
Proof.
  assert (HR : ring_ok (k_vq disk_taken)) by (eapply disk_ring; [..|reflexivity|]; vm_compute; reflexivity).
  assert (HP : pool (k_vq disk_taken) [2; 1; 0]%nat []).
  { assert (Hi : virtio_disk_init 0x80020000 disk_found = Ret tt disk_ready) by (vm_compute; reflexivity). apply init_pool in Hi.
    assert (Ea : vrw_alloc disk_ready = Ret (0, 1, 2) disk_taken) by (vm_compute; reflexivity).
    apply (post_Ret _ _ _ _ _ _ (alloc_post _ _ Hi)) in Ea as [_ (i & j & k & [= E0 E1 E2] & HP)].
    by replace [2; 1; 0]%nat with [k; j; i] by (repeat f_equal; lia). }
  destruct (virtio_request_published ex_req 0 disk_taken [] HR HP ltac:(vm_compute; reflexivity) ltac:(lia)) as (s' & E & _ & _ & Hd & _).
  exists s'. split; [exact E|]. apply Hd. unfold NUM. lia.
Defined.
