(* ===== verification/Args.v ===== *)
(** * Fetching system call arguments (kernel/syscall.c)

    Arguments come from the trap frame of the current process and, for strings and
    pointers, from its memory through copyin and copyinstr.  A C function that returns
    -1 or stores through a pointer is a computation of an option. *)

From S2P Require Import Prelude Params Machine Spinlock Sched CString Kalloc Vm Pipe Bio Log Fs File Proc.

Section Args.
Context `{Linker}.

(** The record of the current process. *)
Definition mine : K proc := let! p := curproc in get_proc p.

Definition fetchaddr (addr : Z) : K (option Z) :=
  let! p := mine in
  if (p_sz p <=? addr) || (p_sz p <? u64 (addr + 8)) then ret None
  else
    let! r := copyin (p_pagetable p) addr 8 in
    if negb (fst r =? 0) then ret None else ret (Some (le_val (snd r))).

Definition fetchargint (n : Z) : K (option Z) :=
  let! p := mine in
  if (n <? 0) || (6 <=? n) then ret None
  else
    let! x := tf_get (p_trapframe p) ((n + 12) * 8) in
    ret (Some x).

Definition argint (n : Z) : K (option Z) :=
  let! x := fetchargint n in
  ret (i32 <$> x).

Definition argaddr (n : Z) : K (option Z) := fetchargint n.

(** fetchstr(addr, buf, max): the result and the bytes stored in buf. *)
Definition fetchstr (addr max : Z) : K (Z * list Z) :=
  let! p := mine in
  if p_sz p <=? addr then ret (-1, [])
  else
    let! r := copyinstr (p_pagetable p) addr max in
    if fst r <? 0 then ret (-1, snd r) else ret (strlen (snd r), snd r).

(** argstr(n, buf, max) *)
Definition argstr (n max : Z) : K (Z * list Z) :=
  let! a := argaddr n in
  match a with
  | None => ret (-1, [])
  | Some addr => fetchstr addr max
  end.

(** A string argument, where a negative result makes the caller fail. *)
Definition argpath (n : Z) : K (option (list Z)) :=
  let! r := argstr n MAXPATH in
  ret (if fst r <? 0 then None else Some (snd r)).
End Args.
