(* ===== verification/Sysfile.v ===== *)
(** * File system calls (kernel/sysfile.c) *)

From S2P Require Import Prelude Params Machine Spinlock Sched CString Kalloc Vm Pipe Bio Log Fs File Proc Args Console.

Definition O_RDONLY : Z := 0x000.
Definition O_WRONLY : Z := 0x001.
Definition O_RDWR : Z := 0x002.
Definition O_CREATE : Z := 0x200.
Definition O_TRUNC : Z := 0x400.
Definition O_ALL : Z := Z.lor (Z.lor (Z.lor (Z.lor O_RDONLY O_WRONLY) O_RDWR) O_CREATE) O_TRUNC.

Definition has (flags bit : Z) : bool := negb (Z.land flags bit =? 0).

Section Sysfile.
Context `{Linker}.

(** ** Descriptors *)
Definition set_ofile (fd : nat) (f : option nat) : K unit :=
  let! p := curproc in
  upd_proc p (set_p_ofile (insert fd f)).

Definition fdalloc (f : nat) : K Z :=
  let! r := search (seq 0 NOFILE) (fun fd =>
    let! p := mine in
    match p_ofile p !! fd with
    | Some None =>
        do! set_ofile fd (Some f);
        ret (Some (Z.of_nat fd))
    | _ => ret None
    end) in
  ret (default (-1) r).

(** The descriptor argument [n]: its number and its file, when both are there. *)
Definition argfd (n : Z) : K (option (nat * option nat)) :=
  let! x := argint n in
  match x with
  | None => ret None
  | Some fd =>
      if (fd <? 0) || (Z.of_nat NOFILE <=? fd) then ret None
      else
        let! p := mine in
        ret (Some (Z.to_nat fd, default None (p_ofile p !! Z.to_nat fd)))
  end.

(** ** Creation *)
Definition str_dot : list Z := [DOT; 0].
Definition str_dotdot : list Z := [DOT; DOT; 0].

Definition create_fail (dp ip : nat) : K (option nat) :=
  let! i := get_inode ip in
  do! when (i_type i =? T_DIR)
        (do! upd_inode dp (set_i_nlink (fun n => i16 (n - 1)));
         iupdate dp);
  do! upd_inode ip (set_i_nlink (fun _ => 0));
  do! iupdate ip;
  do! iput ip;
  do! iunlockput ip;
  do! iunlockput dp;
  ret None.

(** The new inode [ip] is entered into [dp]. *)
Definition create_link (dp ip : nat) (name : list Z) : K (option nat) :=
  let! i := get_inode ip in
  let! r := dirlink dp name (i_inum i) in
  if r <? 0 then create_fail dp ip
  else
    do! iunlockput dp;
    ret (Some ip).

Definition create_new (dp ip : nat) (name : list Z) (type major minor : Z) : K (option nat) :=
  do! ilock (Some ip);
  do! upd_inode ip (set_i_major (fun _ => major));
  do! upd_inode ip (set_i_minor (fun _ => minor));
  do! upd_inode ip (set_i_nlink (fun _ => 1));
  do! iupdate ip;
  if type =? T_DIR then
    do! upd_inode dp (set_i_nlink (fun n => i16 (n + 1)));
    do! iupdate dp;
    let! i := get_inode ip in
    let! r := dirlink ip str_dot (i_inum i) in
    if r <? 0 then create_fail dp ip
    else
      let! d := get_inode dp in
      let! r := dirlink ip str_dotdot (i_inum d) in
      if r <? 0 then create_fail dp ip else create_link dp ip name
  else create_link dp ip name.

Definition create (path : list Z) (type major minor : Z) : K (option nat) :=
  let! r := nameiparent path in
  match r with
  | None => ret None
  | Some (dp, name) =>
      do! ilock (Some dp);
      let! r := dirlookup dp name in
      match r with
      | Some (ip, _) =>
          do! iunlockput dp;
          do! ilock (Some ip);
          let! i := get_inode ip in
          if (type =? T_FILE) && ((i_type i =? T_FILE) || (i_type i =? T_DEVICE)) then ret (Some ip)
          else if (type =? T_DIR) && (i_type i =? T_DIR) then ret (Some ip)
          else
            do! iunlockput ip;
            ret None
      | None =>
          let! d := get_inode dp in
          let! o := ialloc_alloc (i_dev d) type in
          match o with
          | None => do! iunlockput dp; ret None
          | Some ip => create_new dp ip name type major minor
          end
      end
  end.

(** ** System calls *)

(** Leave a transaction with result -1, dropping the locked inode. *)
Definition fail_op : K Z := do! end_op; ret (-1).
Definition fail_put (ip : nat) : K Z := do! iunlockput ip; fail_op.

Definition open_file (ip : nat) (omode : Z) (f : nat) : K unit :=
  do! upd_file f (set_f_type (fun _ => FD_INODE));
  do! upd_file f (set_f_ip (fun _ => Some ip));
  do! upd_file f (set_f_off (fun _ => 0));
  do! upd_file f (set_f_readable (fun _ => negb (has omode O_WRONLY)));
  upd_file f (set_f_writable (fun _ => has omode O_WRONLY || has omode O_RDWR)).

Definition sys_open_locked (ip : nat) (omode : Z) : K Z :=
  let! i := get_inode ip in
  if (i_type i =? T_DIR) && negb (omode =? O_RDONLY) then fail_put ip
  else
    let! ofl := filealloc in
    match ofl with
    | None => fail_put ip
    | Some f =>
        let! fd := fdalloc f in
        if fd <? 0 then
          do! fileclose f;
          fail_put ip
        else
          do! open_file ip omode f;
          let! i := get_inode ip in
          do! when (has omode O_TRUNC && (i_type i =? T_FILE))
                (do! itrunc ip;
                 iupdate ip);
          do! iunlock (Some ip);
          do! end_op;
          ret fd
    end.

Definition sys_open : K Z :=
  let! path := argpath 0 in
  match path with
  | None => ret (-1)
  | Some path =>
      let! om := argint 1 in
      match om with
      | None => ret (-1)
      | Some omode =>
          do! begin_op;
          if has omode (Z.lnot O_ALL) then fail_op
          else
            let! oip := (if has omode O_CREATE then create path T_FILE 0 0
                         else
                           let! oip := namei path in
                           match oip with
                           | None => ret None
                           | Some ip => do! ilock (Some ip); ret (Some ip)
                           end) in
            match oip with
            | None => fail_op
            | Some ip => sys_open_locked ip omode
            end
      end
  end.

(** The common end of mknod and mkdir. *)
Definition create_op (path : list Z) (type major minor : Z) : K Z :=
  do! begin_op;
  let! oip := create path type major minor in
  match oip with
  | None => fail_op
  | Some ip =>
      do! iunlockput ip;
      do! end_op;
      ret 0
  end.

Definition sys_mknod : K Z :=
  let! path := argpath 0 in
  match path with
  | None => ret (-1)
  | Some path =>
      let! major := argint 1 in
      match major with
      | None => ret (-1)
      | Some major =>
          let! minor := argint 2 in
          match minor with
          | None => ret (-1)
          | Some minor => create_op path T_DEVICE (i16 major) (i16 minor)
          end
      end
  end.

Definition sys_mkdir : K Z :=
  let! path := argpath 0 in
  match path with
  | None => ret (-1)
  | Some path => create_op path T_DIR 0 0
  end.

Definition sys_chdir : K Z :=
  let! path := argpath 0 in
  match path with
  | None => ret (-1)
  | Some path =>
      let! oip := namei path in
      match oip with
      | None => ret (-1)
      | Some ip =>
          do! ilock (Some ip);
          let! i := get_inode ip in
          if negb (i_type i =? T_DIR) then
            do! iunlockput ip;
            ret (-1)
          else
            do! iunlock (Some ip);
            let! p := mine in
            do! match p_cwd p with Some c => iput c | None => ret tt end;
            let! me := curproc in
            do! upd_proc me (set_p_cwd (fun _ => Some ip));
            ret 0
      end
  end.

Definition link_bad (ip : nat) : K Z :=
  do! ilock (Some ip);
  do! upd_inode ip (set_i_nlink (fun n => i16 (n - 1)));
  do! iupdate ip;
  fail_put ip.

(** sys_link after the two path arguments. *)
Definition link_paths (old new : list Z) : K Z :=
  do! begin_op;
  let! oip := namei old in
  match oip with
  | None => fail_op
  | Some ip =>
      do! ilock (Some ip);
      let! i := get_inode ip in
      if i_type i =? T_DIR then fail_put ip
      else
        do! upd_inode ip (set_i_nlink (fun n => i16 (n + 1)));
        do! iupdate ip;
        do! iunlock (Some ip);
        let! r := nameiparent new in
        match r with
        | None => link_bad ip
        | Some (dp, name) =>
            do! ilock (Some dp);
            let! d := get_inode dp in
            let! i := get_inode ip in
            let! bad := (if negb (i_dev d =? i_dev i) then ret true
                         else let! r := dirlink dp name (i_inum i) in ret (r <? 0)) in
            if bad then
              do! iunlockput dp;
              link_bad ip
            else
              do! iunlockput dp;
              do! iput ip;
              do! end_op;
              ret 0
        end
  end.

Definition sys_link : K Z :=
  let! old := argpath 0 in
  match old with
  | None => ret (-1)
  | Some old =>
      let! new := argpath 1 in
      match new with
      | None => ret (-1)
      | Some new => link_paths old new
      end
  end.

Definition sys_unlink : K Z :=
  let! path := argpath 0 in
  match path with
  | None => ret (-1)
  | Some path =>
      do! begin_op;
      let! r := unlink_helper path in
      do! end_op;
      ret (if r <? 0 then -1 else 0)
  end.

(** [pad]: see [filestat]. *)
Definition sys_fstat (pad : list Z) : K Z :=
  let! fd := argfd 0 in
  match fd with
  | None => ret (-1)
  | Some (_, ofl) =>
      let! st := argaddr 1 in
      match st, ofl with
      | Some addr, Some f => filestat pad f addr
      | _, _ => ret (-1)
      end
  end.

Definition sys_read : K Z :=
  let! fd := argfd 0 in
  let! addr := argaddr 1 in
  let! n := argint 2 in
  match fd, addr, n with
  | Some (_, Some f), Some addr, Some n => if n <=? 0 then ret 0 else fileread f addr n
  | _, _, _ => ret (-1)
  end.

(** sizeof(kbuf) in sys_write. *)
Definition KBUF : Z := 64.

Definition sys_write : K Z :=
  let! fd := argfd 0 in
  let! addr := argaddr 1 in
  let! n := argint 2 in
  match fd, addr, n with
  | Some (fd, ofl), Some addr, Some n =>
      if n <=? 0 then ret 0
      else match ofl with
           | Some f => filewrite f addr n
           | None =>
               if (fd =? 1)%nat then
                 let n := if KBUF <? n then KBUF else n in
                 let! p := mine in
                 let! r := copyin (p_pagetable p) addr n in
                 if fst r <? 0 then ret (-1)
                 else
                   do! each (snd r) consoleputc;
                   ret n
               else ret (-1)
           end
  | _, _, _ => ret (-1)
  end.

Definition sys_close : K Z :=
  let! fd := argfd 0 in
  match fd with
  | Some (fd, Some f) =>
      do! set_ofile fd None;
      do! fileclose f;
      ret 0
  | _ => ret (-1)
  end.

Definition sys_dup : K Z :=
  let! fd := argfd 0 in
  match fd with
  | Some (_, Some f) =>
      let! nd := fdalloc f in
      if nd <? 0 then ret (-1)
      else
        do! filedup f;
        ret nd
  | _ => ret (-1)
  end.

Definition close_both (rf wf : nat) : K Z :=
  do! fileclose rf;
  do! fileclose wf;
  ret (-1).

Definition sys_pipe : K Z :=
  let! a := argaddr 0 in
  match a with
  | None => ret (-1)
  | Some addr =>
      let! r := pipealloc in
      match r with
      | (_, Some rf, Some wf) =>
          let! fd0 := fdalloc rf in
          if fd0 <? 0 then close_both rf wf
          else
            let! fd1 := fdalloc wf in
            if fd1 <? 0 then
              do! set_ofile (Z.to_nat fd0) None;
              close_both rf wf
            else
              let! p := mine in
              let! r0 := copyout (p_pagetable p) addr (le_bytes 4 fd0) in
              let! bad := (if r0 <? 0 then ret true
                           else let! r1 := copyout (p_pagetable p) (u64 (addr + 4)) (le_bytes 4 fd1) in
                                ret (r1 <? 0)) in
              if bad then
                do! set_ofile (Z.to_nat fd0) None;
                do! set_ofile (Z.to_nat fd1) None;
                close_both rf wf
              else ret 0
      | _ => ret (-1)
      end
  end.
End Sysfile.
