(* ===== verification/Exec.v ===== *)
(** * exec and the process system calls (kernel/exec.c, kernel/sysproc.c) *)

From S2P Require Import Prelude Params Machine Spinlock Sched CString Kalloc Vm Pipe Bio Log Fs File Proc Args Console.

(** ** elf.h *)
Definition ELF_MAGIC : Z := 0x464C457F.
Definition ELF_PROG_LOAD : Z := 1.
Definition ELF_PROG_FLAG_EXEC : Z := 1.
Definition ELF_PROG_FLAG_WRITE : Z := 2.
Definition ELF_PROG_FLAG_READ : Z := 4.
Definition ELFHDR_SIZE : Z := 64.
Definition PROGHDR_SIZE : Z := 56.

(** The fields exec uses of struct elfhdr and struct proghdr. *)
Record elfhdr : Type := mkElf { elf_magic : Z; elf_entry : Z; elf_phoff : Z; elf_phnum : Z }.
Definition elf_of_bytes (d : list Z) : elfhdr :=
  mkElf (get_le 4 0 d) (get_le 8 24 d) (get_le 8 32 d) (get_le 2 56 d).
Record proghdr : Type := mkPh { ph_type : Z; ph_flags : Z; ph_off : Z; ph_vaddr : Z; ph_filesz : Z; ph_memsz : Z }.
Definition ph_of_bytes (d : list Z) : proghdr :=
  mkPh (get_le 4 0 d) (get_le 4 4 d) (get_le 8 8 d) (get_le 8 16 d) (get_le 8 32 d) (get_le 8 40 d).

Definition flags2perm (flags : Z) : Z :=
  Z.lor (Z.lor (if Z.land flags ELF_PROG_FLAG_EXEC =? 0 then 0 else PTE_X)
               (if Z.land flags ELF_PROG_FLAG_WRITE =? 0 then 0 else PTE_W))
        (if Z.land flags ELF_PROG_FLAG_READ =? 0 then 0 else PTE_R).

Section Exec.
Context `{Linker}.

(** ** exec.c *)

(** The loop that reads a segment, from offset [va] on; false for goto bad. *)
Fixpoint load_loop (fuel : nat) (ip : nat) (pagetable : Z) (ph : proghdr) (va : Z) : K bool :=
  if ph_filesz ph <=? va then ret true
  else match fuel with
  | O => fault "exec: fuel"
  | S fuel' =>
      let n := u32 (if ph_filesz ph - va <? PGSIZE then ph_filesz ph - va else PGSIZE) in
      let! pa := walkaddr pagetable (u64 (ph_vaddr ph + va)) in
      if pa =? 0 then ret false
      else
        let! r := readi ip (ToMem pa) (u32 (ph_off ph + va)) n in
        if negb (u32 (fst r) =? n) then ret false
        else load_loop fuel' ip pagetable ph (u64 (va + PGSIZE))
  end.

Definition segment_ok (ph : proghdr) : bool :=
  negb ((ph_memsz ph <? ph_filesz ph) || (u64 (ph_vaddr ph + ph_memsz ph) <? ph_vaddr ph) ||
        negb (ph_vaddr ph mod PGSIZE =? 0)).

(** The loop over the program headers: the size reached, and false for goto bad. *)
Fixpoint exec_segments (n : nat) (ip : nat) (pagetable off sz : Z) : K (Z * bool) :=
  match n with
  | O => ret (sz, true)
  | S n' =>
      let! r := readi ip ToLocal (u32 off) PROGHDR_SIZE in
      if negb (fst r =? PROGHDR_SIZE) then ret (sz, false)
      else
        let ph := ph_of_bytes (snd r) in
        if negb (ph_type ph =? ELF_PROG_LOAD) then exec_segments n' ip pagetable (off + PROGHDR_SIZE) sz
        else if negb (segment_ok ph) then ret (sz, false)
        else
          let! sz := uvmalloc pagetable sz (u64 (ph_vaddr ph + ph_memsz ph)) (flags2perm (ph_flags ph)) in
          if sz =? 0 then ret (sz, false)
          else
            let! ok := load_loop (Z.to_nat (ph_filesz ph / PGSIZE + 1)) ip pagetable ph 0 in
            if negb ok then ret (sz, false)
            else exec_segments n' ip pagetable (off + PROGHDR_SIZE) sz
  end.

(** bad_nolog *)
Definition exec_drop (pagetable sz : Z) : K Z :=
  do! when (negb (pagetable =? 0))
        (do! uvmunmap pagetable TRAPFRAME 1 false;
         do! uvmunmap pagetable TRAMPOLINE 1 false;
         uvmfree pagetable sz);
  ret (-1).

(** bad *)
Definition exec_bad (ip : nat) (pagetable sz : Z) : K Z :=
  do! iunlockput ip;
  do! end_op;
  exec_drop pagetable sz.

(** A string in a kernel page. *)
Definition kstr (a : Z) : K (list Z) := gets (fun s => cstr (ld_bytes (k_mem s) a PGBYTES)).

(** The loop that pushes the argument strings; [None] for goto bad_nolog, otherwise
    the stack pointer and the addresses pushed. *)
Fixpoint push_args (argv : list Z) (pagetable stackbase sp : Z) (ustack : list Z) : K (option (Z * list Z)) :=
  match argv with
  | [] => ret (Some (sp, ustack))
  | a :: argv' =>
      if (MAXARG <=? length ustack)%nat then ret None
      else
        let! str := kstr a in
        let sp := u64 (sp - (Z.of_nat (length str) + 1)) in
        let sp := sp - sp mod 16 in
        if sp <? stackbase then ret None
        else
          let! r := copyout pagetable sp (str ++ [0]) in
          if r <? 0 then ret None
          else push_args argv' pagetable stackbase sp (ustack ++ [sp])
  end.

(** The last element of the path. *)
Fixpoint basename (path last : list Z) : list Z :=
  match path with
  | [] => last
  | c :: path' => if c =? 0 then last
                  else if c =? SLASH then basename path' path' else basename path' last
  end.

(** The new image replaces the old one. *)
Definition exec_commit (p : nat) (path : list Z) (pagetable sz sp : Z) (entry : Z) : K unit :=
  do! upd_proc p (set_name (basename path path));
  let! pr := get_proc p in
  do! when (negb (p_pagetable pr =? 0))
        (do! uvmunmap (p_pagetable pr) TRAPFRAME 1 false;
         do! uvmunmap (p_pagetable pr) TRAMPOLINE 1 false;
         uvmfree (p_pagetable pr) (p_sz pr));
  do! upd_proc p (set_p_pagetable (fun _ => pagetable));
  do! upd_proc p (set_p_sz (fun _ => sz));
  do! tf_set (p_trapframe pr) TF_epc entry;
  do! tf_set (p_trapframe pr) TF_sp sp;
  tf_set (p_trapframe pr) TF_a1 sp.

(** The stack and the arguments, after the segments are loaded. *)
Definition exec_stack (p : nat) (path : list Z) (argv : list Z) (pagetable sz : Z) (entry : Z) : K Z :=
  let sz := PGROUNDUP sz in
  let! sz := uvmalloc pagetable sz (u64 (sz + 2 * PGSIZE)) (Z.lor PTE_R PTE_W) in
  if sz =? 0 then exec_drop pagetable sz
  else
    do! uvmunmap pagetable (u64 (sz - 2 * PGSIZE)) 1 true;
    let sp := sz in
    let stackbase := u64 (sp - PGSIZE) in
    let! r := push_args argv pagetable stackbase sp [] in
    match r with
    | None => exec_drop pagetable sz
    | Some (sp, ustack) =>
        let argc := Z.of_nat (length ustack) in
        let sp := u64 (sp - (argc + 1) * 8) in
        let sp := sp - sp mod 16 in
        if sp <? stackbase then exec_drop pagetable sz
        else
          let! r := copyout pagetable sp (mjoin (le_bytes 8 <$> (ustack ++ [0]))) in
          if r <? 0 then exec_drop pagetable sz
          else
            do! exec_commit p path pagetable sz sp entry;
            ret argc
    end.

(** [argv]: the nonnull pointers of the array, which a null pointer ends. *)
Definition exec (path : list Z) (argv : list Z) : K Z :=
  let! me := myproc in
  do! begin_op;
  let! oip := namei path in
  match oip with
  | None => do! end_op; ret (-1)
  | Some ip =>
      do! ilock (Some ip);
      let! r := readi ip ToLocal 0 ELFHDR_SIZE in
      let elf := elf_of_bytes (snd r) in
      if negb (fst r =? ELFHDR_SIZE) || negb (elf_magic elf =? ELF_MAGIC) then exec_bad ip 0 0
      else
        let! pagetable := uvmcreate in
        if pagetable =? 0 then exec_bad ip 0 0
        else
          do! uvmmap pagetable TRAMPOLINE trampoline PGSIZE PTE_RX;
          let! p := proc_ptr me in
          let! pr := get_proc p in
          do! uvmmap pagetable TRAPFRAME (p_trapframe pr) PGSIZE PTE_RWU;
          let! r := exec_segments (Z.to_nat (elf_phnum elf)) ip pagetable (i32 (elf_phoff elf)) 0 in
          let '(sz, ok) := r in
          if negb ok then exec_bad ip pagetable sz
          else
            do! iunlockput ip;
            do! end_op;
            exec_stack p path argv pagetable sz (elf_entry elf)
  end.

(** ** sysproc.c *)
Definition sys_getpid : K Z := let! p := mine in ret (p_pid p).

Definition sys_sbrk : K Z :=
  let! n := argint 0 in
  match n with
  | None => ret (-1)
  | Some _ => let! p := mine in ret (p_sz p)
  end.

(** [mtime]: what a load from the timer register yields, nothing when it faults. *)
Definition sys_uptime (mtime : option Z) : K Z :=
  match mtime with
  | Some t => ret t
  | None => fault "load from CLINT_MTIME"
  end.

Definition sys_exit : K Z :=
  let! status := argint 0 in
  match status with
  | None => ret (-1)
  | Some status => do! exit status; fault "exit returned"
  end.

Definition sys_fork : K Z := fork.

Definition sys_wait : K Z :=
  let! addr := argaddr 0 in
  match addr with None => ret (-1) | Some addr => wait addr end.

Definition sys_kill : K Z :=
  let! pid := argint 0 in
  match pid with None => ret (-1) | Some pid => kill pid end.

(** The loop of sys_exec from argument [i]: the result, and the pages allocated. *)
Fixpoint exec_args (n : nat) (path : list Z) (uargv : Z) (i : Z) (argv : list Z) : K (Z * list Z) :=
  match n with
  | O => ret (-1, argv)
  | S n' =>
      let! a := fetchaddr (u64 (uargv + 8 * i)) in
      match a with
      | None => ret (-1, argv)
      | Some uarg =>
          if uarg =? 0 then
            let! r := exec path argv in
            ret (r, argv)
          else
            let! pg := kalloc in
            if pg =? 0 then ret (-1, argv)
            else
              let! r := fetchstr uarg PGSIZE in
              do! modify (set_k_mem (fun m => st_bytes m pg (snd r)));
              if fst r <? 0 then ret (-1, argv ++ [pg])
              else exec_args n' path uargv (i + 1) (argv ++ [pg])
      end
  end.

Definition sys_exec : K Z :=
  let! path := argpath 0 in
  match path with
  | None => ret (-1)
  | Some path =>
      let! uargv := argaddr 1 in
      match uargv with
      | None => ret (-1)
      | Some uargv =>
          let! r := exec_args MAXARG path uargv 0 [] in
          do! each (snd r) kfree;
          ret (fst r)
      end
  end.
End Exec.
