(* ===== verification/Trap.v ===== *)
(** * System call dispatch, traps and the boot sequence

    kernel/syscall.c (the table), kernel/trap.c, and kernel/main.c.  Two inputs come
    from outside the kernel state: [pad], the padding bytes of the struct stat that
    sys_fstat copies out, and [mtime], what a load from the machine timer yields. *)

From S2P Require Import Prelude Params Machine Spinlock Sched CString Kalloc Vm Pipe Bio Log Fs File Proc Args Console Virtio Sysfile Exec.

(** ** syscall.h *)
Definition SYS_MAX : Z := 21.

(** The system calls, by their entry of the table. *)
Inductive syscall_no : Type :=
| SYS_fork | SYS_exit | SYS_wait | SYS_pipe | SYS_read | SYS_kill | SYS_exec
| SYS_fstat | SYS_chdir | SYS_dup | SYS_getpid | SYS_sbrk | SYS_uptime
| SYS_open | SYS_write | SYS_mknod | SYS_unlink | SYS_link | SYS_mkdir | SYS_close.

(** The initialised entries of syscalls[]; number 13 (SYS_sleep) is null. *)
Definition syscalls (num : Z) : option syscall_no :=
  match num with
  | 1 => Some SYS_fork | 2 => Some SYS_exit | 3 => Some SYS_wait | 4 => Some SYS_pipe
  | 5 => Some SYS_read | 6 => Some SYS_kill | 7 => Some SYS_exec | 8 => Some SYS_fstat
  | 9 => Some SYS_chdir | 10 => Some SYS_dup | 11 => Some SYS_getpid | 12 => Some SYS_sbrk
  | 14 => Some SYS_uptime | 15 => Some SYS_open | 16 => Some SYS_write | 17 => Some SYS_mknod
  | 18 => Some SYS_unlink | 19 => Some SYS_link | 20 => Some SYS_mkdir | 21 => Some SYS_close
  | _ => None
  end.

Definition SCAUSE_SEXTERNAL : Z := Z.lor (Z.shiftl 1 63) 9.
Definition SCAUSE_USER_ECALL : Z := 8.

Section Trap.
Context `{Linker} (pad : list Z) (mtime : option Z).

Definition call_handler (c : syscall_no) : K Z :=
  match c with
  | SYS_fork => sys_fork | SYS_exit => sys_exit | SYS_wait => sys_wait | SYS_pipe => sys_pipe
  | SYS_read => sys_read | SYS_kill => sys_kill | SYS_exec => sys_exec | SYS_fstat => sys_fstat pad
  | SYS_chdir => sys_chdir | SYS_dup => sys_dup | SYS_getpid => sys_getpid | SYS_sbrk => sys_sbrk
  | SYS_uptime => sys_uptime mtime | SYS_open => sys_open | SYS_write => sys_write
  | SYS_mknod => sys_mknod | SYS_unlink => sys_unlink | SYS_link => sys_link
  | SYS_mkdir => sys_mkdir | SYS_close => sys_close
  end.

Definition newline : list Z := [10].

Definition syscall : K unit :=
  let! p := curproc in
  let! pr := get_proc p in
  let tf := p_trapframe pr in
  let! num := (if tf =? 0 then ret 999 else let! x := tf_get tf TF_a7 in ret (i32 x)) in
  let handler := if (0 <? num) && (num <=? SYS_MAX) then syscalls num else None in
  match handler with
  | Some c =>
      let! r := call_handler c in
      let! pr := get_proc p in
      tf_set (p_trapframe pr) TF_a0 r
  | None =>
      do! when (negb (tf =? 0)) (tf_set tf TF_a0 (-1));
      printf (bytes_of_string "syscall %d: not implemented" ++ newline) [AInt num]
  end.

(** ** trap.c *)
Definition trapinit : K unit := modify (set_k_csr (set_csr_stvec (fun _ => addr_kernelvec))).

Definition devintr : K Z :=
  let! c := gets k_csr in
  if csr_scause c =? SCAUSE_SEXTERNAL then
    let! irq := plic_claim in
    if irq =? 0 then ret 0
    else
      do! (if irq =? UART0_IRQ then uartintr
           else if irq =? VIRTIO0_IRQ then virtio_disk_intr
           else printf (bytes_of_string "devintr: unknown external IRQ %d (stval=%lx)" ++ newline)
                  [AInt irq; APtr (csr_stval c)]);
      do! plic_complete irq;
      ret 1
  else ret 0.

Definition kerneltrap : K unit :=
  let! h := gets k_hart in
  let! c := gets k_csr in
  if Z.land (h_sstatus h) SSTATUS_SPP =? 0 then panic "kerneltrap: not supervisor"
  else if Z.testbit (csr_scause c) 63 then
    let irq := Z.land (csr_scause c) 0xff in
    let! which_dev :=
      (if irq =? 9 then devintr
       else
         do! printf (bytes_of_string "kerneltrap: interrupt scause=%lx sepc=%lx stval=%lx" ++ newline)
               [APtr (csr_scause c); APtr (csr_sepc c); APtr (csr_stval c)];
         ret 0) in
    when ((which_dev =? 0) && (irq =? 9))
      (printf (bytes_of_string "kerneltrap: unhandled external interrupt scause=%lx sepc=%lx" ++ newline)
         [APtr (csr_scause c); APtr (csr_sepc c)])
  else
    do! printf (bytes_of_string "kerneltrap: exception scause=%lx sepc=%lx stval=%lx" ++ newline)
          [APtr (csr_scause c); APtr (csr_sepc c); APtr (csr_stval c)];
    panic "unexpected supervisor exception".

(** The jump to userret: its address and its two arguments. *)
Record user_entry : Type := mkUserEntry { ue_target : Z; ue_a0 : Z; ue_a1 : Z }.

Definition usertrapret : K user_entry :=
  let! p := curproc in
  let! pr := get_proc p in
  let tf := p_trapframe pr in
  let! h := gets k_hart in
  let! c := gets k_csr in
  do! tf_set tf TF_kernel_satp (csr_satp c);
  do! tf_set tf TF_kernel_sp (p_kstack pr + PGSIZE);
  do! tf_set tf TF_kernel_trap addr_usertrap;
  do! tf_set tf TF_kernel_hartid (csr_tp c);
  do! modify (set_k_hart (set_h_sstatus (fun _ =>
        Z.lor (Z.land (h_sstatus h) (Z.lnot SSTATUS_SPP)) SSTATUS_SPIE)));
  let! epc := tf_get tf TF_epc in
  do! modify (set_k_csr (set_csr_sepc (fun _ => epc)));
  do! modify (set_k_csr (set_csr_sscratch (fun _ => TRAPFRAME)));
  do! modify (set_k_csr (set_csr_stvec (fun _ => TRAMPOLINE + (addr_uservec - trampoline))));
  ret (mkUserEntry (TRAMPOLINE + (addr_userret - trampoline)) TRAPFRAME (p_pagetable pr)).

Definition usertrap : K user_entry :=
  let! p := curproc in
  let! pr := get_proc p in
  let! c := gets k_csr in
  let! h := gets k_hart in
  let tf := p_trapframe pr in
  if negb (Z.land (h_sstatus h) SSTATUS_SPP =? 0) then panic "usertrap: not from user mode"
  else
    do! modify (set_k_csr (set_csr_stvec (fun _ => addr_kernelvec)));
    if csr_scause c =? SCAUSE_USER_ECALL then
      do! tf_set tf TF_epc (csr_sepc c);
      do! modify (set_k_csr (set_csr_sepc (fun _ => u64 (csr_sepc c + 4))));
      do! syscall;
      usertrapret
    else
      do! printf (bytes_of_string "usertrap: exception scause=%lx sepc=%lx stval=%lx pid=%d" ++ newline)
            [APtr (csr_scause c); APtr (csr_sepc c); APtr (csr_stval c); AInt (p_pid pr)];
      panic "unexpected user exception".

(** forkret (kernel/proc.c): the first dispatch of a process. *)
Definition forkret : K user_entry :=
  let! p := curproc in
  do! release (LkProc p);
  usertrapret.

(** ** main.c, up to the scheduler; [pages] is the address of disk.pages *)
Definition main (pages : Z) : K unit :=
  do! kinit;
  do! kvminit;
  do! kvminithart;
  do! publish_boot_banner;
  do! trapinit;
  do! plicinit;
  do! plicinithart;
  do! uartinit;
  do! consoleinit;
  do! virtio_disk_init pages;
  do! binit;
  do! fsinit 1;
  do! fileinit;
  do! procinit;
  do! userinit;
  intr_on.
End Trap.
