(* ===== verification/Asm.v ===== *)
(** * The assembly routines

    kernel/trampoline.S (uservec and userret), kernel/kernelvec.S and kernel/swtch.S as
    lists of the instructions they consist of, and the effect of those instructions on
    the registers and the memory.  The trampoline touches memory only while the user
    page table is in force: [a_mem] is memory as that table maps it; for kernelvec and
    swtch it is kernel memory. *)

From S2P Require Import Prelude Params CString.

(** ** Instructions *)
Inductive csr : Type := sscratch | satp.

Inductive instr : Type :=
| Sd (rs : nat) (off : Z) (base : nat)
| Ld (rd : nat) (off : Z) (base : nat)
| Addi (rd rs : nat) (imm : Z)
| Mv (rd rs : nat)
| Csrrw (rd : nat) (c : csr) (rs : nat)
| Csrw (c : csr) (rs : nat)
| Csrr (rd : nat) (c : csr)
| Sfence
| Jr (rs : nat)
| Sret.

(** The machine: registers by number, memory, and the two control registers. *)
Record amach : Type := mkA { a_reg : nat -> Z; a_mem : gmap Z Z; a_sscratch : Z; a_satp : Z }.

Definition set_reg (rd : nat) (v : Z) (r : nat -> Z) : nat -> Z :=
  fun x => if (x =? 0)%nat then 0 else if (x =? rd)%nat then v else r x.

Definition csr_get (c : csr) (a : amach) : Z := match c with sscratch => a_sscratch a | satp => a_satp a end.
Definition csr_set (c : csr) (v : Z) (a : amach) : amach :=
  match c with
  | sscratch => mkA (a_reg a) (a_mem a) v (a_satp a)
  | satp => mkA (a_reg a) (a_mem a) (a_sscratch a) v
  end.
Definition reg_set (rd : nat) (v : Z) (a : amach) : amach :=
  mkA (set_reg rd v (a_reg a)) (a_mem a) (a_sscratch a) (a_satp a).

(** One instruction; jumps and sret leave the routine and change nothing here. *)
Definition exec1 (i : instr) (a : amach) : amach :=
  match i with
  | Sd rs off base => mkA (a_reg a) (st64 (a_mem a) (u64 (a_reg a base + off)) (a_reg a rs)) (a_sscratch a) (a_satp a)
  | Ld rd off base => reg_set rd (ld64 (a_mem a) (u64 (a_reg a base + off))) a
  | Addi rd rs imm => reg_set rd (u64 (a_reg a rs + imm)) a
  | Mv rd rs => reg_set rd (a_reg a rs) a
  | Csrrw rd c rs => csr_set c (a_reg a rs) (reg_set rd (csr_get c a) a)
  | Csrw c rs => csr_set c (a_reg a rs) a
  | Csrr rd c => reg_set rd (csr_get c a) a
  | Sfence | Jr _ | Sret => a
  end.

Definition run (p : list instr) (a : amach) : amach := fold_left (fun a i => exec1 i a) p a.

(** ** Register numbers *)
Definition ra : nat := 1.
Definition sp : nat := 2.
Definition gp : nat := 3.
Definition tp : nat := 4.
Definition t0 : nat := 5.
Definition t1 : nat := 6.
Definition t2 : nat := 7.
Definition s0 : nat := 8.
Definition s1 : nat := 9.
Definition a0 : nat := 10.
Definition a1 : nat := 11.
Definition a2 : nat := 12.
Definition a3 : nat := 13.
Definition a4 : nat := 14.
Definition a5 : nat := 15.
Definition a6 : nat := 16.
Definition a7 : nat := 17.
Definition s2 : nat := 18.
Definition s3 : nat := 19.
Definition s4 : nat := 20.
Definition s5 : nat := 21.
Definition s6 : nat := 22.
Definition s7 : nat := 23.
Definition s8 : nat := 24.
Definition s9 : nat := 25.
Definition s10 : nat := 26.
Definition s11 : nat := 27.
Definition t3 : nat := 28.
Definition t4 : nat := 29.
Definition t5 : nat := 30.
Definition t6 : nat := 31.

(** ** trampoline.S *)
Definition uservec : list instr :=
  [Csrrw a0 sscratch a0; Sd ra 40 a0; Sd sp 48 a0; Sd gp 56 a0; Sd tp 64 a0;
   Sd t0 72 a0; Sd t1 80 a0; Sd t2 88 a0; Sd s0 96 a0; Sd s1 104 a0;
   Sd a1 120 a0; Sd a2 128 a0; Sd a3 136 a0; Sd a4 144 a0; Sd a5 152 a0;
   Sd a6 160 a0; Sd a7 168 a0; Sd s2 176 a0; Sd s3 184 a0; Sd s4 192 a0;
   Sd s5 200 a0; Sd s6 208 a0; Sd s7 216 a0; Sd s8 224 a0; Sd s9 232 a0;
   Sd s10 240 a0; Sd s11 248 a0; Sd t3 256 a0; Sd t4 264 a0; Sd t5 272 a0;
   Sd t6 280 a0; Csrr t0 sscratch; Sd t0 112 a0; Ld t0 8 a0; Ld t1 0 a0;
   Ld t2 16 a0; Csrw satp t1; Sfence; Mv sp t0; Jr t2].

Definition userret : list instr :=
  [Csrw satp a1; Sfence; Csrw sscratch a0; Ld t0 112 a0; Ld ra 40 a0;
   Ld sp 48 a0; Ld gp 56 a0; Ld tp 64 a0; Ld t1 80 a0; Ld t2 88 a0;
   Ld s0 96 a0; Ld s1 104 a0; Ld a1 120 a0; Ld a2 128 a0; Ld a3 136 a0;
   Ld a4 144 a0; Ld a5 152 a0; Ld a6 160 a0; Ld a7 168 a0; Ld s2 176 a0;
   Ld s3 184 a0; Ld s4 192 a0; Ld s5 200 a0; Ld s6 208 a0; Ld s7 216 a0;
   Ld s8 224 a0; Ld s9 232 a0; Ld s10 240 a0; Ld s11 248 a0; Ld t3 256 a0;
   Ld t4 264 a0; Ld t5 272 a0; Ld t6 280 a0; Mv a0 t0; Sret].

(** ** kernelvec.S: up to the call of kerneltrap, and after it *)
Definition kernelvec_save : list instr :=
  [Addi sp sp (-256); Sd ra 0 sp; Sd sp 8 sp; Sd gp 16 sp; Sd tp 24 sp;
   Sd t0 32 sp; Sd t1 40 sp; Sd t2 48 sp; Sd s0 56 sp; Sd s1 64 sp;
   Sd a0 72 sp; Sd a1 80 sp; Sd a2 88 sp; Sd a3 96 sp; Sd a4 104 sp;
   Sd a5 112 sp; Sd a6 120 sp; Sd a7 128 sp; Sd s2 136 sp; Sd s3 144 sp;
   Sd s4 152 sp; Sd s5 160 sp; Sd s6 168 sp; Sd s7 176 sp; Sd s8 184 sp;
   Sd s9 192 sp; Sd s10 200 sp; Sd s11 208 sp; Sd t3 216 sp; Sd t4 224 sp;
   Sd t5 232 sp; Sd t6 240 sp; Mv a0 sp].

Definition kernelvec_restore : list instr :=
  [Ld ra 0 sp; Ld sp 8 sp; Ld gp 16 sp; Ld tp 24 sp; Ld t0 32 sp;
   Ld t1 40 sp; Ld t2 48 sp; Ld s0 56 sp; Ld s1 64 sp; Ld a0 72 sp;
   Ld a1 80 sp; Ld a2 88 sp; Ld a3 96 sp; Ld a4 104 sp; Ld a5 112 sp;
   Ld a6 120 sp; Ld a7 128 sp; Ld s2 136 sp; Ld s3 144 sp; Ld s4 152 sp;
   Ld s5 160 sp; Ld s6 168 sp; Ld s7 176 sp; Ld s8 184 sp; Ld s9 192 sp;
   Ld s10 200 sp; Ld s11 208 sp; Ld t3 216 sp; Ld t4 224 sp; Ld t5 232 sp;
   Ld t6 240 sp; Addi sp sp (256); Sret].

(** ** swtch.S *)
Definition swtch : list instr :=
  [Sd ra 0 a0; Sd sp 8 a0; Sd s0 16 a0; Sd s1 24 a0; Sd s2 32 a0;
   Sd s3 40 a0; Sd s4 48 a0; Sd s5 56 a0; Sd s6 64 a0; Sd s7 72 a0;
   Sd s8 80 a0; Sd s9 88 a0; Sd s10 96 a0; Sd s11 104 a0; Ld ra 0 a1;
   Ld sp 8 a1; Ld s0 16 a1; Ld s1 24 a1; Ld s2 32 a1; Ld s3 40 a1;
   Ld s4 48 a1; Ld s5 56 a1; Ld s6 64 a1; Ld s7 72 a1; Ld s8 80 a1;
   Ld s9 88 a1; Ld s10 96 a1; Ld s11 104 a1; Jr ra].
