(* ===== verification/AsmSpec.v ===== *)
(** * The assembly routines save and restore what they should

    Blocks of stores and of loads off one base register are described once ([run_sds],
    [run_lds]); the three routines are then instances. *)

From S2P Require Import Prelude Params CString Asm.

(** ** Blocks of stores and loads *)
Definition sds (base : nat) (l : list (nat * Z)) : list instr := (fun p => Sd p.1 p.2 base) <$> l.
Definition lds (base : nat) (l : list (nat * Z)) : list instr := (fun p => Ld p.1 p.2 base) <$> l.

Definition saves (r : nat -> Z) (b : Z) (l : list (nat * Z)) (m : gmap Z Z) : gmap Z Z :=
  fold_left (fun m p => st64 m (b + p.2) (r p.1)) l m.

(** The slots of [l] lie in [0, n) and do not overlap. *)
Definition slots_ok (n : Z) (l : list (nat * Z)) : Prop :=
  Forall (fun p => 0 <= p.2 /\ p.2 + 8 <= n) l /\
  forall i j p q, l !! i = Some p -> l !! j = Some q -> i ≠ j -> p.2 + 8 <= q.2 \/ q.2 + 8 <= p.2.

Lemma run_app p q a : run (p ++ q) a = run q (run p a).
Proof. unfold run. apply fold_left_app. Qed.

Lemma run_sds base l a n :
  slots_ok n l -> 0 <= a_reg a base -> a_reg a base + n <= 2 ^ 64 ->
  run (sds base l) a = mkA (a_reg a) (saves (a_reg a) (a_reg a base) l (a_mem a)) (a_sscratch a) (a_satp a).
Proof.
  intros [Hf _]. revert a. induction Hf as [|[r o] l [H1 H2] Hf IH]; intros a Hb Hn.
  - by destruct a.
  - cbn [sds fmap list_fmap]. change (run (?i :: ?p) a) with (run p (exec1 i a)). cbn [exec1].
    unfold sds in IH. rewrite IH by done. cbn in *. unfold saves. cbn [fold_left fst snd].
    unfold u64. by rewrite Z.mod_small by lia.
Qed.

Lemma saves_other r b l m x :
  (forall p, p ∈ l -> x + 8 <= b + p.2 \/ b + p.2 + 8 <= x) -> ld64 (saves r b l m) x = ld64 m x.
Proof.
  revert m. induction l as [|p l IH]; intros m H; [done|]. unfold saves. cbn [fold_left].
  fold (saves r b l (st64 m (b + p.2) (r p.1))). rewrite IH by (intros q Hq; apply H; by right).
  apply ld64_st64_ne. specialize (H p ltac:(left)). lia.
Qed.

Lemma saves_slot r b l m n i p :
  slots_ok n l -> l !! i = Some p -> ld64 (saves r b l m) (b + p.2) = u64 (r p.1).
Proof.
  intros [_ Hd] Hi. apply list_elem_of_split_length in Hi as (l1 & l2 & -> & ->).
  unfold saves. rewrite fold_left_app. cbn [fold_left].
  fold (saves r b l1 m). fold (saves r b l2 (st64 (saves r b l1 m) (b + p.2) (r p.1))).
  rewrite saves_other; [apply ld64_st64|]. intros q Hq.
  apply list_elem_of_lookup in Hq as [j Hj].
  pose proof (Hd (length l1) (length l1 + S j)%nat p q) as H.
  rewrite list_lookup_middle in H by done.
  rewrite lookup_app_r in H by lia. replace (length l1 + S j - length l1)%nat with (S j) in H by lia.
  specialize (H eq_refl Hj ltac:(lia)). lia.
Qed.

(** What a block of loads leaves. *)
Record loaded (base : nat) (l : list (nat * Z)) (a a' : amach) : Prop := mkLoaded {
  lo_mem : a_mem a' = a_mem a;
  lo_sscratch : a_sscratch a' = a_sscratch a;
  lo_satp : a_satp a' = a_satp a;
  lo_other : forall r, r ≠ 0%nat -> r ∉ l.*1 -> a_reg a' r = a_reg a r;
  lo_reg : forall r o, (r, o) ∈ l -> r ≠ 0%nat -> a_reg a' r = ld64 (a_mem a) (u64 (a_reg a base + o)) }.

Lemma run_lds base l a :
  base ≠ 0%nat -> base ∉ l.*1 -> NoDup l.*1 -> loaded base l a (run (lds base l) a).
Proof.
  intros H0. revert a. induction l as [|[r o] l IH]; intros a Hb Hnd.
  - split; try done. intros r o Hin. by apply elem_of_nil in Hin.
  - cbn [lds fmap list_fmap fst snd] in *. change (run (?i :: ?p) a) with (run p (exec1 i a)). cbn [exec1].
    apply not_elem_of_cons in Hb as [Hbr Hb]. apply NoDup_cons in Hnd as [Hr Hnd].
    destruct (IH (reg_set r (ld64 (a_mem a) (u64 (a_reg a base + o))) a) Hb Hnd) as [A1 A2 A3 A4 A5].
    unfold lds in *. split; try done.
    + intros x Hx [Hxr Hxl]%not_elem_of_cons. rewrite A4 by done. cbn. unfold set_reg.
      destruct (Nat.eqb_spec x 0); [done|]. by destruct (Nat.eqb_spec x r).
    + intros x ox [[= -> ->]|Hin]%elem_of_cons Hx.
      * rewrite A4 by done. cbn. unfold set_reg.
        destruct (Nat.eqb_spec r 0); [done|]. by rewrite Nat.eqb_refl.
      * rewrite (A5 x ox Hin Hx). cbn. do 2 f_equal. unfold set_reg.
        destruct (Nat.eqb_spec base 0); [done|]. by destruct (Nat.eqb_spec base r).
Qed.

(** Decide the conditions on a concrete list of slots. *)
Definition slots_okb (n : Z) (l : list (nat * Z)) : bool :=
  forallb (fun p => (0 <=? p.2) && (p.2 + 8 <=? n)) l &&
  forallb (fun i => forallb (fun j => (i =? j)%nat ||
    match l !! i, l !! j with
    | Some p, Some q => (p.2 + 8 <=? q.2) || (q.2 + 8 <=? p.2)
    | _, _ => true
    end) (seq 0 (length l))) (seq 0 (length l)).

Lemma slots_okb_spec n l : slots_okb n l = true -> slots_ok n l.
Proof.
  unfold slots_okb. rewrite andb_true_iff, !forallb_forall. intros [H1 H2]. split.
  - apply Forall_forall. intros p Hp. apply list_elem_of_In, H1 in Hp.
    apply andb_true_iff in Hp as [A B]. apply Z.leb_le in A, B. lia.
  - intros i j p q Hi Hj Hne. pose proof (lookup_lt_Some _ _ _ Hi). pose proof (lookup_lt_Some _ _ _ Hj).
    specialize (H2 i ltac:(apply in_seq; lia)). rewrite forallb_forall in H2.
    specialize (H2 j ltac:(apply in_seq; lia)). rewrite Hi, Hj in H2.
    apply orb_true_iff in H2 as [H2|H2]; [by apply Nat.eqb_eq in H2|].
    apply orb_true_iff in H2 as [H2|H2]; apply Z.leb_le in H2; lia.
Qed.

(** ** The trampoline *)

(** The slots uservec stores to besides that of a0, and those userret loads. *)
Definition user_slots : list (nat * Z) :=
  [(ra, 40); (sp, 48); (gp, 56); (tp, 64); (t0, 72); (t1, 80); (t2, 88); (s0, 96); (s1, 104);
   (a1, 120); (a2, 128); (a3, 136); (a4, 144); (a5, 152); (a6, 160); (a7, 168); (s2, 176); (s3, 184);
   (s4, 192); (s5, 200); (s6, 208); (s7, 216); (s8, 224); (s9, 232); (s10, 240); (s11, 248);
   (t3, 256); (t4, 264); (t5, 272); (t6, 280)].
Definition return_slots : list (nat * Z) := filter (fun p => p.1 ≠ t0) user_slots.

Definition regs_ok (r : nat -> Z) : Prop := forall x, 0 <= r x < 2 ^ 64.

Lemma uservec_split :
  uservec = [Csrrw a0 sscratch a0] ++ sds a0 user_slots ++
            [Csrr t0 sscratch; Sd t0 112 a0; Ld t0 8 a0; Ld t1 0 a0; Ld t2 16 a0;
             Csrw satp t1; Sfence; Mv sp t0; Jr t2].
Proof. reflexivity. Qed.

Lemma userret_split :
  userret = [Csrw satp a1; Sfence; Csrw sscratch a0; Ld t0 112 a0] ++ lds a0 return_slots ++ [Mv a0 t0; Sret].
Proof. reflexivity. Qed.

Lemma user_slots_ok : slots_ok 288 user_slots.
Proof. apply slots_okb_spec. vm_compute. reflexivity. Qed.

(** uservec leaves the user's registers in the trap frame. *)
Lemma uservec_saves u tf :
  a_sscratch u = tf -> 0 <= tf -> tf + 288 <= 2 ^ 64 -> regs_ok (a_reg u) ->
  let m := a_mem (run uservec u) in
  ld64 m (tf + 112) = a_reg u a0 /\
  forall r o, (r, o) ∈ user_slots -> ld64 m (tf + o) = a_reg u r.
Proof.
  intros Htf H0 Hn Hr m. set (u1 := exec1 (Csrrw a0 sscratch a0) u).
  assert (Ha0 : a_reg u1 a0 = tf) by (cbn; exact Htf).
  assert (Hss : a_sscratch u1 = a_reg u a0) by reflexivity.
  assert (Hmu : a_mem u1 = a_mem u) by reflexivity.
  assert (Hru : forall r, r ≠ 0%nat -> r ≠ a0 -> a_reg u1 r = a_reg u r).
  { intros r Hz Hne. cbn. unfold set_reg. destruct (Nat.eqb_spec r 0); [done|]. by destruct (Nat.eqb_spec r a0). }
  assert (Hm : m = st64 (saves (a_reg u1) tf user_slots (a_mem u)) (tf + 112) (a_reg u a0)).
  { unfold m. rewrite uservec_split, run_app, run_app.
    change (run [Csrrw a0 sscratch a0] u) with u1. clearbody u1.
    rewrite (run_sds _ _ _ 288 user_slots_ok) by (rewrite Ha0; lia). rewrite Ha0.
    cbn -[saves st64 ld64]. rewrite Ha0, Hss, Hmu. unfold u64. by rewrite (Z.mod_small (tf + 112)) by lia. }
  clearbody u1. rewrite Hm. split.
  - rewrite ld64_st64. unfold u64. apply Z.mod_small, Hr.
  - intros r o Hin. pose proof Hin as [i Hi]%list_elem_of_lookup.
    assert (Hsep : (o + 8 <= 112 \/ 120 <= o) /\ r ≠ a0 /\ r ≠ 0%nat).
    { assert (HF : Forall (fun p => (p.2 + 8 <= 112 \/ 120 <= p.2) /\ p.1 ≠ a0 /\ p.1 ≠ 0%nat) user_slots).
      { apply (bool_decide_unpack _). vm_compute. exact I. }
      rewrite Forall_forall in HF. apply (HF (r, o) Hin). }
    destruct Hsep as (Hsep & Hne & Hnz). rewrite ld64_st64_ne by lia.
    change o with ((r, o).2). rewrite (saves_slot _ _ _ _ 288 i (r, o) user_slots_ok Hi). cbn [fst].
    rewrite Hru by done. unfold u64. apply Z.mod_small, Hr.
Qed.

Lemma run_jump r x : run [Jr r] x = x.
Proof. reflexivity. Qed.

Lemma userret_head k :
  run [Csrw satp a1; Sfence; Csrw sscratch a0; Ld t0 112 a0] k =
  mkA (set_reg t0 (ld64 (a_mem k) (u64 (a_reg k a0 + 112))) (a_reg k)) (a_mem k) (a_reg k a0) (a_reg k a1).
Proof. reflexivity. Qed.

Lemma kernelvec_head a : run [Addi sp sp (-256)] a = exec1 (Addi sp sp (-256)) a.
Proof. reflexivity. Qed.
Lemma kernelvec_mid x : a_mem (run [Mv a0 sp] x) = a_mem x.
Proof. reflexivity. Qed.
Lemma kernelvec_back k :
  run [Ld ra 0 sp; Ld sp 8 sp] k =
  reg_set sp (ld64 (a_mem k) (u64 (a_reg k sp + 8))) (reg_set ra (ld64 (a_mem k) (u64 (a_reg k sp + 0))) k).
Proof. reflexivity. Qed.
Lemma kernelvec_tail x : run [Addi sp sp 256; Sret] x = exec1 (Addi sp sp 256) x.
Proof. reflexivity. Qed.

Lemma userret_tail x : run [Mv a0 t0; Sret] x = reg_set a0 (a_reg x t0) x.
Proof. reflexivity. Qed.

#[local] Opaque run.

(** userret loads the registers of [return_slots], and a0 into a0 and t0. *)
Lemma userret_effect k tf :
  a_reg k a0 = tf -> 0 <= tf -> tf + 288 <= 2 ^ 64 ->
  exists k2, run userret k = reg_set a0 (a_reg k2 t0) k2 /\
    a_reg k2 t0 = ld64 (a_mem k) (tf + 112) /\ a_sscratch k2 = tf /\ a_satp k2 = a_reg k a1 /\
    forall r o, (r, o) ∈ return_slots -> r ≠ 0%nat -> a_reg k2 r = ld64 (a_mem k) (u64 (tf + o)).
Proof.
  intros Hk H0 Hn. rewrite userret_split, !run_app, userret_tail.
  pose proof (userret_head k) as E. set (k1 := run [_; _; _; _] k) in *. clearbody k1.
  destruct (run_lds a0 return_slots k1) as [L1 L2 L3 L4 L5]; [done| | |].
  1,2: apply (bool_decide_unpack _); vm_compute; exact I.
  set (k2 := run (lds a0 return_slots) k1) in *. clearbody k2.
  exists k2. split; [done|]. split_and!.
  - rewrite L4; [|done|apply (bool_decide_unpack _); vm_compute; exact I].
    rewrite E. cbn [a_reg]. rewrite Hk. unfold u64. by rewrite Z.mod_small by lia.
  - rewrite L2, E. exact Hk.
  - by rewrite L3, E.
  - intros r o Hin Hr. rewrite (L5 r o Hin Hr), E. cbn [a_mem a_reg]. change (set_reg t0 _ _ a0) with (a_reg k a0).
    by rewrite Hk.
Qed.

(** Every register but t0 and a0 has a slot of its own, which userret loads. *)
Lemma return_slot r : (1 <= r <= 31)%nat -> r ≠ t0 -> r ≠ a0 ->
  exists o, (r, o) ∈ return_slots /\ (r, o) ∈ user_slots /\ 40 <= o /\ o + 8 <= 288 /\ (o + 8 <= 112 \/ 120 <= o).
Proof.
  intros Hr Ht Ha.
  assert (HF : Forall (fun r => r = t0 \/ r = a0 \/
    Exists (fun p => p.1 = r /\ p ∈ user_slots /\ 40 <= p.2 /\ p.2 + 8 <= 288 /\ (p.2 + 8 <= 112 \/ 120 <= p.2))
      return_slots) (seq 1 31)).
  { apply (bool_decide_unpack _). vm_compute. exact I. }
  rewrite Forall_forall in HF.
  destruct (HF r ltac:(apply elem_of_seq; lia)) as [|[|E]]; [done|done|].
  apply Exists_exists in E as ([r' o] & Hin & <- & Hin' & Ho). by exists o.
Qed.

(** C36. A trap from user mode preserves the user's registers, all but one.  Whatever
    the kernel does in between, if the register slots of the trap frame are as uservec
    left them when userret is entered with the trap frame in a0, then every general
    register has the value it had in user mode, except t0: userret never reloads it,
    and it holds the user's a0.  sscratch is again the trap frame and satp the second
    argument of userret. *)
Theorem trap_roundtrip u k tf :
  a_sscratch u = tf -> 0 <= tf -> tf + 288 <= 2 ^ 64 -> regs_ok (a_reg u) ->
  a_reg k a0 = tf ->
  (forall off, 40 <= off -> off + 8 <= 288 ->
     ld64 (a_mem k) (tf + off) = ld64 (a_mem (run uservec u)) (tf + off)) ->
  let u' := run userret k in
  (forall r, (1 <= r <= 31)%nat -> r ≠ t0 -> a_reg u' r = a_reg u r) /\
  a_reg u' t0 = a_reg u a0 /\ a_sscratch u' = tf /\ a_satp u' = a_reg k a1.
Proof.
  intros Htf H0 Hn Hr Hk Hmem u'.
  destruct (uservec_saves u tf Htf H0 Hn Hr) as [Sa0 Ss].
  destruct (userret_effect k tf Hk H0 Hn) as (k2 & Hu & K1 & K2 & K3 & K4).
  rewrite Hmem, Sa0 in K1 by lia. unfold u'. rewrite Hu. clear u' Hu.
  split_and!; [|exact K1|exact K2|exact K3].
  intros r Hr1 Hne. cbn [reg_set a_reg]. unfold set_reg. destruct (Nat.eqb_spec r 0); [lia|].
  destruct (Nat.eqb_spec r a0) as [->|Hna]; [exact K1|].
  destruct (return_slot r Hr1 Hne Hna) as (o & Hin & Hin' & Ho1 & Ho2 & _).
  rewrite (K4 r o Hin ltac:(lia)). unfold u64. rewrite Z.mod_small by lia.
  rewrite Hmem by lia. by apply Ss.
Qed.

(** ** swtch *)

(** struct context, in the order of its fields. *)
Definition context_slots : list (nat * Z) :=
  [(ra, 0); (sp, 8); (s0, 16); (s1, 24); (s2, 32); (s3, 40); (s4, 48); (s5, 56); (s6, 64); (s7, 72);
   (s8, 80); (s9, 88); (s10, 96); (s11, 104)].

Lemma context_slots_ok : slots_ok 112 context_slots.
Proof. apply slots_okb_spec. vm_compute. reflexivity. Qed.

(** swtch(old, new) exchanges contexts: the struct at [old] holds the callee-saved
    registers of the caller, the callee-saved registers hold what the struct at [new]
    held, and neither the other registers nor any other memory word changes. *)
Theorem swtch_exchanges a old new :
  a_reg a a0 = old -> a_reg a a1 = new -> regs_ok (a_reg a) ->
  old + 112 <= 2 ^ 64 -> new + 112 <= 2 ^ 64 -> (old + 112 <= new \/ new + 112 <= old) ->
  let a' := run swtch a in
  (forall r o, (r, o) ∈ context_slots ->
     ld64 (a_mem a') (old + o) = a_reg a r /\ a_reg a' r = ld64 (a_mem a) (new + o)) /\
  (forall r, r ≠ 0%nat -> r ∉ context_slots.*1 -> a_reg a' r = a_reg a r) /\
  (forall x, x + 8 <= old \/ old + 112 <= x -> ld64 (a_mem a') x = ld64 (a_mem a) x).
Proof.
  intros Ha0 Ha1 Hr Ho Hn Hd a'.
  assert (H0 : 0 <= old < 2 ^ 64 /\ 0 <= new < 2 ^ 64) by (rewrite <- Ha0, <- Ha1; split; apply Hr).
  set (a2 := mkA (a_reg a) (saves (a_reg a) old context_slots (a_mem a)) (a_sscratch a) (a_satp a)).
  assert (Ha' : a' = run (lds a1 context_slots) a2).
  { unfold a'. change swtch with (sds a0 context_slots ++ lds a1 context_slots ++ [Jr ra]).
    rewrite !run_app, (run_sds _ _ _ 112 context_slots_ok) by (rewrite Ha0; lia). rewrite Ha0. apply run_jump. }
  assert (L : loaded a1 context_slots a2 a').
  { rewrite Ha'. apply run_lds; [done| |]; apply (bool_decide_unpack _); vm_compute; exact I. }
  destruct L as [L1 _ _ L4 L5]. clearbody a'. clear Ha'.
  assert (HF : Forall (fun p => p.1 ≠ 0%nat /\ 0 <= p.2 /\ p.2 + 8 <= 112) context_slots).
  { apply (bool_decide_unpack _). vm_compute. exact I. }
  rewrite Forall_forall in HF. split_and!.
  - intros r o Hin. destruct (HF (r, o) Hin) as (Hz & Ho1 & Ho2). cbn [fst snd] in *. split.
    + rewrite L1. cbn [a_mem a2]. pose proof Hin as [i Hi]%list_elem_of_lookup.
      change o with ((r, o).2). rewrite (saves_slot _ _ _ _ 112 i (r, o) context_slots_ok Hi). cbn [fst].
      unfold u64. apply Z.mod_small, Hr.
    + rewrite (L5 r o Hin Hz). cbn [a_mem a_reg a2]. rewrite Ha1. unfold u64. rewrite Z.mod_small by lia.
      apply saves_other. intros p Hp. destruct (HF p Hp) as (_ & Hp1 & Hp2). lia.
  - intros r Hz Hnot. by rewrite L4.
  - intros x Hx. rewrite L1. apply saves_other. intros p Hp. destruct (HF p Hp) as (_ & Hp1 & Hp2). lia.
Qed.

(** ** kernelvec *)
Definition kernel_slots : list (nat * Z) :=
  [(ra, 0); (sp, 8); (gp, 16); (tp, 24); (t0, 32); (t1, 40); (t2, 48); (s0, 56); (s1, 64); (a0, 72);
   (a1, 80); (a2, 88); (a3, 96); (a4, 104); (a5, 112); (a6, 120); (a7, 128); (s2, 136); (s3, 144);
   (s4, 152); (s5, 160); (s6, 168); (s7, 176); (s8, 184); (s9, 192); (s10, 200); (s11, 208);
   (t3, 216); (t4, 224); (t5, 232); (t6, 240)].
Definition kernel_tail : list (nat * Z) := drop 2 kernel_slots.

Lemma kernel_slots_ok : slots_ok 256 kernel_slots.
Proof. apply slots_okb_spec. vm_compute. reflexivity. Qed.

Lemma kernelvec_saves a :
  regs_ok (a_reg a) -> 256 <= a_reg a sp ->
  let b := a_reg a sp - 256 in let m := a_mem (run kernelvec_save a) in
  ld64 m (b + 8) = b /\ forall r o, (r, o) ∈ kernel_slots -> r ≠ sp -> ld64 m (b + o) = a_reg a r.
Proof.
  intros Hr Hs b m. set (x := exec1 (Addi sp sp (-256)) a).
  assert (Hsp : a_reg x sp = b).
  { cbn. unfold u64. pose proof (Hr sp). rewrite Z.mod_small by (unfold sp in *; lia). unfold b, sp. lia. }
  assert (Hrx : forall r, r ≠ 0%nat -> r ≠ sp -> a_reg x r = a_reg a r).
  { intros r Hz Hne. cbn. unfold set_reg. destruct (Nat.eqb_spec r 0); [done|]. by destruct (Nat.eqb_spec r sp). }
  assert (Hb : 0 <= b < 2 ^ 64 - 256) by (pose proof (Hr sp); unfold b; lia).
  assert (Hm : m = saves (a_reg x) b kernel_slots (a_mem x)).
  { unfold m. change kernelvec_save with ([Addi sp sp (-256)] ++ sds sp kernel_slots ++ [Mv a0 sp]).
    rewrite !run_app, kernelvec_mid, kernelvec_head. change (exec1 (Addi sp sp (-256)) a) with x. clearbody x.
    rewrite (run_sds _ _ _ 256 kernel_slots_ok) by (rewrite Hsp; lia). by rewrite Hsp. }
  rewrite Hm. clearbody x. split.
  - rewrite (saves_slot _ _ _ _ 256 1 (sp, 8) kernel_slots_ok eq_refl). cbn [fst]. rewrite Hsp.
    unfold u64. apply Z.mod_small. lia.
  - intros r o Hin Hne. pose proof Hin as [i Hi]%list_elem_of_lookup.
    assert (HF : Forall (fun p => p.1 ≠ 0%nat) kernel_slots).
    { apply (bool_decide_unpack _). vm_compute. exact I. }
    rewrite Forall_forall in HF. change o with ((r, o).2).
    rewrite (saves_slot _ _ _ _ 256 i (r, o) kernel_slots_ok Hi). cbn [fst].
    rewrite Hrx by (try done; apply (HF (r, o) Hin)). unfold u64. apply Z.mod_small, Hr.
Qed.

(** An interrupted kernel computation resumes with all its registers.  Whatever
    kerneltrap does to the registers it may change, if it returns with the stack
    pointer it was given and the frame untouched, kernelvec restores every general
    register to its value at the interrupt, the stack pointer included. *)
Theorem kernelvec_transparent a k :
  regs_ok (a_reg a) -> 256 <= a_reg a sp -> a_reg k sp = a_reg a sp - 256 ->
  (forall off, 0 <= off -> off + 8 <= 256 ->
     ld64 (a_mem k) (a_reg k sp + off) = ld64 (a_mem (run kernelvec_save a)) (a_reg k sp + off)) ->
  forall r, (1 <= r <= 31)%nat -> a_reg (run kernelvec_restore k) r = a_reg a r.
Proof.
  intros Hr Hs Hk Hmem r Hr1. destruct (kernelvec_saves a Hr Hs) as [Ssp Ss].
  set (b := a_reg a sp - 256) in *.
  assert (Hb : 0 <= b < 2 ^ 64 - 256) by (pose proof (Hr sp); unfold b; lia).
  set (k1 := run [Ld ra 0 sp; Ld sp 8 sp] k).
  assert (K1 : a_reg k1 sp = b /\ a_reg k1 ra = a_reg a ra /\ a_mem k1 = a_mem k).
  { unfold k1. rewrite kernelvec_back. unfold u64. rewrite !Z.mod_small by lia. rewrite !Hmem, Hk by lia.
    cbn [reg_set a_reg a_mem]. split_and!; [exact Ssp| |done].
    apply (Ss ra 0); [|done]. apply (bool_decide_unpack _). vm_compute. exact I. }
  destruct K1 as (K1 & K2 & K3).
  assert (L : loaded sp kernel_tail k1 (run (lds sp kernel_tail) k1)).
  { apply run_lds; [done| |]; apply (bool_decide_unpack _); vm_compute; exact I. }
  assert (Hrun : run kernelvec_restore k = exec1 (Addi sp sp 256) (run (lds sp kernel_tail) k1)).
  { change kernelvec_restore with ([Ld ra 0 sp; Ld sp 8 sp] ++ lds sp kernel_tail ++ [Addi sp sp 256; Sret]).
    by rewrite !run_app, kernelvec_tail. }
  rewrite Hrun. destruct L as [L1 _ _ L4 L5]. set (k2 := run (lds sp kernel_tail) k1) in *. clearbody k2 k1.
  assert (Hout : forall x, x ≠ 0%nat -> x ∉ kernel_tail.*1 -> a_reg k2 x = a_reg k1 x) by (intros; by apply L4).
  assert (Hsp2 : a_reg k2 sp = b).
  { rewrite Hout; [done|done|]. apply (bool_decide_unpack _). vm_compute. exact I. }
  cbn [exec1 reg_set a_reg]. unfold set_reg. destruct (Nat.eqb_spec r 0); [lia|].
  destruct (Nat.eqb_spec r sp) as [->|Hne].
  { rewrite Hsp2. unfold u64. rewrite Z.mod_small by lia. unfold b. lia. }
  destruct (decide (r = ra)) as [->|Hra].
  { rewrite Hout; [done|done|]. apply (bool_decide_unpack _). vm_compute. exact I. }
  assert (HF : Forall (fun r => r = sp \/ r = ra \/
    Exists (fun p => p.1 = r /\ p ∈ kernel_slots /\ 0 <= p.2 /\ p.2 + 8 <= 256) kernel_tail) (seq 1 31)).
  { apply (bool_decide_unpack _). vm_compute. exact I. }
  rewrite Forall_forall in HF.
  destruct (HF r ltac:(apply elem_of_seq; lia)) as [|[|E]]; [done|done|].
  apply Exists_exists in E as ([r' o] & Hin & <- & Hin' & Ho1 & Ho2). cbn [fst snd] in *.
  rewrite (L5 r' o Hin ltac:(lia)), K1, K3. unfold u64. rewrite Z.mod_small by lia.
  rewrite <- Hk, Hmem, Hk by lia. by apply Ss.
Qed.

(** ** A concrete machine: register [x] holds 1000 + x, but for those given *)
Definition test_regs (l : list (nat * Z)) : nat -> Z :=
  fun x => fold_right (fun p d => if (x =? p.1)%nat then p.2 else d) (u64 (1000 + Z.of_nat x)) l.

Lemma test_regs_ok l : Forall (fun p => 0 <= p.2 < 2 ^ 64) l -> regs_ok (test_regs l).
Proof.
  intros Hl x. induction Hl as [|p l Hp _ IH]; cbn; [apply Z.mod_pos_bound; lia|].
  by destruct (x =? p.1)%nat.
Qed.

Definition test_user : amach := mkA (test_regs []) ∅ TRAPFRAME 0.
Definition test_saved : gmap Z Z := a_mem (run uservec test_user).
Definition test_kernel : amach := mkA (test_regs [(a0, TRAPFRAME); (a1, 0x87fff000)]) test_saved 0 0.

Lemma test_kernel_mem : a_mem test_kernel = test_saved.
Proof. exact (eq_refl test_saved). Qed.
Lemma test_saved_eq : test_saved = a_mem (run uservec test_user).
Proof. exact (eq_refl test_saved). Qed.

Lemma trap_roundtrip_witness :
  (forall r, (1 <= r <= 31)%nat -> r ≠ t0 -> a_reg (run userret test_kernel) r = a_reg test_user r) /\
  a_reg (run userret test_kernel) t0 = a_reg test_user a0 /\
  a_sscratch (run userret test_kernel) = TRAPFRAME /\ a_satp (run userret test_kernel) = 0x87fff000.
Proof.
  apply (trap_roundtrip test_user test_kernel TRAPFRAME).
  - reflexivity.
  - vm_compute. discriminate.
  - vm_compute. discriminate.
  - apply test_regs_ok. constructor.
  - reflexivity.
  - intros off _ _. by rewrite test_kernel_mem, test_saved_eq.
Defined.

Definition test_switch : amach := mkA (test_regs [(a0, 0x1000); (a1, 0x2000)]) {[ 0x2008 := 77 ]} 0 0.

Lemma swtch_exchanges_witness :
  (forall r o, (r, o) ∈ context_slots ->
     ld64 (a_mem (run swtch test_switch)) (0x1000 + o) = a_reg test_switch r /\
     a_reg (run swtch test_switch) r = ld64 (a_mem test_switch) (0x2000 + o)) /\
  (forall r, r ≠ 0%nat -> r ∉ context_slots.*1 -> a_reg (run swtch test_switch) r = a_reg test_switch r) /\
  (forall x, x + 8 <= 0x1000 \/ 0x1000 + 112 <= x ->
     ld64 (a_mem (run swtch test_switch)) x = ld64 (a_mem test_switch) x).
Proof.
  apply (swtch_exchanges test_switch 0x1000 0x2000).
  - reflexivity.
  - reflexivity.
  - apply test_regs_ok. apply (bool_decide_unpack _). vm_compute. exact I.
  - vm_compute. discriminate.
  - vm_compute. discriminate.
  - left. vm_compute. discriminate.
Defined.

Definition test_interrupted : amach := mkA (test_regs [(sp, 0x10000)]) ∅ 0 0.
Definition test_frame : gmap Z Z := a_mem (run kernelvec_save test_interrupted).
Definition test_handled : amach := mkA (test_regs [(sp, 0x10000 - 256); (a0, 5)]) test_frame 0 0.

Lemma test_handled_mem : a_mem test_handled = test_frame.
Proof. exact (eq_refl test_frame). Qed.
Lemma test_frame_eq : test_frame = a_mem (run kernelvec_save test_interrupted).
Proof. exact (eq_refl test_frame). Qed.

Lemma kernelvec_transparent_witness :
  a_reg (run kernelvec_restore test_handled) ra = a_reg test_interrupted ra /\
  a_reg (run kernelvec_restore test_handled) a0 = a_reg test_interrupted a0.
Proof.
  assert (H : forall r, (1 <= r <= 31)%nat -> a_reg (run kernelvec_restore test_handled) r = a_reg test_interrupted r).
  { apply (kernelvec_transparent test_interrupted test_handled).
    - apply test_regs_ok. apply (bool_decide_unpack _). vm_compute. exact I.
    - vm_compute. discriminate.
    - reflexivity.
    - intros off _ _. by rewrite test_handled_mem, test_frame_eq. }
  split; apply H; unfold ra, a0; lia.
Defined.
