(* ===== verification/TrapSpec.v ===== *)
(** * A system call from user mode to user mode

    Composes the trampoline (Asm.v), the trap handlers and the dispatch (Trap.v): what a
    program sees of a system call, and which of its registers the kernel takes for the
    arguments. *)

From S2P Require Import Prelude Params Machine Spinlock Sched CString Kalloc Vm Pipe Bio Log Fs File Proc Args Console Virtio Sysfile Exec Trap Asm AsmSpec.

Section TrapSpec.
Context {LK : Linker} (pad : list Z) (mtime : option Z).

(** The page at physical address [tf] is what the user page table maps at TRAPFRAME. *)
Definition frame_view (m : gmap Z Z) (tf : Z) (v : gmap Z Z) : Prop :=
  forall o, 0 <= o < 288 -> ldb v (TRAPFRAME + o) = ldb m (tf + o).

Lemma frame_view_ld64 m tf v o : frame_view m tf v -> 0 <= o -> o + 8 <= 288 -> ld64 v (TRAPFRAME + o) = ld64 m (tf + o).
Proof.
  intros Hv H0 H8. apply ld64_ext. intros i Hi.
  rewrite <- !Z.add_assoc. apply Hv. lia.
Qed.

Definition current (s : kstate) (p : nat) (pr : proc) : Prop := k_cur s = Some p /\ k_procs s !! p = Some pr.

Lemma bind_curproc {A} (k : nat -> K A) s p pr : current s p pr -> bind curproc k s = k p s.
Proof. intros [Hc _]. unfold bind, curproc. by rewrite Hc. Qed.
Lemma bind_get_proc {A} (k : proc -> K A) s p pr : current s p pr -> bind (get_proc p) k s = k pr s.
Proof. intros [_ Hp]. unfold bind, get_proc. by rewrite Hp. Qed.

(** ** usertrapret *)
Definition handoff (m : gmap Z Z) (tf satp ksp hartid : Z) : gmap Z Z :=
  st64 (st64 (st64 (st64 m (tf + TF_kernel_satp) satp) (tf + TF_kernel_sp) ksp) (tf + TF_kernel_trap) addr_usertrap)
    (tf + TF_kernel_hartid) hartid.

Lemma handoff_other m tf a b c o : 40 <= o \/ o = TF_epc -> ld64 (handoff m tf a b c) (tf + o) = ld64 m (tf + o).
Proof.
  unfold handoff, TF_epc, TF_kernel_satp, TF_kernel_sp, TF_kernel_trap, TF_kernel_hartid.
  intros Ho. by rewrite !ld64_st64_ne by lia.
Qed.

Lemma usertrapret_run s p pr : current s p pr -> let tf := p_trapframe pr in
  exists s', usertrapret s = Ret (mkUserEntry (TRAMPOLINE + (addr_userret - trampoline)) TRAPFRAME (p_pagetable pr)) s' /\
    csr_sepc (k_csr s') = ld64 (k_mem s) (tf + TF_epc) /\
    csr_stvec (k_csr s') = TRAMPOLINE + (addr_uservec - trampoline) /\
    h_sstatus (k_hart s') = Z.lor (Z.land (h_sstatus (k_hart s)) (Z.lnot SSTATUS_SPP)) SSTATUS_SPIE /\
    forall o, 40 <= o -> ld64 (k_mem s') (tf + o) = ld64 (k_mem s) (tf + o).
Proof.
  intros Hs tf. unfold usertrapret. rewrite (bind_curproc _ _ _ _ Hs), (bind_get_proc _ _ _ _ Hs). fold tf.
  unfold tf_set, tf_get. rewrite !bind_gets, !bind_modify, !bind_gets, !bind_modify.
  eexists. split; [reflexivity|]. cbn. fold (handoff (k_mem s) tf (csr_satp (k_csr s)) (p_kstack pr + PGSIZE) (csr_tp (k_csr s))).
  split_and!; try done; intros; apply handoff_other; auto.
Qed.

(** ** usertrap *)

(** The state in which the handler of a system call starts. *)
Definition entered (s : kstate) (tf : Z) : kstate :=
  set_k_csr (set_csr_sepc (fun _ => u64 (csr_sepc (k_csr s) + 4)))
    (set_k_mem (fun m => st64 m (tf + TF_epc) (csr_sepc (k_csr s)))
       (set_k_csr (set_csr_stvec (fun _ => addr_kernelvec)) s)).

(** What the trap code needs of a handler that returned: the same process is running, and the handler
    changed neither the frame nor where the process record says it and the page table are. *)
Definition keeps_frame (p : nat) (pr : proc) (s s' : kstate) : Prop :=
  exists pr', current s' p pr' /\ p_trapframe pr' = p_trapframe pr /\ p_pagetable pr' = p_pagetable pr /\
    forall o, 0 <= o < 288 -> ldb (k_mem s') (p_trapframe pr + o) = ldb (k_mem s) (p_trapframe pr + o).

Lemma keeps_frame_ld64 p pr s s' o : keeps_frame p pr s s' -> 0 <= o -> o + 8 <= 288 ->
  ld64 (k_mem s') (p_trapframe pr + o) = ld64 (k_mem s) (p_trapframe pr + o).
Proof. intros (pr' & _ & _ & _ & Hm) H0 H8. apply ld64_ext. intros i Hi. rewrite <- !Z.add_assoc. apply Hm. lia. Qed.

Lemma syscalls_range num c : syscalls num = Some c -> 0 < num <= SYS_MAX.
Proof.
  unfold SYS_MAX. intros E. assert (num <= 0 \/ 22 <= num -> False); [|lia].
  destruct num as [|n|n]; [done| |done]. intros H. assert (Hn : (22 <= n)%positive) by lia. clear H.
  do 5 (destruct n as [n|n|]; try (cbn in E; done || lia)).
Qed.

Lemma syscall_run s p pr c r s1 : current s p pr -> p_trapframe pr ≠ 0 ->
  syscalls (ld64 (k_mem s) (p_trapframe pr + TF_a7)) = Some c ->
  call_handler pad mtime c s = Ret r s1 -> keeps_frame p pr s s1 ->
  syscall pad mtime s = Ret tt (set_k_mem (fun m => st64 m (p_trapframe pr + TF_a0) r) s1).
Proof.
  intros Hs Htf Hc Hh (pr' & Hs1 & Etf & _). pose proof (syscalls_range _ _ Hc) as Hr. unfold SYS_MAX in Hr.
  unfold syscall. rewrite (bind_curproc _ _ _ _ Hs), (bind_get_proc _ _ _ _ Hs). cbn zeta.
  rewrite (proj2 (Z.eqb_neq _ _) Htf).
  set (num := ld64 _ _) in *. assert (Hi : i32 num = num) by (apply i32_small; lia).
  assert (E : (let! x := tf_get (p_trapframe pr) TF_a7 in ret (i32 x)) s = Ret num s).
  { unfold tf_get. rewrite bind_gets. fold num. by rewrite Hi. }
  run_ret E. rewrite (proj2 (Z.ltb_lt 0 num)), (proj2 (Z.leb_le num SYS_MAX)) by (unfold SYS_MAX; lia).
  cbn [andb]. rewrite Hc. run_ret Hh. rewrite (bind_get_proc _ _ _ _ Hs1), Etf. reflexivity.
Qed.

Lemma usertrap_run s p pr c r s1 : let tf := p_trapframe pr in
  current s p pr -> tf ≠ 0 -> Z.land (h_sstatus (k_hart s)) SSTATUS_SPP = 0 ->
  csr_scause (k_csr s) = SCAUSE_USER_ECALL ->
  syscalls (ld64 (k_mem s) (tf + TF_a7)) = Some c ->
  call_handler pad mtime c (entered s tf) = Ret r s1 -> keeps_frame p pr (entered s tf) s1 ->
  exists s', usertrap pad mtime s = Ret (mkUserEntry (TRAMPOLINE + (addr_userret - trampoline)) TRAPFRAME (p_pagetable pr)) s' /\
    csr_sepc (k_csr s') = u64 (csr_sepc (k_csr s)) /\
    csr_stvec (k_csr s') = TRAMPOLINE + (addr_uservec - trampoline) /\
    ld64 (k_mem s') (tf + TF_a0) = u64 r /\
    forall o, 40 <= o -> o + 8 <= 288 -> o + 8 <= TF_a0 \/ TF_a0 + 8 <= o -> ld64 (k_mem s') (tf + o) = ld64 (k_mem s) (tf + o).
Proof.
  intros tf Hs Htf Hspp Hsc Hc Hh Hk.
  assert (He : current (entered s tf) p pr) by exact Hs.
  assert (Hc' : syscalls (ld64 (k_mem (entered s tf)) (p_trapframe pr + TF_a7)) = Some c).
  { cbn. rewrite ld64_st64_ne; [exact Hc|]. unfold TF_epc, TF_a7, tf. lia. }
  pose proof (syscall_run _ _ _ _ _ _ He Htf Hc' Hh Hk) as Hsys.
  set (s2 := set_k_mem (fun m => st64 m (p_trapframe pr + TF_a0) r) s1) in *.
  assert (Hs2 : exists pr', current s2 p pr' /\ p_trapframe pr' = tf /\ p_pagetable pr' = p_pagetable pr).
  { destruct Hk as (pr' & Hcur & Et & Ep & _). exists pr'. split; [exact Hcur|]. by split. }
  destruct Hs2 as (pr' & Hcur & Et & Ep).
  destruct (usertrapret_run s2 p pr' Hcur) as (s' & Hret & Hepc & Hvec & _ & Hmem). rewrite Et, Ep in *.
  exists s'. split; [|split_and!].
  - unfold usertrap. rewrite (bind_curproc _ _ _ _ Hs), (bind_get_proc _ _ _ _ Hs), !bind_gets. cbv beta zeta. fold tf.
    destruct (Z.eqb_spec (Z.land (h_sstatus (k_hart s)) SSTATUS_SPP) 0) as [_|]; [|done]. cbn [negb]. rewrite bind_modify.
    destruct (Z.eqb_spec (csr_scause (k_csr s)) SCAUSE_USER_ECALL) as [_|]; [|done].
    unfold tf_set. rewrite !bind_modify. change (bind (syscall pad mtime) (fun _ => usertrapret) (entered s tf) = Ret (mkUserEntry (TRAMPOLINE + (addr_userret - trampoline)) TRAPFRAME (p_pagetable pr)) s').
    run_ret Hsys. exact Hret.
  - rewrite Hepc. unfold s2. cbn [k_mem set_k_mem]. rewrite ld64_st64_ne by (unfold TF_a0, TF_epc, tf; lia).
    unfold tf. rewrite (keeps_frame_ld64 _ _ _ _ TF_epc Hk) by (unfold TF_epc; lia). cbn. apply ld64_st64.
  - exact Hvec.
  - rewrite Hmem by (unfold TF_a0; lia). unfold s2. cbn. apply ld64_st64.
  - intros o H0 H8 Hne. rewrite Hmem by lia. unfold s2. cbn [k_mem set_k_mem].
    rewrite ld64_st64_ne by (unfold tf; lia). unfold tf. rewrite (keeps_frame_ld64 _ _ _ _ o Hk) by lia.
    cbn. apply ld64_st64_ne. unfold TF_epc. lia.
Qed.


(** The register whose slot holds argument [n]. *)
Definition arg_reg (n : Z) : nat :=
  if n =? 0 then s0 else if n =? 1 then s1 else if n =? 2 then a0 else if n =? 3 then a1 else if n =? 4 then a2 else a3.

(** C35.  The registers the kernel takes for the arguments of a system call: argument 0 is what the program
    had in s0, argument 1 in s1, and argument n from 2 to 5 in a(n-2), two registers off the convention that
    argument n is in a(n).  Other numbers are refused. *)
Theorem syscall_arguments u s p pr n :
  a_sscratch u = TRAPFRAME -> regs_ok (a_reg u) -> current s p pr ->
  frame_view (k_mem s) (p_trapframe pr) (a_mem (run uservec u)) ->
  argaddr n s = Ret (if decide (0 <= n < 6) then Some (a_reg u (arg_reg n)) else None) s /\
  argint n s = Ret (if decide (0 <= n < 6) then Some (i32 (a_reg u (arg_reg n))) else None) s.
Proof.
  intros Hss Hr Hs Hv. assert (E : fetchargint n s = Ret (if decide (0 <= n < 6) then Some (a_reg u (arg_reg n)) else None) s).
  { assert (Em : mine s = Ret pr s).
    { unfold mine. rewrite (bind_curproc _ _ _ _ Hs). unfold get_proc. by rewrite (proj2 Hs). }
    unfold fetchargint. run_ret Em. destruct (decide (0 <= n < 6)) as [Hn|Hn].
    - rewrite (proj2 (Z.ltb_ge n 0)), (proj2 (Z.leb_gt 6 n)) by lia. cbn [orb]. unfold tf_get. rewrite bind_gets.
      rewrite <- (frame_view_ld64 _ _ _ _ Hv) by lia.
      destruct (uservec_saves u TRAPFRAME Hss ltac:(by vm_compute) ltac:(by vm_compute) Hr) as [S0 Ss].
      assert (Hcase : n = 0 \/ n = 1 \/ n = 2 \/ n = 3 \/ n = 4 \/ n = 5) by lia.
      unfold ret. do 2 f_equal. destruct Hcase as [->|[->|[->|[->|[->| ->]]]]]; first [exact S0|apply Ss];
        apply (bool_decide_unpack _); vm_compute; exact I.
    - replace ((n <? 0) || (6 <=? n)) with true by (symmetry; apply orb_true_iff; rewrite Z.ltb_lt, Z.leb_le; lia). done. }
  split; [exact E|]. unfold argint. run_ret E. by destruct (decide (0 <= n < 6)).
Qed.
End TrapSpec.

(** ** A program that calls getpid *)
Lemma frame_view_copy m tf v : frame_view (st_bytes m tf (ld_bytes v TRAPFRAME 288)) tf v.
Proof.
  intros o Ho. unfold ld_bytes. rewrite ldb_st_bytes, length_fmap, length_seq, bool_decide_true by lia.
  rewrite list_lookup_fmap, lookup_seq_lt by lia. cbn. do 2 f_equal. lia.
Qed.

#[local] Instance trap_linker : Linker := {|
  kend := 0x80020000; etext := 0x80008000; trampoline := 0x80007000;
  addr_forkret := 0x80001000; addr_usertrap := 0x80001100; addr_kernelvec := 0x80001200;
  addr_uservec := 0x80007000; addr_userret := 0x80007100;
|}.

Definition ex_user : amach := mkA (test_regs [(a7, 11); (s0, 5); (a0, 3)]) ∅ TRAPFRAME 0.
Definition ex_saved : gmap Z Z := a_mem (run uservec ex_user).
Definition ex_tf : Z := 0x87ffe000.
Definition ex_proc : proc :=
  set_p_pagetable (fun _ => 0x87fff000) (set_p_trapframe (fun _ => ex_tf) (set_p_pid (fun _ => 7) (set_p_state (fun _ => RUNNING) zero_proc))).
Definition ex_trapped : kstate :=
  set_k_mem (fun _ => st_bytes ∅ ex_tf (ld_bytes ex_saved TRAPFRAME 288))
    (set_k_csr (fun c => set_csr_sepc (fun _ => 0x1000) (set_csr_scause (fun _ => SCAUSE_USER_ECALL) c))
       (set_k_procs (fun _ => [ex_proc]) (set_k_cur (fun _ => Some 0%nat) boot_state))).

Lemma ex_user_ok : regs_ok (a_reg ex_user).
Proof. apply test_regs_ok. repeat constructor; cbn; lia. Qed.
Lemma ex_view : frame_view (k_mem ex_trapped) ex_tf (a_mem (run uservec ex_user)).
Proof. apply frame_view_copy. Qed.


Lemma syscall_arguments_witness :
  argaddr 0 ex_trapped = Ret (Some 5) ex_trapped /\ argint 2 ex_trapped = Ret (Some 3) ex_trapped.
Proof.
  assert (Hc : current ex_trapped 0 ex_proc) by (split; reflexivity).
  split.
  - apply (syscall_arguments ex_user ex_trapped 0 ex_proc 0); [reflexivity|exact ex_user_ok|exact Hc|exact ex_view].
  - apply (syscall_arguments ex_user ex_trapped 0 ex_proc 2); [reflexivity|exact ex_user_ok|exact Hc|exact ex_view].
Defined.
