(* ===== verification/Mkfs.v ===== *)
(** * The image builder (mkfs/mkfs.c)

    The host program that lays out the root file system.  Its state is the image, the
    array of inodes and the bitmap block; [fatal] is a panic.  Its result is the image
    by block; writing it to the file is left out. *)

From S2P Require Import Prelude Params Machine Spinlock Sched CString Kalloc Vm Bio Log Fs.

Definition NLOG : Z := 30.
Definition NINODES : nat := 200.
Definition NBMAPBLOCKS : Z := 1.

(** ** Geometry *)
Definition mk_logstart : Z := 2.
Definition mk_inodestart : Z := mk_logstart + NLOG.
Definition mk_ninodeblocks : Z := (Z.of_nat NINODES + IPB - 1) / IPB.
Definition mk_bmapstart : Z := mk_inodestart + mk_ninodeblocks.
Definition mk_nmeta : Z := 2 + NLOG + mk_ninodeblocks + NBMAPBLOCKS.
Definition mk_nblocks : Z := FSSIZE - mk_nmeta.

(** g_img, g_inodes and g_bbuf. *)
Record mkfs_st : Type := mkMk {
  mk_img : gmap Z (list Z);
  mk_inodes : list dinode;
  mk_bbuf : list Z;
}.
Definition set_mk_img (f : gmap Z (list Z) -> gmap Z (list Z)) (s : mkfs_st) : mkfs_st :=
  mkMk (f (mk_img s)) (mk_inodes s) (mk_bbuf s).
Definition set_mk_inodes (f : list dinode -> list dinode) (s : mkfs_st) : mkfs_st :=
  mkMk (mk_img s) (f (mk_inodes s)) (mk_bbuf s).
Definition set_mk_bbuf (f : list Z -> list Z) (s : mkfs_st) : mkfs_st :=
  mkMk (mk_img s) (mk_inodes s) (f (mk_bbuf s)).

Definition zero_dinode : dinode := mkDinode 0 0 0 0 0 (replicate (S NDIRECT) 0).
Definition mkfs_start : mkfs_st := mkMk ∅ (replicate NINODES zero_dinode) (replicate BSIZE 0).

Abbreviation MK := (M mkfs_st).

(** The block [blk] of the image, which calloc zeroed. *)
Definition img_read (blk : Z) (s : mkfs_st) : list Z := default zero_block (mk_img s !! blk).
Definition img_block (blk : Z) : MK (list Z) := gets (img_read blk).
Definition upd_block (blk : Z) (f : list Z -> list Z) : MK unit :=
  modify (fun s => set_mk_img (insert blk (f (img_read blk s))) s).
Definition mk_get_inode (inum : nat) : MK dinode :=
  fun s => match mk_inodes s !! inum with Some d => Ret d s | None => Fault "inode number" s end.
Definition mk_upd_inode (inum : nat) (f : dinode -> dinode) : MK unit :=
  modify (set_mk_inodes (alter f inum)).

Definition set_di_type (v : Z) (d : dinode) : dinode :=
  mkDinode v (di_major d) (di_minor d) (di_nlink d) (di_size d) (di_addrs d).
Definition set_di_nlink (v : Z) (d : dinode) : dinode :=
  mkDinode (di_type d) (di_major d) (di_minor d) v (di_size d) (di_addrs d).
Definition set_di_size (v : Z) (d : dinode) : dinode :=
  mkDinode (di_type d) (di_major d) (di_minor d) (di_nlink d) v (di_addrs d).
Definition set_di_addr (k : nat) (v : Z) (d : dinode) : dinode :=
  mkDinode (di_type d) (di_major d) (di_minor d) (di_nlink d) (di_size d) (<[k := v]> (di_addrs d)).

(** ** Allocation *)
Definition balloc : MK Z :=
  let! r := search (seqZ 0 mk_nblocks) (fun b =>
    let! s := gets mk_bbuf in
    if bitmap_used b s then ret None
    else
      do! modify (set_mk_bbuf (bitmap_set b));
      ret (Some (mk_bmapstart + 1 + b))) in
  ret (default 0 r).

(** The block of index [blockidx] of inode [inum], allocated if it is missing. *)
Definition iappend_block (inum : nat) (blockidx : Z) : MK Z :=
  let! ip := mk_get_inode inum in
  if blockidx <? Z.of_nat NDIRECT then
    let a := default 0 (di_addrs ip !! Z.to_nat blockidx) in
    if a =? 0 then
      let! addr := balloc in
      if addr =? 0 then panic "out of direct data blocks"
      else
        do! mk_upd_inode inum (set_di_addr (Z.to_nat blockidx) addr);
        ret addr
    else ret a
  else
    let idx := blockidx - Z.of_nat NDIRECT in
    let ind := default 0 (di_addrs ip !! NDIRECT) in
    let! ind := (if ind =? 0 then
                   let! ind := balloc in
                   if ind =? 0 then panic "out of indirect block"
                   else
                     do! mk_upd_inode inum (set_di_addr NDIRECT ind);
                     do! upd_block ind (fun _ => zero_block);
                     ret ind
                 else ret ind) in
    if Z.of_nat NINDIRECT <=? idx then fault "indirect block index"
    else
      let! blk := img_block ind in
      let a := get_le 4 (4 * Z.to_nat idx) blk in
      if a =? 0 then
        let! d := balloc in
        if d =? 0 then panic "out of indirect data blocks"
        else
          do! upd_block ind (put_le 4 (4 * Z.to_nat idx) d);
          ret d
      else ret a.

(** The loop of iappend; every iteration consumes a byte at least. *)
Fixpoint iappend_loop (fuel : nat) (inum : nat) (off : Z) (p : list Z) : MK Z :=
  match p with
  | [] => ret off
  | _ =>
      match fuel with
      | O => fault "iappend: fuel"
      | S fuel' =>
          let offset := off mod Z.of_nat BSIZE in
          let chunk := Z.min (Z.of_nat (length p)) (Z.of_nat BSIZE - offset) in
          let! addr := iappend_block inum (off / Z.of_nat BSIZE) in
          do! upd_block addr (splice (Z.to_nat offset) (take (Z.to_nat chunk) p));
          iappend_loop fuel' inum (off + chunk) (drop (Z.to_nat chunk) p)
      end
  end.

Definition iappend (inum : nat) (xp : list Z) : MK unit :=
  let! ip := mk_get_inode inum in
  let! off := iappend_loop (length xp) inum (di_size ip) xp in
  mk_upd_inode inum (set_di_size off).

Definition dir_entry_bytes (name : list Z) (inum : Z) : list Z :=
  let l := if (DIRSIZ <=? length name)%nat then (DIRSIZ - 1)%nat else length name in
  le_bytes 2 (u16 inum) ++ take l name ++ replicate (DIRSIZ - l) 0.

Definition dir_entry (dir : nat) (name : list Z) (inum : Z) : MK unit :=
  iappend dir (dir_entry_bytes name inum).

(** ** main *)
Definition mk_superblock : list Z :=
  mjoin (le_bytes 4 <$> [FSMAGIC; FSSIZE; mk_nblocks; Z.of_nat NINODES; NLOG; mk_logstart;
                         mk_inodestart; mk_bmapstart]).

Definition mark_meta : MK unit :=
  each (seqZ 0 mk_nmeta) (fun i => when (i / 8 <? Z.of_nat BSIZE) (modify (set_mk_bbuf (bitmap_set i)))).

Definition str_readme : list Z := [82; 69; 65; 68; 77; 69].
Definition str_test : list Z := [116; 101; 115; 116].
Definition str_t1 : list Z := [116; 49].
(** The two file contents: kernel/inode deterministic root image, and t1 hello. *)
Definition readme_content : list Z :=
  [107; 101; 114; 110; 101; 108; 47; 105; 110; 111; 100; 101; 32; 100; 101; 116; 101; 114; 109;
   105; 110; 105; 115; 116; 105; 99; 32; 114; 111; 111; 116; 32; 105; 109; 97; 103; 101; 10].
Definition t1_content : list Z := [116; 49; 32; 104; 101; 108; 108; 111; 10].

(** A new inode of the given type and link count. *)
Definition new_inode (inum : nat) (type nlink : Z) : MK unit :=
  do! mk_upd_inode inum (set_di_type type);
  do! mk_upd_inode inum (set_di_nlink nlink);
  mk_upd_inode inum (set_di_size 0).

Definition write_inodes : MK unit :=
  each (seq 0 NINODES) (fun i =>
    let! d := mk_get_inode i in
    upd_block (mk_inodestart + Z.of_nat i / IPB) (put_dinode (IINDEX (Z.of_nat i)) d)).

Definition mkfs_main : MK unit :=
  do! upd_block 1 (splice 0 mk_superblock);
  do! mark_meta;
  do! new_inode 1 T_DIR 3;
  do! dir_entry 1 [DOT] 1;
  do! dir_entry 1 [DOT; DOT] 1;
  do! new_inode 2 T_FILE 1;
  do! iappend 2 readme_content;
  do! dir_entry 1 str_readme 2;
  do! new_inode 3 T_DIR 2;
  do! dir_entry 1 str_test 3;
  do! dir_entry 3 [DOT] 3;
  do! dir_entry 3 [DOT; DOT] 1;
  do! new_inode 4 T_FILE 1;
  do! iappend 4 t1_content;
  do! dir_entry 3 str_t1 4;
  do! write_inodes;
  let! bb := gets mk_bbuf in
  upd_block mk_bmapstart (splice 0 bb).

(** The image mkfs writes. *)
Definition mkfs_result : mkfs_st :=
  match mkfs_main mkfs_start with Ret _ s => s | _ => mkfs_start end.
Definition fs_img : gmap Z (list Z) := mk_img mkfs_result.
