(* ===== verification/FsExamples.v ===== *)
(** * The file system on the image that mkfs builds

    The image of mkfs mounted by fsinit: the kernel reads back what mkfs wrote, a defect of
    the free-block bitmap, and the concrete states at which the theorems on inodes, files
    and directories apply. *)

From stdpp Require Import base list gmap numbers.
From S2P Require Import Prelude Params Machine Spinlock Sched CString Vm VmSpec Bio BioSpec Block Crash Log LogSpec Tx Recovery Decide Examples Fs FsSpec DirSpec PathSpec Mkfs.

(** ** The mounted image *)
#[local] Existing Instance vm_linker.

Definition fs_boot : kstate := set_k_disk (fun _ => mkDisk fs_img []) ex_cache.
Definition fs_mounted : kstate := final (fsinit 1 fs_boot) fs_boot.

Definition path_readme : list Z := SLASH :: str_readme.
Definition path_t1 : list Z := SLASH :: str_test ++ SLASH :: str_t1.

(** Open a file by name and read [n] bytes of it. *)
Definition read_path (path : list Z) (n : Z) : K (option (list Z)) :=
  let! r := namei path in
  match r with
  | None => ret None
  | Some i =>
      do! ilock (Some i);
      let! x := readi i ToLocal 0 n in
      do! iunlockput i;
      ret (Some (snd x))
  end.


(** ** The bitmap of mkfs *)

(** One block allocated in a transaction of its own. *)
Definition balloc_op : K Z :=
  do! begin_op;
  let! b := balloc_alloc 1 in
  do! end_op;
  ret b.
Fixpoint balloc_ops (n : nat) : K Z :=
  match n with
  | O => balloc_op
  | S n' => do! balloc_op; balloc_ops n'
  end.


(** ** A transaction on the mounted image *)

(** Slot 0 caches the root directory, slot 1 the inode of README, both locked. *)
Definition fs_open : K unit :=
  let! d := iget 1 1 in
  do! ilock (Some d);
  let! f := iget 1 2 in
  ilock (Some f).
Definition fs_ready : kstate := final (fs_open fs_mounted) fs_mounted.
Definition fs_tx : kstate := set_k_log (set_l_outstanding (fun o => o + 1)) fs_ready.

#[local] Instance fs_layer : TxLayer 1 := log_tx 1 2 30 ex_geometry.

Definition root_ip : inode :=
  mkInode 1 1 1 (mkSleeplock true 1) true T_DIR 0 0 3 64 (92 :: replicate NDIRECT 0).
Definition readme_ip : inode :=
  mkInode 1 2 1 (mkSleeplock true 1) true T_FILE 0 0 1 38 (93 :: replicate NDIRECT 0).
Definition fs_sb : superblock := mkSb FSMAGIC 2000 1954 200 30 2 32 45.

Lemma fs_ready_idle : log_inv 1 2 30 [] fs_ready.
Proof. apply log_invb_spec; vm_compute; reflexivity. Qed.

Lemma fs_tx_ok : tx ∅ 10 fs_tx.
Proof.
  destruct (begin_op_tx 1 2 30 fs_ready fs_ready_idle) as (s & _ & Ht & ->).
  - vm_compute. reflexivity.
  - vm_compute. reflexivity.
  - reflexivity.
  - exists []. exact Ht.
Qed.

Lemma fs_root : k_icache fs_tx !! 0%nat = Some root_ip.
Proof. vm_compute. reflexivity. Qed.
Lemma fs_readme : k_icache fs_tx !! 1%nat = Some readme_ip.
Proof. vm_compute. reflexivity. Qed.
Lemma fs_tx_sb : k_sb fs_tx = fs_sb.
Proof. vm_compute. reflexivity. Qed.
Lemma fs_tx_cur : k_cur fs_tx = Some 1%nat.
Proof. vm_compute. reflexivity. Qed.

Lemma fs_tx_pr : exists pr, k_procs fs_tx !! 1%nat = Some pr.
Proof.
  destruct (calm_cur _ (tx_calm _ _ _ fs_tx_ok)) as (p & pr & Hp & Hpr). rewrite fs_tx_cur in Hp.
  injection Hp as <-. by exists pr.
Qed.

Lemma fs_home b : 32 <= b < 2 ^ 31 -> home_blk b.
Proof. done. Qed.
Lemma fs_inum n : 0 <= n < 200 -> inum_ok (k_sb fs_tx) n.
Proof. intros Hn. rewrite fs_tx_sb. unfold inum_ok. cbn [sb_inodestart fs_sb]. lia. Qed.
Lemma fs_iblock n : 0 <= n < 16 -> IBLOCK (k_sb fs_tx) n = 32.
Proof. intros Hn. rewrite fs_tx_sb. unfold IBLOCK, IPB. by rewrite Z.div_small. Qed.
Lemma root_dinode_ok : dinode_ok (dinode_of root_ip).
Proof. split; apply (bool_decide_unpack _); vm_compute; exact I. Qed.
Lemma readme_dinode_ok : dinode_ok (dinode_of readme_ip).
Proof. split; apply (bool_decide_unpack _); vm_compute; exact I. Qed.

(** The blocks of the two files, and the first bytes of README. *)
Lemma one_block I ip a o :
  i_addrs ip = a :: replicate NDIRECT 0 -> 0 <= o < 1024 -> baddr I ip (o / Z.of_nat BSIZE) = a.
Proof.
  intros Ha Ho. change (Z.of_nat BSIZE) with 1024. rewrite Z.div_small by done.
  unfold baddr, iaddr. cbn [Z.ltb Z.compare Z.of_nat NDIRECT]. by rewrite Ha.
Qed.

Lemma one_block_mapped I ip a o :
  i_addrs ip = a :: replicate NDIRECT 0 -> 0 < a < 2 ^ 32 -> 0 <= o < 1024 -> mapped I ip (o / Z.of_nat BSIZE).
Proof.
  intros Ha Ha' Ho. unfold mapped. rewrite (one_block I ip a o) by done.
  change (Z.of_nat BSIZE) with 1024. rewrite Z.div_small by done. done.
Qed.

Lemma one_block_writable I ip a n :
  i_addrs ip = a :: replicate NDIRECT 0 -> 45 < a < 2 ^ 31 -> n <= 1024 -> writable I ip 0 n.
Proof.
  intros Ha Ha' Hn. split.
  - intros o Ho. apply (one_block_mapped I ip a); lia || done.
  - intros o Ho. rewrite (one_block I ip a o); [apply fs_home; lia|done|lia].
  - intros o Ho. rewrite (one_block I ip a o); [|done|lia]. unfold iaddr. rewrite Ha. cbn. lia.
  - intros o o' Ho Ho' _. change (Z.of_nat BSIZE) with 1024. rewrite !Z.div_small by lia. done.
Qed.

Lemma fs_readme_bytes : fbytes (img fs_tx) readme_ip 0 38 = readme_content.
Proof. vm_compute. reflexivity. Qed.

(** ** Witnesses *)
(** The same state with a stale slot for README. *)
Definition fs_stale : kstate :=
  set_k_icache (insert 2%nat (set_i_valid (fun _ => false) (set_i_size (fun _ => 5) readme_ip))) fs_tx.

Lemma iupdate_ilock_witness :
  exists s1 s2, iupdate 1 fs_stale = Ret tt s1 /\ ilock_load 2 s1 = Ret tt s2 /\
    (i_size <$> k_icache s2 !! 2%nat) = Some 38.
Proof.
  destruct (iupdate_ilock 9 fs_stale 1 readme_ip 2 (set_i_valid (fun _ => false) (set_i_size (fun _ => 5) readme_ip)))
    as (s1 & s2 & H1 & H2 & _ & H3 & _).
  - apply tx_icache, fs_tx_ok.
  - change (k_icache fs_stale) with (<[2%nat := set_i_valid (fun _ => false) (set_i_size (fun _ => 5) readme_ip)]> (k_icache fs_tx)).
    rewrite list_lookup_insert_ne by done. apply fs_readme.
  - reflexivity.
  - apply readme_dinode_ok.
  - done.
  - apply fs_inum. cbn. lia.
  - change (k_sb fs_stale) with (k_sb fs_tx). rewrite fs_iblock by (cbn; lia). apply fs_home. lia.
  - change (k_icache fs_stale) with (<[2%nat := set_i_valid (fun _ => false) (set_i_size (fun _ => 5) readme_ip)]> (k_icache fs_tx)).
    apply list_lookup_insert_eq. apply Nat.ltb_lt. vm_compute. reflexivity.
  - reflexivity.
  - reflexivity.
  - reflexivity.
  - exists s1, s2. split; [exact H1|]. split; [exact H2|]. rewrite H3. reflexivity.
Defined.

Lemma readi_correct_witness :
  exists s', readi 1 ToLocal 0 100 fs_tx = Ret (38, readme_content) s'.
Proof.
  destruct fs_tx_pr as [pr Hpr].
  destruct (readi_correct 10 fs_tx 1 readme_ip 1 pr ToLocal 0 100 (k_mem fs_tx)) as (s' & Hr & _).
  - apply fs_tx_ok.
  - apply fs_readme.
  - reflexivity.
  - cbn. lia.
  - apply fs_tx_cur.
  - exact Hpr.
  - exact I.
  - lia.
  - lia.
  - lia.
  - change (read_len readme_ip 0 100) with 38. intros o Ho. apply (one_block_mapped _ _ 93); [reflexivity|lia|lia].
  - reflexivity.
  - exists s'. change (read_len readme_ip 0 100) with 38 in Hr. rewrite fs_readme_bytes in Hr. exact Hr.
Defined.

Lemma writei_readi_witness :
  exists s' s'', writei 1 (FromLocal t1_content) 34 9 fs_tx = Ret 9 s' /\
    readi 1 ToLocal 34 9 s' = Ret (9, t1_content) s''.
Proof.
  destruct fs_tx_pr as [pr Hpr].
  destruct (writei_readi 8 1 fs_tx 1 readme_ip 1 pr (FromLocal t1_content) 34 9 t1_content)
    as (s' & s'' & H1 & _ & _ & _ & _ & H2).
  - apply fs_tx_ok.
  - apply fs_readme.
  - reflexivity.
  - apply readme_dinode_ok.
  - apply fs_inum. cbn. lia.
  - rewrite fs_iblock by (cbn; lia). apply fs_home. lia.
  - apply fs_tx_cur.
  - exact Hpr.
  - exact I.
  - cbn. lia.
  - lia.
  - vm_compute. congruence.
  - vm_compute. congruence.
  - change (Z.max (i_size readme_ip) (34 + 9)) with 43. apply (one_block_writable _ _ 93); [reflexivity|lia|lia].
  - change (Z.max (i_size readme_ip) (34 + 9)) with 43. intros o Ho.
    rewrite (one_block _ _ 93), fs_iblock; [lia|cbn; lia|reflexivity|lia].
  - rewrite fs_iblock by (cbn; lia). cbn. lia.
  - reflexivity.
  - exists s', s''. split; [exact H1|exact H2].
Defined.

Lemma fs_bitmap_ok : bitmap_ok ∅ fs_tx 45.
Proof.
  assert (Hf : forallb (fun b => bitmap_used b (img fs_tx 45) || ((46 <=? b) && (b <? 2 ^ 31))) (seqZ 0 2000) = true)
    by (vm_compute; reflexivity).
  split; rewrite ?fs_tx_sb; [split; [done|vm_compute; congruence]|reflexivity|apply fs_home; lia|apply unheld_empty|].
  intros b Hb Hu. rewrite forallb_forall in Hf. specialize (Hf b).
  rewrite Hu in Hf. cbn [orb] in Hf. assert (46 <= b < 2 ^ 31) as Hb'.
  { assert (In b (seqZ 0 2000)) as Hin by (apply list_elem_of_In, elem_of_seqZ; cbn in Hb; lia).
    specialize (Hf Hin). apply andb_true_iff in Hf as [H1%Z.leb_le H2%Z.ltb_lt]. lia. }
  split; [apply fs_home; lia|]. split; [lia|apply unheld_empty].
Qed.

Lemma balloc_bfree_witness :
  exists s1 s2 s3, balloc_alloc 1 fs_tx = Ret 50 s1 /\ bfree_release 1 50 s1 = Ret tt s2 /\
    bfree_release 1 50 s2 = Panic "bfree: freeing a free block" s3.
Proof.
  pose proof (balloc_bfree 6 fs_tx 45 1 fs_tx_ok fs_bitmap_ok) as H.
  assert (E : first_free (img fs_tx 45) (sb_size (k_sb fs_tx)) = Some 50) by (vm_compute; reflexivity).
  rewrite E in H. destruct H as (s1 & s2 & s3 & H1 & _ & _ & _ & _ & H2 & _ & H3).
  exists s1, s2, s3. split; [exact H1|]. split; [exact H2|exact H3].
Defined.

(** *** The inode cache and the root directory *)
Lemma fs_icache_ok : icache_ok (k_icache fs_tx).
Proof.
  assert (H2 : Forall (fun ip => i_ref ip = 0) (drop 2 (k_icache fs_tx)))
    by (apply (bool_decide_unpack _); vm_compute; exact I).
  assert (Hrest : forall i ip, k_icache fs_tx !! i = Some ip -> 0 < i_ref ip -> i = 0%nat \/ i = 1%nat).
  { intros [|[|i]] ip Hi Hpos; [by left|by right|]. rewrite Forall_lookup in H2.
    specialize (H2 i ip). rewrite lookup_drop in H2. specialize (H2 Hi). lia. }
  split.
  - vm_compute. reflexivity.
  - apply (bool_decide_unpack _). vm_compute. exact I.
  - intros i j ip jp Hi Hj Pi Pj Ed En.
    destruct (Hrest _ _ Hi Pi) as [-> | ->], (Hrest _ _ Hj Pj) as [-> | ->]; try reflexivity;
      rewrite ?fs_root, ?fs_readme in Hi; rewrite ?fs_root, ?fs_readme in Hj;
      injection Hi as <-; injection Hj as <-; discriminate En.
Qed.

Lemma fs_icache_room : Exists unused (k_icache fs_tx).
Proof. apply (bool_decide_unpack _). vm_compute. exact I. Qed.

Lemma fs_at_root c : (c <= 10)%nat -> at_dir 0 root_ip c fs_tx.
Proof.
  intros Hc. split; [by eapply tx_weaken; [apply fs_tx_ok|]|apply fs_root|].
  split; [done|done|cbn; lia|done|]. intros o Ho. apply (one_block_mapped _ _ 92); [reflexivity|lia|cbn in Ho; lia].
Qed.

Definition root_entries : list dirent :=
  (fun x => mkDirent (fst x) (strncpy (snd x) DIRSIZ)) <$>
    [(1, [DOT]); (1, [DOT; DOT]); (2, str_readme); (3, str_test)].
Lemma fs_root_entries : dents (img fs_tx) root_ip = root_entries.
Proof. vm_compute. reflexivity. Qed.

Lemma iget_counts_witness :
  exists i cs, iget 1 3 fs_tx = Ret i (set_k_icache (fun _ => cs) fs_tx) /\ iref cs 1 3 = 1.
Proof.
  destruct (iget_counts 1 3 fs_tx (tx_calm _ _ _ fs_tx_ok) fs_icache_ok) as [(_ & H & _)|(i & cs & H1 & _ & _ & _ & _ & H2)].
  - exfalso. pose proof fs_icache_room as R. apply Exists_exists in R as (x & Hx & Hu).
    rewrite Forall_forall in H. exact (H x Hx Hu).
  - exists i, cs. split; [exact H1|]. rewrite H2.
    assert (E : iref (k_icache fs_tx) 1 3 = 0) by (vm_compute; reflexivity). rewrite E. reflexivity.
Defined.

Lemma dirlookup_correct_witness :
  exists i s' ip', dirlookup 0 str_test fs_tx = Ret (Some (i, 48)) s' /\
    k_icache s' !! i = Some ip' /\ icaches 1 3 ip'.
Proof.
  pose proof (dirlookup_correct str_test 0 root_ip 10 fs_tx (fs_at_root 10 (le_n 10)) fs_icache_ok fs_icache_room) as H.
  rewrite fs_root_entries in H.
  assert (E : list_find (names str_test) root_entries = Some (3%nat, mkDirent 3 (strncpy str_test DIRSIZ)))
    by (vm_compute; reflexivity).
  rewrite E in H. destruct H as (i & s' & ip' & H1 & _ & _ & _ & H2 & H3 & _).
  exists i, s', ip'. split; [exact H1|]. split; [exact H2|exact H3].
Defined.

Lemma dirlink_inserts_witness :
  exists s' ip', dirlink 0 str_t1 4 fs_tx = Ret 0 s' /\ dirfind (dents (img s') ip') str_t1 = Some 4 /\
    dirfind (dents (img s') ip') str_test = Some 3.
Proof.
  assert (Es : Z.max (i_size root_ip) (DIRENT_SIZE * Z.of_nat (dslot (dents (img fs_tx) root_ip)) + DIRENT_SIZE) = 80)
    by (rewrite fs_root_entries; vm_compute; reflexivity).
  destruct (dirlink_inserts str_t1 4 0 root_ip 8 fs_tx) as (s' & H1 & _ & _ & _ & H2).
  - apply fs_at_root. apply le_n.
  - apply root_dinode_ok.
  - apply fs_inum. cbn. lia.
  - rewrite fs_iblock by (cbn; lia). apply fs_home. lia.
  - rewrite Es. apply (one_block_writable _ _ 92); [reflexivity|lia|lia].
  - rewrite Es. vm_compute. congruence.
  - rewrite Es. intros o Ho. rewrite (one_block _ _ 92), fs_iblock; [lia|cbn; lia|reflexivity|lia].
  - rewrite fs_iblock by (cbn; lia). cbn. lia.
  - lia.
  - rewrite fs_root_entries. vm_compute. reflexivity.
  - exists s'. eexists. split; [exact H1|]. split.
    + rewrite H2, decide_True by reflexivity. reflexivity.
    + rewrite H2, decide_False by (vm_compute; congruence). rewrite fs_root_entries. vm_compute. reflexivity.
Defined.

(** *** Path resolution on the mounted image *)
Definition fs_idle : kstate := set_k_log (set_l_outstanding (fun o => o + 1)) fs_mounted.

Lemma fs_idle_ok : tx ∅ 10 fs_idle.
Proof.
  assert (Hm : log_inv 1 2 30 [] fs_mounted) by (apply log_invb_spec; vm_compute; reflexivity).
  destruct (begin_op_tx 1 2 30 fs_mounted Hm) as (s & _ & Ht & ->).
  - vm_compute. reflexivity.
  - vm_compute. reflexivity.
  - reflexivity.
  - exists []. exact Ht.
Qed.

(** The inodes mkfs used, and what the image holds for them. *)
Definition fs_used (n : Z) : Prop := n = 1 \/ n = 2 \/ n = 3 \/ n = 4.
Lemma fs_used_facts n : fs_used n ->
  let ip := inode_at (img fs_idle) (k_sb fs_idle) n in
  i_type ip ≠ 0 /\ i_nlink ip ≠ 0 /\ i_dev ip = 1 /\ 0 <= i_size ip <= 64 /\ i_size ip mod DIRENT_SIZE = (if i_type ip =? T_DIR then 0 else i_size ip mod DIRENT_SIZE) /\
  i_addrs ip = (91 + n) :: replicate NDIRECT 0.
Proof. intros [-> | [-> | [-> | ->]]]; vm_compute; split_and!; congruence || reflexivity. Qed.

Lemma fs_entries n de : n = 1 \/ n = 3 ->
  de ∈ dents (img fs_idle) (inode_at (img fs_idle) (k_sb fs_idle) n) -> fs_used (de_inum de).
Proof.
  intros Hn Hin. assert (Hf : forallb (fun de => (1 <=? de_inum de) && (de_inum de <=? 4))
    (dents (img fs_idle) (inode_at (img fs_idle) (k_sb fs_idle) n)) = true)
    by (destruct Hn as [-> | ->]; vm_compute; reflexivity).
  rewrite forallb_forall in Hf. specialize (Hf de (proj1 (list_elem_of_In _ _) Hin)).
  apply andb_true_iff in Hf as [H1%Z.leb_le H2%Z.leb_le]. unfold fs_used. lia.
Qed.

Lemma fs_tree_ok : tree_ok (img fs_idle) (k_sb fs_idle) fs_used.
Proof.
  split.
  - left. reflexivity.
  - intros n Hn. apply (fs_used_facts n Hn).
  - intros n Hn. apply (fs_used_facts n Hn).
  - intros n Hn Hty. destruct (fs_used_facts n Hn) as (_ & _ & H1 & H2 & H3 & H4).
    rewrite Hty in H3. split; [exact Hty|exact H1|lia|exact H3|].
    intros o Ho. apply (one_block_mapped _ _ (91 + n)); [exact H4|unfold fs_used in Hn; lia|lia].
  - intros n de Hn Hty Hin _. apply (fs_entries n); [|exact Hin].
    destruct Hn as [-> | [-> | [-> | ->]]]; [by left| |by right|]; exfalso; revert Hty; vm_compute; discriminate.
Qed.

Lemma fs_idle_icache : icache_ok (k_icache fs_idle) /\
  Forall (quiet (img fs_idle) (k_sb fs_idle)) (k_icache fs_idle) /\
  (size (ikeys (k_icache fs_idle)) + 2 <= NINODE)%nat.
Proof.
  assert (H0 : Forall (fun ip => i_ref ip = 0 /\ sl_locked (i_lock ip) = false) (k_icache fs_idle))
    by (apply (bool_decide_unpack _); vm_compute; exact I).
  rewrite Forall_lookup in H0. split_and!.
  - split.
    + vm_compute. reflexivity.
    + apply Forall_lookup. intros i ip Hi. destruct (H0 _ _ Hi). lia.
    + intros i j ip jp Hi _ Hpos. destruct (H0 _ _ Hi). lia.
  - apply Forall_lookup. intros i ip Hi. destruct (H0 _ _ Hi) as [H1 H2]. split; [exact H2|lia].
  - apply Nat.leb_le. vm_compute. reflexivity.
Qed.

Lemma namei_resolves_witness :
  exists r s', namei path_t1 fs_idle = Ret (Some r) s' /\ iref (k_icache s') 1 4 = 1.
Proof.
  destruct fs_idle_icache as (H1 & H2 & H3).
  pose proof (namei_resolves fs_used 10 fs_idle path_t1 fs_idle_ok fs_tree_ok H1 H2 H3) as H.
  assert (E : resolve (img fs_idle) (k_sb fs_idle) ROOTINO (elements path_t1) = Some 4) by (vm_compute; reflexivity).
  rewrite E in H. destruct H as (r & s' & Hr & _ & _ & _ & _ & (j & ip & -> & _) & Hc).
  exists j, s'. split; [exact Hr|]. rewrite Hc.
  assert (E0 : iref (k_icache fs_idle) 1 4 = 0) by (vm_compute; reflexivity). rewrite E0. reflexivity.
Defined.
