(* ===== verification/Grep.v ===== *)
(** * grep (platform/visionfive2/user/grep.c)

    The regular-expression matcher and the line loop of grep.  A C string is the list of
    its bytes before the NUL.  [match_], matchhere and matchstar are the three functions of
    the matcher; [grep] reads the file in chunks, read(fd, buf, k) returning between one
    byte and k bytes while there are any, as the sequence [sizes] says. *)

From stdpp Require Import base list numbers.
From S2P Require Import Prelude Params CString.

Definition CARET : Z := 94.
Definition DOLLAR : Z := 36.
Definition ANY : Z := 46.
Definition STAR : Z := 42.
Definition NL : Z := 10.

(** ** The matcher *)

(** The do-while loop of matchstar, [here] being matchhere on the rest of the pattern. *)
Fixpoint matchstar_loop (here : list Z -> bool) (c : Z) (text : list Z) : bool :=
  if here text then true
  else match text with
       | [] => false
       | t :: text' => if (t =? c) || (c =? ANY) then matchstar_loop here c text' else false
       end.

Fixpoint matchhere (re text : list Z) : bool :=
  match re with
  | [] => true
  | c :: re1 =>
      match re1 with
      | d :: re2 =>
          if d =? STAR then matchstar_loop (matchhere re2) c text
          else match text with
               | t :: text' => if (c =? ANY) || (c =? t) then matchhere re1 text' else false
               | [] => false
               end
      | [] =>
          if c =? DOLLAR then match text with [] => true | _ => false end
          else match text with
               | t :: text' => if (c =? ANY) || (c =? t) then matchhere re1 text' else false
               | [] => false
               end
      end
  end.
Definition matchstar (c : Z) (re text : list Z) : bool := matchstar_loop (matchhere re) c text.

(** The do-while loop of match. *)
Fixpoint match_loop (re text : list Z) : bool :=
  if matchhere re text then true
  else match text with [] => false | _ :: text' => match_loop re text' end.

Definition match_ (re text : list Z) : bool :=
  match re with
  | c :: re' => if c =? CARET then matchhere re' text else match_loop re text
  | [] => match_loop re text
  end.

(** ** The line loop *)

(** strchr(p, c) for a newline, on the bytes of the buffer from [p] to its NUL: the bytes
    before the newline and those after it. *)
Fixpoint strchr_nl (p : list Z) : option (list Z * list Z) :=
  match p with
  | [] => None
  | c :: p' =>
      if c =? 0 then None
      else if c =? NL then Some ([], p')
      else match strchr_nl p' with Some (l, q) => Some (c :: l, q) | None => None end
  end.

(** The inner while loop: the lines in the buffer from [p] on, each written if it
    matches; returns what is left of the buffer. *)
Fixpoint grep_lines (fuel : nat) (re p out : list Z) : list Z * list Z :=
  match strchr_nl p with
  | None => (p, out)
  | Some (line, q) =>
      match fuel with
      | O => (p, out)
      | S fuel' => grep_lines fuel' re q (if match_ re line then out ++ line ++ [NL] else out)
      end
  end.

(** sizeof(buf) *)
Definition GBUF : nat := 1024.

(** read(fd, buf + m, room): the next bytes of the file, [n] of them at most. *)
Definition read_chunk (n room : nat) (file : list Z) : list Z * list Z :=
  let k := Nat.min (Nat.max 1 n) room in (take k file, drop k file).

(** The outer while loop; [left] is buf[0..m). *)
Fixpoint grep_loop (fuel : nat) (re left file : list Z) (sizes : nat -> nat) (out : list Z) : option (list Z) :=
  match fuel with
  | O => None
  | S fuel' =>
      let '(chunk, rest) := read_chunk (sizes fuel) (GBUF - length left - 1) file in
      match chunk with
      | [] => Some out
      | _ =>
          let buf := left ++ chunk in
          let '(left', out') := grep_lines (length buf) re buf out in
          grep_loop fuel' re left' rest sizes out'
      end
  end.

(** Every iteration but the last consumes a byte. *)
Definition grep (re file : list Z) (sizes : nat -> nat) : option (list Z) :=
  grep_loop (S (length file)) re [] file sizes [].

(** ** What patterns mean *)

(** A pattern is a sequence of atoms, a set of bytes each, possibly starred, between two
    optional anchors. *)
Inductive atom : Type := One (c : Z) | Many (c : Z).

Definition byte_in (c t : Z) : Prop := c = ANY \/ t = c.
Definition atom_lang (a : atom) (w : list Z) : Prop :=
  match a with
  | One c => exists t, w = [t] /\ byte_in c t
  | Many c => Forall (byte_in c) w
  end.
Fixpoint lang (l : list atom) (w : list Z) : Prop :=
  match l with
  | [] => w = []
  | a :: l' => exists w1 w2, w = w1 ++ w2 /\ atom_lang a w1 /\ lang l' w2
  end.

(** The atoms of a pattern, and whether it ends in an anchor. *)
Fixpoint parse (re : list Z) : list atom * bool :=
  match re with
  | [] => ([], false)
  | c :: re1 =>
      match re1 with
      | d :: re2 =>
          if d =? STAR then let '(l, b) := parse re2 in (Many c :: l, b)
          else let '(l, b) := parse re1 in (One c :: l, b)
      | [] => if c =? DOLLAR then ([], true) else ([One c], false)
      end
  end.

(** A pattern occurs in a line. *)
Definition occurs (re line : list Z) : Prop :=
  let '(body, at_start) := match re with
                           | c :: re' => if c =? CARET then (re', true) else (re, false)
                           | [] => (re, false)
                           end in
  let '(atoms, at_end) := parse body in
  exists pre mid post, line = pre ++ mid ++ post /\ lang atoms mid /\
    (at_start = true -> pre = []) /\ (at_end = true -> post = []).

(** ** The matcher decides occurrence *)
Definition here_spec (re text : list Z) : Prop :=
  exists mid post, text = mid ++ post /\ lang (fst (parse re)) mid /\ (snd (parse re) = true -> post = []).

Lemma byte_test c t : ((c =? ANY) || (c =? t) = true) <-> byte_in c t.
Proof. unfold byte_in. rewrite orb_true_iff, !Z.eqb_eq. naive_solver. Qed.

Lemma byte_test' c t : ((t =? c) || (c =? ANY) = true) <-> byte_in c t.
Proof. unfold byte_in. rewrite orb_true_iff, !Z.eqb_eq. naive_solver. Qed.

Lemma matchstar_loop_spec here c text :
  matchstar_loop here c text = true <-> exists w rest, text = w ++ rest /\ Forall (byte_in c) w /\ here rest = true.
Proof.
  induction text as [|t text IH]; cbn [matchstar_loop].
  - destruct (here []) eqn:E; split; try done.
    + intros _. by exists [], [].
    + intros (w & rest & Hw & _ & Hr). symmetry in Hw. apply app_eq_nil in Hw as [-> ->]. congruence.
  - destruct (here (t :: text)) eqn:E.
    { split; [|done]. intros _. by exists [], (t :: text). }
    destruct ((t =? c) || (c =? ANY)) eqn:Eb.
    + apply byte_test' in Eb. rewrite IH. split.
      * intros (w & rest & -> & Hw & Hr). exists (t :: w), rest. split_and!; [done|by constructor|done].
      * intros (w & rest & Hw & Hf & Hr). destruct w as [|t' w]; [cbn in Hw; congruence|].
        injection Hw as <- ->. apply Forall_cons in Hf as [_ Hf]. by exists w, rest.
    + split; [done|]. intros (w & rest & Hw & Hf & Hr). destruct w as [|t' w]; [cbn in Hw; congruence|].
      injection Hw as <- ->. apply Forall_cons in Hf as [Hf _]. apply byte_test' in Hf. congruence.
Qed.

Lemma one_step c l (b : bool) text :
  (exists mid post, text = mid ++ post /\ lang (One c :: l) mid /\ (b = true -> post = [])) <->
  match text with
  | [] => False
  | t :: text' => byte_in c t /\ exists mid post, text' = mid ++ post /\ lang l mid /\ (b = true -> post = [])
  end.
Proof.
  split.
  - intros (mid & post & -> & (w1 & w2 & -> & (t & -> & Ht) & Hl) & Hb). cbn. split; [done|]. by exists w2, post.
  - destruct text as [|t text]; [done|]. intros (Ht & mid & post & -> & Hl & Hb).
    exists (t :: mid), post. split_and!; [done| |done]. exists [t], mid. split_and!; [done|by exists t|done].
Qed.

Lemma matchhere_step c re text :
  (match text with t :: text' => if (c =? ANY) || (c =? t) then matchhere re text' else false | [] => false end = true) <->
  match text with [] => False | t :: text' => byte_in c t /\ matchhere re text' = true end.
Proof.
  destruct text as [|t text]; [done|]. rewrite <- byte_test. destruct ((c =? ANY) || (c =? t)); naive_solver.
Qed.

Lemma matchhere_cons c d re text :
  matchhere (c :: d :: re) text =
    if d =? STAR then matchstar c re text
    else match text with t :: text' => if (c =? ANY) || (c =? t) then matchhere (d :: re) text' else false | [] => false end.
Proof. done. Qed.

Lemma parse_cons c d re :
  parse (c :: d :: re) = if d =? STAR then let '(l, b) := parse re in (Many c :: l, b)
                         else let '(l, b) := parse (d :: re) in (One c :: l, b).
Proof. done. Qed.

Lemma matchhere_spec re : forall text, matchhere re text = true <-> here_spec re text.
Proof.
  induction re as [re IH] using (induction_ltof1 _ length). intros text. unfold here_spec.
  destruct re as [|c [|d re2]]; [| |rewrite matchhere_cons, parse_cons].
  - cbn. split; [|done]. intros _. by exists [], text.
  - cbn [matchhere parse]. destruct (Z.eqb_spec c DOLLAR) as [->|Hc]; cbn [fst snd].
    + destruct text as [|t text]; cbn; split; try done.
      * intros _. by exists [], [].
      * intros (mid & post & E & -> & Hp). rewrite Hp in E by done. done.
    + rewrite one_step. destruct text as [|t text]; [done|]. rewrite <- byte_test.
      destruct ((c =? ANY) || (c =? t)); [|naive_solver]. split; [|done]. intros _. split; [done|]. by exists [], text.
  - destruct (Z.eqb_spec d STAR) as [->|Hd].
    + unfold matchstar. rewrite matchstar_loop_spec. destruct (parse re2) as [l b] eqn:Ep. cbn [fst snd].
      assert (IH2 : forall t, matchhere re2 t = true <-> exists mid post, t = mid ++ post /\ lang l mid /\ (b = true -> post = [])).
      { intros t. rewrite (IH re2) by (unfold ltof; cbn; lia). unfold here_spec. by rewrite Ep. }
      split.
      * intros (w & rest & -> & Hw & Hr). apply IH2 in Hr as (mid & post & -> & Hl & Hb).
        exists (w ++ mid), post. split_and!; [by rewrite app_assoc| |done]. by exists w, mid.
      * intros (mid & post & -> & (w1 & w2 & -> & Hw & Hl) & Hb). exists w1, (w2 ++ post).
        split_and!; [by rewrite app_assoc|done|]. apply IH2. by exists w2, post.
    + rewrite matchhere_step. destruct (parse (d :: re2)) as [l b] eqn:Ep. cbn [fst snd]. rewrite one_step.
      destruct text as [|t text]; [done|]. rewrite (IH (d :: re2)) by (unfold ltof; cbn; lia). unfold here_spec. by rewrite Ep.
Qed.

Lemma match_loop_spec re text :
  match_loop re text = true <-> exists pre rest, text = pre ++ rest /\ matchhere re rest = true.
Proof.
  induction text as [|t text IH]; cbn [match_loop]; destruct (matchhere re _) eqn:E; split; try done.
  - intros _. by exists [], [].
  - intros (pre & rest & Hp & Hr). symmetry in Hp. apply app_eq_nil in Hp as [-> ->]. congruence.
  - intros _. by exists [], (t :: text).
  - rewrite IH. intros (pre & rest & -> & Hr). by exists (t :: pre), rest.
  - rewrite IH. intros (pre & rest & Hp & Hr). destruct pre as [|t' pre]; [cbn in Hp; congruence|].
    injection Hp as <- ->. by exists pre, rest.
Qed.

(** The matcher of grep decides what its patterns mean: match returns 1 exactly when the
    line contains a factor in the language of the pattern (a byte, a dot for any byte,
    each possibly starred), at the start of the line if the pattern begins with a caret
    and at its end if it ends with a dollar. *)
Theorem match_correct re line : match_ re line = true <-> occurs re line.
Proof.
  assert (Hfloat : match_loop re line = true <->
    exists pre mid post, line = pre ++ mid ++ post /\ lang (fst (parse re)) mid /\
      (false = true -> pre = []) /\ (snd (parse re) = true -> post = [])).
  { rewrite match_loop_spec. split.
    - intros (pre & rest & -> & Hr). apply matchhere_spec in Hr as (mid & post & -> & Hl & Hb). by exists pre, mid, post.
    - intros (pre & mid & post & -> & Hl & _ & Hb). exists pre, (mid ++ post). split; [done|].
      apply matchhere_spec. by exists mid, post. }
  unfold match_, occurs. destruct re as [|c re]; [by destruct (parse [])|].
  destruct (Z.eqb_spec c CARET); [|by destruct (parse (c :: re))].
  rewrite matchhere_spec. unfold here_spec. destruct (parse re) as [l b]. cbn [fst snd]. split.
  - intros (mid & post & -> & Hl & Hb). by exists [], mid, post.
  - intros (pre & mid & post & -> & Hl & Hp & Hb). rewrite Hp by done. by exists mid, post.
Qed.

(** ** The line loop *)
Definition plain (c : Z) : Prop := c ≠ 0 /\ c ≠ NL.
Definition ended (l : list Z) : list Z := l ++ [NL].

Lemma strchr_line l q : Forall plain l -> strchr_nl (l ++ NL :: q) = Some (l, q).
Proof.
  induction l as [|c l IH]; intros Hl; [done|]. apply Forall_cons in Hl as [[H1 H2] Hl]. cbn.
  rewrite (proj2 (Z.eqb_neq c 0) H1), (proj2 (Z.eqb_neq c NL) H2), IH by done. done.
Qed.

Lemma strchr_none p : Forall plain p -> strchr_nl p = None.
Proof.
  induction p as [|c p IH]; intros Hp; [done|]. apply Forall_cons in Hp as [[H1 H2] Hp]. cbn.
  by rewrite (proj2 (Z.eqb_neq c 0) H1), (proj2 (Z.eqb_neq c NL) H2), IH.
Qed.

Definition matching (re : list Z) (ls : list (list Z)) : list Z :=
  mjoin (ended <$> List.filter (match_ re) ls).

Lemma grep_lines_spec re r : Forall plain r -> forall ls fuel out,
  Forall (Forall plain) ls -> (length ls <= fuel)%nat ->
  grep_lines fuel re (mjoin (ended <$> ls) ++ r) out = (r, out ++ matching re ls).
Proof.
  intros Hr. induction ls as [|l ls IH]; intros fuel out Hl Hf.
  { cbn. unfold matching. cbn. rewrite app_nil_r. destruct fuel; cbn; by rewrite strchr_none. }
  apply Forall_cons in Hl as [Hl1 Hl2]. destruct fuel as [|fuel]; [cbn in Hf; lia|].
  cbn [fmap list_fmap mjoin list_join]. unfold ended at 1. rewrite <- !app_assoc. cbn [app grep_lines].
  rewrite strchr_line by done. rewrite IH by (cbn in Hf; done || lia).
  unfold matching. cbn [List.filter]. destruct (match_ re l); [|done]. cbn. unfold ended at 2. by rewrite <- !app_assoc.
Qed.

(** What a prefix of the file holds: some of its lines, and the start of the next. *)
Lemma prefix_lines tail : Forall plain tail -> forall ls buf rest,
  Forall (Forall plain) ls -> buf ++ rest = mjoin (ended <$> ls) ++ tail ->
  exists ls1 ls2 r, ls = ls1 ++ ls2 /\ buf = mjoin (ended <$> ls1) ++ r /\ Forall plain r /\
    r ++ rest = mjoin (ended <$> ls2) ++ tail /\
    match ls2 with [] => True | l :: _ => (length r <= length l)%nat end.
Proof.
  intros Ht. induction ls as [|l ls IH]; intros buf rest Hl E.
  { exists [], [], buf. split_and!; try done. cbn in E. rewrite <- E in Ht. by apply Forall_app in Ht as [? _]. }
  apply Forall_cons in Hl as [Hl1 Hl2]. cbn [fmap list_fmap mjoin list_join] in E. rewrite <- app_assoc in E.
  destruct (decide (length buf <= length l)%nat) as [Hle|Hgt].
  - exists [], (l :: ls), buf. split_and!; try done.
    + assert (Hb : buf = take (length buf) l).
      { transitivity (take (length buf) (buf ++ rest)); [by rewrite take_app_length|]. rewrite E. unfold ended.
        by rewrite <- app_assoc, take_app_le. }
      rewrite Hb. by apply Forall_take.
    + cbn [fmap list_fmap mjoin list_join]. by rewrite <- app_assoc.
  - assert (Hb : buf = ended l ++ drop (S (length l)) buf).
    { rewrite <- (take_drop (S (length l)) buf) at 1. f_equal.
      rewrite <- (take_app_le buf rest) by lia. rewrite E. apply take_app_length'. unfold ended. len. }
    destruct (IH (drop (S (length l)) buf) rest Hl2) as (ls1 & ls2 & r & -> & E1 & Hr & E2 & Hlen).
    { rewrite Hb, <- app_assoc in E. by apply app_inv_head in E. }
    exists (l :: ls1), ls2, r. split_and!; [done| |done|done|done]. rewrite Hb, E1. apply (app_assoc (ended l)).
Qed.

Lemma length_lines (ls : list (list Z)) : (length ls <= length (mjoin (ended <$> ls)))%nat.
Proof. induction ls as [|l ls IH]; [done|].
  change (mjoin (ended <$> l :: ls)) with (ended l ++ mjoin (ended <$> ls)). unfold ended at 1. len. Qed.

Lemma grep_loop_spec re sizes tail : Forall plain tail -> forall fuel left file ls out,
  Forall (Forall plain) ls -> Forall (fun l => length l <= GBUF - 2)%nat ls ->
  left ++ file = mjoin (ended <$> ls) ++ tail ->
  match ls with [] => True | l :: _ => (length left <= length l)%nat end ->
  (length file < fuel)%nat ->
  grep_loop fuel re left file sizes out = Some (out ++ matching re ls).
Proof.
  intros Ht. induction fuel as [|fuel IH]; intros left file ls out Hp Hlen E Hleft Hf; [lia|].
  cbn [grep_loop]. unfold read_chunk. set (k := Nat.min _ _).
  destruct (take k file) as [|c chunk] eqn:Ec.
  - destruct ls as [|l ls]; [unfold matching; cbn; by rewrite app_nil_r|]. exfalso.
    apply Forall_cons in Hlen as [Hl _]. unfold GBUF in *.
    assert (length file = 0 \/ k = 0)%nat as [H0|H0].
    { apply (f_equal length) in Ec. rewrite length_take in Ec. cbn in Ec. lia. }
    + apply (f_equal length) in E. rewrite !length_app in E. cbn [fmap list_fmap mjoin list_join] in E.
      unfold ended in E at 1. rewrite !length_app in E. cbn in E. lia.
    + unfold k in H0. lia.
  - assert (Hne : (0 < length (take k file))%nat) by (rewrite Ec; cbn; lia). rewrite <- Ec. clear Ec c chunk.
    destruct (prefix_lines tail Ht ls (left ++ take k file) (drop k file) Hp) as (ls1 & ls2 & r & -> & E1 & Hr & E2 & Hl2).
    { by rewrite <- app_assoc, take_drop. }
    apply Forall_app in Hp as [Hp1 Hp2]. apply Forall_app in Hlen as [_ Hlen2].
    assert (Hg : grep_lines (length (left ++ take k file)) re (left ++ take k file) out = (r, out ++ matching re ls1)).
    { rewrite E1. apply grep_lines_spec; [done|done|]. pose proof (length_lines ls1). len. }
    assert (Hm : matching re (ls1 ++ ls2) = matching re ls1 ++ matching re ls2).
    { unfold matching. by rewrite List.filter_app, fmap_app, join_app. }
    pose proof Hne as Hk. rewrite length_take in Hk.
    destruct (take k file) as [|c chunk]; [cbn in Hne; lia|]. rewrite Hg, Hm, app_assoc.
    apply IH; try done. rewrite length_drop. lia.
Qed.


