(* ===== verification/Gpt.v ===== *)
(** * The partition table of the boot disk (platform/visionfive2/kernel/gpt.c)

    CRC-32 and the search for the xv6fs partition.  The callback read_sector(lba, buf) is a
    parameter: a program [read lba] in the monad of Prelude.v that returns the 512 bytes it
    stores in the buffer. *)

From stdpp Require Import base list numbers.
From S2P Require Import Prelude Params CString.

Definition SECTOR_SIZE : nat := 512.
Definition GPT_HEADER_SIZE_MIN : Z := 92.
Definition GPT_ENTRY_SIZE : Z := 128.
Definition GPT_MAX_ENTRIES : Z := 128.

(** ** crc32_update *)
Definition crc_not (x : Z) : Z := Z.lxor x 0xffffffff.
Definition crc_bit (c : Z) : Z :=
  Z.lxor (Z.shiftr c 1) (Z.land 0xedb88320 (u32 (0 - Z.land c 1))).
Definition crc_byte (c b : Z) : Z := Nat.iter 8 crc_bit (Z.lxor c b).
Definition crc32_update (crc : Z) (data : list Z) : Z := crc_not (fold_left crc_byte data (crc_not crc)).

(** ** The header and the entries *)
Record gpt_header : Type := mkGptHeader {
  gh_signature : list Z; gh_revision : Z; gh_header_size : Z; gh_header_crc32 : Z; gh_reserved : Z;
  gh_current_lba : Z; gh_backup_lba : Z; gh_first_usable_lba : Z; gh_last_usable_lba : Z; gh_disk_guid : list Z;
  gh_entries_lba : Z; gh_entry_count : Z; gh_entry_size : Z; gh_entries_crc32 : Z;
}.
Definition header_of_bytes (s : list Z) : gpt_header :=
  mkGptHeader (take 8 s) (get_le 4 8 s) (get_le 4 12 s) (get_le 4 16 s) (get_le 4 20 s) (get_le 8 24 s)
    (get_le 8 32 s) (get_le 8 40 s) (get_le 8 48 s) (take 16 (drop 56 s)) (get_le 8 72 s) (get_le 4 80 s) (get_le 4 84 s) (get_le 4 88 s).

Definition EFI_PART : list Z := [69; 70; 73; 32; 80; 65; 82; 84].
Definition type_guid : list Z :=
  [175; 61; 198; 15; 131; 132; 114; 71; 142; 121; 61; 105; 216; 71; 125; 228].
(** xv6fs *)
Definition part_name : list Z := [120; 118; 54; 102; 115].

(** The name field: 36 16-bit units from byte 56 on. *)
Definition name_unit (e : list Z) (i : nat) : Z := get_le 2 (56 + 2 * i) e.
Definition is_xv6fs (e : list Z) : bool :=
  (memcmp (take 16 e) type_guid 16 =? 0) &&
  forallb (fun i => name_unit e i =? default 0 (part_name !! i)) (seq 0 5) &&
  (name_unit e 5 =? 0).
Definition first_lba (e : list Z) : Z := get_le 8 32 e.
Definition last_lba (e : list Z) : Z := get_le 8 40 e.

(** ** gpt_find_xv6fs *)
Definition mbr_ok (s : list Z) : bool :=
  (default 0 (s !! 510%nat) =? 0x55) && (default 0 (s !! 511%nat) =? 0xaa) && (default 0 (s !! 450%nat) =? 0xee).

Definition header_ok (h : gpt_header) : bool :=
  (memcmp (gh_signature h) EFI_PART 8 =? 0) && (gh_revision h =? 0x00010000) &&
  negb (gh_header_size h <? GPT_HEADER_SIZE_MIN) && negb (Z.of_nat SECTOR_SIZE <? gh_header_size h) &&
  (gh_current_lba h =? 1) && negb (gh_entry_count h =? 0) && negb (GPT_MAX_ENTRIES <? gh_entry_count h) &&
  (gh_entry_size h =? GPT_ENTRY_SIZE) && negb (gh_entries_lba h <? 2).

Section Gpt.
Context {S : Type} (read : Z -> M S (list Z)).

(** The inner loop over the [count] entries of a sector. *)
Fixpoint scan_slots (h : gpt_header) (sector : list Z) (slots : list nat) (match_lba : Z) : M S Z :=
  match slots with
  | [] => ret match_lba
  | slot :: slots' =>
      let e := take 128 (drop (128 * slot) sector) in
      if negb (is_xv6fs e) then scan_slots h sector slots' match_lba
      else if negb (match_lba =? 0) then panic "gpt: duplicate xv6fs partition"
      else if (first_lba e <? gh_first_usable_lba h) || (gh_last_usable_lba h <? last_lba e) || (last_lba e <? first_lba e)
      then panic "gpt: xv6fs outside usable range"
      else scan_slots h sector slots' (first_lba e)
  end.

(** The outer loop from entry [index] on: the checksum of the entries and the match. *)
Fixpoint scan_sectors (fuel : nat) (h : gpt_header) (index crc match_lba : Z) : M S (Z * Z) :=
  if gh_entry_count h <=? index then ret (crc, match_lba)
  else match fuel with
  | O => fault "gpt_find_xv6fs: fuel"
  | Datatypes.S fuel' =>
      let! sector := read (u64 (gh_entries_lba h + index / 4)) in
      let count := Z.min (gh_entry_count h - index) 4 in
      let crc := crc32_update crc (take (Z.to_nat (count * GPT_ENTRY_SIZE)) sector) in
      let! m := scan_slots h sector (seq 0 (Z.to_nat count)) match_lba in
      scan_sectors fuel' h (index + count) crc m
  end.

Definition gpt_find_xv6fs : M S Z :=
  let! sector := read 0 in
  if negb (mbr_ok sector) then panic "gpt: protective MBR missing"
  else
    let! sector := read 1 in
    let h := header_of_bytes sector in
    if negb (header_ok h) then panic "gpt: invalid primary header"
    else if negb (crc32_update 0 (take (Z.to_nat (gh_header_size h)) (put_le 4 16 0 sector)) =? gh_header_crc32 h)
    then panic "gpt: header checksum mismatch"
    else
      let! r := scan_sectors (Z.to_nat (gh_entry_count h)) h 0 0 0 in
      if negb (r.1 =? gh_entries_crc32 h) then panic "gpt: partition checksum mismatch"
      else if r.2 =? 0 then panic "gpt: xv6fs partition missing"
      else ret r.2.
End Gpt.

(** ** The checksum detects bursts *)
Lemma lxor_word x y : 0 <= x < 2 ^ 32 -> 0 <= y < 2 ^ 32 -> 0 <= Z.lxor x y < 2 ^ 32.
Proof.
  intros Hx Hy. assert (E : Z.lxor x y mod 2 ^ 32 = Z.lxor x y); [|rewrite <- E; by apply Z.mod_pos_bound].
  apply Z.bits_inj'. intros i Hi. destruct (decide (i < 32)); [by rewrite Z.mod_pow2_bits_low by lia|].
  rewrite Z.mod_pow2_bits_high, Z.lxor_spec by lia.
  rewrite <- (Z.mod_small x (2 ^ 32) Hx), <- (Z.mod_small y (2 ^ 32) Hy). by rewrite !Z.mod_pow2_bits_high by lia.
Qed.

Lemma crc_bit_odd c : Z.land c 1 = if Z.odd c then 1 else 0.
Proof. change 1 with (Z.ones 1) at 1. rewrite Z.land_ones by done. apply Zmod_odd. Qed.

Lemma crc_bit_eq c : crc_bit c = Z.lxor (Z.shiftr c 1) (if Z.odd c then 0xedb88320 else 0).
Proof. unfold crc_bit. rewrite crc_bit_odd. by destruct (Z.odd c). Qed.

Lemma crc_bit_lxor x y : crc_bit (Z.lxor x y) = Z.lxor (crc_bit x) (crc_bit y).
Proof.
  rewrite !crc_bit_eq, Z.shiftr_lxor. rewrite <- !Z.bit0_odd, Z.lxor_spec.
  set (p := 0xedb88320). set (a := Z.shiftr x 1). set (b := Z.shiftr y 1).
  destruct (Z.testbit x 0), (Z.testbit y 0); cbn [xorb]; apply Z.bits_inj'; intros i Hi;
    rewrite !Z.lxor_spec, ?Z.bits_0; by destruct (Z.testbit a i), (Z.testbit b i), (Z.testbit p i).
Qed.

Lemma crc_bit_range c : 0 <= c < 2 ^ 32 -> 0 <= crc_bit c < 2 ^ 32.
Proof.
  intros Hc. rewrite crc_bit_eq. apply lxor_word; [|by destruct (Z.odd c)].
  rewrite Z.shiftr_div_pow2 by done. change (2 ^ 1) with 2. split; [apply Z.div_pos; lia|apply Z.div_lt_upper_bound; lia].
Qed.

(** A register that becomes zero was zero: the step loses nothing. *)
Lemma crc_bit_zero c : 0 <= c < 2 ^ 32 -> crc_bit c = 0 -> c = 0.
Proof.
  intros Hc. rewrite crc_bit_eq. intros E. apply Z.lxor_eq in E. destruct (Z.odd c) eqn:Ho.
  - exfalso. apply (f_equal (fun z => Z.testbit z 31)) in E. rewrite Z.shiftr_spec in E by done.
    change (Z.testbit 0xedb88320 31) with true in E.
    rewrite <- (Z.mod_small c (2 ^ 32) Hc), Z.mod_pow2_bits_high in E by lia. done.
  - rewrite Z.shiftr_div_pow2 in E by done. change (2 ^ 1) with 2 in E.
    pose proof (Z.div_mod c 2 ltac:(done)) as Hdm. rewrite Zmod_odd, Ho, E in Hdm. lia.
Qed.

Lemma crc_iter_lxor n x y : Nat.iter n crc_bit (Z.lxor x y) = Z.lxor (Nat.iter n crc_bit x) (Nat.iter n crc_bit y).
Proof. induction n as [|n IH]; [done|]. by rewrite !Nat.iter_succ, IH, crc_bit_lxor. Qed.

Lemma crc_iter_range n c : 0 <= c < 2 ^ 32 -> 0 <= Nat.iter n crc_bit c < 2 ^ 32.
Proof. intros Hc. induction n as [|n IH]; [done|]. rewrite Nat.iter_succ. by apply crc_bit_range. Qed.

Lemma crc_iter_zero n c : 0 <= c < 2 ^ 32 -> Nat.iter n crc_bit c = 0 -> c = 0.
Proof.
  intros Hc. induction n as [|n IH]; [done|]. rewrite Nat.iter_succ. intros E. apply IH, crc_bit_zero; [by apply crc_iter_range|done].
Qed.

(** Shifting out a zero byte. *)
Lemma crc_shift_bit v : 0 <= v -> crc_bit (v * 2) = v.
Proof.
  intros Hv. rewrite crc_bit_eq. rewrite Z.odd_mul, andb_false_r, Z.lxor_0_r.
  rewrite Z.shiftr_div_pow2 by done. change (2 ^ 1) with 2. by apply Z.div_mul.
Qed.
Lemma crc_shift_byte v : 0 <= v -> Nat.iter 8 crc_bit (v * 256) = v.
Proof.
  intros Hv. replace (v * 256) with (v * 2 * 2 * 2 * 2 * 2 * 2 * 2 * 2) by lia. cbn. by rewrite !crc_shift_bit by lia.
Qed.

#[local] Opaque crc_bit.

(** The register is linear in its start value and the data. *)
Definition crc_lin (c : Z) (data : list Z) : Z := fold_left crc_byte data c.

Lemma crc_byte_lxor c c' b b' : crc_byte (Z.lxor c c') (Z.lxor b b') = Z.lxor (crc_byte c b) (crc_byte c' b').
Proof.
  unfold crc_byte. rewrite <- crc_iter_lxor.
  assert (E : Z.lxor (Z.lxor c c') (Z.lxor b b') = Z.lxor (Z.lxor c b) (Z.lxor c' b')); [|by rewrite E].
  apply Z.bits_inj'. intros i _. rewrite !Z.lxor_spec.
  by destruct (Z.testbit c i), (Z.testbit c' i), (Z.testbit b i), (Z.testbit b' i).
Qed.

Lemma fold_lxor (f : Z -> Z -> Z) :
  (forall c c' b b', f (Z.lxor c c') (Z.lxor b b') = Z.lxor (f c b) (f c' b')) ->
  forall d d' c c', length d = length d' ->
    fold_left f (zip_with Z.lxor d d') (Z.lxor c c') = Z.lxor (fold_left f d c) (fold_left f d' c').
Proof.
  intros Hf. induction d as [|b d IH]; intros [|b' d'] c c' Hl; try done. cbn [zip_with fold_left].
  rewrite Hf. apply IH. cbn in Hl. lia.
Qed.

Lemma crc_lin_lxor d d' c c' : length d = length d' ->
  crc_lin (Z.lxor c c') (zip_with Z.lxor d d') = Z.lxor (crc_lin c d) (crc_lin c' d').
Proof. apply (fold_lxor crc_byte crc_byte_lxor). Qed.

Lemma fold_left_cons {A B} (f : A -> B -> A) b l a : fold_left f (b :: l) a = fold_left f l (f a b).
Proof. done. Qed.
Lemma crc_lin_cons c b d : crc_lin c (b :: d) = crc_lin (crc_byte c b) d.
Proof. apply (fold_left_cons crc_byte). Qed.

Lemma low_lxor L b : is_byte b -> Z.lxor (L * 256) b = L * 256 + b.
Proof.
  intros Hb. symmetry. apply Z.add_nocarry_lxor. apply Z.bits_inj'. intros k Hk. rewrite Z.land_spec, Z.bits_0.
  change 256 with (2 ^ 8). destruct (decide (k < 8)).
  - by rewrite Z.mul_pow2_bits_low by lia.
  - unfold is_byte in Hb. rewrite <- (Z.mod_small b (2 ^ 8)) by lia. rewrite Z.mod_pow2_bits_high by lia. apply andb_false_r.
Qed.

Lemma crc_lin_word w : Forall is_byte w -> forall v, crc_lin v w = Nat.iter (8 * length w) crc_bit (Z.lxor v (le_val w)).
Proof.
  induction w as [|b w IH]; intros Hw v.
  { cbn. change (le_val []) with 0. by rewrite Z.lxor_0_r. }
  apply Forall_cons in Hw as [Hb Hw].
  assert (HL : 0 <= le_val w) by apply (le_val_range w Hw).
  rewrite crc_lin_cons, IH by done. unfold crc_byte.
  rewrite <- (crc_shift_byte (le_val w)) at 1 by done. rewrite <- crc_iter_lxor, <- Nat.iter_add.
  assert (E : Z.lxor (Z.lxor v b) (le_val w * 256) = Z.lxor v (le_val (b :: w))).
  { rewrite Z.lxor_assoc. f_equal. change (le_val (b :: w)) with (b + 256 * le_val w).
    rewrite Z.lxor_comm, low_lxor by done. lia. }
  rewrite E. replace (8 * length (b :: w))%nat with (8 * length w + 8)%nat by (cbn [length]; lia). reflexivity.
Qed.

Lemma crc_lin_zeros n v : crc_lin v (replicate n 0) = Nat.iter (8 * n) crc_bit v.
Proof.
  revert v. induction n as [|n IH]; intros v; [done|]. cbn [replicate].
  rewrite crc_lin_cons, IH. unfold crc_byte. rewrite Z.lxor_0_r, <- Nat.iter_add.
  replace (8 * S n)%nat with (8 * n + 8)%nat by lia. reflexivity.
Qed.

Lemma zip_lxor_same (d : list Z) : zip_with Z.lxor d d = replicate (length d) 0.
Proof. induction d as [|b d IH]; [done|]. cbn. by rewrite Z.lxor_nilpotent, IH. Qed.

Lemma crc_lin_app c d1 d2 : crc_lin c (d1 ++ d2) = crc_lin (crc_lin c d1) d2.
Proof. apply fold_left_app. Qed.

Lemma crc_not_twice x : crc_not (crc_not x) = x.
Proof. unfold crc_not. by rewrite Z.lxor_assoc, Z.lxor_nilpotent, Z.lxor_0_r. Qed.

Lemma crc32_app c d1 d2 : crc32_update (crc32_update c d1) d2 = crc32_update c (d1 ++ d2).
Proof. unfold crc32_update. rewrite crc_not_twice. f_equal. symmetry. apply (fold_left_app crc_byte). Qed.

Lemma le_val_zero w : Forall is_byte w -> le_val w = 0 -> w = replicate (length w) 0.
Proof.
  induction w as [|b w IH]; intros Hw; [done|]. apply Forall_cons in Hw as [Hb Hw].
  change (le_val (b :: w)) with (b + 256 * le_val w). unfold is_byte in Hb. pose proof (le_val_range w Hw). intros E.
  cbn [length replicate]. f_equal; [lia|]. apply IH; [done|lia].
Qed.

Lemma zip_lxor_zero (w w' : list Z) : length w = length w' -> zip_with Z.lxor w w' = replicate (length w) 0 -> w = w'.
Proof.
  revert w'. induction w as [|b w IH]; intros [|b' w'] Hl E; try done. cbn in E, Hl. injection E as E1 E2.
  f_equal; [by apply Z.lxor_eq|]. apply IH; [lia|done].
Qed.

Lemma lxor_byte x y : is_byte x -> is_byte y -> is_byte (Z.lxor x y).
Proof.
  unfold is_byte. intros Hx Hy. assert (E : Z.lxor x y mod 2 ^ 8 = Z.lxor x y); [|rewrite <- E; by apply Z.mod_pos_bound].
  apply Z.bits_inj'. intros i Hi. destruct (decide (i < 8)); [by rewrite Z.mod_pow2_bits_low by lia|].
  rewrite Z.mod_pow2_bits_high, Z.lxor_spec by lia.
  rewrite <- (Z.mod_small x (2 ^ 8)), <- (Z.mod_small y (2 ^ 8)) by lia. by rewrite !Z.mod_pow2_bits_high by lia.
Qed.

Lemma zip_lxor_bytes w w' : Forall is_byte w -> Forall is_byte w' -> Forall is_byte (zip_with Z.lxor w w').
Proof.
  intros Hw. revert w'. induction Hw as [|b w Hb Hw IH]; intros [|b' w'] H'; try by constructor.
  apply Forall_cons in H' as [Hb' H']. constructor; [by apply lxor_byte|by apply IH].
Qed.

Lemma le_val_word w : Forall is_byte w -> (length w <= 4)%nat -> 0 <= le_val w < 2 ^ 32.
Proof.
  intros Hw Hl. pose proof (le_val_range w Hw) as [H0 H1]. split; [done|]. eapply Z.lt_le_trans; [exact H1|].
  change (2 ^ 32) with (256 ^ 4). apply Z.pow_le_mono_r; lia.
Qed.

(** The checksum sees every short burst: two blocks of data that differ only inside a window of at
    most four consecutive bytes never have the same CRC-32, whatever precedes and follows the window. *)
Theorem crc32_detects_burst crc d w w' e :
  Forall is_byte w -> Forall is_byte w' -> length w = length w' -> (length w <= 4)%nat -> w <> w' ->
  crc32_update crc (d ++ w ++ e) <> crc32_update crc (d ++ w' ++ e).
Proof.
  intros Hw Hw' Hl H4 Hne E. apply Hne, zip_lxor_zero; [done|].
  assert (Hx : length (zip_with Z.lxor w w') = length w) by (rewrite length_zip_with; lia).
  rewrite <- Hx. apply le_val_zero; [by apply zip_lxor_bytes|].
  assert (Hb : 0 <= le_val (zip_with Z.lxor w w') < 2 ^ 32).
  { apply le_val_word; [by apply zip_lxor_bytes|by rewrite Hx]. }
  apply (crc_iter_zero (8 * length (zip_with Z.lxor w w'))); [done|].
  apply (crc_iter_zero (8 * length e)); [by apply crc_iter_range|].
  rewrite <- (Z.lxor_0_l (le_val _)), <- crc_lin_word, <- crc_lin_zeros, <- crc_lin_app by by apply zip_lxor_bytes.
  rewrite <- zip_lxor_same, <- zip_with_app by done. rewrite <- (Z.lxor_nilpotent (crc_lin (crc_not crc) d)).
  rewrite crc_lin_lxor by (rewrite !length_app; lia). rewrite <- !crc_lin_app.
  apply (f_equal crc_not) in E. unfold crc32_update in E. rewrite !crc_not_twice in E. fold (crc_lin (crc_not crc) (d ++ w ++ e)) in E.
  fold (crc_lin (crc_not crc) (d ++ w' ++ e)) in E. rewrite E. by rewrite !Z.lxor_nilpotent.
Qed.

Lemma crc32_detects_burst_witness :
  crc32_update 0 ([69; 70; 73] ++ [1; 2; 3; 4] ++ [32; 80]) <> crc32_update 0 ([69; 70; 73] ++ [1; 255; 0; 5] ++ [32; 80]).
Proof.
  apply crc32_detects_burst; [repeat constructor; unfold is_byte; lia|repeat constructor; unfold is_byte; lia|done|done|done].
Defined.

(** ** The search *)
Section Search.
Context (rd : Z -> list Z).

(** Entry [k] of the table of header [h], and all of them in order. *)
Definition entry_at (h : gpt_header) (k : nat) : list Z :=
  take 128 (drop (128 * (k mod 4)) (rd (u64 (gh_entries_lba h + Z.of_nat (k / 4))))).
Definition table (h : gpt_header) : list (list Z) := entry_at h <$> seq 0 (Z.to_nat (gh_entry_count h)).

Definition usable (h : gpt_header) (e : list Z) : Prop :=
  gh_first_usable_lba h <= first_lba e <= last_lba e /\ last_lba e <= gh_last_usable_lba h.

(** What a partition table names: the entries of the xv6fs type and name are in the usable range, and their
    first blocks are zero but for the last one. *)
Definition names_xv6fs (h : gpt_header) (es : list (list Z)) (lba : Z) : Prop :=
  let ms := filter (fun e => is_xv6fs e = true) es in
  Forall (usable h) ms /\ exists z, first_lba <$> ms = replicate z 0 ++ [lba].

Fixpoint scan_list (h : gpt_header) (es : list (list Z)) (m : Z) : string + Z :=
  match es with
  | [] => inr m
  | e :: es' =>
      if negb (is_xv6fs e) then scan_list h es' m
      else if negb (m =? 0) then inl "gpt: duplicate xv6fs partition"
      else if (first_lba e <? gh_first_usable_lba h) || (gh_last_usable_lba h <? last_lba e) || (last_lba e <? first_lba e)
      then inl "gpt: xv6fs outside usable range"
      else scan_list h es' (first_lba e)
  end.

Lemma scan_slots_list {S} h sector slots m (s : S) :
  scan_slots h sector slots m s =
  match scan_list h ((fun s => take 128 (drop (128 * s) sector)) <$> slots) m with inl msg => Panic msg s | inr m' => Ret m' s end.
Proof.
  revert m. induction slots as [|slot slots IH]; intros m; [done|]. rewrite fmap_cons. cbn [scan_slots scan_list].
  repeat (destruct (negb _); [by rewrite ?IH|]). destruct (_ || _ || _); [done|by rewrite IH].
Qed.

Lemma scan_list_app h es es' m :
  scan_list h (es ++ es') m = match scan_list h es m with inl msg => inl msg | inr m' => scan_list h es' m' end.
Proof.
  revert m. induction es as [|e es IH]; intros m; [done|]. cbn [app scan_list].
  by repeat (case_match; [done || apply IH|]); try apply IH; repeat case_match.
Qed.

(** After a match no other is accepted. *)
Lemma scan_list_taken h es m m' : m <> 0 ->
  scan_list h es m = inr m' <-> m' = m /\ filter (fun e => is_xv6fs e = true) es = [].
Proof.
  intros Hm. induction es as [|e es IH]; cbn [scan_list].
  { split; [by intros [= ->]|by intros [-> _]]. }
  rewrite filter_cons. destruct (is_xv6fs e); cbn [negb]; [|by rewrite IH].
  destruct (m =? 0) eqn:E; [lia|]. cbn. split; [done|by intros [_ ?]].
Qed.

Lemma usable_test h e :
  (first_lba e <? gh_first_usable_lba h) || (gh_last_usable_lba h <? last_lba e) || (last_lba e <? first_lba e) = false
  <-> usable h e.
Proof. unfold usable. lia. Qed.

Lemma scan_list_names h es lba : lba <> 0 -> scan_list h es 0 = inr lba <-> names_xv6fs h es lba.
Proof.
  intros Hl. unfold names_xv6fs. induction es as [|e es IH]; cbn [scan_list].
  { split; [intros [= ?]; lia|]. intros [_ [z E]]. by destruct z. }
  rewrite filter_cons. destruct (is_xv6fs e); cbn [negb]; [|by rewrite IH].
  change (0 =? 0) with true. cbn [negb]. rewrite decide_True by done.
  destruct (_ || _ || _) eqn:Eu.
  { split; [done|]. intros [Hu _]. apply Forall_cons in Hu as [Hu%usable_test _]. congruence. }
  apply usable_test in Eu. rewrite fmap_cons, Forall_cons. destruct (decide (first_lba e = 0)) as [E0|E0].
  - rewrite E0, IH. split.
    + intros [Hf [z Ez]]. split; [done|]. exists (S z). by rewrite Ez.
    + intros [[_ Hf] [[|z] Ez]]; [by injection Ez as Ez|]. split; [done|]. exists z. by injection Ez as Ez.
  - rewrite scan_list_taken by done. split.
    + intros [-> ->]. split; [done|]. by exists 0%nat.
    + intros [_ [[|z] Ez]]; injection Ez as Ez1 Ez2; [|lia]. split; [done|]. by apply fmap_nil_inv in Ez2.
Qed.

Lemma take_slots (s : list Z) n : (128 * n <= length s)%nat ->
  take (128 * n) s = concat ((fun k => take 128 (drop (128 * k) s)) <$> seq 0 n).
Proof.
  induction n as [|n IH]; intros Hn; [done|]. rewrite seq_S, fmap_app, concat_app, <- IH by lia.
  cbn [fmap list_fmap concat Nat.add]. rewrite app_nil_r.
  rewrite <- (take_drop (128 * n) s) at 1. rewrite take_app_ge by (rewrite length_take; lia).
  f_equal. f_equal. rewrite length_take. lia.
Qed.

Context (Hrd : forall l, length (rd l) = SECTOR_SIZE).

Lemma entry_group h i c : (i mod 4 = 0 -> c <= 4 ->
  entry_at h <$> seq i c = (fun k => take 128 (drop (128 * k) (rd (u64 (gh_entries_lba h + Z.of_nat i / 4))))) <$> seq 0 c)%nat.
Proof.
  intros Hi Hc. rewrite <- (Nat.add_0_r i) at 1. rewrite <- fmap_add_seq, <- list_fmap_compose.
  apply list_fmap_ext. intros k x Hk. apply lookup_seq in Hk as [-> Hk]. unfold compose, entry_at. rewrite Nat.add_0_l.
  assert (Em : ((i + k) mod 4 = k)%nat) by (rewrite Nat.Div0.add_mod, Hi, Nat.add_0_l, Nat.Div0.mod_mod, Nat.mod_small; lia).
  assert (Ed : ((i + k) / 4 = i / 4)%nat).
  { pose proof (Nat.div_mod i 4 ltac:(lia)). pose proof (Nat.div_mod (i + k) 4 ltac:(lia)). lia. }
  rewrite Em, Ed, Nat2Z.inj_div. done.
Qed.

(** The loop over the table, when [read] gives the sectors [rd] and keeps [Inv] *)
Context {S : Type} (read : Z -> M S (list Z)) (Inv : S -> Prop) (may : Prop).
Context (Hread : forall l s, 0 <= l -> Inv s -> runs may (read l) s (fun d s' => d = rd l /\ Inv s')).
Lemma scan_sectors_spec h fuel : forall (i : nat) crc m s, let n := Z.to_nat (gh_entry_count h) in
  let scan := scan_list h (entry_at h <$> seq i (n - i)) m in
  0 <= gh_entry_count h -> (n - i <= fuel)%nat -> (i mod 4 = 0 \/ i = n)%nat -> (i <= n)%nat -> Inv s ->
  runs (may \/ exists msg, scan = inl msg) (scan_sectors read fuel h (Z.of_nat i) crc m) s
    (fun r s' => Inv s' /\ r.1 = crc32_update crc (concat (entry_at h <$> seq i (n - i))) /\ scan = inr r.2).
Proof.
  induction fuel as [|fuel IH]; intros i crc m s n scan H0 Hf Hi Hn Hs; cbn [scan_sectors];
    (destruct (Z.leb_spec (gh_entry_count h) (Z.of_nat i)) as [Hd|Hd];
     [apply runs_ret; subst scan; replace (n - i)%nat with 0%nat by lia; split_and!; [done| |done]; unfold crc32_update; cbn; by rewrite crc_not_twice|]); [lia|].
  assert (Hi' : (i mod 4 = 0)%nat) by lia. set (c := (Nat.min (n - i) 4)%nat).
  assert (Ec : Z.min (gh_entry_count h - Z.of_nat i) 4 = Z.of_nat c) by lia.
  eapply runs_bind; [eapply runs_may; [|apply Hread; [by apply Z.mod_pos_bound|done]]; by left|]. cbv beta. intros ? s1 [-> Hs1].
  rewrite Ec, Nat2Z.id. replace (Z.to_nat (Z.of_nat c * GPT_ENTRY_SIZE)) with (128 * c)%nat by (unfold GPT_ENTRY_SIZE; lia).
  rewrite take_slots by (rewrite Hrd; unfold SECTOR_SIZE; lia). rewrite <- (entry_group h i c) by lia.
  subst scan. replace (n - i)%nat with (c + (n - (i + c)))%nat by lia. rewrite seq_app, fmap_app, concat_app, scan_list_app, <- crc32_app.
  unfold runs at 1, bind at 1. rewrite scan_slots_list, <- (entry_group h i c) by lia.
  destruct (scan_list h (entry_at h <$> seq i c) m) as [msg|m']; [right; by exists msg|]. rewrite <- Nat2Z.inj_add.
  apply IH; [done|lia| |lia|done]. destruct (decide (c = 4)%nat) as [->|Hc]; [left|right; lia]. by rewrite Nat.Div0.add_mod, Hi'.
Qed.
End Search.

(** The disk [rd] vouches for the partition at [lba]: the protective MBR and the primary header are valid, the
    header's checksum and the checksum over the whole entry table are right, and among all entries the xv6fs
    ones lie in the usable range and give [lba], which is not zero. *)
Definition vouched (rd : Z -> list Z) (lba : Z) : Prop :=
  let sector := rd 1 in let h := header_of_bytes sector in
  mbr_ok (rd 0) = true /\ header_ok h = true /\
  crc32_update 0 (take (Z.to_nat (gh_header_size h)) (put_le 4 16 0 sector)) = gh_header_crc32 h /\
  crc32_update 0 (concat (table rd h)) = gh_entries_crc32 h /\
  lba <> 0 /\ names_xv6fs h (table rd h) lba.

(** The search, with a reader that may panic *)
Lemma gpt_find_runs {S} (read : Z -> M S (list Z)) rd (Inv : S -> Prop) may s :
  (forall l, length (rd l) = SECTOR_SIZE /\ Forall is_byte (rd l)) ->
  (forall l s, 0 <= l -> Inv s -> runs may (read l) s (fun d s' => d = rd l /\ Inv s')) -> Inv s ->
  runs (may \/ ~ exists lba, vouched rd lba) (gpt_find_xv6fs read) s (fun lba s' => vouched rd lba /\ Inv s').
Proof.
  intros Hrd Hread Hs. unfold gpt_find_xv6fs, vouched.
  eapply runs_bind; [eapply runs_may; [|apply Hread; [lia|done]]; by left|]. cbv beta. intros ? s1 [-> Hs1].
  destruct (mbr_ok (rd 0)); cbn [negb]; [|apply runs_panic; right; naive_solver].
  eapply runs_bind; [eapply runs_may; [|apply Hread; [lia|done]]; by left|]. cbv beta. intros ? s2 [-> Hs2].
  set (sector := rd 1). set (h := header_of_bytes sector). cbn zeta.
  destruct (header_ok h); cbn [negb]; [|apply runs_panic; right; naive_solver].
  destruct (Z.eqb_spec (crc32_update 0 (take (Z.to_nat (gh_header_size h)) (put_le 4 16 0 sector))) (gh_header_crc32 h));
    cbn [negb]; [|apply runs_panic; right; naive_solver].
  assert (H0 : 0 <= gh_entry_count h) by apply le_val_range, Forall_take, Forall_drop, Hrd.
  pose proof (scan_sectors_spec rd (fun l => proj1 (Hrd l)) read Inv may Hread h (Z.to_nat (gh_entry_count h)) 0 0 0 s2 H0) as E. cbn zeta in E.
  rewrite Nat.sub_0_r in E. change (Z.of_nat 0) with 0 in E. specialize (E ltac:(lia) (or_introl eq_refl) ltac:(lia) Hs2). fold (table rd h) in E.
  pose proof (scan_list_names h (table rd h)) as Hn. eapply runs_bind; [eapply runs_may; [|exact E]|].
  { intros [?|[msg Em]]; [by left|right]. intros (lba & _ & _ & _ & _ & Hl & Hv). apply Hn in Hv; [congruence|done]. }
  cbv beta. intros [crc m] s3 (Hs3 & -> & Em). cbn [fst snd] in *.
  destruct (Z.eqb_spec (crc32_update 0 (concat (table rd h))) (gh_entries_crc32 h)); cbn [negb]; [|apply runs_panic; right; naive_solver].
  destruct (Z.eqb_spec m 0) as [->|Hm].
  - apply runs_panic. right. intros (lba & _ & _ & _ & _ & Hl & Hv). apply Hn in Hv; [congruence|done].
  - apply runs_ret. split; [|done]. do 5 (split; [done|]). by apply Hn.
Qed.

(** C32.  The boot disk's partition is found exactly when the table vouches for it.  With any reader of the
    disk, gpt_find_xv6fs ends; what it returns is a partition that the disk vouches for (valid protective MBR
    and primary header, right checksums of the header and of the whole entry table, every xv6fs entry in the
    usable range, one of them given and not zero); and it panics only if a read does, or no partition is
    vouched for. *)
Theorem gpt_find_xv6fs_correct {S} (read : Z -> M S (list Z)) rd (Inv : S -> Prop) may s :
  (forall l, length (rd l) = SECTOR_SIZE /\ Forall is_byte (rd l)) ->
  (forall l s, 0 <= l -> Inv s -> runs may (read l) s (fun d s' => d = rd l /\ Inv s')) -> Inv s ->
  runs (may \/ ~ exists lba, vouched rd lba) (gpt_find_xv6fs read) s (fun lba s' => vouched rd lba /\ Inv s').
Proof. apply gpt_find_runs. Qed.

(** A disk with a table of two entries, the second one xv6fs in blocks 34 to 99. *)
Definition ex_entry : list Z :=
  type_guid ++ replicate 16 7 ++ le_bytes 8 34 ++ le_bytes 8 99 ++ replicate 8 0 ++
  concat (le_bytes 2 <$> part_name) ++ replicate 62 0.
Definition ex_entries : list Z := replicate 128 0 ++ ex_entry ++ replicate 256 0.
Definition ex_header (crc ecrc : Z) : list Z :=
  EFI_PART ++ le_bytes 4 0x00010000 ++ le_bytes 4 92 ++ le_bytes 4 crc ++ le_bytes 4 0 ++ le_bytes 8 1 ++ le_bytes 8 127 ++
  le_bytes 8 34 ++ le_bytes 8 100 ++ replicate 16 9 ++ le_bytes 8 2 ++ le_bytes 4 2 ++ le_bytes 4 128 ++ le_bytes 4 ecrc.
Definition ex_gpt_disk (l : Z) : list Z :=
  if l =? 0 then replicate 450 0 ++ [0xee] ++ replicate 59 0 ++ [0x55; 0xaa]
  else if l =? 1 then
    let ecrc := crc32_update 0 (take 256 ex_entries) in
    ex_header (crc32_update 0 (ex_header 0 ecrc)) ecrc ++ replicate 420 0
  else ex_entries.

Lemma ex_gpt_sectors l : length (ex_gpt_disk l) = SECTOR_SIZE /\ Forall is_byte (ex_gpt_disk l).
Proof.
  assert (Hb : forall s, forallb (fun b => (0 <=? b) && (b <? 256)) s = true -> Forall is_byte s).
  { intros s. rewrite forallb_forall, Forall_forall. intros Hs x Hx%list_elem_of_In. specialize (Hs x Hx). unfold is_byte. lia. }
  unfold ex_gpt_disk. destruct (l =? 0); [|destruct (l =? 1)]; (split; [|apply Hb]); vm_compute; reflexivity.
Qed.
Lemma gpt_find_xv6fs_correct_witness :
  gpt_find_xv6fs (fun l => ret (ex_gpt_disk l)) tt = Ret 34 tt /\ vouched ex_gpt_disk 34.
Proof.
  assert (E : gpt_find_xv6fs (fun l => ret (ex_gpt_disk l)) tt = Ret 34 tt) by (vm_compute; reflexivity).
  split; [exact E|]. assert (Hr : forall l s, 0 <= l -> True -> runs False (ret (ex_gpt_disk l)) s (fun d (_ : unit) => d = ex_gpt_disk l /\ True)) by (intros l s _ _; apply runs_ret; split; [reflexivity|exact I]).
  pose proof (gpt_find_xv6fs_correct (fun l => ret (ex_gpt_disk l)) ex_gpt_disk (fun _ => True) False tt ex_gpt_sectors Hr I) as H.
  exact (proj1 (runs_Ret _ _ _ _ _ _ H E)).
Defined.
