(* ===== verification/Sh.v ===== *)
(** * The shell (platform/visionfive2/user/sh.c)

    The command parser, with the pointers it leaves in the tree as indices of the line
    buffer and the NULs it writes there, and the execution of a parsed command as the
    tree of processes it forks.  malloc is taken to succeed, as the code does. *)

From stdpp Require Import base list numbers strings.
From S2P Require Import Prelude Params CString.

(** ** struct cmd and its variants, over the type of a string *)
Inductive cmd (W : Type) : Type :=
| EXEC (argv : list W)
| REDIR (sub : cmd W) (file : W) (mode fd : Z)
| PIPE (left right : cmd W)
| LIST (left right : cmd W)
| BACK (sub : cmd W).
Arguments EXEC {W} argv.
Arguments REDIR {W} sub file mode fd.
Arguments PIPE {W} left right.
Arguments LIST {W} left right.
Arguments BACK {W} sub.

Definition MAXARGS : nat := 10.
Definition o_rdonly : Z := 0x000.
Definition o_wronly : Z := 0x001.
Definition o_create : Z := 0x200.
Definition o_trunc : Z := 0x400.

(** The characters of the syntax. *)
Definition ch_lt : Z := 60.
Definition ch_gt : Z := 62.
Definition ch_bar : Z := 124.
Definition ch_amp : Z := 38.
Definition ch_semi : Z := 59.
Definition ch_open : Z := 40.
Definition ch_close : Z := 41.
Definition ch_plus : Z := 43.
Definition ch_a : Z := 97.

Definition whitespace : list Z := [32; 9; 13; 10; 11].
Definition symbols : list Z := [ch_lt; ch_bar; ch_gt; ch_amp; ch_semi; ch_open; ch_close].

(** strchr(s, c) != 0 for a string without NUL *)
Definition strchr (s : list Z) (c : Z) : bool := existsb (Z.eqb c) s.

(** The outcome of a parse: panic exits the process. *)
Inductive pres (A : Type) : Type :=
| POk (a : A)
| PPanic (msg : string)
| PFuel.
Arguments POk {A} a.
Arguments PPanic {A} msg.
Arguments PFuel {A}.
Definition pbind {A B} (m : pres A) (k : A -> pres B) : pres B :=
  match m with POk a => k a | PPanic msg => PPanic msg | PFuel => PFuel end.
Notation "'let?' ' p := m 'in' k" := (pbind m (fun x => match x with p => k end))
  (at level 10, p pattern, m at level 100, k at level 200) : xv6_scope.

(** A redirection found by parseredirs: what redircmd stores besides the command. *)
Record redir (W : Type) : Type := mkRedir { r_file : W; r_mode : Z; r_fd : Z }.
Arguments mkRedir {W} _ _ _.
Arguments r_file {W} _.
Arguments r_mode {W} _.
Arguments r_fd {W} _.
Definition redircmd {W} (sub : cmd W) (r : redir W) : cmd W := REDIR sub (r_file r) (r_mode r) (r_fd r).
(** [cmd] wrapped in the redirections [rs], the first one innermost. *)
Definition redirected {W} (c : cmd W) (rs : list (redir W)) : cmd W := fold_left redircmd rs c.

(** ** Parsing: [buf] is the line buffer, [es] the index of its NUL; a word is q and eq *)
Section Parse.
Context (buf : list Z) (es : nat).

Definition buf_at (s : nat) : Z := default 0 (buf !! s).

(** while (s < es && p(s[0])) s++; with n = es - s *)
Fixpoint skip_n (p : Z -> bool) (n s : nat) : nat :=
  match n with
  | O => s
  | S n' => if p (buf_at s) then skip_n p n' (S s) else s
  end.
Definition skip (p : Z -> bool) (s : nat) : nat := skip_n p (es - s) s.
Definition skipws (s : nat) : nat := skip (strchr whitespace) s.

(** gettoken: the token, q, eq and the new s *)
Definition gettoken (s : nat) : Z * (nat * nat) * nat :=
  let q := skipws s in
  let c := buf_at q in
  let '(ret, eq) :=
    if c =? 0 then (c, q)
    else if strchr [ch_bar; ch_open; ch_close; ch_semi; ch_amp; ch_lt] c then (c, S q)
    else if c =? ch_gt then if buf_at (S q) =? ch_gt then (ch_plus, S (S q)) else (c, S q)
    else (ch_a, skip (fun c => negb (strchr whitespace c) && negb (strchr symbols c)) q) in
  (ret, (q, eq), skipws eq).

Definition peek (s : nat) (toks : list Z) : nat * bool :=
  let s := skipws s in
  (s, negb (buf_at s =? 0) && strchr toks (buf_at s)).

(** parseredirs: the command is [rs] around the one it was called with *)
Fixpoint parseredirs (fuel : nat) (rs : list (redir (nat * nat))) (s : nat) : pres (list (redir (nat * nat)) * nat) :=
  match fuel with
  | O => PFuel
  | S fuel' =>
      let '(s, more) := peek s [ch_lt; ch_gt] in
      if negb more then POk (rs, s)
      else
        let '(tok, _, s) := gettoken s in
        let '(tok', w, s) := gettoken s in
        if negb (tok' =? ch_a) then PPanic "missing file for redirection"
        else
          let rs :=
            if tok =? ch_lt then rs ++ [mkRedir w o_rdonly 0]
            else if tok =? ch_gt then rs ++ [mkRedir w (Z.lor (Z.lor o_wronly o_create) o_trunc) 1]
            else if tok =? ch_plus then rs ++ [mkRedir w (Z.lor o_wronly o_create) 1]
            else rs in
          parseredirs fuel' rs s
  end.

(** The loop of parseexec over the arguments.  The execcmd node is shared: the redirections parsed so far
    point to it, and see the arguments that are stored in it later. *)
Fixpoint parse_args (fuel : nat) (argv : list (nat * nat)) (rs : list (redir (nat * nat))) (s : nat) : pres (cmd (nat * nat) * nat) :=
  match fuel with
  | O => PFuel
  | S fuel' =>
      let '(s, stop) := peek s [ch_bar; ch_close; ch_amp; ch_semi] in
      if stop then POk (redirected (EXEC argv) rs, s)
      else
        let '(tok, w, s) := gettoken s in
        if tok =? 0 then POk (redirected (EXEC argv) rs, s)
        else if negb (tok =? ch_a) then PPanic "syntax"
        else
          let argv := argv ++ [w] in
          if (MAXARGS <=? length argv)%nat then PPanic "too many args"
          else let? '(rs, s) := parseredirs (S es) rs s in parse_args fuel' argv rs s
  end.

(** The while loop of parseline. *)
Fixpoint parse_back (fuel : nat) (c : cmd (nat * nat)) (s : nat) : pres (cmd (nat * nat) * nat) :=
  match fuel with
  | O => PFuel
  | S fuel' =>
      let '(s, amp) := peek s [ch_amp] in
      if amp then let '(_, _, s) := gettoken s in parse_back fuel' (BACK c) s else POk (c, s)
  end.

Fixpoint parseline (fuel : nat) (s : nat) : pres (cmd (nat * nat) * nat) :=
  match fuel with
  | O => PFuel
  | S fuel' =>
      let? '(c, s) := parsepipe fuel' s in
      let? '(c, s) := parse_back (S es) c s in
      let '(s, semi) := peek s [ch_semi] in
      if semi then
        let '(_, _, s) := gettoken s in
        let? '(c', s) := parseline fuel' s in POk (LIST c c', s)
      else POk (c, s)
  end
with parsepipe (fuel : nat) (s : nat) : pres (cmd (nat * nat) * nat) :=
  match fuel with
  | O => PFuel
  | S fuel' =>
      let? '(c, s) := parseexec fuel' s in
      let '(s, bar) := peek s [ch_bar] in
      if bar then
        let '(_, _, s) := gettoken s in
        let? '(c', s) := parsepipe fuel' s in POk (PIPE c c', s)
      else POk (c, s)
  end
with parseexec (fuel : nat) (s : nat) : pres (cmd (nat * nat) * nat) :=
  match fuel with
  | O => PFuel
  | S fuel' =>
      let '(s, block) := peek s [ch_open] in
      if block then parseblock fuel' s
      else
        let? '(rs, s) := parseredirs (S es) [] s in
        parse_args (S es) [] rs s
  end
with parseblock (fuel : nat) (s : nat) : pres (cmd (nat * nat) * nat) :=
  match fuel with
  | O => PFuel
  | S fuel' =>
      let '(s, block) := peek s [ch_open] in
      if negb block then PPanic "parseblock"
      else
        let '(_, _, s) := gettoken s in
        let? '(c, s) := parseline fuel' s in
        let '(s, close) := peek s [ch_close] in
        if negb close then PPanic "syntax - missing )"
        else
          let '(_, _, s) := gettoken s in
          let? '(rs, s) := parseredirs (S es) [] s in
          POk (redirected c rs, s)
  end.
End Parse.

(** nulterminate: *eq = 0 for the words of the tree, in the order of the code *)
Fixpoint nulterminate (c : cmd (nat * nat)) (buf : list Z) : list Z :=
  match c with
  | EXEC argv => fold_left (fun b (w : nat * nat) => <[snd w := 0]> b) argv buf
  | REDIR sub file _ _ => <[snd file := 0]> (nulterminate sub buf)
  | PIPE l r | LIST l r => nulterminate r (nulterminate l buf)
  | BACK sub => nulterminate sub buf
  end.

(** parsecmd: the tree, and the buffer its pointers point into *)
Definition parsecmd (buf : list Z) : pres (cmd (nat * nat) * list Z) :=
  let es := Z.to_nat (strlen buf) in
  let? '(c, s) := parseline buf es (4 * es + 4) 0 in
  let '(s, _) := peek buf es s [] in
  if negb (s =? es)%nat then PPanic "syntax" else POk (c, nulterminate c buf).

(** ** Descriptor tables: what the system calls of runcmd do to the caller's table (kernel/sysfile.c) *)
Inductive fd_file : Type :=
| Opened (name : list Z)
| PipeRead (id : list nat)
| PipeWrite (id : list nat).
Definition fdtable : Type := list (option fd_file).

(** fdalloc: the lowest free descriptor *)
Fixpoint fd_alloc (f : fd_file) (t : fdtable) : option (nat * fdtable) :=
  match t with
  | [] => None
  | None :: t' => Some (0%nat, Some f :: t')
  | Some g :: t' => match fd_alloc f t' with Some (fd, t'') => Some (S fd, Some g :: t'') | None => None end
  end.
Definition fd_close (fd : nat) (t : fdtable) : fdtable := <[fd := None]> t.
(** dup's result is not used *)
Definition fd_dup (fd : nat) (t : fdtable) : fdtable :=
  match t !! fd with
  | Some (Some f) => match fd_alloc f t with Some (_, t') => t' | None => t end
  | _ => t
  end.
Definition fd_pipe (id : list nat) (t : fdtable) : option (nat * nat * fdtable) :=
  match fd_alloc (PipeRead id) t with
  | None => None
  | Some (fd0, t) => match fd_alloc (PipeWrite id) t with None => None | Some (fd1, t) => Some (fd0, fd1, t) end
  end.

(** ** runcmd

    What a process does from its call of runcmd on: exec a program with a descriptor table (and what follows
    if exec fails), fork, wait with the table it then has, complain on descriptor 2, exit. *)
Inductive ptree : Type :=
| Exec (argv : list (list Z)) (fds : fdtable) (failed : ptree)
| Fork (child parent : ptree)
| Wait (fds : fdtable) (k : ptree)
| Fprintf (msg : string) (k : ptree)
| Exit (status : Z).

Definition sh_panic (msg : string) : ptree := Fprintf msg (Exit 1).

(** A process is named by its place in the tree of forks, a pipe by the process that makes it.  Whether
    the kernel can fork, make a pipe or open a file is a parameter. *)
Section Runcmd.
Context (can_fork can_pipe : list nat -> bool) (opens : list Z -> Z -> option fd_file).

Definition fork1 (id : list nat) (child parent : ptree) : ptree :=
  if can_fork id then Fork child parent else sh_panic "fork".

Fixpoint runcmd (id : list nat) (c : cmd (list Z)) (fds : fdtable) : ptree :=
  match c with
  | EXEC argv =>
      match argv with
      | [] => Exit 1
      | _ => Exec argv fds (Fprintf "exec failed" (Exit 0))
      end
  | REDIR sub file mode fd =>
      let fds := fd_close (Z.to_nat fd) fds in
      match opens file mode with
      | Some f => match fd_alloc f fds with
                  | Some (_, fds) => runcmd (id ++ [1%nat]) sub fds
                  | None => Fprintf "open failed" (Exit 1)
                  end
      | None => Fprintf "open failed" (Exit 1)
      end
  | LIST l r =>
      fork1 (id ++ [0%nat]) (runcmd (id ++ [0%nat]) l fds)
        (Wait fds (runcmd (id ++ [1%nat]) r fds))
  | PIPE l r =>
      match (if can_pipe id then fd_pipe id fds else None) with
      | None => sh_panic "pipe"
      | Some (p0, p1, fds) =>
          fork1 (id ++ [0%nat]) (runcmd (id ++ [0%nat]) l (fd_close p1 (fd_close p0 (fd_dup p1 (fd_close 1 fds)))))
            (fork1 (id ++ [1%nat]) (runcmd (id ++ [1%nat]) r (fd_close p1 (fd_close p0 (fd_dup p0 (fd_close 0 fds)))))
               (let fds := fd_close p1 (fd_close p0 fds) in Wait fds (Wait fds (Exit 0))))
      end
  | BACK sub => fork1 (id ++ [0%nat]) (runcmd (id ++ [0%nat]) sub fds) (Exit 0)
  end.
End Runcmd.

(** ** The command loop: gets, getcmd and one round of main *)

(** gets(buf, max) from the bytes [input] that read delivers: buf, and the input that is left *)
Fixpoint gets_loop (room : nat) (input : list Z) : list Z * list Z :=
  match room, input with
  | S room', c :: input' =>
      if (c =? 10) || (c =? 13) then ([c], input')
      else let '(l, rest) := gets_loop room' input' in (c :: l, rest)
  | _, _ => ([], input)
  end.
Definition sh_gets (max : nat) (input : list Z) : list Z * list Z :=
  let '(l, rest) := gets_loop (max - 1) input in (l ++ [0], rest).

Definition LINEBUF : nat := 100.

Inductive action : Type :=
| Blank
| Chdir (path : list Z)
| Child (r : pres (cmd (nat * nat) * list Z))
| Eof.

(** The bytes after the leading blanks. *)
Fixpoint unblank (l : list Z) : list Z :=
  match l with
  | c :: l' => if (c =? 32) || (c =? 9) then unblank l' else l
  | [] => []
  end.

Definition main_round (input : list Z) : action * list Z :=
  let '(buf, rest) := sh_gets LINEBUF input in
  if nth 0 buf 0 =? 0 then (Eof, rest)
  else
    let cmd := unblank buf in
    (if nth 0 cmd 0 =? 10 then Blank
     else if (nth 0 cmd 0 =? 99) && (nth 1 cmd 0 =? 100) && (nth 2 cmd 0 =? 32)
     then Chdir (drop 3 (take (Z.to_nat (strlen cmd) - 1) cmd))
     else Child (parsecmd cmd), rest).
