(* ===== verification/ShSpec.v ===== *)
(** * The shell's parser decides its grammar

    A reference lexer and an inductive grammar of command lines; parsecmd returns the
    tree of the derivation, with NUL-terminated words, and panics exactly when there is
    none.  Then what a pipeline runs as. *)

From stdpp Require Import base list numbers strings.
From S2P Require Import Prelude Params CString Sh.

(** ** Tokens *)
Inductive tok : Type :=
| TW (w : list Z)
| TS (c : Z).

Definition is_ws (c : Z) : bool := strchr whitespace c.
Definition is_sym (c : Z) : bool := strchr symbols c.
Definition is_word (c : Z) : bool := negb (is_ws c) && negb (is_sym c).

Definition flush (w : list Z) : list tok := match w with [] => [] | _ => [TW w] end.
(** The tokens of a text, [w] being the word read so far. *)
Fixpoint lex (w l : list Z) : list tok :=
  match l with
  | [] => flush w
  | c :: l' =>
      if is_word c then lex (w ++ [c]) l'
      else flush w ++
        if is_ws c then lex [] l'
        else if c =? ch_gt then
          match l' with
          | c' :: l'' => if c' =? ch_gt then TS ch_plus :: lex [] l'' else TS ch_gt :: lex [] l'
          | [] => [TS ch_gt]
          end
        else TS c :: lex [] l'
  end.

(** ** The grammar *)
Inductive g_redir : list tok -> redir (list Z) -> Prop :=
| g_in w : g_redir [TS ch_lt; TW w] (mkRedir w o_rdonly 0)
| g_out w : g_redir [TS ch_gt; TW w] (mkRedir w (Z.lor (Z.lor o_wronly o_create) o_trunc) 1)
| g_append w : g_redir [TS ch_plus; TW w] (mkRedir w (Z.lor o_wronly o_create) 1).

(** Words and redirections in any order. *)
Inductive g_items : list tok -> list (list Z) -> list (redir (list Z)) -> Prop :=
| g_none : g_items [] [] []
| g_word w ts ws rs : g_items ts ws rs -> g_items (TW w :: ts) (w :: ws) rs
| g_red t r ts ws rs : g_redir t r -> g_items ts ws rs -> g_items (t ++ ts) ws (r :: rs).

Inductive g_line : list tok -> cmd (list Z) -> Prop :=
| g_end ts c n : g_pipe ts c -> g_line (ts ++ replicate n (TS ch_amp)) (Nat.iter n BACK c)
| g_seq ts c n ts' c' : g_pipe ts c -> g_line ts' c' ->
    g_line (ts ++ replicate n (TS ch_amp) ++ TS ch_semi :: ts') (LIST (Nat.iter n BACK c) c')
with g_pipe : list tok -> cmd (list Z) -> Prop :=
| g_last ts c : g_exec ts c -> g_pipe ts c
| g_bar ts c ts' c' : g_exec ts c -> g_pipe ts' c' -> g_pipe (ts ++ TS ch_bar :: ts') (PIPE c c')
with g_exec : list tok -> cmd (list Z) -> Prop :=
| g_simple ts ws rs : g_items ts ws rs -> (length ws < MAXARGS)%nat -> g_exec ts (redirected (EXEC ws) rs)
| g_block ts c ts' rs : g_line ts c -> g_items ts' [] rs ->
    g_exec (TS ch_open :: ts ++ TS ch_close :: ts') (redirected c rs).

Scheme g_line_ind' := Induction for g_line Sort Prop
with g_pipe_ind' := Induction for g_pipe Sort Prop
with g_exec_ind' := Induction for g_exec Sort Prop.
Combined Scheme grammar_ind from g_line_ind', g_pipe_ind', g_exec_ind'.

(** ** The parser on tokens: the functions of the code with the tokens left in place of the position *)
Definition t_peek (ts : list tok) (chars : list Z) : bool :=
  match ts with
  | TS c :: _ => strchr chars (if c =? ch_plus then ch_gt else c)
  | _ => false
  end.

Definition add_redir {W} (rs : list (redir W)) (t : Z) (w : W) : list (redir W) :=
  if t =? ch_lt then rs ++ [mkRedir w o_rdonly 0]
  else if t =? ch_gt then rs ++ [mkRedir w (Z.lor (Z.lor o_wronly o_create) o_trunc) 1]
  else if t =? ch_plus then rs ++ [mkRedir w (Z.lor o_wronly o_create) 1]
  else rs.

Section Tokens.
Context (N : nat).

Fixpoint t_redirs (fuel : nat) (rs : list (redir (list Z))) (ts : list tok) : pres (list (redir (list Z)) * list tok) :=
  match fuel with
  | O => PFuel
  | S fuel' =>
      if negb (t_peek ts [ch_lt; ch_gt]) then POk (rs, ts)
      else match ts with
           | TS t :: TW w :: ts' => t_redirs fuel' (add_redir rs t w) ts'
           | _ => PPanic "missing file for redirection"
           end
  end.

Fixpoint t_args (fuel : nat) (argv : list (list Z)) (rs : list (redir (list Z))) (ts : list tok) : pres (cmd (list Z) * list tok) :=
  match fuel with
  | O => PFuel
  | S fuel' =>
      if t_peek ts [ch_bar; ch_close; ch_amp; ch_semi] then POk (redirected (EXEC argv) rs, ts)
      else match ts with
           | [] => POk (redirected (EXEC argv) rs, [])
           | TS _ :: _ => PPanic "syntax"
           | TW w :: ts' =>
               if (MAXARGS <=? length (argv ++ [w]))%nat then PPanic "too many args"
               else let? '(rs, ts) := t_redirs N rs ts' in t_args fuel' (argv ++ [w]) rs ts
           end
  end.

Fixpoint t_back (fuel : nat) (c : cmd (list Z)) (ts : list tok) : pres (cmd (list Z) * list tok) :=
  match fuel with
  | O => PFuel
  | S fuel' => if t_peek ts [ch_amp] then t_back fuel' (BACK c) (tail ts) else POk (c, ts)
  end.

Fixpoint t_line (fuel : nat) (ts : list tok) : pres (cmd (list Z) * list tok) :=
  match fuel with
  | O => PFuel
  | S fuel' =>
      let? '(c, ts) := t_pipe fuel' ts in
      let? '(c, ts) := t_back N c ts in
      if t_peek ts [ch_semi] then let? '(c', ts) := t_line fuel' (tail ts) in POk (LIST c c', ts)
      else POk (c, ts)
  end
with t_pipe (fuel : nat) (ts : list tok) : pres (cmd (list Z) * list tok) :=
  match fuel with
  | O => PFuel
  | S fuel' =>
      let? '(c, ts) := t_exec fuel' ts in
      if t_peek ts [ch_bar] then let? '(c', ts) := t_pipe fuel' (tail ts) in POk (PIPE c c', ts)
      else POk (c, ts)
  end
with t_exec (fuel : nat) (ts : list tok) : pres (cmd (list Z) * list tok) :=
  match fuel with
  | O => PFuel
  | S fuel' =>
      if t_peek ts [ch_open] then t_block fuel' ts
      else let? '(rs, ts) := t_redirs N [] ts in t_args N [] rs ts
  end
with t_block (fuel : nat) (ts : list tok) : pres (cmd (list Z) * list tok) :=
  match fuel with
  | O => PFuel
  | S fuel' =>
      if negb (t_peek ts [ch_open]) then PPanic "parseblock"
      else
        let? '(c, ts) := t_line fuel' (tail ts) in
        if negb (t_peek ts [ch_close]) then PPanic "syntax - missing )"
        else let? '(rs, ts) := t_redirs N [] (tail ts) in POk (redirected c rs, ts)
  end.
End Tokens.

(** ** Peeking *)
Lemma strchr_spec chars c : strchr chars c = true <-> In c chars.
Proof.
  unfold strchr. rewrite existsb_exists. split; [|intros H; exists c; split; [done|apply Z.eqb_refl]].
  intros (x & Hx & E). apply Z.eqb_eq in E. by subst.
Qed.

Lemma t_peek_one ts x : x <> ch_gt -> t_peek ts [x] = true -> exists ts', ts = TS x :: ts'.
Proof.
  intros Hx. destruct ts as [|[w|c] ts]; cbn; [done|done|]. rewrite orb_false_r. intros E%Z.eqb_eq.
  destruct (Z.eqb_spec c ch_plus); [congruence|]. subst. by exists ts.
Qed.

(** The tokens end, or go on with one of [chars]. *)
Definition stops (chars : list Z) (ts : list tok) : Prop := ts = [] \/ t_peek ts chars = true.

Lemma stops_not A B ts : stops A ts -> forallb (fun x => negb (strchr B x)) A = true -> t_peek ts B = false.
Proof.
  intros [->|H] HB; [done|]. destruct ts as [|[w|c] ts]; try done. cbn [t_peek] in *.
  rewrite forallb_forall in HB. apply strchr_spec in H. specialize (HB _ H). by apply negb_true_iff in HB.
Qed.

Lemma stops_sub A B ts : stops A ts -> forallb (strchr B) A = true -> stops B ts.
Proof.
  intros [->|H] HB; [by left|right]. destruct ts as [|[w|c] ts]; try done. cbn [t_peek] in *.
  rewrite forallb_forall in HB. apply strchr_spec in H. by apply HB.
Qed.

(** ** What the token parser accepts is in the grammar *)
Lemma g_items_app ts1 ws1 rs1 ts2 ws2 rs2 :
  g_items ts1 ws1 rs1 -> g_items ts2 ws2 rs2 -> g_items (ts1 ++ ts2) (ws1 ++ ws2) (rs1 ++ rs2).
Proof.
  intros H1 H2. induction H1 as [|w ts ws rs _ IH|t r ts ws rs Hr _ IH]; [done|by apply g_word|].
  rewrite <- app_assoc. by apply g_red.
Qed.

Lemma add_redir_grammar rs t (w : list Z) ts : t_peek (TS t :: ts) [ch_lt; ch_gt] = true ->
  exists r, add_redir rs t w = rs ++ [r] /\ g_redir [TS t; TW w] r.
Proof.
  unfold add_redir. cbn. destruct (Z.eqb_spec t ch_plus) as [->|H1].
  { intros _. eexists. split; [done|apply g_append]. }
  rewrite orb_false_r. intros [->%Z.eqb_eq| ->%Z.eqb_eq]%orb_true_iff; eexists; (split; [done|constructor]).
Qed.

Lemma t_redirs_sound fuel : forall rs ts rs' ts', t_redirs fuel rs ts = POk (rs', ts') ->
  exists ts1 rs1, ts = ts1 ++ ts' /\ rs' = rs ++ rs1 /\ g_items ts1 [] rs1.
Proof.
  induction fuel as [|fuel IH]; intros rs ts rs' ts'; [done|]. cbn [t_redirs].
  destruct (t_peek ts [ch_lt; ch_gt]) eqn:Hp; cbn [negb].
  - destruct ts as [|[|t] [|[w|] ts]]; try done. intros E. apply IH in E as (ts1 & rs1 & -> & -> & Hg).
    destruct (add_redir_grammar rs t w _ Hp) as (r & Er & Hr). rewrite Er.
    exists (TS t :: TW w :: ts1), (r :: rs1). split; [done|]. split; [by rewrite <- app_assoc|].
    by apply (g_red [TS t; TW w]).
  - intros [= <- <-]. exists [], []. rewrite app_nil_r. split_and!; try done. constructor.
Qed.

Lemma t_args_sound N fuel : forall argv rs ts c ts', (length argv < MAXARGS)%nat -> t_args N fuel argv rs ts = POk (c, ts') ->
  exists ts1 ws rs1, ts = ts1 ++ ts' /\ g_items ts1 ws rs1 /\ (length (argv ++ ws) < MAXARGS)%nat /\
    c = redirected (EXEC (argv ++ ws)) (rs ++ rs1).
Proof.
  induction fuel as [|fuel IH]; intros argv rs ts c ts' Hl; [done|]. cbn [t_args].
  assert (Hdone : exists ts1 ws rs1, ts = ts1 ++ ts /\ g_items ts1 ws rs1 /\ (length (argv ++ ws) < MAXARGS)%nat /\
    redirected (EXEC argv) rs = redirected (EXEC (argv ++ ws)) (rs ++ rs1)).
  { exists [], [], []. rewrite !app_nil_r. split_and!; try done. constructor. }
  destruct (t_peek ts _) eqn:Hp; [by intros [= <- <-]|].
  destruct ts as [|[w|t] ts]; [by intros [= <- <-]| |done].
  destruct (Nat.leb_spec MAXARGS (length (argv ++ [w]))) as [|Hlt]; [done|].
  destruct (t_redirs N rs ts) as [[rs2 ts2]| |] eqn:Er; try done. cbn [pbind]. intros E.
  apply t_redirs_sound in Er as (u1 & rs1 & -> & -> & Hg1). apply IH in E as (u2 & ws & rs3 & -> & Hg2 & Hw & ->); [|done].
  exists (TW w :: u1 ++ u2), (w :: ws), (rs1 ++ rs3). rewrite <- !app_assoc in *. split_and!; [cbn; by rewrite <- app_assoc| |done|done].
  apply g_word. by apply (g_items_app u1 [] rs1 u2 ws rs3).
Qed.

Lemma t_back_sound fuel : forall c ts c' ts', t_back fuel c ts = POk (c', ts') ->
  exists n, ts = replicate n (TS ch_amp) ++ ts' /\ c' = Nat.iter n BACK c.
Proof.
  induction fuel as [|fuel IH]; intros c ts c' ts'; [done|]. cbn [t_back].
  destruct (t_peek ts [ch_amp]) eqn:Hp; [|intros [= <- <-]; by exists 0%nat].
  apply t_peek_one in Hp as [ts2 ->]; [|done]. cbn [tail]. intros E. apply IH in E as (n & -> & ->).
  exists (S n). split; [done|]. by rewrite Nat.iter_succ_r.
Qed.

Lemma t_sound N fuel : forall ts c ts',
  (t_line N fuel ts = POk (c, ts') -> exists ts1, ts = ts1 ++ ts' /\ g_line ts1 c) /\
  (t_pipe N fuel ts = POk (c, ts') -> exists ts1, ts = ts1 ++ ts' /\ g_pipe ts1 c) /\
  (t_exec N fuel ts = POk (c, ts') -> exists ts1, ts = ts1 ++ ts' /\ g_exec ts1 c) /\
  (t_block N fuel ts = POk (c, ts') -> exists ts1, ts = ts1 ++ ts' /\ g_exec ts1 c).
Proof.
  induction fuel as [|fuel IH]; intros ts c ts'; [done|]. cbn [t_line t_pipe t_exec t_block]. split_and!.
  - destruct (t_pipe N fuel ts) as [[c1 u1]| |] eqn:E1; try done. cbn [pbind].
    apply IH in E1 as (v1 & -> & G1). destruct (t_back N c1 u1) as [[c2 u2]| |] eqn:E2; try done. cbn [pbind].
    apply t_back_sound in E2 as (n & -> & ->). destruct (t_peek u2 [ch_semi]) eqn:Hp.
    + apply t_peek_one in Hp as [u3 ->]; [|done]. cbn [tail].
      destruct (t_line N fuel u3) as [[c3 u4]| |] eqn:E3; try done. cbn [pbind]. intros [= <- <-].
      apply IH in E3 as (v3 & -> & G3). exists (v1 ++ replicate n (TS ch_amp) ++ TS ch_semi :: v3).
      split; [by rewrite <- !app_assoc|by apply g_seq].
    + intros [= <- <-]. exists (v1 ++ replicate n (TS ch_amp)). split; [by rewrite <- app_assoc|by apply g_end].
  - destruct (t_exec N fuel ts) as [[c1 u1]| |] eqn:E1; try done. cbn [pbind].
    apply IH in E1 as (v1 & -> & G1). destruct (t_peek u1 [ch_bar]) eqn:Hp.
    + apply t_peek_one in Hp as [u3 ->]; [|done]. cbn [tail].
      destruct (t_pipe N fuel u3) as [[c3 u4]| |] eqn:E3; try done. cbn [pbind]. intros [= <- <-].
      apply IH in E3 as (v3 & -> & G3). exists (v1 ++ TS ch_bar :: v3). split; [by rewrite <- app_assoc|by apply g_bar].
    + intros [= <- <-]. exists v1. split; [done|by apply g_last].
  - destruct (t_peek ts [ch_open]); [apply IH|].
    destruct (t_redirs N [] ts) as [[rs u1]| |] eqn:E1; try done. cbn [pbind]. intros E2.
    apply t_redirs_sound in E1 as (v1 & rs1 & -> & -> & G1).
    apply t_args_sound in E2 as (v2 & ws & rs2 & -> & G2 & Hw & ->); [|unfold MAXARGS; cbn; lia].
    exists (v1 ++ v2). split; [by rewrite <- app_assoc|]. apply g_simple; [|done]. by apply (g_items_app v1 [] rs1).
  - destruct (t_peek ts [ch_open]) eqn:Hp; cbn [negb]; [|done]. apply t_peek_one in Hp as [u0 ->]; [|done]. cbn [tail].
    destruct (t_line N fuel u0) as [[c1 u1]| |] eqn:E1; try done. cbn [pbind]. apply IH in E1 as (v1 & -> & G1).
    destruct (t_peek u1 [ch_close]) eqn:Hp; cbn [negb]; [|done]. apply t_peek_one in Hp as [u2 ->]; [|done]. cbn [tail].
    destruct (t_redirs N [] u2) as [[rs u3]| |] eqn:E2; try done. cbn [pbind]. intros [= <- <-].
    apply t_redirs_sound in E2 as (v2 & rs1 & -> & -> & G2). exists (TS ch_open :: v1 ++ TS ch_close :: v2).
    split; [cbn; by rewrite <- app_assoc|by apply g_block].
Qed.

(** ** The token parser ends *)
Lemma t_redirs_total fuel : forall rs ts, (length ts < fuel)%nat -> t_redirs fuel rs ts ≠ PFuel.
Proof.
  induction fuel as [|fuel IH]; intros rs ts Hl; [lia|]. cbn [t_redirs]. destruct (t_peek _ _); cbn [negb]; [|done].
  destruct ts as [|[|t] [|[w|] ts]]; try done. apply IH. cbn in Hl. lia.
Qed.

Lemma t_args_total N fuel : forall argv rs ts, (length ts < fuel)%nat -> (length ts < N)%nat -> t_args N fuel argv rs ts ≠ PFuel.
Proof.
  induction fuel as [|fuel IH]; intros argv rs ts Hl HN; [lia|]. cbn [t_args]. destruct (t_peek _ _); [done|].
  destruct ts as [|[w|t] ts]; [done| |done]. destruct (Nat.leb _ _); [done|]. cbn [length] in Hl, HN.
  pose proof (t_redirs_total N rs ts ltac:(lia)) as Ht.
  destruct (t_redirs N rs ts) as [[rs2 ts2]| |] eqn:Er; [|done|done]. cbn [pbind].
  apply t_redirs_sound in Er as (u1 & rs1 & -> & _). rewrite length_app in *. apply IH; lia.
Qed.

Lemma t_back_total fuel : forall c ts, (length ts < fuel)%nat -> t_back fuel c ts ≠ PFuel.
Proof.
  induction fuel as [|fuel IH]; intros c ts Hl; [lia|]. cbn [t_back]. destruct (t_peek _ _) eqn:Hp; [|done].
  apply t_peek_one in Hp as [ts' ->]; [|done]. cbn in *. apply IH. lia.
Qed.

Lemma t_total N fuel : forall ts, (length ts < N)%nat ->
  ((4 * length ts + 4 <= fuel)%nat -> t_line N fuel ts ≠ PFuel) /\
  ((4 * length ts + 3 <= fuel)%nat -> t_pipe N fuel ts ≠ PFuel) /\
  ((4 * length ts + 2 <= fuel)%nat -> t_exec N fuel ts ≠ PFuel) /\
  ((4 * length ts + 1 <= fuel)%nat -> t_block N fuel ts ≠ PFuel).
Proof.
  induction fuel as [|fuel IH]; intros ts HN; [split_and!; lia|]. cbn [t_line t_pipe t_exec t_block]. split_and!; intros Hf.
  - destruct (IH ts HN) as (_ & H1 & _). specialize (H1 ltac:(lia)).
    destruct (t_pipe N fuel ts) as [[c1 u1]| |] eqn:E1; [|done|done]. cbn [pbind].
    apply t_sound in E1 as (v1 & -> & _). rewrite length_app in *.
    pose proof (t_back_total N c1 u1 ltac:(lia)) as H2.
    destruct (t_back N c1 u1) as [[c2 u2]| |] eqn:E2; [|done|done]. cbn [pbind].
    apply t_back_sound in E2 as (n & -> & _). rewrite length_app in *. destruct (t_peek u2 [ch_semi]) eqn:Hp; [|done].
    apply t_peek_one in Hp as [u3 ->]; [|done]. cbn [tail length] in *. destruct (IH u3 ltac:(lia)) as (H3 & _).
    specialize (H3 ltac:(lia)). by destruct (t_line N fuel u3) as [[c3 u4]| |].
  - destruct (IH ts HN) as (_ & _ & H1 & _). specialize (H1 ltac:(lia)).
    destruct (t_exec N fuel ts) as [[c1 u1]| |] eqn:E1; [|done|done]. cbn [pbind].
    apply t_sound in E1 as (v1 & -> & _). rewrite length_app in *. destruct (t_peek u1 [ch_bar]) eqn:Hp; [|done].
    apply t_peek_one in Hp as [u3 ->]; [|done]. cbn [tail length] in *. destruct (IH u3 ltac:(lia)) as (_ & H3 & _).
    specialize (H3 ltac:(lia)). by destruct (t_pipe N fuel u3) as [[c3 u4]| |].
  - destruct (t_peek ts [ch_open]); [apply (IH ts HN); lia|]. pose proof (t_redirs_total N [] ts HN) as H1.
    destruct (t_redirs N [] ts) as [[rs u1]| |] eqn:E1; [|done|done]. cbn [pbind].
    apply t_redirs_sound in E1 as (v1 & rs1 & -> & _). rewrite length_app in *. apply t_args_total; lia.
  - destruct (t_peek ts [ch_open]) eqn:Hp; cbn [negb]; [|done]. apply t_peek_one in Hp as [u0 ->]; [|done].
    cbn [tail length] in *. destruct (IH u0 ltac:(lia)) as (H1 & _). specialize (H1 ltac:(lia)).
    destruct (t_line N fuel u0) as [[c1 u1]| |] eqn:E1; [|done|done]. cbn [pbind].
    apply t_sound in E1 as (v1 & -> & _). rewrite length_app in *.
    destruct (t_peek u1 [ch_close]) eqn:Hp; cbn [negb]; [|done]. apply t_peek_one in Hp as [u2 ->]; [|done].
    cbn [tail length] in *. pose proof (t_redirs_total N [] u2 ltac:(lia)) as H2.
    by destruct (t_redirs N [] u2) as [[rs u3]| |].
Qed.

(** ** What is in the grammar the token parser accepts *)
Lemma g_redir_step fuel rs0 t r ts : g_redir t r -> t_redirs (S fuel) rs0 (t ++ ts) = t_redirs fuel (rs0 ++ [r]) ts.
Proof. by destruct 1. Qed.

Lemma g_redir_length t r : g_redir t r -> length t = 2%nat.
Proof. by destruct 1. Qed.

Lemma t_redirs_complete ts ws rs rest : g_items ts ws rs -> ws = [] -> t_peek rest [ch_lt; ch_gt] = false ->
  forall fuel rs0, (length ts < fuel)%nat -> t_redirs fuel rs0 (ts ++ rest) = POk (rs0 ++ rs, rest).
Proof.
  intros Hg Hw Hp. induction Hg as [|w ts ws rs _ IH|t r ts ws rs Hr _ IH]; intros [|fuel] rs0 Hf; try (cbn in Hf; lia); [|done|].
  - cbn. by rewrite Hp, app_nil_r.
  - rewrite length_app, (g_redir_length _ _ Hr) in Hf. rewrite <- app_assoc, (g_redir_step _ _ _ _ _ Hr), IH by (done || lia).
    by rewrite <- app_assoc.
Qed.

Definition after_exec : list Z := [ch_bar; ch_close; ch_amp; ch_semi].
Definition after_pipe : list Z := [ch_close; ch_amp; ch_semi].

Lemma t_items_complete N ts ws rs rest : g_items ts ws rs -> stops after_exec rest ->
  forall argv rs0 f1 f2, (length (argv ++ ws) < MAXARGS)%nat -> (length ts < f1)%nat -> (length ts < f2)%nat -> (length ts < N)%nat ->
  (let? '(rs, ts) := t_redirs f1 rs0 (ts ++ rest) in t_args N f2 argv rs ts) = POk (redirected (EXEC (argv ++ ws)) (rs0 ++ rs), rest).
Proof.
  intros Hg Hs. induction Hg as [|w ts ws rs _ IH|t r ts ws rs Hr _ IH]; intros argv rs0 [|f1] [|f2] Hw H1 H2 HN; try lia.
  - cbn [app t_redirs]. rewrite (stops_not _ _ _ Hs) by done. cbn [negb pbind t_args]. rewrite !app_nil_r.
    destruct Hs as [->|Hs]; [done|]. unfold after_exec in Hs. by rewrite Hs.
  - cbn [length] in *. cbn [app t_redirs t_peek negb pbind t_args].
    assert (Hl : (MAXARGS <=? length (argv ++ [w]))%nat = false).
    { apply Nat.leb_gt. rewrite length_app in *. cbn in *. lia. }
    rewrite Hl. rewrite IH; [by rewrite <- app_assoc| |lia|lia|lia]. by rewrite <- app_assoc.
  - rewrite length_app, (g_redir_length _ _ Hr) in H1, H2, HN. rewrite <- app_assoc, (g_redir_step _ _ _ _ _ Hr).
    rewrite IH by (done || lia). by rewrite <- app_assoc.
Qed.

Lemma t_back_complete n : forall fuel c rest, t_peek rest [ch_amp] = false -> (n < fuel)%nat ->
  t_back fuel c (replicate n (TS ch_amp) ++ rest) = POk (Nat.iter n BACK c, rest).
Proof.
  induction n as [|n IH]; intros [|fuel] c rest Hp Hf; try lia; [cbn; by rewrite Hp|].
  cbn [replicate app t_back t_peek tail]. change (strchr [ch_amp] _) with true. cbn iota.
  rewrite IH by (done || lia). by rewrite Nat.iter_succ_r.
Qed.

Lemma stops_amps n rest chars : strchr chars ch_amp = true -> stops chars rest -> stops chars (replicate n (TS ch_amp) ++ rest).
Proof. intros Ha Hs. destruct n; [done|]. by right. Qed.
Lemma stops_sym c rest chars : (c =? ch_plus) = false -> strchr chars c = true -> stops chars (TS c :: rest).
Proof. intros Hc Hs. right. cbn. by rewrite Hc. Qed.

(** A command starts with an opening parenthesis only if it is a block. *)
Lemma g_items_open ts ws rs rest : g_items ts ws rs -> stops after_exec rest -> t_peek (ts ++ rest) [ch_open] = false.
Proof.
  destruct 1 as [|w ts ws rs _|t r ts ws rs Hr _]; intros Hs; [by apply (stops_not _ _ _ Hs)|done|by destruct Hr].
Qed.

Lemma t_complete N :
  (forall ts c, g_line ts c -> forall rest fuel, stops [ch_close] rest -> (length ts < N)%nat ->
     (4 * length ts + 4 <= fuel)%nat -> t_line N fuel (ts ++ rest) = POk (c, rest)) /\
  (forall ts c, g_pipe ts c -> forall rest fuel, stops after_pipe rest -> (length ts < N)%nat ->
     (4 * length ts + 3 <= fuel)%nat -> t_pipe N fuel (ts ++ rest) = POk (c, rest)) /\
  (forall ts c, g_exec ts c -> forall rest fuel, stops after_exec rest -> (length ts < N)%nat ->
     (4 * length ts + 2 <= fuel)%nat -> t_exec N fuel (ts ++ rest) = POk (c, rest)).
Proof.
  apply grammar_ind.
  - intros ts c n Hg IH rest [|fuel] Hs HN Hf; [lia|]. rewrite length_app, length_replicate in *.
    cbn [t_line]. rewrite <- app_assoc, IH; [|apply stops_amps; [done|by apply (stops_sub _ _ _ Hs)]|lia|lia].
    cbn [pbind]. rewrite t_back_complete by (by apply (stops_not _ _ _ Hs) || lia). cbn [pbind].
    by rewrite (stops_not _ _ _ Hs).
  - intros ts c n ts' c' Hg IH Hg' IH' rest [|fuel] Hs HN Hf; [lia|].
    rewrite !length_app, length_replicate in *. cbn [length] in *. cbn [t_line]. rewrite <- !app_assoc. cbn [app].
    rewrite IH; [|apply stops_amps; [done|by apply stops_sym]|lia|lia]. cbn [pbind].
    rewrite t_back_complete by (done || lia). cbn [pbind t_peek tail]. change (strchr [ch_semi] _) with true. cbn iota.
    by rewrite IH' by (done || lia).
  - intros ts c Hg IH rest [|fuel] Hs HN Hf; [lia|]. cbn [t_pipe]. rewrite IH; [|by apply (stops_sub _ _ _ Hs)|lia|lia].
    cbn [pbind]. by rewrite (stops_not _ _ _ Hs).
  - intros ts c ts' c' Hg IH Hg' IH' rest [|fuel] Hs HN Hf; [lia|]. rewrite !length_app in *. cbn [length] in *.
    cbn [t_pipe]. rewrite <- app_assoc. cbn [app]. rewrite IH; [|by apply stops_sym|lia|lia]. cbn [pbind t_peek tail].
    change (strchr [ch_bar] _) with true. cbn iota. by rewrite IH' by (done || lia).
  - intros ts ws rs Hi Hw rest [|fuel] Hs HN Hf; [lia|]. cbn [t_exec]. rewrite (g_items_open _ _ _ _ Hi Hs).
    by apply (t_items_complete N ts ws rs rest Hi Hs [] []).
  - intros ts c ts' rs Hg IH Hi rest [|[|fuel]] Hs HN Hf; cbn [length] in *; rewrite ?length_app in *; cbn [length] in *; [lia|lia|].
    cbn [app]. rewrite <- app_assoc. cbn [app t_exec t_peek t_block tail]. change (strchr [ch_open] _) with true. cbn [negb].
    rewrite IH; [|by apply stops_sym|lia|lia]. cbn [pbind t_peek tail]. change (strchr [ch_close] _) with true. cbn [negb].
    rewrite (t_redirs_complete ts' [] rs) by (done || by apply (stops_not _ _ _ Hs) || lia). done.
Qed.

(** ** The parser on the buffer simulates the parser on tokens *)
Lemma lex_blanks ws r : forallb is_ws ws = true -> lex [] (ws ++ r) = lex [] r.
Proof.
  induction ws as [|c ws IH]; [done|]. cbn [forallb app]. intros [Hc Hw]%andb_true_iff. cbn [lex].
  unfold is_word. rewrite Hc. cbn [negb andb flush app]. by apply IH.
Qed.

(** [r] does not begin with a character of a word. *)
Definition word_ends (r : list Z) : Prop := match r with c :: _ => is_word c = false | [] => True end.

Lemma lex_word w r : forall w0, forallb is_word w = true -> word_ends r -> lex w0 (w ++ r) = flush (w0 ++ w) ++ lex [] r.
Proof.
  induction w as [|c w IH]; intros w0 Hw Hr.
  - rewrite app_nil_r. cbn [app]. destruct r as [|c r]; cbn [lex]; [by rewrite app_nil_r|]. cbn in Hr. by rewrite Hr.
  - cbn [forallb app] in *. apply andb_true_iff in Hw as [Hc Hw]. cbn [lex]. rewrite Hc, IH by done. by rewrite <- app_assoc.
Qed.

(** The words of a tree, and the tree with the words replaced. *)
Fixpoint cmd_words {W} (c : cmd W) : list W :=
  match c with
  | EXEC argv => argv
  | REDIR sub file _ _ => cmd_words sub ++ [file]
  | PIPE l r | LIST l r => cmd_words l ++ cmd_words r
  | BACK sub => cmd_words sub
  end.
Fixpoint cmd_map {W V} (f : W -> V) (c : cmd W) : cmd V :=
  match c with
  | EXEC argv => EXEC (f <$> argv)
  | REDIR sub file mode fd => REDIR (cmd_map f sub) (f file) mode fd
  | PIPE l r => PIPE (cmd_map f l) (cmd_map f r)
  | LIST l r => LIST (cmd_map f l) (cmd_map f r)
  | BACK sub => BACK (cmd_map f sub)
  end.
Definition redir_map {W V} (f : W -> V) (r : redir W) : redir V := mkRedir (f (r_file r)) (r_mode r) (r_fd r).

Lemma cmd_map_redirected {W V} (f : W -> V) rs : forall c, cmd_map f (redirected c rs) = redirected (cmd_map f c) (redir_map f <$> rs).
Proof. induction rs as [|r rs IH]; intros c; [done|]. exact (IH (redircmd c r)). Qed.
Lemma cmd_words_redirected {W} rs : forall c : cmd W, cmd_words (redirected c rs) = cmd_words c ++ (r_file <$> rs).
Proof.
  induction rs as [|r rs IH]; intros c; [by rewrite app_nil_r|]. etransitivity; [exact (IH (redircmd c r))|].
  cbn. by rewrite <- app_assoc.
Qed.

Section Sim.
Context (line junk : list Z) (Hnul : Forall (fun c => c ≠ 0) line).
Let buf := line ++ 0 :: junk.
Let es := length line.
Definition toks (s : nat) : list tok := lex [] (drop s line).
Definition slice (w : nat * nat) : list Z := take (w.2 - w.1) (drop w.1 line).

(** A word of the line: a maximal run of word characters. *)
Definition word_at (w : nat * nat) : Prop :=
  (w.1 < w.2 <= es)%nat /\ forallb is_word (slice w) = true /\ word_ends (drop w.2 line).

Lemma at_drop s : (s <= es)%nat ->
  match drop s line with c :: _ => buf_at buf s = c /\ c ≠ 0 /\ (s < es)%nat | [] => buf_at buf s = 0 /\ s = es end.
Proof.
  intros Hs. unfold buf_at, buf. destruct (drop s line) as [|c r] eqn:E.
  - assert (s = es) as ->. { apply (f_equal length) in E. rewrite length_drop in E. cbn in E. unfold es in *. lia. }
    split; [|done]. by rewrite lookup_app_r, Nat.sub_diag by done.
  - assert (Hc : line !! s = Some c).
    { rewrite <- (Nat.add_0_r s), <- lookup_drop, E. done. }
    assert (Hl : (s < es)%nat) by (by apply lookup_lt_Some in Hc). rewrite lookup_app_l, Hc by done. split_and!; [done| |done].
    rewrite Forall_lookup in Hnul. by apply (Hnul s).
Qed.

(** Skipping: [w] is what was skipped. *)
Lemma skip_spec p s : (s <= es)%nat -> exists w, let s' := skip buf es p s in
  drop s line = w ++ drop s' line /\ s' = (s + length w)%nat /\ (s' <= es)%nat /\ forallb p w = true /\
  match drop s' line with c :: _ => p c = false | [] => True end.
Proof.
  intros Hs. unfold skip. remember (es - s)%nat as n eqn:En. revert s Hs En. induction n as [|n IH]; intros s Hs En.
  - exists []. cbn. split_and!; try (done || lia). by rewrite drop_ge by (unfold es in *; lia).
  - cbn [skip_n]. pose proof (at_drop s Hs) as Ha. destruct (drop s line) as [|c r] eqn:E; [lia|]. destruct Ha as (-> & _ & Hlt).
    destruct (p c) eqn:Hp.
    + destruct (IH (S s) ltac:(lia) ltac:(lia)) as (w & H1 & H2 & H3 & H4 & H5). exists (c :: w). cbn zeta.
      assert (Er : r = drop (S s) line) by (by rewrite <- Nat.add_1_r, <- drop_drop, E).
      split_and!; [by rewrite Er, H1|rewrite H2; cbn; lia|done|cbn; by rewrite Hp, H4|done].
    + exists []. cbn zeta. rewrite E. split_and!; try done; cbn; lia.
Qed.

Lemma skipws_spec s : (s <= es)%nat -> let s' := skipws buf es s in
  (s' <= es)%nat /\ toks s' = toks s /\ match drop s' line with c :: _ => is_ws c = false | [] => True end.
Proof.
  intros Hs. destruct (skip_spec is_ws s Hs) as (w & H1 & H2 & H3 & H4 & H5). cbn zeta in *. split; [done|]. split; [|done].
  unfold toks. rewrite H1. symmetry. by apply lex_blanks.
Qed.

(** The first token of a text that does not begin with a blank. *)
Lemma lex_sym c r : is_sym c = true -> c ≠ ch_gt -> lex [] (c :: r) = TS c :: lex [] r.
Proof.
  intros Hs Hg. cbn [lex]. unfold is_word. rewrite Hs, andb_false_r.
  assert (Hw : is_ws c = false).
  { apply strchr_spec in Hs. destruct Hs as [<-|[<-|[<-|[<-|[<-|[<-|[<-|[]]]]]]]]; done. }
  rewrite Hw. by rewrite (proj2 (Z.eqb_neq _ _) Hg).
Qed.
Lemma lex_gt r : lex [] (ch_gt :: r) =
  match r with c :: r' => if c =? ch_gt then TS ch_plus :: lex [] r' else TS ch_gt :: lex [] r | [] => [TS ch_gt] end.
Proof. done. Qed.

Lemma is_sym_cases c : is_sym c = strchr [ch_bar; ch_open; ch_close; ch_semi; ch_amp; ch_lt] c || (c =? ch_gt).
Proof.
  unfold is_sym, strchr, symbols. cbn [existsb].
  destruct (c =? ch_lt), (c =? ch_bar), (c =? ch_gt), (c =? ch_amp), (c =? ch_semi), (c =? ch_open), (c =? ch_close); done.
Qed.

Lemma peek_sim s chars : (s <= es)%nat -> forallb is_sym chars = true ->
  exists s', peek buf es s chars = (s', t_peek (toks s) chars) /\ (s' <= es)%nat /\ toks s' = toks s.
Proof.
  intros Hs Hch. destruct (skipws_spec s Hs) as (H1 & H2 & H3). cbn zeta in *. unfold peek.
  set (s' := skipws buf es s) in *. exists s'. split; [|done]. f_equal. rewrite <- H2. unfold toks.
  pose proof (at_drop s' H1) as Ha. destruct (drop s' line) as [|c r]; [by destruct Ha as [-> _]|].
  destruct Ha as (-> & Hc0 & _). rewrite (proj2 (Z.eqb_neq _ _) Hc0). cbn [negb andb].
  destruct (is_sym c) eqn:Hsy.
  - destruct (decide (c = ch_gt)) as [->|Hg].
    + rewrite lex_gt. destruct r as [|c' r]; [done|]. by destruct (c' =? ch_gt).
    + rewrite lex_sym by done. cbn [t_peek]. destruct (Z.eqb_spec c ch_plus) as [->|]; [by vm_compute in Hsy|done].
  - assert (Hw : is_word c = true) by (unfold is_word; by rewrite H3, Hsy).
    assert (Hf : strchr chars c = false).
    { apply not_true_iff_false. intros Hin%strchr_spec. rewrite forallb_forall in Hch. apply Hch in Hin. congruence. }
    rewrite Hf. cbn [lex]. rewrite Hw. cbn [app].
    assert (Hex : forall l w, w ≠ [] -> exists w' ts, lex w l = TW w' :: ts).
    { induction l as [|x l IH]; intros w Hw0; cbn [lex].
      - destruct w as [|w0 w]; [done|]. by eexists _, _.
      - destruct (is_word x); [apply IH; by destruct w|]. destruct w as [|w0 w]; [done|]. by eexists _, _. }
    destruct (Hex r [c] ltac:(done)) as (w' & ts & ->). done.
Qed.

Lemma skipws_toks s r : (s <= es)%nat -> drop s line = r -> toks (skipws buf es s) = lex [] r /\ (skipws buf es s <= es)%nat.
Proof. intros Hs Er. destruct (skipws_spec s Hs) as (H1 & H2 & _). split; [|done]. rewrite H2. unfold toks. by rewrite Er. Qed.

Lemma drop_step s c r : drop s line = c :: r -> drop (S s) line = r /\ (S s <= es)%nat.
Proof.
  intros E. split; [by rewrite <- Nat.add_1_r, <- drop_drop, E|]. apply (f_equal length) in E.
  rewrite length_drop in E. cbn in E. unfold es. lia.
Qed.

Lemma gettoken_sim s : (s <= es)%nat -> exists t w s', gettoken buf es s = (t, w, s') /\ (s' <= es)%nat /\
  match toks s with
  | [] => t = 0 /\ toks s' = []
  | TS c :: ts => t = c /\ toks s' = ts /\ c ≠ 0 /\ c ≠ ch_a
  | TW x :: ts => t = ch_a /\ toks s' = ts /\ word_at w /\ slice w = x
  end.
Proof.
  intros Hs. destruct (skipws_spec s Hs) as (H1 & H2 & H3). cbn zeta in *. unfold gettoken.
  set (q := skipws buf es s) in *. rewrite <- H2. unfold toks at 1.
  pose proof (at_drop q H1) as Ha. destruct (drop q line) as [|c r] eqn:Eq.
  { destruct Ha as [-> _]. cbn [Z.eqb]. eexists _, _, _. split; [reflexivity|].
    destruct (skipws_toks q [] H1 Eq) as [E1 E2]. by split. }
  destruct Ha as (-> & Hc0 & Hlt). rewrite (proj2 (Z.eqb_neq _ _) Hc0).
  destruct (drop_step q c r Eq) as [Er Hq1].
  destruct (strchr [ch_bar; ch_open; ch_close; ch_semi; ch_amp; ch_lt] c) eqn:Hsym.
  { assert (Hg : c ≠ ch_gt) by (intros ->; by vm_compute in Hsym).
    assert (Ha : c ≠ ch_a) by (intros ->; by vm_compute in Hsym).
    rewrite lex_sym by (rewrite ?is_sym_cases, ?Hsym; done).
    eexists _, _, _. split; [reflexivity|]. destruct (skipws_toks (S q) r Hq1 Er) as [E1 E2]. by split. }
  destruct (Z.eqb_spec c ch_gt) as [->|Hg].
  { rewrite lex_gt. pose proof (at_drop (S q) Hq1) as Hb. rewrite Er in Hb. destruct r as [|c' r'].
    - destruct Hb as [-> _]. cbn [Z.eqb ch_gt]. eexists _, _, _. split; [reflexivity|].
      destruct (skipws_toks (S q) [] Hq1 Er) as [E1 E2]. by split.
    - destruct Hb as (-> & _ & _). destruct (drop_step (S q) c' r' Er) as [Er' Hq2].
      destruct (c' =? ch_gt); (eexists _, _, _; split; [reflexivity|]).
      + destruct (skipws_toks (S (S q)) r' Hq2 Er') as [E1 E2]. by split.
      + destruct (skipws_toks (S q) (c' :: r') Hq1 Er) as [E1 E2]. by split. }
  assert (Hw : is_word c = true).
  { unfold is_word. by rewrite H3, is_sym_cases, Hsym, (proj2 (Z.eqb_neq _ _) Hg). }
  destruct (skip_spec is_word q H1) as (w & W1 & W2 & W3 & W4 & W5). cbn zeta in *. set (e := skip buf es is_word q) in *.
  change (skip buf es (fun c => negb (strchr whitespace c) && negb (strchr symbols c)) q) with e.
  assert (Hwl : (0 < length w)%nat).
  { destruct w as [|c1 w]; [|cbn; lia]. cbn in W1. rewrite <- W1, Eq in W5. congruence. }
  assert (Hsl : slice (q, e) = w).
  { unfold slice. cbn [fst snd]. rewrite W1. replace (e - q)%nat with (length w) by lia. by rewrite take_app_length. }
  rewrite <- Eq, W1, lex_word by done. cbn [app]. destruct w as [|c1 w1] eqn:Ew; [cbn in Hwl; lia|]. cbn [flush app].
  eexists _, _, _. split; [reflexivity|]. destruct (skipws_toks e _ W3 eq_refl) as [E1 E2]. split; [done|].
  split_and!; try done. split_and!; cbn [fst snd]; try lia; [by rewrite Hsl|exact W5].
Qed.

(** Results that agree: the trees up to the words, the rest of the input up to its tokens. *)
Definition sim {A B} (R : A -> B -> Prop) (m : pres (A * nat)) (m' : pres (B * list tok)) : Prop :=
  match m, m' with
  | POk (a, s), POk (b, ts) => (s <= es)%nat /\ toks s = ts /\ R a b
  | PPanic x, PPanic y => x = y
  | PFuel, PFuel => True
  | _, _ => False
  end.

Lemma sim_bind {A B A' B'} (R : A -> B -> Prop) (R' : A' -> B' -> Prop) m m' k k' : sim R m m' ->
  (forall a b s, (s <= es)%nat -> R a b -> sim R' (k (a, s)) (k' (b, toks s))) -> sim R' (pbind m k) (pbind m' k').
Proof.
  intros Hm Hk. destruct m as [[a s]| |], m' as [[b ts]| |]; try done. destruct Hm as (Hs & <- & HR). by apply Hk.
Qed.

Definition Rwords (ws : list (nat * nat)) (vs : list (list Z)) : Prop := Forall word_at ws /\ slice <$> ws = vs.
Definition Rcmd (c : cmd (nat * nat)) (d : cmd (list Z)) : Prop := Forall word_at (cmd_words c) /\ cmd_map slice c = d.
Definition Rredirs (rs : list (redir (nat * nat))) (vs : list (redir (list Z))) : Prop :=
  Forall word_at (r_file <$> rs) /\ redir_map slice <$> rs = vs.

Lemma Rcmd_redirected c d rs vs : Rcmd c d -> Rredirs rs vs -> Rcmd (redirected c rs) (redirected d vs).
Proof.
  intros [H1 <-] [H2 <-]. split; [rewrite cmd_words_redirected; by apply Forall_app|apply cmd_map_redirected].
Qed.

Lemma Rredirs_add rs vs t w : Rredirs rs vs -> word_at w -> Rredirs (add_redir rs t w) (add_redir vs t (slice w)).
Proof.
  intros [H1 <-] Hw. unfold add_redir. repeat case_match; (split; [|by rewrite ?fmap_app]); rewrite ?fmap_app; try done;
    (apply Forall_app; split; [done|by apply Forall_singleton]).
Qed.

Lemma parseredirs_sim fuel : forall rs vs s, (s <= es)%nat -> Rredirs rs vs ->
  sim Rredirs (parseredirs buf es fuel rs s) (t_redirs fuel vs (toks s)).
Proof.
  induction fuel as [|fuel IH]; intros rs vs s Hs HR; [done|]. cbn [parseredirs t_redirs].
  destruct (peek_sim s [ch_lt; ch_gt] Hs eq_refl) as (s1 & -> & Hs1 & E1). destruct (t_peek (toks s) _) eqn:Hp; cbn [negb]; [|done].
  destruct (gettoken_sim s1 Hs1) as (t & w & s2 & -> & Hs2 & Ht). rewrite E1 in Ht.
  destruct (gettoken_sim s2 Hs2) as (t' & w' & s3 & -> & Hs3 & Ht').
  destruct (toks s) as [|[x|c] ts]; [done|done|]. destruct Ht as (-> & E2 & _). rewrite E2 in Ht'.
  destruct ts as [|[x|c'] ts]; [by destruct Ht' as [-> _]| |].
  - destruct Ht' as (-> & <- & Hw & <-). change (ch_a =? ch_a) with true. cbn [negb]. apply IH; [done|]. by apply Rredirs_add.
  - destruct Ht' as (-> & _ & _ & Hne). by rewrite (proj2 (Z.eqb_neq _ _) Hne).
Qed.

Lemma parse_args_sim fuel : forall argv vs rs us s, (s <= es)%nat -> Rwords argv vs -> Rredirs rs us ->
  sim Rcmd (parse_args buf es fuel argv rs s) (t_args (S es) fuel vs us (toks s)).
Proof.
  induction fuel as [|fuel IH]; intros argv vs rs us s Hs HA HR; [done|]. cbn [parse_args t_args].
  assert (Hc : Rcmd (redirected (EXEC argv) rs) (redirected (EXEC vs) us)).
  { apply Rcmd_redirected; [|done]. destruct HA as [H1 <-]. by split. }
  destruct (peek_sim s [ch_bar; ch_close; ch_amp; ch_semi] Hs eq_refl) as (s1 & -> & Hs1 & E1).
  destruct (t_peek (toks s) _); [done|]. destruct (gettoken_sim s1 Hs1) as (t & w & s2 & -> & Hs2 & Ht). rewrite E1 in Ht.
  destruct (toks s) as [|[x|c] ts].
  - destruct Ht as [-> E2]. by cbn.
  - destruct Ht as (-> & <- & Hw & <-). change (ch_a =? 0) with false. change (ch_a =? ch_a) with true. cbn [negb].
    assert (HA' : Rwords (argv ++ [w]) (vs ++ [slice w])).
    { destruct HA as [H1 <-]. split; [apply Forall_app; split; [done|by apply Forall_singleton]|by rewrite fmap_app]. }
    assert (El : length (vs ++ [slice w]) = length (argv ++ [w])) by (destruct HA' as [_ <-]; by rewrite length_fmap).
    rewrite El. destruct (Nat.leb _ _); [done|]. eapply sim_bind; [by apply parseredirs_sim|].
    intros rs' us' s' Hs' HR'. by apply IH.
  - destruct Ht as (-> & _ & H0 & Ha). rewrite (proj2 (Z.eqb_neq _ _) H0). by rewrite (proj2 (Z.eqb_neq _ _) Ha).
Qed.

(** Reading the token that peek saw. *)
Lemma gettoken_tail s chars : (s <= es)%nat -> t_peek (toks s) chars = true ->
  exists t w s', gettoken buf es s = (t, w, s') /\ (s' <= es)%nat /\ toks s' = tail (toks s).
Proof.
  intros Hs Hp. destruct (gettoken_sim s Hs) as (t & w & s' & E & Hs' & Ht). exists t, w, s'. split_and!; try done.
  destruct (toks s) as [|[x|c] ts]; try done. by destruct Ht as (_ & -> & _).
Qed.

Lemma parse_back_sim fuel : forall c d s, (s <= es)%nat -> Rcmd c d -> sim Rcmd (parse_back buf es fuel c s) (t_back fuel d (toks s)).
Proof.
  induction fuel as [|fuel IH]; intros c d s Hs HR; [done|]. cbn [parse_back t_back].
  destruct (peek_sim s [ch_amp] Hs eq_refl) as (s1 & -> & Hs1 & E1). destruct (t_peek (toks s) _) eqn:Hp; [|done].
  rewrite <- E1 in Hp. destruct (gettoken_tail s1 _ Hs1 Hp) as (t & w & s2 & -> & Hs2 & E2). rewrite <- E1, <- E2.
  apply IH; [done|]. destruct HR as [H1 <-]. by split.
Qed.

Lemma Rcmd_pipe c c' d d' : Rcmd c d -> Rcmd c' d' -> Rcmd (PIPE c c') (PIPE d d').
Proof. intros [H1 <-] [H2 <-]. split; [by apply Forall_app|done]. Qed.
Lemma Rcmd_list c c' d d' : Rcmd c d -> Rcmd c' d' -> Rcmd (LIST c c') (LIST d d').
Proof. intros [H1 <-] [H2 <-]. split; [by apply Forall_app|done]. Qed.

Lemma Rredirs_nil : Rredirs [] [].
Proof. by split. Qed.

Lemma parse_sim fuel : forall s, (s <= es)%nat ->
  sim Rcmd (parseline buf es fuel s) (t_line (S es) fuel (toks s)) /\
  sim Rcmd (parsepipe buf es fuel s) (t_pipe (S es) fuel (toks s)) /\
  sim Rcmd (parseexec buf es fuel s) (t_exec (S es) fuel (toks s)) /\
  sim Rcmd (parseblock buf es fuel s) (t_block (S es) fuel (toks s)).
Proof.
  induction fuel as [|fuel IH]; intros s Hs; [done|].
  cbn [parseline parsepipe parseexec parseblock t_line t_pipe t_exec t_block]. split_and!.
  - eapply sim_bind; [by apply IH|]. intros c d s1 Hs1 HR. eapply sim_bind; [by apply parse_back_sim|].
    clear c d s1 Hs1 HR. intros c d s1 Hs1 HR.
    destruct (peek_sim s1 [ch_semi] Hs1 eq_refl) as (s2 & -> & Hs2 & E2). destruct (t_peek (toks s1) _) eqn:Hp; [|done].
    rewrite <- E2 in *. destruct (gettoken_tail s2 _ Hs2 Hp) as (t & w & s3 & -> & Hs3 & <-).
    eapply sim_bind; [by apply IH|]. intros c' d' s4 Hs4 HR'. split_and!; [done|done|by apply Rcmd_list].
  - eapply sim_bind; [by apply IH|]. intros c d s1 Hs1 HR.
    destruct (peek_sim s1 [ch_bar] Hs1 eq_refl) as (s2 & -> & Hs2 & E2). destruct (t_peek (toks s1) _) eqn:Hp; [|done].
    rewrite <- E2 in *. destruct (gettoken_tail s2 _ Hs2 Hp) as (t & w & s3 & -> & Hs3 & <-).
    eapply sim_bind; [by apply IH|]. intros c' d' s4 Hs4 HR'. split_and!; [done|done|by apply Rcmd_pipe].
  - destruct (peek_sim s [ch_open] Hs eq_refl) as (s1 & -> & Hs1 & <-). destruct (t_peek (toks s1) _); [by apply IH|].
    eapply sim_bind; [by apply parseredirs_sim, Rredirs_nil|]. intros rs vs s2 Hs2 HR. by apply parse_args_sim.
  - destruct (peek_sim s [ch_open] Hs eq_refl) as (s1 & -> & Hs1 & <-). destruct (t_peek (toks s1) _) eqn:Hp; cbn [negb]; [|done].
    destruct (gettoken_tail s1 _ Hs1 Hp) as (t & w & s2 & -> & Hs2 & <-).
    eapply sim_bind; [by apply IH|]. intros c d s3 Hs3 HR.
    destruct (peek_sim s3 [ch_close] Hs3 eq_refl) as (s4 & -> & Hs4 & E4). rewrite <- E4.
    destruct (t_peek (toks s4) _) eqn:Hp'; cbn [negb]; [|done].
    destruct (gettoken_tail s4 _ Hs4 Hp') as (t' & w' & s5 & -> & Hs5 & <-).
    eapply sim_bind; [by apply parseredirs_sim, Rredirs_nil|]. intros rs vs s6 Hs6 HR'.
    split_and!; [done|done|by apply Rcmd_redirected].
Qed.

(** ** NUL-terminating the words *)

(** The C string at index [q] of a buffer. *)
Definition cstring (b : list Z) (q : nat) : list Z := cstr (length b) (drop q b).

(** The buffer after some of the bytes that end words became NUL. *)
Definition cut_at_ends (b : list Z) : Prop :=
  length b = length buf /\
  forall i, b !! i = buf !! i \/ (b !! i = Some 0 /\ word_ends (drop i line)).

Lemma cut_insert b w : cut_at_ends b -> word_at w -> cut_at_ends (<[snd w := 0]> b).
Proof.
  intros [Hl Hb] (Hw & _ & He). split; [by rewrite length_insert|]. intros i. destruct (decide (i = snd w)) as [->|Hne].
  - right. split; [|done]. apply list_lookup_insert_eq. rewrite Hl. unfold buf, es in *. rewrite length_app. cbn. lia.
  - by rewrite list_lookup_insert_ne.
Qed.

Lemma nulterminate_cut c : forall b, cut_at_ends b -> Forall word_at (cmd_words c) -> cut_at_ends (nulterminate c b).
Proof.
  induction c as [argv|sub IH file mode fd|l IHl r IHr|l IHl r IHr|sub IH]; intros b Hb Hw; cbn [nulterminate cmd_words] in *.
  - revert b Hb. induction Hw as [|w argv Hw _ IH]; intros b Hb; [exact Hb|]. cbn [fold_left]. apply IH. by apply cut_insert.
  - apply Forall_app in Hw as [H1 [H2 _]%Forall_cons]. apply cut_insert; [by apply IH|done].
  - apply Forall_app in Hw as [H1 H2]. apply IHr; [by apply IHl|done].
  - apply Forall_app in Hw as [H1 H2]. apply IHr; [by apply IHl|done].
  - by apply IH.
Qed.

Lemma insert_zero (b : list Z) i j : b !! i = Some 0 -> <[j := 0]> b !! i = Some 0.
Proof.
  intros Hi. destruct (decide (i = j)) as [->|]; [|by rewrite list_lookup_insert_ne].
  apply list_lookup_insert_eq. by eapply lookup_lt_Some.
Qed.

Lemma nulterminate_keeps c : forall b i, b !! i = Some 0 -> nulterminate c b !! i = Some 0.
Proof.
  induction c as [argv|sub IH file mode fd|l IHl r IHr|l IHl r IHr|sub IH]; intros b i Hi; cbn [nulterminate]; auto using insert_zero.
  revert b Hi. induction argv as [|w argv IH]; intros b Hi; [exact Hi|]. cbn [fold_left]. apply IH. by apply insert_zero.
Qed.

Lemma nulterminate_length c : forall b, length (nulterminate c b) = length b.
Proof.
  induction c as [argv|sub IH file mode fd|l IHl r IHr|l IHl r IHr|sub IH]; intros b; cbn [nulterminate]; rewrite ?length_insert; [|congruence..].
  revert b. induction argv as [|w argv IH]; intros b; [done|]. cbn [fold_left]. by rewrite IH, length_insert.
Qed.

Lemma nulterminate_ends c : forall b, Forall (fun w => (w.2 < length b)%nat) (cmd_words c) ->
  Forall (fun w => nulterminate c b !! w.2 = Some 0) (cmd_words c).
Proof.
  induction c as [argv|sub IH file mode fd|l IHl r IHr|l IHl r IHr|sub IH]; intros b Hw; cbn [nulterminate cmd_words] in *.
  - revert b Hw. induction argv as [|w argv IH]; intros b Hw; [done|]. apply Forall_cons in Hw as [H1 H2]. cbn [fold_left].
    constructor; [|apply IH; by rewrite length_insert].
    apply (nulterminate_keeps (EXEC argv)). by apply list_lookup_insert_eq.
  - apply Forall_app in Hw as [H1 [H2 _]%Forall_cons]. apply Forall_app. split.
    + eapply Forall_impl; [by apply IH|]. intros w. apply insert_zero.
    + apply Forall_singleton, list_lookup_insert_eq. by rewrite nulterminate_length.
  - apply Forall_app in Hw as [H1 H2]. apply Forall_app. split; [|apply IHr; by rewrite nulterminate_length].
    eapply Forall_impl; [by apply IHl|]. intros w. apply nulterminate_keeps.
  - apply Forall_app in Hw as [H1 H2]. apply Forall_app. split; [|apply IHr; by rewrite nulterminate_length].
    eapply Forall_impl; [by apply IHl|]. intros w. apply nulterminate_keeps.
  - by apply IH.
Qed.

Lemma cstr_app w r n : Forall (fun c => c ≠ 0) w -> (length w <= n)%nat -> cstr n (w ++ 0 :: r) = w.
Proof.
  revert n. induction w as [|c w IH]; intros n Hw Hn; [by destruct n|]. apply Forall_cons in Hw as [Hc Hw].
  destruct n as [|n]; cbn in Hn; [lia|]. cbn. rewrite (proj2 (Z.eqb_neq _ _) Hc). f_equal. apply IH; [done|lia].
Qed.

(** In a buffer cut at the ends of words, also of this one, the C string at a word is the word. *)
Lemma cstring_word b w : cut_at_ends b -> word_at w -> b !! w.2 = Some 0 -> cstring b w.1 = slice w.
Proof.
  intros [Hl Hb] (Hq & Hw & _) He. destruct w as [q e]. cbn [fst snd] in *.
  assert (Es : take (e - q) (drop q b) = slice (q, e)).
  { apply list_eq. intros i. unfold slice. cbn [fst snd]. destruct (decide (i < e - q)%nat) as [Hi|Hi].
    - rewrite !lookup_take_lt, !lookup_drop by done.
      assert (Hx : exists c, line !! (q + i)%nat = Some c) by (apply lookup_lt_is_Some; unfold es in *; lia).
      destruct Hx as [c Hc]. destruct (Hb (q + i)%nat) as [E|[_ Hend]].
      + rewrite E, Hc. unfold buf. by rewrite lookup_app_l by (unfold es in *; lia).
      + exfalso. rewrite (drop_S _ _ _ Hc) in Hend. cbn in Hend. rewrite forallb_forall in Hw.
        assert (is_word c = true); [|congruence]. apply Hw, list_elem_of_In, list_elem_of_lookup. exists i.
        unfold slice. cbn [fst snd]. by rewrite lookup_take_lt, lookup_drop.
    - by rewrite !lookup_take_ge by lia. }
  unfold cstring. rewrite <- (take_drop (e - q) (drop q b)), drop_drop, Es.
  replace (q + (e - q))%nat with e by lia. rewrite (drop_S _ _ _ He). apply cstr_app.
  - unfold slice. by apply Forall_take, Forall_drop.
  - rewrite <- Es, length_take, length_drop. lia.
Qed.

Lemma strings_spec c : Forall word_at (cmd_words c) -> cmd_map (fun w => cstring (nulterminate c buf) w.1) c = cmd_map slice c.
Proof.
  intros Hw. assert (Hcut : cut_at_ends (nulterminate c buf)) by (apply nulterminate_cut; [split; [done|by left]|done]).
  assert (He : Forall (fun w => nulterminate c buf !! w.2 = Some 0) (cmd_words c)).
  { apply nulterminate_ends. eapply Forall_impl; [exact Hw|]. intros w (H1 & _). unfold buf, es in *. rewrite length_app. cbn. lia. }
  revert Hw He. generalize (nulterminate c buf) Hcut. clear Hcut. intros b Hcut.
  assert (Hws : forall ws, Forall word_at ws -> Forall (fun w => b !! w.2 = Some 0) ws -> (fun w => cstring b w.1) <$> ws = slice <$> ws).
  { intros ws Hw He. apply list_fmap_ext. intros i w Hi. rewrite Forall_lookup in Hw, He. apply cstring_word; eauto. }
  induction c as [argv|sub IH file mode fd|l IHl r IHr|l IHl r IHr|sub IH]; cbn [cmd_words cmd_map]; intros Hw He;
    rewrite ?Forall_app, ?Forall_singleton in *; destruct_and?; f_equal; auto using cstring_word.
Qed.
End Sim.

(** ** The theorem *)
Lemma lex_length l : forall w, (length (lex w l) <= length l + length (flush w))%nat.
Proof.
  induction l as [l IH] using (induction_ltof1 _ (@length Z)). unfold ltof in IH. intros w. destruct l as [|c l]; [done|].
  cbn [lex]. destruct (is_word c).
  - etransitivity; [apply IH; cbn; lia|]. assert (length (flush (w ++ [c])) = 1%nat) as -> by by destruct w. cbn. lia.
  - rewrite length_app. pose proof (IH l ltac:(cbn; lia) []) as H1. cbn [flush length] in *.
    destruct (is_ws c); [lia|]. destruct (c =? ch_gt); [|cbn; lia]. destruct l as [|c' l']; [cbn; lia|].
    destruct (c' =? ch_gt); [|cbn [length] in *; lia]. pose proof (IH l' ltac:(cbn; lia) []) as H2. cbn [flush length] in *. lia.
Qed.

Lemma lex_nonempty c r : is_ws c = false -> lex [] (c :: r) ≠ [].
Proof.
  intros Hc. assert (Hex : forall l w, w ≠ [] -> lex w l ≠ []).
  { induction l as [|x l IH]; intros w Hw; cbn [lex]; [by destruct w|]. destruct (is_word x); [apply IH; by destruct w|by destruct w]. }
  cbn [lex]. destruct (is_word c); [by apply Hex|]. rewrite Hc. cbn [flush app].
  destruct (c =? ch_gt); [|done]. destruct r as [|c' r]; [done|]. by destruct (c' =? ch_gt).
Qed.

Lemma strlen_line line junk : Forall (fun c => c ≠ 0) line -> Z.to_nat (strlen (line ++ 0 :: junk)) = length line.
Proof.
  intros H. assert (E : strlen (line ++ 0 :: junk) = Z.of_nat (length line)); [|by rewrite E, Nat2Z.id].
  induction H as [|c line Hc _ IH]; [done|]. cbn [app strlen length]. rewrite (proj2 (Z.eqb_neq _ _) Hc), IH. lia.
Qed.

(** The grammar is unambiguous. *)
Lemma g_line_unique ts c d : g_line ts c -> g_line ts d -> c = d.
Proof.
  intros Hc Hd. destruct (t_complete (S (length ts))) as (H & _).
  pose proof (H ts c Hc [] (4 * length ts + 4)%nat ltac:(by left) ltac:(lia) ltac:(lia)) as E1.
  pose proof (H ts d Hd [] (4 * length ts + 4)%nat ltac:(by left) ltac:(lia) ltac:(lia)) as E2. congruence.
Qed.

Lemma t_line_of ts d : g_line ts d -> forall n, (length ts <= n)%nat -> t_line (S n) (4 * n + 4) ts = POk (d, []).
Proof.
  intros Hd n Hn. rewrite <- (app_nil_r ts). apply (proj1 (t_complete (S n))); [done|by left|lia|lia].
Qed.

Lemma lex_line_length line : (length (lex [] line) <= length line)%nat.
Proof. pose proof (lex_length line []) as Hx. cbn in Hx. lia. Qed.

Section Parsecmd.
Context (line junk : list Z) (Hnul : Forall (fun c => c ≠ 0) line).
Let buf := line ++ 0 :: junk.
Let es := length line.

Lemma parsecmd_sim :
  sim line (Rcmd line) (parseline buf es (4 * es + 4) 0) (t_line (S es) (4 * es + 4) (lex [] line)).
Proof. apply (parse_sim line junk Hnul (4 * es + 4) 0). lia. Qed.

Lemma parsecmd_eq : parsecmd buf =
  (let? '(c, s) := parseline buf es (4 * es + 4) 0 in
   if negb (skipws buf es s =? es)%nat then PPanic "syntax" else POk (c, nulterminate c buf)).
Proof.
  assert (E : Z.to_nat (strlen buf) = es) by apply (strlen_line line junk Hnul). unfold parsecmd. cbv zeta. by rewrite E.
Qed.

(** No token is left exactly when the parser has reached the end. *)
Lemma parsecmd_end s : (s <= es)%nat -> skipws buf es s = es <-> toks line s = [].
Proof.
  intros Hs. destruct (skipws_spec line junk Hnul s Hs) as (Hs' & Htoks & Hws). fold buf es in Hs', Htoks, Hws.
  rewrite <- Htoks. set (s' := skipws buf es s) in *. split.
  - intros ->. unfold toks. by rewrite drop_ge by done.
  - unfold toks. destruct (drop s' line) as [|x r] eqn:Ed; [|intros E; by apply lex_nonempty in E].
    apply (f_equal length) in Ed. rewrite length_drop in Ed. cbn in Ed. fold es in Ed. lia.
Qed.

Lemma parsecmd_sound c b : parsecmd buf = POk (c, b) -> g_line (lex [] line) (cmd_map (fun w => cstring b w.1) c).
Proof.
  rewrite parsecmd_eq. pose proof parsecmd_sim as Hsim.
  destruct (parseline buf es _ 0) as [[c' s]|msg|], (t_line _ _ _) as [[d ts]|msg'|] eqn:Et; cbn [pbind]; try done.
  destruct Hsim as (Hs & Hts & Hw & Hmap). destruct (Nat.eqb_spec (skipws buf es s) es) as [Heq|Hne]; [|done].
  intros [= <- <-]. apply (parsecmd_end s Hs) in Heq. rewrite <- Hts, Heq in Et. apply t_sound in Et as (ts1 & E & Hg).
  rewrite app_nil_r in E. subst ts1. unfold buf. by rewrite (strings_spec line junk Hnul c' Hw), Hmap.
Qed.

Lemma parsecmd_complete d : g_line (lex [] line) d ->
  exists c b, parsecmd buf = POk (c, b) /\ cmd_map (fun w => cstring b w.1) c = d.
Proof.
  intros Hd. pose proof parsecmd_sim as Hsim. rewrite (t_line_of _ _ Hd es (lex_line_length line)) in Hsim.
  rewrite parsecmd_eq.
  destruct (parseline buf es _ 0) as [[c s]|msg|]; try done. destruct Hsim as (Hs & Hts & Hw & Hmap). cbn [pbind].
  rewrite (proj2 (parsecmd_end s Hs) Hts), Nat.eqb_refl. cbn [negb]. eexists _, _. split; [done|].
  unfold buf. by rewrite (strings_spec line junk Hnul c Hw), Hmap.
Qed.

Lemma parsecmd_total : parsecmd buf ≠ PFuel.
Proof.
  rewrite parsecmd_eq. pose proof parsecmd_sim as Hsim.
  pose proof (lex_line_length line) as Hlen.
  pose proof (proj1 (t_total (S es) (4 * es + 4) (lex [] line) ltac:(unfold es; lia)) ltac:(unfold es; lia)) as Htot.
  destruct (parseline buf es _ 0) as [[c s]|msg|], (t_line _ _ _) as [[d ts]|msg'|]; cbn [pbind]; try done.
  by destruct (Nat.eqb _ _).
Qed.
End Parsecmd.

(** C27.  The shell's parser is total and decides the grammar of command lines.  For every line, parsecmd
    either returns a tree or panics.  If it returns, the tree, with each pointer read as the C string that
    nulterminate left in the line buffer, is the one the grammar derives from the tokens of the line; and
    it panics only on lines the grammar does not derive. *)
Theorem parsecmd_correct line junk :
  Forall (fun c => c ≠ 0) line ->
  match parsecmd (line ++ 0 :: junk) with
  | POk (c, buf) => g_line (lex [] line) (cmd_map (fun w => cstring buf w.1) c)
  | PPanic _ => forall d, ~ g_line (lex [] line) d
  | PFuel => False
  end.
Proof.
  intros Hnul. pose proof (parsecmd_total line junk Hnul) as Ht. pose proof (parsecmd_sound line junk Hnul) as Hs.
  pose proof (parsecmd_complete line junk Hnul) as Hc. destruct (parsecmd _) as [[c b]|msg|]; [by apply Hs| |done].
  intros d Hd. apply Hc in Hd as (c & b & [=] & _).
Qed.

(** (ls a; cat<f)|wc>>b & *)
Definition ex_line : list Z :=
  [40; 108; 115; 32; 97; 59; 32; 99; 97; 116; 60; 102; 41; 124; 119; 99; 62; 62; 98; 32; 38; 10].

Lemma parsecmd_correct_witness :
  match parsecmd (ex_line ++ [0]) with
  | POk (c, buf) => g_line (lex [] ex_line) (cmd_map (fun w => cstring buf w.1) c) /\
      cmd_map (fun w => cstring buf w.1) c =
        BACK (PIPE (LIST (EXEC [[108; 115]; [97]]) (REDIR (EXEC [[99; 97; 116]]) [102] o_rdonly 0))
                   (REDIR (EXEC [[119; 99]]) [98] (Z.lor o_wronly o_create) 1))
  | _ => False
  end.
Proof.
  pose proof (parsecmd_correct ex_line [] ltac:(apply (bool_decide_unpack _); vm_compute; exact I)) as H.
  destruct (parsecmd (ex_line ++ [0])) as [[c buf]|msg|] eqn:E; vm_compute in E; [|discriminate E|discriminate E].
  split; [exact H|]. injection E as <- <-. vm_compute. reflexivity.
Defined.

(** ** Pipelines *)

(** The programs a process tree runs, and the tables its waiting processes hold. *)
Fixpoint execs (t : ptree) : list (list (list Z) * fdtable) :=
  match t with
  | Exec argv fds _ => [(argv, fds)]
  | Fork c p => execs c ++ execs p
  | Wait _ k | Fprintf _ k => execs k
  | Exit _ => []
  end.
Fixpoint waits (t : ptree) : list fdtable :=
  match t with
  | Exec _ _ k | Fprintf _ k => waits k
  | Fork c p => waits c ++ waits p
  | Wait fds k => fds :: waits k
  | Exit _ => []
  end.

Fixpoint pipeline (argv : list (list Z)) (more : list (list (list Z))) : cmd (list Z) :=
  match more with
  | [] => EXEC argv
  | argv' :: more' => PIPE (EXEC argv) (pipeline argv' more')
  end.

(** The text of a pipeline: a blank before each word, a bar between commands. *)
Definition show_cmd (argv : list (list Z)) : list Z := concat (cons 32 <$> argv).
Fixpoint show_pipeline (argv : list (list Z)) (more : list (list (list Z))) : list Z :=
  show_cmd argv ++
  match more with
  | [] => [10]
  | argv' :: more' => ch_bar :: show_pipeline argv' more'
  end.

(** A table with three open descriptors. *)
Definition std (i o e : fd_file) : fdtable := [Some i; Some o; Some e] ++ replicate 13 None.

(** What the commands of a pipeline are given as input and output: the ends of consecutive pipes, the
    pipe after command k being named by [id] and k ones. *)
Fixpoint stages (id : list nat) (i o e : fd_file) (argv : list (list Z)) (more : list (list (list Z))) : list (list (list Z) * fdtable) :=
  match more with
  | [] => [(argv, std i o e)]
  | argv' :: more' => (argv, std i (PipeWrite id) e) :: stages (id ++ [1%nat]) (PipeRead id) o e argv' more'
  end.

Definition word_ok (w : list Z) : Prop := w ≠ [] /\ forallb is_word w = true /\ Forall (fun c => c ≠ 0) w.
Definition argv_ok (argv : list (list Z)) : Prop := argv ≠ [] /\ (length argv < MAXARGS)%nat /\ Forall word_ok argv.

Lemma lex_show argv r : Forall word_ok argv -> word_ends r -> lex [] (show_cmd argv ++ r) = (TW <$> argv) ++ lex [] r.
Proof.
  intros Hw Hr. induction Hw as [|w argv Hw Hargv IH]; [done|]. destruct Hw as (Hne & Hw & _).
  unfold show_cmd. cbn [fmap list_fmap concat]. cbn [app]. rewrite <- app_assoc. fold (cons 32 <$> argv). fold (show_cmd argv).
  change (lex [] (32 :: w ++ show_cmd argv ++ r)) with (lex [] (w ++ show_cmd argv ++ r)).
  rewrite lex_word; [|done|by destruct Hargv]. cbn [app]. rewrite IH. by destruct w.
Qed.

Lemma g_words argv : (length argv < MAXARGS)%nat -> g_exec (TW <$> argv) (EXEC argv).
Proof.
  intros Hl. apply (g_simple _ argv []); [|done]. clear Hl. induction argv as [|w argv IH]; [constructor|]. by apply g_word.
Qed.

Lemma g_pipe_show more : forall argv, Forall argv_ok (argv :: more) -> g_pipe (lex [] (show_pipeline argv more)) (pipeline argv more).
Proof.
  induction more as [|argv' more IH]; intros argv Hok; apply Forall_cons in Hok as [(_ & Hl & Hw) Hok]; cbn [show_pipeline pipeline].
  - rewrite lex_show by done. change (lex [] [10]) with (@nil tok). rewrite app_nil_r. by apply g_last, g_words.
  - rewrite lex_show by done. rewrite lex_sym by done. apply g_bar; [by apply g_words|by apply IH].
Qed.

Lemma show_no_nul more : forall argv, Forall argv_ok (argv :: more) -> Forall (fun c => c ≠ 0) (show_pipeline argv more).
Proof.
  assert (Hc : forall argv, Forall word_ok argv -> Forall (fun c => c ≠ 0) (show_cmd argv)).
  { induction 1 as [|w argv (_ & _ & Hw) _ IH]; [constructor|]. unfold show_cmd. cbn. constructor; [done|]. by apply Forall_app. }
  induction more as [|argv' more IH]; intros argv Hok; apply Forall_cons in Hok as [(_ & _ & Hw) Hok]; cbn [show_pipeline];
    apply Forall_app; (split; [by apply Hc|]).
  - by repeat constructor.
  - constructor; [done|by apply IH].
Qed.

Lemma run_pipeline can_fork can_pipe opens o e : (forall id, can_fork id = true) -> (forall id, can_pipe id = true) ->
  forall more argv id i, Forall argv_ok (argv :: more) ->
  let t := runcmd can_fork can_pipe opens id (pipeline argv more) (std i o e) in
  execs t = stages id i o e argv more /\
  Forall (fun fds => exists i', fds = std i' o e /\ (i' = i \/ exists id', i' = PipeRead id')) (waits t).
Proof.
  intros Hf Hp. induction more as [|argv' more IH]; intros argv id i Hok; apply Forall_cons in Hok as [(Hne & _ & _) Hok].
  - destruct argv as [|w argv]; [done|]. split; [done|constructor].
  - cbn [pipeline runcmd stages]. rewrite Hp.
    change (fd_pipe id (std i o e)) with
      (Some (3%nat, 4%nat, [Some i; Some o; Some e; Some (PipeRead id); Some (PipeWrite id)] ++ replicate 11 None)).
    cbv beta iota zeta. unfold fork1. rewrite !Hf.
    change (fd_close 4 (fd_close 3 (fd_dup 3 (fd_close 0 ([Some i; Some o; Some e; Some (PipeRead id); Some (PipeWrite id)] ++ replicate 11 None)))))
      with (std (PipeRead id) o e).
    change (fd_close 4 (fd_close 3 (fd_dup 4 (fd_close 1 ([Some i; Some o; Some e; Some (PipeRead id); Some (PipeWrite id)] ++ replicate 11 None)))))
      with (std i (PipeWrite id) e).
    change (fd_close 4 (fd_close 3 ([Some i; Some o; Some e; Some (PipeRead id); Some (PipeWrite id)] ++ replicate 11 None)))
      with (std i o e).
    destruct (IH argv' (id ++ [1%nat]) (PipeRead id) Hok) as [IH1 IH2]. cbn [execs waits]. rewrite IH1, app_nil_r. split.
    + destruct argv as [|w argv]; [done|]. reflexivity.
    + apply Forall_app. split; [by destruct argv|]. apply Forall_app. split.
      * eapply Forall_impl; [exact IH2|]. intros fds (i' & -> & [->|[id' ->]]); eexists; (split; [reflexivity|right; by eexists]).
      * repeat constructor; exists i; (split; [reflexivity|by left]).
Qed.

(** C28.  A pipeline typed at the shell runs as a pipeline.  From the text of argv | argv' | ... parsecmd
    makes a tree whose execution (when the kernel has the resources) executes exactly the commands of
    the line, in order, the standard output of each being the write end of a new pipe whose read end is
    the standard input of the next; the first reads the shell's input and the last writes its
    output, and no command has any other descriptor open.  No process that waits for the others
    holds the write end of one of the pipes, so each reader sees the end of its input. *)
Theorem shell_pipeline can_fork can_pipe opens argv more i o e junk :
  (forall id, can_fork id = true) -> (forall id, can_pipe id = true) -> Forall argv_ok (argv :: more) ->
  exists c buf, parsecmd (show_pipeline argv more ++ 0 :: junk) = POk (c, buf) /\
    let t := runcmd can_fork can_pipe opens [] (cmd_map (fun w => cstring buf w.1) c) (std i o e) in
    execs t = stages [] i o e argv more /\
    Forall (fun fds => exists i', fds = std i' o e /\ (i' = i \/ exists id, i' = PipeRead id)) (waits t).
Proof.
  intros Hf Hp Hok.
  destruct (parsecmd_complete (show_pipeline argv more) junk (show_no_nul more argv Hok) (pipeline argv more)) as (c & b & E & Hc).
  { pose proof (g_end _ _ 0 (g_pipe_show more argv Hok)) as Hg. by rewrite app_nil_r in Hg. }
  exists c, b. split; [done|]. rewrite Hc. by apply run_pipeline.
Qed.

(** ls a | grep b | wc *)
Lemma shell_pipeline_witness :
  exists c buf, parsecmd (show_pipeline [[108; 115]; [97]] [[[103; 114; 101; 112]; [98]]; [[119; 99]]] ++ [0]) = POk (c, buf) /\
    execs (runcmd (fun _ => true) (fun _ => true) (fun _ _ => None) [] (cmd_map (fun w => cstring buf w.1) c)
             (std (Opened [99]) (Opened [99]) (Opened [99]))) =
    [([[108; 115]; [97]], std (Opened [99]) (PipeWrite []) (Opened [99]));
     ([[103; 114; 101; 112]; [98]], std (PipeRead []) (PipeWrite [1%nat]) (Opened [99]));
     ([[119; 99]], std (PipeRead [1%nat]) (Opened [99]) (Opened [99]))].
Proof.
  destruct (shell_pipeline (fun _ => true) (fun _ => true) (fun _ _ => None) [[108; 115]; [97]]
    [[[103; 114; 101; 112]; [98]]; [[119; 99]]] (Opened [99]) (Opened [99]) (Opened [99]) []) as (c & b & E & H & _).
  - reflexivity.
  - reflexivity.
  - repeat (apply Forall_cons; split); try apply Forall_nil_2; (split; [done|split; [unfold MAXARGS; cbn; lia|]]);
      repeat (apply Forall_cons; split); try apply Forall_nil_2; (split; [done|split; [reflexivity|]]); repeat constructor; lia.
  - exists c, b. split; [exact E|exact H].
Defined.
