(* ===== verification/Umalloc.v ===== *)
(** * The user-level allocator (platform/visionfive2/user/umalloc.c)

    malloc and free of Kernighan and Ritchie: a circular list of free blocks in the order
    of their addresses, each beginning with a header of 16 bytes.  The state is the two
    fields of every header that was ever written, freep and the program break; [base] is
    the address of the static header and [grow b n] tells whether the kernel extends the
    break b by n bytes. *)

From stdpp Require Import base list numbers gmap.
From S2P Require Import Prelude Params CString.

(** sizeof(Header) *)
Definition HDR : Z := 16.

Record heap : Type := mkHeap { h_ptr : gmap Z Z; h_size : gmap Z Z; h_freep : Z; h_brk : Z }.
Definition ptr (h : heap) (p : Z) : Z := default 0 (h_ptr h !! p).
Definition usize (h : heap) (p : Z) : Z := default 0 (h_size h !! p).
Definition set_ptr (p v : Z) (h : heap) : heap := mkHeap (<[p := v]> (h_ptr h)) (h_size h) (h_freep h) (h_brk h).
Definition set_usize (p v : Z) (h : heap) : heap := mkHeap (h_ptr h) (<[p := v]> (h_size h)) (h_freep h) (h_brk h).
Definition set_freep (p : Z) (h : heap) : heap := mkHeap (h_ptr h) (h_size h) p (h_brk h).
Definition set_brk (b : Z) (h : heap) : heap := mkHeap (h_ptr h) (h_size h) (h_freep h) b.

(** Enough to walk once around a list of the headers written so far. *)
Definition ring_fuel (h : heap) : nat := S (size (h_ptr h)).

(** ** free *)
Fixpoint free_find (fuel : nat) (h : heap) (bp p : Z) : option Z :=
  match fuel with
  | O => None
  | S fuel' =>
      if (p <? bp) && (bp <? ptr h p) then Some p
      else if (ptr h p <=? p) && ((p <? bp) || (bp <? ptr h p)) then Some p
      else free_find fuel' h bp (ptr h p)
  end.

(** [None]: the search does not end *)
Definition free (ap : Z) (h : heap) : option heap :=
  let bp := ap - HDR in
  match free_find (ring_fuel h) h bp (h_freep h) with
  | None => None
  | Some p =>
      let nx := ptr h p in
      let h :=
        if bp + HDR * usize h bp =? nx
        then set_ptr bp (ptr h nx) (set_usize bp (u32 (usize h bp + usize h nx)) h)
        else set_ptr bp nx h in
      let h :=
        if p + HDR * usize h p =? bp
        then set_ptr p (ptr h bp) (set_usize p (u32 (usize h p + usize h bp)) h)
        else set_ptr p bp h in
      Some (set_freep p h)
  end.

Section Malloc.
Context (base : Z) (grow : Z -> Z -> bool).

(** sbrk: the old break; a request that is not positive never fails *)
Definition sbrk (n : Z) (h : heap) : option (Z * heap) :=
  if (n <=? 0) || grow (h_brk h) n then Some (h_brk h, set_brk (h_brk h + n) h) else None.

(** morecore: the new value of p (0 when there is no memory) and the state *)
Definition morecore (nu : Z) (h : heap) : option (Z * heap) :=
  let nu := if nu <? 4096 then 4096 else nu in
  match sbrk (i32 (nu * HDR)) h with
  | None => Some (0, h)
  | Some (hp, h) =>
      match free (hp + HDR) (set_usize hp nu h) with
      | None => None
      | Some h => Some (h_freep h, h)
      end
  end.

(** The loop of malloc with its two pointers. *)
Fixpoint malloc_loop (fuel : nat) (nunits prevp p : Z) (h : heap) : option (Z * heap) :=
  match fuel with
  | O => None
  | S fuel' =>
      if nunits <=? usize h p then
        if usize h p =? nunits then
          Some (p + HDR, set_freep prevp (set_ptr prevp (ptr h p) h))
        else
          let rest := usize h p - nunits in
          let q := p + HDR * rest in
          Some (q + HDR, set_freep prevp (set_usize q nunits (set_usize p rest h)))
      else if p =? h_freep h then
        match morecore nunits h with
        | None => None
        | Some (p, h) => if p =? 0 then Some (0, h) else malloc_loop fuel' nunits p (ptr h p) h
        end
      else malloc_loop fuel' nunits p (ptr h p) h
  end.

Definition units (nbytes : Z) : Z := u32 ((nbytes + HDR - 1) / HDR + 1).

Definition malloc (nbytes : Z) (h : heap) : option (Z * heap) :=
  let nunits := units nbytes in
  let h := if h_freep h =? 0 then set_usize base 0 (set_freep base (set_ptr base base h)) else h in
  malloc_loop (2 * ring_fuel h + 2) nunits (h_freep h) (ptr h (h_freep h)) h.
End Malloc.
