(* ===== verification/UmallocSpec.v ===== *)
(** * The user-level allocator loses nothing and hands out nothing twice *)

From Stdlib Require Import Sorted.
From stdpp Require Import base list numbers gmap.
From S2P Require Import Prelude Params CString Umalloc.

(** ** Circular lists *)

(** Following [f] from [a] one meets the elements of [l], then [z]. *)
Fixpoint links (f : Z -> Z) (a : Z) (l : list Z) (z : Z) : Prop :=
  match l with
  | [] => f a = z
  | b :: l' => f a = b /\ links f b l' z
  end.

Lemma links_app f l1 : forall a b l2 z, links f a (l1 ++ b :: l2) z <-> links f a l1 b /\ links f b l2 z.
Proof. induction l1 as [|c l1 IH]; intros a b l2 z; cbn; [done|]. rewrite IH. tauto. Qed.

Lemma links_ext f g l : forall a z, (forall x, x ∈ a :: l -> g x = f x) -> links f a l z -> links g a l z.
Proof.
  induction l as [|b l IH]; intros a z He; cbn.
  - intros <-. apply He. set_solver.
  - intros [<- Hc]. split; [apply He; set_solver|]. apply IH; [set_solver|done].
Qed.

Lemma last_cons (l : list Z) a b : List.last (b :: l) a = List.last l b.
Proof.
  revert a b. induction l as [|c l IH]; intros a b; [done|].
  change (List.last (b :: c :: l) a) with (List.last (c :: l) a). by rewrite !IH.
Qed.

Lemma last_in (l : list Z) a : List.last l a ∈ a :: l.
Proof. revert a. induction l as [|b l IH]; intros a; [set_solver|]. rewrite last_cons. specialize (IH b). set_solver. Qed.

Lemma links_last f l : forall a z, links f a l z -> f (List.last l a) = z.
Proof. induction l as [|b l IH]; intros a z; cbn [links]; [done|]. intros [_ Hc]. rewrite last_cons. by apply IH. Qed.

Lemma last_app (l1 l2 : list Z) a : List.last (l1 ++ l2) a = List.last l2 (List.last l1 a).
Proof.
  revert a. induction l1 as [|b l1 IH]; intros a; [done|]. cbn [app]. by rewrite !last_cons, IH.
Qed.

(** The pointer of the last element changed: the links ends elsewhere. *)
Lemma links_redirect f g l : forall a z z', NoDup (a :: l) -> links f a l z ->
  (forall x, x ∈ a :: l -> x ≠ List.last l a -> g x = f x) -> g (List.last l a) = z' -> links g a l z'.
Proof.
  induction l as [|b l IH]; intros a z z' Hn Hc He Hl; cbn [links] in *; [done|]. destruct Hc as [<- Hc].
  apply NoDup_cons in Hn as [Ha Hn]. rewrite last_cons in *. split.
  - apply He; [set_solver|]. intros E. apply Ha. pose proof (last_in l (f a)) as Hi. by rewrite <- E in Hi.
  - eapply IH; [done|exact Hc| |exact Hl]. intros x Hx Hne. apply He; [set_solver|done].
Qed.

Lemma links_next f l : forall a z, links f a l z -> forall x, x ∈ a :: l -> f x ∈ l ++ [z].
Proof.
  induction l as [|b l IH]; intros a z; cbn [links].
  - intros <- x Hx. apply list_elem_of_singleton in Hx. subst. set_solver.
  - intros [<- Hc] x [->|Hx]%elem_of_cons; [set_solver|]. specialize (IH _ _ Hc x Hx). set_solver.
Qed.

(** In a ring a node has one predecessor. *)
Lemma links_pred f l : forall a z, links f a l z -> NoDup (l ++ [z]) ->
  forall x y, x ∈ a :: l -> y ∈ a :: l -> f x = f y -> x = y.
Proof.
  induction l as [|b l IH]; intros a z Hc Hn x y Hx Hy E.
  - apply list_elem_of_singleton in Hx, Hy. congruence.
  - cbn [links] in Hc. destruct Hc as [Hb Hc]. cbn [app] in Hn. apply NoDup_cons in Hn as [Hnb Hn].
    apply elem_of_cons in Hx, Hy. destruct Hx as [->|Hx], Hy as [->|Hy]; [done| | |by eapply IH].
    + exfalso. apply Hnb. rewrite <- Hb, E. by apply (links_next _ _ _ _ Hc).
    + exfalso. apply Hnb. rewrite <- Hb, <- E. by apply (links_next _ _ _ _ Hc).
Qed.

(** From any node of a ring the links leads back to it. *)
Lemma links_rotate f base l1 x l2 : links f base (l1 ++ x :: l2) base -> links f x (l2 ++ base :: l1) x.
Proof. rewrite !links_app. tauto. Qed.

(** ** Free blocks in the order of their addresses *)
Definition bend (b : Z * Z) : Z := b.1 + HDR * b.2.

(** The blocks lie between [lo] and [hi], in order, and no two touch. *)
Fixpoint spaced (lo : Z) (F : list (Z * Z)) (hi : Z) : Prop :=
  match F with
  | [] => lo <= hi + 1
  | b :: F' => lo <= b.1 /\ 1 <= b.2 /\ spaced (bend b + 1) F' hi
  end.

Definition in_block (b : Z * Z) (x : Z) : Prop := b.1 <= x < bend b.
Definition in_free (F : list (Z * Z)) (x : Z) : Prop := Exists (fun b => in_block b x) F.

Lemma spaced_app F1 : forall lo b F2 hi,
  spaced lo (F1 ++ b :: F2) hi <-> spaced lo F1 (b.1 - 1) /\ 1 <= b.2 /\ spaced (bend b + 1) F2 hi.
Proof.
  induction F1 as [|c F1 IH]; intros lo b F2 hi; cbn [app spaced].
  - split; intros (H1 & H2 & H3); (split_and!; [lia|lia|done]).
  - rewrite IH. tauto.
Qed.

Lemma spaced_lo F : forall lo lo' hi, lo' <= lo -> spaced lo F hi -> spaced lo' F hi.
Proof. destruct F as [|b F]; intros lo lo' hi Hl; cbn; [lia|]. intros (H1 & H2). split; [lia|done]. Qed.

Lemma spaced_hi F : forall lo hi hi', hi <= hi' -> spaced lo F hi -> spaced lo F hi'.
Proof. induction F as [|b F IH]; intros lo hi hi' Hl; cbn; [lia|]. intros (H1 & H2 & H3). split_and!; [done|done|by eapply IH]. Qed.

Lemma spaced_bounds F : forall lo hi, spaced lo F hi -> lo <= hi + 1 /\ forall b, b ∈ F -> lo <= b.1 /\ 1 <= b.2 /\ bend b <= hi.
Proof.
  induction F as [|c F IH]; intros lo hi; cbn [spaced].
  - intros H. split; [done|]. intros b Hb. set_solver.
  - intros (H1 & H2 & H3). apply IH in H3 as [H3 H4]. unfold bend, HDR in *. split; [lia|].
    intros b [->|Hb]%elem_of_cons; [lia|]. specialize (H4 b Hb). lia.
Qed.

Lemma spaced_nodup F lo hi : spaced lo F hi -> NoDup (F.*1).
Proof.
  revert lo. induction F as [|b F IH]; intros lo; cbn [spaced]; [constructor|]. intros (H1 & H2 & H3).
  rewrite fmap_cons. constructor; [|by eapply IH]. intros (c & E & Hc)%list_elem_of_fmap.
  apply spaced_bounds in H3 as [_ H3]. specialize (H3 c Hc). unfold bend, HDR in *. lia.
Qed.

Lemma in_free_app F1 F2 x : in_free (F1 ++ F2) x <-> in_free F1 x \/ in_free F2 x.
Proof. apply Exists_app. Qed.
Lemma in_free_cons b F x : in_free (b :: F) x <-> in_block b x \/ in_free F x.
Proof. apply Exists_cons. Qed.
Lemma in_free_nil x : in_free [] x <-> False.
Proof. apply Exists_nil. Qed.
Lemma in_free_bounds F lo hi x : spaced lo F hi -> in_free F x -> lo <= x < hi.
Proof.
  intros Hs (b & Hb & Hx)%Exists_exists. apply spaced_bounds in Hs as [_ Hs]. specialize (Hs b Hb). unfold in_block in Hx. lia.
Qed.

(** ** The free list *)
Lemma ptr_set p v h x : ptr (set_ptr p v h) x = if decide (x = p) then v else ptr h x.
Proof. unfold ptr, set_ptr. cbn. destruct (decide (x = p)) as [->|]; [by rewrite lookup_insert_eq|by rewrite lookup_insert_ne]. Qed.
Lemma usize_set p v h x : usize (set_usize p v h) x = if decide (x = p) then v else usize h x.
Proof. unfold usize, set_usize. cbn. destruct (decide (x = p)) as [->|]; [by rewrite lookup_insert_eq|by rewrite lookup_insert_ne]. Qed.

Section Rep.
Context (base : Z) (grow : Z -> Z -> bool).

(** The state holds the free blocks [F]: the ring of their headers and of [base], their sizes, and freep
    somewhere on the ring. *)
Record rep (h : heap) (F : list (Z * Z)) : Prop := {
  rep_chain : links (ptr h) base F.*1 base;
  rep_dom : forall x, x ∈ base :: F.*1 -> is_Some (h_ptr h !! x);
  rep_size : Forall (fun b => usize h b.1 = b.2) F;
  rep_base : usize h base = 0;
  rep_spaced : spaced (base + HDR) F (h_brk h);
  rep_freep : h_freep h ∈ base :: F.*1;
  rep_limit : 0 < base /\ base + HDR <= h_brk h <= 2 ^ 36;
}.

Lemma rep_nodup h F : rep h F -> NoDup (base :: F.*1).
Proof.
  intros HR. pose proof (rep_spaced _ _ HR) as Hs. constructor; [|by eapply spaced_nodup].
  intros (b & E & Hb)%list_elem_of_fmap. apply spaced_bounds in Hs as [_ Hs]. specialize (Hs b Hb). unfold HDR in *. lia.
Qed.

Lemma ring_fuel_enough h F : rep h F -> (length F + 1 < ring_fuel h + 1)%nat.
Proof.
  intros HR. unfold ring_fuel. pose proof (rep_nodup _ _ HR) as Hn.
  assert (Hsub : list_to_set (base :: F.*1) ⊆@{gset Z} dom (h_ptr h)).
  { intros x Hx. apply elem_of_list_to_set in Hx. apply elem_of_dom. by apply (rep_dom _ _ HR). }
  apply subseteq_size in Hsub. rewrite size_list_to_set, size_dom in Hsub by done. cbn [length] in Hsub. rewrite length_fmap in Hsub. lia.
Qed.

(** ** free: the place of the block *)

(** [F1] ends at or below [a], [F2] begins at or above [e]. *)
Lemma split_at F : forall lo hi a e, spaced lo F hi -> lo <= a + 1 -> a < e -> e <= hi ->
  (forall x, a <= x < e -> ~ in_free F x) -> exists F1 F2, F = F1 ++ F2 /\ spaced lo F1 a /\ spaced e F2 hi.
Proof.
  induction F as [|b F IH]; intros lo hi a e Hs Hlo Hae He Hd.
  - exists [], []. split; [done|]. cbn. lia.
  - cbn [spaced] in Hs. destruct Hs as (H1 & H2 & H3). destruct (decide (bend b <= a)) as [Hle|Hgt].
    + destruct (IH (bend b + 1) hi a e H3 ltac:(lia) Hae He) as (F1 & F2 & -> & HF1 & HF2).
      { intros x Hx Hf. apply (Hd x Hx). apply in_free_cons. by right. }
      exists (b :: F1), F2. by repeat split.
    + exists [], (b :: F). split; [done|]. split; [cbn; lia|]. cbn [spaced]. split; [|done].
      destruct (decide (e <= b.1)) as [|Hb]; [done|]. exfalso.
      apply (Hd (Z.max a b.1)); [lia|]. apply in_free_cons. left. unfold in_block, bend, HDR in *. lia.
Qed.

(** The search from a node at or before the place. *)
Lemma find_below h bp l : forall a fuel z, links (ptr h) a l z -> (length l < fuel)%nat ->
  StronglySorted Z.lt (a :: l) -> List.last l a < bp -> (bp < z \/ z <= List.last l a) -> free_find fuel h bp a = Some (List.last l a).
Proof.
  induction l as [|b l IH]; intros a [|fuel] z Hc Hf Hs Hl Hz; try (cbn in Hf; lia); cbn [free_find links] in *.
  - cbn in Hl, Hz. rewrite Hc. destruct Hz as [Hz|Hz].
    + rewrite (proj2 (Z.ltb_lt a bp)), (proj2 (Z.ltb_lt bp z)) by done. done.
    + rewrite (proj2 (Z.leb_le z a)), (proj2 (Z.ltb_lt a bp)) by done. cbn [andb orb]. by destruct (bp <? z).
  - destruct Hc as [-> Hc]. rewrite last_cons in *. inversion Hs as [|? ? Hs' Hhd]; subst. apply Forall_cons in Hhd as [Hab _].
    assert (Hb : b <= List.last l b).
    { pose proof (last_in l b) as Hi. inversion Hs' as [|? ? _ Hall]; subst.
      apply elem_of_cons in Hi as [->|Hi]; [done|]. rewrite Forall_forall in Hall. specialize (Hall _ Hi). lia. }
    rewrite (proj2 (Z.ltb_ge bp b)), (proj2 (Z.leb_gt b a)) by lia. rewrite andb_false_r. cbn [andb].
    eapply IH; [exact Hc|cbn in Hf; lia|done|done|done].
Qed.

(** The search from a node behind the place: it goes on to [z], the start of the ring. *)
Lemma find_above h bp l : forall a fuel z, links (ptr h) a l z -> (length l < fuel)%nat ->
  StronglySorted Z.lt (a :: l) -> bp < a -> z < bp ->
  free_find fuel h bp a = free_find (fuel - S (length l)) h bp z.
Proof.
  induction l as [|b l IH]; intros a [|fuel] z Hc Hf Hs Ha Hz; try (cbn in Hf; lia); cbn [free_find links length] in *.
  - rewrite Hc, (proj2 (Z.ltb_ge a bp)), (proj2 (Z.ltb_ge bp z)) by lia. rewrite andb_false_r. cbn [andb orb]. rewrite andb_false_r. by rewrite Nat.sub_succ, Nat.sub_0_r.
  - destruct Hc as [-> Hc]. inversion Hs as [|? ? Hs' Hhd]; subst. apply Forall_cons in Hhd as [Hab _].
    rewrite (proj2 (Z.ltb_ge a bp)), (proj2 (Z.leb_gt b a)) by lia. cbn [andb].
    rewrite (IH b fuel z Hc) by (done || lia). by rewrite Nat.sub_succ.
Qed.

Lemma spaced_sorted F : forall lo hi a, spaced lo F hi -> a < lo -> StronglySorted Z.lt (a :: F.*1).
Proof.
  induction F as [|b F IH]; intros lo hi a; cbn [spaced].
  - intros _ _. repeat constructor.
  - intros (H1 & H2 & H3) Ha. unfold bend, HDR in *. rewrite fmap_cons. pose proof (IH _ _ b.1 H3 ltac:(lia)) as Hs.
    constructor; [done|]. constructor; [lia|]. inversion Hs as [|? ? _ Hall]; subst.
    eapply Forall_impl; [exact Hall|]. cbn. lia.
Qed.

Lemma sorted_suffix l0 : forall l, StronglySorted Z.lt (l0 ++ l) -> StronglySorted Z.lt l.
Proof. induction l0 as [|b l0 IH]; intros l; [done|]. intros H. inversion H; subst. by apply IH. Qed.

Lemma links_suffix f l0 : forall a l z x l1, links f a l z -> a :: l = l0 ++ x :: l1 -> links f x l1 z /\ List.last l1 x = List.last l a.
Proof.
  induction l0 as [|c l0 IH]; intros a l z x l1 Hc E; cbn in E; [by injection E as -> ->|].
  injection E as -> E. destruct l as [|b l]; [by destruct l0|]. cbn [links] in Hc. destruct Hc as [_ Hc].
  rewrite last_cons. by eapply IH.
Qed.

(** The node after the blocks [F1], when [F2] follow. *)
Definition next_of (F2 : list (Z * Z)) : Z := match F2 with b :: _ => b.1 | [] => base end.

Lemma links_place f F1 F2 : links f base (F1 ++ F2).*1 base -> links f base F1.*1 (next_of F2).
Proof. rewrite fmap_app. destruct F2 as [|b F2]; [by rewrite app_nil_r|]. cbn. rewrite links_app. tauto. Qed.

Lemma find_place h F1 F2 bp e : rep h (F1 ++ F2) -> spaced (base + HDR) F1 bp -> spaced e F2 (h_brk h) -> bp < e -> base + HDR <= bp ->
  free_find (ring_fuel h) h bp (h_freep h) = Some (List.last F1.*1 base).
Proof.
  intros HR H1 H2 He Hb. unfold HDR in *. pose proof (ring_fuel_enough _ _ HR) as Hf. rewrite length_app in Hf.
  pose proof (links_place _ _ _ (rep_chain _ _ HR)) as Hc.
  pose proof (spaced_sorted F1 _ _ base H1 ltac:(lia)) as Hs1.
  assert (Hlast : List.last F1.*1 base < bp).
  { pose proof (last_in F1.*1 base) as [->|(b & -> & Hi)%list_elem_of_fmap]%elem_of_cons; [lia|].
    apply spaced_bounds in H1 as [_ H1]. specialize (H1 b Hi). unfold bend, HDR in *. lia. }
  assert (Hnx : bp < next_of F2 \/ next_of F2 <= List.last F1.*1 base).
  { destruct F2 as [|b F2]; cbn [next_of spaced] in *; [|lia]. right.
    pose proof (last_in F1.*1 base) as [->|Hi]%elem_of_cons; [done|]. inversion Hs1 as [|? ? _ Hall]; subst.
    rewrite Forall_forall in Hall. specialize (Hall _ Hi). lia. }
  pose proof (rep_freep _ _ HR) as Hfp. rewrite fmap_app, app_comm_cons in Hfp. apply elem_of_app in Hfp as [Hfp|Hfp].
  - apply list_elem_of_split in Hfp as (l0 & l1 & E). destruct (links_suffix _ _ _ _ _ _ _ Hc E) as [Hc' El]. rewrite <- El in *.
    eapply find_below; [exact Hc'| | |done|done].
    + apply (f_equal length) in E. rewrite length_app in E. cbn in E. rewrite length_fmap in E. lia.
    + rewrite E in Hs1. by eapply sorted_suffix.
  - apply list_elem_of_split in Hfp as (l0 & l1 & E). pose proof (rep_chain _ _ HR) as Hr. rewrite fmap_app, E in Hr.
    rewrite app_assoc, links_app in Hr. destruct Hr as [_ Hr]. pose proof (spaced_sorted F2 _ _ (e - 1) H2 ltac:(lia)) as Hs2.
    assert (Hlen : (length l1 < length F2)%nat).
    { apply (f_equal length) in E. rewrite length_app in E. cbn in E. rewrite length_fmap in E. lia. }
    assert (Hx : bp < h_freep h).
    { rewrite E in Hs2. inversion Hs2 as [|? ? _ Hall]; subst. apply Forall_app in Hall as [_ Hall].
      apply Forall_cons in Hall as [Hall _]. lia. }
    rewrite (find_above h bp l1 _ _ base Hr); [|lia| |done|lia].
    + eapply find_below; [exact Hc|rewrite length_fmap; lia|done|done|done].
    + rewrite E in Hs2. by apply (sorted_suffix ((e - 1) :: l0)).
Qed.

(** ** free: joining the block with its neighbours *)
Definition join_right (h : heap) (bp nx : Z) : heap :=
  if bp + HDR * usize h bp =? nx
  then set_ptr bp (ptr h nx) (set_usize bp (u32 (usize h bp + usize h nx)) h)
  else set_ptr bp nx h.
Definition join_left (h : heap) (p bp : Z) : heap :=
  if p + HDR * usize h p =? bp
  then set_ptr p (ptr h bp) (set_usize p (u32 (usize h p + usize h bp)) h)
  else set_ptr p bp h.

Lemma free_eq bp h p : free_find (ring_fuel h) h bp (h_freep h) = Some p ->
  free (bp + HDR) h = Some (set_freep p (join_left (join_right h bp (ptr h p)) p bp)).
Proof. intros E. unfold free. replace (bp + HDR - HDR) with bp by lia. by rewrite E. Qed.

(** [h'] differs from [h] at the headers [xs] only. *)
Definition same_but (xs : list Z) (h h' : heap) : Prop :=
  (forall y, y ∉ xs -> ptr h' y = ptr h y /\ usize h' y = usize h y) /\
  (forall y, is_Some (h_ptr h !! y) \/ y ∈ xs -> is_Some (h_ptr h' !! y)) /\ h_freep h' = h_freep h /\ h_brk h' = h_brk h.

Lemma set_ptr_but p v h : same_but [p] h (set_ptr p v h).
Proof.
  split_and!; [|intros y Hy; cbn; destruct (decide (y = p)) as [->|]; [by rewrite lookup_insert_eq|rewrite lookup_insert_ne by done; set_solver]|done|done].
  intros y Hy. rewrite ptr_set, decide_False by set_solver. done.
Qed.
Lemma set_both_but p v n h : same_but [p] h (set_ptr p v (set_usize p n h)).
Proof.
  split_and!; [|intros y Hy; cbn; destruct (decide (y = p)) as [->|]; [by rewrite lookup_insert_eq|rewrite lookup_insert_ne by done; set_solver]|done|done].
  intros y Hy. rewrite ptr_set, decide_False by set_solver. split; [done|].
  change (usize (set_usize p n h) y = usize h y). rewrite usize_set, decide_False by set_solver. done.
Qed.
Lemma join_right_but h bp nx : same_but [bp] h (join_right h bp nx).
Proof. unfold join_right. destruct (_ =? _); [apply set_both_but|apply set_ptr_but]. Qed.
Lemma join_left_but h p bp : same_but [p] h (join_left h p bp).
Proof. unfold join_left. destruct (_ =? _); [apply set_both_but|apply set_ptr_but]. Qed.

Lemma u32_units x : 0 <= x -> HDR * x < 2 ^ 36 -> u32 x = x.
Proof. unfold HDR. intros H1 H2. apply Z.mod_small. lia. Qed.

Lemma join_right_spec h F1 F2 bp n : rep h (F1 ++ F2) -> usize h bp = n -> 1 <= n -> base + HDR <= bp -> bp ∉ (F1 ++ F2).*1 ->
  spaced (bp + HDR * n) F2 (h_brk h) -> bp + HDR * n <= h_brk h ->
  let h1 := join_right h bp (next_of F2) in
  exists m F2', usize h1 bp = m /\ n <= m /\ links (ptr h1) bp F2'.*1 base /\ (forall b, b ∈ F2' -> b ∈ F2) /\ (length F2' <= length F2)%nat /\
    spaced (bp + HDR * m + 1) F2' (h_brk h) /\ bp + HDR * m <= h_brk h /\
    (forall x, in_block (bp, m) x \/ in_free F2' x <-> in_block (bp, n) x \/ in_free F2 x).
Proof.
  intros HR Hn Hn1 Hb Hnew Hs Hbrk h1. pose proof (rep_chain _ _ HR) as Hc. rewrite fmap_app in Hc, Hnew.
  destruct (rep_limit _ _ HR) as [Hb0 Hlim]. unfold h1, join_right. rewrite Hn.
  assert (Hno : forall F, F = F2 -> (bp + HDR * n =? next_of F) = false -> exists m F2',
    usize (set_ptr bp (next_of F2) h) bp = m /\ n <= m /\ links (ptr (set_ptr bp (next_of F2) h)) bp F2'.*1 base /\
    (forall b, b ∈ F2' -> b ∈ F2) /\ (length F2' <= length F2)%nat /\ spaced (bp + HDR * m + 1) F2' (h_brk h) /\ bp + HDR * m <= h_brk h /\
    (forall x, in_block (bp, m) x \/ in_free F2' x <-> in_block (bp, n) x \/ in_free F2 x)).
  { intros F -> Hf. apply Z.eqb_neq in Hf. exists n, F2. split_and!; try done.
    - destruct F2 as [|b F2]; cbn [next_of fmap list_fmap links].
      + by rewrite ptr_set, decide_True.
      + rewrite ptr_set, decide_True by done. split; [done|]. rewrite fmap_cons, links_app in Hc. destruct Hc as [_ Hc].
        eapply links_ext; [|exact Hc]. intros x Hx. rewrite ptr_set, decide_False; [done|]. intros ->. apply Hnew. set_solver.
    - destruct F2 as [|b F2]; cbn [spaced next_of] in *; [lia|]. split; [lia|]. by destruct Hs as (_ & ? & ?). }
  destruct (bp + HDR * n =? next_of F2) eqn:E; [|by eapply Hno].
  apply Z.eqb_eq in E. clear Hno. destruct F2 as [|[a2 s2] F2]; cbn [next_of] in E; [unfold HDR in *; lia|]. cbn [fst] in E.
  cbn [spaced fst snd] in Hs. destruct Hs as (_ & Hs2 & Hs). pose proof (proj1 (spaced_bounds _ _ _ Hs)) as Hend. unfold bend in *. cbn [fst snd] in *.
  pose proof (rep_size _ _ HR) as Hsz. rewrite Forall_app, Forall_cons in Hsz. destruct Hsz as (_ & Hsz & _). cbn in Hsz.
  cbn [next_of fst]. rewrite Hsz, u32_units by (unfold HDR in *; lia). rewrite fmap_cons in Hc, Hnew. cbn [fst] in Hc, Hnew.
  exists (n + s2), F2. split_and!.
  - change (usize (set_usize bp (n + s2) h) bp = n + s2). by rewrite usize_set, decide_True.
  - lia.
  - rewrite links_app in Hc. destruct Hc as [_ Hc]. change (ptr (set_usize bp (n + s2) h)) with (ptr h).
    destruct F2 as [|b F2]; cbn [fmap list_fmap links] in *.
    + rewrite ptr_set, decide_True by done. exact Hc.
    + rewrite ptr_set, decide_True by done. destruct Hc as [-> Hc]. split; [done|].
      eapply links_ext; [|exact Hc]. intros x Hx. rewrite ptr_set, decide_False; [done|]. intros ->. apply Hnew. set_solver.
  - set_solver.
  - cbn. lia.
  - eapply spaced_lo; [|exact Hs]. unfold HDR in *. lia.
  - unfold HDR in *. lia.
  - intros x. rewrite in_free_cons. unfold in_block, bend, HDR in *. cbn [fst snd]. intuition lia.
Qed.

Lemma snoc_or_nil {A} (l : list A) : l = [] \/ exists l' x, l = l' ++ [x].
Proof. destruct l as [|x l _] using rev_ind; [by left|right; eauto]. Qed.

(** [h] holds the blocks [G]: those of [F1], a block of [m] units at [bp] and those of [F2], joined where they touch. *)
Record joined (h : heap) (F1 F2 : list (Z * Z)) (bp m p : Z) (G : list (Z * Z)) : Prop := {
  jo_chain : links (ptr h) base G.*1 base;
  jo_base : usize h base = 0;
  jo_blocks : forall b, b ∈ G -> (b ∈ F2 \/ usize h b.1 = b.2) /\ (b.1 ∈ F1.*1 \/ b.1 = bp \/ b ∈ F2);
  jo_spaced : forall hi, spaced (bp + HDR * m + 1) F2 hi -> bp + HDR * m <= hi -> spaced (base + HDR) G hi;
  jo_in : p ∈ base :: G.*1;
  jo_big : exists b, b ∈ G /\ m <= b.2;
  jo_len : (length G <= length F1 + S (length F2))%nat;
  jo_free : forall x, in_free G x <-> in_free F1 x \/ in_block (bp, m) x \/ in_free F2 x;
}.

Section Join.
Context (h h1 : heap) (F1 F2 : list (Z * Z)) (bp m z : Z).
Context (Hc : links (ptr h) base F1.*1 z) (Hnd : NoDup (base :: F1.*1)).
Context (Hbut : forall y, y ≠ bp -> ptr h1 y = ptr h y /\ usize h1 y = usize h y).
Context (Hbp : bp ∉ base :: F1.*1) (Hdisj : forall b, b ∈ F2 -> b.1 ∉ base :: F1.*1).
Context (Hm : usize h1 bp = m) (Hm1 : 1 <= m) (Hc2 : links (ptr h1) bp F2.*1 base).
Context (Hbase : usize h base = 0) (Hsz : Forall (fun b => usize h b.1 = b.2) F1).
Context (Hb : base + HDR <= bp) (Hb0 : 0 < base) (Hs : spaced (base + HDR) F1 bp) (Hlim : bp + HDR * m <= 2 ^ 36).

Lemma join_size x : x ∈ base :: F1.*1 -> usize h1 x = usize h x.
Proof. intros Hx. apply Hbut. intros ->. done. Qed.

Lemma join_old b : b ∈ F1 -> usize h b.1 = b.2 /\ b.1 ∈ F1.*1.
Proof. intros Hi. rewrite Forall_forall in Hsz. split; [by apply Hsz|apply list_elem_of_fmap; eauto]. Qed.

(** The block does not touch the one before it. *)
Lemma join_apart : let p := List.last F1.*1 base in p + HDR * usize h1 p ≠ bp ->
  joined (set_ptr p bp h1) F1 F2 bp m p (F1 ++ (bp, m) :: F2).
Proof.
  intros p E. assert (Hp : p ∈ base :: F1.*1) by apply last_in. set (h3 := set_ptr p bp h1).
  assert (Hpt : forall x, ptr h3 x = if decide (x = p) then bp else ptr h1 x) by (intros x; apply ptr_set).
  assert (Hus : forall x, usize h3 x = usize h1 x) by done.
  split; rewrite ?fmap_app, ?fmap_cons; cbn [fst].
  - apply links_app. split.
    + eapply links_redirect; [done|exact Hc| |]; fold p; [|by rewrite Hpt, decide_True].
      intros x Hx Hne. rewrite Hpt, decide_False by done. apply Hbut. intros ->. done.
    + eapply links_ext; [|exact Hc2]. intros x Hx. rewrite Hpt, decide_False; [done|]. intros ->.
      apply elem_of_cons in Hx as [Hx|Hx]; [by rewrite Hx in Hp|]. apply list_elem_of_fmap in Hx as (b & Eb & Hx).
      apply (Hdisj b Hx). by rewrite <- Eb.
  - rewrite Hus, join_size by set_solver. done.
  - intros b Hb'. rewrite Hus. apply elem_of_app in Hb' as [Hb'|[->|Hb']%elem_of_cons].
    + destruct (join_old b Hb') as [E1 E2]. rewrite join_size by set_solver. split; [by right|by left].
    + cbn. split; [by right|by right; left].
    + split; [by left|by right; right].
  - intros hi Hs2 Hhi. apply spaced_app. unfold bend. cbn [fst snd]. split_and!; [|lia|done].
    destruct (snoc_or_nil F1) as [->|(F' & [a1 s1] & E1)]; [cbn; lia|].
    assert (Ep : p = a1) by (unfold p; rewrite E1, fmap_app, last_app; done). rewrite join_size in E by done.
    assert (Ha : (a1, s1) ∈ F1) by (rewrite E1; set_solver). destruct (join_old _ Ha) as [Hs1 _]. cbn in Hs1. rewrite Ep, Hs1 in E.
    pose proof Hs as Hs'. rewrite E1 in Hs' |- *. apply spaced_app in Hs' as (H1 & H2 & H3). apply spaced_app.
    split_and!; [done|done|]. cbn in *. unfold bend in *. cbn [fst snd] in *. lia.
  - set_solver.
  - exists (bp, m). split; [set_solver|cbn; lia].
  - by rewrite length_app.
  - intros x. by rewrite in_free_app, in_free_cons.
Qed.
End Join.

(** The block touches the one before it, [(a1, s1)]. *)
Lemma join_touch h h1 F1 a1 s1 F2 bp m z : links (ptr h) base (F1.*1 ++ [a1]) z -> a1 ∉ base :: F1.*1 ->
  (forall y, y ≠ bp -> ptr h1 y = ptr h y /\ usize h1 y = usize h y) -> bp ∉ base :: F1.*1 -> bp ≠ a1 ->
  (forall b, b ∈ F2 -> b.1 ≠ a1) -> usize h1 bp = m -> 1 <= m -> links (ptr h1) bp F2.*1 base ->
  usize h base = 0 -> Forall (fun b => usize h b.1 = b.2) F1 -> usize h a1 = s1 -> 1 <= s1 -> 0 < base ->
  spaced (base + HDR) F1 (a1 - 1) -> a1 + HDR * s1 = bp -> bp + HDR * m <= 2 ^ 36 ->
  joined (set_ptr a1 (ptr h1 bp) (set_usize a1 (u32 (usize h1 a1 + usize h1 bp)) h1)) (F1 ++ [(a1, s1)]) F2 bp m a1 (F1 ++ (a1, s1 + m) :: F2).
Proof.
  intros Hc Ha1 Hbut Hbp Hne Hdisj Hm Hm1 Hc2 Hbase Hsz Hs1 Hs1' Hb0 Hs E Hlim.
  pose proof (proj1 (spaced_bounds _ _ _ Hs)) as Hlo. rewrite Hm, (proj2 (Hbut a1 ltac:(done))), Hs1, u32_units by (unfold HDR in *; lia).
  set (h3 := set_ptr a1 (ptr h1 bp) (set_usize a1 (s1 + m) h1)).
  assert (Hpt : forall x, ptr h3 x = if decide (x = a1) then ptr h1 bp else ptr h1 x) by (intros x; unfold h3; by rewrite ptr_set).
  assert (Hus : forall x, usize h3 x = if decide (x = a1) then s1 + m else usize h1 x) by (intros x; apply (usize_set a1 (s1 + m) h1)).
  assert (Hin : forall x, x ∈ base :: F1.*1 -> x ≠ a1 /\ x ≠ bp) by (intros x Hx; split; intros ->; done).
  split; rewrite ?fmap_app, ?fmap_cons; cbn [fst].
  - apply links_app in Hc as [Hc _]. apply links_app. split.
    + eapply links_ext; [|exact Hc]. intros x Hx. destruct (Hin x Hx). rewrite Hpt, decide_False by done. by apply Hbut.
    + destruct F2 as [|b F2]; cbn [fmap list_fmap links] in *; [by rewrite Hpt, decide_True|]. destruct Hc2 as [E2 Hc2].
      rewrite Hpt, decide_True by done. split; [done|]. eapply links_ext; [|exact Hc2]. intros x Hx.
      rewrite Hpt, decide_False; [done|]. intros ->. change (a1 ∈ (b :: F2).*1) in Hx.
      apply list_elem_of_fmap in Hx as (b' & Eb & Hx). by apply (Hdisj b' Hx).
  - destruct (Hin base ltac:(set_solver)). rewrite Hus, decide_False by done. by rewrite (proj2 (Hbut base ltac:(done))).
  - intros b Hb'. rewrite Hus. apply elem_of_app in Hb' as [Hb'|[->|Hb']%elem_of_cons].
    + rewrite Forall_forall in Hsz. assert (Hbi : b.1 ∈ F1.*1) by (apply list_elem_of_fmap; eauto).
      destruct (Hin b.1 ltac:(set_solver)). rewrite decide_False, (proj2 (Hbut b.1 ltac:(done))) by done. split; [right; by apply Hsz|left; set_solver].
    + cbn. rewrite decide_True by done. split; [by right|left; set_solver].
    + split; [by left|by right; right].
  - intros hi Hs2 Hhi. apply spaced_app. cbn [fst snd]. split_and!; [done|lia|]. unfold bend. cbn [fst snd].
    eapply spaced_lo; [|exact Hs2]. unfold HDR in *. lia.
  - set_solver.
  - exists (a1, s1 + m). split; [set_solver|cbn; lia].
  - rewrite !length_app. cbn. lia.
  - intros x. rewrite !in_free_app, !in_free_cons. rewrite in_free_nil. unfold in_block, bend, HDR in *. cbn [fst snd]. intuition lia.
Qed.

(** ** free *)
Lemma last_fst (F : list (Z * Z)) b : List.last (F ++ [b]).*1 base = b.1.
Proof. by rewrite fmap_app, last_app. Qed.

Lemma join_both_but h p bp nx : let h2 := join_left (join_right h bp nx) p bp in
  (forall y, y ≠ p -> y ≠ bp -> usize h2 y = usize h y) /\
  (forall y, is_Some (h_ptr h !! y) \/ y = bp -> is_Some (h_ptr h2 !! y)) /\ h_brk h2 = h_brk h.
Proof.
  intros h2. pose proof (join_right_but h bp nx) as (Hbut & Hdom & _ & Hbk).
  pose proof (join_left_but (join_right h bp nx) p bp) as (Hbut2 & Hdom2 & _ & Hbk2).
  fold h2 in Hbut2, Hdom2, Hbk2. split_and!; [| |congruence].
  - intros y Hp Hyb. rewrite (proj2 (Hbut2 y ltac:(set_solver))). apply Hbut. set_solver.
  - intros y Hy. apply Hdom2. left. apply Hdom. set_solver.
Qed.

Section Freeing.
Context (h : heap) (F1 F2 : list (Z * Z)) (bp n : Z) (HR : rep h (F1 ++ F2)) (Hn : usize h bp = n) (Hn1 : 1 <= n).
Context (Hb : base + HDR <= bp) (Hbrk : bp + HDR * n <= h_brk h) (Hnew : bp ∉ base :: (F1 ++ F2).*1).
Context (Hs1 : spaced (base + HDR) F1 bp) (Hs2 : spaced (bp + HDR * n) F2 (h_brk h)).
Let p := List.last F1.*1 base.
Let h1 := join_right h bp (next_of F2).
Let h2 := join_left h1 p bp.

Lemma freeing_apart b : b ∈ F2 -> b.1 ∉ base :: F1.*1.
Proof.
  intros Hi Hx. pose proof (rep_nodup _ _ HR) as Hnd. rewrite fmap_app, app_comm_cons in Hnd.
  apply NoDup_app in Hnd as (_ & Hnd & _). apply (Hnd _ Hx). apply list_elem_of_fmap. eauto.
Qed.

Lemma freeing_joined : exists m F2' G, n <= m /\ (forall b, b ∈ F2' -> b ∈ F2) /\ (length F2' <= length F2)%nat /\
  spaced (bp + HDR * m + 1) F2' (h_brk h) /\ bp + HDR * m <= h_brk h /\
  (forall x, in_block (bp, m) x \/ in_free F2' x <-> in_block (bp, n) x \/ in_free F2 x) /\ joined h2 F1 F2' bp m p G.
Proof.
  destruct (rep_limit _ _ HR) as [Hb0 Hlim]. pose proof (rep_size _ _ HR) as Hsz. apply Forall_app in Hsz as [Hsz1 Hsz2].
  destruct (join_right_spec h F1 F2 bp n HR Hn Hn1 Hb ltac:(set_solver) Hs2 Hbrk) as (m & F2' & Hm & Hnm & Hc2 & Hsub & Hlen & Hs3 & Hbm & Hin).
  exists m, F2'. assert (HJ : exists G, joined h2 F1 F2' bp m p G); [|destruct HJ as [G HJ]; by exists G].
  pose proof (join_right_but h bp (next_of F2)) as (Hbut & _). fold h1 in Hbut, Hm, Hc2.
  assert (Hbut' : forall y, y ≠ bp -> ptr h1 y = ptr h y /\ usize h1 y = usize h y) by (intros y Hy; apply Hbut; set_solver).
  assert (Hdisj : forall b, b ∈ F2' -> b.1 ∉ base :: F1.*1) by (intros b Hi; by apply freeing_apart, Hsub).
  pose proof (rep_nodup _ _ HR) as Hnd. rewrite fmap_app in Hnd, Hnew. rewrite app_comm_cons in Hnd. apply NoDup_app in Hnd as (Hnd & _).
  pose proof (links_place _ _ _ (rep_chain _ _ HR)) as Hc1.
  unfold h2, join_left. destruct (Z.eqb_spec (p + HDR * usize h1 p) bp) as [E|E].
  2:{ eexists. eapply join_apart; try done; [set_solver|lia|by apply (rep_base _ _ HR)|lia]. }
  unfold p in *. clear h2 p. destruct (snoc_or_nil F1) as [E1|(F1' & [a1 s1] & E1)]; rewrite E1 in *.
  { exfalso. cbn in E. rewrite (proj2 (Hbut' base ltac:(set_solver))), (rep_base _ _ HR) in E. unfold HDR in *. lia. }
  rewrite last_fst in *. cbn [fst] in *. rewrite fmap_app in *. cbn [fmap list_fmap fst] in *.
  apply Forall_app in Hsz1 as [Hsz1 [Hs _]%Forall_cons]. cbn in Hs. pose proof Hs1 as Hs1'.
  apply spaced_app in Hs1' as (Hsp & Hsp' & _). cbn in Hsp, Hsp'.
  assert (Ha : a1 ≠ bp) by (intros ->; set_solver). rewrite (proj2 (Hbut' a1 Ha)), Hs in E.
  eexists. eapply (join_touch h h1 F1' a1 s1 F2' bp m); try done; [ |set_solver| |lia|by apply (rep_base _ _ HR)|lia].
  - rewrite app_comm_cons in Hnd. apply NoDup_app in Hnd as (_ & Hnd & _). intros Hx. apply (Hnd _ Hx). set_solver.
  - intros b Hi Eb. apply (Hdisj b Hi). rewrite Eb. set_solver.
Qed.

Lemma freeing_rep m F2' G : (forall b, b ∈ F2' -> b ∈ F2) -> spaced (bp + HDR * m + 1) F2' (h_brk h) -> bp + HDR * m <= h_brk h ->
  joined h2 F1 F2' bp m p G -> rep (set_freep p h2) G.
Proof.
  intros Hsub Hs3 Hbm HJ. destruct (join_both_but h p bp (next_of F2)) as (Hbut & Hdom & Hbk). fold h1 h2 in Hbut, Hdom, Hbk. pose proof (last_in F1.*1 base) as Hlast. fold p in Hlast.
  split; cbn [set_freep h_freep h_brk].
  - apply (jo_chain _ _ _ _ _ _ _ HJ).
  - intros x Hx. apply Hdom. destruct (decide (x = bp)) as [->|Hxb]; [by right|left].
    apply (rep_dom _ _ HR). rewrite fmap_app. apply elem_of_cons in Hx as [->|(b & -> & Hi)%list_elem_of_fmap]; [set_solver|].
    destruct (jo_blocks _ _ _ _ _ _ _ HJ b Hi) as [_ [H1|[H1|H1%Hsub]]]; [set_solver|done|].
    assert (b.1 ∈ F2.*1) by (apply list_elem_of_fmap; eauto). set_solver.
  - apply Forall_forall. intros b Hi. destruct (jo_blocks _ _ _ _ _ _ _ HJ b Hi) as [[H1|H1] _]; [|exact H1].
    apply Hsub in H1. pose proof (freeing_apart b H1) as Hp. change (usize h2 b.1 = b.2).
    assert (Hb1 : b.1 ∈ (F1 ++ F2).*1) by (apply list_elem_of_fmap; exists b; split; [done|set_solver]).
    rewrite Hbut by (intros Ex; rewrite Ex in *; set_solver). pose proof (rep_size _ _ HR) as Hsz. rewrite Forall_forall in Hsz. apply Hsz. set_solver.
  - apply (jo_base _ _ _ _ _ _ _ HJ).
  - rewrite Hbk. by apply (jo_spaced _ _ _ _ _ _ _ HJ).
  - apply (jo_in _ _ _ _ _ _ _ HJ).
  - rewrite Hbk. apply (rep_limit _ _ HR).
Qed.
End Freeing.

Lemma free_spec h F bp n : rep h F -> usize h bp = n -> 1 <= n -> base + HDR <= bp -> bp + HDR * n <= h_brk h ->
  (forall x, in_block (bp, n) x -> ~ in_free F x) ->
  exists h' F', free (bp + HDR) h = Some h' /\ rep h' F' /\ h_brk h' = h_brk h /\
    (forall x, in_free F' x <-> in_free F x \/ in_block (bp, n) x) /\ (exists b, b ∈ F' /\ n <= b.2) /\
    (length F' <= S (length F))%nat /\ (forall y, y ∉ base :: F.*1 -> y ≠ bp -> usize h' y = usize h y).
Proof.
  intros HR Hn Hn1 Hb Hbrk Hd.
  destruct (split_at F _ _ bp (bp + HDR * n) (rep_spaced _ _ HR)) as (F1 & F2 & -> & Hs1 & Hs2).
  { lia. } { unfold HDR; lia. } { done. } { intros x Hx. apply Hd. exact Hx. }
  assert (Hnew : bp ∉ base :: (F1 ++ F2).*1).
  { intros [->|(b & -> & Hi)%list_elem_of_fmap]%elem_of_cons; [unfold HDR in *; lia|].
    pose proof (spaced_bounds _ _ _ (rep_spaced _ _ HR)) as [_ Hx]. specialize (Hx b Hi).
    apply (Hd b.1); [unfold in_block, bend, HDR in *; cbn; lia|]. apply Exists_exists. exists b. split; [done|]. unfold in_block, bend, HDR in *. lia. }
  pose proof (find_place h F1 F2 bp _ HR Hs1 Hs2 ltac:(unfold HDR; lia) Hb) as Hfind. rewrite (free_eq _ _ _ Hfind).
  rewrite (links_last _ _ _ _ (links_place _ _ _ (rep_chain _ _ HR))).
  destruct (freeing_joined h F1 F2 bp n HR Hn Hn1 Hb Hbrk Hnew Hs1 Hs2) as (m & F2' & G & Hnm & Hsub & Hlen & Hs3 & Hbm & Hin & HJ).
  destruct (join_both_but h (List.last F1.*1 base) bp (next_of F2)) as (Hbut & _ & Hbk). eexists _, G. split; [reflexivity|]. split_and!.
  - by eapply freeing_rep.
  - exact Hbk.
  - intros x. rewrite (jo_free _ _ _ _ _ _ _ HJ), in_free_app. specialize (Hin x). tauto.
  - destruct (jo_big _ _ _ _ _ _ _ HJ) as (b & Hi & Hle). exists b. split; [done|lia].
  - pose proof (jo_len _ _ _ _ _ _ _ HJ). rewrite length_app. lia.
  - intros y Hy Hyb. apply Hbut; [|done]. pose proof (last_in F1.*1 base). rewrite fmap_app in Hy. set_solver.
Qed.

(** ** malloc: taking units from a block *)
Definition take_from (h : heap) (nunits prevp p : Z) : Z * heap :=
  if usize h p =? nunits then (p + HDR, set_freep prevp (set_ptr prevp (ptr h p) h))
  else
    let rest := usize h p - nunits in
    let q := p + HDR * rest in
    (q + HDR, set_freep prevp (set_usize q nunits (set_usize p rest h))).

(** Where a block lies among the others. *)
Lemma spaced_at F1 q s F2 lo hi : spaced lo (F1 ++ (q, s) :: F2) hi ->
  lo <= q /\ 1 <= s /\ q + HDR * s <= hi /\ (forall b, b ∈ F1 -> bend b < q) /\ (forall b, b ∈ F2 -> q + HDR * s < b.1).
Proof.
  intros (H1 & H2 & H3)%spaced_app. cbn in *. apply spaced_bounds in H1 as [H1 H1'], H3 as [H3 H3']. unfold bend, HDR in *. cbn [fst snd] in *.
  split_and!; [lia|lia|lia| |].
  - intros b Hi. specialize (H1' b Hi). lia.
  - intros b Hi. specialize (H3' b Hi). lia.
Qed.

Lemma spaced_drop F1 b F2 lo hi : spaced lo (F1 ++ b :: F2) hi -> spaced lo (F1 ++ F2) hi.
Proof.
  intros (H1 & H2 & H3)%spaced_app. unfold bend, HDR in H3. destruct F2 as [|c F2].
  - rewrite app_nil_r. cbn in H3. eapply spaced_hi; [|exact H1]. lia.
  - cbn [spaced] in H3. apply spaced_app. destruct H3 as (H3 & H4 & H5). split_and!; [|done|done]. eapply spaced_hi; [|exact H1]. lia.
Qed.

(** What malloc promises of the block of [n] units at [a] that it takes from the free blocks [F]. *)
Record taken (h : heap) (F : list (Z * Z)) (a n : Z) (h' : heap) (F' : list (Z * Z)) : Prop := {
  tk_rep : rep h' F';
  tk_size : usize h' a = n;
  tk_brk : h_brk h' = h_brk h;
  tk_place : base + HDR <= a /\ a + HDR * n <= h_brk h;
  tk_free : forall x, in_free F x <-> in_free F' x \/ in_block (a, n) x;
  tk_own : forall x, in_block (a, n) x -> ~ in_free F' x;
  tk_frame : forall y, ~ in_free F y -> y ≠ base -> usize h' y = usize h y;
}.

Section Take.
Context (h : heap) (F1 : list (Z * Z)) (q s : Z) (F2 : list (Z * Z)).
Context (HR : rep h (F1 ++ (q, s) :: F2)).
Let prev := List.last F1.*1 base.

Lemma take_facts : usize h q = s /\ ptr h prev = q /\ links (ptr h) base F1.*1 q /\ links (ptr h) q F2.*1 base /\
  (forall b, b ∈ F1 \/ b ∈ F2 -> usize h b.1 = b.2) /\ NoDup (base :: F1.*1) /\ (forall x, x ∈ F2.*1 -> x ∉ base :: F1.*1) /\ q ≠ base.
Proof.
  pose proof (rep_size _ _ HR) as Hsz. apply Forall_app in Hsz as [Hs1 [Hs Hs2]%Forall_cons]. rewrite Forall_forall in Hs1, Hs2.
  pose proof (rep_chain _ _ HR) as Hc. rewrite fmap_app, fmap_cons in Hc. apply links_app in Hc as [Hc1 Hc2].
  pose proof (rep_nodup _ _ HR) as Hn. rewrite fmap_app, fmap_cons, app_comm_cons in Hn. apply NoDup_app in Hn as (Hn & Hd & _).
  split_and!; try done.
  - by apply links_last.
  - intros b [Hi|Hi]; auto.
  - intros x Hx Hx'. apply (Hd x Hx'). set_solver.
  - intros ->. apply (Hd base); set_solver.
Qed.

Lemma block_in_free x : in_block (q, s) x -> in_free (F1 ++ (q, s) :: F2) x.
Proof. intros Hx. rewrite in_free_app, in_free_cons. tauto. Qed.

Context (n : Z) (Hn1 : 1 <= n).

(** The whole block is taken. *)
Lemma take_all : s = n -> taken h (F1 ++ (q, s) :: F2) q n (set_freep prev (set_ptr prev (ptr h q) h)) (F1 ++ F2).
Proof.
  intros Es. destruct take_facts as (Hq & Hp & Hc1 & Hc2 & Hsz & Hnd & Hdis & Hqb). pose proof (rep_spaced _ _ HR) as Hs.
  destruct (spaced_at _ _ _ _ _ _ Hs) as (Hlo & _ & Hhi & HF1 & HF2).
  assert (Hprev : prev ∈ base :: F1.*1) by apply last_in. set (h' := set_freep prev _).
  assert (Hpt : forall x, ptr h' x = if decide (x = prev) then ptr h q else ptr h x) by (intros x; apply (ptr_set prev (ptr h q) h)).
  assert (Hch : links (ptr h') base F1.*1 (ptr h q)).
  { eapply links_redirect; [done|exact Hc1| |]; fold prev; [|by rewrite Hpt, decide_True]. intros x _ Hne. by rewrite Hpt, decide_False. }
  split; [split|..]; cbn [h_brk h_freep set_freep set_ptr]; try done.
  - rewrite fmap_app. destruct F2 as [|b F2']; [rewrite app_nil_r; cbn in Hc2; by rewrite Hc2 in Hch|]. rewrite fmap_cons in *. cbn [links] in Hc2.
    destruct Hc2 as [Eb Hc2]. rewrite Eb in Hch. apply links_app. split; [done|]. eapply links_ext; [|exact Hc2]. intros x Hx. rewrite Hpt, decide_False; [done|].
    intros ->. by apply (Hdis prev).
  - intros x Hx. unfold h'. cbn. destruct (decide (x = prev)) as [->|]; [by rewrite lookup_insert_eq|]. rewrite lookup_insert_ne by done.
    apply (rep_dom _ _ HR). rewrite !fmap_app in *. set_solver.
  - apply Forall_forall. intros b Hi. apply elem_of_app in Hi. change (usize h b.1 = b.2). by apply Hsz.
  - apply (rep_base _ _ HR).
  - by eapply spaced_drop.
  - rewrite fmap_app. set_solver.
  - apply (rep_limit _ _ HR).
  - change (usize h q = n). congruence.
  - by rewrite <- Es.
  - intros x. rewrite !in_free_app, in_free_cons, <- Es. tauto.
  - intros x Hx Hf. rewrite <- Es in Hx. apply in_free_app in Hf. unfold in_block, bend in Hx. cbn in Hx.
    destruct Hf as [(b & Hi & Hb)%Exists_exists|(b & Hi & Hb)%Exists_exists]; unfold in_block in Hb; [specialize (HF1 b Hi)|specialize (HF2 b Hi)]; lia.
Qed.

(** The end of the block is taken. *)
Lemma take_end : n < s -> let rest := s - n in let a := q + HDR * rest in
  taken h (F1 ++ (q, s) :: F2) a n (set_freep prev (set_usize a n (set_usize q rest h))) (F1 ++ (q, rest) :: F2).
Proof.
  intros Hlt rest a. destruct take_facts as (Hq & Hp & Hc1 & Hc2 & Hsz & Hnd & Hdis & Hqb). pose proof (rep_spaced _ _ HR) as Hs.
  destruct (spaced_at _ _ _ _ _ _ Hs) as (Hlo & _ & Hhi & HF1 & HF2). set (h' := set_freep prev _).
  assert (Hus : forall x, usize h' x = if decide (x = a) then n else if decide (x = q) then rest else usize h x).
  { intros x. unfold h'. change (usize (set_usize a n (set_usize q rest h)) x = if decide (x = a) then n else if decide (x = q) then rest else usize h x).
    by rewrite !usize_set. }
  assert (Hne : forall b, b ∈ F1 \/ b ∈ F2 -> b.1 ≠ a /\ b.1 ≠ q).
  { intros b [Hi|Hi]; [specialize (HF1 b Hi)|specialize (HF2 b Hi)]; unfold bend, a, rest, HDR in *; [|lia].
    apply spaced_app in Hs as (Hs & _). apply spaced_bounds in Hs as [_ Hs]. specialize (Hs b Hi). lia. }
  assert (Hout : forall y, ~ in_free (F1 ++ (q, s) :: F2) y -> y ≠ a /\ y ≠ q).
  { intros y Hy. split; intros ->; apply Hy, block_in_free; unfold in_block, bend, a, rest, HDR in *; cbn [fst snd]; lia. }
  split; [split|..]; cbn [h_brk h_freep set_freep set_usize]; try done.
  - rewrite fmap_app, fmap_cons. apply links_app. by split.
  - intros x Hx. apply (rep_dom _ _ HR). by rewrite !fmap_app, !fmap_cons in *.
  - apply Forall_forall. intros b Hi. rewrite Hus. apply elem_of_app in Hi as [Hi|[->|Hi]%elem_of_cons].
    + destruct (Hne b ltac:(auto)). rewrite !decide_False by done. by apply Hsz; left.
    + cbn. rewrite decide_False by (unfold a, rest, HDR; lia). by rewrite decide_True.
    + destruct (Hne b ltac:(auto)). rewrite !decide_False by done. by apply Hsz; right.
  - rewrite Hus, !decide_False; [apply (rep_base _ _ HR)|done|]. unfold a, rest, HDR in *. lia.
  - apply spaced_app in Hs as (H1 & H2 & H3). apply spaced_app. cbn [fst snd] in *. split_and!; [done|unfold rest; lia|].
    eapply spaced_lo; [|exact H3]. unfold bend, rest, HDR. cbn. lia.
  - rewrite fmap_app, fmap_cons. pose proof (last_in F1.*1 base). set_solver.
  - apply (rep_limit _ _ HR).
  - by rewrite Hus, decide_True.
  - unfold a, rest, HDR in *. lia.
  - intros x. rewrite !in_free_app, !in_free_cons. unfold in_block, bend, a, rest, HDR. cbn [fst snd]. intuition lia.
  - intros x Hx Hf. apply in_free_app in Hf. rewrite in_free_cons in Hf. unfold in_block, bend, a, rest, HDR in *. cbn [fst snd] in *.
    destruct Hf as [(b & Hi & Hb)%Exists_exists|[Hb|(b & Hi & Hb)%Exists_exists]]; [specialize (HF1 b Hi)| |specialize (HF2 b Hi)]; unfold in_block, bend, HDR in *; lia.
  - intros y Hy _. destruct (Hout y Hy). by rewrite Hus, !decide_False.
Qed.
End Take.

Lemma take_from_spec h F prev q n : rep h F -> prev ∈ base :: F.*1 -> ptr h prev = q -> 1 <= n <= usize h q ->
  exists a h' F', take_from h n prev q = (a + HDR, h') /\ taken h F a n h' F'.
Proof.
  intros HR Hp Eq Hn. pose proof (links_next _ _ _ _ (rep_chain _ _ HR) prev Hp) as Hq. rewrite Eq in Hq.
  apply elem_of_app in Hq as [Hq|Hq]; [|apply list_elem_of_singleton in Hq; subst q; rewrite Hq, (rep_base _ _ HR) in Hn; lia].
  apply list_elem_of_fmap in Hq as ([q' s] & -> & Hq). apply list_elem_of_split in Hq as (F1 & F2 & ->). cbn [fst] in *.
  destruct (take_facts h F1 q' s F2 HR) as (Hs & Hpp & _).
  assert (E : prev = List.last F1.*1 base).
  { eapply links_pred; [apply (rep_chain _ _ HR)| |done| |congruence].
    - rewrite <- Permutation_cons_append. by apply (rep_nodup h).
    - rewrite fmap_app. pose proof (last_in F1.*1 base). set_solver. }
  rewrite E. unfold take_from. rewrite Hs in *. destruct (Z.eqb_spec s n) as [->|Hne].
  - eexists _, _, _. split; [reflexivity|]. apply (take_all h F1 q' n F2 HR n); (done || lia).
  - eexists _, _, _. split; [reflexivity|]. apply (take_end h F1 q' s F2 HR n); lia.
Qed.

(** ** The search of malloc *)
Lemma search_chain n h : forall l prevp x k, links (ptr h) prevp l x -> h_freep h = x -> x ∉ l ->
  (exists prev q, prev ∈ prevp :: l /\ ptr h prev = q /\ n <= usize h q /\
     malloc_loop grow (length l + S k) n prevp (ptr h prevp) h = Some (take_from h n prev q)) \/
  ((forall q, q ∈ l ++ [x] -> usize h q < n) /\
   malloc_loop grow (length l + S k) n prevp (ptr h prevp) h =
   match morecore grow n h with
   | None => None
   | Some (p, h') => if p =? 0 then Some (0, h') else malloc_loop grow k n p (ptr h' p) h'
   end).
Proof.
  assert (Hhit : forall f prevp q, n <= usize h q -> malloc_loop grow (S f) n prevp q h = Some (take_from h n prevp q)).
  { intros f prevp q Hq. cbn [malloc_loop]. rewrite (proj2 (Z.leb_le _ _) Hq). unfold take_from. by destruct (_ =? _). }
  induction l as [|b l IH]; intros prevp x k Hc Hx Hnin; cbn [links] in Hc.
  - destruct (decide (n <= usize h x)) as [Hle|Hgt].
    + left. exists prevp, x. rewrite Hc. split_and!; [set_solver|done|done|]. by apply Hhit.
    + right. split; [intros q Hq; apply list_elem_of_singleton in Hq; subst; lia|]. rewrite Hc. cbn [length Nat.add malloc_loop].
      rewrite (proj2 (Z.leb_gt _ _)) by lia. by rewrite Hx, Z.eqb_refl.
  - destruct Hc as [Hb Hc]. rewrite Hb. destruct (decide (n <= usize h b)) as [Hle|Hgt].
    + left. exists prevp, b. split_and!; [set_solver|done|done|]. by apply Hhit.
    + assert (Estep : malloc_loop grow (length (b :: l) + S k) n prevp b h = malloc_loop grow (length l + S k) n b (ptr h b) h).
      { cbn [length Nat.add malloc_loop]. rewrite (proj2 (Z.leb_gt _ _)) by lia. rewrite Hx, (proj2 (Z.eqb_neq b x)); [done|set_solver]. }
      rewrite Estep. destruct (IH b x k Hc Hx ltac:(set_solver)) as [(prev & q & H1 & H2)|[H1 H2]].
      * left. exists prev, q. split; [set_solver|done].
      * right. split; [|done]. intros q Hq. cbn in Hq. apply elem_of_cons in Hq as [->|Hq]; [lia|by apply H1].
Qed.

(** Walking once around the ring from freep. *)
Lemma search_ring n h F k : rep h F ->
  (exists prev q, prev ∈ base :: F.*1 /\ ptr h prev = q /\ n <= usize h q /\
     malloc_loop grow (length F + S k) n (h_freep h) (ptr h (h_freep h)) h = Some (take_from h n prev q)) \/
  ((forall b, b ∈ F -> b.2 < n) /\
   malloc_loop grow (length F + S k) n (h_freep h) (ptr h (h_freep h)) h =
   match morecore grow n h with
   | None => None
   | Some (p, h') => if p =? 0 then Some (0, h') else malloc_loop grow k n p (ptr h' p) h'
   end).
Proof.
  intros HR. assert (Hrot : exists l, links (ptr h) (h_freep h) l (h_freep h) /\ h_freep h :: l ≡ₚ base :: F.*1).
  { pose proof (rep_freep _ _ HR) as Hf. pose proof (rep_chain _ _ HR) as Hc. apply elem_of_cons in Hf as [->|Hf]; [by exists F.*1|].
    apply list_elem_of_split in Hf as (l1 & l2 & E). rewrite E in Hc |- *. exists (l2 ++ base :: l1). split; [by apply links_rotate|].
    rewrite <- !Permutation_middle. rewrite (Permutation_app_comm l2 l1). constructor. }
  destruct Hrot as (l & Hc & Hp). assert (Hlen : length l = length F).
  { apply Permutation_length in Hp. cbn in Hp. rewrite length_fmap in Hp. lia. }
  assert (Hnin : h_freep h ∉ l). { pose proof (rep_nodup _ _ HR) as Hn. rewrite <- Hp in Hn. by apply NoDup_cons in Hn as [? _]. }
  rewrite <- Hlen. destruct (search_chain n h l _ _ k Hc eq_refl Hnin) as [(prev & q & H1 & H2)|[H1 H2]].
  - left. exists prev, q. split; [by rewrite <- Hp|done].
  - right. split; [|done]. intros b Hb. pose proof (rep_size _ _ HR) as Hs. rewrite Forall_forall in Hs. rewrite <- (Hs b Hb). apply H1.
    rewrite <- Permutation_cons_append, Hp. apply elem_of_cons. right. apply list_elem_of_fmap. eauto.
Qed.

(** ** malloc *)
Context (Hgrow : forall b n, grow b n = true -> b + n <= 2 ^ 36).

Lemma rep_extend h F n : rep h F -> 0 <= n -> h_brk h + HDR * n <= 2 ^ 36 ->
  rep (set_usize (h_brk h) n (set_brk (h_brk h + HDR * n) h)) F.
Proof.
  intros HR Hn Hlim. destruct (rep_limit _ _ HR) as [Hb Hl]. pose proof (spaced_bounds _ _ _ (rep_spaced _ _ HR)) as [_ Hs].
  assert (Hus : forall x, x ≠ h_brk h -> usize (set_usize (h_brk h) n (set_brk (h_brk h + HDR * n) h)) x = usize h x).
  { intros x Hx. by rewrite usize_set, decide_False. }
  split; cbn [h_brk h_freep set_usize set_brk].
  - apply (rep_chain _ _ HR).
  - apply (rep_dom _ _ HR).
  - pose proof (rep_size _ _ HR) as Hz. rewrite Forall_forall in *. intros b Hi. rewrite Hus; [by apply Hz|].
    specialize (Hs b Hi). unfold bend, HDR in *. lia.
  - rewrite Hus by (unfold HDR in *; lia). apply (rep_base _ _ HR).
  - eapply spaced_hi; [|apply (rep_spaced _ _ HR)]. unfold HDR. lia.
  - apply (rep_freep _ _ HR).
  - unfold HDR in *. lia.
Qed.

(** More memory: a fresh block at the break joins the free blocks. *)
Lemma morecore_spec h F n : rep h F -> 1 <= n -> n * HDR < 2 ^ 31 ->
  let nu := if n <? 4096 then 4096 else n in
  (grow (h_brk h) (nu * HDR) = false /\ morecore grow n h = Some (0, h)) \/
  exists h' F', morecore grow n h = Some (h_freep h', h') /\ rep h' F' /\ h_brk h' = h_brk h + HDR * nu /\
    (forall x, in_free F' x <-> in_free F x \/ h_brk h <= x < h_brk h') /\ (exists b, b ∈ F' /\ n <= b.2) /\
    (length F' <= S (length F))%nat /\ (forall y, ~ in_free F y -> y ≠ base -> y < h_brk h -> usize h' y = usize h y).
Proof.
  intros HR Hn Hn31 nu. assert (Hnu : n <= nu /\ 4096 <= nu /\ nu * HDR < 2 ^ 31) by (unfold nu, HDR in *; destruct (Z.ltb_spec n 4096); lia).
  unfold morecore. fold nu. unfold sbrk. rewrite (i32_small (nu * HDR)) by (unfold HDR in *; lia).
  rewrite (proj2 (Z.leb_gt (nu * HDR) 0)) by (unfold HDR in *; lia). cbn [orb].
  destruct (grow (h_brk h) (nu * HDR)) eqn:Eg; [right|by left]. apply Hgrow in Eg. rewrite (Z.mul_comm nu HDR) in *.
  pose proof (rep_extend h F nu HR ltac:(lia) Eg) as HR'. set (h0 := set_usize (h_brk h) nu _) in *.
  destruct (rep_limit _ _ HR) as [Hb Hl]. pose proof (spaced_bounds _ _ _ (rep_spaced _ _ HR)) as [_ Hs].
  destruct (free_spec h0 F (h_brk h) nu HR') as (h' & F' & E & HR'' & Hbrk & Hin & Hbig & Hlen & Hfr).
  - unfold h0. by rewrite usize_set, decide_True.
  - lia.
  - lia.
  - done.
  - intros x Hx Hf. apply (in_free_bounds F _ _ x (rep_spaced _ _ HR)) in Hf. unfold in_block in Hx. cbn in Hx. lia.
  - rewrite E. exists h', F'. split; [done|]. split; [done|]. split; [by rewrite Hbrk|]. split_and!.
    + intros x. rewrite Hin, Hbrk. unfold in_block, bend. done.
    + destruct Hbig as (b & Hi & Hle). exists b. split; [done|lia].
    + done.
    + intros y Hy Hyb Hlt. rewrite Hfr.
      * unfold h0. by rewrite usize_set, decide_False by lia.
      * intros [->|(b & -> & Hi)%list_elem_of_fmap]%elem_of_cons; [done|]. apply Hy. apply Exists_exists. exists b. split; [done|].
        specialize (Hs b Hi). unfold in_block, bend, HDR in *. lia.
      * lia.
Qed.

(** The state before the first call: no free list yet. *)
Definition ready (h : heap) (F : list (Z * Z)) : Prop :=
  rep h F \/ (h_freep h = 0 /\ F = [] /\ 0 < base /\ base + HDR <= h_brk h <= 2 ^ 36).

Lemma units_range nbytes : 0 <= nbytes < 2 ^ 31 - 32 -> 1 <= units nbytes /\ units nbytes * HDR < 2 ^ 31 /\ nbytes + HDR <= HDR * units nbytes.
Proof.
  intros Hn. unfold units, HDR. pose proof (Z.div_mod (nbytes + 16 - 1) 16 ltac:(lia)) as Hd. pose proof (Z.mod_pos_bound (nbytes + 16 - 1) 16 ltac:(lia)) as Hm.
  set (k := (nbytes + 16 - 1) / 16) in *. unfold u32. rewrite Z.mod_small by lia. lia.
Qed.

Lemma freep_pos h F : rep h F -> 0 < h_freep h.
Proof.
  intros HR. destruct (rep_limit _ _ HR) as [Hb Hl]. pose proof (rep_freep _ _ HR) as Hf. apply elem_of_cons in Hf as [->|(b & -> & Hi)%list_elem_of_fmap]; [done|].
  pose proof (spaced_bounds _ _ _ (rep_spaced _ _ HR)) as [_ Hs]. specialize (Hs b Hi). unfold HDR in *. lia.
Qed.

(** malloc sets up its list on the first call. *)
Lemma malloc_start h F : ready h F -> exists h0, rep h0 F /\ h_brk h0 = h_brk h /\
  (forall y, y ≠ base -> usize h0 y = usize h y) /\
  forall nbytes, malloc base grow nbytes h = malloc_loop grow (2 * ring_fuel h0 + 2) (units nbytes) (h_freep h0) (ptr h0 (h_freep h0)) h0.
Proof.
  intros [HR|(Hf & -> & Hb & Hl)].
  - exists h. split_and!; try done. intros nbytes. unfold malloc. rewrite (proj2 (Z.eqb_neq (h_freep h) 0)); [done|]. pose proof (freep_pos h F HR). lia.
  - set (h0 := set_usize base 0 (set_freep base (set_ptr base base h))). exists h0. split_and!.
    + split; cbn [h_brk h_freep h0 set_usize set_freep set_ptr fmap list_fmap].
      * cbn [links]. change (ptr (set_ptr base base h) base = base). by rewrite ptr_set, decide_True.
      * intros x Hx. apply list_elem_of_singleton in Hx as ->. cbn. by rewrite lookup_insert_eq.
      * constructor.
      * unfold h0. by rewrite usize_set, decide_True.
      * cbn. unfold HDR in *. lia.
      * set_solver.
      * done.
    + done.
    + intros y Hy. unfold h0. rewrite usize_set, decide_False by done. done.
    + intros nbytes. unfold malloc. by rewrite Hf.
Qed.

(** A block of [units n] units for the caller, header included. *)
Record allocated (h : heap) (F : list (Z * Z)) (a n : Z) (h' : heap) (F' : list (Z * Z)) : Prop := {
  al_size : usize h' a = n;
  al_brk : h_brk h <= h_brk h';
  al_place : base + HDR <= a;
  al_free : forall x, in_free F x \/ h_brk h <= x < h_brk h' <-> in_free F' x \/ in_block (a, n) x;
  al_own : forall x, in_block (a, n) x -> ~ in_free F' x;
  al_frame : forall y, ~ in_free F y -> y ≠ base -> y < h_brk h -> usize h' y = usize h y;
}.

Lemma malloc_spec h F nbytes : ready h F -> 0 <= nbytes < 2 ^ 31 - 32 -> let n := units nbytes in
  exists r h' F', malloc base grow nbytes h = Some (r, h') /\ rep h' F' /\
    ((r = 0 /\ F' = F /\ h_brk h' = h_brk h /\ (forall y, y ≠ base -> usize h' y = usize h y) /\
      (forall b, b ∈ F -> b.2 < n) /\ grow (h_brk h) ((if n <? 4096 then 4096 else n) * HDR) = false) \/
     (r ≠ 0 /\ allocated h F (r - HDR) n h' F')).
Proof.
  intros Hrdy Hn n. destruct (units_range nbytes Hn) as (Hn1 & Hn31 & _). fold n in Hn1, Hn31.
  destruct (malloc_start h F Hrdy) as (h0 & HR & Hb & Hus & ->). fold n.
  assert (Htake : forall h1 F1 f prev q, rep h1 F1 -> prev ∈ base :: F1.*1 -> ptr h1 prev = q -> n <= usize h1 q -> f = Some (take_from h1 n prev q) ->
    exists a h' F', f = Some (a + HDR, h') /\ taken h1 F1 a n h' F' /\ a + HDR ≠ 0).
  { intros h1 F1 f prev q HR1 Hp Hq Hle ->. destruct (take_from_spec h1 F1 prev q n HR1 Hp Hq ltac:(lia)) as (a & h' & F' & -> & Ht).
    exists a, h', F'. split_and!; [done|done|]. destruct (rep_limit _ _ HR1) as [? _]. pose proof (tk_place _ _ _ _ _ _ Ht). unfold HDR in *. lia. }
  pose proof (ring_fuel_enough h0 F HR) as Hfuel.
  replace (2 * ring_fuel h0 + 2)%nat with (length F + S (2 * ring_fuel h0 + 1 - length F))%nat by lia.
  set (k := (2 * ring_fuel h0 + 1 - length F)%nat).
  destruct (search_ring n h0 F k HR) as [(prev & q & H1 & H2 & H3 & E)|[Hsmall E]].
  - destruct (Htake _ _ _ _ _ HR H1 H2 H3 E) as (a & h' & F' & -> & Ht & Hne). exists (a + HDR), h', F'. split; [done|]. split; [apply Ht|]. right.
    split; [done|]. replace (a + HDR - HDR) with a by lia. pose proof (tk_brk _ _ _ _ _ _ Ht) as Hbk. split.
    + apply Ht.
    + lia.
    + apply Ht.
    + intros x. rewrite <- (tk_free _ _ _ _ _ _ Ht x). split; [|tauto]. intros [|]; [done|lia].
    + apply Ht.
    + intros y Hy Hyb _. rewrite (tk_frame _ _ _ _ _ _ Ht y Hy Hyb). by apply Hus.
  - rewrite E. clear E. destruct (morecore_spec h0 F n HR Hn1 Hn31) as [[Hg ->]|(h1 & F1 & -> & HR1 & Hb1 & Hin1 & Hbig & Hlen1 & Hfr1)].
    + exists 0, h0, F. split; [done|]. split; [done|]. left. rewrite Hb in Hg. by split_and!.
    + pose proof (freep_pos h1 F1 HR1) as Hpos. rewrite (proj2 (Z.eqb_neq (h_freep h1) 0)) by lia.
      replace k with (length F1 + S (k - S (length F1)))%nat by (unfold k; lia).
      destruct (search_ring n h1 F1 (k - S (length F1)) HR1) as [(prev & q & H1 & H2 & H3 & E)|[Hno _]].
      2:{ exfalso. destruct Hbig as (b & Hi & Hle). specialize (Hno b Hi). lia. }
      destruct (Htake _ _ _ _ _ HR1 H1 H2 H3 E) as (a & h' & F' & -> & Ht & Hne). exists (a + HDR), h', F'. split; [done|]. split; [apply Ht|].
      right. split; [done|]. replace (a + HDR - HDR) with a by lia. pose proof (tk_brk _ _ _ _ _ _ Ht) as Hbk.
      assert (Hnu : 0 <= (if n <? 4096 then 4096 else n)) by (destruct (n <? 4096); lia). rewrite Hb in *. unfold HDR in Hb1. split.
      * apply Ht.
      * lia.
      * apply Ht.
      * intros x. by rewrite <- (tk_free _ _ _ _ _ _ Ht x), Hin1, Hbk.
      * apply Ht.
      * intros y Hy Hyb Hlt. assert (Hy1 : ~ in_free F1 y) by (rewrite Hin1; intros [|]; [done|lia]).
        rewrite (tk_frame _ _ _ _ _ _ Ht y Hy1 Hyb), Hfr1 by done. by apply Hus.
Qed.

(** ** A client: any sequence of calls that frees only what it was given and still holds *)
Inductive op : Type :=
| Malloc (nbytes : Z)
| Free (k : nat).

(** The blocks the client holds: the pointer and the size it asked for. *)
Definition client (o : op) (h : heap) (live : list (Z * Z)) : option (heap * list (Z * Z)) :=
  match o with
  | Malloc nbytes =>
      match malloc base grow nbytes h with
      | Some (r, h') => Some (h', if r =? 0 then live else (r, nbytes) :: live)
      | None => None
      end
  | Free k =>
      match live !! k with
      | Some (r, _) => match free r h with Some h' => Some (h', delete k live) | None => None end
      | None => Some (h, live)
      end
  end.
Fixpoint run_client (ops : list op) (h : heap) (live : list (Z * Z)) : option (heap * list (Z * Z)) :=
  match ops with
  | [] => Some (h, live)
  | o :: ops' => match client o h live with Some (h', live') => run_client ops' h' live' | None => None end
  end.

(** The units of a block that is held, its header first. *)
Definition held (b : Z * Z) : Z * Z := (b.1 - HDR, units b.2).
Definition op_ok (o : op) : Prop := match o with Malloc n => 0 <= n < 2 ^ 31 - 32 | Free _ => True end.

(** Every byte between the first break and the current one is in a free block or in exactly one block that
    the client holds. *)
Record partition (brk0 : Z) (h : heap) (live F : list (Z * Z)) : Prop := {
  pa_ready : rep h F \/ (ready h F /\ live = []);
  pa_start : base + HDR <= brk0 <= h_brk h;
  pa_sizes : forall b, b ∈ live -> usize h (held b).1 = (held b).2 /\ 0 <= b.2 < 2 ^ 31 - 32;
  pa_cover : forall x, brk0 <= x < h_brk h <-> in_free F x \/ in_free (held <$> live) x;
  pa_apart : forall x, in_free F x -> ~ in_free (held <$> live) x;
  pa_once : forall i j b c x, live !! i = Some b -> live !! j = Some c -> i ≠ j -> in_block (held b) x -> ~ in_block (held c) x;
}.

Lemma in_live live x : in_free (held <$> live) x <-> exists b, b ∈ live /\ in_block (held b) x.
Proof.
  unfold in_free. rewrite Exists_exists. split.
  - intros (c & (b & -> & Hi)%list_elem_of_fmap & Hx). eauto.
  - intros (b & Hi & Hx). exists (held b). split; [apply list_elem_of_fmap; eauto|done].
Qed.

(** The header of a block that is held. *)
Lemma live_header brk0 h live F b : partition brk0 h live F -> b ∈ live ->
  in_block (held b) (held b).1 /\ brk0 <= (held b).1 /\ bend (held b) <= h_brk h /\ ~ in_free F (held b).1.
Proof.
  intros HP Hi. destruct (pa_sizes _ _ _ _ HP b Hi) as [_ Hn]. destruct (units_range _ Hn) as (Hu & _).
  assert (Hin : in_block (held b) (held b).1) by (unfold in_block, bend, held, HDR in *; cbn; lia).
  assert (Hlast : in_block (held b) (bend (held b) - 1)) by (unfold in_block, bend, held, HDR in *; cbn; lia).
  assert (H1 : in_free (held <$> live) (held b).1) by (apply in_live; eauto).
  assert (H2 : in_free (held <$> live) (bend (held b) - 1)) by (apply in_live; eauto).
  pose proof (proj2 (pa_cover _ _ _ _ HP _) (or_intror H1)). pose proof (proj2 (pa_cover _ _ _ _ HP _) (or_intror H2)).
  split_and!; [done|lia|lia|]. intros Hf. by apply (pa_apart _ _ _ _ HP _ Hf).
Qed.

Lemma malloc_partition brk0 h live F nbytes : partition brk0 h live F -> 0 <= nbytes < 2 ^ 31 - 32 ->
  exists h' live' F', client (Malloc nbytes) h live = Some (h', live') /\ partition brk0 h' live' F'.
Proof.
  intros HP Hn. assert (Hrdy : ready h F) by (destruct (pa_ready _ _ _ _ HP) as [|[]]; [by left|done]).
  destruct (malloc_spec h F nbytes Hrdy Hn) as (r & h' & F' & E & HR & Hres). cbn [client]. rewrite E.
  pose proof (pa_start _ _ _ _ HP) as Hst. destruct Hres as [(-> & -> & Hbk & Hus & _)|[Hne HA]].
  - exists h', live, F. split; [done|]. split; [by left|by rewrite Hbk| | |apply HP|apply HP].
    + intros b Hi. pose proof (live_header _ _ _ _ b HP Hi) as (_ & Hlo & _). rewrite Hus by (unfold HDR in *; lia). by apply HP.
    + rewrite Hbk. apply HP.
  - rewrite (proj2 (Z.eqb_neq r 0) Hne). exists h', ((r, nbytes) :: live), F'. split; [done|].
    pose proof (al_brk _ _ _ _ _ _ HA) as Hbk. pose proof (al_free _ _ _ _ _ _ HA) as Hfr.
    assert (Eh : held (r, nbytes) = (r - HDR, units nbytes)) by done.
    assert (Hcov : forall x, in_free (held <$> live) x -> brk0 <= x < h_brk h) by (intros x Hx; apply (pa_cover _ _ _ _ HP); by right).
    assert (Hold : forall x, in_block (r - HDR, units nbytes) x -> ~ in_free (held <$> live) x).
    { intros x Hx Hl. destruct (proj2 (Hfr x) (or_intror Hx)) as [Hf|Hf]; [by apply (pa_apart _ _ _ _ HP x Hf)|specialize (Hcov x Hl); lia]. }
    split.
    + by left.
    + lia.
    + intros b [->|Hi]%elem_of_cons; [rewrite Eh; split; [apply HA|done]|].
      destruct (live_header _ _ _ _ b HP Hi) as (Hin & Hlo & Hhi & Hnf). destruct (pa_sizes _ _ _ _ HP b Hi) as [Hs Hb]. split; [|done].
      rewrite (al_frame _ _ _ _ _ _ HA); [done|done|unfold HDR in *; lia|unfold in_block in Hin; lia].
    + intros x. rewrite fmap_cons, in_free_cons, Eh. pose proof (pa_cover _ _ _ _ HP x) as Hc. split.
      * intros Hx. destruct (decide (x < h_brk h)) as [Hlt|Hge].
        -- destruct (proj1 Hc ltac:(lia)) as [Hf|Hl]; [|tauto]. destruct (proj1 (Hfr x) (or_introl Hf)); tauto.
        -- assert (Hr : h_brk h <= x < h_brk h') by lia. destruct (proj1 (Hfr x) (or_intror Hr)); tauto.
      * assert (Hsub : in_free F x \/ h_brk h <= x < h_brk h' -> brk0 <= x < h_brk h').
        { intros [Hf|Hr]; [|lia]. pose proof (proj2 Hc (or_introl Hf)). lia. }
        intros [Hf|[Hb|Hl]]; [apply Hsub, Hfr; by left|apply Hsub, Hfr; by right|]. specialize (Hcov x Hl). lia.
    + intros x Hf. rewrite fmap_cons, in_free_cons, Eh. intros [Hx|Hx]; [by apply (al_own _ _ _ _ _ _ HA x Hx)|].
      destruct (proj2 (Hfr x) (or_introl Hf)) as [Hf'|Hf']; [by apply (pa_apart _ _ _ _ HP x Hf')|specialize (Hcov x Hx); lia].
    + intros [|i] [|j] b c x Hi Hj Hij Hb Hc; cbn in Hi, Hj; [done| | |by apply (pa_once _ _ _ _ HP i j b c x Hi Hj ltac:(congruence) Hb)].
      * injection Hi as <-. rewrite Eh in Hb. apply (Hold x Hb). apply in_live. exists c. split; [by eapply list_elem_of_lookup_2|done].
      * injection Hj as <-. rewrite Eh in Hc. apply (Hold x Hc). apply in_live. exists b. split; [by eapply list_elem_of_lookup_2|done].
Qed.

Lemma free_partition brk0 h live F k : partition brk0 h live F ->
  exists h' live' F', client (Free k) h live = Some (h', live') /\ partition brk0 h' live' F'.
Proof.
  intros HP. cbn [client]. destruct (live !! k) as [[r n]|] eqn:Ek; [|by exists h, live, F].
  assert (Hi : (r, n) ∈ live) by (by eapply list_elem_of_lookup_2).
  destruct (live_header _ _ _ _ _ HP Hi) as (Hin & Hlo & Hhi & Hnf). destruct (pa_sizes _ _ _ _ HP _ Hi) as [Hs Hn].
  cbn [held fst snd] in *. destruct (units_range n Hn) as (Hu & _ & _). pose proof (pa_start _ _ _ _ HP) as Hst.
  assert (HR : rep h F) by (destruct (pa_ready _ _ _ _ HP) as [|[_ ->]]; [done|by apply elem_of_nil in Hi]).
  destruct (free_spec h F (r - HDR) (units n) HR Hs Hu ltac:(lia)) as (h' & F' & E & HR' & Hbk & Hfr & _ & _ & Hframe).
  { exact Hhi. } { intros x Hx Hf. apply (pa_apart _ _ _ _ HP x Hf). apply in_live. by exists (r, n). }
  replace (r - HDR + HDR) with r in E by lia. rewrite E. exists h', (delete k live), F'. split; [done|].
  assert (Hdel : forall x, in_free (held <$> live) x <-> in_block (r - HDR, units n) x \/ in_free (held <$> delete k live) x).
  { intros x. rewrite !in_live. pose proof (delete_Permutation live k _ Ek) as HPm. split.
    - intros (b & Hb & Hx). rewrite HPm in Hb. apply elem_of_cons in Hb as [->|Hb]; [by left|right; eauto].
    - intros [Hx|(b & Hb & Hx)]; [by exists (r, n)|]. exists b. split; [rewrite HPm; set_solver|done]. }
  assert (Hoff : forall i b, delete k live !! i = Some b -> exists j, j ≠ k /\ live !! j = Some b /\ j = (if decide (i < k)%nat then i else S i)).
  { intros i b Hib. destruct (decide (i < k)%nat) as [Hlt|Hge]; [rewrite list_lookup_delete_lt in Hib by done; exists i; split_and!; [lia|done|done]|].
    rewrite list_lookup_delete_ge in Hib by lia. exists (S i). split_and!; [lia|done|done]. }
  assert (Hout : forall x, in_free (held <$> delete k live) x -> ~ in_block (r - HDR, units n) x).
  { intros x (b & Hb & Hx)%in_live Hx'. apply list_elem_of_lookup in Hb as [i Hib]. destruct (Hoff i b Hib) as (j & Hjk & Hj & _).
    by apply (pa_once _ _ _ _ HP j k b (r, n) x Hj Ek Hjk Hx). }
  split.
  - by left.
  - by rewrite Hbk.
  - intros b Hb. assert (Hb' : b ∈ live) by (rewrite (delete_Permutation live k _ Ek); set_solver).
    destruct (live_header _ _ _ _ b HP Hb') as (Hbin & Hblo & _ & Hbf). destruct (pa_sizes _ _ _ _ HP b Hb') as [Hbs Hbn]. split; [|done].
    rewrite Hframe; [done| |].
    + intros [Hx|(c & Hx & Hc)%list_elem_of_fmap]%elem_of_cons; [unfold HDR in *; lia|]. apply Hbf. rewrite Hx. apply Exists_exists. exists c. split; [done|].
      pose proof (spaced_bounds _ _ _ (rep_spaced _ _ HR)) as [_ Hsp]. specialize (Hsp c Hc). unfold in_block, bend, HDR in *. lia.
    + intros Hx. apply (Hout (held b).1); [apply in_live; eauto|]. rewrite Hx. unfold in_block, bend, HDR. cbn. lia.
  - intros x. rewrite Hbk, (pa_cover _ _ _ _ HP x), Hfr, Hdel. tauto.
  - intros x Hf Hl. apply Hfr in Hf as [Hf|Hf]; [|by apply (Hout x)]. apply (pa_apart _ _ _ _ HP x Hf). apply Hdel. by right.
  - intros i j b c x Hib Hjc Hij Hb. destruct (Hoff i b Hib) as (i' & _ & Hi' & Ei). destruct (Hoff j c Hjc) as (j' & _ & Hj' & Ej).
    apply (pa_once _ _ _ _ HP i' j' b c x Hi' Hj'); [|done]. subst. repeat case_decide; lia.
Qed.

(** The state of a program that has not called malloc yet. *)
Definition fresh (brk0 : Z) : heap := mkHeap ∅ ∅ 0 brk0.

Lemma run_partition brk0 ops : Forall op_ok ops -> forall h live F, partition brk0 h live F ->
  exists h' live' F', run_client ops h live = Some (h', live') /\ partition brk0 h' live' F'.
Proof.
  induction 1 as [|o ops Ho _ IH]; intros h live F HP; [by exists h, live, F|]. cbn [run_client].
  assert (Hstep : exists h' live' F', client o h live = Some (h', live') /\ partition brk0 h' live' F').
  { destruct o as [n|k]; [by apply (malloc_partition brk0 h live F)|by apply (free_partition brk0 h live F)]. }
  destruct Hstep as (h1 & live1 & F1 & -> & HP1). by apply (IH h1 live1 F1).
Qed.
End Rep.



(** The length of a request is cut to an int on its way to sbrk: for a request of almost 4 GB the break does
    not move, and malloc returns a block nevertheless. *)
Lemma malloc_huge : exists h, malloc 0x1000 (fun _ _ => true) 0xfffffff0 (fresh 0x4000) = Some (0x4010, h) /\ h_brk h = 0x4000.
Proof. eexists. split; vm_compute; reflexivity. Qed.
