(* ===== verification/Tty.v ===== *)
(** * The line discipline of the console (platform/visionfive2/kernel/console.c)

    consoleintr edits the line being typed, consoleread delivers finished lines: both on
    the ring of 128 bytes with its read, write and edit indices.  Proved: they implement
    a queue of committed bytes and a line under edit. *)

From stdpp Require Import base list numbers.
From S2P Require Import Prelude Params CString.

Definition INPUT_BUF_SIZE : Z := 128.
Definition BACKSPACE : Z := 0x100.
(** C('P'), C('U'), C('H'), C('D') *)
Definition ctrl_P : Z := 16.
Definition ctrl_U : Z := 21.
Definition ctrl_H : Z := 8.
Definition ctrl_D : Z := 4.
Definition DEL : Z := 127.
Definition nl : Z := 10.
Definition cr : Z := 13.

(** struct cons; what was sent to the UART; how often the readers were woken. *)
Record cons : Type := mkCons { c_buf : list Z; c_r : Z; c_w : Z; c_e : Z }.
Record tty : Type := mkTty { t_cons : cons; t_out : list Z; t_woken : nat }.

Definition set_c_r (v : Z) (c : cons) : cons := mkCons (c_buf c) v (c_w c) (c_e c).
Definition set_c_w (v : Z) (c : cons) : cons := mkCons (c_buf c) (c_r c) v (c_e c).
Definition set_c_e (v : Z) (c : cons) : cons := mkCons (c_buf c) (c_r c) (c_w c) v.
Definition set_c_buf (v : list Z) (c : cons) : cons := mkCons v (c_r c) (c_w c) (c_e c).

(** cons.buf[i % INPUT_BUF_SIZE] *)
Definition slot (i : Z) : nat := Z.to_nat (i mod INPUT_BUF_SIZE).
Definition cbyte (c : cons) (i : Z) : Z := default 0 (c_buf c !! slot i).

Definition vf_consputc (c : Z) (out : list Z) : list Z :=
  if c =? BACKSPACE then out ++ [8; 32; 8] else out ++ [c].

(** ** consoleintr *)

(** The loop that kills the line. *)
Fixpoint kill_line (fuel : nat) (t : tty) : tty :=
  match fuel with
  | O => t
  | S fuel' =>
      let c := t_cons t in
      if negb (c_e c =? c_w c) && negb (cbyte c (u32 (c_e c - 1)) =? nl)
      then kill_line fuel' (mkTty (set_c_e (u32 (c_e c - 1)) c) (vf_consputc BACKSPACE (t_out t)) (t_woken t))
      else t
  end.

(** [dump]: what procdump prints *)
Definition vf_consoleintr (dump : list Z) (k : Z) (t : tty) : tty :=
  let c := t_cons t in
  if k =? ctrl_P then mkTty c (t_out t ++ dump) (t_woken t)
  else if k =? ctrl_U then kill_line (S (Z.to_nat INPUT_BUF_SIZE)) t
  else if (k =? ctrl_H) || (k =? DEL) then
    if negb (c_e c =? c_w c) then mkTty (set_c_e (u32 (c_e c - 1)) c) (vf_consputc BACKSPACE (t_out t)) (t_woken t) else t
  else if negb (k =? 0) && (u32 (c_e c - c_r c) <? INPUT_BUF_SIZE) then
    let k := if k =? cr then nl else k in
    let out := vf_consputc k (t_out t) in
    let c := set_c_e (u32 (c_e c + 1)) (set_c_buf (<[slot (c_e c) := k]> (c_buf c)) c) in
    if (k =? nl) || (k =? ctrl_D) || (u32 (c_e c - c_r c) =? INPUT_BUF_SIZE)
    then mkTty (set_c_w (c_e c) c) out (S (t_woken t))
    else mkTty c out (t_woken t)
  else t.

(** ** consoleread: returns a value, or sleeps on &cons.r with [n] bytes still wanted.  [got] is what was
    stored at dst so far; [stored i] tells whether either_copyout of byte i succeeds. *)
Inductive rd : Type :=
| RRet (val : Z) (got : list Z) (c : cons)
| RSleep (n : Z) (got : list Z) (c : cons).

Section Read.
Context (killed : bool) (stored : nat -> bool) (target : Z).

Fixpoint vf_read_loop (fuel : nat) (n : Z) (got : list Z) (c : cons) : option rd :=
  if n <=? 0 then Some (RRet (target - n) got c)
  else match fuel with
  | O => None
  | S fuel' =>
      if c_r c =? c_w c then Some (if killed then RRet (-1) got c else RSleep n got c)
      else
        let ch := cbyte c (c_r c) in
        let c := set_c_r (u32 (c_r c + 1)) c in
        if ch =? ctrl_D then
          Some (RRet (target - n) got (if n <? target then set_c_r (u32 (c_r c - 1)) c else c))
        else if negb (stored (length got)) then Some (RRet (target - n) got c)
        else if ch =? nl then Some (RRet (target - (n - 1)) (got ++ [ch]) c)
        else vf_read_loop fuel' (n - 1) (got ++ [ch]) c
  end.
End Read.

(** The call, and what a reader that slept does when it runs again. *)
Definition vf_consoleread (killed : bool) (stored : nat -> bool) (n : Z) (c : cons) : option rd :=
  vf_read_loop killed stored n (S (Z.to_nat n)) n [] c.

(** ** consolewrite: batches of 32 bytes from [src] until either_copyin fails *)
Fixpoint vf_write_loop (fuel : nat) (copyin : Z -> Z -> option (list Z)) (i n : Z) (out : list Z) : Z * list Z :=
  match fuel with
  | O => (i, out)
  | S fuel' =>
      if i <? n then
        let nn := if n - i <? 32 then n - i else 32 in
        match copyin i nn with
        | None => (i, out)
        | Some bs => vf_write_loop fuel' copyin (i + nn) n (out ++ bs)
        end
      else (i, out)
  end.
Definition vf_consolewrite (copyin : Z -> Z -> option (list Z)) (n : Z) (out : list Z) : Z * list Z :=
  vf_write_loop (S (Z.to_nat n)) copyin 0 n out.

(** ** What the console promises: a queue [Q] of committed bytes and the line [L] being edited *)
Record atty : Type := mkAtty { a_Q : list Z; a_L : list Z; a_out : list Z; a_woken : nat }.
Definition erase (n : nat) : list Z := concat (replicate n [8; 32; 8]).

Definition a_key (dump : list Z) (k : Z) (a : atty) : atty :=
  let '(mkAtty Q L out woken) := a in
  if k =? ctrl_P then mkAtty Q L (out ++ dump) woken
  else if k =? ctrl_U then mkAtty Q [] (out ++ erase (length L)) woken
  else if (k =? ctrl_H) || (k =? DEL) then mkAtty Q (take (length L - 1) L) (out ++ erase (Nat.min 1 (length L))) woken
  else if negb (k =? 0) && (length Q + length L <? 128)%nat then
    let k := if k =? cr then nl else k in
    if (k =? nl) || (k =? ctrl_D) || (length Q + length L =? 127)%nat
    then mkAtty (Q ++ L ++ [k]) [] (out ++ [k]) (S woken)
    else mkAtty Q (L ++ [k]) (out ++ [k]) woken
  else a.

(** Reading: up to [n] bytes, to the end of a line or to an end-of-file mark, which is taken alone. *)
Inductive ard : Type :=
| ARet (val : Z) (got : list Z) (Q : list Z)
| ASleep (n : Z) (got : list Z) (Q : list Z).
Fixpoint a_read (killed : bool) (stored : nat -> bool) (target n : Z) (got Q : list Z) : ard :=
  if n <=? 0 then ARet (target - n) got Q
  else match Q with
  | [] => if killed then ARet (-1) got [] else ASleep n got []
  | ch :: Q' =>
      if ch =? ctrl_D then ARet (target - n) got (if n <? target then Q else Q')
      else if negb (stored (length got)) then ARet (target - n) got Q'
      else if ch =? nl then ARet (target - (n - 1)) (got ++ [ch]) Q'
      else a_read killed stored target (n - 1) (got ++ [ch]) Q'
  end.

(** consolewrite sends the whole buffer when it is readable, in batches of 32. *)
Lemma consolewrite_all copyin src :
  (forall i nn, 0 <= i -> 0 <= nn -> i + nn <= Z.of_nat (length src) -> copyin i nn = Some (take (Z.to_nat nn) (drop (Z.to_nat i) src))) ->
  forall fuel i out, 0 <= i <= Z.of_nat (length src) -> Z.of_nat (length src) - i < Z.of_nat fuel ->
  vf_write_loop fuel copyin i (Z.of_nat (length src)) out = (Z.of_nat (length src), out ++ drop (Z.to_nat i) src).
Proof.
  intros Hc fuel. induction fuel as [|fuel IH]; intros i out Hi Hf; [lia|]. cbn [vf_write_loop].
  destruct (Z.ltb_spec i (Z.of_nat (length src))).
  - set (nn := if _ <? 32 then _ else 32). assert (Hnn : 0 < nn <= Z.of_nat (length src) - i) by (subst nn; case_match; lia).
    rewrite Hc, IH by lia. rewrite <- app_assoc. do 2 f_equal. replace (Z.to_nat (i + nn)) with (Z.to_nat i + Z.to_nat nn)%nat by lia.
    by rewrite <- drop_drop, take_drop.
  - f_equal; [lia|]. by rewrite drop_ge, app_nil_r by lia.
Qed.

(** ** The ring holds the queue and the line *)
Record trep (c : cons) (Q L : list Z) (R : Z) : Prop := {
  tr_r : c_r c = u32 R;
  tr_w : c_w c = u32 (R + Z.of_nat (length Q));
  tr_e : c_e c = u32 (R + Z.of_nat (length Q) + Z.of_nat (length L));
  tr_room : (length Q + length L <= 128)%nat;
  tr_len : length (c_buf c) = 128%nat;
  tr_bytes : forall i x, (Q ++ L) !! i = Some x -> c_buf c !! slot (R + Z.of_nat i) = Some x;
  tr_edit : Forall (fun x => x ≠ nl /\ x ≠ ctrl_D) L;
}.

Lemma u32_add a b : u32 (u32 a + b) = u32 (a + b).
Proof. unfold u32. apply Zplus_mod_idemp_l. Qed.
Lemma u32_sub a b : u32 (u32 a - b) = u32 (a - b).
Proof. unfold u32. apply Zminus_mod_idemp_l. Qed.
Lemma u32_diff a b : 0 <= a - b < 2 ^ 32 -> u32 (u32 a - u32 b) = a - b.
Proof. intros H. unfold u32. rewrite <- Zminus_mod. by apply Z.mod_small. Qed.
Lemma u32_near a b : 0 <= a - b < 2 ^ 32 -> u32 a = u32 b <-> a = b.
Proof.
  intros H. split; [|by intros ->]. intros E. pose proof (u32_diff a b H) as Hd. rewrite E, Z.sub_diag in Hd. change (u32 0) with 0 in Hd. clear E. lia.
Qed.
Lemma slot_u32 k : slot (u32 k) = slot k.
Proof. unfold slot, u32, INPUT_BUF_SIZE. f_equal. apply Z.mod_mod_divide. exists (2 ^ 25). done. Qed.
Lemma slot_lt k : (slot k < 128)%nat.
Proof. unfold slot, INPUT_BUF_SIZE. pose proof (Z.mod_pos_bound k 128 ltac:(lia)). lia. Qed.
Lemma slot_inj R i j : 0 <= i < 128 -> 0 <= j < 128 -> slot (R + i) = slot (R + j) -> i = j.
Proof.
  unfold slot, INPUT_BUF_SIZE. intros Hi Hj E. pose proof (Z.mod_pos_bound (R + i) 128 ltac:(lia)). pose proof (Z.mod_pos_bound (R + j) 128 ltac:(lia)).
  pose proof (Z.div_mod (R + i) 128 ltac:(lia)). pose proof (Z.div_mod (R + j) 128 ltac:(lia)).
  apply Z2Nat.inj in E; [|lia|lia]. rewrite E in *. lia.
Qed.

Section Rep.
Context (c : cons) (Q L : list Z) (R : Z) (HT : trep c Q L R).

Lemma tr_line : (c_e c =? c_w c) = bool_decide (L = []).
Proof.
  pose proof (tr_room _ _ _ _ HT). rewrite (tr_e _ _ _ _ HT), (tr_w _ _ _ _ HT).
  case_bool_decide as E; [subst L; cbn; by rewrite Z.add_0_r, Z.eqb_refl|]. apply Z.eqb_neq. intros Hx.
  rewrite u32_near in Hx by lia. destruct L; [done|cbn in Hx; lia].
Qed.

Lemma tr_queue : (c_r c =? c_w c) = bool_decide (Q = []).
Proof.
  pose proof (tr_room _ _ _ _ HT). rewrite (tr_r _ _ _ _ HT), (tr_w _ _ _ _ HT). rewrite Z.eqb_sym.
  case_bool_decide as E; [subst Q; cbn; by rewrite Z.add_0_r, Z.eqb_refl|]. apply Z.eqb_neq. intros Hx.
  rewrite u32_near in Hx by lia. destruct Q; [done|cbn in Hx; lia].
Qed.

Lemma tr_used : u32 (c_e c - c_r c) = Z.of_nat (length Q + length L).
Proof. pose proof (tr_room _ _ _ _ HT). rewrite (tr_r _ _ _ _ HT), (tr_e _ _ _ _ HT), u32_diff by lia. lia. Qed.

Lemma tr_byte i x : (Q ++ L) !! i = Some x -> forall k, u32 k = u32 (R + Z.of_nat i) -> cbyte c (u32 k) = x.
Proof. intros Hi k Hk. unfold cbyte. by rewrite Hk, slot_u32, (tr_bytes _ _ _ _ HT i x Hi). Qed.

(** The buffer after a byte was stored at the edit index. *)
Lemma tr_store x : (length Q + length L < 128)%nat ->
  forall i y, (Q ++ L ++ [x]) !! i = Some y -> <[slot (c_e c) := x]> (c_buf c) !! slot (R + Z.of_nat i) = Some y.
Proof.
  intros Hroom i y Hi. assert (Hil : (i <= length Q + length L)%nat).
  { apply lookup_lt_Some in Hi. rewrite !length_app in Hi. cbn in Hi. lia. }
  rewrite (tr_e _ _ _ _ HT), slot_u32. rewrite app_assoc in Hi. destruct (decide (i = length Q + length L)%nat) as [->|Hne].
  - rewrite lookup_app_r in Hi by (rewrite length_app; lia). rewrite length_app, Nat.sub_diag in Hi. injection Hi as <-.
    replace (R + Z.of_nat (length Q) + Z.of_nat (length L)) with (R + Z.of_nat (length Q + length L)) by lia.
    apply list_lookup_insert_eq. rewrite (tr_len _ _ _ _ HT). apply slot_lt.
  - rewrite lookup_app_l in Hi by (rewrite length_app; lia). rewrite list_lookup_insert_ne; [by apply (tr_bytes _ _ _ _ HT)|].
    rewrite <- Z.add_assoc. intros E. apply slot_inj in E; lia.
Qed.

Definition typed (x : Z) : cons := set_c_e (u32 (c_e c + 1)) (set_c_buf (<[slot (c_e c) := x]> (c_buf c)) c).

Lemma typed_line x : (length Q + length L < 128)%nat -> x ≠ nl -> x ≠ ctrl_D -> trep (typed x) Q (L ++ [x]) R.
Proof.
  intros Hroom H1 H2. split; cbn [typed set_c_e set_c_buf c_r c_w c_e c_buf].
  - apply HT.
  - apply HT.
  - rewrite (tr_e _ _ _ _ HT), u32_add, length_app. f_equal. cbn. lia.
  - rewrite length_app. cbn. lia.
  - rewrite length_insert. apply HT.
  - by apply tr_store.
  - apply Forall_app. split; [apply HT|by repeat constructor].
Qed.

Lemma typed_commit x : (length Q + length L < 128)%nat -> trep (set_c_w (c_e (typed x)) (typed x)) (Q ++ L ++ [x]) [] R.
Proof.
  intros Hroom. assert (Ee : u32 (c_e c + 1) = u32 (R + Z.of_nat (length (Q ++ L ++ [x])))).
  { rewrite (tr_e _ _ _ _ HT), u32_add, !length_app. f_equal. cbn. lia. }
  split; cbn [typed set_c_w set_c_e set_c_buf c_r c_w c_e c_buf].
  - apply HT.
  - exact Ee.
  - rewrite Ee. f_equal. cbn. lia.
  - rewrite !length_app. cbn. lia.
  - rewrite length_insert. apply HT.
  - rewrite app_nil_r. by apply tr_store.
  - constructor.
Qed.

Lemma typed_used x : (length Q + length L < 128)%nat -> u32 (c_e (typed x) - c_r (typed x)) = Z.of_nat (S (length Q + length L)).
Proof.
  intros Hroom. cbn [typed set_c_e set_c_buf c_e c_r]. rewrite (tr_e _ _ _ _ HT), (tr_r _ _ _ _ HT), u32_add, u32_diff by lia. lia.
Qed.

(** A byte leaves the queue. *)
Lemma tr_read ch Q' : Q = ch :: Q' -> cbyte c (c_r c) = ch /\ trep (set_c_r (u32 (c_r c + 1)) c) Q' L (R + 1).
Proof.
  intros EQ. split.
  - rewrite (tr_r _ _ _ _ HT). apply (tr_byte 0 ch); [by rewrite EQ|]. f_equal. lia.
  - pose proof (tr_w _ _ _ _ HT) as Hw. pose proof (tr_e _ _ _ _ HT) as He. pose proof (tr_room _ _ _ _ HT) as Hr. rewrite EQ in *. cbn [length] in *.
    split; cbn [set_c_r c_r c_w c_e c_buf]; [| | |lia|apply HT| |apply HT].
    + by rewrite (tr_r _ _ _ _ HT), u32_add.
    + rewrite Hw. f_equal. lia.
    + rewrite He. f_equal. lia.
    + intros i x Hi. replace (R + 1 + Z.of_nat i) with (R + Z.of_nat (S i)) by lia. by apply (tr_bytes _ _ _ _ HT).
Qed.
End Rep.

(** Erasing the last byte of the line. *)
Lemma tr_back c Q L x R : trep c Q (L ++ [x]) R ->
  cbyte c (u32 (c_e c - 1)) = x /\ trep (set_c_e (u32 (c_e c - 1)) c) Q L R.
Proof.
  intros HT. pose proof (tr_e _ _ _ _ HT) as He. pose proof (tr_room _ _ _ _ HT) as Hr. rewrite length_app in He, Hr. cbn in He, Hr.
  assert (Ee : u32 (c_e c - 1) = u32 (R + Z.of_nat (length Q) + Z.of_nat (length L))) by (rewrite He, u32_sub; f_equal; lia).
  split.
  - rewrite Ee. apply (tr_byte c Q (L ++ [x]) R HT (length Q + length L)); [|f_equal; lia].
    rewrite app_assoc, lookup_app_r, length_app, Nat.sub_diag by (rewrite length_app; lia). done.
  - split; cbn [set_c_e c_r c_w c_e c_buf]; [apply HT|apply HT|exact Ee|lia|apply HT| |].
    + intros i y Hi. apply (tr_bytes _ _ _ _ HT). rewrite app_assoc. by apply lookup_app_l_Some.
    + pose proof (tr_edit _ _ _ _ HT) as Hed. by apply Forall_app in Hed as [Hed _].
Qed.

(** ** The handlers implement the abstract operations *)
Definition trel (t : tty) (a : atty) : Prop :=
  (exists R, trep (t_cons t) (a_Q a) (a_L a) R) /\ t_out t = a_out a /\ t_woken t = a_woken a.

Lemma erase_S n : [8; 32; 8] ++ erase n = erase (S n).
Proof. done. Qed.

Lemma kill_line_spec fuel : forall t Q L R, trep (t_cons t) Q L R -> (length L < fuel)%nat ->
  trel (kill_line fuel t) (mkAtty Q [] (t_out t ++ erase (length L)) (t_woken t)).
Proof.
  induction fuel as [|fuel IH]; intros t Q L R HT Hf; [lia|]. cbn [kill_line]. rewrite (tr_line _ _ _ _ HT).
  destruct L as [|x L _] using rev_ind.
  - rewrite bool_decide_true by done. cbn [negb andb length erase replicate concat]. rewrite app_nil_r. split; [by exists R|done].
  - destruct (tr_back _ _ _ _ _ HT) as [Hx HT']. rewrite bool_decide_false by (by destruct L). rewrite Hx.
    pose proof (tr_edit _ _ _ _ HT) as Hed. apply Forall_app in Hed as [_ [[Hnl _] _]%Forall_cons].
    rewrite (proj2 (Z.eqb_neq x nl) Hnl). cbn [negb andb]. rewrite length_app in *. cbn [length] in *.
    replace (length L + 1)%nat with (S (length L)) by lia. rewrite <- erase_S, app_assoc.
    apply (IH (mkTty (set_c_e (u32 (c_e (t_cons t) - 1)) (t_cons t)) (vf_consputc BACKSPACE (t_out t)) (t_woken t)) Q L R HT'). lia.
Qed.

Lemma consoleintr_refines dump k t a : 0 <= k < 256 -> trel t a -> trel (vf_consoleintr dump k t) (a_key dump k a).
Proof.
  intros Hk [[R HT] [Ho Hw]]. destruct a as [Q L out wk]. cbn [a_Q a_L a_out a_woken] in *. subst out wk. unfold vf_consoleintr, a_key.
  destruct (k =? ctrl_P); [split; [by exists R|done]|].
  destruct (k =? ctrl_U); [apply (kill_line_spec _ t Q L R HT); pose proof (tr_room _ _ _ _ HT); unfold INPUT_BUF_SIZE; lia|].
  destruct ((k =? ctrl_H) || (k =? DEL)).
  { rewrite (tr_line _ _ _ _ HT). destruct L as [|x L _] using rev_ind.
    - rewrite bool_decide_true by done. cbn. rewrite app_nil_r. split; [by exists R|done].
    - rewrite bool_decide_false by (by destruct L). destruct (tr_back _ _ _ _ _ HT) as [_ HT']. rewrite length_app. cbn [length negb].
      replace (length L + 1 - 1)%nat with (length L) by lia. replace (Nat.min 1 (length L + 1)) with 1%nat by lia. rewrite take_app_length.
      split; [by exists R|done]. }
  rewrite (tr_used _ _ _ _ HT). unfold INPUT_BUF_SIZE.
  replace (Z.of_nat (length Q + length L) <? 128) with (length Q + length L <? 128)%nat by (apply eq_bool_prop_intro; rewrite !Is_true_true, Nat.ltb_lt, Z.ltb_lt; lia).
  destruct (negb (k =? 0)); cbn [andb]; [|split; [by exists R|done]].
  destruct (Nat.ltb_spec (length Q + length L) 128) as [Hroom|]; [|split; [by exists R|done]].
  assert (Hk' : (if k =? cr then nl else k) ≠ BACKSPACE) by (unfold BACKSPACE, nl; destruct (k =? cr); lia).
  set (x := if k =? cr then nl else k) in *. clearbody x. fold (typed (t_cons t) x).
  assert (Hput : vf_consputc x (t_out t) = t_out t ++ [x]) by (unfold vf_consputc; by rewrite (proj2 (Z.eqb_neq _ _) Hk')).
  rewrite (typed_used _ _ _ _ HT x Hroom), Hput.
  replace (Z.of_nat (S (length Q + length L)) =? 128) with (length Q + length L =? 127)%nat by (apply eq_bool_prop_intro; rewrite !Is_true_true, Nat.eqb_eq, Z.eqb_eq; lia).
  destruct (Z.eqb_spec x nl); [|destruct (Z.eqb_spec x ctrl_D); [|destruct (Nat.eqb_spec (length Q + length L) 127)]]; cbn [orb].
  1-3: split; [exists R; by apply typed_commit|done].
  split; [exists R; by apply typed_line|done].
Qed.

(** Results of a read that agree. *)
Definition rrel (r : option rd) (a : ard) (L : list Z) : Prop :=
  match r, a with
  | Some (RRet v g c), ARet v' g' Q => v = v' /\ g = g' /\ exists R, trep c Q L R
  | Some (RSleep n g c), ASleep n' g' Q => n = n' /\ g = g' /\ exists R, trep c Q L R
  | _, _ => False
  end.

Lemma read_refines killed stored target L fuel : forall n got c Q R, trep c Q L R -> n < Z.of_nat fuel ->
  rrel (vf_read_loop killed stored target fuel n got c) (a_read killed stored target n got Q) L.
Proof.
  induction fuel as [|fuel IH]; intros n got c Q R HT Hf.
  { cbn [vf_read_loop]. destruct Q; cbn [a_read]; rewrite (proj2 (Z.leb_le n 0)) by lia; (split_and!; [done|done|by exists R]). }
  cbn [vf_read_loop]. destruct Q as [|ch Q]; cbn [a_read]; (destruct (Z.leb_spec n 0); [split_and!; [done|done|by exists R]|]); rewrite (tr_queue _ _ _ _ HT).
  - rewrite bool_decide_true by done. destruct killed; (split_and!; [done|done|by exists R]).
  - rewrite bool_decide_false by done. destruct (tr_read _ _ _ _ HT ch Q eq_refl) as [Hch HT']. rewrite Hch.
    destruct (ch =? ctrl_D).
    + split_and!; [done|done|]. destruct (n <? target); [|by exists (R + 1)]. exists R. cbn [set_c_r c_r].
      assert (Er : u32 (u32 (c_r c + 1) - 1) = c_r c) by (rewrite (tr_r _ _ _ _ HT), !u32_add, u32_sub; f_equal; lia).
      destruct c as [b r w e]. cbn in Er |- *. by rewrite Er.
    + destruct (stored (length got)); cbn [negb]; [|split_and!; [done|done|by exists (R + 1)]].
      destruct (ch =? nl); [split_and!; [done|done|by exists (R + 1)]|]. eapply IH; [exact HT'|lia].
Qed.

(** ** Any history of keys and reads *)
Inductive event : Type :=
| Key (k : Z)
| Read (killed : bool) (stored : nat -> bool) (target n : Z) (got : list Z).
Definition event_ok (e : event) : Prop := match e with Key k => 0 <= k < 256 | Read _ _ target n _ => n <= target < 2 ^ 31 end.

(** What a read tells its caller. *)
Inductive answer : Type :=
| Returned (val : Z) (got : list Z)
| Asleep (n : Z) (got : list Z).

Fixpoint t_run (dump : list Z) (es : list event) (t : tty) : option (list answer * tty) :=
  match es with
  | [] => Some ([], t)
  | Key k :: es' => t_run dump es' (vf_consoleintr dump k t)
  | Read killed stored target n got :: es' =>
      match vf_read_loop killed stored target (S (Z.to_nat n)) n got (t_cons t) with
      | None => None
      | Some r =>
          let '(ans, c) := match r with RRet v g c => (Returned v g, c) | RSleep n g c => (Asleep n g, c) end in
          match t_run dump es' (mkTty c (t_out t) (t_woken t)) with Some (l, t') => Some (ans :: l, t') | None => None end
      end
  end.
Fixpoint a_run (dump : list Z) (es : list event) (a : atty) : list answer * atty :=
  match es with
  | [] => ([], a)
  | Key k :: es' => a_run dump es' (a_key dump k a)
  | Read killed stored target n got :: es' =>
      let '(ans, Q) := match a_read killed stored target n got (a_Q a) with ARet v g Q => (Returned v g, Q) | ASleep n g Q => (Asleep n g, Q) end in
      let '(l, a') := a_run dump es' (mkAtty Q (a_L a) (a_out a) (a_woken a)) in (ans :: l, a')
  end.

Definition boot_tty : tty := mkTty (mkCons (replicate 128 0) 0 0 0) [] 0.

Lemma run_refines dump es : Forall event_ok es -> forall t a, trel t a ->
  exists t', t_run dump es t = Some ((a_run dump es a).1, t') /\ trel t' (a_run dump es a).2.
Proof.
  induction 1 as [|e es He _ IH]; intros t a Hr; [by exists t|]. destruct e as [k|killed stored target n got]; cbn [t_run a_run].
  { apply IH. by apply consoleintr_refines. }
  destruct Hr as [[R HT] [Ho Hw]].
  pose proof (read_refines killed stored target (a_L a) (S (Z.to_nat n)) n got _ _ _ HT ltac:(lia)) as Hrel.
  destruct (vf_read_loop _ _ _ _ _ _ _) as [[v g c|m g c]|], (a_read _ _ _ _ _ _) as [v' g' Q'|m' g' Q']; try done;
    destruct Hrel as (-> & -> & Hc); cbn iota beta.
  - destruct (IH (mkTty c (t_out t) (t_woken t)) (mkAtty Q' (a_L a) (a_out a) (a_woken a))) as (t' & E & Hr'); [by split_and!|].
    rewrite E. exists t'. destruct (a_run dump es _) as [l a']. by split.
  - destruct (IH (mkTty c (t_out t) (t_woken t)) (mkAtty Q' (a_L a) (a_out a) (a_woken a))) as (t' & E & Hr'); [by split_and!|].
    rewrite E. exists t'. destruct (a_run dump es _) as [l a']. by split.
Qed.

Lemma boot_rel : trel boot_tty (mkAtty [] [] [] 0).
Proof. split; [|done]. exists 0. split; try done. cbn. lia. Qed.

(** C30.  The console is a queue of committed input and a line under edit.  For every history of key presses
    and reads since boot, in any interleaving, consoleread gives its callers exactly the answers of the
    abstract console, the terminal receives the same echo, and the readers are woken as often:
    the ring and its three wrapping indices are not observable. *)
Theorem console_refines dump es :
  Forall event_ok es -> let '(answers, a) := a_run dump es (mkAtty [] [] [] 0) in
  exists t, t_run dump es boot_tty = Some (answers, t) /\ t_out t = a_out a /\ t_woken t = a_woken a.
Proof.
  intros He. destruct (run_refines dump es He _ _ boot_rel) as (t & E & [_ Hr]). destruct (a_run dump es _) as [l a]. by exists t.
Qed.

(** Two lines, one corrected, the second killed and typed again; a read that sleeps first. *)
Definition ex_events : list event :=
  [Read false (fun _ => true) 10 10 []; Key 97; Key 98; Key ctrl_H; Key 99; Key cr; Read false (fun _ => true) 10 10 [];
   Key 120; Key 121; Key ctrl_U; Key 122; Key ctrl_D; Read false (fun _ => true) 10 10 []; Read false (fun _ => true) 10 10 []].

Lemma console_refines_witness :
  exists t, t_run [] ex_events boot_tty =
    Some ([Asleep 10 []; Returned 3 [97; 99; 10]; Returned 1 [122]; Returned 0 []], t) /\ t_woken t = 2%nat.
Proof.
  assert (He : Forall event_ok ex_events) by (unfold ex_events; repeat (apply Forall_cons; split; [cbn; unfold ctrl_H, ctrl_U, ctrl_D, cr; lia|]); by apply Forall_nil).
  pose proof (console_refines [] ex_events He) as H. vm_compute (a_run _ _ _) in H. destruct H as (t & E & _ & Hw). exists t. split; [exact E|exact Hw].
Defined.

(** ** A line that is typed reaches its reader *)

(** Keys that are neither editing characters nor the end of a line. *)
Definition plain_key (k : Z) : Prop := 0 < k < 256 /\ k ∉ [ctrl_P; ctrl_U; ctrl_H; DEL; ctrl_D; nl; cr].

Lemma a_plain dump k Q L out wk : plain_key k -> (length Q + length L < 127)%nat ->
  a_key dump k (mkAtty Q L out wk) = mkAtty Q (L ++ [k]) (out ++ [k]) wk.
Proof.
  intros [Hr Hk] Hl. rewrite !not_elem_of_cons in Hk. destruct Hk as (H1 & H2 & H3 & H4 & H5 & H6 & H7 & _). unfold a_key.
  rewrite !(proj2 (Z.eqb_neq k _)) by (done || lia). cbn [orb negb andb]. rewrite (proj2 (Nat.ltb_lt _ _)) by lia.
  by rewrite (proj2 (Nat.eqb_neq _ 127)) by lia.
Qed.

Lemma a_line dump l : forall L out, Forall plain_key l -> (length L + length l <= 127)%nat ->
  fold_left (fun a k => a_key dump k a) l (mkAtty [] L out 0) = mkAtty [] (L ++ l) (out ++ l) 0.
Proof.
  induction l as [|k l IH]; intros L out Hl Hlen; [by rewrite !app_nil_r|]. apply Forall_cons in Hl as [Hk Hl]. cbn [length fold_left] in *.
  rewrite a_plain by (done || (cbn; lia)). rewrite IH by (done || (rewrite length_app; cbn; lia)). by rewrite <- !app_assoc.
Qed.

Lemma a_read_line n : forall l got target, Forall plain_key l -> 0 <= n ->
  a_read false (fun _ => true) target n got (l ++ [nl]) =
  ARet (target - n + Z.min n (Z.of_nat (length l) + 1)) (got ++ take (Z.to_nat n) (l ++ [nl])) (drop (Z.to_nat n) (l ++ [nl])).
Proof.
  intros l. revert n. induction l as [|k l IH]; intros n got target Hl Hn.
  - cbn [app a_read length]. destruct (Z.leb_spec n 0).
    + assert (n = 0) as -> by lia. cbn. rewrite app_nil_r. f_equal. lia.
    + cbn. destruct (Z.to_nat n) eqn:E; [lia|]. cbn. f_equal; [lia|by rewrite take_nil|by rewrite drop_nil].
  - apply Forall_cons in Hl as [[Hr Hk] Hl]. rewrite !not_elem_of_cons in Hk. destruct Hk as (_ & _ & _ & _ & H5 & H6 & _).
    cbn [app a_read length]. destruct (Z.leb_spec n 0).
    + assert (n = 0) as -> by lia. cbn. rewrite app_nil_r. f_equal. lia.
    + rewrite (proj2 (Z.eqb_neq _ _) H5), (proj2 (Z.eqb_neq _ _) H6). cbn [negb]. rewrite IH by (done || lia).
      replace (Z.to_nat n) with (S (Z.to_nat (n - 1))) by lia. cbn [take drop]. rewrite <- app_assoc. f_equal. lia.
Qed.

Lemma plain_keys l : Forall plain_key l -> Forall (fun k => 0 <= k < 256) l.
Proof. intros H. eapply Forall_impl; [exact H|]. intros k [Hk _]. lia. Qed.

Lemma keys_refine dump l : forall t a, Forall (fun k => 0 <= k < 256) l -> trel t a ->
  trel (fold_left (fun t k => vf_consoleintr dump k t) l t) (fold_left (fun a k => a_key dump k a) l a).
Proof.
  induction l as [|k l IH]; intros t a Hl Hr; [done|]. apply Forall_cons in Hl as [Hk Hl]. cbn [fold_left].
  apply IH; [done|]. by apply consoleintr_refines.
Qed.

Lemma a_return dump L out wk : (length L <= 127)%nat ->
  a_key dump cr (mkAtty [] L out wk) = mkAtty (L ++ [nl]) [] (out ++ [nl]) (S wk).
Proof. intros Hl. unfold a_key. cbn [length Nat.add]. by rewrite (proj2 (Nat.ltb_lt _ _)) by lia. Qed.

(** C31.  A line that is typed reaches its reader.  Into an empty console, typing up to 127 ordinary
    characters and then return echoes the line, wakes the readers, and a consoleread of n > 0 bytes
    then returns at once, without sleeping, the first n bytes of the line and its newline; the
    characters alone do not wake anyone. *)
Theorem console_delivers dump l n :
  Forall plain_key l -> (length l <= 127)%nat -> 0 < n < 2 ^ 31 ->
  let typed := fold_left (fun t k => vf_consoleintr dump k t) l boot_tty in
  let t := vf_consoleintr dump cr typed in
  t_woken typed = 0%nat /\ t_woken t = 1%nat /\ t_out t = l ++ [nl] /\
  exists c, vf_consoleread false (fun _ => true) n (t_cons t) =
    Some (RRet (Z.min n (Z.of_nat (length l) + 1)) (take (Z.to_nat n) (l ++ [nl])) c).
Proof.
  intros Hl Hlen Hn typed t. pose proof (keys_refine dump l _ _ (plain_keys l Hl) boot_rel) as Hr. fold typed in Hr.
  rewrite a_line in Hr by (done || (cbn; lia)). pose proof Hr as [_ [_ Hw]].
  apply (consoleintr_refines dump cr) in Hr; [|by vm_compute]. fold t in Hr. rewrite a_return in Hr by done.
  destruct Hr as [[R HT] [Ho Hw']]. split_and!; [done..|]. unfold vf_consoleread.
  pose proof (read_refines false (fun _ => true) n _ (S (Z.to_nat n)) n [] _ _ _ HT ltac:(lia)) as Hrel. cbn [a_Q] in Hrel.
  rewrite a_read_line in Hrel by (done || lia). destruct (vf_read_loop _ _ _ _ _ _ _) as [[v g c|m g c]|]; try done.
  destruct Hrel as (-> & -> & _). exists c. rewrite Z.sub_diag, Z.add_0_l. reflexivity.
Qed.

Lemma console_delivers_witness :
  let t := vf_consoleintr [] cr (fold_left (fun t k => vf_consoleintr [] k t) [108; 115] boot_tty) in
  t_out t = [108; 115; 10] /\
  exists c, vf_consoleread false (fun _ => true) 100 (t_cons t) = Some (RRet 3 [108; 115; 10] c).
Proof.
  assert (Hl : Forall plain_key [108; 115]).
  { repeat constructor; try lia; rewrite !not_elem_of_cons; split_and!; try done; apply not_elem_of_nil. }
  destruct (console_delivers [] [108; 115] 100 Hl ltac:(cbn; lia) ltac:(lia)) as (_ & _ & H1 & H2). split; [exact H1|exact H2].
Defined.
