(* ===== verification/Fdt.v ===== *)
(** * Reading the device tree (third_party/libfdt: fdt.c and fdt_ro.c)

    The read-only part of libfdt, which the VisionFive2 port links to find its memory,
    harts and devices.  The blob is a list of bytes at address [addr]; a pointer into it
    is its offset, NULL is [None].  A read outside the blob is the outcome [FFault].  The
    fields of the header, which the caller has mapped, are plain values.  No assumption
    of FDT_ASSUME_MASK is enabled, as in the build.  Signed arithmetic that could
    overflow wraps around. *)

From stdpp Require Import base list numbers.
From S2P Require Import Prelude Params.

Inductive fres (A : Type) : Type :=
| FOk (a : A)
| FFault
| FFuel.
Arguments FOk {A} a.
Arguments FFault {A}.
Arguments FFuel {A}.

Definition fbind {A B} (m : fres A) (k : A -> fres B) : fres B :=
  match m with FOk a => k a | FFault => FFault | FFuel => FFuel end.
Declare Scope fdt_scope.
Notation "'get' x := m 'in' k" := (fbind m (fun x => k)) (at level 10, x name, m at level 100, k at level 200) : fdt_scope.
Notation "'get' ' p := m 'in' k" := (fbind m (fun x => match x with p => k end)) (at level 10, p pattern, m at level 100, k at level 200) : fdt_scope.
Open Scope fdt_scope.

(** ** Constants of fdt.h and libfdt.h *)
Definition FDT_MAGIC : Z := 0xd00dfeed.
Definition FDT_SW_MAGIC : Z := 2 ^ 32 - 1 - FDT_MAGIC.
Definition FDT_TAGSIZE : Z := 4.
Definition FDT_BEGIN_NODE : Z := 1.
Definition FDT_END_NODE : Z := 2.
Definition FDT_PROP : Z := 3.
Definition FDT_NOP : Z := 4.
Definition FDT_END : Z := 9.
Definition FDT_FIRST_SUPPORTED_VERSION : Z := 0x02.
Definition FDT_LAST_SUPPORTED_VERSION : Z := 0x11.
Definition INT_MAX : Z := 2147483647.
Definition ERR_NOTFOUND : Z := -1.
Definition ERR_NOSPACE : Z := -3.
Definition ERR_BADOFFSET : Z := -4.
Definition ERR_BADPATH : Z := -5.
Definition ERR_BADPHANDLE : Z := -6.
Definition ERR_BADSTATE : Z := -7.
Definition ERR_TRUNCATED : Z := -8.
Definition ERR_BADMAGIC : Z := -9.
Definition ERR_BADVERSION : Z := -10.
Definition ERR_BADSTRUCTURE : Z := -11.
Definition ERR_INTERNAL : Z := -13.
Definition ERR_BADVALUE : Z := -15.
Definition ERR_NOPHANDLES : Z := -17.
Definition ERR_ALIGNMENT : Z := -19.
Definition FDT_MAX_PHANDLE : Z := 0xfffffffe.
(** sizeof(struct fdt_property) and sizeof(struct fdt_reserve_entry) *)
Definition PROP_SIZE : Z := 12.
Definition RSV_SIZE : Z := 16.

Definition FDT_TAGALIGN (x : Z) : Z := Z.land (x + FDT_TAGSIZE - 1) (Z.lnot (FDT_TAGSIZE - 1)).

Definition ch_slash : Z := 47.
Definition ch_at : Z := 64.

Section Fdt.
Context (addr : Z) (fdt : list Z).

(** ** Memory *)
Definition byte_at (p : Z) : fres Z :=
  if p <? 0 then FFault else match fdt !! Z.to_nat p with Some b => FOk b | None => FFault end.

(** fdt32_to_cpu and fdt64_to_cpu of the big-endian value at [p] *)
Fixpoint be_at (n : nat) (p acc : Z) : fres Z :=
  match n with
  | O => FOk acc
  | S n' => get b := byte_at p in be_at n' (p + 1) (acc * 256 + b)
  end.
Definition fdt32_ld_ (p : Z) : fres Z := be_at 4 p 0.
Definition fdt64_ld_ (p : Z) : fres Z := be_at 8 p 0.

(** Any loop over the bytes, tags, properties or nodes of the blob. *)
Definition fuel_ : nat := S (length fdt).

(** memcmp, memchr, strlen, strnlen and strrchr of kernel/string.c with a pointer into the blob *)
Fixpoint memcmp_ (n : nat) (p : Z) (s : list Z) : fres Z :=
  match n with
  | O => FOk 0
  | S n' =>
      get b := byte_at p in
      match s with
      | [] => FFault
      | c :: s' => if negb (b =? c) then FOk (b - c) else memcmp_ n' (p + 1) s'
      end
  end.
Fixpoint memchr_ (n : nat) (p c : Z) : fres (option Z) :=
  match n with
  | O => FOk None
  | S n' => get b := byte_at p in if b =? c then FOk (Some p) else memchr_ n' (p + 1) c
  end.
Fixpoint strlen_ (fuel : nat) (p n : Z) : fres Z :=
  match fuel with
  | O => FFuel
  | S fuel' => get b := byte_at (p + n) in if b =? 0 then FOk n else strlen_ fuel' p (n + 1)
  end.
Fixpoint strnlen_ (max : nat) (p : Z) : fres Z :=
  match max with
  | O => FOk 0
  | S max' => get b := byte_at p in if b =? 0 then FOk 0 else get n := strnlen_ max' (p + 1) in FOk (n + 1)
  end.
Fixpoint strrchr_ (fuel : nat) (p c : Z) (last : option Z) : fres (option Z) :=
  match fuel with
  | O => FFuel
  | S fuel' =>
      get b := byte_at p in
      let last := if b =? c then Some p else last in
      if b =? 0 then FOk last else strrchr_ fuel' (p + 1) c last
  end.

(** ** The header *)
Definition fdt_get_header (k : Z) : Z := match fdt32_ld_ (4 * k) with FOk v => v | _ => 0 end.
Definition fdt_magic : Z := fdt_get_header 0.
Definition fdt_totalsize : Z := fdt_get_header 1.
Definition fdt_off_dt_struct : Z := fdt_get_header 2.
Definition fdt_off_dt_strings : Z := fdt_get_header 3.
Definition fdt_off_mem_rsvmap : Z := fdt_get_header 4.
Definition fdt_version : Z := fdt_get_header 5.
Definition fdt_last_comp_version : Z := fdt_get_header 6.
Definition fdt_size_dt_strings : Z := fdt_get_header 8.
Definition fdt_size_dt_struct : Z := fdt_get_header 9.

Definition fdt_ro_probe_ : Z :=
  if negb (Z.land addr 7 =? 0) then ERR_ALIGNMENT
  else
    let sized := if fdt_totalsize <? INT_MAX then fdt_totalsize else ERR_TRUNCATED in
    if fdt_magic =? FDT_MAGIC then
      if fdt_version <? FDT_FIRST_SUPPORTED_VERSION then ERR_BADVERSION
      else if FDT_LAST_SUPPORTED_VERSION <? fdt_last_comp_version then ERR_BADVERSION
      else sized
    else if fdt_magic =? FDT_SW_MAGIC then
      if fdt_size_dt_struct =? 0 then ERR_BADSTATE else sized
    else ERR_BADMAGIC.

Definition check_off_ (hdrsize totalsize off : Z) : bool := (hdrsize <=? off) && (off <=? totalsize).

Definition check_block_ (hdrsize totalsize base size : Z) : bool :=
  if negb (check_off_ hdrsize totalsize base) then false
  else if u32 (base + size) <? base then false
  else check_off_ hdrsize totalsize (u32 (base + size)).

Definition fdt_header_size_ (version : Z) : Z :=
  if version <=? 1 then 28
  else if version <=? 2 then 32
  else if version <=? 3 then 36
  else if version <=? 16 then 36
  else 40.
Definition fdt_header_size : Z := fdt_header_size_ fdt_version.

Definition fdt_check_header : Z :=
  if negb (Z.land addr 7 =? 0) then ERR_ALIGNMENT
  else if negb (fdt_magic =? FDT_MAGIC) then ERR_BADMAGIC
  else if (fdt_version <? FDT_FIRST_SUPPORTED_VERSION) || (FDT_LAST_SUPPORTED_VERSION <? fdt_last_comp_version) then ERR_BADVERSION
  else if fdt_version <? fdt_last_comp_version then ERR_BADVERSION
  else
    let hdrsize := fdt_header_size in
    if (fdt_totalsize <? hdrsize) || (INT_MAX <? fdt_totalsize) then ERR_TRUNCATED
    else if negb (check_off_ hdrsize fdt_totalsize fdt_off_mem_rsvmap) then ERR_TRUNCATED
    else if negb (if fdt_version <? 17 then check_off_ hdrsize fdt_totalsize fdt_off_dt_struct
                  else check_block_ hdrsize fdt_totalsize fdt_off_dt_struct fdt_size_dt_struct) then ERR_TRUNCATED
    else if negb (check_block_ hdrsize fdt_totalsize fdt_off_dt_strings fdt_size_dt_strings) then ERR_TRUNCATED
    else 0.

(** ** The structure block *)

(** fdt_offset_ptr_ is the pointer without the checks *)
Definition fdt_offset_ptr_ (offset : Z) : Z := fdt_off_dt_struct + offset.

Definition fdt_offset_ptr (offset len : Z) : option Z :=
  let uoffset := u32 offset in
  let absoffset := u32 (offset + fdt_off_dt_struct) in
  if offset <? 0 then None
  else if (absoffset <? uoffset) || (u32 (absoffset + len) <? absoffset) || (fdt_totalsize <? u32 (absoffset + len)) then None
  else if (0x11 <=? fdt_version) && ((u32 (uoffset + len) <? uoffset) || (fdt_size_dt_struct <? u32 (offset + len))) then None
  else Some (fdt_offset_ptr_ offset).

(** The loop that skips the name of a node: the offset behind its NUL. *)
Fixpoint skip_name (fuel : nat) (offset : Z) : fres (option Z) :=
  match fuel with
  | O => FFuel
  | S fuel' =>
      match fdt_offset_ptr offset 1 with
      | None => FOk None
      | Some p => get b := byte_at p in if b =? 0 then FOk (Some (i32 (offset + 1))) else skip_name fuel' (i32 (offset + 1))
      end
  end.

(** The tag and *nextoffset *)
Definition fdt_next_tag (startoffset : Z) : fres (Z * Z) :=
  match fdt_offset_ptr startoffset FDT_TAGSIZE with
  | None => FOk (FDT_END, ERR_TRUNCATED)
  | Some tagp =>
      get tag := fdt32_ld_ tagp in
      let offset := i32 (startoffset + FDT_TAGSIZE) in
      let finish (offset : Z) : fres (Z * Z) :=
        match fdt_offset_ptr startoffset (u32 (offset - startoffset)) with
        | None => FOk (FDT_END, ERR_BADSTRUCTURE)
        | Some _ => FOk (tag, i32 (FDT_TAGALIGN offset))
        end in
      if tag =? FDT_BEGIN_NODE then
        get o := skip_name fuel_ offset in
        match o with None => FOk (FDT_END, ERR_BADSTRUCTURE) | Some offset => finish offset end
      else if tag =? FDT_PROP then
        match fdt_offset_ptr offset 4 with
        | None => FOk (FDT_END, ERR_BADSTRUCTURE)
        | Some lenp =>
            get len := fdt32_ld_ lenp in
            let sum := u32 (len + offset) in
            if (INT_MAX <=? sum) || (sum <? u32 offset) then FOk (FDT_END, ERR_BADSTRUCTURE)
            else
              let offset := i32 (offset + (PROP_SIZE - FDT_TAGSIZE) + len) in
              finish (if (fdt_version <? 0x10) && (8 <=? len) && negb (u32 (offset - len) mod 8 =? 0) then i32 (offset + 4) else offset)
        end
      else if (tag =? FDT_END) || (tag =? FDT_END_NODE) || (tag =? FDT_NOP) then finish offset
      else FOk (FDT_END, ERR_BADSTRUCTURE)
  end.

Definition fdt_check_node_offset_ (offset : Z) : fres Z :=
  if (offset <? 0) || negb (offset mod FDT_TAGSIZE =? 0) then FOk ERR_BADOFFSET
  else get '(tag, next) := fdt_next_tag offset in FOk (if negb (tag =? FDT_BEGIN_NODE) then ERR_BADOFFSET else next).

Definition fdt_check_prop_offset_ (offset : Z) : fres Z :=
  if (offset <? 0) || negb (offset mod FDT_TAGSIZE =? 0) then FOk ERR_BADOFFSET
  else get '(tag, next) := fdt_next_tag offset in FOk (if negb (tag =? FDT_PROP) then ERR_BADOFFSET else next).

(** ** Nodes.  [depth] is the value behind the pointer, [None] for a null pointer. *)
Fixpoint next_node_loop (fuel : nat) (offset : Z) (depth : option Z) : fres (Z * option Z) :=
  match fuel with
  | O => FFuel
  | S fuel' =>
      get '(tag, next) := fdt_next_tag offset in
      if tag =? FDT_BEGIN_NODE then FOk (offset, (fun d => i32 (d + 1)) <$> depth)
      else if tag =? FDT_END_NODE then
        match depth with
        | Some d => if i32 (d - 1) <? 0 then FOk (next, Some (i32 (d - 1))) else next_node_loop fuel' next (Some (i32 (d - 1)))
        | None => next_node_loop fuel' next None
        end
      else if tag =? FDT_END then
        FOk (if (0 <=? next) || ((next =? ERR_TRUNCATED) && bool_decide (depth = None)) then ERR_NOTFOUND else next, depth)
      else next_node_loop fuel' next depth
  end.

Definition fdt_next_node (offset : Z) (depth : option Z) : fres (Z * option Z) :=
  get next := (if 0 <=? offset then fdt_check_node_offset_ offset else FOk 0) in
  if next <? 0 then FOk (next, depth) else next_node_loop fuel_ next depth.

Definition fdt_first_subnode (offset : Z) : fres Z :=
  get '(offset, depth) := fdt_next_node offset (Some 0) in
  FOk (if (offset <? 0) || negb (bool_decide (depth = Some 1)) then ERR_NOTFOUND else offset).

Fixpoint next_subnode_loop (fuel : nat) (offset depth : Z) : fres Z :=
  match fuel with
  | O => FFuel
  | S fuel' =>
      get '(offset, d) := fdt_next_node offset (Some depth) in
      let depth := default 0 d in
      if (offset <? 0) || (depth <? 1) then FOk ERR_NOTFOUND
      else if 1 <? depth then next_subnode_loop fuel' offset depth
      else FOk offset
  end.
Definition fdt_next_subnode (offset : Z) : fres Z := next_subnode_loop fuel_ offset 1.

(** ** Names and strings: the pointer or NULL, and *lenp *)
Definition fdt_get_name (nodeoffset : Z) : fres (option Z * Z) :=
  if fdt_ro_probe_ <? 0 then FOk (None, fdt_ro_probe_)
  else
    get err := fdt_check_node_offset_ nodeoffset in
    if err <? 0 then FOk (None, err)
    else
      let nameptr := fdt_offset_ptr_ nodeoffset + FDT_TAGSIZE in
      if fdt_version <? 0x10 then
        get leaf := strrchr_ fuel_ nameptr ch_slash None in
        match leaf with
        | None => FOk (None, ERR_BADSTRUCTURE)
        | Some leaf => get n := strlen_ fuel_ (leaf + 1) 0 in FOk (Some (leaf + 1), n)
        end
      else get n := strlen_ fuel_ nameptr 0 in FOk (Some nameptr, n).

Definition fdt_nodename_eq_ (offset : Z) (s : list Z) : fres bool :=
  let len := Z.of_nat (length s) in
  get '(p, olen) := fdt_get_name offset in
  match p with
  | None => FOk false
  | Some p =>
      if olen <? len then FOk false
      else
        get c := memcmp_ (length s) p s in
        if negb (c =? 0) then FOk false
        else
          get b := byte_at (p + len) in
          FOk ((b =? 0) || (negb (bool_decide (ch_at ∈ s)) && (b =? ch_at)))
  end.

Definition fdt_get_string (stroffset : Z) : fres (option Z * Z) :=
  let totalsize := fdt_ro_probe_ in
  let absoffset := u32 (stroffset + fdt_off_dt_strings) in
  let len := totalsize - absoffset in
  let found (len : Z) : fres (option Z * Z) :=
    get n := memchr_ (Z.to_nat len) absoffset 0 in
    FOk (match n with None => (None, ERR_TRUNCATED) | Some n => (Some absoffset, n - absoffset) end) in
  if totalsize <? 0 then FOk (None, totalsize)
  else if totalsize <=? absoffset then FOk (None, ERR_BADOFFSET)
  else if fdt_magic =? FDT_MAGIC then
    if stroffset <? 0 then FOk (None, ERR_BADOFFSET)
    else if 17 <=? fdt_version then
      if fdt_size_dt_strings <=? stroffset then FOk (None, ERR_BADOFFSET)
      else found (Z.min (u32 (fdt_size_dt_strings - stroffset)) len)
    else found len
  else if fdt_magic =? FDT_SW_MAGIC then
    let sw_stroffset := u32 (- stroffset) in
    if (0 <=? stroffset) || (fdt_size_dt_strings <? sw_stroffset) then FOk (None, ERR_BADOFFSET)
    else found (Z.min sw_stroffset len)
  else FOk (None, ERR_INTERNAL).

Definition fdt_string_eq_ (stroffset : Z) (s : list Z) : fres bool :=
  get '(p, slen) := fdt_get_string stroffset in
  match p with
  | None => FOk false
  | Some p =>
      if negb (slen =? Z.of_nat (length s)) then FOk false
      else get c := memcmp_ (length s) p s in FOk (c =? 0)
  end.

(** ** The memory reservation block *)
Definition fdt_mem_rsv (n : Z) : option Z :=
  let absoffset := u32 (fdt_off_mem_rsvmap + u32 (n * RSV_SIZE)) in
  if absoffset <? fdt_off_mem_rsvmap then None
  else if u64 (fdt_totalsize - RSV_SIZE) <? absoffset then None
  else Some (fdt_off_mem_rsvmap + n * RSV_SIZE).

(** *address and *size, or the error *)
Definition fdt_get_mem_rsv (n : Z) : fres (Z * Z + Z) :=
  if fdt_ro_probe_ <? 0 then FOk (inr fdt_ro_probe_)
  else
    match fdt_mem_rsv n with
    | None => FOk (inr ERR_BADOFFSET)
    | Some re => get a := fdt64_ld_ re in get sz := fdt64_ld_ (re + 8) in FOk (inl (a, sz))
    end.

Fixpoint num_mem_rsv_loop (fuel : nat) (i : Z) : fres Z :=
  match fuel with
  | O => FFuel
  | S fuel' =>
      match fdt_mem_rsv i with
      | None => FOk ERR_TRUNCATED
      | Some re => get sz := fdt64_ld_ (re + 8) in if sz =? 0 then FOk i else num_mem_rsv_loop fuel' (i + 1)
      end
  end.
Definition fdt_num_mem_rsv : fres Z := num_mem_rsv_loop fuel_ 0.

(** ** Properties *)
Fixpoint nextprop_ (fuel : nat) (offset : Z) : fres Z :=
  match fuel with
  | O => FFuel
  | S fuel' =>
      get '(tag, next) := fdt_next_tag offset in
      if tag =? FDT_END then FOk (if 0 <=? next then ERR_BADSTRUCTURE else next)
      else if tag =? FDT_PROP then FOk offset
      else if tag =? FDT_NOP then nextprop_ fuel' next
      else FOk ERR_NOTFOUND
  end.

Definition fdt_first_property_offset (nodeoffset : Z) : fres Z :=
  get offset := fdt_check_node_offset_ nodeoffset in
  if offset <? 0 then FOk offset else nextprop_ fuel_ offset.

Definition fdt_next_property_offset (offset : Z) : fres Z :=
  get offset := fdt_check_prop_offset_ offset in
  if offset <? 0 then FOk offset else nextprop_ fuel_ offset.

(** The pointer to struct fdt_property and *lenp *)
Definition fdt_get_property_by_offset_ (offset : Z) : fres (option Z * Z) :=
  get err := fdt_check_prop_offset_ offset in
  if err <? 0 then FOk (None, err)
  else
    let prop := fdt_offset_ptr_ offset in
    get len := fdt32_ld_ (prop + 4) in
    FOk (Some prop, i32 len).

Definition fdt_get_property_by_offset (offset : Z) : fres (option Z * Z) :=
  if fdt_version <? 0x10 then FOk (None, ERR_BADVERSION) else fdt_get_property_by_offset_ offset.

(** The property found: pointer, *lenp, *poffset; or the error in *lenp. *)
Fixpoint get_property_loop (fuel : nat) (offset : Z) (name : list Z) : fres (Z * Z * Z + Z) :=
  match fuel with
  | O => FFuel
  | S fuel' =>
      if offset <? 0 then FOk (inr offset)
      else
        get '(prop, len) := fdt_get_property_by_offset_ offset in
        match prop with
        | None => FOk (inr ERR_INTERNAL)
        | Some prop =>
            get nameoff := fdt32_ld_ (prop + 8) in
            get eq := fdt_string_eq_ (i32 nameoff) name in
            if eq then FOk (inl (prop, len, offset))
            else get next := fdt_next_property_offset offset in get_property_loop fuel' next name
        end
  end.
Definition fdt_get_property_namelen_ (offset : Z) (name : list Z) : fres (Z * Z * Z + Z) :=
  get first := fdt_first_property_offset offset in get_property_loop fuel_ first name.

Definition fdt_get_property_namelen (offset : Z) (name : list Z) : fres (Z * Z * Z + Z) :=
  if fdt_version <? 0x10 then FOk (inr ERR_BADVERSION) else fdt_get_property_namelen_ offset name.

(** The address of the value behind the header of a property. *)
Definition prop_data (prop poffset : Z) : fres Z :=
  get len := fdt32_ld_ (prop + 4) in
  FOk (if (fdt_version <? 0x10) && negb ((poffset + PROP_SIZE) mod 8 =? 0) && (8 <=? len) then prop + PROP_SIZE + 4 else prop + PROP_SIZE).

(** The value's address and its length; or the error in *lenp. *)
Definition fdt_getprop_namelen (nodeoffset : Z) (name : list Z) : fres (Z * Z + Z) :=
  get r := fdt_get_property_namelen_ nodeoffset name in
  match r with
  | inr e => FOk (inr e)
  | inl (prop, len, poffset) => get p := prop_data prop poffset in FOk (inl (p, len))
  end.
Definition fdt_getprop (nodeoffset : Z) (name : list Z) : fres (Z * Z + Z) := fdt_getprop_namelen nodeoffset name.

(** The value, the name's pointer and the length. *)
Definition fdt_getprop_by_offset (offset : Z) : fres (Z * Z * Z + Z) :=
  get '(prop, len) := fdt_get_property_by_offset_ offset in
  match prop with
  | None => FOk (inr len)
  | Some prop =>
      get nameoff := fdt32_ld_ (prop + 8) in
      get '(name, namelen) := fdt_get_string (i32 nameoff) in
      match name with
      | None => FOk (inr namelen)
      | Some name => get p := prop_data prop offset in FOk (inl (p, name, len))
      end
  end.

(** ** Paths *)
Fixpoint subnode_loop (fuel : nat) (offset depth : Z) (name : list Z) : fres Z :=
  match fuel with
  | O => FFuel
  | S fuel' =>
      if (offset <? 0) || (depth <? 0) then FOk (if depth <? 0 then ERR_NOTFOUND else offset)
      else
        get eq := (if depth =? 1 then fdt_nodename_eq_ offset name else FOk false) in
        if eq then FOk offset
        else get '(offset, d) := fdt_next_node offset (Some depth) in subnode_loop fuel' offset (default 0 d) name
  end.
Definition fdt_subnode_offset_namelen (offset : Z) (name : list Z) : fres Z :=
  if fdt_ro_probe_ <? 0 then FOk fdt_ro_probe_ else subnode_loop fuel_ offset 0 name.
Definition fdt_subnode_offset (parentoffset : Z) (name : list Z) : fres Z := fdt_subnode_offset_namelen parentoffset name.

(** The bytes of a path up to its next slash, and the rest. *)
Fixpoint path_elem (p : list Z) : list Z * list Z :=
  match p with
  | [] => ([], [])
  | c :: p' => if c =? ch_slash then ([], p) else let '(e, r) := path_elem p' in (c :: e, r)
  end.
Fixpoint fdt_skip_slashes (p : list Z) : list Z :=
  match p with [] => [] | c :: p' => if c =? ch_slash then fdt_skip_slashes p' else p end.

Fixpoint path_loop (fuel : nat) (p : list Z) (offset : Z) : fres Z :=
  match p with
  | [] => FOk offset
  | _ =>
      match fuel with
      | O => FFuel
      | S fuel' =>
          match fdt_skip_slashes p with
          | [] => FOk offset
          | p =>
              let '(e, rest) := path_elem p in
              get offset := fdt_subnode_offset_namelen offset e in
              if offset <? 0 then FOk offset else path_loop fuel' rest offset
          end
      end
  end.

(** A path that starts with a slash, as the property /aliases of an alias must. *)
Definition path_offset_abs (path : list Z) : fres Z :=
  if fdt_ro_probe_ <? 0 then FOk fdt_ro_probe_
  else if Z.of_nat (length path) <=? 0 then FOk ERR_BADPATH
  else path_loop (length path) path 0.

Definition str_aliases : list Z := [47; 97; 108; 105; 97; 115; 101; 115].

(** fdt_path_getprop_namelen for a path that starts with a slash *)
Definition fdt_path_getprop_namelen (path name : list Z) : fres (option (Z * Z)) :=
  get offset := path_offset_abs path in
  if offset <? 0 then FOk None
  else get r := fdt_getprop_namelen offset name in FOk (match r with inl v => Some v | inr _ => None end).

Definition fdt_get_alias_namelen (name : list Z) : fres (option Z) :=
  get r := fdt_path_getprop_namelen str_aliases name in
  match r with
  | None => FOk None
  | Some (alias, len) =>
      if len <=? 0 then FOk None
      else
        get last := byte_at (alias + len - 1) in
        if negb (last =? 0) then FOk None
        else get first := byte_at alias in FOk (if first =? ch_slash then Some alias else None)
  end.

(** The string at a pointer, as the callee of fdt_path_offset reads it. *)
Fixpoint str_at (fuel : nat) (p : Z) : fres (list Z) :=
  match fuel with
  | O => FFuel
  | S fuel' => get b := byte_at p in if b =? 0 then FOk [] else get s := str_at fuel' (p + 1) in FOk (b :: s)
  end.

Definition fdt_path_offset_namelen (path : list Z) : fres Z :=
  if fdt_ro_probe_ <? 0 then FOk fdt_ro_probe_
  else
    match path with
    | [] => FOk ERR_BADPATH
    | c :: _ =>
        if c =? ch_slash then path_loop (length path) path 0
        else
          let '(e, rest) := path_elem path in
          get alias := fdt_get_alias_namelen e in
          match alias with
          | None => FOk ERR_BADPATH
          | Some p =>
              get apath := str_at fuel_ p in
              get offset := path_offset_abs apath in
              path_loop (length path) rest offset
          end
    end.
Definition fdt_path_offset (path : list Z) : fres Z := fdt_path_offset_namelen path.

(** ** Ancestors: the offset and *nodedepth *)
Fixpoint supernode_loop (fuel : nat) (nodeoffset sdepth offset depth super : Z) : fres (Z * option Z) :=
  match fuel with
  | O => FFuel
  | S fuel' =>
      if (offset <? 0) || (nodeoffset <? offset) then
        FOk (if (offset =? ERR_NOTFOUND) || (0 <=? offset) then ERR_BADOFFSET
             else if offset =? ERR_BADOFFSET then ERR_BADSTRUCTURE else offset, None)
      else
        let super := if depth =? sdepth then offset else super in
        if offset =? nodeoffset then FOk (if depth <? sdepth then ERR_NOTFOUND else super, Some depth)
        else get '(offset, d) := fdt_next_node offset (Some depth) in supernode_loop fuel' nodeoffset sdepth offset (default 0 d) super
  end.
Definition fdt_supernode_atdepth_offset (nodeoffset supernodedepth : Z) : fres (Z * option Z) :=
  if fdt_ro_probe_ <? 0 then FOk (fdt_ro_probe_, None)
  else if supernodedepth <? 0 then FOk (ERR_NOTFOUND, None)
  else supernode_loop fuel_ nodeoffset supernodedepth 0 0 ERR_INTERNAL.

Definition fdt_node_depth (nodeoffset : Z) : fres Z :=
  get '(err, depth) := fdt_supernode_atdepth_offset nodeoffset 0 in
  FOk (if negb (err =? 0) then (if err <? 0 then err else ERR_INTERNAL) else default 0 depth).

Definition fdt_parent_offset (nodeoffset : Z) : fres Z :=
  get nodedepth := fdt_node_depth nodeoffset in
  if nodedepth <? 0 then FOk nodedepth
  else get '(r, _) := fdt_supernode_atdepth_offset nodeoffset (nodedepth - 1) in FOk r.

(** ** Searches *)
Fixpoint by_prop_value_loop (fuel : nat) (offset : Z) (propname propval : list Z) : fres Z :=
  match fuel with
  | O => FFuel
  | S fuel' =>
      if offset <? 0 then FOk offset
      else
        get v := fdt_getprop offset propname in
        get eq := match v with
                  | inl (val, len) =>
                      if len =? Z.of_nat (length propval) then get c := memcmp_ (length propval) val propval in FOk (c =? 0) else FOk false
                  | inr _ => FOk false
                  end in
        if eq then FOk offset
        else get '(next, _) := fdt_next_node offset None in by_prop_value_loop fuel' next propname propval
  end.
Definition fdt_node_offset_by_prop_value (startoffset : Z) (propname propval : list Z) : fres Z :=
  if fdt_ro_probe_ <? 0 then FOk fdt_ro_probe_
  else get '(offset, _) := fdt_next_node startoffset None in by_prop_value_loop fuel_ offset propname propval.

Definition str_phandle : list Z := [112; 104; 97; 110; 100; 108; 101].
Definition str_linux_phandle : list Z := [108; 105; 110; 117; 120; 44] ++ str_phandle.
Definition fdt_get_phandle (nodeoffset : Z) : fres Z :=
  get v := fdt_getprop nodeoffset str_phandle in
  match v with
  | inl (php, 4) => fdt32_ld_ php
  | _ =>
      get v := fdt_getprop nodeoffset str_linux_phandle in
      match v with inl (php, 4) => fdt32_ld_ php | _ => FOk 0 end
  end.

Fixpoint by_phandle_loop (fuel : nat) (offset phandle : Z) : fres Z :=
  match fuel with
  | O => FFuel
  | S fuel' =>
      if offset <? 0 then FOk offset
      else
        get v := fdt_get_phandle offset in
        if v =? phandle then FOk offset else get '(next, _) := fdt_next_node offset None in by_phandle_loop fuel' next phandle
  end.
Definition fdt_node_offset_by_phandle (phandle : Z) : fres Z :=
  if (phandle =? 0) || (phandle =? 2 ^ 32 - 1) then FOk ERR_BADPHANDLE
  else if fdt_ro_probe_ <? 0 then FOk fdt_ro_probe_
  else get '(offset, _) := fdt_next_node (-1) None in by_phandle_loop fuel_ offset phandle.

(** *phandle, or the error *)
Fixpoint max_phandle_loop (fuel : nat) (offset max : Z) : fres (Z + Z) :=
  match fuel with
  | O => FFuel
  | S fuel' =>
      get '(offset, _) := fdt_next_node offset None in
      if offset <? 0 then FOk (if offset =? ERR_NOTFOUND then inl max else inr offset)
      else get v := fdt_get_phandle offset in max_phandle_loop fuel' offset (if max <? v then v else max)
  end.
Definition fdt_find_max_phandle : fres (Z + Z) := max_phandle_loop fuel_ (-1) 0.
Definition fdt_generate_phandle : fres (Z + Z) :=
  get r := fdt_find_max_phandle in
  FOk (match r with
       | inr e => inr e
       | inl max => if max =? FDT_MAX_PHANDLE then inr ERR_NOPHANDLES else inl (u32 (max + 1))
       end).

(** ** String lists: [str] is the string without its NUL *)
Fixpoint stringlist_loop (fuel : nat) (strlist listlen : Z) (str : list Z) : fres bool :=
  match fuel with
  | O => FFuel
  | S fuel' =>
      if Z.of_nat (length str) <=? listlen then
        get c := memcmp_ (S (length str)) strlist (str ++ [0]) in
        if c =? 0 then FOk true
        else
          get p := memchr_ (Z.to_nat listlen) strlist 0 in
          match p with
          | None => FOk false
          | Some p => stringlist_loop fuel' (p + 1) (listlen - (p - strlist + 1)) str
          end
      else FOk false
  end.
Definition fdt_stringlist_contains (strlist listlen : Z) (str : list Z) : fres bool := stringlist_loop fuel_ strlist listlen str.

Fixpoint stringlist_count_loop (fuel : nat) (list_ end_ count : Z) : fres Z :=
  match fuel with
  | O => FFuel
  | S fuel' =>
      if list_ <? end_ then
        get n := strnlen_ (Z.to_nat (end_ - list_)) list_ in
        if end_ <? list_ + (n + 1) then FOk ERR_BADVALUE else stringlist_count_loop fuel' (list_ + (n + 1)) end_ (count + 1)
      else FOk count
  end.
Definition fdt_stringlist_count (nodeoffset : Z) (property : list Z) : fres Z :=
  get v := fdt_getprop nodeoffset property in
  match v with inr e => FOk e | inl (p, len) => stringlist_count_loop fuel_ p (p + len) 0 end.

Fixpoint stringlist_search_loop (fuel : nat) (list_ end_ idx : Z) (str : list Z) : fres Z :=
  match fuel with
  | O => FFuel
  | S fuel' =>
      if list_ <? end_ then
        get n := strnlen_ (Z.to_nat (end_ - list_)) list_ in
        if end_ <? list_ + (n + 1) then FOk ERR_BADVALUE
        else
          get eq := (if n =? Z.of_nat (length str) then get c := memcmp_ (S (length str)) list_ (str ++ [0]) in FOk (c =? 0) else FOk false) in
          if eq then FOk idx else stringlist_search_loop fuel' (list_ + (n + 1)) end_ (idx + 1) str
      else FOk ERR_NOTFOUND
  end.
Definition fdt_stringlist_search (nodeoffset : Z) (property str : list Z) : fres Z :=
  get v := fdt_getprop nodeoffset property in
  match v with inr e => FOk e | inl (p, len) => stringlist_search_loop fuel_ p (p + len) 0 str end.

Fixpoint stringlist_get_loop (fuel : nat) (list_ end_ idx : Z) : fres (Z * Z + Z) :=
  match fuel with
  | O => FFuel
  | S fuel' =>
      if list_ <? end_ then
        get n := strnlen_ (Z.to_nat (end_ - list_)) list_ in
        if end_ <? list_ + (n + 1) then FOk (inr ERR_BADVALUE)
        else if idx =? 0 then FOk (inl (list_, n))
        else stringlist_get_loop fuel' (list_ + (n + 1)) end_ (idx - 1)
      else FOk (inr ERR_NOTFOUND)
  end.
Definition fdt_stringlist_get (nodeoffset : Z) (property : list Z) (idx : Z) : fres (Z * Z + Z) :=
  get v := fdt_getprop nodeoffset property in
  match v with inr e => FOk (inr e) | inl (p, len) => stringlist_get_loop fuel_ p (p + len) idx end.

Definition str_compatible : list Z := [99; 111; 109; 112; 97; 116; 105; 98; 108; 101].
Definition fdt_node_check_compatible (nodeoffset : Z) (compatible : list Z) : fres Z :=
  get v := fdt_getprop nodeoffset str_compatible in
  match v with
  | inr e => FOk e
  | inl (p, len) => get b := fdt_stringlist_contains p len compatible in FOk (if b then 0 else 1)
  end.

Fixpoint by_compatible_loop (fuel : nat) (offset : Z) (compatible : list Z) : fres Z :=
  match fuel with
  | O => FFuel
  | S fuel' =>
      if offset <? 0 then FOk offset
      else
        get err := fdt_node_check_compatible offset compatible in
        if (err <? 0) && negb (err =? ERR_NOTFOUND) then FOk err
        else if err =? 0 then FOk offset
        else get '(next, _) := fdt_next_node offset None in by_compatible_loop fuel' next compatible
  end.
Definition fdt_node_offset_by_compatible (startoffset : Z) (compatible : list Z) : fres Z :=
  if fdt_ro_probe_ <? 0 then FOk fdt_ro_probe_
  else get '(offset, _) := fdt_next_node startoffset None in by_compatible_loop fuel_ offset compatible.
End Fdt.
