(* ===== verification/FdtSafe.v ===== *)
(** * The device tree reader is memory safe

    For a blob of any content whose header passes fdt_check_header, every function the
    kernel calls returns, and reads no byte past the one that follows the blob.  The loops
    end because every tag they pass lies inside the blob and is at least four bytes. *)

From stdpp Require Import base list numbers.
From S2P Require Import Prelude Params Fdt.

(** ** A run that returns, with what it returns *)
Definition ok {A} (m : fres A) (Q : A -> Prop) : Prop := match m with FOk a => Q a | _ => False end.

Lemma ok_ret {A} (a : A) (Q : A -> Prop) : Q a -> ok (FOk a) Q.
Proof. done. Qed.
Lemma ok_bind {A B} (m : fres A) (k : A -> fres B) (P : A -> Prop) (Q : B -> Prop) :
  ok m P -> (forall a, P a -> ok (k a) Q) -> ok (fbind m k) Q.
Proof. intros H1 H2. destruct m as [a| |]; [|done|done]. by apply H2. Qed.
Lemma ok_mono {A} (m : fres A) (P Q : A -> Prop) : ok m P -> (forall a, P a -> Q a) -> ok m Q.
Proof. destruct m; [|done|done]. intros H1 H2. by apply H2. Qed.
Lemma ok_inv {A} (m : fres A) (Q : A -> Prop) : ok m Q -> exists a, m = FOk a /\ Q a.
Proof. destruct m as [a| |]; [|done|done]. by exists a. Qed.

(** ** Machine integers and paths *)
Definition int_range (x : Z) : Prop := - 2 ^ 31 <= x < 2 ^ 31.
Lemma tagalign_spec x : x <= FDT_TAGALIGN x <= x + 3 /\ FDT_TAGALIGN x mod 4 = 0.
Proof.
  unfold FDT_TAGALIGN, FDT_TAGSIZE. replace (x + 4 - 1) with (x + 3) by lia. change (4 - 1) with (Z.ones 2). rewrite <- Z.ldiff_land, Z.ldiff_ones_r by lia.
  rewrite Z.shiftr_div_pow2, Z.shiftl_mul_pow2 by lia. change (2 ^ 2) with 4. pose proof (Z.div_mod (x + 3) 4 ltac:(lia)). pose proof (Z.mod_pos_bound (x + 3) 4 ltac:(lia)).
  split; [lia|]. apply Z.mod_mul. lia.
Qed.

Lemma u32_i32_sub x y : u32 (i32 x - y) = u32 (x - y).
Proof. unfold u32. rewrite <- (Zminus_mod_idemp_l (i32 x)), <- (Zminus_mod_idemp_l x). do 2 f_equal. apply u32_i32. Qed.

Lemma i32_i32_add x y : i32 (i32 x + y) = i32 (x + y).
Proof.
  assert (E : u32 (i32 x + y) = u32 (x + y)) by (unfold u32; rewrite <- (Zplus_mod_idemp_l (i32 x)), <- (Zplus_mod_idemp_l x); do 2 f_equal; apply u32_i32).
  unfold i32 at 1 3, signed. unfold u32 in E. by rewrite E.
Qed.

Lemma skip_slashes_le p : (length (fdt_skip_slashes p) <= length p)%nat.
Proof. induction p as [|c p IH]; cbn; [lia|]. destruct (_ =? _); cbn; lia. Qed.

Lemma skip_slashes_head p c p' : fdt_skip_slashes p = c :: p' -> c ≠ ch_slash.
Proof. induction p as [|x p IH]; cbn; [done|]. destruct (Z.eqb_spec x ch_slash); [done|]. by intros [= -> ->]. Qed.

Lemma path_elem_le p : (length (path_elem p).2 <= length p)%nat.
Proof. induction p as [|c p IH]; cbn; [lia|]. destruct (_ =? _); [cbn; lia|]. destruct (path_elem p). cbn in *. lia. Qed.

Lemma i32_range x : int_range (i32 x).
Proof.
  unfold i32, signed, int_range. pose proof (Z.mod_pos_bound x (2 ^ 32) ltac:(lia)). destruct (Z.ltb_spec (x mod 2 ^ 32) (2 ^ (32 - 1))); lia.
Qed.

Section Safe.
Context (addr : Z) (fdt : list Z).
Abbreviation totalsize := (fdt_totalsize fdt).
Abbreviation ostruct := (fdt_off_dt_struct fdt).
Abbreviation ostrings := (fdt_off_dt_strings fdt).
Abbreviation orsv := (fdt_off_mem_rsvmap fdt).
Abbreviation version := (fdt_version fdt).

(** ** Bytes and words *)
Context (Hbytes : Forall is_byte fdt).

Lemma byte_ok p : 0 <= p < Z.of_nat (length fdt) -> ok (byte_at fdt p) is_byte.
Proof.
  intros Hp. unfold byte_at. destruct (Z.ltb_spec p 0); [lia|]. destruct (lookup_lt_is_Some_2 fdt (Z.to_nat p) ltac:(lia)) as [b Hb]. rewrite Hb.
  exact (proj1 (Forall_lookup _ _) Hbytes _ _ Hb).
Qed.

Lemma be_ok n : forall p acc, 0 <= acc -> 0 <= p -> p + Z.of_nat n <= Z.of_nat (length fdt) ->
  ok (be_at fdt n p acc) (fun v => 0 <= v < (acc + 1) * 256 ^ Z.of_nat n).
Proof.
  induction n as [|n IH]; intros p acc Ha Hp Hl; cbn [be_at].
  { apply ok_ret. cbn. lia. }
  eapply ok_bind; [apply byte_ok; lia|]. intros b [Hb1 Hb2]. eapply ok_mono; [apply IH; lia|]. intros v Hv. cbv beta in Hv.
  rewrite Nat2Z.inj_succ, Z.pow_succ_r by lia. nia.
Qed.

Lemma ld32_ok p : 0 <= p -> p + 4 <= Z.of_nat (length fdt) -> ok (fdt32_ld_ fdt p) (fun v => 0 <= v < 2 ^ 32).
Proof. intros H1 H2. eapply ok_mono; [apply be_ok; lia|]. intros v. cbn. lia. Qed.
Lemma ld64_ok p : 0 <= p -> p + 8 <= Z.of_nat (length fdt) -> ok (fdt64_ld_ fdt p) (fun v => 0 <= v < 2 ^ 64).
Proof. intros H1 H2. eapply ok_mono; [apply be_ok; lia|]. intros v. cbn. lia. Qed.

Lemma header_range k : 0 <= fdt_get_header fdt k < 2 ^ 32.
Proof.
  unfold fdt_get_header, fdt32_ld_. enough (H : forall n p acc, 0 <= acc -> match be_at fdt n p acc with FOk v => 0 <= v < (acc + 1) * 256 ^ Z.of_nat n | _ => True end).
  { specialize (H 4%nat (4 * k) 0 ltac:(lia)). destruct (be_at fdt 4 (4 * k) 0); [cbn in H; lia|lia|lia]. }
  induction n as [|n IH]; intros p acc Ha; cbn [be_at]; [cbn; lia|]. unfold byte_at. destruct (p <? 0); [done|]. destruct (fdt !! Z.to_nat p) as [b|] eqn:Hb; [|done].
  pose proof (proj1 (Forall_lookup _ _) Hbytes _ _ Hb) as [Hb1 Hb2]. cbn [fbind]. specialize (IH (p + 1) (acc * 256 + b) ltac:(lia)).
  destruct (be_at fdt n _ _); [|done|done]. rewrite Nat2Z.inj_succ, Z.pow_succ_r by lia. nia.
Qed.

(** ** What fdt_check_header establishes *)
Record sane : Prop := {
  sn_total : 28 <= totalsize <= INT_MAX;
  sn_struct : 28 <= ostruct <= totalsize;
  sn_strings : 28 <= ostrings /\ ostrings + fdt_size_dt_strings fdt <= totalsize;
  sn_rsv : 28 <= orsv <= totalsize;
  sn_magic : fdt_magic fdt = FDT_MAGIC;
  sn_block : 17 <= version -> ostruct + fdt_size_dt_struct fdt <= totalsize;
}.

Lemma check_off_spec h t o : check_off_ h t o = true -> h <= o <= t.
Proof. unfold check_off_. intros [H1%Z.leb_le H2%Z.leb_le]%andb_true_iff. lia. Qed.
Lemma check_block_spec h t b sz : 0 <= b < 2 ^ 32 -> 0 <= sz < 2 ^ 32 -> 0 <= h -> check_block_ h t b sz = true -> h <= b /\ b + sz <= t.
Proof.
  intros Hb Hsz Hh. unfold check_block_. destruct (check_off_ h t b) eqn:E1; cbn [negb]; [|done]. destruct (Z.ltb_spec (u32 (b + sz)) b) as [|Hge]; [done|].
  intros E2%check_off_spec. apply check_off_spec in E1. split; [lia|]. destruct (decide (b + sz < 2 ^ 32)).
  - rewrite u32_small in E2 by lia. lia.
  - exfalso. unfold u32 in Hge. rewrite <- (Z_mod_plus_full _ (-1)), Z.mod_small in Hge by lia. lia.
Qed.

Lemma header_size_ge : 28 <= fdt_header_size fdt.
Proof. unfold fdt_header_size, fdt_header_size_. repeat case_match; lia. Qed.

Lemma check_header_sane : fdt_check_header addr fdt = 0 -> sane.
Proof.
  unfold fdt_check_header. pose proof header_size_ge as Hh.
  destruct (negb (Z.land addr 7 =? 0)); [done|]. destruct (Z.eqb_spec (fdt_magic fdt) FDT_MAGIC) as [Em|]; cbn [negb]; [|done].
  destruct (_ || _); [done|]. destruct (version <? _); [done|]. destruct (Z.ltb_spec totalsize (fdt_header_size fdt)); [done|].
  destruct (Z.ltb_spec INT_MAX totalsize); [done|]. cbn [orb].
  destruct (check_off_ _ _ orsv) eqn:E1; cbn [negb]; [|done]. apply check_off_spec in E1.
  pose proof (header_range 2). pose proof (header_range 3). pose proof (header_range 8). pose proof (header_range 9).
  destruct (Z.ltb_spec version 17) as [Hv|Hv].
  - destruct (check_off_ _ _ ostruct) eqn:E2; cbn [negb]; [|done]. apply check_off_spec in E2.
    destruct (check_block_ _ _ ostrings _) eqn:E3; cbn [negb]; [|done]. apply check_block_spec in E3; [|done|done|lia]. intros _. split; try done; lia.
  - destruct (check_block_ _ _ ostruct _) eqn:E2; cbn [negb]; [|done]. apply check_block_spec in E2; [|done|done|lia].
    destruct (check_block_ _ _ ostrings _) eqn:E3; cbn [negb]; [|done]. apply check_block_spec in E3; [|done|done|lia].
    intros _. assert (0 <= fdt_size_dt_struct fdt) by (unfold fdt_size_dt_struct; lia). split; try done; lia.
Qed.

(** ** The structure block of a sane blob, followed by at least one more mapped byte *)
Context (HS : sane) (Hlen : totalsize < Z.of_nat (length fdt)).

Lemma offset_ptr_Some off len p : int_range off -> 0 <= len < 2 ^ 32 -> fdt_offset_ptr fdt off len = Some p ->
  0 <= off /\ p = ostruct + off /\ p + len <= totalsize.
Proof.
  intros Ho Hl. destruct HS as [HT HO _ _ _ _]. unfold INT_MAX, int_range in *. unfold fdt_offset_ptr. destruct (Z.ltb_spec off 0); [done|].
  rewrite (u32_small (off + ostruct)) by lia. destruct (_ <? _); [done|]. destruct (Z.ltb_spec (u32 (off + ostruct + len)) (off + ostruct)) as [|Hw]; [done|].
  destruct (Z.ltb_spec totalsize (u32 (off + ostruct + len))) as [|Ht]; [done|]. cbn [orb]. destruct (_ && _); [done|]. intros [= <-]. unfold fdt_offset_ptr_.
  split_and!; [lia|lia|]. destruct (decide (off + ostruct + len < 2 ^ 32)) as [Hs|Hs]; [rewrite u32_small in Ht by lia; lia|].
  exfalso. unfold u32 in Hw. rewrite <- (Z_mod_plus_full _ (-1)), Z.mod_small in Hw by lia. lia.
Qed.

Lemma struct_byte p : 0 <= p <= totalsize -> ok (byte_at fdt p) is_byte.
Proof. intros Hp. apply byte_ok. lia. Qed.

Lemma skip_name_ok fuel : forall o, 0 <= o < 2 ^ 31 -> totalsize - o < Z.of_nat fuel -> (0 < fuel)%nat ->
  ok (skip_name fdt fuel o) (fun r => match r with
    | None => True
    | Some o' => o < o' /\ ostruct + o' <= totalsize /\ byte_at fdt (ostruct + o' - 1) = FOk 0
    end).
Proof.
  induction fuel as [|fuel IH]; intros o Ho Hf Hpos; [lia|]. cbn [skip_name].
  destruct (fdt_offset_ptr fdt o 1) as [p|] eqn:E; [|done]. apply offset_ptr_Some in E as (_ & -> & Hp); [|unfold int_range; lia|lia].
  pose proof (sn_total HS). pose proof (sn_struct HS). unfold INT_MAX in *. rewrite i32_small by lia.
  destruct (ok_inv _ _ (struct_byte (ostruct + o) ltac:(lia))) as (b & Eb & _). rewrite Eb. cbn [fbind].
  destruct (Z.eqb_spec b 0) as [->|].
  - apply ok_ret. split_and!; [lia|lia|]. by replace (ostruct + (o + 1) - 1) with (ostruct + o) by lia.
  - eapply ok_mono; [apply IH; lia|]. intros [o'|]; [|done]. intros (H1 & H2 & H3). split_and!; [lia|done|done].
Qed.

(** A tag that was read: where it ends and what it holds. *)
Definition old_pad (start len : Z) : Z := if (version <? 0x10) && (8 <=? len) && negb ((start + PROP_SIZE) mod 8 =? 0) then 4 else 0.
Definition tag_fits (start : Z) (r : Z * Z) : Prop :=
  let '(tag, next) := r in
  int_range next /\ (next < 0 -> tag = FDT_END) /\
  (0 <= next -> 0 <= start /\ start + 4 <= next /\ ostruct + next <= totalsize + 3 /\ ostruct + start + 4 <= totalsize /\ next mod 4 = 0 /\
    (tag = FDT_BEGIN_NODE -> exists n, 0 <= n /\ ostruct + start + 4 + n < totalsize /\ byte_at fdt (ostruct + start + 4 + n) = FOk 0) /\
    (tag = FDT_PROP -> exists len, fdt32_ld_ fdt (ostruct + start + 4) = FOk len /\ 0 <= len < 2 ^ 31 /\
       ostruct + start + PROP_SIZE + len + old_pad start len <= totalsize)).

(** The end of fdt_next_tag, for a tag whose contents end at [o]. *)
Lemma finish_ok start tag o : int_range start -> 0 <= start -> start + 4 <= o < 2 ^ 31 + 2 ^ 31 -> ostruct + start + 4 <= totalsize -> 
  (ostruct + o <= totalsize -> (tag = FDT_BEGIN_NODE -> exists n, 0 <= n /\ ostruct + start + 4 + n < totalsize /\ byte_at fdt (ostruct + start + 4 + n) = FOk 0) /\
    (tag = FDT_PROP -> exists len, fdt32_ld_ fdt (ostruct + start + 4) = FOk len /\ 0 <= len < 2 ^ 31 /\ ostruct + start + PROP_SIZE + len + old_pad start len <= totalsize)) ->
  tag_fits start (match fdt_offset_ptr fdt start (u32 (i32 o - start)) with
                  | None => (FDT_END, ERR_BADSTRUCTURE) | Some _ => (tag, i32 (FDT_TAGALIGN (i32 o))) end).
Proof.
  intros Hr Hs Ho H4 Htag. pose proof (sn_total HS). pose proof (sn_struct HS). unfold INT_MAX in *.
  assert (Hu : u32 (i32 o - start) = o - start).
  { rewrite <- (u32_small (o - start)) by (unfold int_range in *; lia). unfold u32. rewrite <- (Zminus_mod_idemp_l (i32 o)), <- (Zminus_mod_idemp_l o). do 2 f_equal. apply u32_i32. }
  rewrite Hu. destruct (fdt_offset_ptr fdt start (o - start)) as [p|] eqn:E; [|split; [unfold int_range, ERR_BADSTRUCTURE; lia|]; split; [done|unfold ERR_BADSTRUCTURE; lia]].
  apply offset_ptr_Some in E as (_ & -> & Hp); [|done|unfold int_range in *; lia]. rewrite (i32_small o) by lia.
  destruct (tagalign_spec o) as [Ha Hm]. rewrite (i32_small (FDT_TAGALIGN o)) by lia. split; [unfold int_range; lia|]. split; [lia|]. intros _.
  destruct (Htag ltac:(lia)) as [Hb Hq]. split_and!; [lia|lia|lia|lia|done|done|done].
Qed.

Lemma no_tag start e : int_range e -> e < 0 -> tag_fits start (FDT_END, e).
Proof. intros H1 H2. split; [done|]. split; [done|lia]. Qed.

Lemma next_tag_ok start : int_range start -> ok (fdt_next_tag fdt start) (tag_fits start).
Proof.
  intros Hr. pose proof (sn_total HS) as HT. pose proof (sn_struct HS) as HO. unfold INT_MAX in HT. unfold fdt_next_tag, FDT_TAGSIZE.
  destruct (fdt_offset_ptr fdt start 4) as [p|] eqn:E; [|apply ok_ret, no_tag; [unfold int_range|]; unfold ERR_TRUNCATED; lia].
  apply offset_ptr_Some in E as (Hs & -> & Hp); [|done|lia].
  eapply ok_bind; [apply ld32_ok; lia|]. intros tag Htag. cbv beta in Htag. rewrite (i32_small (start + 4)) by lia. cbv zeta.
  assert (Hbad : ok (FOk (FDT_END, ERR_BADSTRUCTURE)) (tag_fits start)) by (apply ok_ret, no_tag; [unfold int_range|]; unfold ERR_BADSTRUCTURE; lia).
  assert (Hfin : forall o, start + 4 <= o < 2 ^ 32 ->
    (ostruct + o <= totalsize -> (tag = FDT_BEGIN_NODE -> exists n, 0 <= n /\ ostruct + start + 4 + n < totalsize /\ byte_at fdt (ostruct + start + 4 + n) = FOk 0) /\
    (tag = FDT_PROP -> exists len, fdt32_ld_ fdt (ostruct + start + 4) = FOk len /\ 0 <= len < 2 ^ 31 /\ ostruct + start + PROP_SIZE + len + old_pad start len <= totalsize)) ->
    ok (match fdt_offset_ptr fdt start (u32 (i32 o - start)) with None => FOk (FDT_END, ERR_BADSTRUCTURE) | Some _ => FOk (tag, i32 (FDT_TAGALIGN (i32 o))) end) (tag_fits start)).
  { intros o Ho Hc. pose proof (finish_ok start tag o Hr Hs ltac:(lia) ltac:(lia) Hc) as Hf. by destruct (fdt_offset_ptr _ _ _). }
  destruct (Z.eqb_spec tag FDT_BEGIN_NODE) as [->|Hn1].
  - eapply ok_bind; [apply (skip_name_ok (fuel_ fdt) (start + 4)); unfold fuel_; lia|]. intros [o|]; [|done]. intros (H1 & H2 & H3).
    replace o with (i32 o) by (apply i32_small; lia). apply Hfin; [lia|]. intros _. split; [|done]. intros _. exists (o - 1 - (start + 4)).
    replace (ostruct + start + 4 + (o - 1 - (start + 4))) with (ostruct + o - 1) by lia. split_and!; [lia|lia|done].
  - destruct (Z.eqb_spec tag FDT_PROP) as [->|Hn2].
    + destruct (fdt_offset_ptr fdt (start + 4) 4) as [p|] eqn:E; [|done]. apply offset_ptr_Some in E as (_ & -> & Hp'); [|unfold int_range; lia|lia].
      destruct (ok_inv _ _ (ld32_ok (ostruct + (start + 4)) ltac:(lia) ltac:(lia))) as (len & Elen & Hl). rewrite Elen. cbn [fbind].
      destruct (Z.leb_spec INT_MAX (u32 (len + (start + 4)))) as [|Hsum]; [done|]. cbn [orb]. destruct (Z.ltb_spec (u32 (len + (start + 4))) (u32 (start + 4))) as [|Hsum2]; [done|].
      unfold INT_MAX in Hsum. rewrite (u32_small (start + 4)) in Hsum2 by lia.
      assert (Hl2 : len + (start + 4) < 2147483647).
      { destruct (decide (len + (start + 4) < 2 ^ 32)); [rewrite u32_small in Hsum by lia; lia|]. exfalso. unfold u32 in Hsum2. rewrite <- (Z_mod_plus_full _ (-1)), Z.mod_small in Hsum2 by lia. lia. }
      rewrite u32_i32_sub. unfold PROP_SIZE. replace (start + 4 + (12 - 4) + len - len) with (start + 12) by lia. rewrite (u32_small (start + 12)) by lia.
      replace (start + 4 + (12 - 4) + len) with (start + 12 + len) by lia.
      replace (if (version <? 16) && (8 <=? len) && negb ((start + 12) mod 8 =? 0) then i32 (i32 (start + 12 + len) + 4) else i32 (start + 12 + len))
        with (i32 (start + 12 + len + old_pad start len)).
      2:{ unfold old_pad, PROP_SIZE. destruct (_ && _ && _); [by rewrite i32_i32_add|by rewrite Z.add_0_r]. }
      assert (Hpad : 0 <= old_pad start len <= 4) by (unfold old_pad; destruct (_ && _ && _); lia).
      apply Hfin; [lia|]. intros Hfit. split; [done|]. intros _. exists len. replace (ostruct + start + 4) with (ostruct + (start + 4)) by lia. unfold PROP_SIZE in *. split_and!; [done|lia|lia|lia].
    + destruct (_ || _ || _); [|done]. replace (start + 4) with (i32 (start + 4)) by (apply i32_small; lia). apply Hfin; [lia|]. intros _. split; [done|done].
Qed.

(** ** Offsets of nodes and properties *)
Definition node_fits (off : Z) : Prop :=
  0 <= off /\ ostruct + off + 4 <= totalsize /\ exists n, 0 <= n /\ ostruct + off + 4 + n < totalsize /\ byte_at fdt (ostruct + off + 4 + n) = FOk 0.
Definition prop_fits (off : Z) : Prop :=
  0 <= off /\ exists len, fdt32_ld_ fdt (ostruct + off + 4) = FOk len /\ 0 <= len < 2 ^ 31 /\ ostruct + off + PROP_SIZE + len + old_pad off len <= totalsize.
(** An offset that is an error or lies behind [off] and inside the blob. *)
Definition after (off r : Z) : Prop := int_range r /\ (0 <= r -> off <= r /\ r <= totalsize).

Lemma check_node_ok off : int_range off -> ok (fdt_check_node_offset_ fdt off) (fun r => after (off + 4) r /\ (0 <= r -> node_fits off)).
Proof.
  intros Hr. unfold fdt_check_node_offset_. assert (He : after (off + 4) ERR_BADOFFSET /\ (0 <= ERR_BADOFFSET -> node_fits off)).
  { unfold after, int_range, ERR_BADOFFSET in *. split; [lia|lia]. }
  destruct (_ || _); [done|]. eapply ok_bind; [by apply next_tag_ok|]. intros [tag next] (Hi & Hneg & Hpos). apply ok_ret. pose proof (sn_struct HS).
  destruct (Z.eqb_spec tag FDT_BEGIN_NODE) as [->|]; cbn [negb]; [|done].
  split; [split; [done|]; intros H0; destruct (Hpos H0) as (? & ? & ? & _); lia|]. intros H0. destruct (Hpos H0) as (? & ? & ? & ? & _ & Hb & _). split_and!; [done|done|by apply Hb].
Qed.

Lemma check_prop_ok off : int_range off -> ok (fdt_check_prop_offset_ fdt off) (fun r => after (off + 4) r /\ (0 <= r -> prop_fits off)).
Proof.
  intros Hr. unfold fdt_check_prop_offset_. assert (He : after (off + 4) ERR_BADOFFSET /\ (0 <= ERR_BADOFFSET -> prop_fits off)).
  { unfold after, int_range, ERR_BADOFFSET in *. split; [lia|lia]. }
  destruct (_ || _); [done|]. eapply ok_bind; [by apply next_tag_ok|]. intros [tag next] (Hi & Hneg & Hpos). apply ok_ret. pose proof (sn_struct HS).
  destruct (Z.eqb_spec tag FDT_PROP) as [->|]; cbn [negb]; [|done].
  split; [split; [done|]; intros H0; destruct (Hpos H0) as (? & ? & ? & _); lia|]. intros H0. destruct (Hpos H0) as (? & ? & ? & ? & _ & _ & Hb). split; [done|by apply Hb].
Qed.

Lemma next_node_loop_ok fuel : forall o d, int_range o -> totalsize - o < Z.of_nat fuel -> (0 < fuel)%nat ->
  ok (next_node_loop fdt fuel o d) (fun r => after o r.1).
Proof.
  induction fuel as [|fuel IH]; intros o d Ho Hf Hpos; [lia|]. cbn [next_node_loop]. pose proof (sn_struct HS).
  eapply ok_bind; [by apply next_tag_ok|]. intros [tag next] (Hi & Hneg & Hfit).
  assert (Hrec : forall d, tag ≠ FDT_END -> ok (next_node_loop fdt fuel next d) (fun r => after o r.1)).
  { intros d' Ht. assert (H0 : 0 <= next) by (destruct (decide (0 <= next)); [done|]; exfalso; apply Ht, Hneg; lia). destruct (Hfit H0) as (? & ? & ? & ? & _).
    eapply ok_mono; [apply IH; [done|lia|lia]|]. intros [r d2] [Hr1 Hr2]. split; [done|]. intros Hr3. specialize (Hr2 Hr3). cbn in *. lia. }
  destruct (Z.eqb_spec tag FDT_BEGIN_NODE) as [->|].
  { apply ok_ret. split; [done|]. intros _. cbn in *. assert (Hn0 : 0 <= next) by (destruct (decide (0 <= next)); [done|]; specialize (Hneg ltac:(lia)); done). destruct (Hfit Hn0) as (? & ? & ? & ? & _). lia. }
  destruct (Z.eqb_spec tag FDT_END_NODE) as [->|].
  { destruct d as [d|]; [|by apply Hrec]. destruct (_ <? 0); [|by apply Hrec]. apply ok_ret. split; [done|]. intros H0. destruct (Hfit H0) as (? & ? & ? & ? & _). cbn in *. lia. }
  destruct (Z.eqb_spec tag FDT_END) as [->|]; [|by apply Hrec]. apply ok_ret. destruct (_ || _) eqn:E; [split; unfold int_range, ERR_NOTFOUND; cbn; lia|].
  apply orb_false_iff in E as [E%Z.leb_gt _]. split; [done|cbn; lia].
Qed.

Lemma next_node_ok off d : int_range off -> ok (fdt_next_node fdt off d) (fun r => after (off + 1) r.1).
Proof.
  intros Hr. unfold fdt_next_node. pose proof (sn_total HS).
  eapply (ok_bind _ _ (fun r => after 0 r /\ (0 <= off -> 0 <= r -> off + 4 <= r))).
  { destruct (Z.leb_spec 0 off); [|apply ok_ret; unfold after, int_range; lia]. eapply ok_mono; [by apply check_node_ok|]. intros r [[H1 H2] _]. unfold after. split; [split; [done|]; intros H3; specialize (H2 H3); lia|]. intros _ H3. by apply H2. }
  intros next [[H1 H2] H3]. destruct (Z.ltb_spec next 0); [apply ok_ret; split; [done|cbn; lia]|].
  eapply ok_mono; [apply next_node_loop_ok; [done|unfold fuel_; lia|unfold fuel_; lia]|]. intros [r d'] [H4 H5]. split; [done|]. intros H6. specialize (H5 H6). cbn in *. lia.
Qed.

Definition safe {A} (m : fres A) : Prop := ok m (fun _ => True).
Lemma safe_of {A} (m : fres A) (Q : A -> Prop) : ok m Q -> safe m.
Proof. intros H. by eapply ok_mono. Qed.

Lemma first_subnode_ok off : int_range off -> ok (fdt_first_subnode fdt off) (after (off + 1)).
Proof.
  intros Hr. unfold fdt_first_subnode. eapply ok_bind; [by apply next_node_ok|]. intros [r d] H. apply ok_ret. destruct (_ || _); [|done].
  unfold after, int_range, ERR_NOTFOUND. lia.
Qed.

Lemma next_subnode_ok off : int_range off -> ok (fdt_next_subnode fdt off) (after (off + 1)).
Proof.
  intros Hr. unfold fdt_next_subnode. enough (H : forall fuel o d, int_range o -> off <= o -> totalsize - o < Z.of_nat fuel -> (0 < fuel)%nat -> ok (next_subnode_loop fdt fuel o d) (after (off + 1))).
  { destruct (Z.ltb_spec off (-1)) as [Hneg|]; [|apply H; [done|lia|unfold fuel_; lia|unfold fuel_; lia]].
    unfold fuel_. cbn [next_subnode_loop]. eapply ok_bind; [by apply next_node_ok|]. intros [r d] [Hr1 Hr2]. cbn in Hr1, Hr2.
    destruct (Z.ltb_spec r 0); [apply ok_ret; unfold after, int_range, ERR_NOTFOUND; lia|]. cbn [orb]. destruct (_ <? 1); [apply ok_ret; unfold after, int_range, ERR_NOTFOUND; lia|].
    destruct (1 <? _); [|apply ok_ret; split; [done|]; lia]. apply H; [done|lia|lia|]. pose proof (sn_total HS). lia. }
  induction fuel as [|fuel IH]; intros o d Ho Hoff Hf Hpos; [lia|]. cbn [next_subnode_loop]. eapply ok_bind; [by apply next_node_ok|]. intros [r d'] [Hr1 Hr2]. cbn in Hr1, Hr2.
  destruct (Z.ltb_spec r 0); [apply ok_ret; unfold after, int_range, ERR_NOTFOUND; lia|]. cbn [orb]. destruct (_ <? 1); [apply ok_ret; unfold after, int_range, ERR_NOTFOUND; lia|].
  destruct (1 <? _); [|apply ok_ret; split; [done|]; lia]. apply IH; [done|lia|lia|lia].
Qed.

(** ** Strings *)
Lemma memcmp_ok n : forall p s, (n <= length s)%nat -> 0 <= p -> p + Z.of_nat n <= totalsize + 1 -> safe (memcmp_ fdt n p s).
Proof.
  induction n as [|n IH]; intros p s Hs Hp Hl; [done|]. cbn [memcmp_]. eapply ok_bind; [apply struct_byte; lia|]. intros b _. destruct s as [|c s]; [cbn in Hs; lia|].
  destruct (negb _); [done|]. apply IH; [cbn in Hs; lia|lia|lia].
Qed.

Lemma memchr_ok n : forall p c, 0 <= p -> p + Z.of_nat n <= totalsize + 1 ->
  ok (memchr_ fdt n p c) (fun r => match r with None => True | Some q => p <= q < p + Z.of_nat n /\ byte_at fdt q = FOk c end).
Proof.
  induction n as [|n IH]; intros p c Hp Hl; [done|]. cbn [memchr_]. destruct (ok_inv _ _ (struct_byte p ltac:(lia))) as (b & Eb & _). rewrite Eb. cbn [fbind].
  destruct (Z.eqb_spec b c) as [->|]; [apply ok_ret; split; [lia|done]|]. eapply ok_mono; [apply IH; lia|]. intros [q|]; [|done]. intros [H1 H2]. split; [lia|done].
Qed.

Lemma strlen_ok fuel : forall p n k, n <= k -> byte_at fdt (p + k) = FOk 0 -> 0 <= p + n -> p + k <= totalsize -> k - n < Z.of_nat fuel ->
  ok (strlen_ fdt fuel p n) (fun r => n <= r <= k /\ byte_at fdt (p + r) = FOk 0).
Proof.
  induction fuel as [|fuel IH]; intros p n k Hn Hb Hp Hk Hf; [lia|]. cbn [strlen_]. destruct (ok_inv _ _ (struct_byte (p + n) ltac:(lia))) as (b & Eb & _). rewrite Eb. cbn [fbind].
  destruct (Z.eqb_spec b 0) as [->|Hne]; [apply ok_ret; split; [lia|done]|].
  assert (n ≠ k) by (intros ->; congruence). eapply ok_mono; [apply (IH p (n + 1) k); try done; lia|]. intros r [H1 H2]. split; [lia|done].
Qed.

Lemma strnlen_ok n : forall p, 0 <= p -> p + Z.of_nat n <= totalsize + 1 ->
  ok (strnlen_ fdt n p) (fun r => 0 <= r <= Z.of_nat n).
Proof.
  induction n as [|n IH]; intros p Hp Hl; [apply ok_ret; lia|]. cbn [strnlen_]. eapply ok_bind; [apply struct_byte; lia|]. intros b _. destruct (b =? 0); [apply ok_ret; lia|].
  eapply ok_bind; [apply IH; lia|]. intros r Hr. apply ok_ret. cbv beta in Hr. lia.
Qed.

Lemma strrchr_ok fuel : forall p c last k, c ≠ 0 -> p <= k -> byte_at fdt k = FOk 0 -> 0 <= p -> k <= totalsize -> k - p < Z.of_nat fuel ->
  (forall q, last = Some q -> 0 <= q < k) -> ok (strrchr_ fdt fuel p c last) (fun r => forall q, r = Some q -> 0 <= q < k).
Proof.
  induction fuel as [|fuel IH]; intros p c last k Hc Hpk Hb Hp Hk Hf Hlast; [lia|]. cbn [strrchr_].
  destruct (ok_inv _ _ (struct_byte p ltac:(lia))) as (b & Eb & _). rewrite Eb. cbn [fbind]. destruct (Z.eqb_spec b 0) as [->|Hne].
  - apply ok_ret. destruct (Z.eqb_spec 0 c); [congruence|]. done.
  - assert (p ≠ k) by (intros ->; congruence). apply (IH _ _ _ k); try done; [lia|lia|lia|]. intros q. destruct (b =? c); [intros [= <-]; lia|apply Hlast].
Qed.

Lemma str_at_ok fuel : forall p k, p <= k -> byte_at fdt k = FOk 0 -> 0 <= p -> k <= totalsize -> k - p < Z.of_nat fuel -> safe (str_at fdt fuel p).
Proof.
  induction fuel as [|fuel IH]; intros p k Hpk Hb Hp Hk Hf; [lia|]. cbn [str_at]. destruct (ok_inv _ _ (struct_byte p ltac:(lia))) as (b & Eb & _). rewrite Eb. cbn [fbind].
  destruct (Z.eqb_spec b 0) as [->|Hne]; [done|]. assert (p ≠ k) by (intros ->; congruence). eapply ok_bind; [apply (IH _ k); try done; lia|]. done.
Qed.

Lemma get_name_ok off : int_range off ->
  ok (fdt_get_name addr fdt off) (fun r => forall p, r.1 = Some p -> 0 <= p /\ 0 <= r.2 /\ p + r.2 < totalsize + 1).
Proof.
  intros Hr. unfold fdt_get_name. destruct (_ <? 0); [done|]. eapply ok_bind; [by apply check_node_ok|]. intros err [_ Hfit]. destruct (Z.ltb_spec err 0); [done|].
  destruct (Hfit ltac:(lia)) as (H0 & H4 & n & Hn0 & Hn & Hb). pose proof (sn_struct HS). unfold fdt_offset_ptr_, FDT_TAGSIZE. destruct (version <? 16).
  - eapply ok_bind; [apply (strrchr_ok _ _ _ None (ostruct + off + 4 + n)); try done; unfold fuel_; lia|]. intros [q|] Hq; [|done]. specialize (Hq q eq_refl).
    eapply ok_bind; [apply (strlen_ok _ (q + 1) 0 (ostruct + off + 4 + n - q - 1)); [lia|by replace (q + 1 + (ostruct + off + 4 + n - q - 1)) with (ostruct + off + 4 + n) by lia|lia|lia|unfold fuel_; lia]|].
    intros r [Hr1 Hr2]. apply ok_ret. intros p [= <-]. cbn. lia.
  - eapply ok_bind; [apply (strlen_ok _ (ostruct + off + 4) 0 n); [lia|done|lia|lia|unfold fuel_; lia]|]. intros r [Hr1 Hr2]. apply ok_ret. intros p [= <-]. cbn. lia.
Qed.

Lemma nodename_eq_ok off name : int_range off -> safe (fdt_nodename_eq_ addr fdt off name).
Proof.
  intros Hr. unfold fdt_nodename_eq_. eapply ok_bind; [by apply get_name_ok|]. intros [[p|] n] Hp; [|done]. specialize (Hp p eq_refl). cbn in Hp.
  destruct (Z.ltb_spec n (Z.of_nat (length name))); [done|]. eapply ok_bind; [apply memcmp_ok; lia|]. intros c _. destruct (negb _); [done|].
  eapply ok_bind; [apply struct_byte; lia|]. done.
Qed.

Lemma probe_total : 0 <= fdt_ro_probe_ addr fdt -> fdt_ro_probe_ addr fdt = totalsize.
Proof.
  unfold fdt_ro_probe_, ERR_ALIGNMENT, ERR_BADVERSION, ERR_BADSTATE, ERR_BADMAGIC. destruct (negb _); [lia|]. repeat case_match; unfold ERR_TRUNCATED; lia.
Qed.

Lemma get_string_ok so : ok (fdt_get_string addr fdt so) (fun r => forall p, r.1 = Some p -> 0 <= p /\ 0 <= r.2 /\ p + r.2 < totalsize).
Proof.
  unfold fdt_get_string. destruct (Z.ltb_spec (fdt_ro_probe_ addr fdt) 0) as [|Hpr]; [done|]. rewrite (probe_total Hpr).
  destruct (Z.leb_spec totalsize (u32 (so + ostrings))) as [|Ha]; [done|]. set (a := u32 (so + ostrings)) in *.
  assert (Ha0 : 0 <= a) by (unfold a, u32; apply Z.mod_pos_bound; lia).
  assert (Hfound : forall l, l <= totalsize - a -> ok (fbind (memchr_ fdt (Z.to_nat l) a 0) (fun n => FOk (match n with None => (None, ERR_TRUNCATED) | Some n => (Some a, n - a) end)))
    (fun r => forall p, r.1 = Some p -> 0 <= p /\ 0 <= r.2 /\ p + r.2 < totalsize)).
  { intros l Hl. eapply ok_bind; [apply memchr_ok; lia|]. intros [q|] Hq; [|done]. apply ok_ret. intros p [= <-]. cbn. lia. }
  repeat case_match; try done; apply Hfound; lia.
Qed.

Lemma string_eq_ok so name : safe (fdt_string_eq_ addr fdt so name).
Proof.
  unfold fdt_string_eq_. eapply ok_bind; [apply get_string_ok|]. intros [[p|] n] Hp; [|done]. specialize (Hp p eq_refl). cbn in Hp.
  destruct (Z.eqb_spec n (Z.of_nat (length name))); cbn [negb]; [|done]. eapply ok_bind; [apply memcmp_ok; lia|]. done.
Qed.

(** ** Reservations *)
Lemma mem_rsv_Some n re : 0 <= n < 2 ^ 28 -> fdt_mem_rsv fdt n = Some re -> 0 <= re /\ re = orsv + n * 16 /\ re + 16 <= totalsize.
Proof.
  intros Hn. pose proof (sn_rsv HS). pose proof (sn_total HS). unfold INT_MAX in *. unfold fdt_mem_rsv, RSV_SIZE. rewrite (u32_small (n * 16)) by lia.
  destruct (Z.ltb_spec (u32 (orsv + n * 16)) orsv) as [|Hw]; [done|]. unfold u64. rewrite Z.mod_small by lia. destruct (Z.ltb_spec (totalsize - 16) (u32 (orsv + n * 16))) as [|Ht]; [done|].
  intros [= <-]. destruct (decide (orsv + n * 16 < 2 ^ 32)); [rewrite u32_small in Ht by lia; lia|].
  exfalso. unfold u32 in Hw. rewrite <- (Z_mod_plus_full _ (-1)), Z.mod_small in Hw by lia. lia.
Qed.

Lemma get_mem_rsv_ok n : 0 <= n < 2 ^ 28 -> ok (fdt_get_mem_rsv addr fdt n) (fun r => match r with inl (a, sz) => 0 <= a < 2 ^ 64 /\ 0 <= sz < 2 ^ 64 | inr _ => True end).
Proof.
  intros Hn. unfold fdt_get_mem_rsv. destruct (_ <? 0); [done|]. destruct (fdt_mem_rsv fdt n) as [re|] eqn:E; [|done]. apply mem_rsv_Some in E as (H1 & H2 & H3); [|done].
  eapply ok_bind; [apply ld64_ok; lia|]. intros a Ha. eapply ok_bind; [apply ld64_ok; lia|]. done.
Qed.

Lemma num_mem_rsv_ok : ok (fdt_num_mem_rsv fdt) (fun r => r < 2 ^ 28).
Proof.
  unfold fdt_num_mem_rsv. pose proof (sn_total HS). pose proof (sn_rsv HS). unfold INT_MAX in *.
  enough (H' : forall fuel i, 0 <= i -> i * 16 <= totalsize -> totalsize - i < Z.of_nat fuel -> (0 < fuel)%nat -> ok (num_mem_rsv_loop fdt fuel i) (fun r => r < 2 ^ 28))
    by (apply H'; unfold fuel_; lia).
  induction fuel as [|fuel IH]; intros i Hi0 Hi Hf Hpos; [lia|]. cbn [num_mem_rsv_loop]. destruct (fdt_mem_rsv fdt i) as [re|] eqn:E; [|apply ok_ret; unfold ERR_TRUNCATED; lia].
  apply mem_rsv_Some in E as (Hr1 & Hr2 & Hr3); [|lia]. eapply ok_bind; [apply ld64_ok; lia|]. intros sz _. destruct (sz =? 0); [apply ok_ret; lia|]. apply IH; lia.
Qed.

(** ** Properties *)
Lemma nextprop_ok fuel : forall o, int_range o -> totalsize - o < Z.of_nat fuel -> (0 < fuel)%nat -> ok (nextprop_ fdt fuel o) (after o).
Proof.
  induction fuel as [|fuel IH]; intros o Ho Hf Hpos; [lia|]. cbn [nextprop_]. pose proof (sn_struct HS).
  eapply ok_bind; [by apply next_tag_ok|]. intros [tag next] (Hi & Hneg & Hfit).
  destruct (Z.eqb_spec tag FDT_END) as [->|Hne]; [apply ok_ret; destruct (Z.leb_spec 0 next); unfold after, int_range, ERR_BADSTRUCTURE in *; lia|].
  assert (Hn0 : 0 <= next) by (destruct (decide (0 <= next)); [done|]; exfalso; apply Hne, Hneg; lia). destruct (Hfit Hn0) as (? & ? & ? & ? & _).
  destruct (_ =? FDT_PROP); [apply ok_ret; split; [done|lia]|]. destruct (_ =? FDT_NOP); [|apply ok_ret; unfold after, int_range, ERR_NOTFOUND; lia].
  eapply ok_mono; [apply IH; [done|lia|lia]|]. intros r [Hr1 Hr2]. split; [done|]. intros Hr3. specialize (Hr2 Hr3). lia.
Qed.

Lemma first_property_ok off : int_range off -> ok (fdt_first_property_offset fdt off) (after (off + 4)).
Proof.
  intros Hr. unfold fdt_first_property_offset. eapply ok_bind; [by apply check_node_ok|]. intros r [[H1 H2] _]. destruct (Z.ltb_spec r 0); [apply ok_ret; split; [done|lia]|].
  specialize (H2 ltac:(lia)). eapply ok_mono; [apply nextprop_ok; [done|unfold fuel_; lia|unfold fuel_; lia]|]. intros r' [H3 H4]. split; [done|]. intros H5. specialize (H4 H5). lia.
Qed.

Lemma next_property_ok off : int_range off -> ok (fdt_next_property_offset fdt off) (after (off + 4)).
Proof.
  intros Hr. unfold fdt_next_property_offset. eapply ok_bind; [by apply check_prop_ok|]. intros r [[H1 H2] _]. destruct (Z.ltb_spec r 0); [apply ok_ret; split; [done|lia]|].
  specialize (H2 ltac:(lia)). eapply ok_mono; [apply nextprop_ok; [done|unfold fuel_; lia|unfold fuel_; lia]|]. intros r' [H3 H4]. split; [done|]. intros H5. specialize (H4 H5). lia.
Qed.

(** A property that was returned lies inside the blob. *)
Definition prop_at (prop len off : Z) : Prop := prop = ostruct + off /\ fdt32_ld_ fdt (prop + 4) = FOk len /\ 0 <= off /\ 0 <= len /\ prop + PROP_SIZE + len + old_pad off len <= totalsize.

Lemma property_by_offset_ok off : int_range off -> ok (fdt_get_property_by_offset_ fdt off) (fun r => forall p, r.1 = Some p -> prop_at p r.2 off).
Proof.
  intros Hr. unfold fdt_get_property_by_offset_. eapply ok_bind; [by apply check_prop_ok|]. intros err [_ Hfit]. destruct (Z.ltb_spec err 0); [done|].
  destruct (Hfit ltac:(lia)) as (H0 & len & El & Hl & Hb). unfold fdt_offset_ptr_. rewrite El. cbn [fbind]. apply ok_ret. intros p [= <-]. cbn [snd]. rewrite i32_small by lia. split_and!; [done|done|done|lia|done].
Qed.

Lemma get_property_loop_ok fuel name : forall o, int_range o -> (0 <= o -> totalsize - o < Z.of_nat fuel) -> (0 < fuel)%nat ->
  ok (get_property_loop addr fdt fuel o name) (fun r => match r with inl (p, len, off) => prop_at p len off | inr e => e < 0 end).
Proof.
  induction fuel as [|fuel IH]; intros o Ho Hf Hpos; [lia|]. cbn [get_property_loop]. pose proof (sn_struct HS). destruct (Z.ltb_spec o 0); [by apply ok_ret|].
  eapply ok_bind; [by apply property_by_offset_ok|]. intros [[p|] len] Hp; [|by apply ok_ret]. specialize (Hp p eq_refl). cbn in Hp. destruct Hp as (-> & Hp2 & Hp3 & Hp4 & Hp5).
  assert (0 <= old_pad o len) by (unfold old_pad; destruct (_ && _ && _); lia). unfold PROP_SIZE in *.
  eapply ok_bind; [apply ld32_ok; lia|]. intros nameoff _. eapply ok_bind; [apply string_eq_ok|]. intros [] _.
  - apply ok_ret. by split_and!.
  - eapply ok_bind; [by apply next_property_ok|]. intros next [Hn1 Hn2]. apply IH; [done|lia|lia].
Qed.

Lemma getprop_ok off name : int_range off ->
  ok (fdt_getprop addr fdt off name) (fun r => match r with inl (p, len) => 0 <= p /\ 0 <= len /\ p + len <= totalsize | inr e => e < 0 end).
Proof.
  intros Hr. unfold fdt_getprop, fdt_getprop_namelen, fdt_get_property_namelen_. pose proof (sn_struct HS). eapply ok_bind.
  - eapply ok_bind; [by apply first_property_ok|]. intros first [H1 H2]. apply (get_property_loop_ok (fuel_ fdt) name first); [done|unfold fuel_; lia|unfold fuel_; lia].
  - intros [[[p len] o]|e]; [|done]. intros (-> & Hp2 & Hp3 & Hp4 & Hp5). unfold prop_data. rewrite Hp2. cbn [fbind]. apply ok_ret. unfold PROP_SIZE, old_pad in *.
    replace ((version <? 16) && negb ((o + 12) mod 8 =? 0) && (8 <=? len)) with ((version <? 16) && (8 <=? len) && negb ((o + 12) mod 8 =? 0))
      by (by destruct (version <? 16), (8 <=? len), (negb _)). destruct (_ && _ && _); lia.
Qed.

(** ** Searches over the nodes *)

(** Enough fuel to go on from offset [o]; each step of a search moves to a later node. *)
Definition fueled (fuel : nat) (o : Z) : Prop := (0 < fuel)%nat /\ (0 <= o -> 1 < Z.of_nat fuel /\ totalsize - o + 1 < Z.of_nat fuel).
Lemma fueled_init o : fueled (fuel_ fdt) o.
Proof. pose proof (sn_total HS). unfold fueled, fuel_. lia. Qed.
Lemma fueled_step fuel o r : fueled (S fuel) o -> 0 <= o -> after (o + 1) r -> fueled fuel r.
Proof. intros [H1 H2] H3 [_ H4]. specialize (H2 H3). split; [lia|]. intros H5. specialize (H4 H5). lia. Qed.

Lemma subnode_loop_ok fuel name : forall o d, int_range o -> fueled fuel o -> ok (subnode_loop addr fdt fuel o d name) int_range.
Proof.
  induction fuel as [|fuel IH]; intros o d Ho Hf; [destruct Hf; lia|]. cbn [subnode_loop].
  destruct (Z.ltb_spec o 0); cbn [orb]; [apply ok_ret; destruct (d <? 0); [unfold int_range, ERR_NOTFOUND; lia|done]|].
  destruct (d <? 0); [apply ok_ret; unfold int_range, ERR_NOTFOUND; lia|].
  eapply (ok_bind _ _ (fun _ => True)); [destruct (d =? 1); [by apply nodename_eq_ok|done]|]. intros [] _; [by apply ok_ret|].
  eapply ok_bind; [by apply next_node_ok|]. intros [r d'] Hr. apply IH; [apply Hr|by apply (fueled_step fuel o)].
Qed.

Lemma probe_int : int_range (fdt_ro_probe_ addr fdt).
Proof.
  destruct (Z.ltb_spec (fdt_ro_probe_ addr fdt) 0) as [Hn|Hn]; [|rewrite probe_total by done; pose proof (sn_total HS); unfold int_range, INT_MAX in *; lia].
  revert Hn. unfold fdt_ro_probe_, ERR_ALIGNMENT, ERR_BADVERSION, ERR_BADSTATE, ERR_BADMAGIC, ERR_TRUNCATED. pose proof (sn_total HS). unfold INT_MAX, int_range in *. repeat case_match; lia.
Qed.

Lemma subnode_offset_ok off name : int_range off -> ok (fdt_subnode_offset_namelen addr fdt off name) int_range.
Proof. intros Hr. unfold fdt_subnode_offset_namelen. destruct (_ <? 0); [apply ok_ret, probe_int|]. apply subnode_loop_ok; [done|apply fueled_init]. Qed.

Lemma path_loop_ok fuel : forall p o, (length p <= fuel)%nat -> int_range o -> ok (path_loop addr fdt fuel p o) int_range.
Proof.
  induction fuel as [|fuel IH]; intros p o Hl Ho; (destruct p as [|c p]; [by apply ok_ret|]); [cbn in Hl; lia|]. cbn [path_loop].
  destruct (fdt_skip_slashes (c :: p)) as [|x q] eqn:E; [by apply ok_ret|]. pose proof (skip_slashes_head _ _ _ E) as Hx. pose proof (skip_slashes_le (c :: p)) as Hle. rewrite E in Hle.
  cbn [path_elem]. destruct (Z.eqb_spec x ch_slash); [done|]. pose proof (path_elem_le q) as Hq. destruct (path_elem q) as [e rest]. cbn in Hq, Hle, Hl.
  eapply ok_bind; [by apply subnode_offset_ok|]. intros r Hr. destruct (r <? 0); [by apply ok_ret|]. apply IH; [lia|done].
Qed.

Lemma path_abs_ok path : ok (path_offset_abs addr fdt path) int_range.
Proof.
  unfold path_offset_abs. destruct (_ <? 0); [apply ok_ret, probe_int|]. destruct (_ <=? 0); [apply ok_ret; unfold int_range, ERR_BADPATH; lia|].
  apply path_loop_ok; [lia|unfold int_range; lia].
Qed.

Lemma get_alias_ok name : ok (fdt_get_alias_namelen addr fdt name) (fun r => forall p, r = Some p -> exists k, p <= k /\ byte_at fdt k = FOk 0 /\ 0 <= p /\ k <= totalsize).
Proof.
  unfold fdt_get_alias_namelen, fdt_path_getprop_namelen. eapply (ok_bind _ _ (fun r => forall v, r = Some v -> 0 <= v.1 /\ 0 <= v.2 /\ v.1 + v.2 <= totalsize)).
  - eapply ok_bind; [apply path_abs_ok|]. intros o Ho. destruct (o <? 0); [by apply ok_ret|]. eapply ok_bind; [by apply getprop_ok|].
    intros [[p len]|e] H; apply ok_ret; [|done]. intros v [= <-]. exact H.
  - intros [[p len]|] H; [|by apply ok_ret]. specialize (H _ eq_refl). cbn in H. destruct (Z.leb_spec len 0); [by apply ok_ret|].
    destruct (ok_inv _ _ (struct_byte (p + len - 1) ltac:(lia))) as (b & Eb & _). rewrite Eb. cbn [fbind]. destruct (Z.eqb_spec b 0) as [->|]; cbn [negb]; [|by apply ok_ret].
    eapply ok_bind; [apply struct_byte; lia|]. intros f _. apply ok_ret. destruct (_ =? _); [|done]. intros q [= <-]. exists (p + len - 1). split_and!; [lia|done|lia|lia].
Qed.

Lemma path_offset_ok path : ok (fdt_path_offset addr fdt path) int_range.
Proof.
  unfold fdt_path_offset, fdt_path_offset_namelen. destruct (_ <? 0); [apply ok_ret, probe_int|]. destruct path as [|c path]; [apply ok_ret; unfold int_range, ERR_BADPATH; lia|].
  destruct (c =? ch_slash); [apply path_loop_ok; [lia|unfold int_range; lia]|]. pose proof (path_elem_le (c :: path)) as Hl. destruct (path_elem (c :: path)) as [e rest]. cbn [snd] in Hl.
  eapply ok_bind; [apply get_alias_ok|]. intros [p|] Hp; [|apply ok_ret; unfold int_range, ERR_BADPATH; lia]. destruct (Hp p eq_refl) as (k & H1 & H2 & H3 & H4).
  eapply ok_bind; [apply (str_at_ok _ p k); try done; unfold fuel_; lia|]. intros apath _. eapply ok_bind; [apply path_abs_ok|]. intros o Ho. by apply path_loop_ok.
Qed.

(** The depth stays an int. *)
Lemma next_node_depth off d r d' : int_range (default 0 d) -> fdt_next_node fdt off d = FOk (r, d') -> int_range (default 0 d').
Proof.
  intros Hd. unfold fdt_next_node. destruct (if 0 <=? off then _ else _) as [next| |]; cbn [fbind]; [|done|done]. destruct (next <? 0); [by intros [= _ <-]|].
  generalize (fuel_ fdt). intros fuel. revert next d Hd. induction fuel as [|fuel IH]; intros next d Hd; cbn [next_node_loop]; [done|].
  destruct (fdt_next_tag fdt next) as [[tag nx]| |]; cbn [fbind]; [|done|done]. destruct (tag =? FDT_BEGIN_NODE); [intros [= _ <-]; destruct d; [apply i32_range|done]|].
  destruct (tag =? FDT_END_NODE); [destruct d as [d|]|destruct (tag =? FDT_END); [by intros [= _ <-]|by apply IH]]; [|by apply IH].
  destruct (_ <? 0); [intros [= _ <-]; apply i32_range|]. apply IH. apply i32_range.
Qed.

Lemma supernode_loop_ok fuel node sd : forall o d sup, int_range o -> fueled fuel o -> int_range sup -> int_range d ->
  ok (supernode_loop fdt fuel node sd o d sup) (fun r => int_range r.1 /\ int_range (default 0 r.2)).
Proof.
  induction fuel as [|fuel IH]; intros o d sup Ho Hf Hs Hd; [destruct Hf; lia|]. cbn [supernode_loop].
  destruct (Z.ltb_spec o 0) as [Hneg|Hn]; cbn [orb]; [apply ok_ret; cbn; repeat case_match; unfold int_range, ERR_BADOFFSET, ERR_BADSTRUCTURE in *; lia|].
  destruct (_ <? o); [apply ok_ret; cbn; repeat case_match; unfold int_range, ERR_BADOFFSET, ERR_BADSTRUCTURE in *; lia|].
  destruct (o =? node); [apply ok_ret; cbn; repeat case_match; unfold int_range, ERR_NOTFOUND in *; lia|].
  destruct (ok_inv _ _ (next_node_ok o (Some d) Ho)) as ([r d'] & E & Hr). rewrite E. cbn [fbind].
  apply IH; [apply Hr|by apply (fueled_step fuel o)|by destruct (_ =? sd)|by apply (next_node_depth o (Some d) r)].
Qed.

Lemma supernode_ok node sd : ok (fdt_supernode_atdepth_offset addr fdt node sd) (fun r => int_range r.1 /\ int_range (default 0 r.2)).
Proof.
  unfold fdt_supernode_atdepth_offset. destruct (_ <? 0); [apply ok_ret; split; [apply probe_int|unfold int_range; cbn; lia]|]. destruct (_ <? 0); [apply ok_ret; unfold int_range, ERR_NOTFOUND; cbn; lia|].
  apply supernode_loop_ok; [unfold int_range; lia|apply fueled_init|unfold int_range, ERR_INTERNAL; lia|unfold int_range; lia].
Qed.

Lemma parent_offset_ok off : ok (fdt_parent_offset addr fdt off) int_range.
Proof.
  unfold fdt_parent_offset, fdt_node_depth. eapply (ok_bind _ _ int_range).
  { eapply ok_bind; [apply supernode_ok|]. intros [r d] [H1 H2]. apply ok_ret. cbn in *. repeat case_match; try done; unfold int_range, ERR_INTERNAL; lia. }
  intros nd Hnd. destruct (_ <? 0); [by apply ok_ret|]. eapply ok_bind; [apply supernode_ok|]. intros [r d] [H1 _]. by apply ok_ret.
Qed.

Lemma by_prop_value_ok fuel name val : forall o, int_range o -> fueled fuel o -> ok (by_prop_value_loop addr fdt fuel o name val) int_range.
Proof.
  induction fuel as [|fuel IH]; intros o Ho Hf; [destruct Hf; lia|]. cbn [by_prop_value_loop]. destruct (Z.ltb_spec o 0); [by apply ok_ret|].
  eapply ok_bind; [by apply getprop_ok|]. intros v Hv. eapply (ok_bind _ _ (fun _ => True)).
  { destruct v as [[p len]|e]; [|done]. destruct (Z.eqb_spec len (Z.of_nat (length val))); [|done]. eapply ok_bind; [apply memcmp_ok; lia|]. done. }
  intros [] _; [by apply ok_ret|]. eapply ok_bind; [by apply next_node_ok|]. intros [r d'] Hr. apply IH; [apply Hr|by apply (fueled_step fuel o)].
Qed.

Lemma node_by_prop_value_ok off name val : int_range off -> ok (fdt_node_offset_by_prop_value addr fdt off name val) int_range.
Proof.
  intros Hr. unfold fdt_node_offset_by_prop_value. destruct (_ <? 0); [apply ok_ret, probe_int|]. eapply ok_bind; [by apply next_node_ok|]. intros [r d] Hn.
  apply by_prop_value_ok; [apply Hn|apply fueled_init].
Qed.

Lemma stringlist_loop_ok fuel str : forall p l, 0 <= p -> p + l <= totalsize -> l < Z.of_nat fuel -> (0 < fuel)%nat -> safe (stringlist_loop fdt fuel p l str).
Proof.
  induction fuel as [|fuel IH]; intros p l Hp Hl Hf Hpos; [lia|]. cbn [stringlist_loop]. destruct (Z.leb_spec (Z.of_nat (length str)) l); [|done].
  eapply ok_bind; [apply memcmp_ok; [rewrite length_app; cbn; lia|lia|lia]|]. intros c _. destruct (c =? 0); [done|].
  eapply ok_bind; [apply memchr_ok; lia|]. intros [q|] Hq; [|done]. destruct fuel as [|fuel]; [lia|]. apply IH; lia.
Qed.

Lemma check_compatible_ok off str : int_range off -> safe (fdt_node_check_compatible addr fdt off str).
Proof.
  intros Hr. unfold fdt_node_check_compatible. eapply ok_bind; [by apply getprop_ok|]. intros [[p len]|e] H; [|done].
  eapply ok_bind; [apply stringlist_loop_ok; [lia|lia|unfold fuel_; lia|unfold fuel_; lia]|]. done.
Qed.
End Safe.

(** C16. The device-tree reader stays inside the blob and comes back.  For every
    byte string that fdt_check_header accepts, with one byte mapped after it,
    every function the board's start-up calls returns (no access outside the
    blob and that byte, no endless loop, whatever the structure block holds)
    for every int offset, path, property name and string: the offsets are ints
    and the walks go forward, a property is handed out as a pointer and a
    length inside the blob, a name ends inside it, and each reservation that
    fdt_num_mem_rsv counts can be read. *)
Theorem fdt_reader_safe addr fdt off path name str : Forall is_byte fdt -> fdt_check_header addr fdt = 0 -> fdt_totalsize fdt < Z.of_nat (length fdt) -> int_range off ->
  ok (fdt_next_node fdt off None) (fun r => after fdt (off + 1) r.1) /\
  ok (fdt_first_subnode fdt off) (after fdt (off + 1)) /\ ok (fdt_next_subnode fdt off) (after fdt (off + 1)) /\
  ok (fdt_path_offset addr fdt path) int_range /\ ok (fdt_parent_offset addr fdt off) int_range /\
  ok (fdt_node_offset_by_prop_value addr fdt off name str) int_range /\
  ok (fdt_get_name addr fdt off) (fun r => forall p, r.1 = Some p -> 0 <= p /\ 0 <= r.2 /\ p + r.2 <= fdt_totalsize fdt) /\
  ok (fdt_getprop addr fdt off name) (fun r => match r with inl (p, len) => 0 <= p /\ 0 <= len /\ p + len <= fdt_totalsize fdt | inr e => e < 0 end) /\
  ok (fdt_node_check_compatible addr fdt off str) (fun _ => True) /\
  ok (fdt_num_mem_rsv fdt) (fun r => forall n, 0 <= n < r -> ok (fdt_get_mem_rsv addr fdt n) (fun _ => True)).
Proof.
  intros Hb Hh Hl Hr. pose proof (check_header_sane addr fdt Hb Hh) as HS. split_and!.
  - by apply next_node_ok.
  - by apply first_subnode_ok.
  - by apply next_subnode_ok.
  - by apply path_offset_ok.
  - by apply parent_offset_ok.
  - by apply node_by_prop_value_ok.
  - eapply ok_mono; [by apply get_name_ok|]. intros r H p Hp. specialize (H p Hp). lia.
  - by apply getprop_ok.
  - by apply check_compatible_ok.
  - eapply ok_mono; [by apply num_mem_rsv_ok|]. cbv beta. intros r H n Hn. eapply ok_mono; [apply get_mem_rsv_ok; [done|done|done|lia]|done].
Qed.

(** The smallest blob, a root with a property whose value has no end. *)
Definition be32b (v : Z) : list Z := [v / 2 ^ 24 mod 256; v / 2 ^ 16 mod 256; v / 2 ^ 8 mod 256; v mod 256].

Definition tiny_blob : list Z :=
  concat (map be32b [FDT_MAGIC; 100; 56; 88; 40; 17; 16; 0; 12; 32; 0; 0; 0; 0; FDT_BEGIN_NODE; 0; FDT_PROP; 4; 0; 1633837924; FDT_END_NODE; FDT_END]) ++ str_compatible ++ [0; 0; 0].
Lemma fdt_reader_safe_witness : fdt_check_header 0 tiny_blob = 0 /\ ok (fdt_getprop 0 tiny_blob 0 str_compatible) (fun r => match r with inl (p, len) => 0 <= p /\ 0 <= len /\ p + len <= 100 | inr e => e < 0 end).
Proof.
  split; [done|]. refine (proj1 (proj2 (proj2 (proj2 (proj2 (proj2 (proj2 (proj2 (fdt_reader_safe 0 tiny_blob 0 [] str_compatible [] _ _ _ _))))))))); [|done|done|unfold int_range; lia].
  apply (bool_decide_unpack _). by vm_compute.
Defined.

(** The byte after the blob is needed: fdt_stringlist_contains compares the
    terminator of the string it looks for too, also when the property ends
    before it, and the property can be the last thing of the blob. *)
Definition tight_blob : list Z :=
  concat (map be32b [FDT_MAGIC; 92; 68; 56; 40; 17; 16; 0; 12; 24; 0; 0; 0; 0]) ++ str_compatible ++ [0; 0] ++ concat (map be32b [FDT_BEGIN_NODE; 0; FDT_PROP; 4; 0; 1633837924]).
Example check_compatible_overread : fdt_check_header 0 tight_blob = 0 /\ fdt_totalsize tight_blob = Z.of_nat (length tight_blob) /\
  fdt_node_check_compatible 0 tight_blob 0 [97; 98; 99; 100] = FFault.
Proof. by vm_compute. Qed.
