(* ===== verification/FdtTree.v ===== *)
(** * The device tree reader against the tree

    A flattened tree as the device tree specification lays it out: the tokens of the
    structure block in preorder.  On a blob that holds a tree, the offsets the functions
    of libfdt hand out are positions in that list of tokens, and looking up a path or a
    property is looking it up in the tree. *)

From stdpp Require Import base list numbers.
From S2P Require Import Prelude Params Fdt FdtSafe.

(** ** Trees and their tokens *)
Record dprop : Type := mkDprop { dp_off : Z; dp_name : list Z; dp_val : list Z }.
#[warnings="-register-all"] Inductive dtree : Type := DNode (nm : list Z) (ps : list dprop) (cs : list dtree).
Definition dname (t : dtree) : list Z := let 'DNode nm _ _ := t in nm.
Definition dprops (t : dtree) : list dprop := let 'DNode _ ps _ := t in ps.
Definition dsubs (t : dtree) : list dtree := let 'DNode _ _ cs := t in cs.

Section DtreeInd.
Context (P : dtree -> Prop) (HP : forall nm ps cs, Forall P cs -> P (DNode nm ps cs)).
Fixpoint dtree_nested_ind (t : dtree) : P t :=
  match t with
  | DNode nm ps cs => HP nm ps cs ((fix go (l : list dtree) : Forall P l :=
      match l with [] => Forall_nil_2 P | c :: l' => Forall_cons_2 P c l' (dtree_nested_ind c) (go l') end) cs)
  end.
End DtreeInd.

Inductive tok : Type := TBegin (nm : list Z) | TProp (p : dprop) | TEnd | TFin.
Fixpoint toks (t : dtree) : list tok :=
  let 'DNode nm ps cs := t in TBegin nm :: map TProp ps ++ concat (map toks cs) ++ [TEnd].

(** Padded to a multiple of four. *)
Definition pad4 (l : list Z) : list Z := l ++ replicate (Z.to_nat (- Z.of_nat (length l) mod 4)) 0.

Definition tag_of (t : tok) : Z :=
  match t with TBegin _ => FDT_BEGIN_NODE | TProp _ => FDT_PROP | TEnd => FDT_END_NODE | TFin => FDT_END end.
Definition enc_tok (t : tok) : list Z :=
  be32b (tag_of t) ++
  match t with
  | TBegin nm => pad4 (nm ++ [0])
  | TProp p => be32b (Z.of_nat (length (dp_val p))) ++ be32b (dp_off p) ++ pad4 (dp_val p)
  | TEnd | TFin => []
  end.
Definition enc (l : list tok) : list Z := concat (map enc_tok l).
Definition size (l : list tok) : Z := Z.of_nat (length (enc l)).

Lemma length_pad4 l : Z.of_nat (length (pad4 l)) = FDT_TAGALIGN (Z.of_nat (length l)).
Proof.
  unfold pad4. rewrite length_app, length_replicate. pose proof (Z.mod_pos_bound (- Z.of_nat (length l)) 4 ltac:(lia)).
  destruct (tagalign_spec (Z.of_nat (length l))) as [H1 H2]. pose proof (Z.div_mod (- Z.of_nat (length l)) 4 ltac:(lia)).
  pose proof (Z.div_mod (FDT_TAGALIGN (Z.of_nat (length l))) 4 ltac:(lia)). lia.
Qed.

Lemma size_cons t l : size (t :: l) = Z.of_nat (length (enc_tok t)) + size l.
Proof. unfold size, enc. cbn [map concat]. rewrite length_app. lia. Qed.
Lemma size_app l1 l2 : size (l1 ++ l2) = size l1 + size l2.
Proof. induction l1 as [|t l1 IH]; cbn [app]; [done|]. rewrite !size_cons, IH. lia. Qed.
Lemma size_pos l : 0 <= size l.
Proof. unfold size. lia. Qed.

Lemma length_enc_tok t : Z.of_nat (length (enc_tok t)) =
  4 + match t with TBegin nm => FDT_TAGALIGN (Z.of_nat (length nm) + 1) | TProp p => 8 + FDT_TAGALIGN (Z.of_nat (length (dp_val p))) | _ => 0 end.
Proof.
  unfold enc_tok. rewrite length_app, Nat2Z.inj_add. change (Z.of_nat (length (be32b (tag_of t)))) with 4. f_equal. destruct t; [| |done|done].
  - rewrite length_pad4, length_app. cbn [length]. f_equal. lia.
  - rewrite !length_app, !Nat2Z.inj_add, length_pad4. cbn [length be32b]. lia.
Qed.
Lemma tagalign_0 : FDT_TAGALIGN 0 = 0.
Proof. done. Qed.
Lemma enc_tok_mod4 t : Z.of_nat (length (enc_tok t)) mod 4 = 0.
Proof.
  rewrite length_enc_tok. destruct t as [nm|p| |]; [| |done|done].
  - destruct (tagalign_spec (Z.of_nat (length nm) + 1)) as [_ H]. rewrite Zplus_mod, H. done.
  - destruct (tagalign_spec (Z.of_nat (length (dp_val p)))) as [_ H]. rewrite Z.add_assoc, Zplus_mod, H. done.
Qed.
Lemma size_mod4 l : size l mod 4 = 0.
Proof. induction l as [|t l IH]; [done|]. by rewrite size_cons, Zplus_mod, enc_tok_mod4, IH. Qed.
Lemma tagalign_add a x : a mod 4 = 0 -> FDT_TAGALIGN (a + x) = a + FDT_TAGALIGN x.
Proof.
  intros Ha. destruct (tagalign_spec (a + x)) as [H1 H2], (tagalign_spec x) as [H3 H4].
  pose proof (Z.div_mod a 4 ltac:(lia)). pose proof (Z.div_mod (FDT_TAGALIGN (a + x)) 4 ltac:(lia)). pose proof (Z.div_mod (FDT_TAGALIGN x) 4 ltac:(lia)). lia.
Qed.

(** ** Bytes at a position of the blob *)
Definition blob_at (fdt : list Z) (pos : Z) (bs : list Z) : Prop := 0 <= pos /\ forall i b, bs !! i = Some b -> fdt !! (Z.to_nat pos + i)%nat = Some b.

Lemma blob_at_app fdt pos l1 l2 : blob_at fdt pos (l1 ++ l2) -> blob_at fdt pos l1 /\ blob_at fdt (pos + Z.of_nat (length l1)) l2.
Proof.
  intros [H0 H]. split; (split; [lia|]); intros i b Hi.
  - apply H. by apply lookup_app_l_Some.
  - replace (Z.to_nat (pos + Z.of_nat (length l1)) + i)%nat with (Z.to_nat pos + (length l1 + i))%nat by lia. apply H.
    rewrite lookup_app_r by lia. by replace (length l1 + i - length l1)%nat with i by lia.
Qed.
Lemma blob_at_byte fdt pos b l : blob_at fdt pos (b :: l) -> byte_at fdt pos = FOk b /\ blob_at fdt (pos + 1) l.
Proof.
  intros H. split; [|apply (blob_at_app _ _ [b] l H)]. destruct H as [H0 H]. unfold byte_at. destruct (Z.ltb_spec pos 0); [lia|].
  specialize (H 0%nat b eq_refl). rewrite Nat.add_0_r in H. by rewrite H.
Qed.
Lemma blob_at_be32 fdt pos v l : 0 <= v < 2 ^ 32 -> blob_at fdt pos (be32b v ++ l) -> fdt32_ld_ fdt pos = FOk v /\ blob_at fdt (pos + 4) l.
Proof.
  intros Hv H. split; [|apply (blob_at_app _ _ (be32b v) l H)]. cbn [be32b app] in H.
  apply blob_at_byte in H as [E0 H]. apply blob_at_byte in H as [E1 H]. apply blob_at_byte in H as [E2 H]. apply blob_at_byte in H as [E3 _].
  unfold fdt32_ld_. cbn [be_at]. rewrite E0. cbn [fbind]. rewrite E1. cbn [fbind]. rewrite E2. cbn [fbind]. rewrite E3. cbn [fbind]. f_equal.
  pose proof (Z.div_mod v (2 ^ 24) ltac:(lia)). pose proof (Z.div_mod v (2 ^ 16) ltac:(lia)). pose proof (Z.div_mod v (2 ^ 8) ltac:(lia)).
  rewrite (Z.mod_small (v / 2 ^ 24)) by (split; [apply Z.div_pos; lia|apply Z.div_lt_upper_bound; lia]).
  assert (Hs : forall a b, 0 <= a -> v / 2 ^ (a + b) = v / 2 ^ a / 2 ^ b \/ b < 0) by (intros a b Ha; destruct (Z.ltb_spec b 0); [by right|left; rewrite Z.pow_add_r, Z.div_div by lia; done]).
  pose proof (Z.div_mod (v / 2 ^ 16) 256 ltac:(lia)). pose proof (Z.div_mod (v / 2 ^ 8) 256 ltac:(lia)). change 256 with (2 ^ 8) in *.
  destruct (Hs 16 8 ltac:(lia)) as [E24|]; [|lia]. destruct (Hs 8 8 ltac:(lia)) as [E16|]; [|lia]. change (16 + 8) with 24 in E24. change (8 + 8) with 16 in E16. lia.
Qed.

Lemma memcmp_blob fdt s : forall p l, blob_at fdt p l -> (length s <= length l)%nat ->
  exists c, memcmp_ fdt (length s) p s = FOk c /\ (c = 0 <-> take (length s) l = s).
Proof.
  induction s as [|x s IH]; intros p l H Hl; [by exists 0|]. destruct l as [|b l]; [cbn in Hl; lia|]. apply blob_at_byte in H as [E H]. cbn [memcmp_ length take]. rewrite E. cbn [fbind].
  destruct (Z.eqb_spec b x) as [->|Hne]; cbn [negb].
  - destruct (IH (p + 1) l H ltac:(cbn in Hl; lia)) as (c & Ec & Hc). exists c. split; [done|]. rewrite Hc. split; [by intros ->|by intros [= ?]].
  - exists (b - x). split; [done|]. split; [lia|]. by intros [= ?].
Qed.

(** ** Loops and their fuel *)
Definition monotone {A} (f : nat -> fres A) : Prop := forall n r, f n = FOk r -> f (S n) = FOk r.
Lemma monotone_le {A} (f : nat -> fres A) n m r : monotone f -> f n = FOk r -> (n <= m)%nat -> f m = FOk r.
Proof. intros Hm Hn Hle. induction Hle; [done|]. by apply Hm. Qed.
(** With any fuel that is enough the result is the same. *)
Lemma fuel_agree {A} (f : nat -> fres A) n m r (Q : A -> Prop) : monotone f -> f n = FOk r -> ok (f m) Q -> f m = FOk r.
Proof.
  intros Hm Hn [a [Ea _]]%ok_inv. pose proof (monotone_le f n (n + m) r Hm Hn ltac:(lia)). pose proof (monotone_le f m (n + m) a Hm Ea ltac:(lia)). congruence.
Qed.

Lemma mono_bind {A B} (m m' : fres A) (k k' : A -> fres B) r : (forall a, m = FOk a -> m' = FOk a) -> (forall a, k a = FOk r -> k' a = FOk r) ->
  fbind m k = FOk r -> fbind m' k' = FOk r.
Proof. intros H1 H2 H. destruct m as [a| |] eqn:E; [|done|done]. rewrite (H1 a eq_refl). by apply H2. Qed.

Lemma next_node_mono fdt o d : monotone (fun n => next_node_loop fdt n o d).
Proof.
  intros n r. cut (forall m, (n <= m)%nat -> next_node_loop fdt n o d = FOk r -> next_node_loop fdt m o d = FOk r); [intros H; apply H; lia|].
  revert o d. induction n as [|n IH]; intros o d [|m] Hm H; [done|done|lia|]. cbn [next_node_loop] in H |- *.
  destruct (fdt_next_tag fdt o) as [[tag next]| |]; cbn [fbind] in *; [|done|done]. repeat case_match; try done; (apply IH; [lia|done]).
Qed.
Lemma nextprop_mono fdt o : monotone (fun n => nextprop_ fdt n o).
Proof.
  intros n r. cut (forall m, (n <= m)%nat -> nextprop_ fdt n o = FOk r -> nextprop_ fdt m o = FOk r); [intros H; apply H; lia|].
  revert o. induction n as [|n IH]; intros o [|m] Hm H; [done|done|lia|]. cbn [nextprop_] in H |- *.
  destruct (fdt_next_tag fdt o) as [[tag next]| |]; cbn [fbind] in *; [|done|done]. repeat case_match; try done. apply IH; [lia|done].
Qed.
Lemma get_property_mono addr fdt o name : monotone (fun n => get_property_loop addr fdt n o name).
Proof.
  intros n r. cut (forall m, (n <= m)%nat -> get_property_loop addr fdt n o name = FOk r -> get_property_loop addr fdt m o name = FOk r); [intros H; apply H; lia|].
  revert o. induction n as [|n IH]; intros o [|m] Hm H; [done|done|lia|]. cbn [get_property_loop] in H |- *. destruct (o <? 0); [done|].
  destruct (fdt_get_property_by_offset_ fdt o) as [[[p|] len]| |]; cbn [fbind] in *; try done. destruct (fdt32_ld_ fdt (p + 8)) as [no| |]; cbn [fbind] in *; try done.
  destruct (fdt_string_eq_ addr fdt (i32 no) name) as [[]| |]; cbn [fbind] in *; try done. destruct (fdt_next_property_offset fdt o) as [nx| |]; cbn [fbind] in *; try done. apply IH; [lia|done].
Qed.
Lemma subnode_mono addr fdt o d name : monotone (fun n => subnode_loop addr fdt n o d name).
Proof.
  intros n r. cut (forall m, (n <= m)%nat -> subnode_loop addr fdt n o d name = FOk r -> subnode_loop addr fdt m o d name = FOk r); [intros H; apply H; lia|].
  revert o d. induction n as [|n IH]; intros o d [|m] Hm H; [done|done|lia|]. cbn [subnode_loop] in H |- *. destruct (_ || _); [done|].
  destruct (if d =? 1 then _ else _) as [[]| |]; cbn [fbind] in *; try done. destruct (fdt_next_node fdt o (Some d)) as [[o' d']| |]; cbn [fbind] in *; try done. apply IH; [lia|done].
Qed.

Fixpoint all_props (t : dtree) : list dprop := let 'DNode _ ps cs := t in ps ++ concat (map all_props cs).
Fixpoint all_names (t : dtree) : list (list Z) := let 'DNode nm _ cs := t in nm :: concat (map all_names cs).

Lemma toks_names nm t : TBegin nm ∈ toks t -> nm ∈ all_names t.
Proof.
  induction t as [nm' ps cs IH] using dtree_nested_ind. cbn [toks all_names]. intros [E|H]%elem_of_cons; [injection E as ->; left|right].
  apply elem_of_app in H as [(p & E & _)%list_elem_of_fmap|H]; [done|]. apply elem_of_app in H as [H|H%list_elem_of_singleton]; [|done].
  apply list_elem_of_In, in_concat in H as (l & (c & <- & Hc)%in_map_iff & H). apply list_elem_of_In in H, Hc. rewrite Forall_forall in IH.
  apply list_elem_of_In, in_concat. exists (all_names c). split; [apply in_map; by apply list_elem_of_In|]. apply list_elem_of_In. by apply IH.
Qed.
Lemma toks_props p t : TProp p ∈ toks t -> p ∈ all_props t.
Proof.
  induction t as [nm' ps cs IH] using dtree_nested_ind. cbn [toks all_props]. intros [E|H]%elem_of_cons; [done|]. apply elem_of_app.
  apply elem_of_app in H as [(p' & E & Hp)%list_elem_of_fmap|H]; [left; by injection E as ->|right]. apply elem_of_app in H as [H|H%list_elem_of_singleton]; [|done].
  apply list_elem_of_In, in_concat in H as (l & (c & <- & Hc)%in_map_iff & H). apply list_elem_of_In in H, Hc. rewrite Forall_forall in IH.
  apply list_elem_of_In, in_concat. exists (all_props c). split; [apply in_map; by apply list_elem_of_In|]. apply list_elem_of_In. by apply IH.
Qed.

Definition str_ok (s : list Z) : Prop := Forall (fun c => 0 < c < 256) s.

(** ** Looking up in the tree *)
Fixpoint find_prop (name : list Z) (ps : list dprop) : option dprop :=
  match ps with [] => None | p :: ps' => if decide (dp_name p = name) then Some p else find_prop name ps' end.

(** A node name matches an element of a path: equal, or up to a unit address the element leaves out. *)
Definition name_matches (e nm : list Z) : bool :=
  bool_decide (take (length e) nm = e) &&
  match drop (length e) nm with
  | [] => true
  | c :: _ => (c =? ch_at) && negb (bool_decide (ch_at ∈ e))
  end.
Fixpoint find_sub (e : list Z) (cs : list dtree) : option dtree :=
  match cs with [] => None | c :: cs' => if name_matches e (dname c) then Some c else find_sub e cs' end.
Fixpoint find_path (es : list (list Z)) (t : dtree) : option dtree :=
  match es with
  | [] => Some t
  | e :: es' => match find_sub e (dsubs t) with None => None | Some c => find_path es' c end
  end.

Lemma memchr_blob fdt s n : forall p l, str_ok s -> blob_at fdt p (s ++ 0 :: l) -> (length s < n)%nat -> memchr_ fdt n p 0 = FOk (Some (p + Z.of_nat (length s))).
Proof.
  revert n. induction s as [|c s IH]; intros n p l Hs Hb Hn; (destruct n as [|n]; [cbn in Hn; lia|]); cbn [memchr_ app length] in *; apply blob_at_byte in Hb as [E Hb]; rewrite E; cbn [fbind].
  - cbn. do 2 f_equal. lia.
  - apply Forall_cons in Hs as [Hc Hs]. destruct (Z.eqb_spec c 0); [lia|]. rewrite (IH n (p + 1) l); [do 2 f_equal; lia|done|done|lia].
Qed.
Lemma strlen_blob fdt s fuel : forall p k l, str_ok s -> blob_at fdt (p + k) (s ++ 0 :: l) -> (length s < fuel)%nat -> strlen_ fdt fuel p k = FOk (k + Z.of_nat (length s)).
Proof.
  revert fuel. induction s as [|c s IH]; intros n p k l Hs Hb Hn; (destruct n as [|n]; [cbn in Hn; lia|]); cbn [strlen_ app length] in *; apply blob_at_byte in Hb as [E Hb]; rewrite E; cbn [fbind].
  - cbn. f_equal. lia.
  - apply Forall_cons in Hs as [Hc Hs]. destruct (Z.eqb_spec c 0); [lia|]. rewrite (IH n p (k + 1) l); [f_equal; lia|done|by rewrite Z.add_assoc|lia].
Qed.

(** ** A blob that holds the tree [root] *)
Record encodes (addr : Z) (fdt : list Z) (root : dtree) : Prop := {
  en_bytes : Forall is_byte fdt;
  en_header : fdt_check_header addr fdt = 0;
  en_small : fdt_totalsize fdt < INT_MAX;
  en_len : fdt_totalsize fdt < Z.of_nat (length fdt);
  en_version : fdt_version fdt = 17;
  en_struct : blob_at fdt (fdt_off_dt_struct fdt) (enc (toks root ++ [TFin]));
  en_size : fdt_size_dt_struct fdt = size (toks root ++ [TFin]);
  en_names : Forall str_ok (all_names root);
  en_props : Forall (fun p => str_ok (dp_name p) /\ 0 <= dp_off p /\
     dp_off p + Z.of_nat (length (dp_name p)) < fdt_size_dt_strings fdt /\ blob_at fdt (fdt_off_dt_strings fdt + dp_off p) (dp_name p ++ [0])) (all_props root);
}.

Section Tree.
Context (addr : Z) (fdt : list Z) (root : dtree) (HE : encodes addr fdt root).
Abbreviation ostruct := (fdt_off_dt_struct fdt).
Let T : list tok := toks root ++ [TFin].

Lemma en_sane : sane fdt.
Proof. apply (check_header_sane addr fdt); apply HE. Qed.
Lemma en_probe : 0 <= fdt_ro_probe_ addr fdt.
Proof.
  pose proof (en_header _ _ _ HE) as H. pose proof (en_small _ _ _ HE). pose proof (sn_total _ en_sane). unfold fdt_check_header in H. unfold fdt_ro_probe_.
  destruct (negb (Z.land addr 7 =? 0)); [done|]. destruct (fdt_magic fdt =? FDT_MAGIC); cbn [negb] in H; [|done]. destruct (_ <? FDT_FIRST_SUPPORTED_VERSION); cbn [orb] in H; [done|].
  destruct (FDT_LAST_SUPPORTED_VERSION <? _); [done|]. destruct (Z.ltb_spec (fdt_totalsize fdt) INT_MAX); lia.
Qed.

(** The position of a suffix of the tokens. *)
Definition pos (l : list tok) : Z := size T - size l.
Definition sfx (l : list tok) : Prop := exists pre, T = pre ++ l.

Lemma sfx_tail t l : sfx (t :: l) -> sfx l.
Proof. intros [pre E]. exists (pre ++ [t]). by rewrite <- app_assoc. Qed.
Lemma sfx_app l1 l2 : sfx (l1 ++ l2) -> sfx l2.
Proof. intros [pre E]. exists (pre ++ l1). by rewrite <- app_assoc. Qed.
Lemma pos_cons t l : pos (t :: l) + Z.of_nat (length (enc_tok t)) = pos l.
Proof. unfold pos. rewrite size_cons. lia. Qed.
Lemma pos_range l : sfx l -> 0 <= pos l /\ pos l + size l = fdt_size_dt_struct fdt.
Proof. intros [pre E]. unfold pos. rewrite (en_size _ _ _ HE). fold T. rewrite E, size_app. pose proof (size_pos pre). lia. Qed.
Lemma pos_mod4 l : pos l mod 4 = 0.
Proof. unfold pos. by rewrite Zminus_mod, !size_mod4. Qed.

Lemma enc_app l1 l2 : enc (l1 ++ l2) = enc l1 ++ enc l2.
Proof. unfold enc. by rewrite map_app, concat_app. Qed.
Lemma sfx_bytes l : sfx l -> blob_at fdt (ostruct + pos l) (enc l).
Proof.
  intros [pre E]. pose proof (en_struct _ _ _ HE) as H. fold T in H. rewrite E, enc_app in H. apply blob_at_app in H as [_ H].
  unfold pos. rewrite E, size_app. replace (ostruct + (size pre + size l - size l)) with (ostruct + Z.of_nat (length (enc pre))) by (unfold size; lia). done.
Qed.
Lemma tok_bytes t l : sfx (t :: l) -> blob_at fdt (ostruct + pos (t :: l)) (enc_tok t).
Proof. intros H. apply sfx_bytes in H. unfold enc in H. cbn [map concat] in H. by apply blob_at_app in H as [H _]. Qed.

Lemma offset_ptr_in o len : 0 <= o -> 0 <= len -> o + len <= fdt_size_dt_struct fdt -> fdt_offset_ptr fdt o len = Some (ostruct + o).
Proof.
  intros Ho Hl Hb. pose proof (sn_total _ en_sane). pose proof (sn_struct _ en_sane). pose proof (sn_block _ en_sane) as Hblk. rewrite (en_version _ _ _ HE) in Hblk. specialize (Hblk ltac:(lia)). unfold INT_MAX in *.
  unfold fdt_offset_ptr. rewrite (en_version _ _ _ HE). rewrite (u32_small o), (u32_small (o + ostruct)), (u32_small (o + ostruct + len)), (u32_small (o + len)) by lia.
  destruct (Z.ltb_spec o 0); [lia|]. destruct (Z.ltb_spec (o + ostruct) o); [lia|]. destruct (Z.ltb_spec (o + ostruct + len) (o + ostruct)); [lia|].
  destruct (Z.ltb_spec (fdt_totalsize fdt) (o + ostruct + len)); [lia|]. destruct (Z.ltb_spec (o + len) o); [lia|]. destruct (Z.ltb_spec (fdt_size_dt_struct fdt) (o + len)); [lia|]. done.
Qed.

Lemma struct_small : 0 <= fdt_size_dt_struct fdt /\ 28 <= ostruct /\ ostruct + fdt_size_dt_struct fdt <= fdt_totalsize fdt < 2147483647.
Proof.
  pose proof (sn_total _ en_sane). pose proof (sn_struct _ en_sane). pose proof (sn_block _ en_sane) as Hblk. rewrite (en_version _ _ _ HE) in Hblk. specialize (Hblk ltac:(lia)).
  pose proof (en_small _ _ _ HE). unfold INT_MAX in *. rewrite (en_size _ _ _ HE) in *. pose proof (size_pos (toks root ++ [TFin])). lia.
Qed.

Lemma skip_name_tok nm fuel : forall o, str_ok nm -> blob_at fdt (ostruct + o) (nm ++ [0]) -> 0 <= o -> o + Z.of_nat (length nm) + 1 <= fdt_size_dt_struct fdt ->
  (length nm < fuel)%nat -> skip_name fdt fuel o = FOk (Some (o + Z.of_nat (length nm) + 1)).
Proof.
  revert fuel. induction nm as [|c nm IH]; intros fuel o Hs Hb Ho Hl Hf; (destruct fuel as [|fuel]; [cbn in Hf; lia|]); cbn [skip_name length] in *; pose proof struct_small;
    rewrite offset_ptr_in by lia; cbn [app] in Hb; apply blob_at_byte in Hb as [E Hb]; rewrite E; cbn [fbind]; rewrite i32_small by lia.
  - cbn. do 2 f_equal. lia.
  - apply Forall_cons in Hs as [Hc Hs]. destruct (Z.eqb_spec c 0); [lia|]. rewrite (IH fuel (o + 1)); [do 2 f_equal; lia|done|by rewrite Z.add_assoc|lia|lia|lia].
Qed.

Definition tok_ok (t : tok) : Prop := match t with TBegin nm => str_ok nm | TProp p => 0 <= dp_off p < 2 ^ 32 | _ => True end.
Lemma T_ok t : t ∈ T -> tok_ok t.
Proof.
  unfold T. intros [H|H%list_elem_of_singleton]%elem_of_app; [|by subst]. destruct t as [nm|p| |]; [| |done|done].
  - apply toks_names in H. exact (proj1 (Forall_forall _ _) (en_names _ _ _ HE) nm H).
  - apply toks_props in H. destruct (proj1 (Forall_forall _ _) (en_props _ _ _ HE) p H) as (_ & H1 & H2 & _). cbn. pose proof (header_range fdt (en_bytes _ _ _ HE) 8). unfold fdt_size_dt_strings in H2. lia.
Qed.
Lemma sfx_ok t l : sfx (t :: l) -> tok_ok t.
Proof. intros [pre E]. apply T_ok. rewrite E. apply elem_of_app. right. left. Qed.

Lemma finish_tok t l o : sfx (t :: l) -> pos (t :: l) + 4 <= o -> FDT_TAGALIGN o = pos l ->
  match fdt_offset_ptr fdt (pos (t :: l)) (u32 (o - pos (t :: l))) with None => FOk (FDT_END, ERR_BADSTRUCTURE) | Some _ => FOk (tag_of t, i32 (FDT_TAGALIGN o)) end = FOk (tag_of t, pos l).
Proof.
  intros Hs Ho Ha. pose proof (pos_range _ Hs). pose proof (pos_range _ (sfx_tail _ _ Hs)). pose proof struct_small. destruct (tagalign_spec o) as [Hb _]. pose proof (size_pos l).
  rewrite u32_small by lia. rewrite offset_ptr_in by lia. rewrite Ha, i32_small by lia. done.
Qed.

Lemma next_tag_tok t l : sfx (t :: l) -> fdt_next_tag fdt (pos (t :: l)) = FOk (tag_of t, pos l).
Proof.
  intros Hs. pose proof (tok_bytes _ _ Hs) as Hb. pose proof (pos_range _ Hs) as [Hp0 Hp1]. pose proof (pos_range _ (sfx_tail _ _ Hs)) as [Hq0 Hq1]. pose proof (sfx_ok _ _ Hs) as Hok.
  pose proof (pos_cons t l) as Hnext. pose proof (length_enc_tok t) as Hlen. pose proof struct_small as (S1 & S2 & S3). pose proof (size_pos l) as Hsl. pose proof (pos_mod4 (t :: l)) as Hm.
  assert (H4 : 4 <= Z.of_nat (length (enc_tok t))) by (unfold enc_tok; rewrite length_app; cbn [length be32b]; lia).
  assert (Htag : 0 <= tag_of t < 2 ^ 32) by (by destruct t). unfold enc_tok in Hb. apply blob_at_be32 in Hb as [Et Hb]; [|done].
  unfold fdt_next_tag, FDT_TAGSIZE. rewrite offset_ptr_in by lia. rewrite Et. cbn [fbind]. rewrite i32_small by lia. cbv zeta. destruct t as [nm|p| |]; cbn [tag_of] in *.
  - change (FDT_BEGIN_NODE =? FDT_BEGIN_NODE) with true. cbn iota. unfold pad4 in Hb. apply blob_at_app in Hb as [Hb _]. destruct (tagalign_spec (Z.of_nat (length nm) + 1)) as [Ha _].
    rewrite (skip_name_tok nm); [|done|by rewrite Z.add_assoc|lia|lia|pose proof (en_len _ _ _ HE); unfold fuel_; lia]. cbn [fbind].
    apply (finish_tok (TBegin nm) l); [done|lia|]. rewrite <- Hnext, Hlen. rewrite <- !Z.add_assoc, tagalign_add, (tagalign_add 4) by done. done.
  - change (FDT_PROP =? FDT_BEGIN_NODE) with false. change (FDT_PROP =? FDT_PROP) with true. cbn iota. destruct (tagalign_spec (Z.of_nat (length (dp_val p)))) as [Ha _].
    rewrite offset_ptr_in by lia. apply blob_at_be32 in Hb as [El Hb]; [|lia]. replace (ostruct + (pos (TProp p :: l) + 4)) with (ostruct + pos (TProp p :: l) + 4) by lia. rewrite El. cbn [fbind].
    rewrite !u32_small by lia. unfold INT_MAX. destruct (Z.leb_spec 2147483647 (Z.of_nat (length (dp_val p)) + (pos (TProp p :: l) + 4))); [lia|].
    destruct (Z.ltb_spec (Z.of_nat (length (dp_val p)) + (pos (TProp p :: l) + 4)) (pos (TProp p :: l) + 4)); [lia|]. cbn [orb]. rewrite (en_version _ _ _ HE). cbn [Z.ltb Z.compare Pos.compare Pos.compare_cont andb].
    unfold PROP_SIZE. rewrite i32_small by lia. apply (finish_tok (TProp p) l); [done|lia|]. rewrite <- Hnext, Hlen.
    replace (pos (TProp p :: l) + 4 + (12 - 4) + Z.of_nat (length (dp_val p))) with (pos (TProp p :: l) + 12 + Z.of_nat (length (dp_val p))) by lia.
    rewrite tagalign_add by (rewrite Zplus_mod, Hm; done). lia.
  - change (FDT_END_NODE =? FDT_BEGIN_NODE) with false. change (FDT_END_NODE =? FDT_PROP) with false. cbn [Z.eqb Pos.eqb orb]. cbn. apply (finish_tok TEnd l); [done|lia|]. rewrite <- Hnext, Hlen. cbn. rewrite <- (Z.add_0_r (4 + 0)), tagalign_add; [done|done].
  - cbn. apply (finish_tok TFin l); [done|lia|]. rewrite <- Hnext, Hlen. rewrite tagalign_add; [done|done].
Qed.

Lemma pos_nonneg l : sfx l -> 0 <= pos l.
Proof. intros H. by destruct (pos_range l H). Qed.
Lemma check_node_tok nm l : sfx (TBegin nm :: l) -> fdt_check_node_offset_ fdt (pos (TBegin nm :: l)) = FOk (pos l).
Proof.
  intros Hs. unfold fdt_check_node_offset_, FDT_TAGSIZE. rewrite pos_mod4. destruct (Z.ltb_spec (pos (TBegin nm :: l)) 0); [pose proof (pos_nonneg _ Hs); lia|].
  cbn [Z.eqb negb orb]. by rewrite (next_tag_tok _ _ Hs).
Qed.
Lemma check_prop_tok p l : sfx (TProp p :: l) -> fdt_check_prop_offset_ fdt (pos (TProp p :: l)) = FOk (pos l).
Proof.
  intros Hs. unfold fdt_check_prop_offset_, FDT_TAGSIZE. rewrite pos_mod4. destruct (Z.ltb_spec (pos (TProp p :: l)) 0); [pose proof (pos_nonneg _ Hs); lia|].
  cbn [Z.eqb negb orb]. by rewrite (next_tag_tok _ _ Hs).
Qed.

(** ** Properties of a node *)
Definition no_prop (l : list tok) : Prop := match l with TBegin _ :: _ | TEnd :: _ => True | _ => False end.
(** Where nextprop_ arrives. *)
Definition first_prop (ps : list dprop) (l : list tok) : Z := match ps with [] => ERR_NOTFOUND | _ => pos (map TProp ps ++ l) end.
Lemma nextprop_tok ps l : sfx (map TProp ps ++ l) -> no_prop l -> nextprop_ fdt (fuel_ fdt) (pos (map TProp ps ++ l)) = FOk (first_prop ps l).
Proof.
  intros Hs Hl. unfold fuel_. cbn [nextprop_]. destruct ps as [|p ps]; cbn [map app first_prop] in *.
  - destruct l as [|[nm|p| |] l]; try done; by rewrite (next_tag_tok _ _ Hs).
  - by rewrite (next_tag_tok _ _ Hs).
Qed.

Lemma prop_string p l : sfx (TProp p :: l) ->
  fdt_get_string addr fdt (dp_off p) = FOk (Some (fdt_off_dt_strings fdt + dp_off p), Z.of_nat (length (dp_name p))) /\ blob_at fdt (fdt_off_dt_strings fdt + dp_off p) (dp_name p ++ [0]) /\ i32 (dp_off p) = dp_off p.
Proof.
  intros [pre E]. assert (Hin : TProp p ∈ T) by (rewrite E; apply elem_of_app; right; left). unfold T in Hin. apply elem_of_app in Hin as [Hin|Hin%list_elem_of_singleton]; [|done].
  apply toks_props in Hin. destruct (proj1 (Forall_forall _ _) (en_props _ _ _ HE) p Hin) as (Hs & H0 & H1 & Hb).
  pose proof (sn_strings _ en_sane) as [Ho1 Ho2]. pose proof (sn_total _ en_sane). pose proof (en_small _ _ _ HE). unfold INT_MAX in *.
  split_and!; [|done|apply i32_small; lia]. unfold fdt_get_string. rewrite (probe_total addr fdt en_probe), (sn_magic _ en_sane), (en_version _ _ _ HE).
  rewrite (u32_small (dp_off p + _)), (u32_small (fdt_size_dt_strings fdt - _)) by lia. destruct (Z.ltb_spec (fdt_totalsize fdt) 0); [lia|].
  destruct (Z.leb_spec (fdt_totalsize fdt) (dp_off p + fdt_off_dt_strings fdt)); [lia|]. change (FDT_MAGIC =? FDT_MAGIC) with true. cbn iota.
  destruct (Z.ltb_spec (dp_off p) 0); [lia|]. change (17 <=? 17) with true. cbn iota. destruct (Z.leb_spec (fdt_size_dt_strings fdt) (dp_off p)); [lia|].
  replace (dp_off p + fdt_off_dt_strings fdt) with (fdt_off_dt_strings fdt + dp_off p) by lia. rewrite (memchr_blob fdt (dp_name p) _ _ []); [|done|done|lia]. cbn [fbind]. do 2 f_equal. lia.
Qed.

Lemma string_eq_tok p l name : sfx (TProp p :: l) -> fdt_string_eq_ addr fdt (i32 (dp_off p)) name = FOk (bool_decide (dp_name p = name)).
Proof.
  intros Hs. destruct (prop_string p l Hs) as (E & Hb & Ei). unfold fdt_string_eq_. rewrite Ei, E. cbn [fbind].
  destruct (Z.eqb_spec (Z.of_nat (length (dp_name p))) (Z.of_nat (length name))) as [Hl|Hl]; cbn [negb]; [|by rewrite bool_decide_false by congruence].
  destruct (memcmp_blob fdt name _ _ Hb ltac:(rewrite length_app; cbn; lia)) as (c & Ec & Hc). rewrite Ec. cbn [fbind]. f_equal.
  rewrite take_app_le, take_ge in Hc by lia. case_bool_decide as Hn; [apply Z.eqb_eq; by apply Hc|]. apply Z.eqb_neq. by rewrite Hc.
Qed.

Lemma prop_header p l : sfx (TProp p :: l) -> let q := ostruct + pos (TProp p :: l) in
  fdt32_ld_ fdt (q + 4) = FOk (Z.of_nat (length (dp_val p))) /\ fdt32_ld_ fdt (q + 8) = FOk (dp_off p) /\ blob_at fdt (q + PROP_SIZE) (dp_val p) /\ Z.of_nat (length (dp_val p)) < 2 ^ 31.
Proof.
  intros Hs q. pose proof (tok_bytes _ _ Hs) as Hb. fold q in Hb. pose proof (sfx_ok _ _ Hs) as Hok. cbn in Hok. pose proof (pos_range _ Hs) as [Hp0 Hp1]. pose proof struct_small.
  rewrite size_cons, length_enc_tok in Hp1. destruct (tagalign_spec (Z.of_nat (length (dp_val p)))) as [Ha _]. pose proof (size_pos l).
  assert (Hlen : Z.of_nat (length (dp_val p)) < 2 ^ 31) by lia. unfold enc_tok in Hb. cbn [tag_of] in Hb. apply blob_at_be32 in Hb as [_ Hb]; [|done]. apply blob_at_be32 in Hb as [E1 Hb]; [|lia].
  apply blob_at_be32 in Hb as [E2 Hb]; [|done]. unfold pad4 in Hb. apply blob_at_app in Hb as [Hb _]. unfold PROP_SIZE. replace (q + 8) with (q + 4 + 4) by lia. replace (q + 12) with (q + 4 + 4 + 4) by lia. done.
Qed.

(** The property found by the loop over the properties of a node. *)
Fixpoint scan_props (name : list Z) (ps : list dprop) (l : list tok) : Z * Z * Z + Z :=
  match ps with
  | [] => inr ERR_NOTFOUND
  | p :: ps' =>
      let o := pos (TProp p :: map TProp ps' ++ l) in
      if decide (dp_name p = name) then inl (ostruct + o, Z.of_nat (length (dp_val p)), o) else scan_props name ps' l
  end.

Lemma get_property_tok name ps l : sfx (map TProp ps ++ l) -> no_prop l -> exists n, get_property_loop addr fdt n (first_prop ps l) name = FOk (scan_props name ps l).
Proof.
  induction ps as [|p ps IH]; intros Hs Hl; [by exists 1%nat|]. cbn [map app] in Hs. pose proof (sfx_tail _ _ Hs) as Hs'. destruct (IH Hs' Hl) as [n En]. exists (S n).
  cbn [first_prop get_property_loop map app scan_props]. destruct (Z.ltb_spec (pos (TProp p :: map TProp ps ++ l)) 0); [pose proof (pos_nonneg _ Hs); lia|].
  destruct (prop_header _ _ Hs) as (E1 & E2 & _ & Hlen). unfold fdt_get_property_by_offset_. rewrite (check_prop_tok _ _ Hs). cbn [fbind].
  destruct (Z.ltb_spec (pos (map TProp ps ++ l)) 0); [pose proof (pos_nonneg _ Hs'); lia|]. unfold fdt_offset_ptr_. rewrite E1. cbn [fbind]. rewrite E2. cbn [fbind]. rewrite (string_eq_tok _ _ _ Hs). cbn [fbind].
  rewrite i32_small by lia. case_bool_decide as Hn; [by rewrite decide_True|rewrite decide_False by done].
  unfold fdt_next_property_offset. rewrite (check_prop_tok _ _ Hs). cbn [fbind]. destruct (Z.ltb_spec (pos (map TProp ps ++ l)) 0); [lia|]. rewrite nextprop_tok by done. exact En.
Qed.

Lemma int_of_pos l : sfx l -> int_range (pos l).
Proof. intros H. pose proof (pos_range _ H) as [H1 H2]. pose proof (size_pos l). pose proof struct_small. unfold int_range. lia. Qed.

(** fdt_getprop is the lookup among the properties of the node. *)
Lemma getprop_tok nm ps l name : sfx (TBegin nm :: map TProp ps ++ l) -> no_prop l ->
  match find_prop name ps with
  | None => fdt_getprop addr fdt (pos (TBegin nm :: map TProp ps ++ l)) name = FOk (inr ERR_NOTFOUND)
  | Some p => exists q, fdt_getprop addr fdt (pos (TBegin nm :: map TProp ps ++ l)) name = FOk (inl (q, Z.of_nat (length (dp_val p)))) /\ blob_at fdt q (dp_val p)
  end.
Proof.
  intros Hs Hl. pose proof (sfx_tail _ _ Hs) as Hs'. unfold fdt_getprop, fdt_getprop_namelen, fdt_get_property_namelen_, fdt_first_property_offset. rewrite (check_node_tok _ _ Hs). cbn [fbind].
  destruct (Z.ltb_spec (pos (map TProp ps ++ l)) 0); [pose proof (pos_nonneg _ Hs'); lia|]. rewrite nextprop_tok by done. cbn [fbind].
  destruct (get_property_tok name ps l Hs' Hl) as [n En].
  assert (Hf : get_property_loop addr fdt (fuel_ fdt) (first_prop ps l) name = FOk (scan_props name ps l)).
  { eapply (fuel_agree (fun n => get_property_loop addr fdt n (first_prop ps l) name)); [apply get_property_mono|exact En|]. pose proof (en_len _ _ _ HE).
    apply (get_property_loop_ok addr fdt (en_bytes _ _ _ HE) en_sane (en_len _ _ _ HE)); [|unfold fuel_|unfold fuel_; lia].
    - destruct ps as [|p ps]; [unfold int_range, first_prop, ERR_NOTFOUND; lia|]. by apply int_of_pos.
    - intros Hf0. lia. }
  rewrite Hf. cbn [fbind]. clear Hf En Hs. revert Hs'. induction ps as [|p ps IH]; intros Hs'; cbn [scan_props find_prop]; [done|]. cbn [map app] in Hs'.
  destruct (decide (dp_name p = name)); [|apply IH; [|by apply (sfx_tail (TProp p))]].
  - destruct (prop_header _ _ Hs') as (E1 & E2 & Hb & Hlen). unfold prop_data. rewrite E1. cbn [fbind]. rewrite (en_version _ _ _ HE). cbn [Z.ltb Z.compare Pos.compare Pos.compare_cont andb fbind]. eexists. split; [done|exact Hb].
  - apply pos_nonneg. by apply (sfx_tail (TProp p)).
Qed.

(** ** The children of a node *)
Lemma node_name nm l : sfx (TBegin nm :: l) -> fdt_get_name addr fdt (pos (TBegin nm :: l)) = FOk (Some (ostruct + pos (TBegin nm :: l) + 4), Z.of_nat (length nm)) /\
  blob_at fdt (ostruct + pos (TBegin nm :: l) + 4) (nm ++ [0]).
Proof.
  intros Hs. pose proof (tok_bytes _ _ Hs) as Hb. unfold enc_tok in Hb. cbn [tag_of] in Hb. apply blob_at_be32 in Hb as [_ Hb]; [|done]. unfold pad4 in Hb. apply blob_at_app in Hb as [Hb _]. split; [|done].
  unfold fdt_get_name. pose proof en_probe as Hpr. destruct (Z.ltb_spec (fdt_ro_probe_ addr fdt) 0); [lia|]. rewrite (check_node_tok _ _ Hs). cbn [fbind].
  pose proof (pos_nonneg _ (sfx_tail _ _ Hs)). destruct (Z.ltb_spec (pos l) 0); [lia|]. rewrite (en_version _ _ _ HE). cbn [Z.ltb Z.compare Pos.compare Pos.compare_cont]. unfold fdt_offset_ptr_, FDT_TAGSIZE.
  rewrite (strlen_blob fdt nm (fuel_ fdt) _ 0 []); [done|exact (sfx_ok _ _ Hs)|by rewrite Z.add_0_r|].
  pose proof (pos_range _ Hs) as [Hp0 Hp1]. rewrite size_cons, length_enc_tok in Hp1. destruct (tagalign_spec (Z.of_nat (length nm) + 1)) as [Ha _]. pose proof struct_small. pose proof (en_len _ _ _ HE). pose proof (size_pos l). unfold fuel_. lia.
Qed.

Lemma nodename_eq_tok nm l e : sfx (TBegin nm :: l) -> fdt_nodename_eq_ addr fdt (pos (TBegin nm :: l)) e = FOk (name_matches e nm).
Proof.
  intros Hs. destruct (node_name nm l Hs) as [E Hb]. unfold fdt_nodename_eq_. rewrite E. cbn [fbind]. unfold name_matches.
  destruct (Z.ltb_spec (Z.of_nat (length nm)) (Z.of_nat (length e))) as [Hl|Hl].
  { rewrite (bool_decide_false (take _ _ = _)); [done|]. intros Ht. apply (f_equal length) in Ht. rewrite length_take in Ht. lia. }
  destruct (memcmp_blob fdt e _ _ Hb ltac:(rewrite length_app; lia)) as (c & Ec & Hc). rewrite Ec. cbn [fbind]. rewrite take_app_le in Hc by lia.
  destruct (Z.eqb_spec c 0) as [->|Hne]; cbn [negb]; [|rewrite (bool_decide_false (take _ _ = _)); [done|]; intros Ht; by apply Hne, Hc]. rewrite (bool_decide_true (take _ _ = _)) by (by apply Hc).
  generalize dependent (ostruct + pos (TBegin nm :: l) + 4). intros q _ Hb _. rewrite <- (take_drop (length e) nm) in Hb. rewrite <- app_assoc in Hb. apply blob_at_app in Hb as [_ Hb]. rewrite length_take_le in Hb by lia.
  pose proof (sfx_ok _ _ Hs) as Hok. cbn in Hok. apply (Forall_drop _ (length e)) in Hok. destruct (drop (length e) nm) as [|x r]; cbn [app] in Hb; apply blob_at_byte in Hb as [Eb _]; rewrite Eb; cbn [fbind].
  - done.
  - apply Forall_cons in Hok as [Hx _]. destruct (Z.eqb_spec x 0); [lia|]. cbn [orb]. f_equal. by rewrite andb_comm.
Qed.

Section Walk.
Context (name : list Z).
(** The loop of fdt_subnode_offset from a node, and from inside one. *)
Definition ev (o d r : Z) : Prop := exists n, subnode_loop addr fdt n o d name = FOk r.
Definition inside (l : list tok) (d r : Z) : Prop := exists n o d', next_node_loop fdt n (pos l) (Some d) = FOk (o, Some d') /\ ev o d' r.

Lemma ev_step nm l d r : sfx (TBegin nm :: l) -> 0 <= d -> (d = 1 -> name_matches name nm = false) -> inside l d r -> ev (pos (TBegin nm :: l)) d r.
Proof.
  intros Hs Hd Hm (n & o & d' & E & k & Hk). exists (S k). cbn [subnode_loop]. pose proof (pos_nonneg _ Hs). destruct (Z.ltb_spec (pos (TBegin nm :: l)) 0); [lia|]. destruct (Z.ltb_spec d 0); [lia|]. cbn [orb].
  assert (Hc : (if d =? 1 then fdt_nodename_eq_ addr fdt (pos (TBegin nm :: l)) name else FOk false) = FOk false).
  { destruct (Z.eqb_spec d 1) as [->|]; [|done]. by rewrite (nodename_eq_tok _ _ _ Hs), (Hm eq_refl). }
  rewrite Hc. cbn [fbind]. unfold fdt_next_node. destruct (Z.leb_spec 0 (pos (TBegin nm :: l))); [|lia]. rewrite (check_node_tok _ _ Hs). cbn [fbind].
  pose proof (pos_nonneg _ (sfx_tail _ _ Hs)). destruct (Z.ltb_spec (pos l) 0); [lia|].
  erewrite (fuel_agree (fun n => next_node_loop fdt n (pos l) (Some d))); [|apply next_node_mono|exact E|].
  - cbn [fbind]. exact Hk.
  - pose proof (en_len _ _ _ HE). apply (next_node_loop_ok fdt (en_bytes _ _ _ HE) en_sane (en_len _ _ _ HE)); [apply int_of_pos; by apply (sfx_tail (TBegin nm))|unfold fuel_; lia|unfold fuel_; lia].
Qed.

Lemma ev_hit nm l : sfx (TBegin nm :: l) -> name_matches name nm = true -> ev (pos (TBegin nm :: l)) 1 (pos (TBegin nm :: l)).
Proof.
  intros Hs Hm. exists 1%nat. cbn [subnode_loop]. pose proof (pos_nonneg _ Hs). destruct (Z.ltb_spec (pos (TBegin nm :: l)) 0); [lia|]. cbn [orb Z.ltb Z.compare Z.eqb Pos.eqb].
  by rewrite (nodename_eq_tok _ _ _ Hs), Hm.
Qed.

Lemma inside_props ps l d r : sfx (map TProp ps ++ l) -> inside l d r -> inside (map TProp ps ++ l) d r.
Proof.
  induction ps as [|p ps IH]; intros Hs H; [done|]. cbn [map app] in *. destruct (IH (sfx_tail _ _ Hs) H) as (n & o & d' & E & Hev). exists (S n), o, d'. split; [|done].
  cbn [next_node_loop]. rewrite (next_tag_tok _ _ Hs). exact E.
Qed.
Lemma inside_begin nm l d r : sfx (TBegin nm :: l) -> 0 <= d -> d + 1 < 2 ^ 31 -> ev (pos (TBegin nm :: l)) (d + 1) r -> inside (TBegin nm :: l) d r.
Proof.
  intros Hs H0 Hd H. exists 1%nat, (pos (TBegin nm :: l)), (d + 1). split; [|done]. cbn [next_node_loop]. rewrite (next_tag_tok _ _ Hs). cbn. by rewrite i32_small by lia.
Qed.
Lemma inside_end l d r : sfx (TEnd :: l) -> 0 < d < 2 ^ 31 -> inside l (d - 1) r -> inside (TEnd :: l) d r.
Proof.
  intros Hs Hd (n & o & d' & E & Hev). exists (S n), o, d'. split; [|done]. cbn [next_node_loop]. rewrite (next_tag_tok _ _ Hs). cbn [fbind tag_of].
  change (FDT_END_NODE =? FDT_BEGIN_NODE) with false. change (FDT_END_NODE =? FDT_END_NODE) with true. cbn iota. rewrite i32_small by lia. destruct (Z.ltb_spec (d - 1) 0); [lia|done].
Qed.
Lemma inside_out l : sfx (TEnd :: l) -> inside (TEnd :: l) 0 ERR_NOTFOUND.
Proof.
  intros Hs. exists 1%nat, (pos l), (-1). split; [cbn [next_node_loop]; by rewrite (next_tag_tok _ _ Hs)|]. exists 1%nat. cbn [subnode_loop]. by rewrite orb_true_r.
Qed.

Lemma toks_app t rest : toks t ++ rest = TBegin (dname t) :: map TProp (dprops t) ++ concat (map toks (dsubs t)) ++ TEnd :: rest.
Proof. destruct t as [nm ps cs]. cbn. by rewrite <- !app_assoc. Qed.

(** A subtree whose root is not looked for is walked through. *)
Lemma walk_subtree c : forall d rest r, sfx (toks c ++ rest) -> 1 <= d -> d + Z.of_nat (length (toks c)) < 2 ^ 31 -> (d = 1 -> name_matches name (dname c) = false) ->
  inside rest (d - 1) r -> ev (pos (toks c ++ rest)) d r.
Proof.
  induction c as [nm ps cs IH] using dtree_nested_ind. intros d rest r Hs Hd Hlen Hm Hin. rewrite toks_app in *. cbn [dname dprops dsubs] in *. cbn [toks length] in Hlen. rewrite !length_app in Hlen. cbn [length] in Hlen.
  apply ev_step; [done|lia|done|]. pose proof (sfx_tail _ _ Hs) as Hs1. apply inside_props; [done|]. apply sfx_app in Hs1. clear Hs.
  assert (Hcs : d + Z.of_nat (length (concat (map toks cs))) + 1 < 2 ^ 31) by lia. clear Hlen Hm. revert Hs1 Hcs. induction IH as [|c cs Hc _ IHcs]; intros Hs1 Hcs; cbn [map concat app] in *.
  - apply inside_end; [done|lia|done].
  - rewrite length_app in Hcs. rewrite <- app_assoc in *. pose proof (sfx_app _ _ Hs1) as Hs2.
    assert (Hev : ev (pos (toks c ++ concat (map toks cs) ++ TEnd :: rest)) (d + 1) r).
    { apply Hc; [done|lia|lia|lia|]. replace (d + 1 - 1) with d by lia. apply IHcs; [done|lia]. }
    rewrite toks_app in *. apply inside_begin; [done|lia|lia|done].
Qed.

Lemma walk_children cs rest : sfx (concat (map toks cs) ++ TEnd :: rest) -> Z.of_nat (length (concat (map toks cs))) + 2 < 2 ^ 31 ->
  exists r, inside (concat (map toks cs) ++ TEnd :: rest) 0 r /\
  match find_sub name cs with None => r = ERR_NOTFOUND | Some c => exists rest', r = pos (toks c ++ rest') /\ sfx (toks c ++ rest') end.
Proof.
  induction cs as [|c cs IH]; intros Hs Hlen; cbn [map concat app find_sub] in *; [by exists ERR_NOTFOUND; split; [apply inside_out|]|].
  rewrite length_app in Hlen. rewrite <- app_assoc in *. pose proof (sfx_app _ _ Hs) as Hs2. destruct (name_matches name (dname c)) eqn:Em.
  - exists (pos (toks c ++ concat (map toks cs) ++ TEnd :: rest)). split; [|by eexists]. rewrite toks_app in *. apply inside_begin; [done|lia|lia|]. by apply ev_hit.
  - destruct (IH Hs2 ltac:(lia)) as (r & Hin & Hr). exists r. split; [|done].
    assert (Hev : ev (pos (toks c ++ concat (map toks cs) ++ TEnd :: rest)) (0 + 1) r) by (apply walk_subtree; [done|lia|lia|done|done]).
    rewrite toks_app in *. apply inside_begin; [done|lia|lia|done].
Qed.
End Walk.

(** Where the loop ends for a lookup in the tree. *)
Definition at_node (o : option dtree) (r : Z) : Prop := match o with None => r = ERR_NOTFOUND | Some c => exists rest, r = pos (toks c ++ rest) /\ sfx (toks c ++ rest) end.

Lemma tokens_small l : Z.of_nat (length l) * 4 <= size l.
Proof.
  induction l as [|t l IH]; [done|]. rewrite size_cons, length_enc_tok. cbn [length]. destruct t as [nm|p| |]; try lia.
  - pose proof (tagalign_spec (Z.of_nat (length nm) + 1)). lia.
  - pose proof (tagalign_spec (Z.of_nat (length (dp_val p)))). lia.
Qed.

Lemma subnode_tok t rest name : sfx (toks t ++ rest) -> exists r, fdt_subnode_offset_namelen addr fdt (pos (toks t ++ rest)) name = FOk r /\ at_node (find_sub name (dsubs t)) r.
Proof.
  intros Hs. pose proof (tokens_small (toks t ++ rest)) as Hn. pose proof (pos_range _ Hs) as [Hp1 Hp2]. pose proof struct_small as Hss. pose proof (int_of_pos _ Hs) as Hi. rewrite toks_app in *.
  pose proof (sfx_tail _ _ Hs) as Hs1. pose proof (sfx_app _ _ Hs1) as Hs2. cbn [length] in Hn. rewrite !length_app in Hn.
  destruct (walk_children name (dsubs t) rest Hs2 ltac:(lia)) as (r & Hin & Hr). exists r. split; [|exact Hr].
  destruct (ev_step name _ _ 0 r Hs ltac:(lia) ltac:(lia) (inside_props _ _ _ _ _ Hs1 Hin)) as [n En].
  unfold fdt_subnode_offset_namelen. pose proof en_probe. destruct (Z.ltb_spec (fdt_ro_probe_ addr fdt) 0); [lia|].
  eapply (fuel_agree (fun n => subnode_loop addr fdt n _ 0 name)); [apply subnode_mono|exact En|].
  apply (subnode_loop_ok addr fdt (en_bytes _ _ _ HE) en_sane (en_len _ _ _ HE)); [done|]. apply (fueled_init fdt en_sane (en_len _ _ _ HE)).
Qed.

(** ** Paths *)
Definition elem_ok (e : list Z) : Prop := e <> [] /\ ch_slash ∉ e.
Lemma skip_slashes_elem e rest : elem_ok e -> fdt_skip_slashes (e ++ rest) = e ++ rest.
Proof. intros [Hne Hns]. destruct e as [|c e]; [done|]. cbn. destruct (Z.eqb_spec c ch_slash) as [->|]; [set_solver|done]. Qed.
Lemma path_elem_app e rest : ch_slash ∉ e -> (rest = [] \/ exists r, rest = ch_slash :: r) -> path_elem (e ++ rest) = (e, rest).
Proof.
  intros Hns Hr. induction e as [|c e IH]; cbn.
  - by destruct Hr as [->|[r ->]].
  - destruct (Z.eqb_spec c ch_slash) as [->|]; [set_solver|]. rewrite IH by set_solver. done.
Qed.
Definition slashed (es : list (list Z)) : list Z := concat (map (cons ch_slash) es).

Lemma path_loop_tok es : forall fuel t rest, Forall elem_ok es -> (length (slashed es) <= fuel)%nat -> sfx (toks t ++ rest) ->
  exists r, path_loop addr fdt fuel (slashed es) (pos (toks t ++ rest)) = FOk r /\ at_node (find_path es t) r.
Proof.
  induction es as [|e es IH]; intros fuel t rest Hok Hf Hs; cbn [find_path].
  { exists (pos (toks t ++ rest)). split; [by destruct fuel|by eexists]. }
  apply Forall_cons in Hok as [He Hok]. unfold slashed in *. cbn [map concat app length] in *. destruct fuel as [|fuel]; [cbn in Hf; lia|]. cbn [path_loop fdt_skip_slashes]. rewrite Z.eqb_refl, skip_slashes_elem by done.
  destruct (e ++ concat (map (cons ch_slash) es)) as [|c p] eqn:E; [by destruct He, e|]. 
  assert (Ep : path_elem (c :: p) = (e, concat (map (cons ch_slash) es))) by (rewrite <- E; apply path_elem_app; [by apply He|destruct es; [by left|right; cbn; eauto]]). rewrite Ep. rewrite <- E in Hf.
  destruct (subnode_tok t rest e Hs) as (r & Er & Hr). rewrite Er. cbn [fbind]. rewrite length_app in Hf. destruct (find_sub e (dsubs t)) as [c'|]; cbn [at_node] in *.
  - destruct Hr as (rest' & -> & Hs'). pose proof (pos_nonneg _ Hs'). destruct (Z.ltb_spec (pos (toks c' ++ rest')) 0); [lia|]. apply IH; [done|lia|done].
  - subst r. eexists. by split.
Qed.
End Tree.

(** The path a list of names spells. *)
Definition path_of (es : list (list Z)) : list Z := match es with [] => [ch_slash] | _ => slashed es end.

Lemma path_offset_tok addr fdt root es : encodes addr fdt root -> Forall elem_ok es ->
  exists r, fdt_path_offset addr fdt (path_of es) = FOk r /\ at_node root (find_path es root) r.
Proof.
  intros HE Hes. unfold fdt_path_offset, fdt_path_offset_namelen. pose proof (en_probe _ _ _ HE) as Hp. destruct (Z.ltb_spec (fdt_ro_probe_ addr fdt) 0); [lia|].
  assert (Hs : sfx root (toks root ++ [TFin])) by (by exists []). assert (H0 : pos root (toks root ++ [TFin]) = 0) by (unfold pos; lia).
  destruct es as [|e es]; [exists 0; split; [done|]; by exists [TFin]|]. destruct (path_loop_tok addr fdt root HE (e :: es) (length (slashed (e :: es))) root [TFin] Hes ltac:(lia) Hs) as (r & E & Hr).
  rewrite H0 in E. exists r. split; [exact E|done].
Qed.

Lemma node_getprop addr fdt root t rest name : encodes addr fdt root -> sfx root (toks t ++ rest) ->
  match find_prop name (dprops t) with
  | None => fdt_getprop addr fdt (pos root (toks t ++ rest)) name = FOk (inr ERR_NOTFOUND)
  | Some p => exists q, fdt_getprop addr fdt (pos root (toks t ++ rest)) name = FOk (inl (q, Z.of_nat (length (dp_val p)))) /\ blob_at fdt q (dp_val p)
  end.
Proof.
  intros HE Hs. rewrite toks_app in *. apply getprop_tok; [done|done|]. destruct (dsubs t) as [|[nm ps cs] l]; done.
Qed.

(** C15. The device-tree reader computes lookups in the tree the blob encodes.
    For a blob whose structure block is the encoding of a tree and any path
    /e1/.../en, fdt_path_offset answers -FDT_ERR_NOTFOUND when the tree has no
    such node (each name matched in full or up to its unit address, the first
    child that matches taken), and otherwise an offset at which fdt_get_name
    gives the node's name, fdt_getprop the bytes and the length of exactly the
    first property of each name, or -FDT_ERR_NOTFOUND, and fdt_subnode_offset
    finds a child exactly when the node has one. *)
Theorem fdt_lookup addr fdt root es : encodes addr fdt root -> Forall elem_ok es ->
  match find_path es root with
  | None => fdt_path_offset addr fdt (path_of es) = FOk ERR_NOTFOUND
  | Some t => exists o, fdt_path_offset addr fdt (path_of es) = FOk o /\ 0 <= o /\
      (exists q, fdt_get_name addr fdt o = FOk (Some q, Z.of_nat (length (dname t))) /\ blob_at fdt q (dname t ++ [0])) /\
      (forall name, match find_prop name (dprops t) with
        | None => fdt_getprop addr fdt o name = FOk (inr ERR_NOTFOUND)
        | Some p => exists q, fdt_getprop addr fdt o name = FOk (inl (q, Z.of_nat (length (dp_val p)))) /\ blob_at fdt q (dp_val p)
        end) /\
      (forall e, exists r, fdt_subnode_offset addr fdt o e = FOk r /\ match find_sub e (dsubs t) with None => r = ERR_NOTFOUND | Some _ => 0 <= r end)
  end.
Proof.
  intros HE Hes. destruct (path_offset_tok addr fdt root es HE Hes) as (r & E & Hr). destruct (find_path es root) as [t|]; cbn [at_node] in Hr; [|by subst].
  destruct Hr as (rest & -> & Hs). exists (pos root (toks t ++ rest)). split; [done|]. split; [by apply (pos_nonneg addr fdt root HE)|]. split; [|split].
  - rewrite toks_app in *. destruct (node_name addr fdt root HE _ _ Hs) as [En Hb]. eauto.
  - intros name. by apply node_getprop.
  - intros e. destruct (subnode_tok addr fdt root HE t rest e Hs) as (r & Er & Hr). exists r. split; [exact Er|]. destruct (find_sub e (dsubs t)); [|done]. destruct Hr as (rest' & -> & Hs'). by apply (pos_nonneg addr fdt root HE).
Qed.

(** ** A blob *)
Definition dtb (root : dtree) (rsv strings : list Z) : list Z :=
  let st := enc (toks root ++ [TFin]) in
  let o1 := 40 + Z.of_nat (length rsv) in
  let o2 := o1 + Z.of_nat (length st) in
  concat (map be32b [FDT_MAGIC; o2 + Z.of_nat (length strings); o1; o2; 40; 17; 16; 0; Z.of_nat (length strings); Z.of_nat (length st)]) ++ rsv ++ st ++ strings.

Lemma blob_at_dec fdt p bs : 0 <= p -> take (length bs) (drop (Z.to_nat p) fdt) = bs -> blob_at fdt p bs.
Proof.
  intros H0 H. split; [done|]. intros i b Hi. rewrite <- H in Hi. rewrite <- lookup_drop. apply lookup_take_Some in Hi as [Hi _]. exact Hi.
Qed.

Abbreviation zs := bytes_of_string.
Definition ex_strings : list Z := zs "reg" ++ [0] ++ zs "compatible" ++ [0].
Definition ex_serial : dtree := DNode (zs "serial@10000000") [mkDprop 4 (zs "compatible") (zs "uart" ++ [0]); mkDprop 0 (zs "reg") (be32b 0 ++ be32b 0x10000000)] [].
Definition ex_root : dtree := DNode [] [mkDprop 4 (zs "compatible") (zs "board" ++ [0])] [DNode (zs "cpus") [] []; DNode (zs "soc") [] [ex_serial]].
Definition ex_blob : list Z := dtb ex_root (replicate 16 0) ex_strings ++ [0].

Lemma ex_encodes : encodes 0x42000000 ex_blob ex_root.
Proof.
  split; try (by vm_compute).
  - apply Forall_forall. assert (H : forallb (fun b => (0 <=? b) && (b <? 256)) ex_blob = true) by (by vm_compute). intros b Hb. rewrite forallb_forall in H. apply list_elem_of_In in Hb. apply H in Hb. unfold is_byte. lia.
  - apply blob_at_dec; by vm_compute.
  - repeat (constructor; [vm_compute; repeat constructor|]). constructor.
  - repeat (constructor; [split; [vm_compute; repeat constructor|split; [by vm_compute|split; [by vm_compute|apply blob_at_dec; by vm_compute]]]|]). constructor.
Qed.

Lemma fdt_lookup_witness : exists o, fdt_path_offset 0x42000000 ex_blob (zs "/soc/serial") = FOk o /\ 0 <= o /\ exists q, fdt_getprop 0x42000000 ex_blob o (zs "reg") = FOk (inl (q, 8)).
Proof.
  assert (Hes : Forall elem_ok [zs "soc"; zs "serial"]) by (repeat (constructor; [split; [done|apply (bool_decide_unpack _); by vm_compute]|]); constructor).
  destruct (fdt_lookup _ _ _ [zs "soc"; zs "serial"] ex_encodes Hes) as (o & Ho & H0 & _ & Hp & _). exists o. split; [exact Ho|]. split; [exact H0|]. destruct (Hp (zs "reg")) as (q & Hq & _). exists q. exact Hq.
Defined.
