(* ===== verification/Platform.v ===== *)
(** * The board (platform/visionfive2/kernel/platform.c, sbi.c)

    What the kernel learns of the machine before main: the device tree parsed into the
    record [active], the order of the harts, and the calls into the SBI firmware.  The
    device tree is a list of bytes in memory (the caller's mapping goes on after it); the
    firmware is the function [firmware] from the calls made so far and a call to its
    answer; the linker symbol [end] is the parameter [end_].  A panic stops the hart in
    the state reached. *)

From stdpp Require Import base list numbers.
From S2P Require Import Prelude Params Fdt FdtSafe FdtTree.

(** ** platform.h and sbi.h *)
Definition NCPU : nat := 8.
Definition KERNBASE_VF2 : Z := 0x40200000.
Definition KERNBASE_QEMU : Z := 0x80000000.
Inductive platform_block_kind : Type := PLATFORM_BLOCK_VIRTIO | PLATFORM_BLOCK_JH7110_SD.
Record platform_info : Type := mkPlatform {
  pi_name : option string;
  pi_kernel_base : Z;
  pi_ram_base : Z;
  pi_ram_end : Z;
  pi_uart_base : Z;
  pi_plic_base : Z;
  pi_block_base : Z;
  pi_uart_reg_shift : Z;
  pi_uart_reg_width : Z;
  pi_uart_irq : Z;
  pi_block_irq : Z;
  pi_timebase_frequency : Z;
  pi_hart_ids : list Z;
  pi_hart_count : Z;
  pi_uses_sbi : Z;
  pi_block_kind : platform_block_kind;
}.
Definition set_pi_name (v : option string) (a : platform_info) : platform_info :=
  mkPlatform v (pi_kernel_base a) (pi_ram_base a) (pi_ram_end a) (pi_uart_base a) (pi_plic_base a) (pi_block_base a) (pi_uart_reg_shift a) (pi_uart_reg_width a) (pi_uart_irq a) (pi_block_irq a) (pi_timebase_frequency a) (pi_hart_ids a) (pi_hart_count a) (pi_uses_sbi a) (pi_block_kind a).
Definition set_kernel_base (v : Z) (a : platform_info) : platform_info :=
  mkPlatform (pi_name a) v (pi_ram_base a) (pi_ram_end a) (pi_uart_base a) (pi_plic_base a) (pi_block_base a) (pi_uart_reg_shift a) (pi_uart_reg_width a) (pi_uart_irq a) (pi_block_irq a) (pi_timebase_frequency a) (pi_hart_ids a) (pi_hart_count a) (pi_uses_sbi a) (pi_block_kind a).
Definition set_ram_base (v : Z) (a : platform_info) : platform_info :=
  mkPlatform (pi_name a) (pi_kernel_base a) v (pi_ram_end a) (pi_uart_base a) (pi_plic_base a) (pi_block_base a) (pi_uart_reg_shift a) (pi_uart_reg_width a) (pi_uart_irq a) (pi_block_irq a) (pi_timebase_frequency a) (pi_hart_ids a) (pi_hart_count a) (pi_uses_sbi a) (pi_block_kind a).
Definition set_ram_end (v : Z) (a : platform_info) : platform_info :=
  mkPlatform (pi_name a) (pi_kernel_base a) (pi_ram_base a) v (pi_uart_base a) (pi_plic_base a) (pi_block_base a) (pi_uart_reg_shift a) (pi_uart_reg_width a) (pi_uart_irq a) (pi_block_irq a) (pi_timebase_frequency a) (pi_hart_ids a) (pi_hart_count a) (pi_uses_sbi a) (pi_block_kind a).
Definition set_uart_base (v : Z) (a : platform_info) : platform_info :=
  mkPlatform (pi_name a) (pi_kernel_base a) (pi_ram_base a) (pi_ram_end a) v (pi_plic_base a) (pi_block_base a) (pi_uart_reg_shift a) (pi_uart_reg_width a) (pi_uart_irq a) (pi_block_irq a) (pi_timebase_frequency a) (pi_hart_ids a) (pi_hart_count a) (pi_uses_sbi a) (pi_block_kind a).
Definition set_plic_base (v : Z) (a : platform_info) : platform_info :=
  mkPlatform (pi_name a) (pi_kernel_base a) (pi_ram_base a) (pi_ram_end a) (pi_uart_base a) v (pi_block_base a) (pi_uart_reg_shift a) (pi_uart_reg_width a) (pi_uart_irq a) (pi_block_irq a) (pi_timebase_frequency a) (pi_hart_ids a) (pi_hart_count a) (pi_uses_sbi a) (pi_block_kind a).
Definition set_block_base (v : Z) (a : platform_info) : platform_info :=
  mkPlatform (pi_name a) (pi_kernel_base a) (pi_ram_base a) (pi_ram_end a) (pi_uart_base a) (pi_plic_base a) v (pi_uart_reg_shift a) (pi_uart_reg_width a) (pi_uart_irq a) (pi_block_irq a) (pi_timebase_frequency a) (pi_hart_ids a) (pi_hart_count a) (pi_uses_sbi a) (pi_block_kind a).
Definition set_uart_reg_shift (v : Z) (a : platform_info) : platform_info :=
  mkPlatform (pi_name a) (pi_kernel_base a) (pi_ram_base a) (pi_ram_end a) (pi_uart_base a) (pi_plic_base a) (pi_block_base a) v (pi_uart_reg_width a) (pi_uart_irq a) (pi_block_irq a) (pi_timebase_frequency a) (pi_hart_ids a) (pi_hart_count a) (pi_uses_sbi a) (pi_block_kind a).
Definition set_uart_reg_width (v : Z) (a : platform_info) : platform_info :=
  mkPlatform (pi_name a) (pi_kernel_base a) (pi_ram_base a) (pi_ram_end a) (pi_uart_base a) (pi_plic_base a) (pi_block_base a) (pi_uart_reg_shift a) v (pi_uart_irq a) (pi_block_irq a) (pi_timebase_frequency a) (pi_hart_ids a) (pi_hart_count a) (pi_uses_sbi a) (pi_block_kind a).
Definition set_uart_irq (v : Z) (a : platform_info) : platform_info :=
  mkPlatform (pi_name a) (pi_kernel_base a) (pi_ram_base a) (pi_ram_end a) (pi_uart_base a) (pi_plic_base a) (pi_block_base a) (pi_uart_reg_shift a) (pi_uart_reg_width a) v (pi_block_irq a) (pi_timebase_frequency a) (pi_hart_ids a) (pi_hart_count a) (pi_uses_sbi a) (pi_block_kind a).
Definition set_block_irq (v : Z) (a : platform_info) : platform_info :=
  mkPlatform (pi_name a) (pi_kernel_base a) (pi_ram_base a) (pi_ram_end a) (pi_uart_base a) (pi_plic_base a) (pi_block_base a) (pi_uart_reg_shift a) (pi_uart_reg_width a) (pi_uart_irq a) v (pi_timebase_frequency a) (pi_hart_ids a) (pi_hart_count a) (pi_uses_sbi a) (pi_block_kind a).
Definition set_timebase_frequency (v : Z) (a : platform_info) : platform_info :=
  mkPlatform (pi_name a) (pi_kernel_base a) (pi_ram_base a) (pi_ram_end a) (pi_uart_base a) (pi_plic_base a) (pi_block_base a) (pi_uart_reg_shift a) (pi_uart_reg_width a) (pi_uart_irq a) (pi_block_irq a) v (pi_hart_ids a) (pi_hart_count a) (pi_uses_sbi a) (pi_block_kind a).
Definition set_hart_ids (v : list Z) (a : platform_info) : platform_info :=
  mkPlatform (pi_name a) (pi_kernel_base a) (pi_ram_base a) (pi_ram_end a) (pi_uart_base a) (pi_plic_base a) (pi_block_base a) (pi_uart_reg_shift a) (pi_uart_reg_width a) (pi_uart_irq a) (pi_block_irq a) (pi_timebase_frequency a) v (pi_hart_count a) (pi_uses_sbi a) (pi_block_kind a).
Definition set_hart_count (v : Z) (a : platform_info) : platform_info :=
  mkPlatform (pi_name a) (pi_kernel_base a) (pi_ram_base a) (pi_ram_end a) (pi_uart_base a) (pi_plic_base a) (pi_block_base a) (pi_uart_reg_shift a) (pi_uart_reg_width a) (pi_uart_irq a) (pi_block_irq a) (pi_timebase_frequency a) (pi_hart_ids a) v (pi_uses_sbi a) (pi_block_kind a).
Definition set_uses_sbi (v : Z) (a : platform_info) : platform_info :=
  mkPlatform (pi_name a) (pi_kernel_base a) (pi_ram_base a) (pi_ram_end a) (pi_uart_base a) (pi_plic_base a) (pi_block_base a) (pi_uart_reg_shift a) (pi_uart_reg_width a) (pi_uart_irq a) (pi_block_irq a) (pi_timebase_frequency a) (pi_hart_ids a) (pi_hart_count a) v (pi_block_kind a).
Definition set_block_kind (v : platform_block_kind) (a : platform_info) : platform_info :=
  mkPlatform (pi_name a) (pi_kernel_base a) (pi_ram_base a) (pi_ram_end a) (pi_uart_base a) (pi_plic_base a) (pi_block_base a) (pi_uart_reg_shift a) (pi_uart_reg_width a) (pi_uart_irq a) (pi_block_irq a) (pi_timebase_frequency a) (pi_hart_ids a) (pi_hart_count a) (pi_uses_sbi a) v.
(** static struct platform_info active, before anything is stored in it *)
Definition zero_platform : platform_info := mkPlatform None 0 0 0 0 0 0 0 0 0 0 0 (replicate NCPU 0) 0 0 PLATFORM_BLOCK_VIRTIO.

Definition SBI_EXT_BASE : Z := 0x10.
Definition SBI_EXT_TIME : Z := 0x54494d45.
Definition SBI_EXT_IPI : Z := 0x735049.
Definition SBI_EXT_RFENCE : Z := 0x52464e43.
Definition SBI_EXT_HSM : Z := 0x48534d.
Definition SBI_EXT_SRST : Z := 0x53525354.

(** One ecall: the registers a7, a6 and a0 to a5. *)
Record sbireq : Type := mkReq { rq_ext : Z; rq_fid : Z; rq_args : list Z }.
Record sbiret : Type := mkSbiret { sbi_error : Z; sbi_value : Z }.
Record pstate : Type := mkP { active : platform_info; sbi_calls : list sbireq; stimecmp : Z }.

(** Conversions of longs and ints *)
Definition i64 (x : Z) : Z := signed 64 x.

Section Platform.
Context (addr : Z) (fdt : list Z) (end_ : Z) (firmware : list sbireq -> sbireq -> sbiret).
Abbreviation P := (M pstate).

Definition assign (f : platform_info -> platform_info) : P unit := modify (fun s => mkP (f (active s)) (sbi_calls s) (stimecmp s)).

(** ** sbi.c *)
Definition sbi_call (ext fid arg0 arg1 arg2 arg3 arg4 arg5 : Z) : P sbiret :=
  fun s => let rq := mkReq ext fid [arg0; arg1; arg2; arg3; arg4; arg5] in
           Ret (firmware (sbi_calls s) rq) (mkP (active s) (sbi_calls s ++ [rq]) (stimecmp s)).
Definition sbi_probe_extension (ext : Z) : P bool :=
  let! r := sbi_call SBI_EXT_BASE 3 ext 0 0 0 0 0 in ret ((sbi_error r =? 0) && negb (sbi_value r =? 0)).
Definition sbi_set_timer (deadline : Z) : P Z :=
  let! r := sbi_call SBI_EXT_TIME 0 deadline 0 0 0 0 0 in ret (i32 (sbi_error r)).
Definition sbi_send_ipi (hart_mask hart_mask_base : Z) : P Z :=
  let! r := sbi_call SBI_EXT_IPI 0 hart_mask hart_mask_base 0 0 0 0 in ret (i32 (sbi_error r)).
Definition sbi_remote_sfence_vma (hart_mask hart_mask_base start size : Z) : P Z :=
  let! r := sbi_call SBI_EXT_RFENCE 1 hart_mask hart_mask_base start size 0 0 in ret (i32 (sbi_error r)).
Definition sbi_hart_start (hartid start_addr opaque : Z) : P Z :=
  let! r := sbi_call SBI_EXT_HSM 0 hartid start_addr opaque 0 0 0 in ret (i32 (sbi_error r)).

(** ** platform.c: reading nodes *)
Definition lift {A} (m : fres A) : P A :=
  match m with FOk a => ret a | FFault => fault "read outside the device tree" | FFuel => fault "a walk that does not end" end.

Fixpoint read_cells_loop (n : nat) (cells value : Z) : P Z :=
  match n with
  | O => ret value
  | S n' => let! c := lift (fdt32_ld_ fdt cells) in read_cells_loop n' (cells + 4) (Z.lor (u64 (Z.shiftl value 32)) c)
  end.
Definition read_cells (cells count : Z) : P Z :=
  if (count <? 1) || (2 <? count) then panic "platform: unsupported DT cell count" else read_cells_loop (Z.to_nat count) cells 0.

(** The first cell of a property that has one. *)
Definition first_cell (v : Z * Z + Z) (fallback : Z) : P Z :=
  match v with inl (p, len) => if 4 <=? len then lift (fdt32_ld_ fdt p) else ret fallback | inr _ => ret fallback end.

(** the address, and *size *)
Definition node_reg (node : Z) : P (Z * Z) :=
  let! parent := lift (fdt_parent_offset addr fdt node) in
  let! cells := lift (fdt_getprop addr fdt parent (bytes_of_string "#address-cells")) in
  let! a := first_cell cells 2 in
  let ac := i32 a in
  let! cells := lift (fdt_getprop addr fdt parent (bytes_of_string "#size-cells")) in
  let! c := first_cell cells 1 in
  let sc := i32 c in
  let! reg := lift (fdt_getprop addr fdt node (bytes_of_string "reg")) in
  match reg with
  | inr _ => panic "platform: invalid DT reg"
  | inl (reg, len) =>
      if (ac <? 1) || (2 <? ac) || (sc <? 1) || (2 <? sc) || (len <? (ac + sc) * 4) then panic "platform: invalid DT reg"
      else
        let! size := read_cells (reg + 4 * ac) sc in
        let! start := read_cells reg ac in
        ret (start, size)
  end.

Definition node_u32 (node : Z) (name : list Z) (fallback : Z) : P Z :=
  let! value := lift (fdt_getprop addr fdt node name) in first_cell value fallback.

Definition reserve_range (start size : Z) : P unit :=
  if (size =? 0) || (u64 (start + size) <? start) then panic "platform: invalid reserved-memory range"
  else
    let kernel_end := PGROUNDUP end_ in
    if (start <=? kernel_end) && (kernel_end <? u64 (start + size)) then panic "platform: kernel overlaps reserved memory"
    else
      let! a := gets active in
      when ((kernel_end <? start) && (start <? pi_ram_end a)) (assign (set_ram_end (PGROUNDDOWN start))).

(** fdt_for_each_subnode from the child [node] *)
Fixpoint each_subnode (fuel : nat) (node : Z) (body : Z -> P unit) : P unit :=
  match fuel with
  | O => fault "a walk that does not end"
  | S fuel' =>
      if node <? 0 then ret tt
      else do! body node; let! next := lift (fdt_next_subnode fdt node) in each_subnode fuel' next body
  end.
Definition for_each_subnode (parent : Z) (body : Z -> P unit) : P unit :=
  let! node := lift (fdt_first_subnode fdt parent) in each_subnode (fuel_ fdt) node body.

(** The range a child of /reserved-memory names. *)
Definition reserved_child (child : Z) : P (Z * Z) :=
  let! reg := lift (fdt_getprop addr fdt child (bytes_of_string "reg")) in
  match reg with
  | inl _ => node_reg child
  | inr _ =>
      let! size_cells := lift (fdt_getprop addr fdt child (bytes_of_string "size")) in
      let! ranges := lift (fdt_getprop addr fdt child (bytes_of_string "alloc-ranges")) in
      match size_cells, ranges with
      | inl (size_cells, property_len), inl (ranges, ranges_len) =>
          if negb (property_len =? 8) || (ranges_len <? 16) then panic "platform: unsupported dynamic reserved-memory node"
          else
            let! dyn_start := read_cells ranges 2 in
            let! dyn_size := read_cells size_cells 2 in
            ret (dyn_start, dyn_size)
      | _, _ => panic "platform: unsupported dynamic reserved-memory node"
      end
  end.
Definition parse_reserved_memory : P unit :=
  let! reserved := lift (fdt_path_offset addr fdt (bytes_of_string "/reserved-memory")) in
  if reserved <? 0 then ret tt
  else for_each_subnode reserved (fun child => let! '(start, size) := reserved_child child in reserve_range start size).

Fixpoint find_compatible_loop (fuel : nat) (node : Z) (compatible : list Z) : P Z :=
  match fuel with
  | O => fault "a walk that does not end"
  | S fuel' =>
      let! '(node, _) := lift (fdt_next_node fdt node None) in
      if node <? 0 then panic "platform: required compatible missing"
      else
        let! c := lift (fdt_node_check_compatible addr fdt node compatible) in
        if c =? 0 then ret node else find_compatible_loop fuel' node compatible
  end.
Definition find_compatible (compatible : list Z) : P Z := find_compatible_loop (fuel_ fdt) (-1) compatible.

(** strncmp of string.c on a string of the blob *)
Fixpoint strncmp_at (n : nat) (p : Z) (q : list Z) : fres Z :=
  match n with
  | O => FOk 0
  | S n' =>
      get b := byte_at fdt p in
      let c := hd 0 q in
      if negb (b =? 0) && (b =? c) then strncmp_at n' (p + 1) (tail q) else FOk (b - c)
  end.

(** ** parse_visionfive2, in the order of its paragraphs *)
Fixpoint board_compatible (names : list (list Z)) : P unit :=
  match names with
  | [] => panic "platform: unsupported board compatible"
  | c :: names' => let! r := lift (fdt_node_check_compatible addr fdt 0 c) in if r =? 0 then ret tt else board_compatible names'
  end.
Definition boards : list (list Z) := map bytes_of_string ["starfive,visionfive-v2"; "starfive,visionfive-2-v1.3b"; "starfive,visionfive-2-v1.2a"]%string.

Definition parse_identity : P unit :=
  if negb (fdt_check_header addr fdt =? 0) then panic "platform: invalid DTB"
  else
    do! board_compatible boards;
    do! assign (set_pi_name (Some "starfive,jh7110-visionfive-2"%string));
    do! assign (set_kernel_base KERNBASE_VF2);
    do! assign (set_uses_sbi 1);
    assign (set_block_kind PLATFORM_BLOCK_JH7110_SD).

Definition parse_memory : P unit :=
  let! memory := lift (fdt_node_offset_by_prop_value addr fdt (-1) (bytes_of_string "device_type") (bytes_of_string "memory" ++ [0])) in
  let! '(base, memory_size) := node_reg memory in
  do! assign (set_ram_base base);
  do! assign (set_ram_end (u64 (base + memory_size)));
  let! a := gets active in
  if (pi_ram_end a <? pi_ram_base a) || (pi_ram_end a <=? end_) then panic "platform: invalid RAM range"
  else
    let! reservation_count := lift (fdt_num_mem_rsv fdt) in
    if reservation_count <? 0 then panic "platform: invalid DT reservation map"
    else
      do! each (seq 0 (Z.to_nat reservation_count)) (fun i =>
            let! r := lift (fdt_get_mem_rsv addr fdt (Z.of_nat i)) in
            match r with
            | inr _ => panic "platform: invalid DT reservation entry"
            | inl (start, size) => reserve_range start size
            end);
      do! parse_reserved_memory;
      let! a := gets active in
      let ram_cap := u64 (pi_ram_base a + 128 * 1024 * 1024) in
      do! when (ram_cap <? pi_ram_end a) (assign (set_ram_end ram_cap));
      let! a := gets active in
      if pi_ram_end a <=? PGROUNDUP end_ then panic "platform: no allocatable RAM after reservations" else ret tt.

(** Whether a node found by its path is the device that is expected there. *)
Definition expect_device (node : Z) (compatible : list Z) (msg : string) : P unit :=
  if node <? 0 then panic msg
  else let! c := lift (fdt_node_check_compatible addr fdt node compatible) in if c =? 0 then ret tt else panic msg.

Definition parse_devices : P unit :=
  let! uart := lift (fdt_path_offset addr fdt (bytes_of_string "/soc/serial@10000000")) in
  do! expect_device uart (bytes_of_string "snps,dw-apb-uart") "platform: unsupported console UART";
  let! '(base, _) := node_reg uart in
  do! assign (set_uart_base base);
  let! v := node_u32 uart (bytes_of_string "reg-shift") 0 in
  do! assign (set_uart_reg_shift v);
  let! v := node_u32 uart (bytes_of_string "reg-io-width") 1 in
  do! assign (set_uart_reg_width v);
  let! v := node_u32 uart (bytes_of_string "interrupts") 0 in
  do! assign (set_uart_irq v);
  let! plic := find_compatible (bytes_of_string "riscv,plic0") in
  let! '(base, _) := node_reg plic in
  do! assign (set_plic_base base);
  let! mmc := lift (fdt_path_offset addr fdt (bytes_of_string "/soc/sdio1@16020000")) in
  do! expect_device mmc (bytes_of_string "starfive,jh7110-sdio") "platform: SD controller missing";
  let! '(base, _) := node_reg mmc in
  do! assign (set_block_base base);
  let! v := node_u32 mmc (bytes_of_string "interrupts") 0 in
  assign (set_block_irq v).

(** hart_ids[hart_count++] = id *)
Definition add_hart (id : Z) : P unit :=
  let! a := gets active in
  if Z.of_nat NCPU <=? pi_hart_count a then panic "platform: too many harts"
  else
    do! assign (set_hart_ids (<[Z.to_nat (pi_hart_count a) := id]> (pi_hart_ids a)));
    assign (set_hart_count (pi_hart_count a + 1)).

Definition parse_cpu (cpu : Z) : P unit :=
  let! c := lift (fdt_node_check_compatible addr fdt cpu (bytes_of_string "sifive,u74-mc")) in
  if negb (c =? 0) then ret tt
  else
    let! reg := lift (fdt_getprop addr fdt cpu (bytes_of_string "reg")) in
    let! status := lift (fdt_getprop addr fdt cpu (bytes_of_string "status")) in
    match reg with
    | inr _ => ret tt
    | inl (reg, len) =>
        if len <? 4 then ret tt
        else
          let! bad := match status with inl (p, _) => let! c := lift (strncmp_at 5 p (bytes_of_string "okay")) in ret (negb (c =? 0)) | inr _ => ret false end in
          if bad then ret tt else let! id := lift (fdt32_ld_ fdt reg) in add_hart id
    end.

Definition parse_cpus : P unit :=
  let! cpus := lift (fdt_path_offset addr fdt (bytes_of_string "/cpus")) in
  let! v := node_u32 cpus (bytes_of_string "timebase-frequency") 0 in
  do! assign (set_timebase_frequency v);
  if v =? 0 then panic "platform: missing timebase-frequency"
  else
    do! for_each_subnode cpus parse_cpu;
    let! a := gets active in
    if negb (pi_hart_count a =? 4) then panic "platform: VisionFive 2 requires four U74 harts" else ret tt.

Definition probe_sbi : P unit :=
  each [SBI_EXT_TIME; SBI_EXT_IPI; SBI_EXT_RFENCE; SBI_EXT_HSM; SBI_EXT_SRST] (fun ext =>
    let! ok := sbi_probe_extension ext in if ok then ret tt else panic "platform: required SBI extension missing").

Definition parse_visionfive2 : P unit :=
  do! parse_identity; do! parse_memory; do! parse_devices; do! parse_cpus; probe_sbi.

(** ** The harts *)
Fixpoint cpu_index_loop (ids : list Z) (hartid i : Z) : Z :=
  match ids with [] => -1 | h :: ids' => if h =? hartid then i else cpu_index_loop ids' hartid (i + 1) end.
Definition platform_cpu_index (a : platform_info) (hartid : Z) : Z :=
  cpu_index_loop (take (Z.to_nat (pi_hart_count a)) (pi_hart_ids a)) hartid 0.
Definition platform_hartid (cpu_index : Z) : P Z :=
  let! a := gets active in
  if (cpu_index <? 0) || (pi_hart_count a <=? cpu_index) then panic "platform: invalid CPU index"
  else match pi_hart_ids a !! Z.to_nat cpu_index with Some h => ret h | None => fault "hart_ids out of range" end.

(** for (int i = boot_cpu; i > 0; i--) ids[i] = ids[i - 1] *)
Fixpoint shift_ids (i : nat) (ids : list Z) : list Z :=
  match i with O => ids | S i' => shift_ids i' (<[i := nth i' ids 0]> ids) end.
Definition rotate_harts (boot_cpu : nat) (ids : list Z) : list Z :=
  let boot := nth boot_cpu ids 0 in <[0%nat := boot]> (shift_ids boot_cpu ids).

Definition platform_early_init (hartid : Z) : P unit :=
  do! parse_visionfive2;
  let! a := gets active in
  let boot_cpu := platform_cpu_index a hartid in
  if boot_cpu <? 0 then panic "platform: firmware released an unlisted boot hart"
  else when (negb (boot_cpu =? 0)) (assign (set_hart_ids (rotate_harts (Z.to_nat boot_cpu) (pi_hart_ids a)))).

(** The same function built for qemu *)
Definition platform_early_init_qemu : P unit :=
  assign (fun _ => mkPlatform (Some "qemu-virt"%string) KERNBASE_QEMU KERNBASE_QEMU (KERNBASE_QEMU + 128 * 1024 * 1024) 0x10000000 0x0c000000 0x10001000
    0 1 10 1 10000000 ([0; 1; 2; 3] ++ replicate (NCPU - 4) 0) 4 0 PLATFORM_BLOCK_VIRTIO).

Definition platform_get : P platform_info :=
  let! a := gets active in match pi_name a with None => panic "platform: used before initialization" | Some _ => ret a end.

Definition platform_start_harts (entry : Z) : P unit :=
  let! a := gets active in
  if pi_uses_sbi a =? 0 then ret tt
  else
    each (seq 1 (Z.to_nat (pi_hart_count a) - 1)) (fun i =>
      match pi_hart_ids a !! i with
      | None => fault "hart_ids out of range"
      | Some h => let! r := sbi_hart_start h entry (Z.of_nat i) in if r =? 0 then ret tt else panic "platform: SBI hart_start failed"
      end).

(** The state in which the hart waits for good. *)
Definition platform_shutdown (s : pstate) : pstate :=
  if pi_uses_sbi (active s) =? 0 then s
  else mkP (active s) (sbi_calls s ++ [mkReq SBI_EXT_SRST 0 [0; 0; 0; 0; 0; 0]]) (stimecmp s).

(** Whether it returns, and the state in which it returns or waits. *)
Definition platform_set_timer (deadline : Z) (s : pstate) : bool * pstate :=
  if pi_uses_sbi (active s) =? 0 then (true, mkP (active s) (sbi_calls s) deadline)
  else match sbi_set_timer deadline s with
       | Ret r s' => if r =? 0 then (true, s') else (false, platform_shutdown s')
       | Panic _ s' | Swtch s' | Fault _ s' => (false, s')
       end.
End Platform.
