(* ===== verification/PlatformSpec.v ===== *)
(** * What the board's start-up establishes

    On every device tree the parser of Platform.v comes back or panics, without a read
    outside the blob; when it returns, the memory it leaves to the allocator is clear of
    every reservation of the tree, and the harts are numbered from the one that booted. *)

From stdpp Require Import base list numbers.
From S2P Require Import Prelude Params Fdt FdtSafe FdtTree Platform.

(** ** Running the parser: it may panic on any tree *)
Abbreviation prun := (runs True).

Lemma prun_lift {A} (m : fres A) s (R : A -> Prop) : ok m R -> prun (lift m) s (fun a s' => s' = s /\ R a /\ m = FOk a).
Proof. destruct m as [a| |]; [|done|done]. done. Qed.
Definition upd (f : platform_info -> platform_info) (s : pstate) : pstate := mkP (f (active s)) (sbi_calls s) (stimecmp s).
Lemma prun_assign {B} f (k : unit -> M pstate B) s Q : prun (k tt) (upd f s) Q -> prun (bind (assign f) k) s Q.
Proof. done. Qed.

(** The value a part of the parser computes, which leaves the state alone. *)
Definition reads {A} (m : M pstate A) (a : A) : Prop := forall s, m s = Ret a s.
#[local] Hint Resolve runs_panic : core.
Ltac pbind H := eapply runs_bind; [H|cbv beta].
Tactic Notation "plift" tactic3(L) "as" ident(v) ident(H) ident(E) := eapply runs_bind; [eapply prun_lift; L|cbv beta; intros v ? (-> & H & E)].

(** ** Reading nodes *)
Section Reader.
Context (addr : Z) (fdt : list Z) (end_ : Z) (firmware : list sbireq -> sbireq -> sbiret).
Abbreviation totalsize := (fdt_totalsize fdt).
Context (Hbytes : Forall is_byte fdt) (Hhdr : fdt_check_header addr fdt = 0) (Hlen : totalsize + 5 <= Z.of_nat (length fdt)).

Let HS : sane fdt := check_header_sane addr fdt Hbytes Hhdr.
Let Hlen1 : totalsize < Z.of_nat (length fdt).
Proof. lia. Qed.

Lemma lor_shift32 v c : 0 <= v < 2 ^ 32 -> 0 <= c < 2 ^ 32 -> 0 <= Z.lor (u64 (Z.shiftl v 32)) c < 2 ^ 64.
Proof.
  intros Hv Hc. apply lor_bound; [lia| |lia]. unfold u64. apply Z.mod_pos_bound. lia.
Qed.

Lemma read_cells_ok cells count s : 0 <= cells -> cells + 4 * count <= totalsize -> prun (read_cells fdt cells count) s (fun v s' => s' = s /\ 0 <= v < 2 ^ 64).
Proof.
  intros Hc Hl. unfold read_cells. destruct (Z.ltb_spec count 1); [done|]. destruct (Z.ltb_spec 2 count); [done|]. cbn [orb].
  assert (H32 : forall p, 0 <= p -> p + 4 <= totalsize -> ok (fdt32_ld_ fdt p) (fun v => 0 <= v < 2 ^ 32)) by (intros; apply ld32_ok; [done|lia|lia]).
  destruct (decide (count = 1)) as [->|]; [|replace count with 2 by lia]; cbn [Z.to_nat Pos.to_nat Pos.iter_op Nat.add read_cells_loop].
  - plift (apply H32; lia) as c Hv E. apply runs_ret. split; [done|]. apply lor_shift32; [lia|done].
  - plift (apply H32; lia) as c Hv E. plift (apply H32; lia) as c' Hv' E'. apply runs_ret. split; [done|]. apply lor_shift32; [|done]. by rewrite Z.lor_0_l.
Qed.

Definition in_blob (v : Z * Z + Z) : Prop := match v with inl (p, len) => 0 <= p /\ 0 <= len /\ p + len <= totalsize | inr e => e < 0 end.
Lemma prop_in off name : int_range off -> ok (fdt_getprop addr fdt off name) in_blob.
Proof. intros Hr. by apply getprop_ok. Qed.
Lemma first_cell_ok v fallback s : in_blob v -> 0 <= fallback < 2 ^ 32 -> prun (first_cell fdt v fallback) s (fun a s' => s' = s /\ 0 <= a < 2 ^ 32).
Proof.
  intros Hv Hf. unfold first_cell. destruct v as [[p len]|e]; [|by apply runs_ret]. cbn in Hv. destruct (Z.leb_spec 4 len); [|by apply runs_ret].
  eapply runs_mono; [apply prun_lift, ld32_ok; [done|lia|lia]|]. cbv beta. tauto.
Qed.

Lemma node_reg_ok node s : int_range node -> prun (node_reg addr fdt node) s (fun r s' => s' = s /\ 0 <= r.1 < 2 ^ 64 /\ 0 <= r.2 < 2 ^ 64).
Proof.
  intros Hn. unfold node_reg. plift (by apply parent_offset_ok) as parent Hp Ep. plift (by apply prop_in) as v1 Hv1 E1.
  pbind ltac:(apply first_cell_ok; [done|lia]). intros ac0 ? [-> _]. plift (by apply prop_in) as v2 Hv2 E2. pbind ltac:(apply first_cell_ok; [done|lia]). intros sc0 ? [-> _].
  set (ac := i32 ac0). set (sc := i32 sc0). plift (by apply prop_in) as v3 Hv3 E3. destruct v3 as [[reg len]|e]; [|done]. cbn in Hv3.
  destruct (Z.ltb_spec ac 1); [done|]. destruct (Z.ltb_spec 2 ac); [done|]. destruct (Z.ltb_spec sc 1); [done|]. destruct (Z.ltb_spec 2 sc); [done|]. destruct (Z.ltb_spec len ((ac + sc) * 4)); [done|]. cbn [orb].
  pbind ltac:(apply read_cells_ok; lia). intros size ? [-> Hsize]. pbind ltac:(apply read_cells_ok; lia). intros start ? [-> Hstart]. by apply runs_ret.
Qed.

(** ** Reservations *)
Abbreviation kernel_end := (PGROUNDUP end_).
(** The allocator's memory, from the end of the kernel to ram_end, is clear of a range. *)
Definition clear (start size : Z) (a : platform_info) : Prop := start + size <= kernel_end \/ pi_ram_end a <= start.
(** Only ram_end changes, and goes down. *)
Definition shrinks (s s' : pstate) : Prop := exists e, e <= pi_ram_end (active s) /\ s' = mkP (set_ram_end e (active s)) (sbi_calls s) (stimecmp s).

Lemma shrinks_refl s : shrinks s s.
Proof. exists (pi_ram_end (active s)). split; [lia|]. by destruct s as [[] ? ?]. Qed.
Lemma shrinks_trans s1 s2 s3 : shrinks s1 s2 -> shrinks s2 s3 -> shrinks s1 s3.
Proof. intros (e & He & ->) (e' & He' & ->). exists e'. split; [cbn in *; lia|]. by destruct s1 as [[] ? ?]. Qed.
Lemma clear_shrinks start size s s' : shrinks s s' -> clear start size (active s) -> clear start size (active s').
Proof. intros (e & He & ->) [H|H]; [by left|right; cbn; lia]. Qed.

Lemma reserve_range_ok start size s : 0 <= start < 2 ^ 64 -> 0 <= size < 2 ^ 64 ->
  prun (reserve_range end_ start size) s (fun _ s' => shrinks s s' /\ clear start size (active s')).
Proof.
  intros Hst Hsz. unfold reserve_range. destruct (Z.eqb_spec size 0); [done|]. destruct (Z.ltb_spec (u64 (start + size)) start) as [|Hw]; [done|]. cbn [orb].
  assert (Hsum : u64 (start + size) = start + size).
  { unfold u64 in *. destruct (decide (start + size < 2 ^ 64)); [by apply Z.mod_small; lia|]. rewrite <- (Z_mod_plus_full _ (-1)), Z.mod_small in Hw by lia. lia. }
  rewrite Hsum. destruct (Z.leb_spec start kernel_end) as [Hle|Hgt]; cbn [andb].
  - destruct (Z.ltb_spec kernel_end (start + size)); [done|]. unfold runs. rewrite bind_gets. destruct (Z.ltb_spec kernel_end start); [lia|]. split; [apply shrinks_refl|left; lia].
  - unfold runs. rewrite bind_gets. destruct (Z.ltb_spec kernel_end start); [|lia]. cbn [andb]. destruct (Z.ltb_spec start (pi_ram_end (active s))); cbn [when].
    + pose proof (PGROUNDDOWN_spec start) as [_ Hd]. split; [exists (PGROUNDDOWN start); split; [lia|done]|right; cbn; lia].
    + split; [apply shrinks_refl|right; lia].
Qed.

(** A loop whose body only lowers ram_end and establishes something that stays. *)
Definition steady (R : pstate -> Prop) : Prop := forall s s', shrinks s s' -> R s -> R s'.
Lemma each_shrinks {I} (xs : list I) (body : I -> M pstate unit) (R : I -> pstate -> Prop) s : (forall x, steady (R x)) ->
  (forall x s, x ∈ xs -> prun (body x) s (fun _ s' => shrinks s s' /\ R x s')) -> prun (each xs body) s (fun _ s' => shrinks s s' /\ forall x, x ∈ xs -> R x s').
Proof.
  intros HR. revert s. induction xs as [|x xs IH]; intros s Hb; cbn [each].
  { apply runs_ret. split; [apply shrinks_refl|]. intros x Hx. by apply not_elem_of_nil in Hx. }
  eapply runs_bind; [apply Hb; left|]. cbv beta. intros [] s1 [Hs1 HR1]. eapply runs_mono; [apply IH; intros; apply Hb; by right|]. cbv beta. intros _ s2 [Hs2 HR2].
  split; [by apply (shrinks_trans s s1)|]. intros y [->|Hy]%elem_of_cons; [by apply (HR x s1)|by apply HR2].
Qed.

(** The children fdt_for_each_subnode visits. *)
Inductive sibling (n : Z) : Z -> Prop :=
| sib_here : 0 <= n -> sibling n n
| sib_next c c' : sibling n c -> fdt_next_subnode fdt c = FOk c' -> 0 <= c' -> sibling n c'.
Definition subnode_of (parent c : Z) : Prop := exists n, fdt_first_subnode fdt parent = FOk n /\ sibling n c.

Lemma sibling_cons n c : sibling n c -> n = c \/ exists n', fdt_next_subnode fdt n = FOk n' /\ sibling n' c.
Proof.
  induction 1 as [|c c' Hc IH E Hc']; [by left|]. right. destruct IH as [<-|(n' & En & Hn)]; [exists c'; split; [done|by constructor]|]. exists n'. split; [done|]. by apply (sib_next n' c).
Qed.
Lemma sibling_nonneg n c : sibling n c -> 0 <= n.
Proof. induction 1; done. Qed.

Lemma each_subnode_ok (Inv : pstate -> pstate -> Prop) (R : Z -> pstate -> Prop) body : (forall s, Inv s s) -> (forall s1 s2 s3, Inv s1 s2 -> Inv s2 s3 -> Inv s1 s3) ->
  (forall c s s', Inv s s' -> R c s -> R c s') -> (forall c s, int_range c -> prun (body c) s (fun _ s' => Inv s s' /\ R c s')) ->
  forall fuel n s, int_range n -> fueled fdt fuel n -> prun (each_subnode fdt fuel n body) s (fun _ s' => Inv s s' /\ forall c, sibling n c -> R c s').
Proof.
  intros Hrefl Htrans HR Hb. induction fuel as [|fuel IH]; intros n s Hn Hf; [destruct Hf; lia|]. cbn [each_subnode]. destruct (Z.ltb_spec n 0) as [Hneg|Hpos].
  { apply runs_ret. split; [done|]. intros c Hc. apply sibling_nonneg in Hc. lia. }
  eapply runs_bind; [by apply Hb|]. cbv beta. intros [] s1 [Hs1 HR1]. plift (by apply next_subnode_ok) as n' Hn' En. 
  eapply runs_mono; [apply IH; [apply Hn'|by apply (fueled_step fdt fuel n)]|]. cbv beta. intros _ s2 [Hs2 HR2]. split; [by apply (Htrans s s1)|].
  intros c Hc. apply sibling_cons in Hc as [<-|(n2 & En2 & Hc)]; [by apply (HR n s1)|]. apply HR2. rewrite En in En2. by injection En2 as <-.
Qed.

Lemma for_each_subnode_ok (Inv : pstate -> pstate -> Prop) (R : Z -> pstate -> Prop) body parent s : (forall s, Inv s s) -> (forall s1 s2 s3, Inv s1 s2 -> Inv s2 s3 -> Inv s1 s3) ->
  (forall c s s', Inv s s' -> R c s -> R c s') -> (forall c s, int_range c -> prun (body c) s (fun _ s' => Inv s s' /\ R c s')) -> int_range parent ->
  prun (for_each_subnode fdt parent body) s (fun _ s' => Inv s s' /\ forall c, subnode_of parent c -> R c s').
Proof.
  intros Hrefl Htrans HR Hb Hp. unfold for_each_subnode. plift (by apply first_subnode_ok) as n Hn En. eapply runs_mono; [apply (each_subnode_ok Inv R); [done..|apply Hn|by apply fueled_init]|].
  cbv beta. intros _ s' [Hs' HR']. split; [done|]. intros c (n' & En' & Hc). apply HR'. rewrite En in En'. by injection En' as <-.
Qed.

(** ** The memory of the board *)
Inductive reserved : Z -> Z -> Prop :=
| reserved_entry n i start size : fdt_num_mem_rsv fdt = FOk n -> 0 <= i < n -> fdt_get_mem_rsv addr fdt i = FOk (inl (start, size)) -> reserved start size
| reserved_node r c start size : fdt_path_offset addr fdt (bytes_of_string "/reserved-memory") = FOk r -> 0 <= r -> subnode_of r c ->
    reads (reserved_child addr fdt c) (start, size) -> reserved start size.

Lemma reserved_child_ok c s : int_range c -> prun (reserved_child addr fdt c) s (fun r s' => s' = s /\ 0 <= r.1 < 2 ^ 64 /\ 0 <= r.2 < 2 ^ 64).
Proof.
  intros Hc. unfold reserved_child. plift (by apply prop_in) as v Hv E. destruct v as [v|e]; [by apply node_reg_ok|]. plift (by apply prop_in) as v1 Hv1 E1. plift (by apply prop_in) as v2 Hv2 E2.
  destruct v1 as [[p1 l1]|e1]; [|done]. destruct v2 as [[p2 l2]|e2]; [|done]. cbn in Hv1, Hv2. destruct (Z.eqb_spec l1 8); cbn [negb orb]; [|done]. destruct (Z.ltb_spec l2 16); [done|].
  pbind ltac:(apply read_cells_ok; lia). intros start ? [-> Hstart]. pbind ltac:(apply read_cells_ok; lia). intros size ? [-> Hsize]. by apply runs_ret.
Qed.

Lemma parse_reserved_memory_ok s : prun (parse_reserved_memory addr fdt end_) s (fun _ s' => shrinks s s' /\
  forall r c start size, fdt_path_offset addr fdt (bytes_of_string "/reserved-memory") = FOk r -> 0 <= r -> subnode_of r c -> reads (reserved_child addr fdt c) (start, size) -> clear start size (active s')).
Proof.
  unfold parse_reserved_memory. plift (by apply path_offset_ok) as r Hr Er. destruct (Z.ltb_spec r 0) as [Hneg|Hpos].
  { apply runs_ret. split; [apply shrinks_refl|]. intros r' c st sz E H0. rewrite Er in E. injection E as <-. lia. }
  eapply runs_mono; [apply (for_each_subnode_ok shrinks (fun c s => forall st sz, reads (reserved_child addr fdt c) (st, sz) -> clear st sz (active s))); [exact shrinks_refl|exact shrinks_trans| | |done]|].
  - intros c s1 s2 H12 HR st sz Hrd. apply (clear_shrinks _ _ s1); [done|by apply HR].
  - intros c s1 Hc. pose proof (reserved_child_ok c s1 Hc) as H. unfold runs, bind in *. destruct (reserved_child addr fdt c s1) as [[st sz] s2| | |] eqn:Ec; [|done|done|done]. destruct H as (-> & H1 & H2).
    pose proof (reserve_range_ok st sz s1 H1 H2) as H. unfold runs in H. destruct (reserve_range end_ st sz s1); [|done|done|done]. destruct H as [H3 H4]. split; [done|]. intros st' sz' Hrd. rewrite (Hrd s1) in Ec. by injection Ec as <- <-.
  - cbv beta. intros _ s' [Hs' HR]. split; [done|]. intros r' c st sz E H0 Hc Hrd. rewrite Er in E. injection E as <-. by apply (HR c).
Qed.

Definition memory_ok (a : platform_info) : Prop :=
  kernel_end < pi_ram_end a <= u64 (pi_ram_base a + 128 * 1024 * 1024) /\ forall start size, reserved start size -> clear start size a.
(** What the parsing of the memory, and then of the devices, leaves alone. *)
Definition harts_of (a : platform_info) := (pi_name a, pi_hart_ids a, pi_hart_count a, pi_uses_sbi a).
Definition memory_of (a : platform_info) := (pi_ram_base a, pi_ram_end a).

Lemma shrinks_harts s s' : shrinks s s' -> harts_of (active s') = harts_of (active s) /\ pi_ram_base (active s') = pi_ram_base (active s).
Proof. intros (e & _ & ->). done. Qed.

Lemma reservations_ok n s : fdt_num_mem_rsv fdt = FOk n ->
  prun (each (seq 0 (Z.to_nat n)) (fun i =>
            let! r := lift (fdt_get_mem_rsv addr fdt (Z.of_nat i)) in
            match r with
            | inr _ => panic "platform: invalid DT reservation entry"
            | inl (start, size) => reserve_range end_ start size
            end)) s (fun _ s' => shrinks s s' /\ forall i start size, 0 <= i < n -> fdt_get_mem_rsv addr fdt i = FOk (inl (start, size)) -> clear start size (active s')).
Proof.
  intros En. eapply runs_mono; [apply (each_shrinks _ _ (fun i s => forall st sz, fdt_get_mem_rsv addr fdt (Z.of_nat i) = FOk (inl (st, sz)) -> clear st sz (active s)))|].
  - intros i s1 s2 H12 HR st sz E. apply (clear_shrinks _ _ s1); [done|by apply HR].
  - intros i s1 Hi. apply elem_of_seq in Hi. pose proof (num_mem_rsv_ok fdt Hbytes HS Hlen1) as Hn. rewrite En in Hn. cbn in Hn.
    plift (apply get_mem_rsv_ok; [done|done|done|lia]) as r Hr Er. destruct r as [[st sz]|e]; [|done]. destruct Hr as [H1 H2]. eapply runs_mono; [by apply reserve_range_ok|]. cbv beta. intros _ s2 [H3 H4].
    split; [done|]. intros st' sz' E. rewrite Er in E. by injection E as <- <-.
  - cbv beta. intros _ s' [Hs HR]. split; [done|]. intros i st sz Hi E. apply (HR (Z.to_nat i)); [apply elem_of_seq; lia|]. by rewrite Z2Nat.id by lia.
Qed.

Lemma parse_memory_ok s : prun (parse_memory addr fdt end_) s (fun _ s' => memory_ok (active s') /\ harts_of (active s') = harts_of (active s)).
Proof.
  unfold parse_memory. plift (apply node_by_prop_value_ok; [done|done|done|unfold int_range; lia]) as mem Hm Em. pbind ltac:(by apply node_reg_ok). intros [base sz] ? (-> & Hb & Hsz).
  apply prun_assign, prun_assign, runs_gets. set (s0 := upd _ _). destruct (_ || _); [done|].
  plift (by apply num_mem_rsv_ok) as n Hn En. destruct (n <? 0); [done|]. eapply runs_bind; [by apply reservations_ok|]. cbv beta. intros _ s1 [Hs1 HR1].
  eapply runs_bind; [apply parse_reserved_memory_ok|]. cbv beta. intros _ s2 [Hs2 HR2]. pose proof (shrinks_trans _ _ _ Hs1 Hs2) as Hs. apply runs_gets.
  set (cap := u64 (pi_ram_base (active s2) + 128 * 1024 * 1024)).
  assert (Hcap : exists s3, when (cap <? pi_ram_end (active s2)) (assign (set_ram_end cap)) s2 = Ret tt s3 /\ shrinks s2 s3 /\ pi_ram_end (active s3) <= cap).
  { destruct (Z.ltb_spec cap (pi_ram_end (active s2))); cbn [when]; [|exists s2; split_and!; [done|apply shrinks_refl|done]]. eexists. split; [done|]. split; [exists cap; split; [lia|done]|cbn; lia]. }
  destruct Hcap as (s3 & E3 & Hs3 & Hc3). unfold runs. rewrite (bind_Ret _ _ _ _ _ E3), bind_gets. destruct (Z.leb_spec (pi_ram_end (active s3)) kernel_end); [done|].
  destruct (shrinks_harts _ _ (shrinks_trans _ _ _ Hs Hs3)) as [Hh Hbase]. destruct (shrinks_harts _ _ Hs3) as [_ Hb3]. split; [|by rewrite Hh].
  split; [rewrite Hb3; lia|]. intros st sz' Hr. apply (clear_shrinks _ _ s2); [done|]. destruct Hr as [n' i st sz' En' Hi Ei|r c st sz' Er H0 Hc Hrd].
  - apply (clear_shrinks _ _ s1); [done|]. rewrite En in En'. injection En' as <-. by apply (HR1 i).
  - by apply (HR2 r c).
Qed.

(** ** The devices *)
Definition keeps (s s' : pstate) : Prop := harts_of (active s') = harts_of (active s) /\ memory_of (active s') = memory_of (active s).
Lemma node_u32_ok node name fallback s : int_range node -> 0 <= fallback < 2 ^ 32 -> prun (node_u32 addr fdt node name fallback) s (fun v s' => s' = s /\ 0 <= v < 2 ^ 32).
Proof. intros Hn Hf. unfold node_u32. plift (by apply prop_in) as v Hv E. by apply first_cell_ok. Qed.
Lemma compatible_ok node str : int_range node -> ok (fdt_node_check_compatible addr fdt node str) (fun _ => True).
Proof. intros Hn. by apply check_compatible_ok. Qed.
Lemma expect_device_ok node c msg s : int_range node -> prun (expect_device addr fdt node c msg) s (fun _ s' => s' = s).
Proof. intros Hn. unfold expect_device. destruct (node <? 0); [done|]. plift (by apply compatible_ok) as v Hv E. by destruct (v =? 0). Qed.
Lemma find_compatible_ok c s : prun (find_compatible addr fdt c) s (fun v s' => s' = s /\ int_range v).
Proof.
  unfold find_compatible. enough (H : forall fuel o, int_range o -> -1 <= o <= totalsize -> totalsize - o + 1 < Z.of_nat fuel -> prun (find_compatible_loop addr fdt fuel o c) s (fun v s' => s' = s /\ int_range v)).
  { pose proof (sn_total fdt HS). apply H; [unfold int_range; lia|lia|unfold fuel_; lia]. }
  pose proof (sn_total fdt HS). induction fuel as [|fuel IH]; intros o Ho H1 Hf; [lia|].
  cbn [find_compatible_loop]. plift (by apply next_node_ok) as nd Hnd End_. destruct nd as [n d]. cbn [fst] in Hnd. destruct Hnd as [Hn1 Hn2]. destruct (Z.ltb_spec n 0); [done|].
  plift (by apply compatible_ok) as v Hv Ev. destruct (v =? 0); [by apply runs_ret|]. apply IH; [done|lia|lia].
Qed.

Ltac pread L := eapply runs_bind; [apply L; first [done | unfold int_range; lia | lia]|cbv beta; intros ? ? [-> ?]].
Lemma parse_devices_ok s : prun (parse_devices addr fdt) s (fun _ s' => keeps s s').
Proof.
  unfold parse_devices. plift (by apply path_offset_ok) as uart Hu Eu. pbind ltac:(by apply expect_device_ok). intros _ ? ->.
  pread node_reg_ok. destruct a as [ubase ?]. apply prun_assign. do 3 (pread node_u32_ok; apply prun_assign). pread find_compatible_ok. pread node_reg_ok. destruct a3 as [pbase ?]. apply prun_assign.
  plift (by apply path_offset_ok) as mmc Hmmc Em. pbind ltac:(by apply expect_device_ok). intros _ ? ->. pread node_reg_ok. destruct a3 as [mbase ?]. apply prun_assign. pread node_u32_ok. done.
Qed.

(** ** The harts *)
Definition harts_ok (a : platform_info) : Prop := length (pi_hart_ids a) = NCPU /\ 0 <= pi_hart_count a <= Z.of_nat NCPU.
Definition cpu_step (s s' : pstate) : Prop := memory_of (active s') = memory_of (active s) /\ pi_name (active s') = pi_name (active s) /\ pi_uses_sbi (active s') = pi_uses_sbi (active s) /\
  (harts_ok (active s) -> harts_ok (active s')).
Lemma cpu_step_refl s : cpu_step s s.
Proof. done. Qed.
Lemma cpu_step_trans s1 s2 s3 : cpu_step s1 s2 -> cpu_step s2 s3 -> cpu_step s1 s3.
Proof. intros (H1 & H2 & H3 & H4) (H5 & H6 & H7 & H8). split_and!; [congruence..|auto]. Qed.

Lemma add_hart_ok id s : prun (add_hart id) s (fun _ s' => cpu_step s s').
Proof.
  unfold add_hart. apply runs_gets. destruct (Z.leb_spec (Z.of_nat NCPU) (pi_hart_count (active s))); [done|]. apply prun_assign. split_and!; [done..|]. intros [H1 H2]. split; cbn; [by rewrite length_insert|lia].
Qed.

Lemma strncmp_at_ok n : forall p q, 0 <= p -> p + Z.of_nat n <= Z.of_nat (length fdt) -> ok (strncmp_at fdt n p q) (fun _ => True).
Proof.
  induction n as [|n IH]; intros p q Hp Hl; [done|]. cbn [strncmp_at]. eapply ok_bind; [apply byte_ok; [done|lia]|]. intros b _. cbv zeta. destruct (_ && _); [|done]. apply IH; lia.
Qed.

Lemma parse_cpu_ok cpu s : int_range cpu -> prun (parse_cpu addr fdt cpu) s (fun _ s' => cpu_step s s' /\ True).
Proof.
  intros Hc. unfold parse_cpu. plift (by apply compatible_ok) as c Hcc Ec. destruct (negb (c =? 0)); [by apply runs_ret|]. plift (by apply prop_in) as reg Hreg Ereg. plift (by apply prop_in) as st Hst Est.
  destruct reg as [[reg len]|e]; [|by apply runs_ret]. cbn in Hreg. destruct (Z.ltb_spec len 4); [by apply runs_ret|].
  eapply (runs_bind _ _ _ _ (fun _ s' => s' = s)).
  { destruct st as [[p l]|e]; [|by apply runs_ret]. cbn in Hst. plift (apply strncmp_at_ok; lia) as v Hv Ev. done. }
  intros [] ? ->; [by apply runs_ret|]. plift (apply ld32_ok; [done|lia|lia]) as id Hid Eid. eapply runs_mono; [apply add_hart_ok|done].
Qed.

Lemma parse_cpus_ok s : prun (parse_cpus addr fdt) s (fun _ s' => cpu_step s s' /\ pi_hart_count (active s') = 4).
Proof.
  unfold parse_cpus. plift (by apply path_offset_ok) as cpus Hc Ec. pread node_u32_ok. apply prun_assign. destruct (a =? 0); [done|].
  eapply runs_bind; [apply (for_each_subnode_ok cpu_step (fun _ _ => True)); [exact cpu_step_refl|exact cpu_step_trans|done|exact parse_cpu_ok|done]|]. cbv beta. intros _ s1 [H1 _]. apply runs_gets.
  destruct (Z.eqb_spec (pi_hart_count (active s1)) 4); [|done]. apply runs_ret. split; [|done]. by apply (cpu_step_trans s (upd (set_timebase_frequency a) s)).
Qed.

Lemma probe_sbi_ok s : prun (probe_sbi firmware) s (fun _ s' => active s' = active s).
Proof.
  unfold probe_sbi. generalize [SBI_EXT_TIME; SBI_EXT_IPI; SBI_EXT_RFENCE; SBI_EXT_HSM; SBI_EXT_SRST]. intros l. revert s. induction l as [|x l IH]; intros s; [done|]. cbn [each].
  eapply (runs_bind _ _ _ _ (fun _ s' => active s' = active s)).
  - unfold runs, sbi_probe_extension, sbi_call, bind, ret. by destruct (_ && _).
  - intros _ s1 H1. eapply runs_mono; [apply IH|]. cbv beta. intros _ s2 H2. congruence.
Qed.

Lemma board_ok l s : prun (board_compatible addr fdt l) s (fun _ s' => s' = s).
Proof. induction l as [|c l IH]; [done|]. cbn [board_compatible]. plift (apply compatible_ok; unfold int_range; lia) as v Hv Ev. by destruct (v =? 0). Qed.

Definition board (a : platform_info) : Prop := memory_ok a /\ harts_ok a /\ pi_hart_count a = 4 /\ pi_uses_sbi a = 1 /\ pi_name a <> None.
Lemma memory_ok_of a a' : memory_of a' = memory_of a -> memory_ok a -> memory_ok a'.
Proof. unfold memory_of, memory_ok, clear. intros [= -> ->]. done. Qed.

Lemma parse_ok s : active s = zero_platform -> prun (parse_visionfive2 addr fdt end_ firmware) s (fun _ s' => board (active s')).
Proof.
  intros Hz. unfold parse_visionfive2.
  eapply (runs_bind _ _ _ _ (fun _ s' => exists n, harts_of (active s') = (Some n, replicate NCPU 0, 0, 1))).
  { unfold parse_identity. rewrite Hhdr. cbn [Z.eqb negb]. pbind ltac:(by apply board_ok). intros _ ? ->. do 3 apply prun_assign. eexists. unfold upd. cbn. by rewrite Hz. }
  intros _ s1 [n H1]. pbind ltac:(apply parse_memory_ok). intros _ s2 [Hm2 Hh2]. pbind ltac:(apply parse_devices_ok). intros _ s3 [Hh3 Hm3]. pbind ltac:(apply parse_cpus_ok). intros _ s4 [(Hm4 & Hn4 & Hu4 & Hh4) Hc4].
  eapply runs_mono; [apply probe_sbi_ok|]. cbv beta. intros _ s5 ->. assert (Hh : harts_of (active s3) = (Some n, replicate NCPU 0, 0, 1)) by congruence. unfold harts_of in Hh. injection Hh as E1 E2 E3 E4. split_and!.
  - apply (memory_ok_of (active s3)); [done|]. by apply (memory_ok_of (active s2)).
  - apply Hh4. split; [by rewrite E2|rewrite E3; done].
  - done.
  - congruence.
  - congruence.
Qed.
End Reader.

(** ** The order of the harts *)
Lemma shift_ids_spec i : forall ids, (i < length ids)%nat -> shift_ids i ids = take 1 ids ++ take i ids ++ drop (S i) ids.
Proof.
  induction i as [|i IH]; intros ids Hi; cbn [shift_ids].
  { destruct ids; [cbn in Hi; lia|done]. }
  rewrite IH by (rewrite length_insert; lia). destruct ids as [|x ids]; [cbn in Hi; lia|]. rewrite !take_insert_ge by lia. change (<[S i:=nth i (x :: ids) 0]> (x :: ids)) with (x :: <[i:=nth i (x :: ids) 0]> ids).
  cbn [drop].
  cbn [length] in Hi. assert (Hd : drop i (<[i:=nth i (x :: ids) 0]> ids) = nth i (x :: ids) 0 :: drop (S i) ids).
  { rewrite (drop_S _ (nth i (x :: ids) 0)) by (apply list_lookup_insert_eq; lia). f_equal. by rewrite drop_insert_lt by lia. }
  rewrite Hd, (take_S_r (x :: ids) i (nth i (x :: ids) 0)), <- app_assoc; [done|]. destruct (nth_lookup_or_length (x :: ids) i 0) as [E|E]; [exact E|cbn [length] in E; lia].
Qed.

Lemma rotate_harts_spec k h ids : ids !! k = Some h -> rotate_harts k ids = h :: take k ids ++ drop (S k) ids.
Proof.
  intros Hk. pose proof (lookup_lt_Some _ _ _ Hk) as Hl. unfold rotate_harts. rewrite shift_ids_spec by done. rewrite (nth_lookup_Some _ _ _ _ Hk). destruct ids as [|x ids]; [done|]. done.
Qed.

Lemma cpu_index_hit ids h : forall i, 0 <= i -> 0 <= cpu_index_loop ids h i -> exists k, cpu_index_loop ids h i = i + Z.of_nat k /\ ids !! k = Some h.
Proof.
  induction ids as [|x ids IH]; intros i Hi H; cbn [cpu_index_loop] in *; [lia|]. destruct (Z.eqb_spec x h) as [->|]; [exists 0%nat; split; [lia|done]|].
  destruct (IH (i + 1) ltac:(lia) H) as (k & -> & Hk). exists (S k). split; [lia|done].
Qed.
Lemma cpu_index_nodup ids h k : NoDup ids -> ids !! k = Some h -> forall i, cpu_index_loop ids h i = i + Z.of_nat k.
Proof.
  intros Hnd. revert k. induction Hnd as [|x ids Hx Hnd IH]; intros k Hk i; [done|]. cbn [cpu_index_loop]. destruct k as [|k]; cbn in Hk.
  - injection Hk as ->. rewrite Z.eqb_refl. lia.
  - destruct (Z.eqb_spec x h) as [->|]; [by apply list_elem_of_lookup_2 in Hk|]. rewrite (IH k) by done. lia.
Qed.

(** What platform_early_init does with the harts that were found. *)
Lemma early_init_harts addr fdt end_ firmware h s s1 s2 : parse_visionfive2 addr fdt end_ firmware s = Ret tt s1 -> harts_ok (active s1) -> pi_hart_count (active s1) = 4 ->
  platform_early_init addr fdt end_ firmware h s = Ret tt s2 ->
  exists before after, take 4 (pi_hart_ids (active s1)) = before ++ h :: after /\ take 4 (pi_hart_ids (active s2)) = h :: before ++ after /\
    s2 = upd (set_hart_ids (pi_hart_ids (active s2))) s1 /\ harts_ok (active s2).
Proof.
  intros E1 [Hl _] Hc E2. unfold platform_early_init in E2. rewrite (bind_Ret _ _ _ _ _ E1), bind_gets in E2. unfold platform_cpu_index in E2. rewrite Hc in E2. change (Z.to_nat 4) with 4%nat in E2.
  set (ids := pi_hart_ids (active s1)) in *. destruct (Z.ltb_spec (cpu_index_loop (take 4 ids) h 0) 0) as [|Hi]; [done|]. destruct (cpu_index_hit _ _ 0 ltac:(lia) Hi) as (k & Ek & Hk). rewrite Ek, Z.add_0_l in E2.
  pose proof (lookup_lt_Some _ _ _ Hk) as Hk4. rewrite length_take in Hk4. exists (take k (take 4 ids)), (drop (S k) (take 4 ids)). split; [by rewrite take_drop_middle|].
  assert (Hids : pi_hart_ids (active s2) = h :: take k ids ++ drop (S k) ids /\ s2 = upd (set_hart_ids (pi_hart_ids (active s2))) s1).
  { rewrite lookup_take_lt in Hk by lia. destruct (Z.eqb_spec (Z.of_nat k) 0) as [Hk0|Hk0]; cbn [negb when] in E2; injection E2 as <-.
    - assert (k = 0%nat) as -> by lia. split; [|by destruct s1 as [[] ? ?]]. fold ids. destruct ids; [done|]. cbn in Hk. by injection Hk as ->.
    - split; [|done]. change (rotate_harts (Z.to_nat (Z.of_nat k)) ids = h :: take k ids ++ drop (S k) ids). rewrite Nat2Z.id. by apply rotate_harts_spec. }
  destruct Hids as [Hids Hs2]. split; [|split; [done|]].
  - rewrite Hids. cbn [take]. f_equal. rewrite take_app, length_take, take_take. replace (Nat.min 3 k) with (Nat.min k 4) by lia. rewrite <- take_take. f_equal. rewrite skipn_firstn_comm. f_equal. lia.
  - split; [|by rewrite Hs2; cbn; rewrite Hc]. rewrite Hids. cbn [length]. rewrite length_app, length_take, length_drop. unfold NCPU in *. fold ids in Hl. lia.
Qed.

(** The HSM call that starts a hart with its logical number. *)
Definition start_req (entry : Z) (i : nat) (hart : Z) : sbireq := mkReq SBI_EXT_HSM 0 [hart; entry; Z.of_nat i; 0; 0; 0].

Lemma start_harts_ok firmware entry s h others : take 4 (pi_hart_ids (active s)) = h :: others -> length others = 3%nat -> pi_hart_count (active s) = 4 -> pi_uses_sbi (active s) = 1 ->
  prun (platform_start_harts firmware entry) s (fun _ s' => active s' = active s /\ sbi_calls s' = sbi_calls s ++ imap (fun i x => start_req entry (S i) x) others).
Proof.
  intros Ht Hlen Hc Hu. unfold platform_start_harts. apply runs_gets. rewrite Hu, Hc. cbn [Z.eqb]. change (Z.to_nat 4 - 1)%nat with 3%nat.
  destruct others as [|a [|b [|c [|]]]]; try done. destruct (pi_hart_ids (active s)) as [|x0 [|x1 [|x2 [|x3 l]]]]; try done. injection Ht as -> -> -> ->. cbn [seq each].
  assert (Hstep : forall i x s1, active s1 = active s -> prun (let! r := sbi_hart_start firmware x entry (Z.of_nat i) in if r =? 0 then ret tt else panic "platform: SBI hart_start failed") s1
    (fun _ s' => active s' = active s /\ sbi_calls s' = sbi_calls s1 ++ [start_req entry i x])).
  { intros i x s1 H1. unfold runs, sbi_hart_start, sbi_call, bind, ret. by destruct (_ =? 0). }
  eapply runs_bind; [by apply (Hstep 1%nat)|]. cbv beta. intros _ s1 [Ha1 Hs1]. eapply runs_bind; [by apply (Hstep 2%nat)|]. cbv beta. intros _ s2 [Ha2 Hs2]. eapply runs_bind; [by apply (Hstep 3%nat)|]. cbv beta. intros _ s3 [Ha3 Hs3].
  apply runs_ret. split; [done|]. rewrite Hs3, Hs2, Hs1, <- !app_assoc. done.
Qed.



(** ** A board *)
Definition prop_names : list string := ["compatible"; "reg"; "#address-cells"; "#size-cells"; "device_type"; "status"; "size"; "alloc-ranges"; "reg-shift"; "interrupts"; "timebase-frequency"]%string.
Fixpoint name_off (ns : list string) (n : string) : Z :=
  match ns with [] => 0 | m :: ns' => if String.eqb m n then 0 else Z.of_nat (length (bytes_of_string m)) + 1 + name_off ns' n end.
Definition pr (n : string) (v : list Z) : dprop := mkDprop (name_off prop_names n) (bytes_of_string n) v.
Definition cells (l : list Z) : list Z := concat (map be32b l).
Definition st (s : string) : list Z := bytes_of_string s ++ [0].
Definition nd (n : string) (ps : list dprop) (cs : list dtree) : dtree := DNode (bytes_of_string n) ps cs.
Definition wide : list dprop := [pr "#address-cells" (cells [2]); pr "#size-cells" (cells [2])].
Definition cpu_node (n : string) (core : string) (id : Z) (status : string) : dtree := nd n [pr "compatible" (st core ++ st "riscv"); pr "reg" (cells [id]); pr "status" (st status)] [].
Definition vf2_tree : dtree :=
  nd "" (wide ++ [pr "compatible" (st "starfive,visionfive-2-v1.3b" ++ st "starfive,jh7110")])
    [nd "cpus" [pr "timebase-frequency" (cells [4000000])]
       [cpu_node "cpu@0" "sifive,s7" 0 "disabled"; cpu_node "cpu@1" "sifive,u74-mc" 1 "okay"; cpu_node "cpu@2" "sifive,u74-mc" 2 "okay"; cpu_node "cpu@3" "sifive,u74-mc" 3 "okay"; cpu_node "cpu@4" "sifive,u74-mc" 4 "okay"];
     nd "memory@40000000" [pr "device_type" (st "memory"); pr "reg" (cells [0; 0x40000000; 1; 0])] [];
     nd "reserved-memory" wide
       [nd "mmode@40000000" [pr "reg" (cells [0; 0x40000000; 0; 0x80000])] []; nd "linux,cma" [pr "size" (cells [0; 0x1000000]); pr "alloc-ranges" (cells [0; 0x44000000; 0; 0x2000000])] []];
     nd "soc" wide
       [nd "serial@10000000" [pr "compatible" (st "snps,dw-apb-uart"); pr "reg" (cells [0; 0x10000000; 0; 0x10000]); pr "reg-shift" (cells [2]); pr "interrupts" (cells [32])] [];
        nd "plic@c000000" [pr "compatible" (st "riscv,plic0"); pr "reg" (cells [0; 0xc000000; 0; 0x4000000])] [];
        nd "sdio1@16020000" [pr "compatible" (st "starfive,jh7110-sdio"); pr "reg" (cells [0; 0x16020000; 0; 0x10000]); pr "interrupts" (cells [75])] []]].
Definition vf2_blob : list Z := Eval vm_compute in dtb vf2_tree (cells [0; 0x40000000; 0; 0x200000; 0; 0; 0; 0]) (concat (map st prop_names)) ++ replicate 5 0.
Definition fw_yes (calls : list sbireq) (rq : sbireq) : sbiret := mkSbiret 0 (if rq_ext rq =? SBI_EXT_BASE then 1 else 0).
Definition reset_state : pstate := mkP zero_platform [] 0.
Abbreviation vf2_init h := (platform_early_init 0x46000000 vf2_blob 0x40312345 fw_yes h).
Abbreviation vf2_run h := (vf2_init h reset_state).
Abbreviation vf2_parse := (parse_visionfive2 0x46000000 vf2_blob 0x40312345 fw_yes).
Definition state_of {A} (o : outcome pstate A) : pstate := match o with Ret _ s | Panic _ s | Swtch s | Fault _ s => s end.

Lemma vf2_bytes : Forall is_byte vf2_blob.
Proof. apply (bool_decide_unpack _). by vm_compute. Qed.

Definition vf2_parsed : pstate := Eval vm_compute in state_of (vf2_parse reset_state).
Lemma vf2_parses : vf2_parse reset_state = Ret tt vf2_parsed.
Proof. vm_compute. reflexivity. Qed.
Definition vf2_booted : pstate := upd (set_hart_ids (rotate_harts 2 (pi_hart_ids (active vf2_parsed)))) vf2_parsed.
Lemma vf2_returns : vf2_run 3 = Ret tt vf2_booted.
Proof. unfold platform_early_init. rewrite (bind_Ret _ _ _ _ _ vf2_parses). reflexivity. Qed.

(** The board boots on hart 3: the pool of the allocator ends below the dynamic
    reservation, and hart 3 comes first. *)
Example vf2_boots : pi_ram_end (active vf2_booted) = 0x44000000 /\ take 4 (pi_hart_ids (active vf2_booted)) = [3; 1; 2; 4].
Proof. done. Qed.
Lemma vf2_fits : fdt_totalsize vf2_blob + 5 <= Z.of_nat (length vf2_blob).
Proof. by vm_compute. Qed.
(** The first entry of the reservation map. *)
Lemma vf2_reserved : reserved 0x46000000 vf2_blob 0x40000000 0x200000.
Proof. apply (reserved_entry _ _ 1 0); [by vm_compute|lia|by vm_compute]. Qed.



(** A reservation that lies inside the kernel image passes: only its relation to
    the end of the kernel is looked at. *)
Example reserve_range_inside_kernel : reserve_range 0x40312345 KERNBASE_VF2 0x1000 reset_state = Ret tt reset_state.
Proof. by vm_compute. Qed.
