(* ===== verification/Smp.v ===== *)
(** * Harts that share memory (platform/visionfive2/kernel/spinlock.c, proc.c)

    The kernel of the VisionFive2 port runs on several harts at once.  Here its locks,
    scheduler, sleep and wakeup are a transition system: the state holds what the C code
    keeps in memory and in the registers of each hart, a thread (the kernel thread of a
    process, or the scheduler loop of a hart) is the list of what it still has to do, and
    one step is one access to shared memory by one hart, or an interrupt.  A call
    ([Sleep], [Wakeup], ...) is replaced by the accesses of its C function when it is
    reached.  A hart that panics makes no more steps; the others go on.

    The bodies of system calls and device drivers are arbitrary lists of calls.  The set
    [held] is a history variable: the locks whose swap succeeded on the hart and whose
    release has not been stored yet.  No step depends on it. *)

From stdpp Require Import base functions gmap sets list.
From S2P Require Import Prelude.

Definition SMP_NPROC : nat := 64.
Definition SMP_NCPU : nat := 8.

(** Spinlocks: the lock of a process, or any other lock of the kernel. *)
Inductive splock : Type := LProc (p : nat) | LCond (l : nat).
#[global] Instance splock_eq_dec : EqDecision splock.
Proof. solve_decision. Defined.
#[global] Instance splock_countable : Countable splock.
Proof.
  refine (inj_countable' (fun l => match l with LProc p => inl p | LCond l => inr l end) (fun x => match x with inl p => LProc p | inr l => LCond l end) _).
  by intros [].
Defined.

Inductive smp_procstate : Type := UNUSED | USED | SLEEPING | RUNNABLE | RUNNING | ZOMBIE.
#[global] Instance smp_state_eq_dec : EqDecision smp_procstate.
Proof. solve_decision. Defined.
Inductive thread : Type := TSched (h : nat) | TProc (p : nat).
#[global] Instance thread_eq_dec : EqDecision thread.
Proof. solve_decision. Defined.

(** What a thread has still to do: calls, and the accesses inside a call. *)
Inductive item : Type :=
| Acquire (lk : splock) | AcqCheck (lk : splock) | AcqSwap (lk : splock) | AcqCpu (lk : splock)
| Release (lk : splock) | RelClear (lk : splock) | RelStore (lk : splock) | PopOff
| SetChan (p : nat) (c : option Z) | SetState (p : nat) (st : smp_procstate)
| Sched (p : nat) | Restore (intena : bool)
| Sleep (c : Z) (l : nat) | Yield | Exit (cs : list Z) | Kill (q : nat) | DoKill (q : nat)
| Wakeup (c : Z) | WakeOne (q : nat) (c : Z) | Wake (q : nat) (c : Z)
| IntrOn | IntrOff | Try (p : nat) | Dispatch (p : nat) | ClearProc | Loop
| Sret | Halt.

(** struct cpu and the interrupt-enable bit, with the thread the hart runs *)
Record hart_st : Type := mkHart { intr : bool; noff : nat; intena : bool; cproc : option nat; cur : thread; held : gset splock }.
Record splock_st : Type := mkSplock { locked : bool; lcpu : option nat }.
Record proc_st : Type := mkProcst { pst : smp_procstate; pchan : option Z; pkilled : bool }.
Record smp : Type := mkSmp { harts : nat -> hart_st; locks : splock -> splock_st; procs : nat -> proc_st; code : thread -> list item }.

Definition set_hart (h : nat) (H : hart_st) (s : smp) : smp := mkSmp (<[h := H]> (harts s)) (locks s) (procs s) (code s).
Definition set_lock (lk : splock) (v : splock_st) (s : smp) : smp := mkSmp (harts s) (<[lk := v]> (locks s)) (procs s) (code s).
Definition set_procst (p : nat) (v : proc_st) (s : smp) : smp := mkSmp (harts s) (locks s) (<[p := v]> (procs s)) (code s).
Definition set_code (t : thread) (k : list item) (s : smp) : smp := mkSmp (harts s) (locks s) (procs s) (<[t := k]> (code s)).

(** ** spinlock.c *)
Definition smp_push_off (H : hart_st) : hart_st :=
  mkHart false (S (noff H)) (if bool_decide (noff H = 0%nat) then intr H else intena H) (cproc H) (cur H) (held H).
Definition smp_pop_off (H : hart_st) : option hart_st :=
  if intr H then None
  else match noff H with
       | O => None
       | S n => Some (mkHart (bool_decide (n = 0%nat) && intena H) n (intena H) (cproc H) (cur H) (held H))
       end.
Definition smp_holding (h : nat) (lk : splock) (s : smp) : bool := locked (locks s lk) && bool_decide (lcpu (locks s lk) = Some h).
Definition with_held (f : gset splock -> gset splock) (H : hart_st) : hart_st := mkHart (intr H) (noff H) (intena H) (cproc H) (cur H) (f (held H)).
Definition with_cproc (p : option nat) (H : hart_st) : hart_st := mkHart (intr H) (noff H) (intena H) p (cur H) (held H).
Definition with_cur (t : thread) (H : hart_st) : hart_st := mkHart (intr H) (noff H) (intena H) (cproc H) t (held H).
Definition with_intr (b : bool) (H : hart_st) : hart_st := mkHart b (noff H) (intena H) (cproc H) (cur H) (held H).
Definition with_intena (b : bool) (H : hart_st) : hart_st := mkHart (intr H) (noff H) b (cproc H) (cur H) (held H).

(** The accesses of acquire and release by hart [h], whose thread goes on with [k]. *)
Definition smp_acquire (h : nat) (t : thread) (i : item) (k : list item) (s : smp) : option smp :=
  match i with
  | Acquire lk => Some (set_code t (AcqCheck lk :: k) (set_hart h (smp_push_off (harts s h)) s))
  | AcqCheck lk => if smp_holding h lk s then None else Some (set_code t (AcqSwap lk :: k) s)
  | AcqSwap lk =>
      if locked (locks s lk) then Some s
      else Some (set_code t (AcqCpu lk :: k) (set_hart h (with_held (union {[lk]}) (harts s h)) (set_lock lk (mkSplock true (lcpu (locks s lk))) s)))
  | AcqCpu lk => Some (set_code t k (set_lock lk (mkSplock (locked (locks s lk)) (Some h)) s))
  | _ => None
  end.
Definition smp_release (h : nat) (t : thread) (i : item) (k : list item) (s : smp) : option smp :=
  match i with
  | Release lk => if smp_holding h lk s then Some (set_code t (RelClear lk :: k) s) else None
  | RelClear lk => Some (set_code t (RelStore lk :: k) (set_lock lk (mkSplock (locked (locks s lk)) None) s))
  | RelStore lk => Some (set_code t (PopOff :: k) (set_hart h (with_held (fun X => X ∖ {[lk]}) (harts s h)) (set_lock lk (mkSplock false (lcpu (locks s lk))) s)))
  | PopOff => match smp_pop_off (harts s h) with None => None | Some H => Some (set_code t k (set_hart h H s)) end
  | _ => None
  end.

(** ** proc.c *)
Definition sleep_code (p : nat) (c : Z) (l : nat) : list item :=
  [Acquire (LProc p); Release (LCond l); SetChan p (Some c); SetState p SLEEPING; Sched p; SetChan p None; Release (LProc p); Acquire (LCond l)].
Definition yield_code (p : nat) : list item := [Acquire (LProc p); SetState p RUNNABLE; Sched p; Release (LProc p)].
(** wait_lock *)
Definition L_WAIT : splock := LCond 0.
(** kexit after it has closed the files.  The channels [cs] are those it wakes: initproc's for each child
    that reparent gives to init, then the parent's.  The exit status is left out. *)
Definition exit_code (p : nat) (cs : list Z) : list item :=
  Acquire L_WAIT :: map Wakeup cs ++ [Acquire (LProc p); SetState p ZOMBIE; Release L_WAIT; Sched p; Halt].
(** kkill for the process [q] that has the pid; the processes it passes over are left out. *)
Definition kill_code (q : nat) : list item := [Acquire (LProc q); DoKill q; Release (LProc q)].
Definition wakeup_code (c : Z) : list item := map (fun q => WakeOne q c) (seq 0 SMP_NPROC).
Definition wake_one_code (q : nat) (c : Z) : list item := [Acquire (LProc q); Wake q c; Release (LProc q)].
(** The scheduler's loop.  The wfi when nothing was found has no effect on the state: a hart may always wait. *)
Definition scheduler_code : list item :=
  [IntrOn; IntrOff] ++ concat (map (fun p => [Acquire (LProc p); Try p; Release (LProc p)]) (seq 0 SMP_NPROC)) ++ [Loop].

(** p->state == SLEEPING && p->chan == chan *)
Definition smp_wake (c : Z) (v : proc_st) : proc_st := if bool_decide (pst v = SLEEPING /\ pchan v = Some c) then mkProcst RUNNABLE (pchan v) (pkilled v) else v.
Definition smp_kill (v : proc_st) : proc_st := mkProcst (if bool_decide (pst v = SLEEPING) then RUNNABLE else pst v) (pchan v) true.

(** sched up to swtch, which resumes the scheduler of the hart *)
Definition smp_sched (h : nat) (t : thread) (p : nat) (k : list item) (s : smp) : option smp :=
  let H := harts s h in
  if negb (smp_holding h (LProc p) s) then None
  else if negb (bool_decide (noff H = 1%nat)) then None
  else if bool_decide (pst (procs s p) = RUNNING) then None
  else if intr H then None
  else Some (set_code t (Restore (intena H) :: k) (set_hart h (with_cur (TSched h) H) s)).

(** The body of the scheduler's loop for one process, whose lock it holds *)
Definition smp_scheduler (h : nat) (t : thread) (i : item) (k : list item) (s : smp) : option smp :=
  let H := harts s h in
  match i with
  | IntrOn => Some (set_code t k (set_hart h (with_intr true H) s))
  | IntrOff => Some (set_code t k (set_hart h (with_intr false H) s))
  | Try p =>
      if bool_decide (pst (procs s p) = RUNNABLE)
      then Some (set_code t (Dispatch p :: ClearProc :: k) (set_hart h (with_cproc (Some p) H) (set_procst p (mkProcst RUNNING (pchan (procs s p)) (pkilled (procs s p))) s)))
      else Some (set_code t k s)
  | Dispatch p => Some (set_code t k (set_hart h (with_cur (TProc p) H) s))
  | ClearProc => Some (set_code t k (set_hart h (with_cproc None H) s))
  | Loop => Some (set_code t scheduler_code s)
  | _ => None
  end.

(** The next access of hart [h]; None when it has panicked (or followed a null pointer). *)
Definition hart_exec (h : nat) (s : smp) : option smp :=
  let H := harts s h in
  let t := cur H in
  match code s t with
  | [] => None
  | i :: k =>
      match i with
      | Acquire _ | AcqCheck _ | AcqSwap _ | AcqCpu _ => smp_acquire h t i k s
      | Release _ | RelClear _ | RelStore _ | PopOff => smp_release h t i k s
      | SetChan p c => Some (set_code t k (set_procst p (mkProcst (pst (procs s p)) c (pkilled (procs s p))) s))
      | SetState p st => Some (set_code t k (set_procst p (mkProcst st (pchan (procs s p)) (pkilled (procs s p))) s))
      | Sched p => smp_sched h t p k s
      | Restore v => Some (set_code t k (set_hart h (with_intena v H) s))
      | Sleep c l => match cproc H with None => None | Some p => Some (set_code t (sleep_code p c l ++ k) s) end
      | Yield => match cproc H with None => None | Some p => Some (set_code t (yield_code p ++ k) s) end
      | Exit cs => match cproc H with None => None | Some p => Some (set_code t (exit_code p cs ++ k) s) end
      | Kill q => Some (set_code t (kill_code q ++ k) s)
      | DoKill q => Some (set_code t k (set_procst q (smp_kill (procs s q)) s))
      | Wakeup c => Some (set_code t (wakeup_code c ++ k) s)
      | WakeOne q c => Some (set_code t (if bool_decide (cproc H = Some q) then k else wake_one_code q c ++ k) s)
      | Wake q c => Some (set_code t k (set_procst q (smp_wake c (procs s q)) s))
      | Sret => Some (set_code t k (set_hart h (with_intr true H) s))
      | Halt => None
      | IntrOn | IntrOff | Try _ | Dispatch _ | ClearProc | Loop => smp_scheduler h t i k s
      end
  end.

(** ** Interrupts: kerneltrap with the handlers of devices and of the clock, which wake
    channels under a lock of their own; the clock's one ends in yield on a hart that runs
    a process. *)
Definition handler (ws : list (nat * Z)) (tick : bool) : list item :=
  concat (map (fun w => [Acquire (LCond w.1); Wakeup w.2; Release (LCond w.1)]) ws) ++ (if tick then [Yield] else []) ++ [Sret].
Definition take_interrupt (h : nat) (ws : list (nat * Z)) (timer : bool) (s : smp) : smp :=
  let H := harts s h in
  set_code (cur H) (handler ws (timer && bool_decide (cproc H <> None)) ++ code s (cur H)) (set_hart h (with_intr false H) s).

Inductive step (s : smp) : smp -> Prop :=
| step_exec h s' : (h < SMP_NCPU)%nat -> hart_exec h s = Some s' -> step s s'
| step_intr h ws timer : (h < SMP_NCPU)%nat -> intr (harts s h) = true -> step s (take_interrupt h ws timer s).

(** The calls a system call may make, in any order. *)
Definition is_call (i : item) : bool :=
  match i with Acquire _ | Release _ | Sleep _ _ | Yield | Exit _ | Kill _ | Wakeup _ => true | _ => false end.
(** Harts in their scheduler with interrupts off, locks free; a process begins in
    forkret, enters user space and then makes the calls of its program. *)
Definition smp_init (prog : nat -> list item) (st : nat -> smp_procstate) : smp :=
  mkSmp (fun h => mkHart false 0 false None (TSched h) ∅) (fun _ => mkSplock false None) (fun p => mkProcst (st p) None false)
    (fun t => match t with TSched _ => scheduler_code | TProc p => Release (LProc p) :: Sret :: prog p end).
Inductive reachable (prog : nat -> list item) (st : nat -> smp_procstate) : smp -> Prop :=
| reach_init : reachable prog st (smp_init prog st)
| reach_step s s' : reachable prog st s -> step s s' -> reachable prog st s'.
