(* ===== verification/SmpSpec.v ===== *)
(** * What holds on every hart at every moment

    A typing discipline for the threads of Smp.v: [fits t X k] says that a thread [t]
    which holds the locks [X] may go on with [k].  Every step of every hart, and every
    interrupt, preserves it together with the relation between threads, harts, locks and
    the process table ([wt]).  From it follow mutual exclusion, that a process runs on
    one hart at most, and that no wakeup is lost. *)

From stdpp Require Import base functions gmap sets list.
From S2P Require Import Prelude Smp.

(** ** Well-typed threads

    The flag [b] marks the stretch in which the thread of a process has given up its
    state RUNNING and not switched away yet. *)
Definition keeps_own (t : thread) (lk : splock) (b : bool) : Prop := forall p, t = TProc p -> lk = LProc p -> b = false.
Fixpoint fits (t : thread) (X : gset splock) (b : bool) (k : list item) : Prop :=
  match k with
  | [] => True
  | i :: k =>
      match i with
      | Acquire lk | AcqCheck lk | AcqSwap lk => fits t ({[lk]} ∪ X) b k
      | AcqCpu lk => lk ∈ X /\ fits t X b k
      | Release lk => keeps_own t lk b /\ fits t (X ∖ {[lk]}) b k
      | RelClear lk | RelStore lk => lk ∈ X /\ keeps_own t lk b /\ fits t (X ∖ {[lk]}) b k
      | PopOff | Restore _ | IntrOff => fits t X b k
      | SetChan p _ => t = TProc p /\ LProc p ∈ X /\ fits t X b k
      | SetState p _ => t = TProc p /\ LProc p ∈ X /\ fits t X true k
      | Sched p => t = TProc p /\ LProc p ∈ X /\ fits t {[LProc p]} false k
      | Sleep _ l => fits t {[LCond l]} false k
      | Yield => fits t ∅ false k
      | Exit _ => True
      | Kill q => b = false /\ fits t (X ∖ {[LProc q]}) b k
      | DoKill q | Wake q _ => LProc q ∈ X /\ fits t X b k
      | Wakeup _ => forall Y, Y ⊆ X -> (forall l, LCond l ∈ X -> LCond l ∈ Y) -> fits t Y b k
      | WakeOne q _ => fits t X b k /\ fits t (X ∖ {[LProc q]}) b k
      | IntrOn | Sret => X = ∅ /\ fits t X b k
      | Try p => X = {[LProc p]} /\ (exists h, t = TSched h) /\ fits t X b k
      | Dispatch p => X = {[LProc p]} /\ (exists h, t = TSched h) /\ (exists k0, k = ClearProc :: k0) /\ fits t X b k
      | ClearProc => X <> ∅ /\ (exists h, t = TSched h) /\ fits t X b k
      | Loop => X = ∅ /\ (exists h, t = TSched h) /\ k = []
      | Halt => True
      end
  end.

(** Accesses that only follow an earlier one of the same call *)
Definition fresh (i : item) : bool :=
  match i with AcqCheck _ | AcqSwap _ | AcqCpu _ | RelClear _ | RelStore _ | PopOff | Dispatch _ => false | _ => true end.
(** A push_off whose lock is not held yet, or not any more *)
Definition extra (k : list item) : nat := match k with AcqCheck _ :: _ | AcqSwap _ :: _ | PopOff :: _ => 1 | _ => 0 end.
(** A lock that is held while its cpu field does not say so *)
Definition pending (lk : splock) (k : list item) : Prop := match k with AcqCpu l :: _ | RelStore l :: _ => l = lk | _ => False end.
Definition dispatching (k : list item) : Prop := match k with Dispatch _ :: _ | ClearProc :: _ => True | _ => False end.

(** The thread a hart runs *)
Definition status (t : thread) (X : gset splock) (ps : nat -> proc_st) (b : bool) : Prop :=
  match t with TProc p => if b then LProc p ∈ X else pst (ps p) = RUNNING | TSched _ => b = false end.
Definition typed_code (t : thread) (X : gset splock) (ps : nat -> proc_st) (k : list item) : Prop :=
  exists b, fits t X b k /\ Forall fresh (tail k) /\ status t X ps b.
Definition typed (s : smp) (h : nat) : Prop := typed_code (cur (harts s h)) (held (harts s h)) (procs s) (code s (cur (harts s h))).

Record wt (s : smp) : Prop := {
  w_mutex : forall lk h h', lk ∈ held (harts s h) -> lk ∈ held (harts s h') -> h = h';
  w_locked : forall lk, locked (locks s lk) = true <-> exists h, lk ∈ held (harts s h);
  w_cpu : forall lk h, lcpu (locks s lk) = Some h -> lk ∈ held (harts s h);
  w_pend : forall lk h, lk ∈ held (harts s h) -> lcpu (locks s lk) = Some h \/ pending lk (code s (cur (harts s h)));
  w_store : forall lk h k, code s (cur (harts s h)) = RelStore lk :: k -> lcpu (locks s lk) = None;
  w_noff : forall h, noff (harts s h) = (size (held (harts s h)) + extra (code s (cur (harts s h))))%nat;
  w_intr : forall h, intr (harts s h) = true -> noff (harts s h) = 0%nat;
  w_cur : forall h, cur (harts s h) = TSched h \/ exists p, cur (harts s h) = TProc p;
  w_proc : forall h p, cur (harts s h) = TProc p -> cproc (harts s h) = Some p;
  w_noproc : forall h h', cur (harts s h) = TSched h' -> cproc (harts s h) = None \/ dispatching (code s (TSched h'));
  w_one : forall h h' p, cur (harts s h) = TProc p -> cur (harts s h') = TProc p -> h = h';
  w_disp : forall h p k, cur (harts s h) = TSched h -> code s (TSched h) = Dispatch p :: k -> cproc (harts s h) = Some p /\ pst (procs s p) = RUNNING /\ forall h', cur (harts s h') <> TProc p;
  w_on : forall h, typed s h;
  w_off : forall p, (forall h, cur (harts s h) <> TProc p) -> fits (TProc p) {[LProc p]} false (code s (TProc p)) /\ Forall fresh (code s (TProc p));
  w_idle : forall h p, cur (harts s h) = TProc p -> fits (TSched h) {[LProc p]} false (code s (TSched h)) /\ Forall fresh (code s (TSched h)) /\ dispatching (code s (TSched h));
}.

(** ** Facts about typing *)
Lemma fits_calls t k : Forall is_call k -> forall X, fits t X false k.
Proof.
  induction 1 as [|i k Hi _ IH]; intros X; [done|]. destruct i; try done; cbn [fits]; try apply IH; (split; [done|apply IH]) || idtac. intros Y _ _. apply IH.
Qed.

Lemma fits_wakeup t b c qs k : forall X, (forall Y, Y ⊆ X -> (forall l, LCond l ∈ X -> LCond l ∈ Y) -> fits t Y b k) -> fits t X b (map (fun q => WakeOne q c) qs ++ k).
Proof.
  induction qs as [|q qs IH]; intros X H; cbn [map app fits]; [by apply H|]. split; apply IH; [done|]. intros Y HY Hl. apply H; [set_solver|]. intros l Hin. apply Hl. set_solver.
Qed.

Lemma fits_scheduler_body h qs k : fits (TSched h) ∅ false k -> fits (TSched h) ∅ false (concat (map (fun p => [Acquire (LProc p); Try p; Release (LProc p)]) qs) ++ k).
Proof.
  intros Hk. induction qs as [|q qs IH]; [done|]. cbn [map concat app fits]. split; [set_solver|]. split; [eauto|]. split; [done|].
  replace (({[LProc q]} ∪ ∅) ∖ {[LProc q]} : gset splock) with (∅ : gset splock) by set_solver. exact IH.
Qed.
Lemma fits_scheduler h : fits (TSched h) ∅ false scheduler_code.
Proof. unfold scheduler_code. cbn [app fits]. split; [done|]. apply fits_scheduler_body. cbn. eauto. Qed.
Lemma fresh_scheduler : Forall fresh scheduler_code.
Proof.
  unfold scheduler_code. apply Forall_app. split; [repeat constructor|]. apply Forall_app. split; [|repeat constructor]. apply Forall_concat. apply Forall_forall. intros l (p & -> & _)%list_elem_of_fmap. repeat constructor.
Qed.
Lemma tail_fresh k : Forall fresh k -> Forall fresh (tail k).
Proof. by intros []. Qed.
Lemma fresh_calls k : Forall is_call k -> Forall fresh k.
Proof. intros H. eapply Forall_impl; [exact H|]. intros []; done. Qed.

Lemma fits_handler t ws tick k : fits t ∅ false k -> fits t ∅ false (handler ws tick ++ k).
Proof.
  intros Hk. unfold handler. rewrite <- !app_assoc. assert (H : fits t ∅ false ((if tick then [Yield] else []) ++ [Sret] ++ k)) by (destruct tick; cbn; done). revert H. generalize ((if tick then [Yield] else []) ++ [Sret] ++ k). intros k' Hk'.
  induction ws as [|[l c] ws IH]; [done|]. cbn [map concat app fits fst snd]. intros Y HY Hl. split; [done|]. replace (Y ∖ {[LCond l]}) with (∅ : gset splock); [exact IH|]. set_solver.
Qed.
Lemma fresh_handler ws tick : Forall fresh (handler ws tick).
Proof.
  unfold handler. apply Forall_app. split; [apply Forall_concat, Forall_forall; intros l (w & -> & _)%list_elem_of_fmap; repeat constructor|]. apply Forall_app. split; [destruct tick; repeat constructor|repeat constructor].
Qed.

(** ** Steps that change one hart and its thread *)
Lemma size_0_held s h : wt s -> noff (harts s h) = 0%nat -> held (harts s h) = ∅ /\ extra (code s (cur (harts s h))) = 0%nat.
Proof. intros W H. pose proof (w_noff _ W h) as Hn. rewrite H in Hn. split; [apply leibniz_equiv, size_empty_iff; lia|lia]. Qed.

Lemma wt_ext s s' : (forall h, harts s' h = harts s h) -> (forall lk, locks s' lk = locks s lk) -> (forall p, procs s' p = procs s p) -> (forall t, code s' t = code s t) -> wt s -> wt s'.
Proof.
  intros E1 E2 E3 E4 W. assert (Hon : forall h, typed s' h).
  { intros h. unfold typed. rewrite E1, E4. destruct (w_on _ W h) as (b & Hf & Hfr & Hst). exists b. split_and!; [done|done|]. unfold status in *. destruct (cur (harts s h)); [done|]. by rewrite E3. }
  split; setoid_rewrite E1 || idtac; setoid_rewrite E2 || idtac; setoid_rewrite E3 || idtac; setoid_rewrite E4 || idtac; exact Hon || apply W.
Qed.

Section Local.
Context (s : smp) (h : nat) (W : wt s).
Abbreviation H := (harts s h).
Abbreviation t := (cur (harts s h)).

(** Another hart runs another thread. *)
Lemma cur_ne h' : h' <> h -> cur (harts s h') <> t.
Proof.
  intros Hne E. destruct (w_cur _ W h') as [E'|[p E']].
  - destruct (w_cur _ W h) as [E2|[q E2]]; congruence.
  - rewrite E' in E. by apply Hne, (w_one _ W h' h p).
Qed.
(** The scheduler of another hart is not this thread. *)
Lemma sched_ne h' p : cur (harts s h') = TProc p -> TSched h' <> t.
Proof.
  intros E E2. destruct (w_cur _ W h) as [E3|[q E3]]; [|congruence]. rewrite E3 in E2. injection E2 as ->. congruence.
Qed.

(** A step of the hart that does not switch threads *)
Record fine (H' : hart_st) (locks' : splock -> splock_st) (procs' : nat -> proc_st) (k' : list item) : Prop := {
  f_cur : cur H' = t;
  f_other : forall lk h', h' <> h -> lk ∈ held (harts s h') -> locks' lk = locks s lk /\ lk ∉ held H';
  f_mine : forall lk, lk ∈ held H' -> locked (locks' lk) = true /\ (lcpu (locks' lk) = Some h \/ pending lk k');
  f_locked : forall lk, locked (locks' lk) = true -> lk ∈ held H' \/ exists h', h' <> h /\ lk ∈ held (harts s h');
  f_cpu : forall lk h', lcpu (locks' lk) = Some h' -> (h' = h /\ lk ∈ held H') \/ (h' <> h /\ lk ∈ held (harts s h'));
  f_store : forall lk k, k' = RelStore lk :: k -> lcpu (locks' lk) = None;
  f_noff : noff H' = (size (held H') + extra k')%nat;
  f_intr : intr H' = true -> noff H' = 0%nat;
  f_proc : forall p, t = TProc p -> cproc H' = Some p;
  f_noproc : forall h', t = TSched h' -> cproc H' = None \/ dispatching k';
  f_procs : forall p, pst (procs' p) = pst (procs s p) \/ (LProc p ∈ held H /\ (pst (procs s p) <> RUNNING \/ t = TProc p));
  f_disp : forall p k, k' = Dispatch p :: k -> cproc H' = Some p /\ pst (procs' p) = RUNNING /\ forall h', cur (harts s h') <> TProc p;
  f_typed : typed_code t (held H') procs' k';
}.

Lemma wt_local H' locks' procs' k' : fine H' locks' procs' k' -> wt (mkSmp (<[h := H']> (harts s)) locks' procs' (<[t := k']> (code s))).
Proof.
  intros F. set (hs := <[h := H']> (harts s)). assert (Hme : hs h = H') by apply fn_lookup_insert. assert (Hot : forall h', h' <> h -> hs h' = harts s h') by (intros; by apply fn_lookup_insert_ne).
  assert (Hc : forall h', cur (hs h') = cur (harts s h')) by (intros h'; destruct (decide (h' = h)) as [->|]; [rewrite Hme; apply F|by rewrite Hot]).
  assert (Hk : <[t:=k']> (code s) t = k') by apply fn_lookup_insert.
  assert (Hco : forall h', h' <> h -> <[t:=k']> (code s) (cur (harts s h')) = code s (cur (harts s h'))) by (intros h' Hne; rewrite fn_lookup_insert_ne; [done|]; intros E; by apply (cur_ne h')).
  split; cbn [harts locks procs code]; fold hs; setoid_rewrite Hc || idtac.
  - intros lk h1 h2. destruct (decide (h1 = h)) as [->|H1], (decide (h2 = h)) as [->|H2]; rewrite ?Hme, ?Hot by done; intros A B; [done|by destruct (f_other _ _ _ _ F lk h2)|by destruct (f_other _ _ _ _ F lk h1)|by apply (w_mutex _ W lk)].
  - intros lk. split.
    + intros [E|(h' & Hne & E)]%(f_locked _ _ _ _ F); [exists h; by rewrite Hme|exists h'; by rewrite Hot].
    + intros [h' E]. destruct (decide (h' = h)) as [->|Hne]; [rewrite Hme in E; by apply (f_mine _ _ _ _ F)|]. rewrite Hot in E by done. destruct (f_other _ _ _ _ F lk h' Hne E) as [-> _]. apply (w_locked _ W). eauto.
  - intros lk h' [[-> E]|[Hne E]]%(f_cpu _ _ _ _ F); [by rewrite Hme|by rewrite Hot].
  - intros lk h'. destruct (decide (h' = h)) as [->|Hne]; [rewrite Hme, Hk; intros E; by apply (f_mine _ _ _ _ F)|]. rewrite Hot, Hco by done. intros E. destruct (f_other _ _ _ _ F lk h' Hne E) as [-> _]. by apply W.
  - intros lk h' k. destruct (decide (h' = h)) as [->|Hne]; [rewrite Hk; apply F|]. rewrite Hco by done. intros E. destruct (w_on _ W h') as (bb & Hf & _). rewrite E in Hf. destruct (f_other _ _ _ _ F lk h' Hne (proj1 Hf)) as [-> _]. by apply (w_store _ W lk h' k).
  - intros h'. destruct (decide (h' = h)) as [->|Hne]; [rewrite Hme, Hk; apply F|]. rewrite Hot, Hco by done. apply W.
  - intros h'. destruct (decide (h' = h)) as [->|Hne]; [rewrite Hme; apply F|]. rewrite Hot by done. apply W.
  - apply W.
  - intros h' p E. destruct (decide (h' = h)) as [->|Hne]; [rewrite Hme; by apply F|]. rewrite Hot by done. by apply W.
  - intros h' h2 E. rewrite <- E. destruct (decide (h' = h)) as [->|Hne]; [rewrite Hme, Hk; by apply (f_noproc _ _ _ _ F h2)|]. rewrite Hot, Hco by done. rewrite E. by apply W.
  - apply W.
  - intros h' p k E Ek. rewrite <- E in Ek. destruct (decide (h' = h)) as [->|Hne]; [rewrite Hk in Ek; rewrite Hme; by apply (f_disp _ _ _ _ F p k)|]. rewrite Hco, E in Ek by done. destruct (w_disp _ W h' p k E Ek) as (Hcp & Hr & Hd). rewrite Hot by done. split; [done|]. split; [|done].
    destruct (f_procs _ _ _ _ F p) as [->|[Hin _]]; [done|]. destruct (w_on _ W h') as (bb & Hf & _). rewrite E, Ek in Hf. destruct Hf as [HX _]. exfalso. apply Hne, (w_mutex _ W (LProc p)); [rewrite HX; set_solver|done].
  - intros h'. unfold typed. cbn [harts procs code]. fold hs. rewrite Hc. destruct (decide (h' = h)) as [->|Hne]; [rewrite Hme, Hk; apply F|]. rewrite Hot, Hco by done. destruct (w_on _ W h') as (bb & Hf & Hfr & Hst). exists bb. split_and!; [done|done|].
    unfold status in *. destruct (cur (harts s h')) as [|p] eqn:E; [done|]. destruct bb; [done|]. destruct (f_procs _ _ _ _ F p) as [->|[_ [Hn|Ht]]]; [done|done|]. exfalso. by apply Hne, (w_one _ W h' h p).
  - intros p Hp. rewrite fn_lookup_insert_ne by (intros E; by apply (Hp h)). by apply W.
  - intros h' p E. rewrite fn_lookup_insert_ne; [by apply W|]. intros E2. by apply (sched_ne h' p).
Qed.


(** The flags of the hart, the process table and the code of its thread change. *)
Lemma wt_flags H' procs' k' : cur H' = t -> held H' = held H -> noff H' = (size (held H) + extra k')%nat -> (intr H' = true -> noff H' = 0%nat) ->
  (forall p, t = TProc p -> cproc H' = Some p) -> (forall h', t = TSched h' -> cproc H' = None \/ dispatching k') ->
  (forall lk, lk ∈ held H -> lcpu (locks s lk) = Some h \/ pending lk k') -> (forall lk k, k' <> RelStore lk :: k) ->
  (forall p, pst (procs' p) = pst (procs s p) \/ (LProc p ∈ held H /\ (pst (procs s p) <> RUNNING \/ t = TProc p))) ->
  (forall p k, k' = Dispatch p :: k -> cproc H' = Some p /\ pst (procs' p) = RUNNING /\ forall h', cur (harts s h') <> TProc p) ->
  typed_code t (held H) procs' k' -> wt (mkSmp (<[h := H']> (harts s)) (locks s) procs' (<[t := k']> (code s))).
Proof.
  intros Ecur Eheld Hnoff Hintr Hproc Hnoproc Hpend Hstore Hprocs Hdisp Htyped. apply wt_local. split; rewrite ?Eheld; try done.
  - intros lk h' Hne E. split; [done|]. intros E2. by apply Hne, (w_mutex _ W lk).
  - intros lk E. split; [|by apply Hpend]. apply (w_locked _ W). eauto.
  - intros lk [h' E]%(w_locked _ W). destruct (decide (h' = h)) as [->|]; [by left|right; eauto].
  - intros lk h' E%(w_cpu _ W). destruct (decide (h' = h)) as [->|]; [by left|by right].
  - intros lk k E. by apply Hstore in E.
Qed.

(** Only the process table and the code change, outside acquire and release. *)
Lemma wt_code procs' k k' : code s t = k -> extra k' = extra k -> ~ dispatching k -> (forall p k0, k' <> Dispatch p :: k0) -> (forall lk, ~ pending lk k) -> (forall lk k0, k' <> RelStore lk :: k0) ->
  (forall p, pst (procs' p) = pst (procs s p) \/ (LProc p ∈ held H /\ (pst (procs s p) <> RUNNING \/ t = TProc p))) ->
  typed_code t (held H) procs' k' -> wt (mkSmp (harts s) (locks s) procs' (<[t := k']> (code s))).
Proof.
  intros Ek Hex Hnd Hnd' Hnp Hst Hpr Hty. eapply wt_ext; [| | | |apply (wt_flags H procs' k')]; try done.
  - intros h'. cbn. destruct (decide (h' = h)) as [->|]; [by rewrite fn_lookup_insert|by rewrite fn_lookup_insert_ne].
  - pose proof (w_noff _ W h) as Hn. rewrite Ek in Hn. by rewrite Hex.
  - apply W.
  - intros p E. by apply W.
  - intros h' E. destruct (w_noproc _ W h h' E) as [?|Hd]; [by left|]. by rewrite <- E, Ek in Hd.
  - intros lk E. destruct (w_pend _ W lk h E) as [?|Hp]; [by left|]. rewrite Ek in Hp. by apply Hnp in Hp.
  - intros p k0 E. by apply Hnd' in E.
Qed.

(** The swap of acquire finds the lock free. *)
Lemma wt_swap lk k : code s t = AcqSwap lk :: k -> locked (locks s lk) = false ->
  wt (set_code t (AcqCpu lk :: k) (set_hart h (with_held (union {[lk]}) H) (set_lock lk (mkSplock true (lcpu (locks s lk))) s))).
Proof.
  intros Ek Hlk. assert (Hfree : forall h', lk ∉ held (harts s h')) by (intros h' Hin; assert (locked (locks s lk) = true) by (apply (w_locked _ W); eauto); congruence).
  destruct (w_on _ W h) as (b & Hf & Hfr & Hst). rewrite Ek in Hf, Hfr. cbn [fits tail] in Hf, Hfr. pose proof (w_noff _ W h) as Hn. rewrite Ek in Hn. cbn in Hn.
  apply wt_local. split; cbn [cur with_held held noff intr cproc locks set_lock set_hart procs harts]; try done.
  - intros l h' Hne E. assert (l <> lk) by (intros ->; by apply Hfree in E). rewrite fn_lookup_insert_ne by done. split; [done|]. intros [?|E2]%elem_of_union; [set_solver|]. by apply Hne, (w_mutex _ W l).
  - intros l [->%elem_of_singleton|E]%elem_of_union; [rewrite fn_lookup_insert; split; [done|by right]|]. assert (l <> lk) by (intros ->; by apply Hfree in E). rewrite fn_lookup_insert_ne by done.
    split; [apply (w_locked _ W); eauto|]. destruct (w_pend _ W l h E) as [?|Hp]; [by left|]. by rewrite Ek in Hp.
  - intros l. destruct (decide (l = lk)) as [->|Hne]; [left; set_solver|]. rewrite fn_lookup_insert_ne by done. intros [h' E]%(w_locked _ W). destruct (decide (h' = h)) as [->|]; [left; set_solver|right; eauto].
  - intros l h'. assert (E : lcpu (<[lk:=mkSplock true (lcpu (locks s lk))]> (locks s) l) = lcpu (locks s l)) by (destruct (decide (l = lk)) as [->|]; [by rewrite fn_lookup_insert|by rewrite fn_lookup_insert_ne]).
    rewrite E. intros E2%(w_cpu _ W). destruct (decide (h' = h)) as [->|]; [left; set_solver|by right].
  - rewrite size_union, size_singleton by (pose proof (Hfree h); set_solver). cbn. lia.
  - apply W.
  - intros p E. by apply W.
  - intros h' E. destruct (w_noproc _ W h h' E) as [?|Hd]; [by left|]. by rewrite <- E, Ek in Hd.
  - intros p. by left.
  - exists b. split_and!; [split; [set_solver|done]|done|]. unfold status in *. destruct t; [done|]. destruct b; [set_solver|done].
Qed.

(** The cpu field of a lock that the hart holds *)
Lemma wt_holder lk c k k' : code s t = k -> lk ∈ held H -> (c = None \/ c = Some h) -> (c = Some h \/ pending lk k') -> (forall l, l ∈ held H -> l <> lk -> ~ pending l k) ->
  (forall l k0, k' = RelStore l :: k0 -> l = lk /\ c = None) -> extra k' = extra k -> ~ dispatching k -> (forall p k0, k' <> Dispatch p :: k0) ->
  typed_code t (held H) (procs s) k' -> wt (set_code t k' (set_lock lk (mkSplock (locked (locks s lk)) c) s)).
Proof.
  intros Ek Hin Hvc Hvp Hoth Hst Hex Hnd Hnd' Hty. assert (Hlk : locked (locks s lk) = true) by (apply (w_locked _ W); eauto). set (v := mkSplock _ c).
  eapply wt_ext; [| | | |apply (wt_local H (<[lk:=v]> (locks s)) (procs s) k')]; try done.
  { intros h'. cbn. destruct (decide (h' = h)) as [->|]; [by rewrite fn_lookup_insert|by rewrite fn_lookup_insert_ne]. }
  split; try done.
  - intros l h' Hne E. assert (l <> lk) by (intros ->; by apply Hne, (w_mutex _ W lk)). rewrite fn_lookup_insert_ne by done. split; [done|]. intros E2. by apply Hne, (w_mutex _ W l).
  - intros l E. destruct (decide (l = lk)) as [->|Hne]; [by rewrite fn_lookup_insert|]. rewrite fn_lookup_insert_ne by done. split; [apply (w_locked _ W); eauto|left]. destruct (w_pend _ W l h E) as [?|Hp]; [done|]. rewrite Ek in Hp. by apply Hoth in Hp.
  - intros l. destruct (decide (l = lk)) as [->|Hne]; [by left|]. rewrite fn_lookup_insert_ne by done. intros [h' E]%(w_locked _ W). destruct (decide (h' = h)) as [->|]; [by left|right; eauto].
  - intros l h'. destruct (decide (l = lk)) as [->|Hne]; [rewrite fn_lookup_insert; cbn; intros E; left; destruct Hvc; split; congruence|]. rewrite fn_lookup_insert_ne by done. intros E%(w_cpu _ W). destruct (decide (h' = h)) as [->|]; [by left|by right].
  - intros l k0 E. destruct (Hst l k0 E) as [-> ?]. by rewrite fn_lookup_insert.
  - pose proof (w_noff _ W h) as Hn. rewrite Ek in Hn. by rewrite Hex.
  - apply W.
  - intros p E. by apply W.
  - intros h' E. destruct (w_noproc _ W h h' E) as [?|Hd]; [by left|]. by rewrite <- E, Ek in Hd.
  - intros p. by left.
  - intros p k0 E. by apply Hnd' in E.
Qed.

(** The store that frees the lock *)
Lemma wt_store lk k : code s t = RelStore lk :: k ->
  wt (set_code t (PopOff :: k) (set_hart h (with_held (fun X => X ∖ {[lk]}) H) (set_lock lk (mkSplock false (lcpu (locks s lk))) s))).
Proof.
  intros Ek. destruct (w_on _ W h) as (b & Hf & Hfr & Hst). rewrite Ek in Hf, Hfr. destruct Hf as (Hin & Hown & Hf). cbn [tail] in Hfr. pose proof (w_noff _ W h) as Hn. rewrite Ek in Hn. cbn in Hn. pose proof (w_store _ W lk h k Ek) as Hcpu.
  apply wt_local. split; cbn [cur with_held held noff intr cproc locks set_lock set_hart procs harts]; try done.
  - intros l h' Hne E. assert (l <> lk) by (intros ->; by apply Hne, (w_mutex _ W lk)). rewrite fn_lookup_insert_ne by done. split; [done|]. intros E2. apply Hne, (w_mutex _ W l); [done|set_solver].
  - intros l [E Hne]%elem_of_difference. rewrite fn_lookup_insert_ne by set_solver. split; [apply (w_locked _ W); eauto|]. destruct (w_pend _ W l h E) as [?|Hp]; [by left|]. rewrite Ek in Hp. cbn in Hp. set_solver.
  - intros l. destruct (decide (l = lk)) as [->|Hne]; [by rewrite fn_lookup_insert|]. rewrite fn_lookup_insert_ne by done. intros [h' E]%(w_locked _ W). destruct (decide (h' = h)) as [->|]; [left; set_solver|right; eauto].
  - intros l h'. destruct (decide (l = lk)) as [->|Hne]; [rewrite fn_lookup_insert; cbn; congruence|]. rewrite fn_lookup_insert_ne by done. intros E2%(w_cpu _ W). destruct (decide (h' = h)) as [->|]; [left; set_solver|by right].
  - rewrite size_difference by set_solver. rewrite size_singleton. assert (size (held H) <> 0%nat) by (rewrite size_non_empty_iff; set_solver). cbn. lia.
  - apply W.
  - intros p E. by apply W.
  - intros h' E. destruct (w_noproc _ W h h' E) as [?|Hd]; [by left|]. by rewrite <- E, Ek in Hd.
  - intros p. by left.
  - exists b. split_and!; [done|done|]. unfold status in *. destruct t as [|p] eqn:E; [done|]. destruct b; [|done]. apply elem_of_difference. split; [done|]. intros E2%elem_of_singleton. by specialize (Hown p eq_refl (eq_sym E2)).
Qed.

(** ** Switches *)
Lemma wt_sched p k v : code s t = Sched p :: k -> noff H = 1%nat -> wt (mkSmp (<[h := with_cur (TSched h) H]> (harts s)) (locks s) (procs s) (<[t := Restore v :: k]> (code s))).
Proof.
  intros Ek Hn1. destruct (w_on _ W h) as (b & Hf & Hfr & Hst). rewrite Ek in Hf, Hfr. destruct Hf as (Et & Hin & Hf). cbn [tail] in Hfr. pose proof (w_noff _ W h) as Hn. rewrite Ek in Hn. cbn in Hn.
  assert (HX : held H = {[LProc p]}). { apply leibniz_equiv. symmetry. apply set_subseteq_size_equiv; [set_solver|rewrite size_singleton; lia]. }
  destruct (w_idle _ W h p Et) as (Hif & Hifr & Hid). rewrite Et in *.
  set (hs := <[h := with_cur (TSched h) H]> (harts s)). assert (Hme : hs h = with_cur (TSched h) H) by apply fn_lookup_insert. assert (Hot : forall h', h' <> h -> hs h' = harts s h') by (intros; by apply fn_lookup_insert_ne).
  assert (Hh : forall h', held (hs h') = held (harts s h')) by (intros h'; destruct (decide (h' = h)) as [->|]; [by rewrite Hme|by rewrite Hot]).
  assert (Hcp : forall h' q, cur (hs h') = TProc q -> h' <> h /\ cur (harts s h') = TProc q) by (intros h' q; destruct (decide (h' = h)) as [->|]; [by rewrite Hme|by rewrite Hot]).
  assert (Hne : forall h', h' <> h -> cur (harts s h') <> TProc p) by (intros h' H1 E; by apply H1, (w_one _ W h' h p)).
  assert (Hs : <[TProc p := Restore v :: k]> (code s) (TSched h) = code s (TSched h)) by (by rewrite fn_lookup_insert_ne).
  assert (Hco : forall h', h' <> h -> <[TProc p := Restore v :: k]> (code s) (cur (harts s h')) = code s (cur (harts s h'))) by (intros h' H1; rewrite fn_lookup_insert_ne; [done|]; intros E; by apply (Hne h')).
  split; cbn [harts locks procs code]; fold hs; setoid_rewrite Hh || idtac.
  - apply W.
  - apply W.
  - apply W.
  - intros lk h' E. destruct (decide (h' = h)) as [->|H1]; [left; destruct (w_pend _ W lk h E) as [?|Hp]; [done|]; by rewrite Et, Ek in Hp|]. rewrite Hot, Hco by done. by apply W.
  - intros lk h' k'. destruct (decide (h' = h)) as [->|H1]; [rewrite Hme; cbn [cur with_cur]; rewrite Hs; intros E; by rewrite E in Hid|]. rewrite Hot, Hco by done. apply W.
  - intros h'. destruct (decide (h' = h)) as [->|H1]; [rewrite Hme; cbn [cur with_cur noff]; rewrite Hs, HX, size_singleton; destruct (code s (TSched h)) as [|[] ?]; cbn in *; done || lia|]. rewrite Hot, Hco by done. apply W.
  - intros h'. destruct (decide (h' = h)) as [->|H1]; [rewrite Hme; apply W|rewrite Hot by done; apply W].
  - intros h'. destruct (decide (h' = h)) as [->|H1]; [rewrite Hme; by left|rewrite Hot by done; apply W].
  - intros h' q [H1 E]%Hcp. rewrite Hot by done. by apply W.
  - intros h' h2. destruct (decide (h' = h)) as [->|H1]; [rewrite Hme; cbn; intros [= <-]; right; by rewrite Hs|]. rewrite Hot by done. intros E. rewrite fn_lookup_insert_ne by done. by apply W.
  - intros h1 h2 q [H1 E1]%Hcp [H2 E2]%Hcp. by apply (w_one _ W h1 h2 q).
  - intros h' q k' E. rewrite fn_lookup_insert_ne by done. intros Ek'. destruct (decide (h' = h)) as [->|H1]; [by rewrite Ek' in Hifr; apply Forall_cons in Hifr as [? _]|]. rewrite Hot in E |- * by done.
    destruct (w_disp _ W h' q k' E Ek') as (A & B & C). split_and!; [done|done|]. intros h2 [H2 E2]%Hcp. by apply (C h2).
  - intros h'. unfold typed. cbn [harts procs code]. fold hs. rewrite Hh. destruct (decide (h' = h)) as [->|H1]; [rewrite Hme, HX; cbn [cur with_cur]; rewrite Hs|rewrite Hot, Hco by done; apply W]. exists false. split_and!; [done|by destruct Hifr|done].
  - intros q Hq. destruct (decide (q = p)) as [->|Hqp]; [rewrite fn_lookup_insert; split; [exact Hf|by constructor]|]. rewrite fn_lookup_insert_ne by congruence. apply W. intros h'. destruct (decide (h' = h)) as [->|H1]; [rewrite Et; congruence|]. specialize (Hq h'). by rewrite Hot in Hq.
  - intros h' q [H1 E]%Hcp. rewrite fn_lookup_insert_ne by done. by apply W.
Qed.

Lemma wt_dispatch p k : code s t = Dispatch p :: k -> wt (mkSmp (<[h := with_cur (TProc p) H]> (harts s)) (locks s) (procs s) (<[t := k]> (code s))).
Proof.
  intros Ek. destruct (w_on _ W h) as (b & Hf & Hfr & Hst). rewrite Ek in Hf, Hfr. destruct Hf as (HX & [h0 Et] & [k0 Ek0] & Hf). cbn [tail] in Hfr. pose proof (w_noff _ W h) as Hn. rewrite Ek, HX, size_singleton in Hn. cbn in Hn.
  assert (h0 = h) as ->. { destruct (w_cur _ W h) as [E|[q E]]; congruence. } rewrite Et in *. cbn in Hst. subst b. destruct (w_disp _ W h p k Et Ek) as (Hcp & Hrun & Hoff). destruct (w_off _ W p Hoff) as [Hpf Hpfr].
  assert (Hextra : extra (code s (TProc p)) = 0%nat) by (destruct (code s (TProc p)) as [|[] ?]; try done; by apply Forall_cons in Hpfr as [? _]).
  set (hs := <[h := with_cur (TProc p) H]> (harts s)). assert (Hme : hs h = with_cur (TProc p) H) by apply fn_lookup_insert. assert (Hot : forall h', h' <> h -> hs h' = harts s h') by (intros; by apply fn_lookup_insert_ne).
  assert (Hh : forall h', held (hs h') = held (harts s h')) by (intros h'; destruct (decide (h' = h)) as [->|]; [by rewrite Hme|by rewrite Hot]).
  assert (Hs : <[TSched h := k]> (code s) (TProc p) = code s (TProc p)) by (by rewrite fn_lookup_insert_ne).
  assert (Hco : forall h', h' <> h -> <[TSched h := k]> (code s) (cur (harts s h')) = code s (cur (harts s h'))) by (intros h' H1; rewrite fn_lookup_insert_ne; [done|]; intros E; destruct (w_cur _ W h') as [E2|[q E2]]; congruence).
  assert (Hcur : forall h' q, cur (hs h') = TProc q -> (h' = h /\ q = p) \/ (h' <> h /\ q <> p /\ cur (harts s h') = TProc q)).
  { intros h' q. destruct (decide (h' = h)) as [->|H1]; [rewrite Hme; cbn; intros [= <-]; by left|]. rewrite Hot by done. intros E. right. split_and!; [done| |done]. intros ->. by apply (Hoff h'). }
  split; cbn [harts locks procs code]; fold hs; setoid_rewrite Hh || idtac.
  - apply W.
  - apply W.
  - apply W.
  - intros lk h' E. destruct (decide (h' = h)) as [->|H1]; [left; destruct (w_pend _ W lk h E) as [?|Hp]; [done|]; by rewrite Et, Ek in Hp|]. rewrite Hot, Hco by done. by apply W.
  - intros lk h' k'. destruct (decide (h' = h)) as [->|H1]; [rewrite Hme; cbn [cur with_cur]; rewrite Hs; intros E; rewrite E in Hpfr; by apply Forall_cons in Hpfr as [? _]|]. rewrite Hot, Hco by done. apply W.
  - intros h'. destruct (decide (h' = h)) as [->|H1]; [rewrite Hme; cbn [cur with_cur noff]; rewrite Hs, Hextra, HX, size_singleton; lia|]. rewrite Hot, Hco by done. apply W.
  - intros h'. destruct (decide (h' = h)) as [->|H1]; [rewrite Hme; apply W|rewrite Hot by done; apply W].
  - intros h'. destruct (decide (h' = h)) as [->|H1]; [rewrite Hme; right; by exists p|rewrite Hot by done; apply W].
  - intros h' q [[-> ->]|(H1 & _ & E)]%Hcur; [by rewrite Hme|rewrite Hot by done; by apply W].
  - intros h' h2. destruct (decide (h' = h)) as [->|H1]; [by rewrite Hme|]. rewrite Hot by done. intros E. rewrite <- E, Hco, E by done. by apply W.
  - intros h1 h2 q [[-> ->]|(H1 & Hq & E)]%Hcur [[-> ?]|(H2 & Hq' & E2)]%Hcur; try done. by apply (w_one _ W h1 h2 q).
  - intros h' q k' E Ek'. destruct (decide (h' = h)) as [->|H1]; [by rewrite Hme in E|]. rewrite Hot in E |- * by done. rewrite <- E, Hco, E in Ek' by done. destruct (w_disp _ W h' q k' E Ek') as (A & B & C). split_and!; [done|done|].
    intros h2 [[-> ->]|(H2 & _ & E2)]%Hcur; [|by apply (C h2)]. destruct (w_on _ W h') as (b' & Hf' & _). rewrite E, Ek' in Hf'. destruct Hf' as [HX' _]. apply H1, (w_mutex _ W (LProc p)); [rewrite HX'|rewrite HX]; set_solver.
  - intros h'. unfold typed. cbn [harts procs code]. fold hs. rewrite Hh. destruct (decide (h' = h)) as [->|H1]; [rewrite Hme, HX; cbn [cur with_cur]; rewrite Hs|rewrite Hot, Hco by done; apply W]. exists false. split_and!; [done|by destruct Hpfr|done].
  - intros q Hq. rewrite fn_lookup_insert_ne by done. apply W. intros h'. destruct (decide (h' = h)) as [->|H1]; [by rewrite Et|]. specialize (Hq h'). by rewrite Hot in Hq.
  - intros h' q [[-> ->]|(H1 & _ & E)]%Hcur; [|rewrite fn_lookup_insert_ne by congruence; by apply W]. rewrite fn_lookup_insert. rewrite HX in Hf. split_and!; [done|done|by rewrite Ek0].
Qed.

(** ** Every access of the hart *)
Lemma own_proc p : cproc H = Some p -> ~ dispatching (code s t) -> t = TProc p.
Proof.
  intros Hc Hnd. destruct t as [h'|q] eqn:E; [|by rewrite (w_proc _ W h q E) in Hc; injection Hc as ->]. destruct (w_noproc _ W h h' E) as [E2|Hd]; [congruence|done].
Qed.

Section Exec.
Context (i : item) (k : list item) (Ek : code s t = i :: k).

Lemma rest_fresh : Forall fresh k.
Proof. destruct (w_on _ W h) as (b & _ & Hfr & _). by rewrite Ek in Hfr. Qed.
Lemma rest_plain : extra k = 0%nat /\ (forall p k0, k <> Dispatch p :: k0) /\ (forall lk k0, k <> RelStore lk :: k0).
Proof. pose proof rest_fresh as Hfr. destruct k as [|[] ?]; split_and!; try done; by apply Forall_cons in Hfr as [? _]. Qed.

(** Calls: the code of the call takes its place. *)
Lemma wt_expand k' : fresh i -> ~ dispatching (i :: k) -> Forall fresh k' -> (forall b, fits t (held H) b (i :: k) -> status t (held H) (procs s) b -> typed_code t (held H) (procs s) k') -> wt (set_code t k' s).
Proof.
  intros Hi Hnd Hk' Hty. assert (Hex : forall l, Forall fresh l -> extra l = 0%nat) by (intros [|[] ?]; intros Hf; try done; by apply Forall_cons in Hf as [? _]).
  apply (wt_code (procs s) (i :: k) k'); [exact Ek| |done| | | |by left|].
  - rewrite !Hex; [done|constructor; [done|apply rest_fresh]|done].
  - intros p k0 ->. by apply Forall_cons in Hk' as [? _].
  - intros lk. by destruct i.
  - intros lk k0 ->. by apply Forall_cons in Hk' as [? _].
  - destruct (w_on _ W h) as (b & Hf & _ & Hst). rewrite Ek in Hf. by apply (Hty b).
Qed.

(** Accesses to the process table under the lock of the process *)
Lemma wt_table p v : fresh i -> ~ dispatching (i :: k) -> LProc p ∈ held H -> (pst v = pst (procs s p) \/ pst (procs s p) <> RUNNING \/ t = TProc p) ->
  (forall b, fits t (held H) b (i :: k) -> status t (held H) (procs s) b -> exists b', fits t (held H) b' k /\ status t (held H) (<[p := v]> (procs s)) b') -> wt (set_code t k (set_procst p v s)).
Proof.
  intros Hi Hnd Hin Hv Hty. destruct rest_plain as (Hex & Hd & Hs). apply (wt_code (<[p := v]> (procs s)) (i :: k) k); [exact Ek| |done|done| |done| |].
  - rewrite Hex. by destruct i.
  - intros lk. by destruct i.
  - intros q. destruct (decide (q = p)) as [->|Hne]; [rewrite fn_lookup_insert; destruct Hv; [by left|by right]|left; by rewrite fn_lookup_insert_ne].
  - destruct (w_on _ W h) as (b & Hf & _ & Hst). rewrite Ek in Hf. destruct (Hty b Hf Hst) as (b' & Hf' & Hst'). exists b'. split_and!; [done| |done]. pose proof rest_fresh as Hfr. by destruct Hfr.
Qed.

(** A change of the hart's flags *)
Lemma wt_flag H' : fresh i -> ~ dispatching (i :: k) -> cur H' = t -> held H' = held H -> noff H' = noff H -> cproc H' = cproc H -> (intr H' = true -> held H = ∅) ->
  (forall b, fits t (held H) b (i :: k) -> fits t (held H) b k) -> wt (set_code t k (set_hart h H' s)).
Proof.
  intros Hi Hnd Ec Eh En Ep Hin Hf'. destruct rest_plain as (Hex & Hd & Hs). destruct (w_on _ W h) as (b & Hf & Hfr & Hst). rewrite Ek in Hf, Hfr. pose proof (w_noff _ W h) as Hn. rewrite Ek in Hn. assert (Hi0 : extra (i :: k) = 0%nat) by (by destruct i).
  apply (wt_flags H' (procs s) k); try done.
  - lia.
  - intros E. rewrite En, Hn, Hi0, (Hin E). done.
  - intros p E. rewrite Ep. by apply W.
  - intros h' E. rewrite Ep. destruct (w_noproc _ W h h' E) as [?|Hdd]; [by left|]. by rewrite <- E, Ek in Hdd.
  - intros lk E. destruct (w_pend _ W lk h E) as [?|Hp]; [by left|]. rewrite Ek in Hp. by destruct i.
  - by left.
  - intros p k0 E. by apply Hd in E.
  - exists b. split_and!; [by apply Hf'| |done]. pose proof rest_fresh as Hfr'. by destruct Hfr'.
Qed.
End Exec.
End Local.

(** ** Preservation *)
Lemma acquire_wt s h i k s' : wt s -> code s (cur (harts s h)) = i :: k -> smp_acquire h (cur (harts s h)) i k s = Some s' -> wt s'.
Proof.
  intros W Ek E. destruct (rest_plain s h W i k Ek) as (Hex & Hd & Hs). pose proof (rest_fresh s h W i k Ek) as Hfr. destruct (w_on _ W h) as (b & Hf & _ & Hst). rewrite Ek in Hf. pose proof (w_noff _ W h) as Hn. rewrite Ek in Hn.
  destruct i as [lk|lk|lk|lk| | | | | | | | | | | | | | | | | | | | | | | |]; try done; cbn [smp_acquire fits extra] in *.
  - injection E as <-. apply (wt_flags s h W (smp_push_off (harts s h)) (procs s) (AcqCheck lk :: k)); try done; cbn [noff smp_push_off extra].
    + lia.
    + intros p Et. by apply (w_proc _ W h).
    + intros h' Et. destruct (w_noproc _ W h h' Et) as [?|Hdd]; [by left|]. by rewrite <- Et, Ek in Hdd.
    + intros l El. destruct (w_pend _ W l h El) as [?|Hp]; [by left|]. by rewrite Ek in Hp.
    + by left.
    + exists b. by split_and!.
  - destruct (smp_holding h lk s); [done|]. injection E as <-. apply (wt_code s h W (procs s) (AcqCheck lk :: k)); try done; [by intros []|by intros ? []|by left|]. exists b. by split_and!.
  - destruct (locked (locks s lk)) eqn:El; injection E as <-; [done|]. by apply wt_swap.
  - injection E as <-. destruct Hf as [Hin Hf]. apply (wt_holder s h W lk (Some h) (AcqCpu lk :: k)); try done.
    + by right.
    + by left.
    + intros l Hl Hne Hp. cbn in Hp. congruence.
    + intros l k0 E. by apply Hs in E.
    + by intros [].
    + exists b. split_and!; [done| |done]. by destruct Hfr.
Qed.

Lemma holding_held s h lk : wt s -> smp_holding h lk s = true -> lk ∈ held (harts s h).
Proof. intros W [_ E]%andb_true_iff. apply bool_decide_eq_true in E. by apply (w_cpu _ W). Qed.

Lemma release_wt s h i k s' : wt s -> code s (cur (harts s h)) = i :: k -> smp_release h (cur (harts s h)) i k s = Some s' -> wt s'.
Proof.
  intros W Ek E. destruct (rest_plain s h W i k Ek) as (Hex & Hd & Hs). pose proof (rest_fresh s h W i k Ek) as Hfr. destruct (w_on _ W h) as (b & Hf & _ & Hst). rewrite Ek in Hf. pose proof (w_noff _ W h) as Hn. rewrite Ek in Hn.
  destruct i as [| | | |lk|lk|lk| | | | | | | | | | | | | | | | | | | | |]; try done; cbn [smp_release fits extra] in *.
  - destruct (smp_holding h lk s) eqn:Eh; [|done]. injection E as <-. pose proof (holding_held _ _ _ W Eh). apply (wt_code s h W (procs s) (Release lk :: k)); try done; [by intros []|by intros ? []|by left|]. exists b. by split_and!.
  - injection E as <-. destruct Hf as (Hin & Hown & Hf). apply (wt_holder s h W lk None (RelClear lk :: k)); try done.
    + by left.
    + by right.
    + by intros l ? ? [].
    + intros l k0 [= <- _]. done.
    + by intros [].
    + exists b. by split_and!.
  - injection E as <-. by apply wt_store.
  - unfold smp_pop_off in E. destruct (intr (harts s h)); [done|]. destruct (noff (harts s h)) as [|n] eqn:En; [done|]. injection E as <-. apply (wt_flags s h W _ (procs s) k); try done; cbn [noff intr].
    + lia.
    + intros [E _]%andb_true_iff. by apply bool_decide_eq_true in E.
    + intros p Et. by apply (w_proc _ W h).
    + intros h' Et. destruct (w_noproc _ W h h' Et) as [?|Hdd]; [by left|]. by rewrite <- Et, Ek in Hdd.
    + intros l El. destruct (w_pend _ W l h El) as [?|Hp]; [by left|]. by rewrite Ek in Hp.
    + by left.
    + intros p k0 E. by apply Hd in E.
    + exists b. split_and!; [done| |done]. by destruct Hfr.
Qed.

Lemma fits_sleep p X b c l k : fits (TProc p) {[LCond l]} false k -> fits (TProc p) X b (sleep_code p c l ++ k).
Proof.
  intros Hk. cbn [sleep_code app fits]. split; [by intros ? ? ?|]. split_and!; try done; try set_solver. replace ({[LCond l]} ∪ ({[LProc p]} ∖ {[LProc p]})) with ({[LCond l]} : gset splock) by set_solver. exact Hk.
Qed.
Lemma fits_yield p X b k : fits (TProc p) ∅ false k -> fits (TProc p) X b (yield_code p ++ k).
Proof. intros Hk. cbn [yield_code app fits]. split_and!; try done; try set_solver. replace ({[LProc p]} ∖ {[LProc p]}) with (∅ : gset splock) by set_solver. exact Hk. Qed.
Lemma fits_exit p X b cs k : fits (TProc p) X b (exit_code p cs ++ k).
Proof.
  unfold exit_code. rewrite <- app_comm_cons, <- app_assoc. cbn [fits]. generalize ({[L_WAIT]} ∪ X : gset splock).
  induction cs as [|c cs IH]; intros Y; cbn [map app fits]; [|by intros Z _ _]. split_and!; try done; try set_solver.
Qed.
Lemma fresh_exit p cs k : Forall fresh k -> Forall fresh (exit_code p cs ++ k).
Proof.
  intros Hk. apply Forall_app. split; [|done]. constructor; [done|]. apply Forall_app. split; [|by repeat constructor].
  apply Forall_forall. by intros x (c & -> & _)%list_elem_of_fmap.
Qed.
Lemma fits_kill t X q k : fits t (X ∖ {[LProc q]}) false k -> fits t X false (kill_code q ++ k).
Proof. intros Hk. cbn [kill_code app fits]. split; [set_solver|]. split; [done|]. replace (({[LProc q]} ∪ X) ∖ {[LProc q]}) with (X ∖ {[LProc q]}) by set_solver. exact Hk. Qed.
Lemma fits_wake_one t X b q c k : keeps_own t (LProc q) b -> fits t (X ∖ {[LProc q]}) b k -> fits t X b (wake_one_code q c ++ k).
Proof. intros Ho Hk. cbn [wake_one_code app fits]. split; [set_solver|]. split; [done|]. replace (({[LProc q]} ∪ X) ∖ {[LProc q]}) with (X ∖ {[LProc q]}) by set_solver. exact Hk. Qed.

(** Calls *)
Lemma call_wt s h i k s' : wt s -> code s (cur (harts s h)) = i :: k -> hart_exec h s = Some s' ->
  match i with Sleep _ _ | Yield | Exit _ | Kill _ | Wakeup _ | WakeOne _ _ => True | _ => False end -> wt s'.
Proof.
  intros W Ek E Hi. unfold hart_exec in E. rewrite Ek in E. pose proof (rest_fresh s h W i k Ek) as Hfr.
  assert (Hown : forall p, cproc (harts s h) = Some p -> ~ dispatching (i :: k) -> cur (harts s h) = TProc p) by (intros p Hc Hnd; apply own_proc; [done|done|by rewrite Ek]).
  destruct i; try done.
  - destruct (cproc (harts s h)) as [p|]; [|done]. injection E as <-. specialize (Hown p eq_refl (fun x => x)). eapply (wt_expand s h W _ _ Ek); [done|by intros []|by repeat constructor|].
    rewrite Hown. intros b Hf Hst. cbn [fits] in Hf. exists b. split_and!; [by apply fits_sleep|by repeat constructor|done].
  - destruct (cproc (harts s h)) as [p|]; [|done]. injection E as <-. specialize (Hown p eq_refl (fun x => x)). eapply (wt_expand s h W _ _ Ek); [done|by intros []|by repeat constructor|].
    rewrite Hown. intros b Hf Hst. cbn [fits] in Hf. exists b. split_and!; [by apply fits_yield|by repeat constructor|done].
  - destruct (cproc (harts s h)) as [p|]; [|done]. injection E as <-. specialize (Hown p eq_refl (fun x => x)). eapply (wt_expand s h W _ _ Ek); [done|by intros []|by apply fresh_exit|].
    rewrite Hown. intros b Hf Hst. exists b. split_and!; [by apply fits_exit|by apply tail_fresh, fresh_exit|done].
  - injection E as <-. eapply (wt_expand s h W _ _ Ek); [done|by intros []|by repeat constructor|]. intros b [-> Hf] Hst. exists false. split_and!; [by apply fits_kill|by repeat constructor|done].
  - injection E as <-. assert (Hw : Forall fresh (wakeup_code c ++ k)) by (apply Forall_app; split; [apply Forall_forall; by intros x (q & -> & _)%list_elem_of_fmap|done]). eapply (wt_expand s h W _ _ Ek); [done|by intros []|done|].
    intros b Hf Hst. exists b. split; [exact (fits_wakeup _ b c (seq 0 SMP_NPROC) k _ Hf)|split; [by apply tail_fresh|done]].
  - injection E as <-. eapply (wt_expand s h W _ _ Ek); [done|by intros []|destruct (bool_decide _); [done|by repeat constructor]|]. intros b [Hf1 Hf2] Hst. exists b. case_bool_decide as Hc; (split_and!; [ | |done]).
    + done.
    + by destruct Hfr.
    + apply fits_wake_one; [|done]. intros p Et [= ->]. rewrite (w_proc _ W h p Et) in Hc. done.
    + by repeat constructor.
Qed.

Lemma status_insert t X ps p v b : status t X ps b -> (pst v = pst (ps p) \/ pst (ps p) <> RUNNING) -> status t X (<[p := v]> ps) b.
Proof.
  intros Hst Hv. unfold status in *. destruct t as [|q]; [done|]. destruct b; [done|]. destruct (decide (q = p)) as [->|Hne]; [rewrite fn_lookup_insert; destruct Hv; congruence|by rewrite fn_lookup_insert_ne].
Qed.

(** The process table *)
Lemma table_wt s h i k s' : wt s -> code s (cur (harts s h)) = i :: k -> hart_exec h s = Some s' ->
  match i with SetChan _ _ | SetState _ _ | DoKill _ | Wake _ _ => True | _ => False end -> wt s'.
Proof.
  intros W Ek E Hi. unfold hart_exec in E. rewrite Ek in E. destruct (w_on _ W h) as (b0 & Hf0 & _). rewrite Ek in Hf0. destruct i; try done; injection E as <-; cbn [fits] in Hf0.
  - destruct Hf0 as (Et & Hin & _). eapply (wt_table s h W _ _ Ek); [done|by intros []|done|by left|]. intros b (_ & _ & Hf) Hst. exists b. split; [done|]. apply status_insert; [done|by left].
  - destruct Hf0 as (Et & Hin & _). eapply (wt_table s h W _ _ Ek); [done|by intros []|done|by right; right|]. intros b (_ & _ & Hf) Hst. exists true. split; [done|]. rewrite Et. done.
  - destruct Hf0 as (Hin & _). assert (Hv : pst (smp_kill (procs s q)) = pst (procs s q) \/ pst (procs s q) <> RUNNING) by (unfold smp_kill; cbn; case_bool_decide as E; [right; congruence|by left]).
    eapply (wt_table s h W _ _ Ek); [done|by intros []|done|tauto|]. intros b (_ & Hf) Hst. exists b. split; [done|]. by apply status_insert.
  - destruct Hf0 as (Hin & _). assert (Hv : pst (smp_wake c (procs s q)) = pst (procs s q) \/ pst (procs s q) <> RUNNING) by (unfold smp_wake; case_bool_decide as E; [right; destruct E; congruence|by left]).
    eapply (wt_table s h W _ _ Ek); [done|by intros []|done|tauto|]. intros b (_ & Hf) Hst. exists b. split; [done|]. by apply status_insert.
Qed.

(** The scheduler *)
Lemma scheduler_wt s h i k s' : wt s -> code s (cur (harts s h)) = i :: k -> smp_scheduler h (cur (harts s h)) i k s = Some s' -> wt s'.
Proof.
  intros W Ek E. destruct (rest_plain s h W i k Ek) as (Hex & Hd & Hs). pose proof (rest_fresh s h W i k Ek) as Hfr. destruct (w_on _ W h) as (b & Hf & _ & Hst). rewrite Ek in Hf. destruct i; try done; cbn [smp_scheduler fits] in *.
  - injection E as <-. destruct Hf as [HX Hf]. eapply (wt_flag s h W _ _ Ek); try done; [by intros []|]. by intros b' [_ ?].
  - injection E as <-. eapply (wt_flag s h W _ _ Ek); try done. by intros [].
  - destruct Hf as (HX & [h0 Et] & Hf). destruct (bool_decide (pst (procs s p) = RUNNABLE)) eqn:Er; injection E as <-.
    + apply bool_decide_eq_true in Er. pose proof (w_noff _ W h) as Hn. rewrite Ek in Hn. rewrite Et in Hst. cbn in Hst. subst b. eapply (wt_flags s h W _ (<[p:=_]> (procs s)) (Dispatch p :: ClearProc :: k)); try done.
      * intros E2. cbn in E2. by apply (w_intr _ W).
      * intros q E2. congruence.
      * by right.
      * intros lk E2. destruct (w_pend _ W lk h E2) as [?|Hp]; [by left|]. by rewrite Ek in Hp.
      * intros q. destruct (decide (q = p)) as [->|Hne]; [right; split; [rewrite HX; set_solver|left; congruence]|left; by rewrite fn_lookup_insert_ne].
      * intros q k0 [= <- _]. split; [done|]. split; [by rewrite fn_lookup_insert|]. intros h' E2. destruct (w_on _ W h') as (b' & _ & _ & Hst'). rewrite E2 in Hst'. cbn in Hst'. destruct b'; [|congruence].
        assert (h' = h) as -> by (apply (w_mutex _ W (LProc p)); [done|rewrite HX; set_solver]). congruence.
      * exists false. split_and!; [|by constructor|by rewrite Et]. cbn [fits]. split_and!; [done|by exists h0|by eexists|rewrite HX; set_solver|by exists h0|by rewrite HX in *].
    + eapply (wt_expand s h W _ _ Ek); [done|by intros []|done|]. intros b' (_ & _ & Hf') Hst'. exists b'. split_and!; [done| |done]. by destruct Hfr.
  - injection E as <-. exact (wt_dispatch s h W p k Ek).
  - injection E as <-. destruct Hf as (HX & [h0 Et] & Hf). pose proof (w_noff _ W h) as Hn. rewrite Ek in Hn. cbn in Hn. eapply (wt_flags s h W _ (procs s) k); try done.
    + cbn. lia.
    + intros E2. cbn in E2. by apply (w_intr _ W).
    + intros q E2. congruence.
    + by left.
    + intros lk E2. destruct (w_pend _ W lk h E2) as [?|Hp]; [by left|]. by rewrite Ek in Hp.
    + by left.
    + intros q k0 E2. by apply Hd in E2.
    + exists b. split_and!; [done| |done]. by destruct Hfr.
  - injection E as <-. destruct Hf as (HX & [h0 Et] & _). eapply (wt_expand s h W _ _ Ek); [done|by intros []|apply fresh_scheduler|]. intros b' _ Hst'. exists false. rewrite HX, Et in *. split_and!; [apply fits_scheduler| |done]. apply tail_fresh, fresh_scheduler.
Qed.

Lemma exec_wt s h s' : wt s -> hart_exec h s = Some s' -> wt s'.
Proof.
  intros W E. pose proof E as E0. unfold hart_exec in E. destruct (code s (cur (harts s h))) as [|i k] eqn:Ek; [done|].
  destruct i; try (by apply (acquire_wt s h _ _ _ W Ek)); try (by apply (release_wt s h _ _ _ W Ek)); try (by apply (call_wt s h _ _ _ W Ek)); try (by apply (table_wt s h _ _ _ W Ek)); try (by apply (scheduler_wt s h _ _ _ W Ek)).
  - unfold smp_sched in E. destruct (negb (smp_holding _ _ _)); [done|]. destruct (bool_decide_reflect (noff (harts s h) = 1%nat)) as [Hn|]; [|done]. cbn [negb] in E. destruct (bool_decide _); [done|]. destruct (intr _); [done|]. injection E as <-. by apply (wt_sched s h W p k).
  - injection E as <-. eapply (wt_flag s h W _ _ Ek); try done; [by intros []|]. intros E. cbn in E. destruct (size_0_held s h W (w_intr _ W h E)) as [-> _]. done.
  - injection E as <-. destruct (w_on _ W h) as (b & Hf & _). rewrite Ek in Hf. eapply (wt_flag s h W _ _ Ek); try done; [by intros []|by destruct Hf|]. by intros b' [_ ?].
Qed.

(** A hart whose interrupts are on holds nothing and is not inside acquire, release or a switch. *)
Lemma hart_quiet s h : wt s -> intr (harts s h) = true -> held (harts s h) = ∅ /\ Forall fresh (code s (cur (harts s h))) /\ ~ dispatching (code s (cur (harts s h))) /\ fits (cur (harts s h)) ∅ false (code s (cur (harts s h))) /\
  status (cur (harts s h)) ∅ (procs s) false.
Proof.
  intros W Hi. destruct (size_0_held s h W (w_intr _ W h Hi)) as [HX Hex]. destruct (w_on _ W h) as (b & Hf & Hfr & Hst). rewrite HX in *. assert (b = false) as ->. { unfold status in Hst. destruct (cur (harts s h)); [done|]. destruct b; [set_solver|done]. }
  assert (Hhead : forall i k, code s (cur (harts s h)) = i :: k -> fresh i /\ ~ dispatching (i :: k)).
  { intros i k Ek. rewrite Ek in Hf, Hex. destruct i; cbn in Hex; try done; try (split; [done|by intros []]); cbn in Hf; destruct Hf as [Hf0 _]; set_solver. }
  split; [done|]. destruct (code s (cur (harts s h))) as [|i k] eqn:Ek; [split_and!; [by constructor|by intros []|done|done]|]. destruct (Hhead i k eq_refl). split_and!; [by constructor|done|done|done].
Qed.

Lemma handler_head ws tick k : exists i k0, handler ws tick ++ k = i :: k0 /\ fresh i /\ extra (i :: k0) = 0%nat.
Proof. unfold handler. destruct ws as [|w ws]; [destruct tick|]; cbn [map concat app]; eauto. Qed.

Lemma interrupt_wt s h ws timer : wt s -> intr (harts s h) = true -> wt (take_interrupt h ws timer s).
Proof.
  intros W Hi. destruct (hart_quiet s h W Hi) as (HX & Hfr & Hnd & Hf & Hst). pose proof (w_intr _ W h Hi) as Hn. unfold take_interrupt. set (tick := timer && _). destruct (handler_head ws tick (code s (cur (harts s h)))) as (i & k0 & Ek & Hfi & Hex).
  apply (wt_flags s h W _ (procs s)); try done.
  - rewrite Ek, Hex, HX. cbn. by rewrite Hn.
  - intros p Et. by apply (w_proc _ W h).
  - intros h' Et. destruct (w_noproc _ W h h' Et) as [?|Hd]; [by left|]. by rewrite <- Et in Hd.
  - intros lk E. rewrite HX in E. set_solver.
  - intros lk k E. rewrite Ek in E. injection E as -> ->. done.
  - by left.
  - intros p k E. rewrite Ek in E. injection E as -> ->. done.
  - exists false. rewrite HX. split_and!; [by apply fits_handler| |done]. apply tail_fresh, Forall_app. split; [apply fresh_handler|done].
Qed.

Lemma step_wt s s' : wt s -> step s s' -> wt s'.
Proof. intros W [h s1 _ E|h ws timer _ Hi]; [by apply (exec_wt s h)|by apply interrupt_wt]. Qed.

Lemma init_wt prog st : (forall p, Forall is_call (prog p)) -> wt (smp_init prog st).
Proof.
  intros Hp. split; cbn; try done; try set_solver.
  - intros h. exists false. split_and!; [apply fits_scheduler|apply tail_fresh, fresh_scheduler|done].
  - intros p _. split; [split; [done|]; split; [set_solver|]; by apply fits_calls|]. constructor; [done|]. constructor; [done|]. by apply fresh_calls.
Qed.

Lemma reachable_wt prog st s : (forall p, Forall is_call (prog p)) -> reachable prog st s -> wt s.
Proof. intros Hp. induction 1 as [|s s' _ IH Hs]; [by apply init_wt|by apply (step_wt s)]. Qed.

(** ** What a step leaves alone *)
Lemma exec_frame s h s' : wt s -> hart_exec h s = Some s' ->
  (forall t, t <> cur (harts s h) -> code s' t = code s t) /\ (forall h', h' <> h -> harts s' h' = harts s h') /\ (forall p, LProc p ∉ held (harts s h) -> procs s' p = procs s p).
Proof.
  intros W E. destruct (w_on _ W h) as (b & Hf & _). unfold hart_exec in E. destruct (code s (cur (harts s h))) as [|i k] eqn:Ek; [done|].
  assert (Hc : forall k' (f : thread -> list item), (forall t, t <> cur (harts s h) -> f t = code s t) -> forall t, t <> cur (harts s h) -> <[cur (harts s h) := k']> f t = code s t) by (intros k' f Hc t Hne; rewrite fn_lookup_insert_ne by congruence; by apply Hc).
  assert (Hh : forall H' h', h' <> h -> <[h := H']> (harts s) h' = harts s h') by (intros; by apply fn_lookup_insert_ne).
  destruct i; cbn [fits] in Hf; cbn [smp_acquire smp_release smp_scheduler] in E; unfold smp_sched in E; repeat (case_match; try done); simplify_eq; (split; [by intros t Hne; cbn; rewrite ?fn_lookup_insert_ne by congruence|split; [by intros h' Hne; cbn; rewrite ?fn_lookup_insert_ne by done|]]); try done;
    intros q0 Hq; cbn; rewrite fn_lookup_insert_ne; try done; intros ->; apply Hq; destruct_and?; set_solver.
Qed.

(** ** Sleeping processes *)
(** The end of sleep, after its release of the condition lock *)
Definition sleep_tail (p : nat) (c : Z) (k : list item) : list item := SetChan p (Some c) :: SetState p SLEEPING :: Sched p :: k.
Definition falling_asleep (p : nat) (c : Z) (v : proc_st) (k : list item) : Prop :=
  exists k0, k = PopOff :: sleep_tail p c k0 \/ k = sleep_tail p c k0 \/ (k = SetState p SLEEPING :: Sched p :: k0 /\ pchan v = Some c) \/ (k = Sched p :: k0 /\ pst v = SLEEPING /\ pchan v = Some c).
(** A process that has released its condition lock in sleep and has not been woken *)
Definition committed (p : nat) (c : Z) (s : smp) : Prop :=
  (exists h, cur (harts s h) = TProc p /\ falling_asleep p c (procs s p) (code s (TProc p))) \/
  ((forall h, cur (harts s h) <> TProc p) /\ pst (procs s p) = SLEEPING /\ pchan (procs s p) = Some c).

Lemma falling_locked s h p c : wt s -> cur (harts s h) = TProc p -> falling_asleep p c (procs s p) (code s (TProc p)) -> LProc p ∈ held (harts s h).
Proof.
  intros W Et (k0 & Hk). destruct (w_on _ W h) as (b & Hf & _). rewrite Et in Hf. destruct Hk as [Hk|[Hk|[[Hk _]|[Hk _]]]]; rewrite Hk in Hf; cbn in Hf; tauto.
Qed.

Lemma exec_sleeper s h p c s' : wt s -> cur (harts s h) = TProc p -> falling_asleep p c (procs s p) (code s (TProc p)) -> hart_exec h s = Some s' -> committed p c s'.
Proof.
  intros W Et (k0 & Hk) E. unfold hart_exec in E. rewrite Et in E. destruct Hk as [Hk|[Hk|[[Hk Hc]|(Hk & Hp & Hc)]]]; rewrite Hk in E; cbn [sleep_tail smp_release] in E.
  - unfold smp_pop_off in E. destruct (intr (harts s h)); [done|]. destruct (noff (harts s h)); [done|]. injection E as <-. left. exists h. cbn. rewrite !fn_lookup_insert. split; [done|]. exists k0. right. by left.
  - injection E as <-. left. exists h. cbn. rewrite !fn_lookup_insert. split; [done|]. exists k0. right. right. by left.
  - injection E as <-. left. exists h. cbn. rewrite !fn_lookup_insert. split; [done|]. exists k0. by right; right; right.
  - unfold smp_sched in E. repeat (case_match; try done). injection E as <-. right. cbn. split; [|done]. intros h' E2. destruct (decide (h' = h)) as [->|Hne]; [by rewrite fn_lookup_insert in E2|]. rewrite fn_lookup_insert_ne in E2 by done. by apply Hne, (w_one _ W h' h p).
Qed.

(** Nobody else moves a process that falls asleep; one that is asleep is moved by a wakeup or a kill only. *)
Lemma exec_asleep s h p c s' : wt s -> (forall h', cur (harts s h') <> TProc p) -> pst (procs s p) = SLEEPING -> pchan (procs s p) = Some c -> hart_exec h s = Some s' ->
  committed p c s' \/ pst (procs s' p) = RUNNABLE.
Proof.
  intros W Hoff Hp Hc E. destruct (exec_frame s h s' W E) as (_ & Hh & _). assert (Hcur : cur (harts s' h) <> TProc p).
  { intros E2. unfold hart_exec in E. destruct (code s (cur (harts s h))) as [|i k] eqn:Ek; [done|]. pose proof (Hoff h) as Ho.
    destruct i; cbn [smp_acquire smp_release smp_scheduler] in E; unfold smp_sched, smp_pop_off in E; repeat (case_match; try done); simplify_eq; cbn in E2; try done; rewrite ?fn_lookup_insert in E2; try done; cbn in E2.
    injection E2 as ->. destruct (w_on _ W h) as (b & Hf & _). rewrite Ek in Hf. destruct Hf as (_ & [h0 Et] & _). destruct (w_cur _ W h) as [E3|[q E3]]; [|congruence]. rewrite E3 in Ek. destruct (w_disp _ W h p _ E3 Ek) as (_ & Hr & _). congruence. }
  assert (Hoff' : forall h', cur (harts s' h') <> TProc p) by (intros h'; destruct (decide (h' = h)) as [->|Hne]; [done|rewrite Hh by done; apply Hoff]).
  assert (Hv : procs s' p = procs s p \/ pst (procs s' p) = RUNNABLE).
  { clear Hcur Hoff' Hh. unfold hart_exec in E. destruct (w_on _ W h) as (b & Hf & _). destruct (code s (cur (harts s h))) as [|i k] eqn:Ek; [done|]. pose proof (Hoff h) as Ho.
    destruct i; cbn [fits] in Hf; cbn [smp_acquire smp_release smp_scheduler] in E; unfold smp_sched, smp_pop_off in E; repeat (case_match; try done); simplify_eq; cbn; try (by left); (destruct (decide (p = q)) as [->|Hne] || destruct (decide (p = p0)) as [->|Hne]); rewrite ?fn_lookup_insert, ?fn_lookup_insert_ne by congruence; try (by left).
    - by destruct Hf.
    - by destruct Hf.
    - right. unfold smp_kill. cbn. by rewrite bool_decide_true.
    - unfold smp_wake. case_bool_decide; [by right|by left].
    - apply bool_decide_eq_true in H. congruence. }
  destruct Hv as [Hv|Hv]; [|by right]. left. right. by rewrite Hv.
Qed.

Lemma committed_step s s' p c : wt s -> committed p c s -> step s s' -> committed p c s' \/ pst (procs s' p) = RUNNABLE.
Proof.
  intros W [(h & Et & Hf)|(Hoff & Hp & Hc)] Hstep.
  - pose proof (falling_locked s h p c W Et Hf) as Hin. left. destruct Hstep as [h0 s' _ E|h0 ws timer _ Hi].
    + destruct (decide (h0 = h)) as [->|Hne]; [by apply (exec_sleeper s h)|]. destruct (exec_frame s h0 s' W E) as (Fc & Fh & Fp). left. exists h. rewrite Fh by done. rewrite Fc by (intros E2; by apply Hne, (w_one _ W h0 h p)). rewrite Fp by (intros E2; by apply Hne, (w_mutex _ W (LProc p))). done.
    + assert (h0 <> h) by (intros ->; destruct (hart_quiet s h W Hi) as [HX _]; set_solver). left. exists h. unfold take_interrupt. cbn. rewrite fn_lookup_insert_ne by done. rewrite fn_lookup_insert_ne; [done|]. intros E2. by apply H, (w_one _ W h0 h p).
  - destruct Hstep as [h0 s' _ E|h0 ws timer _ Hi]; [by apply (exec_asleep s h0)|]. left. right. cbn. split; [|done]. intros h'. destruct (decide (h' = h0)) as [->|Hne]; [rewrite fn_lookup_insert; apply Hoff|rewrite fn_lookup_insert_ne by done; apply Hoff].
Qed.

(** ** The properties *)

(** C9. Spinlocks exclude each other across harts.  At every moment of every
    interleaving a lock has been won by one hart at most, and is marked locked
    exactly then; holding(), which reads the lock's fields without holding it,
    says yes only on that hart, and says yes there except in the two instants
    around the update of the cpu field; a hart that holds a lock has its
    interrupts off, and noff is the number of its locks (plus one inside acquire
    before the swap and inside release after the store). *)
Theorem spinlock_mutex prog st s : (forall p, Forall is_call (prog p)) -> reachable prog st s ->
  (forall lk h h', lk ∈ held (harts s h) -> lk ∈ held (harts s h') -> h = h') /\
  (forall lk, locked (locks s lk) = true <-> exists h, lk ∈ held (harts s h)) /\
  (forall lk h, smp_holding h lk s = true -> lk ∈ held (harts s h)) /\
  (forall lk h, lk ∈ held (harts s h) -> smp_holding h lk s = true \/ pending lk (code s (cur (harts s h)))) /\
  (forall h, held (harts s h) <> ∅ -> intr (harts s h) = false) /\
  (forall h, noff (harts s h) = (size (held (harts s h)) + extra (code s (cur (harts s h))))%nat).
Proof.
  intros Hp Hr. pose proof (reachable_wt _ _ _ Hp Hr) as W. split_and!; try apply W.
  - intros lk h. by apply holding_held.
  - intros lk h Hin. destruct (w_pend _ W lk h Hin) as [E|?]; [left|by right]. unfold smp_holding. apply andb_true_iff. split; [apply (w_locked _ W); eauto|by apply bool_decide_eq_true].
  - intros h HX. destruct (intr (harts s h)) eqn:Ei; [|done]. destruct (hart_quiet s h W Ei) as [? _]. done.
Qed.

(** C10. A process runs on one hart at most.  At every moment of every
    interleaving: no two harts run the same process; the proc field of a hart
    that runs a process names it; a process on a hart is RUNNING, or its lock is
    held by that hart (it is on its way out); so a process that another hart
    finds not RUNNING under its lock is on no hart. *)
Theorem smp_one_hart prog st s : (forall p, Forall is_call (prog p)) -> reachable prog st s ->
  (forall h h' p, cur (harts s h) = TProc p -> cur (harts s h') = TProc p -> h = h') /\
  (forall h p, cur (harts s h) = TProc p -> cproc (harts s h) = Some p) /\
  (forall h p, cur (harts s h) = TProc p -> pst (procs s p) = RUNNING \/ LProc p ∈ held (harts s h)) /\
  (forall h p, LProc p ∈ held (harts s h) -> cur (harts s h) <> TProc p -> pst (procs s p) <> RUNNING -> forall h', cur (harts s h') <> TProc p).
Proof.
  intros Hp Hr. pose proof (reachable_wt _ _ _ Hp Hr) as W. assert (Hrun : forall h p, cur (harts s h) = TProc p -> pst (procs s p) = RUNNING \/ LProc p ∈ held (harts s h)).
  { intros h p E. destruct (w_on _ W h) as (b & _ & _ & Hst). rewrite E in Hst. cbn in Hst. destruct b; [by right|by left]. }
  split_and!; [apply W|apply W|done|]. intros h p Hin Hc Hs h' E. destruct (Hrun h' p E) as [?|Hin']; [done|]. by rewrite (w_mutex _ W _ _ _ Hin' Hin) in E.
Qed.


(** ** Two harts: process 0 goes to sleep on hart 0, process 1 wakes it on hart 1 *)
Fixpoint smp_run (hs : list nat) (s : smp) : option smp := match hs with [] => Some s | h :: hs' => match hart_exec h s with None => None | Some s' => smp_run hs' s' end end.
Lemma run_reachable prog st hs s s' : reachable prog st s -> Forall (fun h => h < SMP_NCPU)%nat hs -> smp_run hs s = Some s' -> reachable prog st s'.
Proof.
  intros Hr Hh. revert s Hr. induction Hh as [|h hs Hh _ IH]; intros s Hr E; cbn in E; [by injection E as <-|]. destruct (hart_exec h s) as [s1|] eqn:E1; [|done]. apply (IH s1); [|done]. apply (reach_step _ _ s); [done|by apply (step_exec s h)].
Qed.

Definition two_prog (p : nat) : list item := match p with 0%nat => [Acquire (LCond 1); Sleep 7 1; Release (LCond 1)] | 1%nat => [Acquire (LCond 1); Wakeup 7; Release (LCond 1)] | _ => [] end.
Definition two_st (p : nat) : smp_procstate := if (p <? 2)%nat then RUNNABLE else UNUSED.
Definition two_init : smp := smp_init two_prog two_st.
(** Hart 1 runs process 1; on hart 0 process 0 is inside sleep, about to free the condition lock. *)
Definition two_sched : list nat := replicate 13 0%nat ++ replicate 22 1%nat ++ replicate 11 0%nat.
Definition two_state : smp := default two_init (smp_run two_sched two_init).

Lemma two_calls p : Forall is_call (two_prog p).
Proof. destruct p as [|[|p]]; repeat constructor. Qed.
Lemma two_reachable : reachable two_prog two_st two_state.
Proof.
  assert (E : smp_run two_sched two_init = Some two_state).
  { unfold two_state. destruct (smp_run two_sched two_init) eqn:E; [done|]. exfalso. assert (H : match smp_run two_sched two_init with Some _ => true | None => false end = true) by (by vm_compute). by rewrite E in H. }
  apply (run_reachable _ _ two_sched two_init); [constructor| |done]. unfold two_sched. repeat (apply Forall_app; split); apply Forall_replicate; unfold SMP_NCPU; lia.
Qed.

Lemma two_falling : cur (harts two_state 0) = TProc 0 /\ code two_state (TProc 0) = RelStore (LCond 1) :: sleep_tail 0 7 [SetChan 0 None; Release (LProc 0); Acquire (LCond 1); Release (LCond 1)] /\ cur (harts two_state 1) = TProc 1.
Proof. by vm_compute. Qed.

Lemma spinlock_mutex_witness : held (harts two_state 0) <> ∅ /\ intr (harts two_state 0) = false.
Proof.
  assert (Hne : held (harts two_state 0) <> ∅) by (by vm_compute). split; [exact Hne|].
  destruct (spinlock_mutex two_prog two_st two_state two_calls two_reachable) as (_ & _ & _ & _ & H & _). exact (H 0%nat Hne).
Defined.

Lemma smp_one_hart_witness : cur (harts two_state 0) = TProc 0 /\ forall h', cur (harts two_state h') = TProc 0 -> 0%nat = h'.
Proof.
  split; [exact (proj1 two_falling)|]. intros h' E. exact (proj1 (smp_one_hart two_prog two_st two_state two_calls two_reachable) 0%nat h' 0%nat (proj1 two_falling) E).
Defined.

