(* ===== verification/Sd.v ===== *)
(** * The SD card driver (platform/visionfive2/kernel/sd.c)

    The driver of the board's memory-card controller.  The controller is a state of type
    [D] with what a load from and a store to each of its registers does ([rd], [wr]); the
    driver is a program in the monad of Prelude.v over it.  A loop that gives up after
    ten million rounds is [rounds], by recursion on the binary number.  The registers that
    printk prints before a panic and the delay after a write are not modelled; sd_lock is the
    flag [sd_locked], and the driver is what the board's build compiles (PLATFORM_VISIONFIVE2). *)

From stdpp Require Import base list numbers.
From S2P Require Import Prelude Params CString Gpt.

(** ** Registers and bits *)
Definition SD_CTRL : Z := 0x000.
Definition SD_PWREN : Z := 0x004.
Definition SD_CLKDIV : Z := 0x008.
Definition SD_CLKSRC : Z := 0x00c.
Definition SD_CLKENA : Z := 0x010.
Definition SD_TMOUT : Z := 0x014.
Definition SD_CTYPE : Z := 0x018.
Definition SD_BLKSIZ : Z := 0x01c.
Definition SD_BYTCNT : Z := 0x020.
Definition SD_INTMASK : Z := 0x024.
Definition SD_CMDARG : Z := 0x028.
Definition SD_CMD : Z := 0x02c.
Definition SD_RESP0 : Z := 0x030.
Definition SD_RINTSTS : Z := 0x044.
Definition SD_STATUS : Z := 0x048.
Definition SD_FIFOTH : Z := 0x04c.
Definition SD_CDETECT : Z := 0x050.
Definition SD_UHS_REG : Z := 0x074.
Definition SD_BMOD : Z := 0x080.
Definition SD_DATA : Z := 0x200.
Definition CTRL_RESET_ALL : Z := 0x7.
Definition CMD_START : Z := 2 ^ 31.
Definition CMD_USE_HOLD : Z := 2 ^ 29.
Definition CMD_UPDATE_CLK : Z := 2 ^ 21.
Definition CMD_SEND_INIT : Z := 2 ^ 15.
Definition CMD_WAIT_DATA : Z := 2 ^ 13.
Definition CMD_WRITE : Z := 2 ^ 10.
Definition CMD_DATA : Z := 2 ^ 9.
Definition CMD_RESP_CRC : Z := 2 ^ 8.
Definition CMD_RESP_LONG : Z := 2 ^ 7.
Definition CMD_RESP : Z := 2 ^ 6.
Definition INT_CMD_DONE : Z := 2 ^ 2.
Definition INT_TXDR : Z := 2 ^ 4.
Definition INT_ERROR : Z := 0xbfc2.
Definition INT_ERROR_MASK : Z := Z.land INT_ERROR (Z.lnot (Z.lor (2 ^ 11) (Z.lor (2 ^ 9) (Z.lor (2 ^ 5) (Z.lor (2 ^ 4) (Z.lor (2 ^ 3) (2 ^ 2))))))).
Definition STATUS_FIFO_EMPTY : Z := 2 ^ 2.
Definition STATUS_FIFO_FULL : Z := 2 ^ 3.
Definition STATUS_DATA_BUSY : Z := 2 ^ 9.
Definition ALL_ONES : Z := 0xffffffff.
Definition TIMEOUT : positive := 10000000.
Definition lors (l : list Z) : Z := foldr Z.lor 0 l.
(** status & mask *)
Definition has (v mask : Z) : bool := negb (Z.land v mask =? 0).

Section Sd.
Context {D : Type} (rd : Z -> D -> Z * D) (wr : Z -> Z -> D -> D).

Record sd : Type := mkSd { dev : D; sd_locked : bool; card_rca : Z; partition_lba : Z }.
Abbreviation C := (M sd).
Definition with_dev (d : D) (s : sd) : sd := mkSd d (sd_locked s) (card_rca s) (partition_lba s).

Definition reg_read (off : Z) : C Z := fun s => let '(v, d) := rd off (dev s) in Ret v (with_dev d s).
Definition reg_write (off v : Z) : C unit := fun s => Ret tt (with_dev (wr off v (dev s)) s).

(** for (i = 0; i < p; i++) body, from [x]; [body] returns what the next round starts from,
    or leaves the loop with a result. *)
Fixpoint rounds {X R} (p : positive) (body : X -> C (X + R)) (x : X) : C (X + R) :=
  let next (m : X -> C (X + R)) (r : X + R) := match r with inl x => m x | inr _ => ret r end in
  match p with
  | xH => body x
  | xO q => let! r := rounds q body x in next (rounds q body) r
  | xI q => let! r := body x in next (fun x => let! r := rounds q body x in next (rounds q body) r) r
  end.

Definition wait_clear (off mask : Z) (message : string) : C unit :=
  let! r := rounds TIMEOUT (fun _ => let! v := reg_read off in ret (if has v mask then inl tt else inr tt)) tt in
  match r with inr _ => ret tt | inl _ => panic message end.

(** The wait for the command to complete, after the write to SD_CMD *)
Definition command_done (flags : Z) : C Z :=
  let! r := rounds TIMEOUT
    (fun _ =>
       let! status := reg_read SD_RINTSTS in
       if has status INT_ERROR_MASK then panic "sd: command error"
       else if has status INT_CMD_DONE then
         do! when (negb (has flags CMD_DATA)) (reg_write SD_RINTSTS status);
         let! v := reg_read SD_RESP0 in ret (inr v)
       else ret (inl tt)) tt in
  match r with inr v => ret v | inl _ => panic "sd: command completion timeout" end.
Definition command (index argument flags : Z) : C Z :=
  do! wait_clear SD_STATUS STATUS_DATA_BUSY "sd: data busy timeout";
  do! reg_write SD_RINTSTS ALL_ONES;
  do! reg_write SD_CMDARG argument;
  do! reg_write SD_CMD (lors [CMD_START; CMD_USE_HOLD; flags; index]);
  if has flags CMD_WRITE then ret 0 else command_done flags.

Definition update_clock : C unit :=
  do! reg_write SD_RINTSTS ALL_ONES;
  do! reg_write SD_CMD (lors [CMD_START; CMD_USE_HOLD; CMD_UPDATE_CLK; CMD_WAIT_DATA]);
  wait_clear SD_CMD CMD_START "sd: clock update timeout".

Definition set_clock (divisor : Z) : C unit :=
  do! reg_write SD_CLKENA 0; do! update_clock;
  do! reg_write SD_CLKSRC 0; do! reg_write SD_CLKDIV divisor; do! update_clock;
  do! reg_write SD_CLKENA 1; update_clock.

Definition fifo_reset : C unit :=
  let! v := reg_read SD_CTRL in
  do! reg_write SD_CTRL (Z.lor v 2);
  wait_clear SD_CTRL 2 "sd: fifo reset timeout".

(** while (words < 128 && the FIFO is not empty) data[words++] = the next word; [n] is 128 - words. *)
Fixpoint drain (n : nat) (data : list Z) : C (list Z) :=
  match n with
  | O => ret data
  | S n' =>
      let! v := reg_read SD_STATUS in
      if has v STATUS_FIFO_EMPTY then ret data else let! w := reg_read SD_DATA in drain n' (data ++ [w])
  end.
Definition WORDS : nat := 128.

(** A round of read_sector's loop: [data] is what has been read.  The loop is left when it has
    the 128 words, which the condition of its break needs too. *)
Definition read_round (data : list Z) : C (list Z + list Z) :=
  let! status := reg_read SD_RINTSTS in
  if has status INT_ERROR_MASK then panic "sd: read error"
  else
    let! data := drain (WORDS - length data) data in
    ret (if bool_decide (length data = WORDS) then inr data else inl data).
Definition read_sector (lba : Z) : C (list Z) :=
  if ALL_ONES <? lba then panic "sd: sector outside SDHC range"
  else
    do! reg_write SD_BLKSIZ 512;
    do! reg_write SD_BYTCNT 512;
    do! fifo_reset;
    do! command 17 (u32 lba) (lors [CMD_RESP; CMD_RESP_CRC; CMD_DATA; CMD_WAIT_DATA]);
    let! r := rounds TIMEOUT read_round [] in
    match r with
    | inl _ => panic "sd: data timeout"
    | inr data => do! reg_write SD_RINTSTS ALL_ONES; ret data
    end.

(** while (words < 128 && the FIFO is not full) send the next word *)
Fixpoint fill (data : list Z) : C (list Z) :=
  match data with
  | [] => ret []
  | w :: data' =>
      let! v := reg_read SD_STATUS in
      if has v STATUS_FIFO_FULL then ret data else do! reg_write SD_DATA w; fill data'
  end.
(** A round of write_sector's loop: [data] is what is left of the 128 words. *)
Definition write_round (data : list Z) : C (list Z + unit) :=
  let! status := reg_read SD_RINTSTS in
  if has status INT_ERROR_MASK then panic "sd: write error"
  else
    let! data := if has status INT_TXDR then
                   let! data := fill data in
                   do! reg_write SD_RINTSTS (Z.land status INT_TXDR); ret data
                 else ret data in
    ret (match data with [] => inr tt | _ => inl data end).
(** The wait for the command to complete: an error is fatal, but not that it never does. *)
Definition write_done : C unit :=
  let! _ := rounds TIMEOUT
    (fun _ =>
       let! rint := reg_read SD_RINTSTS in
       if has rint INT_ERROR_MASK then panic "sd: write cmddone error"
       else ret (if has rint INT_CMD_DONE then inr tt else inl tt)) tt in
  ret tt.
(** [data] is 128 words. *)
Definition write_sector (lba : Z) (data : list Z) : C unit :=
  if ALL_ONES <? lba then panic "sd: sector outside SDHC range"
  else
    do! reg_write SD_BLKSIZ 512;
    do! reg_write SD_BYTCNT 512;
    do! fifo_reset;
    do! command 24 (u32 lba) (lors [CMD_RESP; CMD_RESP_CRC; CMD_DATA; CMD_WRITE; CMD_WAIT_DATA]);
    let! r := rounds TIMEOUT write_round data in
    match r with
    | inl _ => panic "sd: write data timeout"
    | inr _ =>
        do! wait_clear SD_STATUS STATUS_DATA_BUSY "sd: write completion timeout";
        do! write_done;
        reg_write SD_RINTSTS ALL_ONES
    end.

(** ** jh7110_sd_init: the commands that bring the card up, then the partition *)
Definition op_cond (_ : unit) : C (unit + Z) :=
  do! command 55 0 (lors [CMD_RESP; CMD_RESP_CRC]);
  let! ocr := command 41 0x40300000 CMD_RESP in
  ret (if has ocr (2 ^ 31) then inr ocr else inl tt).
Definition sd_select : C unit :=
  do! command 2 0 (lors [CMD_RESP; CMD_RESP_LONG; CMD_RESP_CRC]);
  let! rca_resp := command 3 0 (lors [CMD_RESP; CMD_RESP_CRC]) in
  let rca := Z.land rca_resp 0xffff0000 in
  do! modify (fun s => mkSd (dev s) (sd_locked s) rca (partition_lba s));
  if rca =? 0 then panic "sd: invalid RCA"
  else
    do! command 7 rca (lors [CMD_RESP; CMD_RESP_CRC]);
    do! command 55 rca (lors [CMD_RESP; CMD_RESP_CRC]);
    do! command 6 2 (lors [CMD_RESP; CMD_RESP_CRC]);
    do! reg_write SD_CTYPE 1;
    set_clock 4.
Definition sd_bring_up : C unit :=
  do! modify (fun s => mkSd (dev s) false (card_rca s) (partition_lba s));
  let! v := reg_read SD_CDETECT in
  if has v 1 then panic "sd: no card detected"
  else
    do! reg_write SD_PWREN 1;
    do! reg_write SD_CTRL CTRL_RESET_ALL;
    do! wait_clear SD_CTRL CTRL_RESET_ALL "sd: controller reset timeout";
    do! reg_write SD_BMOD 0;
    do! reg_write SD_INTMASK 0;
    do! reg_write SD_TMOUT ALL_ONES;
    do! reg_write SD_FIFOTH (lors [Z.shiftl 2 28; Z.shiftl 16 16; 15]);
    do! reg_write SD_UHS_REG 0;
    do! set_clock 124;
    do! command 0 0 CMD_SEND_INIT;
    do! command 8 0x1aa (lors [CMD_RESP; CMD_RESP_CRC]);
    let! r := rounds 10000 op_cond tt in
    match r with
    | inl _ => panic "sd: SDHC initialization failed"
    | inr ocr => if negb (has ocr (2 ^ 30)) then panic "sd: SDHC initialization failed" else sd_select
    end.

(** The words of 512 bytes, and back *)
Definition words_of (data : list Z) : list Z := map (fun i => get_le 4 (4 * i) data) (seq 0 WORDS).
Definition bytes_of (ws : list Z) : list Z := concat (map (le_bytes 4) ws).

Definition jh7110_sd_init : C unit :=
  do! sd_bring_up;
  let! lba := gpt_find_xv6fs (fun lba => let! ws := read_sector lba in ret (bytes_of ws)) in
  modify (fun s => mkSd (dev s) (sd_locked s) (card_rca s) lba).

(** ** jh7110_sd_rw and jh7110_sd_intr *)
Definition sd_sector (data : list Z) (write : bool) (sector : Z) (i : nat) : C (list Z) :=
  if write then do! write_sector (u64 (sector + Z.of_nat i)) (words_of (drop (512 * i) data)); ret data
  else let! ws := read_sector (u64 (sector + Z.of_nat i)) in ret (splice (512 * i) (bytes_of ws) data).
(** [b] is the block number and the data of the buffer; the result is its new data. *)
Definition jh7110_sd_rw (b : Z * list Z) (write : bool) : C (list Z) :=
  let! s := gets id in
  if sd_locked s then panic "acquire"
  else
    do! modify (fun s => mkSd (dev s) true (card_rca s) (partition_lba s));
    let sector := u64 (partition_lba s + u64 (b.1 * 2)) in
    let! data := sd_sector b.2 write sector 0 in
    let! data := sd_sector data write sector 1 in
    do! modify (fun s => mkSd (dev s) false (card_rca s) (partition_lba s));
    ret data.

Definition jh7110_sd_intr : C unit :=
  let! status := reg_read SD_RINTSTS in
  do! reg_write SD_RINTSTS status;
  if has status INT_ERROR then panic "sd: interrupt error" else ret tt.
End Sd.
