(* ===== verification/SdSpec.v ===== *)
(** * The SD card driver as a block device

    What a card behind the controller promises, as two interfaces over an abstract
    [card] that the device's state denotes: [Conforms] (what the registers mean) and
    [Prompt] (the card reports no error and does not keep a poll waiting for more than
    [SLACK] reads).  The driver is proved against them: jh7110_sd_rw reads and writes
    the blocks of the partition and no other, and a simulated card meets both. *)

From stdpp Require Import base list numbers.
From S2P Require Import Prelude Params Gpt Sd.

(** ** The card *)
(** A data transfer: the words still to be sent to the host, or those received for a sector.
    A card with no transfer has nothing left to send. *)
Inductive transfer : Type := Sending (ws : list Z) | Receiving (lba : Z) (ws : list Z).
Record card : Type := mkCard { sectors : Z -> list Z; blksiz : Z; bytcnt : Z; cmdarg : Z; phase : transfer }.
Definition with_phase (t : transfer) (c : card) : card := mkCard (sectors c) (blksiz c) (bytcnt c) (cmdarg c) t.
Definition idle (c : card) : Prop := phase c = Sending [].

(** A received sector is stored when the controller no longer says busy. *)
Definition settle (c : card) : card :=
  match phase c with
  | Receiving lba ws =>
      if bool_decide (length ws = WORDS)
      then mkCard (fun l => if l =? lba then ws else sectors c l) (blksiz c) (bytcnt c) (cmdarg c) (Sending [])
      else c
  | Sending _ => c
  end.
Definition is_data_command (index : Z) (write : bool) (v : Z) : bool :=
  has v CMD_START && has v CMD_DATA && eqb (has v CMD_WRITE) write && (Z.land v 63 =? index).

(** ** The interfaces *)
Section Card.
Context {D : Type} (rd : Z -> D -> Z * D) (wr : Z -> Z -> D -> D).

Class Conforms (view : D -> card) : Prop := {
  c_read off d : off <> SD_STATUS -> off <> SD_DATA -> view (rd off d).2 = view d;
  c_status d : view (rd SD_STATUS d).2 = if has (rd SD_STATUS d).1 STATUS_DATA_BUSY then view d else settle (view d);
  c_recv d v d1 w ws : phase (view d) = Sending (w :: ws) -> rd SD_STATUS d = (v, d1) -> has v STATUS_FIFO_EMPTY = false ->
    (rd SD_DATA d1).1 = w /\ view (rd SD_DATA d1).2 = with_phase (Sending ws) (view d);
  c_rintsts v d : view (wr SD_RINTSTS v d) = view d;
  c_setup off v d : idle (view d) -> off <> SD_DATA -> (off = SD_CMD -> has v CMD_DATA = false) ->
    idle (view (wr off v d)) /\ sectors (view (wr off v d)) = sectors (view d);
  c_ctrl v d : idle (view d) -> view (wr SD_CTRL v d) = view d;
  c_blksiz v d : view (wr SD_BLKSIZ v d) = mkCard (sectors (view d)) v (bytcnt (view d)) (cmdarg (view d)) (phase (view d));
  c_bytcnt v d : view (wr SD_BYTCNT v d) = mkCard (sectors (view d)) (blksiz (view d)) v (cmdarg (view d)) (phase (view d));
  c_cmdarg v d : view (wr SD_CMDARG v d) = mkCard (sectors (view d)) (blksiz (view d)) (bytcnt (view d)) v (phase (view d));
  c_read_command v d : idle (view d) -> blksiz (view d) = 512 -> bytcnt (view d) = 512 -> is_data_command 17 false v = true ->
    view (wr SD_CMD v d) = with_phase (Sending (sectors (view d) (cmdarg (view d)))) (view d);
  c_write_command v d : idle (view d) -> blksiz (view d) = 512 -> bytcnt (view d) = 512 -> is_data_command 24 true v = true ->
    view (wr SD_CMD v d) = with_phase (Receiving (cmdarg (view d)) []) (view d);
  c_send d v d1 lba ws w : phase (view d) = Receiving lba ws -> (length ws < WORDS)%nat ->
    rd SD_STATUS d = (v, d1) -> has v STATUS_FIFO_FULL = false ->
    view (wr SD_DATA w d1) = with_phase (Receiving lba (ws ++ [w])) (view d);
}.

(** [slack d] bounds how many more polls go unanswered. *)
Definition SLACK : Z := 50000.
Class Prompt (view : D -> card) (slack : D -> Z) : Prop := {
  p_slack d : 0 <= slack d < SLACK;
  p_error d : has (rd SD_RINTSTS d).1 INT_ERROR_MASK = false;
  p_ctrl d : has (rd SD_CTRL d).1 2 = false \/ slack (rd SD_CTRL d).2 < slack d;
  p_busy d : (idle (view d) \/ exists lba ws, phase (view d) = Receiving lba ws /\ length ws = WORDS) ->
    has (rd SD_STATUS d).1 STATUS_DATA_BUSY = false \/ slack (rd SD_STATUS d).2 < slack d;
  p_done d w ws : phase (view d) = Sending (w :: ws) ->
    has (rd SD_RINTSTS d).1 INT_CMD_DONE = true \/ slack (rd SD_RINTSTS d).2 < slack d;
  p_avail d w ws : phase (view d) = Sending (w :: ws) -> let d1 := (rd SD_RINTSTS d).2 in
    has (rd SD_STATUS d1).1 STATUS_FIFO_EMPTY = false \/ slack (rd SD_STATUS d1).2 < slack d;
  p_room d lba ws : phase (view d) = Receiving lba ws -> (length ws < WORDS)%nat -> let d1 := (rd SD_RINTSTS d).2 in
    if has (rd SD_RINTSTS d).1 INT_TXDR then has (rd SD_STATUS d1).1 STATUS_FIFO_FULL = false else slack d1 < slack d;
}.
End Card.

(** ** Triples over the device

    [spec P m Q]: from a device that satisfies [P] the driver's code changes only the device, and
    panics only if [may]. *)
Section Triples.
Context {D : Type} (rd : Z -> D -> Z * D) (wr : Z -> Z -> D -> D) (may : Prop).

Definition spec {A} (P : D -> Prop) (m : M sd A) (Q : A -> D -> Prop) : Prop :=
  forall s, P (dev s) -> runs may m s (fun a s' => s' = with_dev (dev s') s /\ Q a (dev s')).

Lemma spec_ret {A} (a : A) (P : D -> Prop) (Q : A -> D -> Prop) : (forall d, P d -> Q a d) -> spec P (ret a) Q.
Proof. intros H s Hs. split; [by destruct s|by apply H]. Qed.
Lemma spec_panic {A} e P (Q : A -> D -> Prop) : may -> spec P (panic e) Q.
Proof. by intros H s Hs. Qed.
Lemma spec_bind {A B} (m : M sd A) (k : A -> M sd B) P R Q : spec P m R -> (forall a, spec (R a) (k a) Q) -> spec P (bind m k) Q.
Proof.
  intros H1 H2 s Hs. eapply runs_bind; [by apply H1|]. intros a s1 [E1 HR].
  eapply runs_mono; [by apply H2|]. cbv beta. intros b s2 [E2 HQ]. split; [|done]. rewrite E2, E1. done.
Qed.
Lemma spec_mono {A} (m : M sd A) (P P' : D -> Prop) (Q Q' : A -> D -> Prop) :
  spec P' m Q' -> (forall d, P d -> P' d) -> (forall a d, Q' a d -> Q a d) -> spec P m Q.
Proof. intros H HP HQ s Hs. eapply runs_mono; [by apply H, HP|]. cbv beta. intros a s' [? ?]. eauto. Qed.
(** A register is read or written first. *)
Lemma spec_read {B} off (k : Z -> M sd B) P Q :
  (forall d v d', P d -> rd off d = (v, d') -> spec (fun x => x = d') (k v) Q) -> spec P (bind (reg_read rd off) k) Q.
Proof.
  intros H s Hs. unfold runs, bind, reg_read. destruct (rd off (dev s)) as [v d'] eqn:E.
  exact (H _ _ _ Hs E (with_dev d' s) eq_refl).
Qed.
Lemma spec_write {B} off v (k : unit -> M sd B) P Q :
  spec (fun x => exists d, P d /\ x = wr off v d) (k tt) Q -> spec P (bind (reg_write wr off v) k) Q.
Proof.
  intros H s Hs. unfold runs, bind, reg_write. apply (H (with_dev (wr off v (dev s)) s)). by exists (dev s).
Qed.

(** The loop rule: [I] holds at the start of each round, and each round that does not leave the
    loop makes [measure] smaller or shows [stop]. *)
Section Rounds.
Context {X R : Type} (body : X -> M (@sd D) (X + R)) (I : X -> D -> Prop) (Q : R -> D -> Prop) (measure : X -> D -> Z) (stop : Prop).
Definition left_by (n : Z) (x : X) (d : D) (r : X + R) (d' : D) : Prop :=
  match r with inr y => Q y d' | inl x' => I x' d' /\ (stop \/ measure x' d' + n <= measure x d) end.
Context (Hbody : forall x d, I x d -> spec (fun d' => d' = d) (body x) (left_by 1 x d)).

Lemma then_rounds n n' (m m' : X -> M (@sd D) (X + R)) x d :
  spec (fun d' => d' = d) (m x) (left_by n x d) ->
  (forall x d, I x d -> spec (fun d' => d' = d) (m' x) (left_by n' x d)) ->
  spec (fun d' => d' = d) (let! r := m x in match r with inl x => m' x | inr _ => ret r end) (left_by (n + n') x d).
Proof.
  intros H1 H2. eapply spec_bind; [exact H1|]. intros [x1|y]; [|by apply spec_ret]. intros s [Hi Hd].
  eapply runs_mono; [exact (H2 x1 _ Hi s eq_refl)|]. cbv beta. intros [x2|y] s' [E Hl]; (split; [done|]); [|done].
  destruct Hl as [Hi' Hd']. split; [done|]. destruct Hd; [by left|]. destruct Hd'; [by left|]. right. lia.
Qed.
Lemma spec_rounds_loop p : forall x d, I x d -> spec (fun d' => d' = d) (rounds p body x) (left_by (Z.pos p) x d).
Proof.
  induction p as [q IH|q IH|]; intros x d Hi; cbn [rounds]; [| |by apply Hbody].
  - replace (Z.pos q~1) with (1 + (Z.pos q + Z.pos q)) by lia.
    apply (then_rounds 1 _ body); [by apply Hbody|]. intros x' d' Hi'. apply (then_rounds _ _ (rounds q body)); [by apply IH|done].
  - replace (Z.pos q~0) with (Z.pos q + Z.pos q) by lia. apply (then_rounds _ _ (rounds q body)); [by apply IH|done].
Qed.
End Rounds.

(** A loop that would give up panics. *)
Lemma spec_rounds {X R A} (body : X -> M (@sd D) (X + R)) (I : X -> D -> Prop) (Q : R -> D -> Prop) (measure : X -> D -> Z) p x (k : X + R -> M (@sd D) A) (Q' : A -> D -> Prop) :
  (forall x d, I x d -> spec (fun d' => d' = d) (body x) (left_by I Q measure may 1 x d)) ->
  (forall x d, I x d -> may \/ 0 <= measure x d < Z.pos p) ->
  (forall x, may -> spec (fun _ => True) (k (inl x)) Q') -> (forall y, spec (Q y) (k (inr y)) Q') ->
  spec (I x) (bind (rounds p body x) k) Q'.
Proof.
  intros Hb Hm Hl Hr. eapply (spec_bind _ _ _ (fun r d => match r with inr y => Q y d | inl _ => may end)).
  - intros s Hs. eapply runs_mono; [exact (spec_rounds_loop body I Q measure may Hb p x _ Hs s eq_refl)|].
    cbv beta. intros [x'|y] s' [E H]; (split; [done|]); [|done]. destruct H as [Hi [H|H]]; [done|].
    destruct (Hm _ _ Hs) as [?|H1]; [done|]. destruct (Hm _ _ Hi) as [?|H2]; [done|]. lia.
  - intros [x'|y]; [|apply Hr]. intros s H. by apply (Hl x' H s).
Qed.
End Triples.

(** ** The driver *)
Section Driver.
Context {D : Type} (rd : Z -> D -> Z * D) (wr : Z -> Z -> D -> D) (view : D -> card) (slack : D -> Z) (may : Prop).
Context `{!Conforms rd wr view} (Hmay : may \/ Prompt rd view slack).
Abbreviation Spec := (spec may).
Definition at_card (c : card) (d : D) : Prop := view d = c.

Lemma read_error_ok (d : D) v d' e (P : D -> Prop) {A} (Q : A -> D -> Prop) m :
  rd SD_RINTSTS d = (v, d') -> Spec P m Q -> Spec P (if has v INT_ERROR_MASK then panic e else m) Q.
Proof.
  intros E H. destruct (has v INT_ERROR_MASK) eqn:Ev; [|done]. apply spec_panic. destruct Hmay as [|HP]; [done|].
  pose proof (p_error rd d) as Hp. rewrite E in Hp. cbn [fst snd] in Hp. congruence.
Qed.
Lemma rintsts_view d v d' : rd SD_RINTSTS d = (v, d') -> view d' = view d.
Proof. intros E. pose proof (c_read rd wr SD_RINTSTS d) as H. rewrite E in H. by apply H. Qed.
Lemma status_view d v d' : rd SD_STATUS d = (v, d') -> settle (view d) = view d -> view d' = view d.
Proof. intros E H. pose proof (c_status rd wr d) as Hs. rewrite E, H in Hs. cbn [fst snd] in Hs. by destruct (has _ _). Qed.
Lemma slack_ok (d : D) : may \/ 0 <= slack d < SLACK.
Proof. destruct Hmay as [|HP]; [by left|]. right. apply (p_slack rd). Qed.
Lemma slack_timeout (d : D) : may \/ 0 <= slack d < Z.pos TIMEOUT.
Proof. destruct (slack_ok d); [by left|]. right. unfold SLACK, TIMEOUT in *. lia. Qed.

(** wait_clear returns when a poll sees the bits clear. *)
Lemma wait_clear_ok off mask msg (P Q : D -> Prop) :
  (forall d v d', P d -> rd off d = (v, d') -> if has v mask then P d' /\ (may \/ slack d' < slack d) else Q d') ->
  Spec P (wait_clear rd off mask msg) (fun _ => Q).
Proof.
  intros H. unfold wait_clear. apply (spec_rounds may _ (fun _ => P) (fun _ => Q) (fun _ => slack)).
  - intros ? d Hd. apply spec_read. intros ? v d' -> E. specialize (H _ _ _ Hd E). apply spec_ret. intros ? ->. unfold left_by.
    destruct (has v mask); [|done]. destruct H as [H [H1|H1]]; (split; [done|]); [by left|right; lia].
  - intros _ d _. apply slack_timeout.
  - intros _ Hm. by apply spec_panic.
  - intros _. by apply spec_ret.
Qed.
Lemma wait_busy_ok c msg : idle c \/ (exists lba ws, phase c = Receiving lba ws /\ length ws = WORDS) ->
  Spec (at_card c) (wait_clear rd SD_STATUS STATUS_DATA_BUSY msg) (fun _ => at_card (settle c)).
Proof.
  intros Hc. apply wait_clear_ok. intros d v d' Hd E. unfold at_card in *. subst c. pose proof (c_status rd wr d) as Hs. rewrite E in Hs. cbn [fst snd] in Hs.
  destruct (has v STATUS_DATA_BUSY) eqn:Ev; [|done]. split; [done|]. destruct Hmay as [|HP]; [by left|]. right.
  pose proof (p_busy rd d Hc) as Hp. rewrite E in Hp. cbn [fst snd] in Hp. destruct Hp; [congruence|done].
Qed.
Lemma fifo_reset_ok c : idle c -> Spec (at_card c) (fifo_reset rd wr) (fun _ => at_card c).
Proof.
  intros Hc. unfold fifo_reset. apply spec_read. intros d v d' Hd E.
  assert (Hctrl : forall d v d', rd SD_CTRL d = (v, d') -> view d' = view d).
  { intros d1 v1 d1' E1. pose proof (c_read rd wr SD_CTRL d1) as H. rewrite E1 in H. by apply H. }
  apply spec_write. apply (spec_mono may _ _ (at_card c) _ (fun _ => at_card c)); [| |done].
  - apply wait_clear_ok. intros d1 v1 d1' H1 E1. unfold at_card in *. rewrite (Hctrl _ _ _ E1). destruct (has v1 2) eqn:Ev; [|done]. split; [done|].
    destruct Hmay as [|HP]; [by left|]. right. pose proof (p_ctrl rd d1) as Hp. rewrite E1 in Hp. cbn [fst snd] in Hp. destruct Hp; [congruence|done].
  - intros ? (? & -> & ->). unfold at_card in *. rewrite (c_ctrl rd wr); rewrite (Hctrl _ _ _ E), Hd; done.
Qed.

(** A data command, up to its first wait: the card has the argument and has started the transfer. *)
Definition issue (a : Z) (c : card) : card := mkCard (sectors c) (blksiz c) (bytcnt c) a (phase c).
Lemma command_issue {A} c index a flags (k : M sd A) Q : idle c ->
  (forall d, idle (view d) -> Spec (fun x => x = wr SD_CMD (lors [CMD_START; CMD_USE_HOLD; flags; index]) d /\ view d = issue a c) k Q) ->
  Spec (at_card c) (do! wait_clear rd SD_STATUS STATUS_DATA_BUSY "sd: data busy timeout";
               do! reg_write wr SD_RINTSTS ALL_ONES; do! reg_write wr SD_CMDARG a;
               do! reg_write wr SD_CMD (lors [CMD_START; CMD_USE_HOLD; flags; index]); k) Q.
Proof.
  intros Hc H. eapply spec_bind; [by apply wait_busy_ok; left|]. cbv beta. intros _.
  replace (settle c) with c; [|unfold settle; by rewrite Hc].
  do 3 apply spec_write. intros s (d & (d1 & (d2 & Hd2 & ->) & ->) & E). unfold at_card in Hd2.
  assert (Hv : view (wr SD_CMDARG a (wr SD_RINTSTS ALL_ONES d2)) = issue a c).
  { rewrite (c_cmdarg rd wr), (c_rintsts rd wr). by subst c. }
  apply (H (wr SD_CMDARG a (wr SD_RINTSTS ALL_ONES d2))); [by unfold idle; rewrite Hv|done].
Qed.

Definition ready_card (c : card) : Prop := idle c /\ blksiz c = 512 /\ bytcnt c = 512.
Lemma command_read_ok c a : ready_card c -> length (sectors c a) = WORDS ->
  Spec (at_card c) (command rd wr 17 a (lors [CMD_RESP; CMD_RESP_CRC; CMD_DATA; CMD_WAIT_DATA]))
    (fun _ => at_card (with_phase (Sending (sectors c a)) (issue a c))).
Proof.
  intros (Hc & Hb & Hn) Hl. unfold command. apply command_issue; [done|]. intros d Hd.
  set (c' := with_phase _ _). cbn [has]. change (has _ CMD_WRITE) with false. cbn iota.
  apply (spec_mono may _ _ (at_card c') _ (fun _ => at_card c')); [| |done].
  - unfold command_done. apply (spec_rounds may _ (fun _ => at_card c') (fun _ => at_card c') (fun _ => slack)).
    + intros x d1 H1. apply spec_read. intros ? v d2 -> E. eapply read_error_ok; [done|].
      pose proof (rintsts_view _ _ _ E) as Hv. destruct (has v INT_CMD_DONE) eqn:Ev.
      * change (negb (has _ CMD_DATA)) with false. cbn [when]. eapply spec_bind; [by apply (spec_ret may tt _ (fun _ x => x = d2))|]. intros ?. apply spec_read. intros ? w d3 -> E3. apply spec_ret. intros ? ->. cbn.
        pose proof (c_read rd wr SD_RESP0 d2) as H3. rewrite E3 in H3. cbn [fst snd] in H3. unfold at_card in *. rewrite H3; [congruence|done|done].
      * apply spec_ret. intros ? ->. cbn. unfold at_card in *. split; [congruence|]. destruct Hmay as [|HP]; [by left|]. right.
        destruct (sectors c a) as [|w ws] eqn:Es; [done|]. assert (Hp : phase (view d1) = Sending (w :: ws)); [by rewrite H1|].
        apply (p_done rd) in Hp. rewrite E in Hp. cbn [fst snd] in Hp. destruct Hp; [congruence|lia].
    + intros _ d1 _. apply slack_timeout.
    + intros _ Hm. by apply spec_panic.
    + intros v. by apply spec_ret.
  - intros ? [-> Hv]. unfold at_card. rewrite (c_read_command rd wr); rewrite ?Hv; done.
Qed.
Lemma command_write_ok c a : ready_card c ->
  Spec (at_card c) (command rd wr 24 a (lors [CMD_RESP; CMD_RESP_CRC; CMD_DATA; CMD_WRITE; CMD_WAIT_DATA]))
    (fun _ => at_card (with_phase (Receiving a []) (issue a c))).
Proof.
  intros (Hc & Hb & Hn). unfold command. apply command_issue; [done|]. intros d Hd.
  change (has _ CMD_WRITE) with true. cbn iota. apply spec_ret. intros ? [-> Hv].
  unfold at_card. rewrite (c_write_command rd wr); rewrite ?Hv; done.
Qed.

(** *** Reading a sector: [data] has been received, the rest of [full] is still to come. *)
Definition incoming (c : card) (full data : list Z) (d : D) : Prop :=
  exists rest, view d = with_phase (Sending rest) c /\ data ++ rest = full.

Lemma incoming_more c full data d : incoming c full data d -> (length data < length full)%nat ->
  exists w rest, phase (view d) = Sending (w :: rest) /\ view d = with_phase (Sending (w :: rest)) c /\ full = (data ++ [w]) ++ rest.
Proof.
  intros (rest & Hv & <-) Hl. destruct rest as [|w rest]; [rewrite app_nil_r in Hl; lia|].
  exists w, rest. split_and!; [by rewrite Hv|done|by rewrite <- app_assoc].
Qed.
(** A word is taken when the FIFO is not empty. *)
Lemma take_word {A} c full data d v d' (k : Z -> M sd A) Q : incoming c full data d -> (length data < length full)%nat ->
  rd SD_STATUS d = (v, d') -> has v STATUS_FIFO_EMPTY = false ->
  (forall w, Spec (incoming c full (data ++ [w])) (k w) Q) ->
  Spec (fun x => x = d') (bind (reg_read rd SD_DATA) k) Q.
Proof.
  intros Hi Hl E Ev H. destruct (incoming_more _ _ _ _ Hi Hl) as (w & rest & Hp & Hv & Hf).
  destruct (c_recv rd wr _ _ _ _ _ Hp E Ev) as [Hw Hv']. apply spec_read. intros ? w' d2 -> E2. rewrite E2 in Hw, Hv'. cbn [fst snd] in Hw, Hv'. subst w'.
  eapply spec_mono; [apply H| |done]. cbv beta. intros ? ->. exists rest. split; [|done]. by rewrite Hv', Hv.
Qed.
Lemma incoming_status c full data d v d' : incoming c full data d -> rd SD_STATUS d = (v, d') -> incoming c full data d'.
Proof. intros (rest & Hv & Hf) E. exists rest. split; [|done]. rewrite (status_view _ _ _ E); [done|]. unfold settle. by rewrite Hv. Qed.
Lemma incoming_rintsts c full data d v d' : incoming c full data d -> rd SD_RINTSTS d = (v, d') -> incoming c full data d'.
Proof. intros (rest & Hv & Hf) E. exists rest. split; [|done]. by rewrite (rintsts_view _ _ _ E). Qed.

Lemma drain_ok c full n : forall data, (n + length data = length full)%nat ->
  Spec (incoming c full data) (drain rd n data) (fun data' d => incoming c full data' d /\ (length data <= length data' <= length full)%nat).
Proof.
  induction n as [|n IH]; intros data Hn; cbn [drain]; [apply spec_ret; intros d Hd; split; [done|lia]|].
  apply spec_read. intros d v d' Hd E. destruct (has v STATUS_FIFO_EMPTY) eqn:Ev.
  - apply spec_ret. intros ? ->. split; [by eapply incoming_status|lia].
  - eapply take_word; [done|lia|done|done|]. intros w. eapply spec_mono; [apply IH; autorewrite with lens; cbn; lia|done|].
    cbv beta. intros data' d1 [H1 H2]. split; [done|]. rewrite length_app in H2. cbn in H2. lia.
Qed.

Definition read_left (data : list Z) (d : D) : Z := (128 - Z.of_nat (length data)) * SLACK + slack d.
Lemma read_round_ok c full data d : length full = WORDS -> incoming c full data d /\ (length data < WORDS)%nat ->
  Spec (fun d' => d' = d) (read_round rd data)
    (left_by (fun data d => incoming c full data d /\ (length data < WORDS)%nat)
             (fun data d => data = full /\ view d = with_phase (Sending []) c) read_left may 1 data d).
Proof.
  intros Hf [Hd Hl]. unfold read_round. apply spec_read. intros ? v d1 -> E. eapply read_error_ok; [done|].
  pose proof (incoming_rintsts _ _ _ _ _ _ Hd E) as H1. unfold WORDS in *.
  eapply (spec_bind may _ _ _ (fun data' d' => incoming c full data' d' /\ (length data <= length data' <= 128)%nat /\ (may \/ read_left data' d' + 1 <= read_left data d))).
  - destruct (128 - length data)%nat as [|n] eqn:En; [lia|]. cbn [drain]. apply spec_read. intros ? v2 d2 -> E2.
    destruct (has v2 STATUS_FIFO_EMPTY) eqn:Ev.
    + apply spec_ret. intros ? ->. split_and!; [by eapply incoming_status|lia|lia|]. destruct Hmay as [|HP]; [by left|]. right.
      destruct (incoming_more _ _ _ _ Hd) as (w & rest & Hp & _); [lia|]. apply (p_avail rd) in Hp. rewrite E in Hp. cbn [fst snd] in Hp. rewrite E2 in Hp. cbn [fst snd] in Hp.
      unfold read_left. destruct Hp; [congruence|lia].
    + eapply take_word; [exact H1|lia|done|done|]. intros w. eapply spec_mono; [apply (drain_ok c full); autorewrite with lens; cbn; lia|done|].
      cbv beta. intros data' d' [H2 H3]. rewrite length_app in H3. cbn in H3. split_and!; [done|lia|lia|].
      destruct (slack_ok d'); [by left|]. destruct (slack_ok d); [by left|]. right. unfold read_left, SLACK in *. nia.
  - intros data'. apply spec_ret. intros d' (H2 & H3 & H4). case_bool_decide as Hw; cbn.
    + destruct H2 as (rest & Hv & Hf'). assert (rest = []) as ->; [apply length_zero_iff_nil; rewrite <- Hf', length_app in Hf; lia|].
      split; [by rewrite <- Hf', app_nil_r|done].
    + split; [split; [done|lia]|done].
Qed.

Lemma set_sizes {A} c (k : M sd A) Q :
  Spec (at_card (mkCard (sectors c) 512 512 (cmdarg c) (phase c))) k Q ->
  Spec (at_card c) (do! reg_write wr SD_BLKSIZ 512; do! reg_write wr SD_BYTCNT 512; k) Q.
Proof.
  intros H. do 2 apply spec_write. eapply spec_mono; [exact H| |done]. unfold at_card.
  intros ? (? & (d & <- & ->) & ->). by rewrite (c_bytcnt rd wr), (c_blksiz rd wr).
Qed.
(** The state between two transfers: the sectors are [f]. *)
Definition holds (f : Z -> list Z) (d : D) : Prop := idle (view d) /\ sectors (view d) = f.
Lemma spec_holds {A} f (m : M sd A) Q : (forall c, idle c -> sectors c = f -> Spec (at_card c) m Q) -> Spec (holds f) m Q.
Proof. intros H s [H1 H2]. by apply (H (view (dev s))). Qed.

Lemma read_sector_ok f lba : 0 <= lba -> may \/ lba <= ALL_ONES -> (forall l, length (f l) = WORDS) ->
  Spec (holds f) (read_sector rd wr lba) (fun ws d => ws = f lba /\ holds f d).
Proof.
  intros H0 Hr Hf. unfold read_sector. destruct (Z.ltb_spec ALL_ONES lba) as [Hlt|Hle].
  { apply spec_panic. destruct Hr; [done|lia]. }
  rewrite u32_small by (unfold ALL_ONES in *; lia). apply spec_holds. intros c Hc <-. apply set_sizes.
  eapply spec_bind; [by apply fifo_reset_ok|]. intros ?. eapply spec_bind; [apply command_read_ok; [done|apply Hf]|].
  cbv beta. cbn [sectors]. intros _. set (c' := issue _ _).
  apply (spec_mono may _ _ (fun d => incoming c' (sectors c lba) [] d /\ (length (@nil Z) < WORDS)%nat) _ (fun ws d => ws = sectors c lba /\ holds (sectors c) d)); [| |done].
  - apply (spec_rounds may _ (fun data d => incoming c' (sectors c lba) data d /\ (length data < WORDS)%nat)
        (fun data d => data = sectors c lba /\ view d = with_phase (Sending []) c') read_left).
    + intros data d. by apply read_round_ok.
    + intros data d [_ Hl]. destruct (slack_ok d); [by left|]. right. unfold read_left, SLACK, TIMEOUT, WORDS in *. lia.
    + intros _ Hm. by apply spec_panic.
    + intros data. apply spec_write. apply spec_ret. intros ? (d & [-> Hv] & ->). split; [done|]. unfold holds. by rewrite (c_rintsts rd wr), Hv.
  - intros d Hd. split; [|unfold WORDS; cbn; lia]. by exists (sectors c lba).
Qed.

(** *** Writing a sector: all of [full] but [data] has been sent. *)
Definition outgoing (c : card) (lba : Z) (full data : list Z) (d : D) : Prop :=
  exists sent, view d = with_phase (Receiving lba sent) c /\ sent ++ data = full.

Lemma outgoing_rintsts c lba full data d v d' : outgoing c lba full data d -> rd SD_RINTSTS d = (v, d') -> outgoing c lba full data d'.
Proof. intros (sent & Hv & Hf) E. exists sent. split; [|done]. by rewrite (rintsts_view _ _ _ E). Qed.
Lemma outgoing_room c lba full w data d : length full = WORDS -> outgoing c lba full (w :: data) d ->
  exists sent, phase (view d) = Receiving lba sent /\ (length sent < WORDS)%nat /\ view d = with_phase (Receiving lba sent) c /\ full = (sent ++ [w]) ++ data.
Proof.
  intros Hl (sent & Hv & Hf). exists sent. split_and!; [by rewrite Hv| |done|by rewrite <- app_assoc].
  rewrite <- Hl, <- Hf, length_app. cbn. lia.
Qed.
Lemma outgoing_status c lba full w data d v d' : length full = WORDS -> outgoing c lba full (w :: data) d -> rd SD_STATUS d = (v, d') -> outgoing c lba full (w :: data) d'.
Proof.
  intros Hl Ho E. destruct (outgoing_room _ _ _ _ _ _ Hl Ho) as (sent & Hp & Hs & Hv & Hf). exists sent. split; [|by rewrite Hf, <- app_assoc].
  rewrite (status_view _ _ _ E); [done|]. unfold settle. rewrite Hp. case_bool_decide; [lia|done].
Qed.
(** A word is sent when the FIFO is not full. *)
Lemma put_word {A} c lba full w data d v d' (k : unit -> M sd A) Q : length full = WORDS -> outgoing c lba full (w :: data) d ->
  rd SD_STATUS d = (v, d') -> has v STATUS_FIFO_FULL = false -> Spec (outgoing c lba full data) (k tt) Q ->
  Spec (fun x => x = d') (bind (reg_write wr SD_DATA w) k) Q.
Proof.
  intros Hl Ho E Ev H. destruct (outgoing_room _ _ _ _ _ _ Hl Ho) as (sent & Hp & Hs & Hv & Hf).
  apply spec_write. eapply spec_mono; [exact H| |done]. cbv beta. intros ? (? & -> & ->). exists (sent ++ [w]). split; [|done].
  rewrite (c_send rd wr _ _ _ _ _ w Hp Hs E Ev). by rewrite Hv.
Qed.

Lemma fill_ok c lba full : length full = WORDS -> forall data,
  Spec (outgoing c lba full data) (fill rd wr data) (fun data' d => outgoing c lba full data' d /\ (length data' <= length data)%nat).
Proof.
  intros Hl. induction data as [|w data IH]; cbn [fill]; [by apply spec_ret|]. apply spec_read. intros d v d' Hd E.
  destruct (has v STATUS_FIFO_FULL) eqn:Ev.
  - apply spec_ret. intros ? ->. split; [by eapply outgoing_status|done].
  - eapply put_word; [done|done|done|done|]. eapply spec_mono; [exact IH|done|]. cbv beta. intros data' d1 [H1 H2]. cbn. split; [done|lia].
Qed.
(** When the card says it wants data, it takes at least a word. *)
Lemma fill_progress c lba full data d d1 v : length full = WORDS -> outgoing c lba full data d -> data <> [] ->
  rd SD_RINTSTS d = (v, d1) -> has v INT_TXDR = true ->
  Spec (fun d' => d' = d1) (fill rd wr data) (fun data' d => outgoing c lba full data' d /\ (may \/ (length data' < length data)%nat)).
Proof.
  intros Hl Hd Hn E Et. destruct data as [|w data]; [done|]. cbn [fill]. pose proof (outgoing_rintsts _ _ _ _ _ _ _ Hd E) as H1.
  apply spec_read. intros ? v2 d2 -> E2. destruct (has v2 STATUS_FIFO_FULL) eqn:Ev.
  - apply spec_ret. intros ? ->. split; [by eapply outgoing_status|]. destruct Hmay as [|HP]; [by left|].
    destruct (outgoing_room _ _ _ _ _ _ Hl Hd) as (sent & Hp & Hs & _). pose proof (p_room rd _ _ _ Hp Hs) as Hr. rewrite E in Hr. cbn [fst snd] in Hr.
    rewrite Et, E2 in Hr. cbn [fst snd] in Hr. congruence.
  - eapply put_word; [done|exact H1|done|done|]. eapply spec_mono; [by apply fill_ok|done|]. cbv beta. intros data' d' [H2 H3]. split; [done|]. right. cbn. lia.
Qed.

Definition write_left (data : list Z) (d : D) : Z := Z.of_nat (length data) * SLACK + slack d.
Definition unsent (c : card) (lba : Z) (full data : list Z) (d : D) : Prop := outgoing c lba full data d /\ data <> [].
Lemma write_round_ok c lba full data d : length full = WORDS -> unsent c lba full data d ->
  Spec (fun d' => d' = d) (write_round rd wr data)
    (left_by (unsent c lba full) (fun _ => at_card (with_phase (Receiving lba full) c)) write_left may 1 data d).
Proof.
  intros Hl [Hd Hn]. unfold write_round. apply spec_read. intros ? v d1 -> E. eapply read_error_ok; [done|].
  eapply (spec_bind may _ _ _ (fun data' d' => outgoing c lba full data' d' /\ (may \/ write_left data' d' + 1 <= write_left data d))).
  - destruct (has v INT_TXDR) eqn:Et.
    + eapply spec_bind; [by eapply fill_progress|]. intros data'. apply spec_write, spec_ret. intros ? (d' & [(sent & Hv & Hf) Hp] & ->). split.
      { exists sent. by rewrite (c_rintsts rd wr). }
      destruct Hp; [by left|]. destruct (slack_ok d); [by left|]. destruct (slack_ok (wr SD_RINTSTS (Z.land v INT_TXDR) d')); [by left|].
      right. unfold write_left, SLACK in *. nia.
    + apply spec_ret. intros ? ->. split; [by eapply outgoing_rintsts|]. destruct Hmay as [|HP]; [by left|]. destruct data as [|w data]; [done|].
      destruct (outgoing_room _ _ _ _ _ _ Hl Hd) as (sent & Hp & Hs & _). pose proof (p_room rd _ _ _ Hp Hs) as Hr. rewrite E in Hr. cbn [fst snd] in Hr.
      rewrite Et in Hr. right. unfold write_left. lia.
  - intros [|w data']; apply spec_ret; intros d' [H2 H3]; cbn; [|by split].
    destruct H2 as (sent & Hv & Hf). rewrite app_nil_r in Hf. by subst sent.
Qed.
Lemma write_done_ok c : Spec (at_card c) (write_done rd) (fun _ => at_card c).
Proof.
  unfold write_done. eapply (spec_bind may _ _ _ (fun _ => at_card c)); [|intros r; by apply spec_ret]. intros s Hs.
  eapply runs_mono; [apply (spec_rounds_loop may _ (fun _ => at_card c) (fun _ => at_card c) (fun _ => slack) True) with (d := dev s); [|done|done]|].
  - intros x d Hd. apply spec_read. intros ? v d' -> E. eapply read_error_ok; [done|]. apply spec_ret. intros ? ->.
    assert (at_card c d'); [unfold at_card in *; by rewrite (rintsts_view _ _ _ E)|]. destruct (has v INT_CMD_DONE); cbn; [done|]. split; [done|by left].
  - cbv beta. intros [x|y] s' [H1 H2]; (split; [done|]); [by destruct H2|done].
Qed.

Lemma write_sector_ok f lba data : 0 <= lba -> may \/ lba <= ALL_ONES -> length data = WORDS ->
  Spec (holds f) (write_sector rd wr lba data) (fun _ => holds (fun l => if l =? lba then data else f l)).
Proof.
  intros H0 Hr Hl. unfold write_sector. destruct (Z.ltb_spec ALL_ONES lba) as [Hlt|Hle].
  { apply spec_panic. destruct Hr; [done|lia]. }
  rewrite u32_small by (unfold ALL_ONES in *; lia). apply spec_holds. intros c Hc <-. apply set_sizes.
  eapply spec_bind; [by apply fifo_reset_ok|]. intros ?. eapply spec_bind; [by apply command_write_ok|].
  cbv beta. intros _. set (c' := issue _ _).
  apply (spec_mono may _ _ (unsent c' lba data data) _ (fun _ => holds (fun l => if l =? lba then data else sectors c l))); [| |done].
  - apply (spec_rounds may _ (unsent c' lba data) (fun _ => at_card (with_phase (Receiving lba data) c')) write_left).
    + intros left d. by apply write_round_ok.
    + intros left d [(sent & _ & Hd) _]. destruct (slack_ok d); [by left|]. right. unfold write_left, SLACK, TIMEOUT, WORDS in *.
      rewrite <- Hd, length_app in Hl. lia.
    + intros _ Hm. by apply spec_panic.
    + intros _. eapply spec_bind; [apply wait_busy_ok; right; by eexists _, _|]. intros ?. eapply spec_bind; [apply write_done_ok|]. intros ? s Hs.
      unfold runs, reg_write. split; [done|]. unfold holds, at_card in *. cbn [dev with_dev]. rewrite (c_rintsts rd wr), Hs. unfold settle. cbn [phase with_phase].
      by rewrite bool_decide_true by done.
  - intros d Hd. split; [by exists []|]. by intros ->.
Qed.

(** *** A block is two sectors. *)
Lemma sd_sector_read f data sector i : 0 <= sector + Z.of_nat i < 2 ^ 64 -> may \/ sector + Z.of_nat i <= ALL_ONES -> (forall l, length (f l) = WORDS) ->
  Spec (holds f) (sd_sector rd wr data false sector i) (fun d x => d = splice (512 * i) (bytes_of (f (sector + Z.of_nat i))) data /\ holds f x).
Proof.
  intros H0 Hr Hf. unfold sd_sector. rewrite u64_small by lia. eapply spec_bind; [apply read_sector_ok; [lia|done|done]|].
  cbv beta. intros ws. apply spec_ret. by intros d [-> ?].
Qed.
Lemma sd_sector_write f data sector i : 0 <= sector + Z.of_nat i < 2 ^ 64 -> may \/ sector + Z.of_nat i <= ALL_ONES ->
  Spec (holds f) (sd_sector rd wr data true sector i)
    (fun d x => d = data /\ holds (fun l => if l =? sector + Z.of_nat i then words_of (drop (512 * i) data) else f l) x).
Proof.
  intros H0 Hr. unfold sd_sector. rewrite u64_small by lia. eapply spec_bind.
  { apply write_sector_ok; [lia|done|]. unfold words_of. by rewrite length_map, length_seq. }
  cbv beta. intros _. by apply spec_ret.
Qed.
(** The lock is held around the two transfers. *)
Lemma sd_rw_ok b data write s P (Q : list Z -> D -> Prop) :
  let sector := u64 (partition_lba s + u64 (b * 2)) in
  sd_locked s = false -> P (dev s) ->
  Spec P (let! data := sd_sector rd wr data write sector 0 in sd_sector rd wr data write sector 1) Q ->
  runs may (jh7110_sd_rw rd wr (b, data) write) s (fun d s' => s' = with_dev (dev s') s /\ Q d (dev s')).
Proof.
  intros sector Hl HP H. unfold jh7110_sd_rw. apply runs_gets. unfold id. rewrite Hl.
  specialize (H (mkSd (dev s) true (card_rca s) (partition_lba s)) HP). unfold runs, bind, modify, ret in *. cbn [fst snd]. fold sector.
  destruct (sd_sector rd wr data write sector 0 _) as [d1 s1| | |]; [|done|done|done].
  destruct (sd_sector rd wr d1 write sector 1 s1) as [d2 s2| | |]; [|done|done|done].
  destruct H as [E HQ]. split; [|done]. unfold with_dev in *. cbn. rewrite Hl. by rewrite E.
Qed.
End Driver.

(** ** The blocks of the partition *)
Definition block (f : Z -> list Z) (lba b : Z) : list Z := bytes_of (f (lba + 2 * b)) ++ bytes_of (f (lba + 2 * b + 1)).
Definition block_at {D} (view : D -> card) (s : sd) (b : Z) : list Z := block (sectors (view (dev s))) (partition_lba s) b.
(** Between two calls: no transfer, the lock free, and a partition at an address that does not wrap *)
Definition sd_ready {D} (view : D -> card) (s : sd) : Prop :=
  idle (view (dev s)) /\ sd_locked s = false /\ 0 <= partition_lba s < 2 ^ 63 /\ forall l, length (sectors (view (dev s)) l) = WORDS.

Lemma bytes_words (l : list Z) n : Forall is_byte l -> (4 * n <= length l)%nat -> concat (map (fun i => le_bytes 4 (get_le 4 (4 * i) l)) (seq 0 n)) = take (4 * n) l.
Proof.
  revert l. induction n as [|n IH]; intros l Hl Hn; [done|]. cbn [seq map concat]. rewrite <- seq_shift, map_map.
  rewrite (map_ext _ (fun i => le_bytes 4 (get_le 4 (4 * i) (drop 4 l)))); [|intros i; unfold get_le; rewrite drop_drop; do 4 f_equal; lia].
  rewrite IH; [|by apply Forall_drop|rewrite length_drop; lia]. unfold get_le. rewrite Nat.mul_0_r, drop_0.
  assert (E4 : length (take 4 l) = 4%nat) by (rewrite length_take; lia).
  rewrite <- E4 at 1. rewrite le_bytes_val by (by apply Forall_take). replace (4 * S n)%nat with (4 + 4 * n)%nat by lia.
  by rewrite take_take_drop.
Qed.
Lemma length_words_of l : length (words_of l) = WORDS.
Proof. unfold words_of. by rewrite length_map, length_seq. Qed.
Lemma length_bytes_of ws : length (bytes_of ws) = (4 * length ws)%nat.
Proof. unfold bytes_of. induction ws as [|w ws IH]; [done|]. cbn [map concat length]. rewrite length_app, length_le_bytes, IH. lia. Qed.
Lemma bytes_of_words l : Forall is_byte l -> (512 <= length l)%nat -> bytes_of (words_of l) = take 512 l.
Proof. intros H1 H2. unfold bytes_of, words_of. rewrite map_map. by rewrite (bytes_words l WORDS). Qed.
Lemma splice_halves (a b data : list Z) : length a = 512%nat -> length b = 512%nat -> length data = 1024%nat ->
  splice (512 * 1) b (splice (512 * 0) a data) = a ++ b.
Proof.
  intros Ha Hb Hd. rewrite Nat.mul_0_r, Nat.mul_1_r. unfold splice. rewrite Ha, Hb, take_0, app_nil_l, Nat.add_0_l.
  rewrite take_app_length' by done. rewrite drop_ge by (rewrite length_app, length_drop; lia). by rewrite app_nil_r.
Qed.

Section Blocks.
Context {D : Type} (rd : Z -> D -> Z * D) (wr : Z -> Z -> D -> D) (view : D -> card) (slack : D -> Z) (may : Prop).
Context `{!Conforms rd wr view} (Hmay : may \/ Prompt rd view slack).
Context (s : @sd D) (b : Z) (data : list Z) (Hs : sd_ready view s) (Hb : 0 <= b < 2 ^ 32) (Hl : length data = BSIZE).
Context (Hr : may \/ partition_lba s + 2 * b + 1 <= ALL_ONES).
Let f := sectors (view (dev s)).

Lemma block_sector : u64 (partition_lba s + u64 (b * 2)) = partition_lba s + 2 * b.
Proof. destruct Hs as (_ & _ & ? & _). rewrite (u64_small (b * 2)), u64_small by lia. lia. Qed.
Lemma block_range i : (i < 2)%nat -> 0 <= partition_lba s + 2 * b + Z.of_nat i < 2 ^ 64 /\ (may \/ partition_lba s + 2 * b + Z.of_nat i <= ALL_ONES).
Proof. destruct Hs as (_ & _ & ? & _). intros Hi. split; [lia|]. destruct Hr; [by left|right; lia]. Qed.

Lemma sd_read_block : runs may (jh7110_sd_rw rd wr (b, data) false) s (fun d s' =>
  d = block_at view s b /\ sd_ready view s' /\ forall b', block_at view s' b' = block_at view s b').
Proof.
  destruct (block_range 0) as [H0 H0']; [lia|]. destruct (block_range 1) as [H1 H1']; [lia|]. destruct Hs as (Hi & Hk & Hp & Hf).
  eapply runs_mono; [eapply (sd_rw_ok rd wr may _ _ _ _ (holds view f)); [done|by split|]|].
  - rewrite block_sector. eapply spec_bind; [by eapply sd_sector_read|]. cbv beta. intros d.
    intros s1 [-> Hh]. exact (sd_sector_read rd wr view slack may Hmay f _ _ 1 H1 H1' Hf s1 Hh).
  - cbv beta. intros d s' [E [-> [Hi' Hf']]]. assert (Hp' : partition_lba s' = partition_lba s) by (by rewrite E).
    split_and!; [|split_and!; [done|rewrite E; exact Hk|lia|lia|by rewrite Hf']|intros b'; unfold block_at; by rewrite Hp', Hf'].
    assert (Hlen : forall l, length (bytes_of (f l)) = 512%nat) by (intros l; by rewrite length_bytes_of, Hf).
    rewrite splice_halves by done. unfold block_at, block. fold f. by rewrite Z.add_0_r.
Qed.
Lemma sd_write_block : Forall is_byte data -> runs may (jh7110_sd_rw rd wr (b, data) true) s (fun d s' =>
  d = data /\ sd_ready view s' /\ forall b', block_at view s' b' = if b' =? b then data else block_at view s b').
Proof.
  intros Hby. destruct (block_range 0) as [H0 H0']; [lia|]. destruct (block_range 1) as [H1 H1']; [lia|]. destruct Hs as (Hi & Hk & Hp & Hf).
  eapply runs_mono; [eapply (sd_rw_ok rd wr may _ _ _ _ (holds view f)); [done|by split|]|].
  - rewrite block_sector. eapply spec_bind; [by eapply sd_sector_write|]. cbv beta. intros d.
    intros s1 [-> Hh]. exact (sd_sector_write rd wr view slack may Hmay _ _ _ 1 H1 H1' s1 Hh).
  - cbv beta. intros d s' [E [-> [Hi' Hf']]]. assert (Hp' : partition_lba s' = partition_lba s) by (by rewrite E).
    split_and!; [done|split_and!; [done|rewrite E; exact Hk|lia|lia|]|].
    { intros l. rewrite Hf'. repeat destruct (_ =? _); [| |apply Hf]; apply length_words_of. }
    intros b'. unfold block_at. rewrite Hp', Hf'. unfold block. set (lba := partition_lba s). cbn [Z.of_nat Pos.of_succ_nat].
    repeat match goal with |- context [if ?x =? ?y then _ else _] => destruct (Z.eqb_spec x y); try lia end; [|done].
    rewrite !bytes_of_words; rewrite ?length_drop, ?Hl; try (by apply Forall_drop); try (unfold BSIZE; lia).
    cbn [Nat.mul]. rewrite drop_0, (take_ge (drop _ _)); [|rewrite length_drop, Hl; unfold BSIZE; lia]. by rewrite take_drop.
Qed.
End Blocks.

(** ** Bringing the card up *)
Section BringUp.
Context {D : Type} (rd : Z -> D -> Z * D) (wr : Z -> Z -> D -> D) (view : D -> card) (f : Z -> list Z).
Context `{!Conforms rd wr view}.
(** The code changes the device only, and no sector. *)
Definition setup {A} (m : M (@sd D) A) : Prop := spec True (holds view f) m (fun _ => holds view f).

Lemma setup_bind {A B} (m : M sd A) (k : A -> M sd B) : setup m -> (forall a, setup (k a)) -> setup (bind m k).
Proof. intros H1 H2. by eapply spec_bind. Qed.
Lemma setup_ret {A} (a : A) : setup (ret a).
Proof. by apply spec_ret. Qed.
Lemma setup_panic {A} e : @setup A (panic e).
Proof. by apply spec_panic. Qed.
Lemma setup_read off : off <> SD_DATA -> setup (reg_read rd off).
Proof.
  intros Hoff s [Hi Hf]. unfold runs, reg_read. destruct (rd off (dev s)) as [v d] eqn:E. split; [done|]. unfold holds. cbn [dev with_dev].
  assert (Hv : view d = view (dev s)); [|by rewrite Hv]. destruct (decide (off = SD_STATUS)) as [->|Hne].
  - apply (status_view rd wr view _ _ _ E). unfold settle. by rewrite Hi.
  - pose proof (c_read rd wr off (dev s) Hne Hoff) as H. by rewrite E in H.
Qed.
Lemma setup_write off v : off <> SD_DATA -> (off = SD_CMD -> has v CMD_DATA = false) -> setup (reg_write wr off v).
Proof.
  intros H1 H2 s [Hi Hf]. split; [done|]. cbn [dev with_dev]. destruct (c_setup rd wr off v (dev s) Hi H1 H2) as [Hi' Hf'].
  split; [done|]. by rewrite Hf'.
Qed.
Lemma setup_rounds {X R} p (body : X -> M sd (X + R)) x : (forall x, setup (body x)) -> setup (rounds p body x).
Proof.
  intros H s Hs. eapply runs_mono; [apply (spec_rounds_loop True body (fun _ => holds view f) (fun _ => holds view f) (fun _ _ => 0) True) with (d := dev s); [|done|done]|].
  - intros y d Hd. eapply spec_mono; [apply H|by intros ? ->|]. intros [?|?] ? Hh; [by split; [|left]|done].
  - cbv beta. intros [?|?] s' [? Hr]; (split; [done|]); [by destruct Hr|done].
Qed.
Ltac setup_auto := repeat match goal with
  | |- setup (rounds _ _ _) => apply setup_rounds; intros ?
  | |- setup (bind _ _) => apply setup_bind; [|intros ?]
  | |- setup (reg_read _ _) => apply setup_read; done
  | |- setup (reg_write _ _ _) => apply setup_write; done
  | |- setup (ret _) => apply setup_ret
  | |- setup (panic _) => apply setup_panic
  | |- setup (match ?x with _ => _ end) => destruct x
  end.
Lemma wait_clear_setup off mask msg : off <> SD_DATA -> setup (wait_clear rd off mask msg).
Proof. intros H. unfold wait_clear. setup_auto. Qed.
Lemma command_setup i a fl : has (lors [CMD_START; CMD_USE_HOLD; fl; i]) CMD_DATA = false -> setup (command rd wr i a fl).
Proof.
  intros H. unfold command, command_done. apply setup_bind; [by apply wait_clear_setup|intros _]. do 2 (apply setup_bind; [by apply setup_write|intros _]).
  apply setup_bind; [by apply setup_write|intros _]. setup_auto; unfold when; setup_auto.
Qed.
Lemma set_clock_setup v : setup (set_clock rd wr v).
Proof. unfold set_clock, update_clock. setup_auto; by apply wait_clear_setup. Qed.
Lemma op_cond_setup x : setup (op_cond rd wr x).
Proof. unfold op_cond. repeat (apply setup_bind; [by apply command_setup|intros ?]). setup_auto. Qed.

(** A started driver: the lock free, the partition as before *)
Definition started (s0 s : @sd D) : Prop := sd_locked s = false /\ partition_lba s = partition_lba s0 /\ holds view f (dev s).
Lemma runs_setup {A B} s0 (m : M sd A) (k : A -> M sd B) (Q : B -> sd -> Prop) s :
  setup m -> started s0 s -> (forall a s', started s0 s' /\ card_rca s' = card_rca s -> runs True (k a) s' Q) -> runs True (bind m k) s Q.
Proof. intros Hm (H1 & H2 & H3) Hk. eapply runs_bind; [by apply Hm|]. cbv beta. intros a s2 [-> ?]. by apply Hk. Qed.
Ltac run_setup L := eapply runs_setup; [apply L; done|eassumption|intros ? ? [? ?]; cbv beta].

Lemma sd_select_ok s0 s : started s0 s -> runs True (sd_select rd wr) s (fun _ s' => started s0 s' /\ card_rca s' <> 0).
Proof.
  intros Hs. unfold sd_select. do 2 run_setup command_setup. set (rca := Z.land _ _).
  eapply (runs_bind _ _ _ _ (fun _ s' => started s0 s' /\ card_rca s' = rca)); [done|]. intros _ s1 [Hu Hr]. destruct (Z.eqb_spec rca 0); [done|].
  do 3 run_setup command_setup. eapply runs_setup; [apply setup_write; done|eassumption|]. intros _ s8 [(Hl8 & Hp8 & Hh8) Hr8].
  eapply runs_mono; [by apply (set_clock_setup 4)|]. cbv beta. intros _ s9 [-> Hh]. split; [done|cbn; congruence].
Qed.
Lemma sd_bring_up_ok s : holds view f (dev s) -> runs True (sd_bring_up rd wr) s (fun _ s' => started s s' /\ card_rca s' <> 0).
Proof.
  intros Hh. unfold sd_bring_up. eapply (runs_bind _ _ _ _ (fun _ => started s)); [done|]. intros _ s1 H1. run_setup setup_read.
  destruct (has _ 1); [done|]. do 2 run_setup setup_write. run_setup wait_clear_setup. do 5 run_setup setup_write. run_setup set_clock_setup. do 2 run_setup command_setup.
  eapply runs_setup; [apply setup_rounds; intros; apply op_cond_setup|eassumption|]. intros r s9 [Hs9 _].
  destruct r as [|ocr]; [done|]. destruct (negb _); [done|]. by apply sd_select_ok.
Qed.

Lemma bytes_of_byte ws : Forall is_byte (bytes_of ws).
Proof. unfold bytes_of. induction ws as [|w ws IH]; [constructor|]. cbn [map concat]. apply Forall_app. split; [apply le_bytes_byte|exact IH]. Qed.
Lemma sd_init_ok s : holds view f (dev s) -> (forall l, length (f l) = WORDS) ->
  runs True (jh7110_sd_init rd wr) s (fun _ s' =>
    vouched (fun l => bytes_of (f l)) (partition_lba s') /\ sd_locked s' = false /\ card_rca s' <> 0 /\ holds view f (dev s')).
Proof.
  intros Hh Hf. unfold jh7110_sd_init. eapply runs_bind; [by apply sd_bring_up_ok|]. cbv beta. intros _ s1 [(Hl & _ & Hh1) Hr].
  eapply (runs_bind _ _ _ _ (fun lba s2 => vouched (fun l => bytes_of (f l)) lba /\ sd_locked s2 = false /\ card_rca s2 <> 0 /\ holds view f (dev s2))).
  - eapply runs_may; [|apply (gpt_find_runs _ _ (fun s2 => sd_locked s2 = false /\ card_rca s2 <> 0 /\ holds view f (dev s2)) True)]; [done| | |done].
    + intros l. split; [by rewrite length_bytes_of, Hf|apply bytes_of_byte].
    + intros l s2 H0 (Hl2 & Hr2 & Hh2). eapply runs_bind; [by apply (read_sector_ok rd wr view (fun _ => 0) True ltac:(by left) f l H0 ltac:(by left))|].
      cbv beta. intros ws s3 [-> [-> Hh3]]. apply runs_ret. done.
  - cbv beta. intros lba s2 H2. done.
Qed.
End BringUp.

(** C13.  The driver finds its partition: for every card whose registers mean what the controller's do,
    jh7110_sd_init ends; if it does not panic, the partition's address is the one that the partition table on
    the card vouches for, no sector has changed, and the driver is ready to serve blocks (if that address is
    below 2^63). *)
Theorem sd_init_partition {D} rd wr (view : D -> card) s : Conforms rd wr view ->
  let f := sectors (view (dev s)) in
  idle (view (dev s)) -> (forall l, length (f l) = WORDS) ->
  runs True (jh7110_sd_init rd wr) s (fun _ s' =>
    vouched (fun l => bytes_of (f l)) (partition_lba s') /\ sectors (view (dev s')) = f /\
    (0 <= partition_lba s' < 2 ^ 63 -> sd_ready view s')).
Proof.
  intros HC f Hi Hf. eapply runs_mono; [by apply (sd_init_ok rd wr view f)|]. cbv beta. intros _ s' (Hv & Hl & _ & [Hi' Hf']).
  split_and!; [done|done|]. intros Hp. split_and!; [done|done|lia|lia|by rewrite Hf'].
Qed.

(** C12.  The card driver is a block device.  For every card whose registers mean what the controller's do,
    jh7110_sd_rw between two calls either panics or does exactly its request: a write stores the 1024 bytes as
    the block of the partition and leaves every other block as it was; a read returns the block and changes
    none.  If the card reports no error and answers within bounds, and the block has sector numbers an SDHC card
    can address, it does not panic. *)
Theorem sd_block_device {D} rd wr (view : D -> card) slack s b data : Conforms rd wr view ->
  sd_ready view s -> 0 <= b < 2 ^ 32 -> length data = BSIZE -> Forall is_byte data ->
  let served may :=
    runs may (jh7110_sd_rw rd wr (b, data) true) s (fun d s' =>
      d = data /\ sd_ready view s' /\ forall b', block_at view s' b' = if b' =? b then data else block_at view s b') /\
    runs may (jh7110_sd_rw rd wr (b, data) false) s (fun d s' =>
      d = block_at view s b /\ sd_ready view s' /\ forall b', block_at view s' b' = block_at view s b') in
  served True /\ (Prompt rd view slack -> partition_lba s + 2 * b + 1 <= ALL_ONES -> served False).
Proof.
  intros HC Hs Hb Hl Hby served. subst served. cbv beta.
  split; [|intros HP Hr]; (split; [eapply (sd_write_block _ _ _ slack)|eapply (sd_read_block _ _ _ slack)]); eauto.
Qed.

(** ** A simulated card

    It keeps every poll waiting three times after a command or a reset. *)
Module SimCard.
Inductive delay : Type := Now | One | Two | Three.
Definition next (w : delay) : delay := match w with Three => Two | Two => One | _ => Now end.
Record dev : Type := mkDev { c : card; lag : delay }.
Definition now (d : dev) : bool := match lag d with Now => true | _ => false end.
Definition rd (off : Z) (d : dev) : Z * dev :=
  let d' (c : card) := mkDev c (next (lag d)) in
  if off =? SD_STATUS then
    if now d then (0, d' (settle (c d))) else (lors [STATUS_DATA_BUSY; STATUS_FIFO_EMPTY; STATUS_FIFO_FULL], d' (c d))
  else if off =? SD_RINTSTS then (if now d then Z.lor INT_CMD_DONE INT_TXDR else 0, d' (c d))
  else if off =? SD_CTRL then (if now d then 0 else 2, d' (c d))
  else if off =? SD_DATA then
    match phase (c d) with Sending (w :: ws) => (w, d' (with_phase (Sending ws) (c d))) | _ => (0, d' (c d)) end
  else if off =? SD_RESP0 then (0xc0010000, d' (c d))
  else (0, d' (c d)).
Definition wr (off v : Z) (d : dev) : dev :=
  let k := c d in
  if off =? SD_CTRL then mkDev k Three
  else if off =? SD_BLKSIZ then mkDev (mkCard (sectors k) v (bytcnt k) (cmdarg k) (phase k)) (lag d)
  else if off =? SD_BYTCNT then mkDev (mkCard (sectors k) (blksiz k) v (cmdarg k) (phase k)) (lag d)
  else if off =? SD_CMDARG then mkDev (mkCard (sectors k) (blksiz k) (bytcnt k) v (phase k)) (lag d)
  else if off =? SD_CMD then
    if is_data_command 17 false v then mkDev (with_phase (Sending (sectors k (cmdarg k))) k) Three
    else if is_data_command 24 true v then mkDev (with_phase (Receiving (cmdarg k) []) k) Three else mkDev k Three
  else if off =? SD_DATA then
    match phase k with Receiving lba ws => mkDev (with_phase (Receiving lba (ws ++ [v])) k) (lag d) | _ => d end
  else d.

Lemma exclusive v : is_data_command 24 true v = true -> is_data_command 17 false v = false.
Proof. unfold is_data_command. destruct (has v CMD_WRITE); cbn; [|by rewrite !andb_false_r]. by rewrite !andb_false_r. Qed.
#[global] Instance conforms : Conforms rd wr c.
Proof.
  split.
  - intros off d H1 H2. unfold rd. apply Z.eqb_neq in H1, H2. rewrite H1, H2. by repeat destruct (_ =? _).
  - by intros [k []].
  - intros [k l] v d1 w ws Hp. change (phase k = Sending (w :: ws)) in Hp. destruct l; intros [= <- <-] He; [|done..].
    unfold settle. rewrite Hp. unfold rd. cbn. by rewrite Hp.
  - done.
  - intros off v d Hi Hd Hc. unfold wr. destruct (off =? SD_CTRL); [done|]. destruct (off =? SD_BLKSIZ); [done|]. destruct (off =? SD_BYTCNT); [done|].
    destruct (off =? SD_CMDARG); [done|]. apply Z.eqb_neq in Hd. rewrite Hd. destruct (Z.eqb_spec off SD_CMD) as [E|]; [|done].
    unfold is_data_command. by rewrite (Hc E), andb_false_r.
  - done.
  - done.
  - done.
  - done.
  - intros v d _ _ _ H. unfold wr. cbn. by rewrite H.
  - intros v d _ _ _ H. unfold wr. cbn. by rewrite (exclusive v H), H.
  - intros [k l] v d1 lba ws w Hp Hl. change (phase k = Receiving lba ws) in Hp. destruct l; intros [= <- <-] He; [|done..].
    unfold settle. rewrite Hp, bool_decide_false by lia. unfold wr. cbn. by rewrite Hp.
Qed.
Definition slack (d : dev) : Z := match lag d with Now => 0 | One => 1 | Two => 2 | Three => 3 end.
#[global] Instance prompt : Prompt rd c slack.
Proof.
  split; intros [k l]; intros; destruct l; unfold SLACK; first [reflexivity | left; reflexivity | right; reflexivity | cbn; lia].
Qed.
End SimCard.

(** The card of the example holds zeroes; the partition starts at sector 2048. *)
Definition sim0 : @sd SimCard.dev := mkSd (SimCard.mkDev (mkCard (fun _ => replicate WORDS 0) 0 0 0 (Sending [])) SimCard.Now) false 0 2048.
Lemma sd_block_device_witness :
  (exists s', jh7110_sd_rw SimCard.rd SimCard.wr (5, replicate BSIZE 7) true sim0 = Ret (replicate BSIZE 7) s' /\
     block_at SimCard.c s' 5 = replicate BSIZE 7 /\ block_at SimCard.c s' 6 = block_at SimCard.c sim0 6) /\
  exists s', jh7110_sd_rw SimCard.rd SimCard.wr (5, replicate BSIZE 7) false sim0 = Ret (replicate BSIZE 0) s'.
Proof.
  assert (Hr : sd_ready SimCard.c sim0) by (split_and!; [done|done|cbn; lia|cbn; lia|done]).
  assert (Hb : Forall is_byte (replicate BSIZE 7)) by (apply Forall_replicate; unfold is_byte; lia).
  destruct (sd_block_device SimCard.rd SimCard.wr SimCard.c SimCard.slack sim0 5 (replicate BSIZE 7) _ Hr ltac:(lia) eq_refl Hb) as [_ H].
  assert (E0 : block_at SimCard.c sim0 5 = replicate BSIZE 0) by (vm_compute; reflexivity).
  destruct (H _ ltac:(unfold ALL_ONES; cbn; lia)) as [H1 H2]. apply runs_returns in H1 as (d & s1 & E1 & -> & _ & H1). apply runs_returns in H2 as (d & s2 & E2 & -> & _).
  split; [exists s1|exists s2; rewrite <- E0; exact E2]. split; [exact E1|]. split; [exact (H1 5)|exact (H1 6)].
Defined.

(** The disk of Gpt.v on the card *)
Definition sim_boot : @sd SimCard.dev :=
  mkSd (SimCard.mkDev (mkCard (fun l => words_of (ex_gpt_disk l)) 0 0 0 (Sending [])) SimCard.Now) true 0 0.
Lemma sd_init_partition_witness :
  exists s', jh7110_sd_init SimCard.rd SimCard.wr sim_boot = Ret tt s' /\ partition_lba s' = 34 /\ sd_ready SimCard.c s'.
Proof.
  assert (E : match jh7110_sd_init SimCard.rd SimCard.wr sim_boot with Ret _ s' => Some (partition_lba s') | _ => None end = Some 34) by (vm_compute; reflexivity).
  pose proof (sd_init_partition SimCard.rd SimCard.wr SimCard.c sim_boot _ eq_refl (fun l => length_words_of (ex_gpt_disk l))) as H.
  revert E H. generalize (jh7110_sd_init SimCard.rd SimCard.wr). intros m E H. unfold runs in H.
  destruct (m sim_boot) as [[] s'| | |]; [|discriminate E..]. injection E as E. exists s'. split; [reflexivity|]. split; [exact E|].
  apply H. rewrite E. lia.
Defined.
