(* ===== verification/Lab1.v ===== *)
(** * The Lab 1 readers (lab1/)

    SHA-256 (lab1/baremetal/sha256.c, and the same code in lab1/linux/sha256.c) on
    32-bit words, and the bare-metal reader of the fixture image
    (lab1/baremetal/main.c): its state is the bytes sent to the UART, [fail] is a panic
    and a read outside the image a fault. *)

From S2P Require Import Prelude Params CString.

(** ** sha256.c *)
(** The round constants, in decimal. *)
Definition SHA_K : list Z :=
  [1116352408; 1899447441; 3049323471; 3921009573; 961987163; 1508970993; 2453635748; 2870763221;
   3624381080; 310598401; 607225278; 1426881987; 1925078388; 2162078206; 2614888103; 3248222580;
   3835390401; 4022224774; 264347078; 604807628; 770255983; 1249150122; 1555081692; 1996064986;
   2554220882; 2821834349; 2952996808; 3210313671; 3336571891; 3584528711; 113926993; 338241895;
   666307205; 773529912; 1294757372; 1396182291; 1695183700; 1986661051; 2177026350; 2456956037;
   2730485921; 2820302411; 3259730800; 3345764771; 3516065817; 3600352804; 4094571909; 275423344;
   430227734; 506948616; 659060556; 883997877; 958139571; 1322822218; 1537002063; 1747873779;
   1955562222; 2024104815; 2227730452; 2361852424; 2428436474; 2756734187; 3204031479; 3329325298].

Definition SHA_H : list Z :=
  [0x6a09e667; 0xbb67ae85; 0x3c6ef372; 0xa54ff53a; 0x510e527f; 0x9b05688c; 0x1f83d9ab; 0x5be0cd19].

Definition ROR32 (x n : Z) : Z := Z.lor (Z.shiftr x n) (u32 (Z.shiftl x (32 - n))).
Definition not32 (x : Z) : Z := 0xffffffff - x.
Definition CH (x y z : Z) : Z := Z.lxor (Z.land x y) (Z.land (not32 x) z).
Definition MAJ (x y z : Z) : Z := Z.lxor (Z.lxor (Z.land x y) (Z.land x z)) (Z.land y z).
Definition SIG0 (x : Z) : Z := Z.lxor (Z.lxor (ROR32 x 2) (ROR32 x 13)) (ROR32 x 22).
Definition SIG1 (x : Z) : Z := Z.lxor (Z.lxor (ROR32 x 6) (ROR32 x 11)) (ROR32 x 25).
Definition GAM0 (x : Z) : Z := Z.lxor (Z.lxor (ROR32 x 7) (ROR32 x 18)) (Z.shiftr x 3).
Definition GAM1 (x : Z) : Z := Z.lxor (Z.lxor (ROR32 x 17) (ROR32 x 19)) (Z.shiftr x 10).

(** Element [i] of an array. *)
Definition at_ (l : list Z) (i : nat) : Z := default 0 (l !! i).

Definition be32 (p : list Z) : Z :=
  Z.lor (Z.lor (Z.lor (Z.shiftl (at_ p 0) 24) (Z.shiftl (at_ p 1) 16)) (Z.shiftl (at_ p 2) 8)) (at_ p 3).
Definition be32put (v : Z) : list Z := [u8 (Z.shiftr v 24); u8 (Z.shiftr v 16); u8 (Z.shiftr v 8); u8 v].
Definition be64put (v : Z) : list Z := (fun k => u8 (Z.shiftr v (8 * (7 - k)))) <$> seqZ 0 8.

(** The message schedule: the first 16 words, extended one word at a time. *)
Fixpoint schedule (n : nat) (w : list Z) : list Z :=
  match n with
  | O => w
  | S n' =>
      let i := length w in
      schedule n' (w ++ [u32 (GAM1 (at_ w (i - 2)) + at_ w (i - 7) + GAM0 (at_ w (i - 15)) + at_ w (i - 16))])
  end.

(** The eight working variables a, b, ..., h after the rounds [ks]. *)
Fixpoint rounds (ks : list nat) (w v : list Z) : list Z :=
  match ks with
  | [] => v
  | i :: ks' =>
      match v with
      | [a; b; c; d; e; f; g; hh] =>
          let t1 := u32 (hh + SIG1 e + CH e f g + at_ SHA_K i + at_ w i) in
          let t2 := u32 (SIG0 a + MAJ a b c) in
          rounds ks' w [u32 (t1 + t2); a; b; c; u32 (d + t1); e; f; g]
      | _ => v
      end
  end.

Definition sha256_block (h block : list Z) : list Z :=
  let w := schedule 48 ((fun i => be32 (drop (4 * i) block)) <$> seq 0 16) in
  zip_with (fun x y => u32 (x + y)) h (rounds (seq 0 64) w h).

Definition vos_sha256 (msg : list Z) : list Z :=
  let len := Z.of_nat (length msg) in
  let full := (length msg / 64 * 64)%nat in
  let h := fold_left (fun h i => sha256_block h (take 64 (drop (64 * i) msg))) (seq 0 (full / 64)) SHA_H in
  let rem := (length msg - full)%nat in
  let tail := drop full msg in
  let h :=
    if (rem <? 56)%nat then
      sha256_block h (tail ++ [0x80] ++ replicate (56 - rem - 1) 0 ++ be64put (u64 (len * 8)))
    else
      let h := sha256_block h (tail ++ [0x80] ++ replicate (64 - rem - 1) 0) in
      sha256_block h (replicate 56 0 ++ be64put (u64 (len * 8))) in
  mjoin (be32put <$> h).

(** ** main.c *)
Definition MAX_IMAGE : Z := 4096.
Definition MAX_ENTRIES : Z := 16.
Definition MAX_ENTRY_SIZE : Z := 64.
Definition MAX_NAME : nat := 8.
Definition MAX_CONTENT : Z := 4096.

(** The bytes of the image the reader is linked with, and the UART output. *)
Abbreviation R := (M (list Z)).
Definition uart_putc (c : Z) : R unit := modify (fun out => out ++ [u8 c]).
Definition uart_puts (s : list Z) : R unit := each s uart_putc.
Abbreviation str := bytes_of_string.

Definition rd_byte (img : list Z) (off : Z) : R Z :=
  match img !! Z.to_nat off with
  | Some b => if off <? 0 then fault "read outside the image" else ret b
  | None => fault "read outside the image"
  end.

Definition ld_le32 (img : list Z) (off : Z) : R Z :=
  let! b0 := rd_byte img off in
  let! b1 := rd_byte img (off + 1) in
  let! b2 := rd_byte img (off + 2) in
  let! b3 := rd_byte img (off + 3) in
  ret (Z.lor (Z.lor (Z.lor b0 (Z.shiftl b1 8)) (Z.shiftl b2 16)) (Z.shiftl b3 24)).

Definition fail {A} (reason : string) : R A :=
  do! uart_puts ([10] ++ str "CTF_BAREMETAL_FAIL: ");
  do! uart_puts (str reason);
  do! uart_puts [10];
  panic reason.

(** The digits of [v] as print_u32 stores them, least significant first. *)
Fixpoint u32_digits (fuel : nat) (v : Z) : list Z :=
  match fuel with
  | O => []
  | S fuel' => if v =? 0 then [] else 48 + v mod 10 :: u32_digits fuel' (v / 10)
  end.
Definition print_u32 (v : Z) : R unit :=
  if v =? 0 then uart_putc 48 else uart_puts (reverse (u32_digits 10 v)).

Definition hex_digit (d : Z) : Z := if d <? 10 then 48 + d else 87 + d.
Definition print_hex (digest : list Z) : R unit :=
  each digest (fun b =>
    do! uart_putc (hex_digit (Z.shiftr b 4));
    uart_putc (hex_digit (Z.land b 0x0f))).

Definition emit_record (name : list Z) (content : list Z) : R unit :=
  do! uart_puts (str "CTF_RECORD name=");
  do! uart_puts name;
  do! uart_puts (str " length=");
  do! print_u32 (u32 (Z.of_nat (length content)));
  do! uart_puts (str " sha256=");
  do! print_hex (vos_sha256 content);
  uart_puts [10].

(** The header fields main uses. *)
Record image_hdr : Type := mkImageHdr {
  ih_entry_count : Z; ih_dir_offset : Z; ih_entry_size : Z; ih_sector_size : Z; ih_image_size : Z;
}.

Definition read_hdr (img : list Z) : R image_hdr :=
  let! n := ld_le32 img 8 in
  let! d := ld_le32 img 12 in
  let! e := ld_le32 img 16 in
  let! s := ld_le32 img 20 in
  let! z := ld_le32 img 24 in
  ret (mkImageHdr n d e s z).

Definition image_magic : list Z := str "VOSCTF1" ++ [0].

Definition check_hdr (img : list Z) (h : image_hdr) : R unit :=
  if (ih_entry_count h =? 0) || (MAX_ENTRIES <? ih_entry_count h) then fail "invalid entry count"
  else if (ih_entry_size h =? 0) || (MAX_ENTRY_SIZE <? ih_entry_size h) then fail "invalid entry size"
  else if ih_sector_size h =? 0 then fail "invalid sector size"
  else if negb (ih_image_size h =? Z.of_nat (length img)) || (MAX_IMAGE <? ih_image_size h)
  then fail "image size mismatch"
  else if (ih_dir_offset h =? 0) ||
          (ih_image_size h <? u32 (ih_dir_offset h + u32 (ih_entry_count h * ih_entry_size h)))
  then fail "directory out of bounds"
  else ret tt.

(** The name of the entry at [ent]: at most MAX_NAME bytes, up to a NUL. *)
Fixpoint read_name (img : list Z) (ent : Z) (ks : list nat) : R (list Z) :=
  match ks with
  | [] => ret []
  | i :: ks' =>
      let! b := rd_byte img (ent + Z.of_nat i) in
      if b =? 0 then ret []
      else
        let! rest := read_name img ent ks' in
        ret (b :: rest)
  end.

(** found[w] and found_len[w]: where the wanted file's contents are. *)
Definition found : Type := list (option (Z * Z)).
Definition WANT : list (list Z) := [str "flag1"; str "flag2"].

Definition note_found (name : list Z) (off len : Z) (f : found) : found :=
  zip_with (fun w o => match o with
                       | Some x => Some x
                       | None => if bool_decide (w = name) then Some (off, len) else None
                       end) WANT f.

Definition read_entry (img : list Z) (h : image_hdr) (f : found) (e : Z) : R found :=
  let ent := ih_dir_offset h + e * ih_entry_size h in
  let! name := read_name img ent (seq 0 MAX_NAME) in
  let! data_off := ld_le32 img (ent + 8) in
  let! data_len := ld_le32 img (ent + 12) in
  if Z.of_nat (length img) <? data_off + data_len then fail "entry data out of bounds"
  else if (data_len =? 0) || (MAX_CONTENT <? data_len) then fail "oversized entry"
  else ret (note_found name data_off data_len f).

Fixpoint read_entries (img : list Z) (h : image_hdr) (es : list Z) (f : found) : R found :=
  match es with
  | [] => ret f
  | e :: es' =>
      let! f := read_entry img h f e in
      read_entries img h es' f
  end.

Definition missing (w : list Z) (o : option (Z * Z)) : R unit :=
  match o with
  | Some _ => ret tt
  | None =>
      do! uart_puts (str "missing entry ");
      do! uart_puts w;
      do! uart_puts [10];
      fail "missing required entry"
  end.

Definition emit_found (img : list Z) (w : list Z) (o : option (Z * Z)) : R unit :=
  match o with
  | Some (off, len) => emit_record w (take (Z.to_nat len) (drop (Z.to_nat off) img))
  | None => ret tt
  end.

Definition lab1_main (img : list Z) : R unit :=
  do! uart_puts (str "ctf-warmup baremetal reader reading embedded generated image" ++ [10]);
  if Z.of_nat (length img) <? 28 then fail "image too small for header"
  else if negb (memcmp img image_magic 8 =? 0) then fail "bad image magic"
  else
    let! h := read_hdr img in
    do! check_hdr img h;
    let! f := read_entries img h (seqZ 0 (ih_entry_count h)) [None; None] in
    do! each (zip WANT f) (fun p => missing (fst p) (snd p));
    do! each (zip WANT f) (fun p => emit_found img (fst p) (snd p));
    uart_puts (str "CTF_BAREMETAL_OK" ++ [10]).
