(* ===== verification/Lab1Spec.v ===== *)
(** * SHA-256 against its definition

    The digest as FIPS 180-4 defines it: the padded message cut in blocks, the message
    schedule by its recurrence, rotations and the Boolean functions on 32-bit words.  The
    code of lab1/baremetal/sha256.c computes it for every message. *)

From stdpp Require Import base list numbers.
From S2P Require Import Prelude Params CString Lab1.

(** ** The definition *)
Definition word (x : Z) : Prop := 0 <= x < 2 ^ 32.

(** The constants: the first 32 bits of the fractional parts of the cube roots of the
    first 64 primes, and of the square roots of the first 8. *)
Fixpoint root_bits (k : nat) (e n r : Z) : Z :=
  match k with
  | O => r
  | S k' =>
      let r' := r + 2 ^ Z.of_nat k' in
      root_bits k' e n (if r' ^ e <=? n then r' else r)
  end.
Definition frac_root (e p : Z) : Z := root_bits 40 e (p * 2 ^ (32 * e)) 0 mod 2 ^ 32.
Definition is_prime (n : Z) : bool := forallb (fun d => negb (n mod d =? 0)) (seqZ 2 (n - 2)).
Definition primes : list Z := List.filter is_prime (seqZ 2 310).
Definition round_const (t : nat) : Z := frac_root 3 (at_ primes t).
Definition hash_init : list Z := frac_root 2 <$> take 8 primes.

Definition rotr (n x : Z) : Z := x / 2 ^ n + (x mod 2 ^ n) * 2 ^ (32 - n).
Definition Ch (x y z : Z) : Z := Z.lor (Z.land x y) (Z.ldiff z x).
Definition Maj (x y z : Z) : Z := Z.lor (Z.land x y) (Z.land z (Z.lor x y)).
Definition xor3 (x y z : Z) : Z := Z.lxor x (Z.lxor y z).
Definition Sigma0 (x : Z) : Z := xor3 (rotr 2 x) (rotr 13 x) (rotr 22 x).
Definition Sigma1 (x : Z) : Z := xor3 (rotr 6 x) (rotr 11 x) (rotr 25 x).
Definition sigma0 (x : Z) : Z := xor3 (rotr 7 x) (rotr 18 x) (x / 2 ^ 3).
Definition sigma1 (x : Z) : Z := xor3 (rotr 17 x) (rotr 19 x) (x / 2 ^ 10).

Definition be_val (bs : list Z) : Z := le_val (reverse bs).
Definition be_bytes (n : nat) (v : Z) : list Z := reverse (le_bytes n v).

(** The message schedule of a block, by recursion on the index. *)
Fixpoint sched_word (fuel : nat) (block : list Z) (t : nat) : Z :=
  match fuel with
  | O => 0
  | S f =>
      if (t <? 16)%nat then be_val (take 4 (drop (4 * t) block))
      else (sigma1 (sched_word f block (t - 2)) + sched_word f block (t - 7) +
            sigma0 (sched_word f block (t - 15)) + sched_word f block (t - 16)) mod 2 ^ 32
  end.
Definition W (block : list Z) (t : nat) : Z := sched_word (S t) block t.

Definition sround (block : list Z) (v : list Z) (t : nat) : list Z :=
  match v with
  | [a; b; c; d; e; f; g; h] =>
      let T1 := h + Sigma1 e + Ch e f g + round_const t + W block t in
      let T2 := Sigma0 a + Maj a b c in
      [(T1 + T2) mod 2 ^ 32; a; b; c; (d + T1) mod 2 ^ 32; e; f; g]
  | _ => v
  end.
Definition compress (h block : list Z) : list Z :=
  zip_with (fun x y => (x + y) mod 2 ^ 32) h (fold_left (sround block) (seq 0 64) h).

(** The padded message: a one bit, zeros up to 8 bytes before a block boundary, and the
    length in bits. *)
Definition pad (msg : list Z) : list Z :=
  msg ++ [128] ++ replicate (Z.to_nat ((55 - Z.of_nat (length msg)) mod 64)) 0 ++
  be_bytes 8 (8 * Z.of_nat (length msg)).
Definition chunks (l : list Z) : list (list Z) :=
  (fun i => take 64 (drop (64 * i) l)) <$> seq 0 (length l / 64).
Definition sha256 (msg : list Z) : list Z :=
  mjoin (be_bytes 4 <$> fold_left compress (chunks (pad msg)) hash_init).

(** ** The tables of the code *)
Lemma SHA_K_consts : SHA_K = frac_root 3 <$> take 64 primes.
Proof. vm_compute. reflexivity. Qed.
Lemma SHA_H_init : SHA_H = hash_init.
Proof. vm_compute. reflexivity. Qed.
Lemma primes_64 : length primes = 64%nat.
Proof. vm_compute. reflexivity. Qed.

Lemma SHA_K_at t : (t < 64)%nat -> at_ SHA_K t = round_const t.
Proof.
  intros Ht. rewrite SHA_K_consts. unfold round_const, at_. rewrite list_lookup_fmap, lookup_take_lt by done.
  destruct (lookup_lt_is_Some_2 primes t) as [p ->]; [by rewrite primes_64|done].
Qed.

(** ** Words *)
Lemma ROR32_rotr n x : 0 < n < 32 -> word x -> ROR32 x n = rotr n x.
Proof.
  intros Hn Hx. unfold ROR32, rotr, u32. rewrite Z.shiftr_div_pow2, Z.shiftl_mul_pow2 by lia.
  assert (E : (x * 2 ^ (32 - n)) mod 2 ^ 32 = (x mod 2 ^ n) * 2 ^ (32 - n)).
  { replace (2 ^ 32) with (2 ^ n * 2 ^ (32 - n)) by (rewrite <- Z.pow_add_r by lia; f_equal; lia).
    rewrite Z.mul_mod_distr_r; [done|lia|lia]. }
  rewrite E, Z.lor_comm, shiftl_lor; [lia|lia|]. split; [apply Z.div_pos; [apply Hx|lia]|].
  apply Z.div_lt_upper_bound; [lia|]. rewrite <- Z.pow_add_r by lia. replace (n + (32 - n)) with 32 by lia. apply Hx.
Qed.

Lemma not32_ldiff x : word x -> not32 x = Z.ldiff (Z.ones 32) x.
Proof.
  intros Hx. unfold not32. change 0xffffffff with (Z.ones 32). apply Z.sub_nocarry_ldiff.
  destruct (decide (x = 0)) as [->|Hne]; [done|].
  apply Z.ldiff_ones_r_low; [apply Hx|]. apply Z.log2_lt_pow2; [destruct Hx; lia|apply Hx].
Qed.

Lemma word_testbit x i : word x -> 32 <= i -> Z.testbit x i = false.
Proof. intros Hx Hi. rewrite <- (Z.mod_small x (2 ^ 32) Hx). apply Z.mod_pow2_bits_high. lia. Qed.

Lemma CH_Ch x y z : word x -> word z -> CH x y z = Ch x y z.
Proof.
  intros Hx Hz. unfold CH, Ch. rewrite not32_ldiff by done. apply Z.bits_inj'. intros i Hi.
  rewrite Z.lxor_spec, Z.lor_spec, !Z.land_spec, !Z.ldiff_spec.
  destruct (decide (i < 32)) as [Hlt|Hge].
  - rewrite Z.ones_spec_low by lia. by destruct (Z.testbit x i), (Z.testbit y i), (Z.testbit z i).
  - rewrite (word_testbit x), (word_testbit z) by (done || lia). by rewrite !andb_false_r.
Qed.

Lemma MAJ_Maj x y z : MAJ x y z = Maj x y z.
Proof.
  unfold MAJ, Maj. apply Z.bits_inj'. intros i Hi. rewrite !Z.lxor_spec, !Z.lor_spec, !Z.land_spec, Z.lor_spec.
  by destruct (Z.testbit x i), (Z.testbit y i), (Z.testbit z i).
Qed.

Lemma SIG0_Sigma0 x : word x -> SIG0 x = Sigma0 x.
Proof. intros Hx. unfold SIG0, Sigma0, xor3. rewrite !ROR32_rotr by (done || lia). apply Z.lxor_assoc. Qed.
Lemma SIG1_Sigma1 x : word x -> SIG1 x = Sigma1 x.
Proof. intros Hx. unfold SIG1, Sigma1, xor3. rewrite !ROR32_rotr by (done || lia). apply Z.lxor_assoc. Qed.
Lemma GAM0_sigma0 x : word x -> GAM0 x = sigma0 x.
Proof.
  intros Hx. unfold GAM0, sigma0, xor3. rewrite !ROR32_rotr, Z.shiftr_div_pow2 by (done || lia). apply Z.lxor_assoc.
Qed.
Lemma GAM1_sigma1 x : word x -> GAM1 x = sigma1 x.
Proof.
  intros Hx. unfold GAM1, sigma1, xor3. rewrite !ROR32_rotr, Z.shiftr_div_pow2 by (done || lia). apply Z.lxor_assoc.
Qed.

Lemma u32_word x : word (u32 x).
Proof. apply Z.mod_pos_bound. done. Qed.

(** ** Big-endian integers *)
Lemma be32_val a b c d l :
  is_byte a -> is_byte b -> is_byte c -> is_byte d -> be32 (a :: b :: c :: d :: l) = be_val [a; b; c; d].
Proof.
  unfold is_byte. intros Ha Hb Hc Hd. unfold be32, at_. cbn [lookup list_lookup default from_option id].
  rewrite !Z.shiftl_mul_pow2, <- !Z.lor_assoc by lia.
  rewrite (shiftl_lor 8), (shiftl_lor 16), (shiftl_lor 24) by lia.
  unfold be_val. change (reverse [a; b; c; d]) with [d; c; b; a]. unfold le_val. lia.
Qed.

Lemma be_val_word a b c d : is_byte a -> is_byte b -> is_byte c -> is_byte d -> word (be_val [a; b; c; d]).
Proof.
  unfold is_byte, word, be_val. change (reverse [a; b; c; d]) with [d; c; b; a]. unfold le_val. lia.
Qed.

Lemma be32put_bytes v : word v -> be32put v = be_bytes 4 v.
Proof.
  intros Hv. unfold be32put, be_bytes, le_bytes, u8.
  change (reverse [v mod 256; v / 256 mod 256; v / 256 / 256 mod 256; v / 256 / 256 / 256 mod 256])
    with [v / 256 / 256 / 256 mod 256; v / 256 / 256 mod 256; v / 256 mod 256; v mod 256].
  rewrite !Z.div_div by done. by rewrite !Z.shiftr_div_pow2 by done.
Qed.

Lemma be64put_bytes v : be64put v = be_bytes 8 v.
Proof.
  unfold be64put, be_bytes, le_bytes, u8. change (seqZ 0 8) with [0; 1; 2; 3; 4; 5; 6; 7].
  cbn [fmap list_fmap]. rewrite !Z.shiftr_div_pow2 by done.
  rewrite !Z.div_div by done. change (2 ^ (8 * (7 - 7))) with 1. rewrite Z.div_1_r. reflexivity.
Qed.

(** ** The message schedule *)
Section Block.
Context (block : list Z) (Hlen : length block = 64%nat) (Hbytes : Forall is_byte block).

Lemma block_word t : (t < 16)%nat ->
  exists a b c d l, drop (4 * t) block = a :: b :: c :: d :: l /\
    is_byte a /\ is_byte b /\ is_byte c /\ is_byte d.
Proof.
  intros Ht. assert (Hl : (4 <= length (drop (4 * t) block))%nat) by (rewrite length_drop; lia).
  pose proof (Forall_drop _ (4 * t) _ Hbytes) as Hf.
  destruct (drop (4 * t) block) as [|a [|b [|c [|d l]]]]; cbn in Hl; try lia.
  exists a, b, c, d, l. rewrite !Forall_cons in Hf. tauto.
Qed.

(** The recurrence does not depend on the fuel. *)
Lemma sched_word_fuel f t : (t < f)%nat -> sched_word f block t = W block t.
Proof.
  revert f. induction t as [t IH] using lt_wf_ind. intros [|f] Hf; [lia|]. unfold W. cbn [sched_word].
  destruct (Nat.ltb_spec t 16); [done|].
  rewrite !(IH (t - 2)%nat), !(IH (t - 7)%nat), !(IH (t - 15)%nat), !(IH (t - 16)%nat) by lia. done.
Qed.

Lemma W_step t : (16 <= t)%nat ->
  W block t = (sigma1 (W block (t - 2)) + W block (t - 7) + sigma0 (W block (t - 15)) + W block (t - 16)) mod 2 ^ 32.
Proof.
  intros Ht. unfold W at 1. cbn [sched_word]. destruct (Nat.ltb_spec t 16); [lia|].
  by rewrite !sched_word_fuel by lia.
Qed.

Lemma W_word t : word (W block t).
Proof.
  destruct (decide (t < 16)%nat) as [Hlt|Hge].
  - unfold W. cbn [sched_word]. rewrite (proj2 (Nat.ltb_lt t 16) Hlt).
    destruct (block_word t Hlt) as (a & b & c & d & l & -> & Ha & Hb & Hc & Hd). by apply be_val_word.
  - rewrite W_step by lia. apply Z.mod_pos_bound. done.
Qed.

Lemma schedule_W n k : (16 <= k)%nat -> schedule n (W block <$> seq 0 k) = W block <$> seq 0 (k + n).
Proof.
  revert k. induction n as [|n IH]; intros k Hk; cbn [schedule]; [by rewrite Nat.add_0_r|].
  rewrite length_fmap, length_seq.
  assert (Hat : forall j, (j < k)%nat -> at_ (W block <$> seq 0 k) j = W block j).
  { intros j Hj. unfold at_. by rewrite list_lookup_fmap, lookup_seq_lt. }
  rewrite !Hat, GAM1_sigma1, GAM0_sigma0 by (apply W_word || lia).
  unfold u32. rewrite <- W_step by done.
  replace (k + S n)%nat with (S k + n)%nat by lia. rewrite <- IH by lia. f_equal.
  by rewrite seq_S, fmap_app.
Qed.

Lemma block_schedule :
  schedule 48 ((fun i => be32 (drop (4 * i) block)) <$> seq 0 16) = W block <$> seq 0 64.
Proof.
  change 64%nat with (16 + 48)%nat. rewrite <- (schedule_W 48 16) by lia. f_equal. apply list_fmap_ext. intros j t Ht.
  apply lookup_seq in Ht as [-> Hj]. cbn [Nat.add]. unfold W. cbn [sched_word].
  rewrite (proj2 (Nat.ltb_lt j 16) Hj).
  destruct (block_word j Hj) as (a & b & c & d & l & -> & Ha & Hb & Hc & Hd). by apply be32_val.
Qed.

(** ** The rounds *)
Definition vars_ok (v : list Z) : Prop := length v = 8%nat /\ Forall word v.

Lemma round_eq ks v : vars_ok v -> (forall t, t ∈ ks -> (t < 64)%nat) ->
  rounds ks (W block <$> seq 0 64) v = fold_left (sround block) ks v /\ vars_ok (fold_left (sround block) ks v).
Proof.
  revert v. induction ks as [|t ks IH]; intros v [Hl Hw] Ht; [done|]. cbn [rounds fold_left].
  destruct v as [|a [|b [|c [|d [|e [|f [|g [|h [|? ?]]]]]]]]]; try done. rewrite !Forall_cons in Hw.
  destruct Hw as (Ha & Hb & Hc & Hd & He & Hf & Hg & Hh & _). cbn [sround].
  assert (Hat : at_ (W block <$> seq 0 64) t = W block t).
  { unfold at_. rewrite list_lookup_fmap, lookup_seq_lt by (apply Ht; set_solver). done. }
  rewrite Hat, (SHA_K_at t), SIG1_Sigma1, CH_Ch, SIG0_Sigma0, MAJ_Maj by (done || apply Ht; set_solver). unfold u32.
  rewrite <- Zplus_mod. rewrite Zplus_mod_idemp_r.
  apply IH; [|intros; apply Ht; set_solver]. split; [done|].
  repeat (apply Forall_cons; split; [first [done|apply Z.mod_pos_bound; done]|]). done.
Qed.

Lemma block_compress h : vars_ok h -> sha256_block h block = compress h block /\ vars_ok (compress h block).
Proof.
  intros Hh. unfold sha256_block, compress. rewrite block_schedule.
  destruct (round_eq (seq 0 64) h Hh) as [-> [Hl Hw]]; [intros t Ht; apply elem_of_seq in Ht; lia|].
  split; [done|]. split.
  - rewrite length_zip_with. destruct Hh as [-> _]. rewrite Hl. done.
  - apply Forall_lookup. intros i x Hx. apply lookup_zip_with_Some in Hx as (y & z & -> & _). apply Z.mod_pos_bound. done.
Qed.
End Block.

(** ** Blocks and padding *)
Lemma chunks_app l1 l2 q : length l1 = (64 * q)%nat -> chunks (l1 ++ l2) = chunks l1 ++ chunks l2.
Proof.
  intros Hl. unfold chunks. rewrite length_app, Hl.
  replace ((64 * q + length l2) / 64)%nat with (q + length l2 / 64)%nat by (rewrite (Nat.mul_comm 64), Nat.div_add_l; lia).
  rewrite (Nat.mul_comm 64 q), Nat.div_mul by lia. rewrite seq_app, fmap_app. f_equal.
  - apply list_fmap_ext. intros i x Hx. apply lookup_seq in Hx as [-> Hi]. cbn [Nat.add].
    rewrite drop_app_le by lia. rewrite take_app_le by (rewrite length_drop; lia). done.
  - apply list_eq. intros i. rewrite !list_lookup_fmap.
    destruct (decide (i < length l2 / 64)%nat) as [Hi|Hi].
    + rewrite !lookup_seq_lt by done. cbn. rewrite drop_app_ge by lia. do 3 f_equal. lia.
    + rewrite !lookup_seq_ge by lia. done.
Qed.

Lemma chunks_one l : length l = 64%nat -> chunks l = [l].
Proof. intros Hl. unfold chunks. rewrite Hl. cbn. rewrite drop_0, take_ge by lia. done. Qed.

Lemma chunks_block l b : b ∈ chunks l -> Forall is_byte l -> length b = 64%nat /\ Forall is_byte b.
Proof.
  intros Hb Hl. unfold chunks in Hb. apply list_elem_of_fmap in Hb as (i & -> & Hi). apply elem_of_seq in Hi.
  pose proof (Nat.div_mod_eq (length l) 64). split; [rewrite length_take, length_drop; lia|].
  by apply Forall_take, Forall_drop.
Qed.

Lemma blocks_compress bs h : vars_ok h -> (forall b, b ∈ bs -> length b = 64%nat /\ Forall is_byte b) ->
  fold_left sha256_block bs h = fold_left compress bs h /\ vars_ok (fold_left compress bs h).
Proof.
  revert h. induction bs as [|b bs IH]; intros h Hh Hb; [done|]. cbn [fold_left].
  destruct (Hb b) as [H1 H2]; [set_solver|]. destruct (block_compress b H1 H2 h Hh) as [-> Hc].
  apply IH; [done|]. intros b' Hb'. apply Hb. set_solver.
Qed.

Lemma fold_left_fmap {A B C} (f : A -> B -> A) (g : C -> B) l a :
  fold_left f (g <$> l) a = fold_left (fun a c => f a (g c)) l a.
Proof. revert a. induction l as [|c l IH]; intros a; [done|]. cbn. apply IH. Qed.

Lemma be_bytes_bytes n v : Forall is_byte (be_bytes n v).
Proof. unfold be_bytes. apply Forall_reverse. apply le_bytes_byte. Qed.

Lemma pad_bytes msg : Forall is_byte msg -> Forall is_byte (pad msg).
Proof.
  intros H. unfold pad. rewrite !Forall_app. split_and!; [done| | |apply be_bytes_bytes].
  - repeat constructor. unfold is_byte. lia.
  - apply Forall_replicate. unfold is_byte. lia.
Qed.

(** The blocks of the padded message: the whole blocks of the message, and the one or two
    blocks the code builds from its tail. *)
Lemma pad_chunks msg :
  8 * Z.of_nat (length msg) < 2 ^ 64 ->
  let q := (length msg / 64)%nat in
  let T := drop (64 * q) msg in
  let r := (length msg - 64 * q)%nat in
  let bits := be64put (u64 (Z.of_nat (length msg) * 8)) in
  chunks (pad msg) = ((fun i => take 64 (drop (64 * i) msg)) <$> seq 0 q) ++
    (if (r <? 56)%nat then [T ++ [0x80] ++ replicate (56 - r - 1) 0 ++ bits]
     else [T ++ [0x80] ++ replicate (64 - r - 1) 0; replicate 56 0 ++ bits]).
Proof.
  intros Hlen q T r bits. pose proof (Nat.div_mod_eq (length msg) 64) as Hdm. fold q in Hdm.
  pose proof (Nat.mod_upper_bound (length msg) 64 ltac:(lia)) as Hr.
  assert (HT : length T = r) by (unfold T; by rewrite length_drop).
  assert (HA : length (take (64 * q) msg) = (64 * q)%nat) by (rewrite length_take; lia).
  assert (Hb : bits = be_bytes 8 (8 * Z.of_nat (length msg))).
  { unfold bits. rewrite be64put_bytes. f_equal. unfold u64. rewrite Z.mod_small; lia. }
  assert (Hbl : length bits = 8%nat) by (rewrite Hb; unfold be_bytes; by rewrite length_reverse, length_le_bytes).
  assert (Hk : Z.to_nat ((55 - Z.of_nat (length msg)) mod 64) = (if (r <? 56)%nat then 56 - r - 1 else 64 - r - 1 + 56)%nat).
  { rewrite <- (Nat2Z.id (if (r <? 56)%nat then _ else _)). f_equal. symmetry.
    apply (Z.mod_unique_pos _ _ (if (r <? 56)%nat then - Z.of_nat q else - Z.of_nat q - 1));
      destruct (Nat.ltb_spec r 56); lia. }
  assert (Hp : pad msg = take (64 * q) msg ++ T ++ [0x80] ++
    replicate (if (r <? 56)%nat then 56 - r - 1 else 64 - r - 1 + 56)%nat 0 ++ bits).
  { unfold pad. rewrite Hk, <- Hb. rewrite <- (take_drop (64 * q) msg) at 1. by rewrite <- app_assoc. }
  rewrite Hp, (chunks_app _ _ q HA). f_equal.
  - unfold chunks. rewrite HA. replace (64 * q / 64)%nat with q by (rewrite Nat.mul_comm, Nat.div_mul; lia). apply list_fmap_ext. intros i x Hx.
    apply lookup_seq in Hx as [-> Hi]. cbn [Nat.add]. rewrite <- (take_drop (64 * q) msg) at 2.
    rewrite drop_app_le by lia. rewrite take_app_le by (rewrite length_drop; lia). done.
  - destruct (Nat.ltb_spec r 56).
    + apply chunks_one. rewrite !length_app, length_replicate, Hbl. cbn [length]. lia.
    + rewrite replicate_add, <- app_assoc. rewrite (app_assoc [0x80]), (app_assoc T).
      rewrite (chunks_app _ _ 1); [|rewrite !length_app, length_replicate; cbn [length]; lia].
      rewrite !chunks_one; [done| |]; rewrite !length_app, length_replicate; [by rewrite Hbl|cbn [length]; lia].
Qed.

Lemma digest_bytes h : vars_ok h -> be32put <$> h = be_bytes 4 <$> h /\ length (mjoin (be32put <$> h)) = 32%nat.
Proof.
  intros [Hl Hw]. split.
  - apply list_fmap_ext. intros i x Hx. apply be32put_bytes. by eapply Forall_lookup_1.
  - by destruct h as [|? [|? [|? [|? [|? [|? [|? [|? [|? ?]]]]]]]]].
Qed.

(** C26. The SHA-256 of the lab is SHA-256.  For every message of bytes shorter than 2^61
    bytes, vos_sha256, which processes the whole blocks of the message and then one or
    two blocks built from its tail, returns the digest FIPS 180-4 defines: the padded
    message folded block by block with the schedule recurrence and the 64 rounds, in
    big-endian order.  The digest has 32 bytes. *)
Theorem vos_sha256_correct msg :
  Forall is_byte msg -> 8 * Z.of_nat (length msg) < 2 ^ 64 ->
  vos_sha256 msg = sha256 msg /\ length (vos_sha256 msg) = 32%nat.
Proof.
  intros Hm Hlen.
  destruct (blocks_compress (chunks (pad msg)) hash_init) as [Hb Hv].
  { rewrite <- SHA_H_init. split; [done|]. apply (bool_decide_unpack _). by vm_compute. }
  { intros b Hb. apply (chunks_block (pad msg)); [done|]. by apply pad_bytes. }
  assert (Hh : vos_sha256 msg = mjoin (be32put <$> fold_left compress (chunks (pad msg)) hash_init)).
  { unfold vos_sha256. rewrite SHA_H_init, <- Hb, (pad_chunks msg Hlen), fold_left_app, fold_left_fmap. do 2 f_equal.
    rewrite (Nat.mul_comm (length msg / 64) 64).
    replace (64 * (length msg / 64) / 64)%nat with (length msg / 64)%nat by (rewrite Nat.mul_comm, Nat.div_mul; lia).
    cbv zeta. by destruct (Nat.ltb_spec (length msg - 64 * (length msg / 64)) 56). }
  destruct (digest_bytes _ Hv) as [E1 E2]. rewrite Hh. split; [by rewrite E1|exact E2].
Qed.

(** The digest of abc. *)
Lemma vos_sha256_correct_witness :
  sha256 [97; 98; 99] =
    [0xba; 0x78; 0x16; 0xbf; 0x8f; 0x01; 0xcf; 0xea; 0x41; 0x41; 0x40; 0xde; 0x5d; 0xae; 0x22; 0x23;
     0xb0; 0x03; 0x61; 0xa3; 0x96; 0x17; 0x7a; 0x9c; 0xb4; 0x10; 0xff; 0x61; 0xf2; 0x00; 0x15; 0xad].
Proof.
  destruct (vos_sha256_correct [97; 98; 99]) as [E _].
  - apply (bool_decide_unpack _). vm_compute. exact I.
  - vm_compute. reflexivity.
  - rewrite <- E. vm_compute. reflexivity.
Defined.
